(* ===== verification/_CoqProject ===== *)
-Q . S2P
Prelude.v
Errors.v
GoStrings.v
GoTime.v
GoJson.v
External.v
Domain.v
MarketData.v
Calendar.v
CalendarFacts.v
CalendarHours.v
Window.v
Freshness.v
FreshnessFacts.v
CatchUp.v
CatchUpFacts.v
Incremental.v
IncrementalFacts.v
Ports.v
Registry.v
GoSha256.v
Ingestion.v
Service.v
Fixtures.v
IngestionFacts.v
ManualTasks.v
ServiceFacts.v
Database.v
Statements.v
Repository.v
RepositoryFacts.v
Lifecycle.v
RepositoryFixtures.v
History.v
HistoryFacts.v
StoreFacts.v
Worker.v
Application.v
Listing.v
Subscriptions.v
IngestionQueries.v
SubscriptionStore.v
MarketQueries.v
InstrumentOptions.v
ProviderStatus.v
CatalogStore.v
SubscriptionFacts.v
QueryFacts.v
ReadFacts.v
ProviderFacts.v
GoText.v
GoJsonTree.v
DomainJson.v
HttpCore.v
HttpQueries.v
JsonFacts.v
HttpManagement.v
PublicErrors.v
HttpFacts.v
AccessFacts.v
HttpFixtures.v
ProviderClient.v
Bybit.v
CoinGecko.v
Longbridge.v
AdapterFacts.v
AdapterErrors.v
BybitPaging.v
AdapterFixtures.v
GoFloat.v
Config.v
ServiceHost.v
SqlBuilder.v
Observability.v
HttpServer.v
Main.v
ProcessFacts.v
ObservabilityFacts.v
ServerFacts.v
ProcessFixtures.v
