(* ===== verification/Prelude.v ===== *)
(** * Market Information Service: verification library (root)

    The service (src/market-info-service) collects market bars and quotes from
    providers, stores them in PostgreSQL and answers public and management
    queries. A scheduler turns subscriptions and the market calendar into
    batches of work, the repository stores runs and tasks, workers claim tasks
    under a lease, the ingestion service fetches, checks and commits their bars,
    and application services read what is stored and manage subscriptions. The
    development translates that code into executable definitions and proves what
    makes it correct. File names below are relative to
    src/market-info-service/internal unless they name a .v file.

    ** The language and the libraries

    - Prelude.v: notations, tactics ([bsimp], [inv_ok], [split_guard]) and the
      lemmas on lists, options and 64-bit integers the files share.
    - Errors.v: Go's error values (sentinels, wrapping, joins, driver, provider
      and application errors), [errors.Is] and [errors.As], the [result] type
      ([Diverge] is a loop that does not end within its fuel), the stateful
      computations [M W A] against a world [W], and their program logic: [safe]
      (a Hoare triple kept on every outcome), [keeps], [finishes].
    - GoStrings.v, GoTime.v, GoJson.v, GoSha256.v, GoText.v, GoJsonTree.v, GoFloat.v: what
      the code uses of Go's standard library: runes and UTF-8, instants as nanoseconds and the proleptic
      Gregorian calendar, JSON encoding, validity and the decoding of string
      members, SHA-256; strconv, base64, query strings and RFC 3339 texts;
      headers, URLs and the client of package net/http, whose exchange, URL parser
      and date parser are type classes; JSON values as trees and as raw texts,
      their reader and the decoding of a value into the fields of a struct;
      decimal texts of integers; binary64 numbers and their shortest decimal
      texts, durations and host and port pairs. A reader's fuel is [json_fuel] of its text, more
      than the bytes it may read.
    - External.v: exact decimals, UUIDs and time zones, the third-party code, as
      type classes with their documented laws, and concrete instances for the
      witnesses.

    ** Domain and scheduling

    - Domain.v (domain/*.go), MarketData.v (domain/market_data.go,
      domain/ingestion.go, domain/quality.go): entities and validation.
    - Calendar.v, CalendarFacts.v, CalendarHours.v (markettime/calendar.go): the
      NYSE calendar, proved against the sessions of its years: [SessionForDate],
      [SessionAt], [NextSession], [PreviousSession]; its lists of closures are
      proved to be the exchange's holidays, computed from their rules. The day loops of the two
      searches have fuel for the loaded years (calendar_fuel), proved enough.
    - Window.v (scheduler/window.go), Freshness.v and FreshnessFacts.v
      (scheduler/freshness.go), CatchUp.v and CatchUpFacts.v
      (scheduler/catchup.go): closed windows of continuous markets, the hourly and
      daily bars of a US session, freshness in trading time, and the windows
      missing since a checkpoint. The session loops have fuel session_fuel, one
      step per session of the loaded years, proved enough.
    - Incremental.v, IncrementalFacts.v (scheduler/incremental.go): [RunOnce] over
      its store interface; every batch it submits is valid, and run keys separate
      batches.

    ** Ingestion

    - Ports.v (ingestion/ports), Registry.v (providers/registry.go): the contract
      of provider adapters, and the registry that enforces it.
    - Ingestion.v, IngestionFacts.v (ingestion/contracts.go, quality.go, retry.go,
      run.go): execution contexts, structural quality, failure classification,
      bounded backoff, run summaries.
    - Service.v, ServiceFacts.v (ingestion/service.go): the execution
      of a claimed task: it pages through the provider, refuses duplicates, makes
      only commits of its own claim, and ends within a bounded number of calls.
    - ManualTasks.v (ingestion/backfill.go, manual_tasks.go): the administrator's
      backfills, retries and cancellations.
    - Worker.v (ingestion/worker/worker.go): the claim loops as
      steps of interleaved slots, bounded concurrency, only claims leased beyond
      the time they were claimed at, no work after a cancellation, the shutdown.

    ** Provider adapters (providers)

    - ProviderClient.v: what the packages bybit and coingecko repeat: classified
      errors, construction, the bounded exchange, the delay of Retry-After.
      Bybit.v, CoinGecko.v, Longbridge.v: the adapters, each an instance of the
      contract of Ports.v. A world holds what a client answers; the clients, the
      Longbridge SDK with its errors, and the clock are parameters.
    - AdapterFacts.v: the pages of the adapters: what a bar of CoinGecko's daily
      rates and a bar of a US session is made of. AdapterErrors.v: every error is
      the context's or a classified one, and the retry delay of a throttled
      answer with the range in which it overflows. BybitPaging.v: the ingestion
      service over the Bybit adapter collects exactly the rows of an exchange that
      answers with the latest rows of a range. AdapterFixtures.v: an exchange, a
      price service and a candlestick client for the witnesses.

    ** Storage (repository/postgres)

    - Database.v, Statements.v: the tables as finite maps, the SQL statements with
      the constraints the migrations declare, and the server: column types,
      collation by bytes and the JSON operators are the class [PgLib], with the
      laws [PgLaws]; a driver may fail any statement (a list of faults in the
      world), and a statement outside a transaction may be applied although it
      reports a failure. A transaction restores the tables when it fails; two
      transactions interleave as whole steps, which is what the row locks and the
      advisory lock of the code are for; a set of locked rows is a parameter of
      the statements that skip them.
    - Repository.v (ingestion.go, manual_tasks.go, market_data.go, quality.go,
      errors.go, value.go): the operations. RepositoryFacts.v,
      Lifecycle.v, History.v, HistoryFacts.v and StoreFacts.v prove, over every history of the operations, that tables stay
      well formed, that rows only evolve, that claims are exclusive, that an
      attempt is committed at most once, that transactions are all-or-nothing,
      and what a commit, a bar write, a summary, a batch and a claim do.
    - SubscriptionStore.v (subscription.go, ingestion_queries.go),
      CatalogStore.v (catalog.go, bar_query.go, latest_quote_query.go,
      provider_status.go): subscriptions and the joined read models; they are the
      instances of the interfaces the application services are written against.

    ** Application services (application, auth)

    - Application.v (errors.go, auth.go, auth/static.go), Listing.v ([SliceStable]
      sorting and keyset pages), Subscriptions.v (subscriptions.go),
      IngestionQueries.v (ingestion_queries.go), MarketQueries.v (bars.go,
      latest_quotes.go), InstrumentOptions.v (instrument_options.go,
      instrument_precision.go), ProviderStatus.v (provider_status.go): each
      service over a class of its store or readers.
    - SubscriptionFacts.v: a created subscription reads back
      as it was returned, an update is a patch, and following the pages of the
      listing over the repository lists every match once. QueryFacts.v: the same
      for runs, whose selected and shown status agree, and what of a task failure
      is public. ReadFacts.v: pages of bars and batches of precision.
      ProviderFacts.v: provider health, and where it leaves its documented
      priority. PublicErrors.v: every error of the services, after the handlers'
      classification, is one the interface maps or a named failure of a command's
      collaborator.

    ** The HTTP interface (api/httpapi)

    - DomainJson.v: the JSON forms of instants, codes, enumerations, decimals and
      identities (domain/*.go). HttpCore.v (pagination.go, errors.go, json.go,
      request_id.go, auth.go): page sizes and cursors, the error envelope, request
      bodies, request identities, the authentication and permission middlewares.
    - HttpQueries.v (public_queries.go, bars.go, latest_quotes.go,
      instrument_options.go, instrument_precision.go), HttpManagement.v
      (subscriptions.go, ingestion_queries.go, ingestion_commands.go,
      backfills.go, provider_status.go): each handler as the composition of its
      request parser, the application service and its response; a handler is a
      function of a request to a committed response, in the world of the service.
    - JsonFacts.v: what is written is read back: JSON strings, arrays
      and cursor payloads, RFC 3339 texts. HttpFacts.v: cursors, the public form
      of errors, request bodies, page sizes and JSON round trips. AccessFacts.v: the static authenticator, who reaches a protected
      handler, and the listings that fail.
      HttpFixtures.v: concrete requests through the composed handlers.

    ** The process (cmd, config, servicehost, server, database, observability)

    - Config.v (config/config.go): the environment as a function to optional
      texts, the settings, their defaults and the validation of a runtime mode.
    - ServiceHost.v (servicehost, server/server.go): [servicehost.Run] as a
      transition system of runners that return whenever they like, proved to wait
      for all of them in a bounded number of steps; the scheduler loop as a
      function of its timer and context events.
    - SqlBuilder.v (database/sqlbuilder/select.go): the SELECT builder; the n-th
      placeholder of a built text is bound to the n-th argument.
    - Observability.v (observability/health.go, metrics.go, alerts.go,
      database/readiness, repository/postgres/metrics.go): readiness, histograms,
      the text exposition, the operational snapshot with its query, the alerts.
    - HttpServer.v (observability/logging.go, api/httpapi/observability.go):
      log records and their redaction, the middleware that answers panics, counts
      and logs, and [http.ServeMux] for clean paths, whose handlers end by
      returning or by a panic. A log is what its sink is given.
    - Main.v (cmd/market-info, cmd/market-info-migrate, database/postgres/pool.go,
      database/migrations/migrations.go): the composition of the server, the
      adapters, the worker and the scheduler out of the definitions above, what is
      opened and closed, and the exit codes. The pool, goose and the host's run
      of the components are parameters; a component is the data its runner is
      built of.
    - ProcessFacts.v: a run releases what it opens on every path; an accepted
      configuration can be started, but for three texts the loading does not look
      into; the default page size refuses every request
      to CoinGecko. ObservabilityFacts.v: histograms, alerts, redacted logs.
      ServerFacts.v: each request is answered, counted and logged once; the
      routes do not overlap, and those of the management API answer 401 without
      the administrator's token. ProcessFixtures.v: the concrete world of their
      witnesses.

    A walk over pages has the number of matches plus one as its fuel, which the
    theorems prove enough. Fixtures.v and RepositoryFixtures.v hold the concrete
    inputs of the witnesses and model no code.

    ** Not modelled

    - The listener of package net/http and its client and transport; reading a
      body and writing a response do not fail. Redirects of the mux for paths that
      are not clean. The JSON text of log records. Signals and standard streams.
    - pgxpool, goose, the Longbridge SDK: third-party code, as parameters. The DDL
      of the migrations: its constraints are in the statements.
    - The nil checks of constructors, whose arguments are always given here.
    - testkit (support of the tests), the Python backend and the frontend. *)

From Stdlib Require Export ZArith Lia Bool String Ascii List.
From stdpp Require Export base gmap sets list strings fin_maps.

#[export] Set Default Goal Selector "!".
#[global] Arguments String.append !_ _ / : simpl nomatch.

(** ** Scopes and boolean notations

    [s =s t] is Go's [==] on strings; [s <>s t] is [!=]. *)
Declare Scope go_scope.
Delimit Scope go_scope with go.
Open Scope Z_scope.
Open Scope go_scope.

Notation "s =s t" := (String.eqb s t) (at level 70, no associativity) : go_scope.
Notation "s <>s t" := (negb (String.eqb s t)) (at level 70, no associativity) : go_scope.
Notation "a =id b" := (N.eqb a b) (at level 70, no associativity) : go_scope.
Notation "a <>id b" := (negb (N.eqb a b)) (at level 70, no associativity) : go_scope.

(** ** Machine integers

    Go's [int], [int64] and [time.Duration] are 64-bit two's complement; an
    arithmetic result is reduced into the range by [wrap64]. *)
Definition int64_min : Z := - 2 ^ 63.
Definition int64_max : Z := 2 ^ 63 - 1.

Definition wrap64 (z : Z) : Z := (z + 2 ^ 63) mod 2 ^ 64 - 2 ^ 63.

Definition int64_range (z : Z) : Prop := int64_min <= z <= int64_max.

(** [int16(x)]: the conversion keeps the low 16 bits. *)
Definition wrap16 (z : Z) : Z := (z + 2 ^ 15) mod 2 ^ 16 - 2 ^ 15.

Definition int32_max : Z := 2 ^ 31 - 1.

Lemma wrap64_id z : int64_range z -> wrap64 z = z.
Proof.
  unfold int64_range, int64_min, int64_max, wrap64. intros H.
  rewrite Z.mod_small; lia.
Qed.

Lemma wrap64_range z : int64_range (wrap64 z).
Proof.
  unfold int64_range, int64_min, int64_max, wrap64.
  pose proof (Z.mod_pos_bound (z + 2 ^ 63) (2 ^ 64)). lia.
Qed.

Lemma wrap16_id z : 0 <= z < 2 ^ 15 -> wrap16 z = z.
Proof. unfold wrap16. intros H. rewrite Z.mod_small; lia. Qed.

(** ** Optional values (Go pointers used as optional fields) *)
Definition is_nil {A} (o : option A) : bool := match o with None => true | Some _ => false end.
Definition not_nil {A} (o : option A) : bool := negb (is_nil o).

(** [opt_test f o] is [o != nil] and [f] of the pointee. *)
Definition opt_test {A} (f : A -> bool) (o : option A) : bool :=
  match o with Some a => f a | None => false end.

(** Go's [len] on a string or slice, as an [int]. *)
Definition slen (s : string) : Z := Z.of_nat (String.length s).
Definition llen {A} (l : list A) : Z := Z.of_nat (length l).

(** The loop [for _, v := range values { if v == expected { return true } }]
    over a slice of strings. *)
Definition contains_string (values : list string) (expected : string) : bool :=
  existsb (fun v => v =s expected) values.

Lemma contains_string_In values expected :
  contains_string values expected = true <-> In expected values.
Proof.
  unfold contains_string. rewrite existsb_exists. split.
  - intros (v & Hin & ->%String.eqb_eq). done.
  - intros Hin. exists expected. split; [done | apply String.eqb_refl].
Qed.

(** The loops that reject a repeated key of a slice, with a [seen] set. *)
Fixpoint has_dup {A} (eqb : A -> A -> bool) (l : list A) : bool :=
  match l with
  | [] => false
  | x :: l' => existsb (eqb x) l' || has_dup eqb l'
  end.

(** ** Automation

    [bool_hyps] turns the boolean guards left by the models' conditionals into
    propositions that [lia] and [congruence] understand. *)
Create HintDb go.
Create Rewrite HintDb go_bool.
Create Rewrite HintDb go.

Lemma opt_test_false {A} (f : A -> bool) o :
  opt_test f o = false <-> forall a, o = Some a -> f a = false.
Proof. destruct o; simpl; naive_solver. Qed.

Lemma opt_test_true {A} (f : A -> bool) o :
  opt_test f o = true <-> exists a, o = Some a /\ f a = true.
Proof. destruct o; simpl; naive_solver. Qed.

Lemma is_nil_true {A} (o : option A) : is_nil o = true <-> o = None.
Proof. destruct o; simpl; naive_solver. Qed.
Lemma is_nil_false {A} (o : option A) : is_nil o = false <-> exists a, o = Some a.
Proof. destruct o; simpl; naive_solver. Qed.
Lemma not_nil_true {A} (o : option A) : not_nil o = true <-> exists a, o = Some a.
Proof. destruct o; simpl; naive_solver. Qed.
Lemma not_nil_false {A} (o : option A) : not_nil o = false <-> o = None.
Proof. destruct o; simpl; naive_solver. Qed.

#[export] Hint Rewrite orb_false_iff orb_true_iff andb_true_iff andb_false_iff negb_false_iff
  negb_true_iff Z.ltb_lt Z.ltb_ge Z.leb_le Z.leb_gt Z.eqb_eq Z.eqb_neq N.eqb_eq N.eqb_neq
  String.eqb_eq String.eqb_neq @is_nil_true @is_nil_false @not_nil_true @not_nil_false : go_bool.

Ltac bool_hyps := autorewrite with go_bool in *.
Ltac destruct_ands :=
  repeat match goal with H : _ /\ _ |- _ => destruct H end.
Ltac bsimp := bool_hyps; destruct_ands.

(** The disjuncts of a guard that did not fire. *)
Ltac split_guard G := repeat (let G' := fresh "N" in apply orb_false_iff in G; destruct G as [G G']).

(** Case analysis on the innermost conditional of the goal. *)
Ltac case_if :=
  match goal with
  | |- context [if ?b then _ else _] =>
      lazymatch b with
      | context [if _ then _ else _] => fail
      | _ => let E := fresh "E" in destruct b eqn:E
      end
  end.

(** Case analysis on every integer comparison of the goal. *)
Ltac case_Z :=
  repeat match goal with
  | |- context [Z.eqb ?a ?b] => destruct (Z.eqb_spec a b)
  | |- context [Z.ltb ?a ?b] => destruct (Z.ltb_spec a b)
  | |- context [Z.leb ?a ?b] => destruct (Z.leb_spec a b)
  end.

(** Instantiate the hypotheses [forall x, Some a = Some x -> ...]. *)
Ltac spec_some :=
  repeat match goal with
  | H : forall x, Some ?a = Some x -> _ |- _ => specialize (H a eq_refl)
  | H : forall x y, Some ?a = Some x -> Some ?b = Some y -> _ |- _ => specialize (H a b eq_refl eq_refl)
  end.

(** ** Generic list lemmas shared by the components *)
Lemma has_dup_false_NoDup {A} (eqb : A -> A -> bool) (l : list A) :
  (forall x y, eqb x y = true <-> x = y) ->
  has_dup eqb l = false <-> List.NoDup l.
Proof.
  intros Heq. induction l as [|x l IH]; simpl.
  - split; [constructor | done].
  - rewrite orb_false_iff, IH. split.
    + intros [Hx Hl]. constructor; [| done]. intros Hin.
      assert (existsb (eqb x) l = true); [| congruence].
      apply existsb_exists. exists x. split; [done | by apply Heq].
    + intros Hn. inversion_clear Hn as [| ? ? Hx Hl]. split; [| done].
      destruct (existsb (eqb x) l) eqn:E; [| done].
      apply existsb_exists in E as (y & Hin & Hxy). apply Heq in Hxy. by subst.
Qed.

Lemma NoDup_map_same {A B} (f : A -> B) (l : list A) x y :
  List.NoDup (map f l) -> In x l -> In y l -> f x = f y -> x = y.
Proof.
  induction l as [|z l IH]; intros Hn [] Hy E; inversion Hn as [|? ? Hz Hl]; subst.
  - destruct Hy as [<- | Hy]; [reflexivity |]. exfalso. apply Hz. rewrite E. by apply in_map.
  - destruct Hy as [<- | Hy]; [| by apply IH]. exfalso. apply Hz. rewrite <- E. by apply in_map.
Qed.

Lemma NoDup_range_length (l : list Z) n : List.NoDup l -> (forall x, In x l -> 1 <= x <= n) -> 0 <= n -> llen l <= n.
Proof.
  intros Hn Hr Hp. assert (incl l (map Z.of_nat (seq 1 (Z.to_nat n)))) as Hi.
  { intros x Hx. apply Hr in Hx. apply in_map_iff. exists (Z.to_nat x). split; [lia |]. apply in_seq. lia. }
  apply (NoDup_incl_length Hn) in Hi. rewrite length_map, length_seq in Hi. unfold llen. lia.
Qed.

Lemma Permutation_filter_bool {A} (f : A -> bool) l k : l ≡ₚ k -> List.filter f l ≡ₚ List.filter f k.
Proof.
  induction 1 as [| x l k H IH | x y l | l k m H1 IH1 H2 IH2]; simpl; [reflexivity | by destruct (f x); rewrite IH | | by rewrite IH1].
  destruct (f x), (f y); try reflexivity. by apply Permutation_swap.
Qed.

Lemma last_cons_default {A} (l : list A) (x d d' : A) : List.last (x :: l) d = List.last (x :: l) d'.
Proof. revert x. induction l as [|y l IH]; intros x; [done |]. simpl in *. apply IH. Qed.

(** Adjacent elements of a list are related by [R]. *)
Inductive chained {A} (R : A -> A -> Prop) : list A -> Prop :=
  | chained_nil : chained R []
  | chained_one x : chained R [x]
  | chained_cons x y l : R x y -> chained R (y :: l) -> chained R (x :: y :: l).
#[export] Hint Constructors chained : go.

Lemma chained_tail {A} (R : A -> A -> Prop) x l : chained R (x :: l) -> chained R l.
Proof. inversion 1; subst; eauto with go. Qed.

Lemma chained_weaken {A} (R S : A -> A -> Prop) l :
  (forall x y, R x y -> S x y) -> chained R l -> chained S l.
Proof. induction 2; eauto with go. Qed.

Lemma chained_forall {A} (R : A -> A -> Prop) x l :
  (forall a b c, R a b -> R b c -> R a c) -> chained R (x :: l) -> Forall (R x) l.
Proof.
  intros Ht. revert x. induction l as [|y l IH]; intros x H; [done |].
  inversion H as [| | ? ? ? Hxy Hl]; subst. constructor; [done |].
  eapply Forall_impl; [exact (IH y Hl) | eauto].
Qed.
