(* ===== verification/Errors.v ===== *)
(** * Go errors and fallible results

    The error values the service builds ([errors.New], [fmt.Errorf] with [%w],
    [errors.Join], [ports.ProviderError], driver errors), [errors.Is] and the
    extraction part of [errors.As], and the result monad of the models. *)
From S2P Require Import Prelude.

(** The sentinel errors of the packages under internal/ and of [context]. *)
Inductive sentinel :=
  (* domain/errors.go *)
  | ErrNotFound | ErrConflict | ErrReferenceViolation | ErrInvalidData
  | ErrRetryable | ErrDatabaseUnavailable | ErrInvalidState
  (* ingestion/contracts.go, ingestion/backfill.go, ingestion/manual_tasks.go *)
  | ErrTaskLeaseLost | ErrBackfillAlreadyRunning
  | ErrManualRetryAlreadyRunning | ErrManualRetrySourceUnavailable
  (* ingestion/ports/registry.go *)
  | ErrAdapterNotRegistered | ErrCapabilityUnsupported | ErrProviderLimitExceeded
  (* markettime/calendar.go, ingestion/worker/worker.go *)
  | ErrCalendarOutOfRange | ErrAlreadyRunning
  (* application/auth.go *)
  | ErrInvalidCredentials | ErrAuthenticationUnavailable
  (* observability/health.go: its [ErrDatabaseUnavailable] and [ErrMigrationIncompatible] *)
  | ErrReadinessDatabase | ErrMigrationIncompatible
  (* package context, and pgx's and database/sql's no-rows errors *)
  | Canceled | DeadlineExceeded | ErrNoRows.

#[export] Instance sentinel_eq_dec : EqDecision sentinel.
Proof. solve_decision. Defined.

Definition sentinel_eqb (a b : sentinel) : bool := bool_decide (a = b).

Lemma sentinel_eqb_eq a b : sentinel_eqb a b = true <-> a = b.
Proof. apply bool_decide_eq_true. Qed.

(** What the repository can observe of a driver error: the SQLSTATE and
    constraint of a [*pgconn.PgError], whether [pgconn.SafeToRetry] holds and
    whether it is a [net.Error]. *)
Record DriverError := mkDriverError {
  drv_code : option string;
  drv_constraint : string;
  drv_safe_to_retry : bool;
  drv_net : bool }.

(** application/errors.go: a field violation, and the [Details] of an
    application error, a map with at most one of two shapes. *)
Record FieldViolation := mkFieldViolation { Field : string; Reason : string }.
Inductive Details :=
  | NoDetails
  | Fields (violations : list FieldViolation)
  | Detail (key value : string).

(** An error value. Interpolated values of a format are not kept in [Wrap]'s
    and [Plain]'s text. [ProviderErr] is a [*ports.ProviderError], [AppErr] an
    [*application.Error]. *)
Inductive error :=
  | Sentinel (s : sentinel)
  | Plain (text : string)
  | Wrap (text : string) (e : error)
  | Join (e1 e2 : error)
  | Driver (d : DriverError)
  | ProviderErr (provider class message : string) (retryAfter : option Z) (cause : option error)
  | AppErr (code message : string) (retryable : bool) (details : Details) (cause : option error).

(** [errors.Is(err, target)] for a sentinel target. *)
Fixpoint errors_Is (e : error) (s : sentinel) : bool :=
  match e with
  | Sentinel s' => sentinel_eqb s' s
  | Plain _ | Driver _ => false
  | Wrap _ e' => errors_Is e' s
  | Join e1 e2 => errors_Is e1 s || errors_Is e2 s
  | ProviderErr _ _ _ _ c | AppErr _ _ _ _ c => match c with Some e' => errors_Is e' s | None => false end
  end.

(** [errors.As(err, &providerError)]: the first [*ProviderError] in the
    pre-order traversal of the error tree. *)
Fixpoint errors_AsProvider (e : error) : option error :=
  match e with
  | ProviderErr _ _ _ _ _ => Some e
  | Wrap _ e' => errors_AsProvider e'
  | Join e1 e2 => match errors_AsProvider e1 with Some p => Some p | None => errors_AsProvider e2 end
  | AppErr _ _ _ _ (Some e') => errors_AsProvider e'
  | _ => None
  end.

(** The first driver error in the tree, for [errors.As] on [*pgconn.PgError],
    [net.Error] and [pgconn.SafeToRetry]. *)
Fixpoint errors_AsDriver (f : DriverError -> bool) (e : error) : option DriverError :=
  match e with
  | Driver d => if f d then Some d else None
  | Wrap _ e' => errors_AsDriver f e'
  | Join e1 e2 => match errors_AsDriver f e1 with Some d => Some d | None => errors_AsDriver f e2 end
  | ProviderErr _ _ _ _ (Some e') | AppErr _ _ _ _ (Some e') => errors_AsDriver f e'
  | _ => None
  end.

(** ** Results

    [Ok v] is a nil error, [Err e] an error return, and [Diverge] a loop that
    has not finished within the fuel its model gives it; the termination
    theorems show that [Diverge] is never returned. *)
Inductive result (A : Type) :=
  | Ok (a : A)
  | Err (e : error)
  | Diverge.
Arguments Ok {A} a.
Arguments Err {A} e.
Arguments Diverge {A}.

Definition rbind {A B} (c : result A) (k : A -> result B) : result B :=
  match c with Ok a => k a | Err e => Err e | Diverge => Diverge end.

(** [wrap text c] is [if err != nil { return fmt.Errorf("text: %w", err) }]. *)
Definition wrap {A} (text : string) (c : result A) : result A :=
  match c with Err e => Err (Wrap text e) | _ => c end.

Definition is_ok {A} (c : result A) : bool := match c with Ok _ => true | _ => false end.
Definition is_err {A} (c : result A) : bool := match c with Err _ => true | _ => false end.

Notation "x <- c ;; k" := (rbind c (fun x => k))
  (at level 100, c at next level, right associativity) : go_scope.
Notation "'let*' p ':=' c ;; k" := (rbind c (fun x => match x with p => k end))
  (at level 100, p pattern, c at next level, right associativity) : go_scope.
Notation "c ;;; k" := (rbind c (fun _ => k)) (at level 100, right associativity) : go_scope.
(** [failif b, e ;; k] is [if b { return e }; k]. *)
Notation "'failif' b , e ;; k" := (if b then Err e else k)
  (at level 100, b at next level, e at next level, right associativity) : go_scope.

(** A stateful computation against a world [W] (a store, a clock, a provider):
    the world is kept on an error return, as in the code. *)
Definition M (W A : Type) : Type := W -> result A * W.

Definition mret {W A} (a : A) : M W A := fun w => (Ok a, w).
Definition mthrow {W A} (e : error) : M W A := fun w => (Err e, w).
Definition mlift {W A} (c : result A) : M W A := fun w => (c, w).
Definition mbind {W A B} (c : M W A) (k : A -> M W B) : M W B := fun w =>
  match c w with
  | (Ok a, w') => k a w'
  | (Err e, w') => (Err e, w')
  | (Diverge, w') => (Diverge, w')
  end.
Definition mwrap {W A} (text : string) (c : M W A) : M W A := fun w =>
  let '(r, w') := c w in (wrap text r, w').
(** [mcatch c h]: run [c] and hand its error to [h]. *)
Definition mcatch {W A} (c : M W A) (h : error -> M W A) : M W A := fun w =>
  match c w with (Err e, w') => h e w' | r => r end.

(** [mtry c]: [err := c], with the error as a value. *)
Definition mtry {W A} (c : M W A) : M W (result A) := fun w =>
  match c w with (Diverge, w') => (Diverge, w') | (r, w') => (Ok r, w') end.

Notation "x <-- c ;; k" := (mbind c (fun x => k))
  (at level 100, c at next level, right associativity) : go_scope.
Notation "'do*' p ':=' c ;; k" := (mbind c (fun x => match x with p => k end))
  (at level 100, p pattern, c at next level, right associativity) : go_scope.
Notation "'mfailif' b , e ;; k" := (if b then mthrow e else k)
  (at level 100, b at next level, e at next level, right associativity) : go_scope.

(** A run, from its outcome. *)
Lemma ran {W A} (x : result A * W) r : fst x = r -> x = (r, snd x).
Proof. intros <-. apply surjective_pairing. Qed.

(** ** Inversion principles of the result monad *)
Lemma Ok_inj {A} (a b : A) : Ok a = Ok b -> a = b.
Proof. by intros [= ->]. Qed.
Section ResultLemmas.
Context {A B : Type}.

Lemma rbind_ok (c : result A) (k : A -> result B) b :
  rbind c k = Ok b <-> exists a, c = Ok a /\ k a = Ok b.
Proof. destruct c; simpl; naive_solver. Qed.

Lemma rbind_err (c : result A) (k : A -> result B) e :
  rbind c k = Err e <-> c = Err e \/ exists a, c = Ok a /\ k a = Err e.
Proof. destruct c; simpl; naive_solver. Qed.

Lemma rbind_diverge (c : result A) (k : A -> result B) :
  rbind c k = Diverge <-> c = Diverge \/ exists a, c = Ok a /\ k a = Diverge.
Proof. destruct c; simpl; naive_solver. Qed.

Lemma wrap_ok t (c : result A) a : wrap t c = Ok a <-> c = Ok a.
Proof. destruct c; simpl; naive_solver. Qed.

Lemma wrap_err t (c : result A) e : wrap t c = Err e <-> exists e', c = Err e' /\ e = Wrap t e'.
Proof. destruct c; simpl; naive_solver. Qed.

Lemma wrap_diverge t (c : result A) : wrap t c = Diverge <-> c = Diverge.
Proof. destruct c; simpl; naive_solver. Qed.

Lemma is_ok_true (c : result A) : is_ok c = true <-> exists a, c = Ok a.
Proof. destruct c; simpl; naive_solver. Qed.
Lemma is_err_true (c : result A) : is_err c = true <-> exists e, c = Err e.
Proof. destruct c; simpl; naive_solver. Qed.
Lemma is_err_false (c : result A) : is_err c = false <-> c = Diverge \/ exists a, c = Ok a.
Proof. destruct c; simpl; naive_solver. Qed.
End ResultLemmas.

#[export] Hint Rewrite @is_ok_true @is_err_true : go_bool.

(** [inv_ok] decomposes every hypothesis [_ = Ok _] built from the guards and
    binds above, down to the equations of its sub-computations. *)
Ltac inv_ok_step :=
  match goal with
  | H : Err _ = Ok _ |- _ => discriminate H
  | H : Diverge = Ok _ |- _ => discriminate H
  | H : Ok _ = Err _ |- _ => discriminate H
  | H : Ok _ = Diverge |- _ => discriminate H
  | H : Err _ = Diverge |- _ => discriminate H
  | H : Ok ?x = Ok ?y |- _ => injection H as H; try subst y; try subst x
  | H : (if ?b then Err _ else _) = Ok _ |- _ =>
      let E := fresh "G" in destruct b eqn:E; [discriminate H |]
  | H : rbind _ _ = Ok _ |- _ =>
      let a := fresh "r" in let E := fresh "R" in
      apply rbind_ok in H; destruct H as (a & E & H)
  | H : wrap _ _ = Ok _ |- _ => apply wrap_ok in H
  | u : unit |- _ => destruct u
  end.
Ltac inv_ok := repeat (inv_ok_step; simpl in *).

(** Membership in an error: [errors.Is] through the wrappers. *)
Lemma errors_Is_Wrap t e s : errors_Is (Wrap t e) s = errors_Is e s.
Proof. done. Qed.
Lemma errors_Is_Join e1 e2 s : errors_Is (Join e1 e2) s = errors_Is e1 s || errors_Is e2 s.
Proof. done. Qed.
#[export] Hint Rewrite errors_Is_Wrap errors_Is_Join : go.

(** [no_diverge] refutes [_ = Diverge] for a computation built from guards and
    binds whose parts are in the [nodiv] database. *)
Create HintDb nodiv.
Create HintDb keepdb.
Ltac inv_div_step :=
  match goal with
  | H : Ok _ = Diverge |- _ => discriminate H
  | H : Err _ = Diverge |- _ => discriminate H
  | H : (if ?b then _ else _) = Diverge |- _ => destruct b in H
  | H : rbind _ _ = Diverge |- _ =>
      let a := fresh "r" in let E := fresh "R" in
      apply rbind_diverge in H; destruct H as [H | (a & E & H)]
  | H : wrap _ _ = Diverge |- _ => apply wrap_diverge in H
  | H : match ?o with Some _ => _ | None => _ end = Diverge |- _ => destruct o eqn:? in H
  | H : match ?p with pair _ _ => _ end = Diverge |- _ => destruct p eqn:? in H
  | H : ?c = Diverge |- _ => exfalso; revert H; change (c <> Diverge); solve [eauto with nodiv]
  end.
Ltac no_diverge := let H := fresh "H" in intros H; repeat (inv_div_step; cbv zeta beta in *).

(** ** Reasoning about stateful computations

    [safe I c Q]: from a world satisfying the invariant [I], [c] keeps it on
    every outcome, and a normal result satisfies [Q]. [keeps P c]: a normal
    result keeps [P]. [finishes c]: no loop of [c] runs out of fuel. *)
Section Hoare.
Context {W : Type}.

Definition safe {A} (I : W -> Prop) (c : M W A) (Q : A -> Prop) : Prop :=
  forall w, I w -> I (snd (c w)) /\ forall a, fst (c w) = Ok a -> Q a.
Definition keeps {A} (P : W -> Prop) (c : M W A) : Prop :=
  forall w a, P w -> fst (c w) = Ok a -> P (snd (c w)).
Definition finishes {A} (c : M W A) : Prop := forall w, fst (c w) <> Diverge.

(** Inversion of normal results. *)
Lemma mbind_ok {A B} (c : M W A) (k : A -> M W B) w b w' :
  mbind c k w = (Ok b, w') -> exists a w1, c w = (Ok a, w1) /\ k a w1 = (Ok b, w').
Proof. unfold mbind. destruct (c w) as [[a|e|] w1]; intros H; try discriminate. eauto. Qed.
Lemma mlift_ok {A} (r : result A) (w : W) a w' : mlift r w = (Ok a, w') -> r = Ok a /\ w' = w.
Proof. intros [= -> ->]. auto. Qed.
Lemma mwrap_ok {A} t (c : M W A) w a w' : mwrap t c w = (Ok a, w') -> c w = (Ok a, w').
Proof. unfold mwrap. destruct (c w) as [[b|e|] w1]; intros [= -> ->]; reflexivity. Qed.
Lemma mtry_ok {A} (c : M W A) w r w' : mtry c w = (Ok r, w') -> c w = (r, w') /\ r <> Diverge.
Proof. unfold mtry. destruct (c w) as [[b|e|] w1]; intros [= <- <-]; split; (reflexivity || discriminate). Qed.

Lemma safe_bind {A B} I (c : M W A) (k : A -> M W B) Q R :
  safe I c Q -> (forall a, Q a -> safe I (k a) R) -> safe I (mbind c k) R.
Proof.
  intros Hc Hk w Hw. unfold mbind. destruct (Hc w Hw) as [Hi Hq]. destruct (c w) as [[a|e|] w']; simpl in *.
  - apply Hk; auto.
  - split; [exact Hi | discriminate].
  - split; [exact Hi | discriminate].
Qed.
Lemma safe_ret {A} I (a : A) (Q : A -> Prop) : Q a -> safe I (mret a) Q.
Proof. intros HQ w Hw. split; [exact Hw | by intros ? [= <-]]. Qed.
Lemma safe_throw {A} I e (Q : A -> Prop) : safe I (mthrow e) Q.
Proof. intros w Hw. split; [exact Hw | discriminate]. Qed.
Lemma safe_lift {A} I (r : result A) (Q : A -> Prop) : (forall a, r = Ok a -> Q a) -> safe I (mlift r) Q.
Proof. intros HQ w Hw. split; [exact Hw | exact HQ]. Qed.
Lemma safe_pure {A} I (r : result A) : safe I (mlift r) (fun _ => True).
Proof. by apply safe_lift. Qed.
Lemma safe_wrap {A} I t (c : M W A) Q : safe I c Q -> safe I (mwrap t c) Q.
Proof.
  intros Hc w Hw. unfold mwrap. destruct (Hc w Hw) as [Hi Hq]. destruct (c w) as [[a|e|] w']; simpl in *;
    (split; [exact Hi | first [exact Hq | discriminate]]).
Qed.
Lemma safe_weaken {A} I (c : M W A) (Q R : A -> Prop) : (forall a, Q a -> R a) -> safe I c Q -> safe I c R.
Proof. intros HQ Hc w Hw. destruct (Hc w Hw) as [Hi Hq]. split; [exact Hi | auto]. Qed.
Lemma safe_failif {A} I (b : bool) e (k : M W A) Q : (b = false -> safe I k Q) -> safe I (mfailif b , e ;; k) Q.
Proof. destruct b; [intros; apply safe_throw | auto]. Qed.

Lemma safe_try {A} I (c : M W A) Q :
  safe I c Q -> safe I (mtry c) (fun r => match r with Ok a => Q a | _ => True end).
Proof.
  intros Hc w Hw. unfold mtry. destruct (Hc w Hw) as [Hi Hq]. destruct (c w) as [[a|e|] w']; simpl in *;
    (split; [exact Hi |]); intros r [= <-]; [by apply Hq | exact Logic.I].
Qed.
Lemma safe_true {A} I (c : M W A) Q : safe I c Q -> safe I c (fun _ => True).
Proof. apply safe_weaken. auto. Qed.

Lemma keeps_bind {A B} P (c : M W A) (k : A -> M W B) :
  keeps P c -> (forall a, keeps P (k a)) -> keeps P (mbind c k).
Proof.
  intros Hc Hk w b Hw. unfold mbind. specialize (Hc w). destruct (c w) as [[a|e|] w']; simpl in *; try discriminate.
  apply (Hk a w' b). apply (Hc a); auto.
Qed.
Lemma keeps_lift {A} P (r : result A) : keeps P (mlift r).
Proof. intros w a Hw _. exact Hw. Qed.
Lemma keeps_throw {A} P e : keeps P (@mthrow W A e).
Proof. intros w a Hw _. exact Hw. Qed.
Lemma keeps_ret {A} P (a : A) : keeps P (mret a).
Proof. intros w b Hw _. exact Hw. Qed.
Lemma keeps_wrap {A} P t (c : M W A) : keeps P c -> keeps P (mwrap t c).
Proof. intros Hc w a Hw. unfold mwrap. specialize (Hc w). destruct (c w) as [[b|e|] w']; simpl in *; try discriminate; eauto. Qed.

Lemma finishes_bind {A B} (c : M W A) (k : A -> M W B) :
  finishes c -> (forall a, finishes (k a)) -> finishes (mbind c k).
Proof. intros Hc Hk w. unfold mbind. specialize (Hc w). destruct (c w) as [[a|e|] w']; simpl in *; [apply Hk | discriminate | done]. Qed.
Lemma finishes_lift {A} (r : result A) : r <> Diverge -> finishes (mlift r).
Proof. intros H w. exact H. Qed.
Lemma finishes_ret {A} (a : A) : finishes (mret a).
Proof. intros w. discriminate. Qed.
Lemma finishes_throw {A} e : finishes (@mthrow W A e).
Proof. intros w. discriminate. Qed.
Lemma finishes_wrap {A} t (c : M W A) : finishes c -> finishes (mwrap t c).
Proof. intros Hc w. unfold mwrap. specialize (Hc w). destruct (c w) as [[b|e|] w']; simpl in *; congruence. Qed.
Lemma finishes_try {A} (c : M W A) : finishes c -> finishes (mtry c).
Proof. intros Hc w. unfold mtry. specialize (Hc w). destruct (c w) as [[a|e|] w']; simpl in *; congruence. Qed.
Lemma finishes_if {A} (b : bool) (c d : M W A) : finishes c -> finishes d -> finishes (if b then c else d).
Proof. by destruct b. Qed.
End Hoare.
(** ** Errors of a computation

    [throws P c]: the errors of [c] satisfy [P]; [fails P r] the same of a result. *)
Definition throws {W A} (P : error -> Prop) (c : M W A) : Prop := forall w e w', c w = (Err e, w') -> P e.
Definition never_fails {W A} (c : M W A) : Prop := throws (fun _ => False) c.

Section Throws.
Context {W A : Type} (P : error -> Prop).

Lemma throws_ret (a : A) : throws (W := W) P (mret a).
Proof. intros w e w'. discriminate. Qed.
Lemma throws_throw e : P e -> throws (W := W) (A := A) P (mthrow e).
Proof. by intros H w e' w' [= <- <-]. Qed.
Lemma throws_lift (r : result A) : (forall e, r = Err e -> P e) -> throws (W := W) P (mlift r).
Proof. intros H w e w' [= E _]. by apply H. Qed.
Lemma throws_never (c : M W A) : never_fails c -> throws P c.
Proof. intros H w e w' E. destruct (H w e w' E). Qed.
Lemma throws_if (b : bool) (c c' : M W A) : throws P c -> throws P c' -> throws P (if b then c else c').
Proof. by destruct b. Qed.
Lemma throws_bind {B} (c : M W B) (k : B -> M W A) : throws P c -> (forall b, throws P (k b)) -> throws P (mbind c k).
Proof. intros Hc Hk w e w'. unfold mbind. destruct (c w) as [[b|e'|] w1] eqn:E; [apply Hk | intros [= <- <-]; by apply (Hc w e' w1) | discriminate]. Qed.
Lemma throws_try (c : M W A) : throws (W := W) P (mtry c).
Proof. intros w e w'. unfold mtry. destruct (c w) as [[a|e'|] w1]; discriminate. Qed.
End Throws.

Definition fails {A} (P : error -> Prop) (r : result A) : Prop := forall e, r = Err e -> P e.
Section Fails.
Context (P : error -> Prop).
Lemma fails_ok {A} (a : A) : fails P (Ok a).
Proof. intros e. discriminate. Qed.
Lemma fails_err {A} e : P e -> fails (A := A) P (Err e).
Proof. by intros H e' [= <-]. Qed.
Lemma fails_diverge {A} : fails (A := A) P Diverge.
Proof. intros e. discriminate. Qed.
Lemma fails_bind {A B} (c : result A) (k : A -> result B) : fails P c -> (forall a, fails P (k a)) -> fails P (rbind c k).
Proof. intros Hc Hk e H. apply rbind_err in H as [H|(a & _ & H)]; [by apply Hc | by apply (Hk a)]. Qed.
End Fails.

(** Decompose [H : c w = (Ok _, w')] along the binds and guards of [c]. *)
Ltac minv_step :=
  match goal with
  | H : mbind _ _ _ = (Ok _, _) |- _ =>
      let a := fresh "a" in let w := fresh "w" in let E := fresh "M" in
      apply mbind_ok in H; destruct H as (a & w & E & H)
  | H : mlift _ _ = (Ok _, _) |- _ => apply mlift_ok in H; destruct H as [H ->]
  | H : mwrap _ _ _ = (Ok _, _) |- _ => apply mwrap_ok in H
  | H : mtry _ _ = (Ok _, _) |- _ => let N := fresh "N" in apply mtry_ok in H; destruct H as [H N]
  | H : wrap _ _ = Ok _ |- _ => apply wrap_ok in H
  | H : mret _ _ = (Ok _, _) |- _ => first [injection H as <- <- | injection H as <-]
  | H : mthrow _ _ = (Ok _, _) |- _ => discriminate H
  | H : (if ?b then mthrow _ else _) _ = (Ok _, _) |- _ =>
      let E := fresh "G" in destruct b eqn:E; [discriminate H |]
  end.
Ltac minv := repeat minv_step.
#[export] Hint Resolve @finishes_bind @finishes_lift @finishes_ret @finishes_throw @finishes_wrap @finishes_try @finishes_if : nodiv.
#[export] Hint Resolve @keeps_bind @keeps_lift @keeps_ret @keeps_throw @keeps_wrap : keepdb.
