(* ===== verification/GoStrings.v ===== *)
(** * Go strings: bytes, UTF-8 runes, and the anchored patterns of the service

    A Go [string] is a byte sequence, modelled by [String.string]. The file
    gives the parts of packages [unicode/utf8], [unicode], [strings] and
    [regexp] that the validators use. *)
From S2P Require Import Prelude.

Definition byte_at (c : ascii) : Z := Z.of_N (N_of_ascii c).

Definition in_range (lo hi b : Z) : bool := (lo <=? b) && (b <=? hi).

(** [utf8.RuneError] *)
Definition RuneError : Z := 65533.

(** [utf8.DecodeRuneInString] on a non-empty string: the rune and its width;
    an invalid or truncated encoding is [(RuneError, 1)]. *)
Definition DecodeRune (s : string) : Z * nat :=
  match s with
  | EmptyString => (RuneError, 0%nat)
  | String c0 s1 =>
      let b0 := byte_at c0 in
      if b0 <? 128 then (b0, 1%nat)
      else if negb (in_range 194 244 b0) then (RuneError, 1%nat)
      else
        (* acceptRanges: only the second byte has a restricted range *)
        let lo := if b0 =? 224 then 160 else if b0 =? 240 then 144 else 128 in
        let hi := if b0 =? 237 then 159 else if b0 =? 244 then 143 else 191 in
        match s1 with
        | String c1 s2 =>
            let b1 := byte_at c1 in
            if negb (in_range lo hi b1) then (RuneError, 1%nat)
            else if b0 <? 224 then ((b0 - 192) * 64 + (b1 - 128), 2%nat)
            else match s2 with
              | String c2 s3 =>
                  let b2 := byte_at c2 in
                  if negb (in_range 128 191 b2) then (RuneError, 1%nat)
                  else if b0 <? 240 then
                    ((b0 - 224) * 4096 + (b1 - 128) * 64 + (b2 - 128), 3%nat)
                  else match s3 with
                    | String c3 _ =>
                        let b3 := byte_at c3 in
                        if negb (in_range 128 191 b3) then (RuneError, 1%nat)
                        else ((b0 - 240) * 262144 + (b1 - 128) * 4096
                              + (b2 - 128) * 64 + (b3 - 128), 4%nat)
                    | EmptyString => (RuneError, 1%nat)
                    end
              | EmptyString => (RuneError, 1%nat)
              end
        | EmptyString => (RuneError, 1%nat)
        end
  end.

(** The runes of a string with the bytes that encode them, as visited by
    [for _, r := range s]. [skip] bytes belong to the previous rune. *)
Fixpoint segments_from (skip : nat) (s : string) : list (Z * string) :=
  match s with
  | EmptyString => []
  | String _ s' =>
      match skip with
      | S k => segments_from k s'
      | O => let '(r, w) := DecodeRune s in
             (r, String.substring 0 w s) :: segments_from (w - 1) s'
      end
  end.
Definition segments (s : string) : list (Z * string) := segments_from 0 s.
Definition runes (s : string) : list Z := map fst (segments s).

(** [utf8.RuneCountInString] *)
Definition RuneCountInString (s : string) : Z := llen (runes s).

(** [unicode.IsSpace]: the White_Space property. *)
Definition IsSpace (r : Z) : bool :=
  in_range 9 13 r || (r =? 32) || (r =? 133) || (r =? 160) || (r =? 5760)
  || in_range 8192 8202 r || (r =? 8232) || (r =? 8233) || (r =? 8239) || (r =? 8287) || (r =? 12288).

(** [unicode.IsControl]: category Cc, i.e. C0 and C1. *)
Definition IsControl (r : Z) : bool := in_range 0 31 r || in_range 127 159 r.

Fixpoint drop_while {A} (p : A -> bool) (l : list A) : list A :=
  match l with
  | [] => []
  | x :: l' => if p x then drop_while p l' else l
  end.

(** [strings.TrimSpace] *)
Definition TrimSpace (s : string) : string :=
  let sp := fun seg : Z * string => IsSpace (fst seg) in
  String.concat EmptyString (map snd (rev (drop_while sp (rev (drop_while sp (segments s)))))).

(** [strings.HasPrefix] *)
Definition HasPrefix (s pre : string) : bool := String.prefix pre s.

(** ** Anchored patterns

    [^[a-z0-9]+(?:SEP[a-z0-9]+)*$] for a class of separators. *)
Definition is_alnum (c : ascii) : bool :=
  in_range 97 122 (byte_at c) || in_range 48 57 (byte_at c).
Definition is_code_sep (c : ascii) : bool := (byte_at c =? 46) || (byte_at c =? 45).
Definition is_market_sep (c : ascii) : bool :=
  (byte_at c =? 46) || (byte_at c =? 95) || (byte_at c =? 45).

(** The automaton of the pattern; [after] says whether the last byte was
    alphanumeric. *)
Fixpoint match_segments (sep : ascii -> bool) (after : bool) (s : string) : bool :=
  match s with
  | EmptyString => after
  | String c s' =>
      if is_alnum c then match_segments sep true s'
      else if sep c then after && match_segments sep false s'
      else false
  end.

(** The language of the pattern. *)
Fixpoint all_alnum (s : string) : bool :=
  match s with EmptyString => true | String c s' => is_alnum c && all_alnum s' end.
Inductive segmented (sep : ascii -> bool) : string -> Prop :=
  | seg_one s : s <> EmptyString -> all_alnum s = true -> segmented sep s
  | seg_more s c t : s <> EmptyString -> all_alnum s = true -> sep c = true ->
      segmented sep t -> segmented sep (s ++ String c t).

Lemma match_segments_app sep s b t :
  all_alnum s = true -> s <> EmptyString ->
  match_segments sep b (s ++ t) = match_segments sep true t.
Proof.
  revert b. induction s as [|c s IH]; intros b Hs Hne; [done |].
  simpl in *. apply andb_true_iff in Hs as [Hc Hs]. rewrite Hc.
  destruct s as [|c' s']; [done |]. by apply IH.
Qed.

Lemma segmented_cons sep c t :
  is_alnum c = true -> segmented sep t -> segmented sep (String c t).
Proof.
  intros Hc. inversion 1 as [s Hne Hs | s d u Hne Hs Hd Hu]; subst.
  - apply seg_one; [done |]. simpl. by rewrite Hc.
  - change (String c (s ++ String d u)) with (String c s ++ String d u)%string.
    apply seg_more; [done | | done | done]. simpl. by rewrite Hc.
Qed.

Lemma match_segments_sound sep (Hsep : forall c, sep c = true -> is_alnum c = false) s :
  (match_segments sep false s = true -> segmented sep s) /\
  (match_segments sep true s = true -> forall c, is_alnum c = true -> segmented sep (String c s)).
Proof.
  induction s as [|d s [IHf IHt]]; simpl.
  - split; [done |]. intros _ c Hc. apply seg_one; [done |]. simpl. by rewrite Hc.
  - destruct (is_alnum d) eqn:Hd.
    + split; intros Hm; [by apply IHt |]. intros c Hc. apply segmented_cons; [done |]. by apply IHt.
    + destruct (sep d) eqn:Hs; simpl; [| split; done].
      split; [done |]. intros Hm c Hc.
      change (String c (String d s)) with (String c EmptyString ++ String d s)%string.
      apply seg_more; [done | | done | by apply IHf]. simpl. by rewrite Hc.
Qed.

Lemma match_segments_complete sep (Hsep : forall c, sep c = true -> is_alnum c = false) s :
  segmented sep s -> match_segments sep false s = true.
Proof.
  induction 1 as [s Hne Hs | s c t Hne Hs Hc Ht IH].
  - replace s with (s ++ EmptyString)%string.
    + rewrite match_segments_app; done.
    + clear. induction s; simpl; congruence.
  - rewrite match_segments_app by done. simpl. by rewrite (Hsep c Hc), Hc, IH.
Qed.

Lemma match_segments_iff sep (Hsep : forall c, sep c = true -> is_alnum c = false) s :
  match_segments sep false s = true <-> segmented sep s.
Proof. split; [apply match_segments_sound | apply match_segments_complete]; done. Qed.

Lemma code_sep_not_alnum c : is_code_sep c = true -> is_alnum c = false.
Proof. unfold is_code_sep, is_alnum, in_range. intros H. bsimp. lia. Qed.
Lemma market_sep_not_alnum c : is_market_sep c = true -> is_alnum c = false.
Proof. unfold is_market_sep, is_alnum, in_range. intros H. bsimp. lia. Qed.

(** ** Length facts used by the bounds of the validators *)
Lemma segments_from_length k s : (length (segments_from k s) <= String.length s)%nat.
Proof.
  revert k. induction s as [|c s IH]; intros k; [done |].
  destruct k as [|k]; cbn [segments_from String.length].
  - destruct (DecodeRune (String c s)) as [r w]. cbn [length]. specialize (IH (w - 1)%nat). lia.
  - specialize (IH k). lia.
Qed.

Lemma RuneCount_le_len s : 0 <= RuneCountInString s <= slen s.
Proof.
  unfold RuneCountInString, llen, slen, runes. rewrite length_map.
  pose proof (segments_from_length 0 s). unfold segments. lia.
Qed.

Lemma string_app_assoc (a b c : string) : ((a ++ b) ++ c = a ++ (b ++ c))%string.
Proof. induction a; simpl; congruence. Qed.

Lemma string_length_app (a b : string) :
  (String.length (a ++ b) = String.length a + String.length b)%nat.
Proof. induction a; simpl; lia. Qed.

Lemma string_app_inj_l (a b c d : string) :
  String.length a = String.length c -> (a ++ b = c ++ d)%string -> a = c /\ b = d.
Proof.
  revert c. induction a as [|x a IH]; intros [|y c] Hl He; simpl in *; try done.
  injection He as -> He. destruct (IH c) as [-> ->]; [lia | done | done].
Qed.

Lemma string_app_inj_r (a b c d : string) :
  String.length b = String.length d -> (a ++ b = c ++ d)%string -> a = c /\ b = d.
Proof.
  intros Hl He. apply string_app_inj_l; [| done].
  apply (f_equal String.length) in He. rewrite !string_length_app in He. lia.
Qed.
