(* ===== verification/GoTime.v ===== *)
(** * Package time: instants, durations, civil dates and locations

    An instant is the number of nanoseconds since January 1, year 1 00:00 UTC,
    Go's zero time; the location of a [time.Time] only matters where the code
    asks for civil fields, and there it is an explicit argument. Instants are
    not bounded (a [time.Time] spans 292 billion years); durations are [int64]
    nanoseconds. *)
From S2P Require Import Prelude Errors GoStrings.

Abbreviation Time := Z (only parsing).
Abbreviation Duration := Z (only parsing).

Definition Nanosecond : Duration := 1.
Definition Second : Duration := 1000000000.
Definition Minute : Duration := 60 * Second.
Definition Hour : Duration := 60 * Minute.
Definition Day24 : Duration := 24 * Hour.

Definition IsZero (t : Time) : bool := t =? 0.
Definition Before (t u : Time) : bool := t <? u.
Definition After (t u : Time) : bool := u <? t.
Definition Equal (t u : Time) : bool := t =? u.
Definition Add (t : Time) (d : Duration) : Time := t + d.

(** [t.Sub(u)] saturates at the ends of the [Duration] range. *)
Definition Sub (t u : Time) : Duration := Z.max int64_min (Z.min int64_max (t - u)).

(** [t.Truncate(d)] rounds down to a multiple of [d] since the zero time. *)
Definition Truncate (t : Time) (d : Duration) : Time := if d <=? 0 then t else t - t mod d.

(** Seconds between the zero time and the Unix epoch. *)
Definition unixToInternal : Z := 62135596800.
Definition Unix (t : Time) : Z := t / Second - unixToInternal.
(** [t.UnixNano()]: wraps outside 1678-2262. *)
Definition UnixNano (t : Time) : Z := wrap64 (t - unixToInternal * Second).

(** ** Civil dates (proleptic Gregorian calendar)

    Day 0 is January 1, year 1, a Monday. *)
Definition days_from_civil (y m d : Z) : Z :=
  let y' := if m <=? 2 then y - 1 else y in
  let mp := if m <=? 2 then m + 9 else m - 3 in
  let era := y' / 400 in
  let yoe := y' - era * 400 in
  let doy := (153 * mp + 2) / 5 + d - 1 in
  era * 146097 + (yoe * 365 + yoe / 4 - yoe / 100 + doy) - 306.

Definition civil_from_days (z : Z) : Z * Z * Z :=
  let z' := z + 306 in
  let era := z' / 146097 in
  let doe := z' mod 146097 in
  let yoe := (doe - doe / 1460 + doe / 36524 - doe / 146096) / 365 in
  let doy := doe - (365 * yoe + yoe / 4 - yoe / 100) in
  let mp := (5 * doy + 2) / 153 in
  let d := doy - (153 * mp + 2) / 5 + 1 in
  let m := if mp <? 10 then mp + 3 else mp - 9 in
  let y := yoe + era * 400 + (if m <=? 2 then 1 else 0) in
  (y, m, d).

Definition seconds_per_day : Z := 86400.

(** Month normalisation of [time.Date]: a month outside 1..12 moves the year. *)
Definition norm_month (y m : Z) : Z * Z := (y + (m - 1) / 12, (m - 1) mod 12 + 1).

(** [time.Date(y, m, d, h, mi, 0, 0, time.UTC)], in seconds since the zero time. *)
Definition date_seconds (y m d h mi : Z) : Z :=
  let '(y', m') := norm_month y m in
  days_from_civil y' m' d * seconds_per_day + h * 3600 + mi * 60.
Definition Date_UTC (y m d h mi : Z) : Time := date_seconds y m d h mi * Second.

(** ** Locations

    [loc_lookup sec] is the time zone in use at the Unix time [sec]: its
    offset east of UTC in seconds and the interval [[start, end)] it covers.
    The zone data is not part of the program. *)
Record Location := mkLocation { loc_lookup : Z -> Z * Z * Z }.

Definition offset_at (l : Location) (unix : Z) : Z := fst (fst (loc_lookup l unix)).

(** [time.Date(y, m, d, h, mi, 0, 0, loc)]: the offset is looked up at the
    local reading taken as UTC, and again at the corrected instant when that
    falls outside the interval of the first zone. *)
Definition Date_In (y m d h mi : Z) (l : Location) : Time :=
  let unix := date_seconds y m d h mi - unixToInternal in
  let '(offset, start, stop) := loc_lookup l unix in
  let unix' :=
    if offset =? 0 then unix
    else
      let utc := unix - offset in
      if (utc <? start) || (stop <=? utc) then unix - offset_at l utc else utc in
  (unix' + unixToInternal) * Second.

(** [t.In(loc)]'s local reading in seconds since the zero time. *)
Definition local_seconds (t : Time) (l : Location) : Z := t / Second + offset_at l (Unix t).
Definition CivilDate_In (t : Time) (l : Location) : Z * Z * Z :=
  civil_from_days (local_seconds t l / seconds_per_day).
Definition CivilDate_UTC (t : Time) : Z * Z * Z := civil_from_days (t / Second / seconds_per_day).

(** [t.In(loc).Weekday()], Sunday being 0. *)
Definition Weekday_In (t : Time) (l : Location) : Z :=
  (local_seconds t l / seconds_per_day + 1) mod 7.

#[global] Arguments days_from_civil : simpl never.
#[global] Arguments civil_from_days : simpl never.
#[global] Arguments Date_UTC : simpl never.
#[global] Arguments Date_In : simpl never.
#[global] Arguments CivilDate_UTC : simpl never.
#[global] Arguments CivilDate_In : simpl never.
#[global] Arguments Weekday_In : simpl never.
#[global] Arguments Truncate : simpl never.

(** ** Formatting *)
Definition digit (n : Z) : string :=
  String (ascii_of_N (Z.to_N (48 + n mod 10))) EmptyString.
Definition pad2 (n : Z) : string := (digit (n / 10) ++ digit n)%string.
Definition pad3 (n : Z) : string := (digit (n / 100) ++ pad2 n)%string.
Definition pad4 (n : Z) : string := (pad2 (n / 100) ++ pad2 n)%string.
Definition pad9 (n : Z) : string := (pad3 (n / 1000000) ++ pad3 (n / 1000) ++ pad3 n)%string.

(** The layout "20060102T150405.000000000Z" of the run keys, for the years
    0000-9999 of four digits. *)
Definition FormatKey (t : Time) : string :=
  let s := t / Second in
  let '(y, m, d) := civil_from_days (s / seconds_per_day) in
  let sod := s mod seconds_per_day in
  (pad4 y ++ pad2 m ++ pad2 d ++ "T" ++ pad2 (sod / 3600) ++ pad2 (sod / 60 mod 60)
    ++ pad2 (sod mod 60) ++ "." ++ pad9 (t mod Second) ++ "Z")%string.

(** Trailing zeros of the fraction are dropped by the layout digit [9]. *)
Fixpoint trim_zeros_rev (s : list ascii) : list ascii :=
  match s with
  | c :: s' => if (byte_at c =? 48) then trim_zeros_rev s' else s
  | [] => []
  end.
Definition nano_fraction (ns : Z) : string :=
  if ns =? 0 then EmptyString
  else ("." ++ string_of_list_ascii (rev (trim_zeros_rev (rev (list_ascii_of_string (pad9 ns))))))%string.

(** [t.Format(time.RFC3339Nano)] of an instant in UTC, for four-digit years. *)
Definition FormatRFC3339Nano (t : Time) : string :=
  let s := t / Second in
  let '(y, m, d) := civil_from_days (s / seconds_per_day) in
  let sod := s mod seconds_per_day in
  (pad4 y ++ "-" ++ pad2 m ++ "-" ++ pad2 d ++ "T" ++ pad2 (sod / 3600) ++ ":"
    ++ pad2 (sod / 60 mod 60) ++ ":" ++ pad2 (sod mod 60) ++ nano_fraction (t mod Second) ++ "Z")%string.

(** ** Lemmas *)
Section CivilDates.
Definition yoe_of (doe : Z) : Z := (doe - doe / 1460 + doe / 36524 - doe / 146096) / 365.
Definition year_start (yoe : Z) : Z := 365 * yoe + yoe / 4 - yoe / 100.

Lemma yoe_of_range doe : 0 <= doe < 146097 -> 0 <= yoe_of doe < 400.
Proof. unfold yoe_of. intros. Z.div_mod_to_equations. lia. Qed.

Lemma doy_range doe : 0 <= doe < 146097 -> 0 <= doe - year_start (yoe_of doe) <= 366.
Proof.
  intros H. pose proof (yoe_of_range _ H). unfold yoe_of, year_start in *.
  Z.div_mod_to_equations. lia.
Qed.

Lemma month_of_doy doy : 0 <= doy <= 366 -> 0 <= (5 * doy + 2) / 153 <= 11.
Proof. intros. Z.div_mod_to_equations. lia. Qed.

Lemma dom_range doy : 0 <= doy <= 366 ->
  1 <= doy - (153 * ((5 * doy + 2) / 153) + 2) / 5 + 1 <= 31.
Proof. intros. Z.div_mod_to_equations. lia. Qed.

(** The intermediate quantities of [civil_from_days], in range. *)
Lemma civil_parts z : exists era yoe doy mp,
  z + 306 = era * 146097 + (year_start yoe + doy) /\ 0 <= yoe < 400 /\ 0 <= doy <= 366 /\
  mp = (5 * doy + 2) / 153 /\ 0 <= mp <= 11 /\
  let m := if mp <? 10 then mp + 3 else mp - 9 in
  civil_from_days z =
    (yoe + era * 400 + (if m <=? 2 then 1 else 0), m, doy - (153 * mp + 2) / 5 + 1).
Proof.
  pose proof (Z.mod_pos_bound (z + 306) 146097 ltac:(lia)) as Hd.
  pose proof (Z_div_mod_eq_full (z + 306) 146097) as He.
  set (doe := (z + 306) mod 146097) in *.
  pose proof (doy_range doe Hd).
  exists ((z + 306) / 146097), (yoe_of doe), (doe - year_start (yoe_of doe)), ((5 * (doe - year_start (yoe_of doe)) + 2) / 153).
  repeat split; try (apply yoe_of_range; lia); try (apply month_of_doy; lia); lia.
Qed.

Lemma days_from_civil_from_days z :
  let '(y, m, d) := civil_from_days z in days_from_civil y m d = z.
Proof.
  destruct (civil_parts z) as (era & yoe & doy & mp & Hz & Hyoe & Hdoy & Hmp & Hmp' & ->).
  unfold days_from_civil, year_start in *.
  assert (forall a, (yoe + era * 400 + a - a) / 400 = era) as He.
  { intros a. Z.div_mod_to_equations. lia. }
  destruct (mp <? 10) eqn:E10; bsimp.
  - assert (mp + 3 <=? 2 = false) as -> by (apply Z.leb_gt; lia).
    replace (mp + 3 - 3) with mp by lia.
    pose proof (He 0) as He0. rewrite Z.sub_0_r in He0.
    rewrite He0. replace (yoe + era * 400 + 0 - era * 400) with yoe by lia. lia.
  - assert (mp - 9 <=? 2 = true) as -> by (apply Z.leb_le; lia).
    replace (mp - 9 + 9) with mp by lia.
    rewrite (He 1). replace (yoe + era * 400 + 1 - 1 - era * 400) with yoe by lia. lia.
Qed.

Lemma civil_from_days_range z :
  let '(y, m, d) := civil_from_days z in 1 <= m <= 12 /\ 1 <= d <= 31 /\ (0 <= z -> 1 <= y).
Proof.
  destruct (civil_parts z) as (era & yoe & doy & mp & Hz & Hyoe & Hdoy & Hmp & Hmp' & ->).
  pose proof (dom_range doy Hdoy) as Hdom. rewrite <- Hmp in Hdom.
  unfold year_start in Hz. split; [| split].
  - destruct (mp <? 10) eqn:E; bsimp; lia.
  - lia.
  - intros Hz0.
    assert (306 <= doy \/ mp < 10) as Hm by (clear -Hmp Hdoy; Z.div_mod_to_equations; lia).
    destruct (mp <? 10) eqn:E; bsimp.
    + assert (mp + 3 <=? 2 = false) as -> by (apply Z.leb_gt; lia).
      assert (0 <= era) by (Z.div_mod_to_equations; lia).
      assert (doy < 306) by (Z.div_mod_to_equations; lia).
      assert (era <> 0 \/ yoe <> 0); [| lia].
      destruct (Z.eq_dec era 0) as [->|]; [right|by left]. intros ->.
      change (0 / 4) with 0 in Hz. change (0 / 100) with 0 in Hz. lia.
    + assert (mp - 9 <=? 2 = true) as -> by (apply Z.leb_le; lia).
      assert (0 <= era) by (Z.div_mod_to_equations; lia). lia.
Qed.

Lemma norm_month_id y m : 1 <= m <= 12 -> norm_month y m = (y, m).
Proof.
  unfold norm_month. intros. rewrite Z.div_small, Z.mod_small by lia.
  f_equal; lia.
Qed.

Lemma days_from_civil_add_day y m d n : days_from_civil y m (d + n) = days_from_civil y m d + n.
Proof. unfold days_from_civil. lia. Qed.

(** Civil dates are monotone: an earlier day has a smaller date. *)
Lemma civil_from_days_inj z z' : civil_from_days z = civil_from_days z' -> z = z'.
Proof.
  intros H. pose proof (days_from_civil_from_days z) as H1.
  pose proof (days_from_civil_from_days z') as H2. rewrite H in H1.
  destruct (civil_from_days z') as [[y m] d]. congruence.
Qed.
End CivilDates.

Lemma Truncate_le t d : 0 < d -> Truncate t d <= t < Truncate t d + d.
Proof.
  unfold Truncate. intros. destruct (Z.leb_spec d 0); [lia |].
  pose proof (Z.mod_pos_bound t d). lia.
Qed.

Lemma Truncate_mod t d : 0 < d -> Truncate t d mod d = 0.
Proof.
  unfold Truncate. intros. destruct (Z.leb_spec d 0); [lia |].
  pose proof (Z_div_mod_eq_full t d). replace (t - t mod d) with ((t / d) * d) by lia.
  apply Z_mod_mult.
Qed.

Lemma Truncate_aligned t d : 0 < d -> Equal t (Truncate t d) = true <-> t mod d = 0.
Proof.
  unfold Truncate, Equal. intros. destruct (Z.leb_spec d 0); [lia |].
  rewrite Z.eqb_eq. lia.
Qed.

Lemma Truncate_greatest t d m : 0 < d -> m mod d = 0 -> m <= t -> m <= Truncate t d.
Proof.
  intros Hd Hm Hle. unfold Truncate. destruct (Z.leb_spec d 0); [lia |].
  pose proof (Z_div_mod_eq_full t d). pose proof (Z_div_mod_eq_full m d).
  pose proof (Z.mod_pos_bound t d Hd).
  assert (m / d <= t / d) by (apply Z.div_le_mono; lia). nia.
Qed.

(** [UnixNano] is exact, hence injective, for the instants it can represent. *)
Definition unix_nano_range (t : Time) : Prop := int64_range (t - unixToInternal * Second).
Lemma UnixNano_inj t u : unix_nano_range t -> unix_nano_range u -> UnixNano t = UnixNano u -> t = u.
Proof. unfold unix_nano_range, UnixNano. intros Ht Hu. rewrite !wrap64_id by done. lia. Qed.

#[export] Hint Unfold IsZero Before After Equal Add : go.
Ltac unfold_time := unfold IsZero, Before, After, Equal, Add in *.

(** Conversion must not unfold the calendar arithmetic on variables. *)
#[global] Opaque days_from_civil civil_from_days.
