(* ===== verification/GoJson.v ===== *)
(** * Package encoding/json: validity, object tests and string-map encoding

    [json.Valid], the tests [json.Unmarshal(raw, &map) == nil && map != nil]
    the validators perform, and [json.Marshal] of a [map[string]string]. *)
From S2P Require Import Prelude Errors GoStrings.
Open Scope go_scope.

Definition chr (n : Z) : ascii := ascii_of_N (Z.to_N n).
Definition is_ws (c : ascii) : bool :=
  let b := byte_at c in (b =? 32) || (b =? 9) || (b =? 10) || (b =? 13).
Definition is_digit (c : ascii) : bool := in_range 48 57 (byte_at c).
Definition is_hex (c : ascii) : bool :=
  is_digit c || in_range 97 102 (byte_at c) || in_range 65 70 (byte_at c).
Definition is_byte (n : Z) (c : ascii) : bool := byte_at c =? n.

Fixpoint skip_ws (s : string) : string :=
  match s with String c s' => if is_ws c then skip_ws s' else s | EmptyString => s end.

(** The rest after the closing quote of a string literal. *)
Fixpoint scan_string (s : string) : option string :=
  match s with
  | EmptyString => None
  | String c s1 =>
      let b := byte_at c in
      if b =? 34 then Some s1
      else if b =? 92 then
        match s1 with
        | String e s2 =>
            if existsb (fun n => is_byte n e) [34; 92; 47; 98; 102; 110; 114; 116] then scan_string s2
            else if is_byte 117 e then
              match s2 with
              | String h1 (String h2 (String h3 (String h4 s3))) =>
                  if is_hex h1 && is_hex h2 && is_hex h3 && is_hex h4 then scan_string s3 else None
              | _ => None
              end
            else None
        | EmptyString => None
        end
      else if b <? 32 then None
      else scan_string s1
  end.

Fixpoint span_digits (s : string) : string * string :=
  match s with
  | String c s' => if is_digit c then let '(d, r) := span_digits s' in (String c d, r) else (EmptyString, s)
  | EmptyString => (EmptyString, s)
  end.

Fixpoint digits_value (acc : Z) (s : string) : Z :=
  match s with String c s' => digits_value (acc * 10 + (byte_at c - 48)) s' | EmptyString => acc end.

(** [strconv.ParseFloat] of a JSON number reports a range error exactly when
    the decimal rounds to infinity, i.e. is at least [2^1024 - 2^970]. *)
Definition float64_in_range (int frac : string) (exp : Z) : bool :=
  let D := digits_value 0 (int ++ frac) in
  let e10 := exp - slen frac in
  if D =? 0 then true
  else
    let B := 2 ^ 1024 - 2 ^ 970 in
    if 400 <? e10 then false
    else if 0 <=? e10 then D * 10 ^ e10 <? B
    else if e10 + slen (int ++ frac) <? 300 then true
    else D <? B * 10 ^ (- e10).

(** A number literal; with [float] set its value must fit a float64. *)
Definition scan_number (float : bool) (s : string) : option string :=
  let s := match s with String c s' => if is_byte 45 c then s' else s | EmptyString => s end in
  let '(int, s) := span_digits s in
  match int with
  | EmptyString => None
  | String c0 rest_int =>
      if is_byte 48 c0 && negb (rest_int =s EmptyString) then None
      else
        let frac := match s with
          | String c s' => if is_byte 46 c then
              let '(f, r) := span_digits s' in
              match f with EmptyString => None | _ => Some (f, r) end
            else Some (EmptyString, s)
          | EmptyString => Some (EmptyString, s) end in
        match frac with
        | None => None
        | Some (f, s) =>
            let ex := match s with
              | String c s' => if is_byte 101 c || is_byte 69 c then
                  let '(sg, s'') := match s' with
                    | String c' s'' => if is_byte 43 c' then (1, s'')
                                       else if is_byte 45 c' then (-1, s'') else (1, s')
                    | EmptyString => (1, s') end in
                  let '(d, r) := span_digits s'' in
                  match d with EmptyString => None | _ => Some (sg * digits_value 0 d, r) end
                else Some (0, s)
              | EmptyString => Some (0, s) end in
            match ex with
            | None => None
            | Some (e, r) => if float && negb (float64_in_range int f e) then None else Some r
            end
        end
  end.

(** The scanner's nesting limit. *)
Definition maxNestingDepth : Z := 10000.

Inductive json_mode := JValue | JMembers | JElements.

(** Recursive-descent recogniser returning the unread rest. [fuel] bounds the
    calls; [2 * length + 2] of them suffice, each value or member consuming a
    byte. *)
Fixpoint scan_json (fuel : nat) (float : bool) (m : json_mode) (depth : Z) (s : string) : option string :=
  match fuel with
  | O => None
  | S fuel =>
      match m with
      | JValue =>
          match skip_ws s with
          | EmptyString => None
          | String c r =>
              let b := byte_at c in
              if b =? 123 then
                if maxNestingDepth <? depth + 1 then None
                else match skip_ws r with
                  | String c' r' => if is_byte 125 c' then Some r' else scan_json fuel float JMembers (depth + 1) r
                  | EmptyString => None end
              else if b =? 91 then
                if maxNestingDepth <? depth + 1 then None
                else match skip_ws r with
                  | String c' r' => if is_byte 93 c' then Some r' else scan_json fuel float JElements (depth + 1) r
                  | EmptyString => None end
              else if b =? 34 then scan_string r
              else if (b =? 45) || is_digit c then scan_number float (String c r)
              else if HasPrefix (String c r) "true" then Some (String.substring 4 (String.length r) (String c r))
              else if HasPrefix (String c r) "false" then Some (String.substring 5 (String.length r) (String c r))
              else if HasPrefix (String c r) "null" then Some (String.substring 4 (String.length r) (String c r))
              else None
          end
      | JMembers =>
          match skip_ws s with
          | String c r =>
              if is_byte 34 c then
                match scan_string r with
                | Some r1 =>
                    match skip_ws r1 with
                    | String c1 r2 =>
                        if is_byte 58 c1 then
                          match scan_json fuel float JValue depth r2 with
                          | Some r3 =>
                              match skip_ws r3 with
                              | String c3 r4 =>
                                  if is_byte 44 c3 then scan_json fuel float JMembers depth r4
                                  else if is_byte 125 c3 then Some r4 else None
                              | EmptyString => None end
                          | None => None end
                        else None
                    | EmptyString => None end
                | None => None end
              else None
          | EmptyString => None
          end
      | JElements =>
          match scan_json fuel float JValue depth s with
          | Some r1 =>
              match skip_ws r1 with
              | String c1 r2 =>
                  if is_byte 44 c1 then scan_json fuel float JElements depth r2
                  else if is_byte 93 c1 then Some r2 else None
              | EmptyString => None end
          | None => None
          end
      end
  end.

Definition json_fuel (s : string) : nat := 2 * String.length s + 2.
Definition scan_document (float : bool) (s : string) : bool :=
  match scan_json (json_fuel s) float JValue 0 s with
  | Some r => skip_ws r =s EmptyString
  | None => false
  end.

(** [json.Valid] *)
Definition json_Valid (s : string) : bool := scan_document false s.

Definition starts_object (s : string) : bool :=
  match skip_ws s with String c _ => is_byte 123 c | EmptyString => false end.

(** [json.Unmarshal] into a [map[string]json.RawMessage] succeeds with a
    non-nil map: the document is valid and is an object. *)
Definition unmarshals_raw_object (s : string) : bool := scan_document false s && starts_object s.

(** The same into a [map[string]any], which converts numbers to float64. *)
Definition unmarshals_any_object (s : string) : bool := scan_document true s && starts_object s.

(** ** Encoding *)
Definition hex_digit (n : Z) : ascii := if n <? 10 then chr (48 + n) else chr (87 + n).
Definition quote : string := String (chr 34) EmptyString.
Definition backslash : string := String (chr 92) EmptyString.

Definition escape_byte (b : Z) : string :=
  (backslash ++ (if ((b =? 34) || (b =? 92))%Z then String (chr b) EmptyString
   else if (b =? 8)%Z then "b" else if (b =? 12)%Z then "f" else if (b =? 10)%Z then "n"
   else if (b =? 13)%Z then "r" else if (b =? 9)%Z then "t"
   else "u00" ++ String (hex_digit (b / 16)) (String (hex_digit (b mod 16)) EmptyString)))%string.

(** A rune of the string with its bytes, HTML escaping being on. *)
Definition escape_rune (seg : Z * string) : string :=
  let '(r, bytes) := seg in
  if r <? 128 then
    if (r <? 32) || (r =? 34) || (r =? 92) || (r =? 60) || (r =? 62) || (r =? 38)
    then escape_byte r else bytes
  else if (r =? RuneError) && (String.length bytes =? 1)%nat then (backslash ++ "ufffd")%string
  else if r =? 8232 then (backslash ++ "u2028")%string
  else if r =? 8233 then (backslash ++ "u2029")%string
  else bytes.

Definition json_string (s : string) : string :=
  (quote ++ String.concat EmptyString (map escape_rune (segments s)) ++ quote)%string.

Fixpoint insert_key (kv : string * string) (l : list (string * string)) : list (string * string) :=
  match l with
  | [] => [kv]
  | kv' :: l' => if String.leb (fst kv) (fst kv') then kv :: l else kv' :: insert_key kv l'
  end.
Definition sort_keys (l : list (string * string)) : list (string * string) := fold_right insert_key [] l.

Definition json_member (kv : string * string) : string :=
  (json_string (fst kv) ++ ":" ++ json_string (snd kv))%string.

(** [json.Marshal] of a [map[string]string] given by its entries. *)
Definition json_Marshal_map (l : list (string * string)) : string :=
  ("{" ++ String.concat "," (map json_member (sort_keys l)) ++ "}")%string.

(** [json.Marshal] of a valid [json.RawMessage]: white space outside strings is
    dropped, and [<], [>], [&] and the line separators U+2028/9 are escaped. *)
Fixpoint json_compact (in_string escaped : bool) (skip : nat) (s : string) : string :=
  match s with
  | EmptyString => EmptyString
  | String c r =>
      match skip with
      | S skip => json_compact in_string escaped skip r
      | O =>
          let b := byte_at c in
          if (b =? 60) || (b =? 62) || (b =? 38) then (escape_byte b ++ json_compact in_string false 0 r)%string
          else if (b =? 226) && (match r with String c1 (String c2 _) => is_byte 128 c1 && ((byte_at c2 =? 168) || (byte_at c2 =? 169))
                                 | _ => false end) then
            (backslash ++ (match r with String _ (String c2 _) => if is_byte 168 c2 then "u2028" else "u2029" | _ => "" end)
              ++ json_compact in_string false 2 r)%string
          else if in_string then
            String c (json_compact (escaped || negb (b =? 34)) (negb escaped && (b =? 92)) 0 r)
          else if is_ws c then json_compact false false 0 r
          else String c (json_compact (b =? 34) false 0 r)
      end
  end.
Definition json_Marshal_raw (s : string) : string := json_compact false false 0 s.

(** JSON text written with single quotes, for the examples and witnesses. *)
Fixpoint dq (s : string) : string :=
  match s with
  | EmptyString => EmptyString
  | String c s' => String (if is_byte 39 c then chr 34 else c) (dq s')
  end.

Example valid_1 :
  map (fun s => json_Valid (dq s))
    ["{}"; " {'a':[1,-2.5e+3,null]} "; "01"; "{'a':1,}"; "nul"; "[1 2]"; "1.e3"]%string
  = [true; true; false; false; false; false; false].
Proof. reflexivity. Qed.
Example any_1 :
  map (fun s => unmarshals_any_object (dq s))
    ["{'a':1e308}"; "{'a':1e309}"; "{'a':1.7976931348623158e308}"; "{'a':1.7976931348623159e308}";
     "null"; "{'a':0e999999}"]%string
  = [true; false; true; false; false; true].
Proof. vm_compute. reflexivity. Qed.
Example marshal_1 :
  json_Marshal_map [("b", "x<y"); ("a", dq "q\'")]%string = dq "{'a':'q\\\'','b':'x\u003cy'}".
Proof. reflexivity. Qed.
Example compact_1 :
  json_Marshal_raw (dq " { 'a b' : 'x\' <y' , 'c':[ 1, 2 ] } ") = dq "{'a b':'x\' \u003cy','c':[1,2]}".
Proof. reflexivity. Qed.

(** * Package encoding/json: string literals and the members of an object

    [unquote] of the decoder: escapes, surrogate pairs and the replacement of
    invalid UTF-8; and the members [json.Unmarshal] puts in a map, keeping the
    values that are strings. *)
(** [utf8.AppendRune] of a valid rune, and of the surrogates as [RuneError]. *)
Definition is_surrogate (r : Z) : bool := in_range 55296 57343 r.
Definition bytes_string (bytes : list Z) : string := string_of_list_ascii (map chr bytes).
Definition encode_rune (r : Z) : string :=
  let r := if (r <? 0) || (1114111 <? r) || is_surrogate r then RuneError else r in
  bytes_string
    (if r <? 128 then [r]
     else if r <? 2048 then [192 + r / 64; 128 + r mod 64]
     else if r <? 65536 then [224 + r / 4096; 128 + r / 64 mod 64; 128 + r mod 64]
     else [240 + r / 262144; 128 + r / 4096 mod 64; 128 + r / 64 mod 64; 128 + r mod 64]).

Definition hex_digit_value (c : ascii) : Z :=
  let b := byte_at c in if is_digit c then b - 48 else if in_range 97 102 b then b - 87 else b - 55.
(** The four hexadecimal digits after [\u]. *)
Definition getu4 (s : string) : option Z :=
  match s with
  | String a (String b (String c (String d _))) =>
      if is_hex a && is_hex b && is_hex c && is_hex d
      then Some (((hex_digit_value a * 16 + hex_digit_value b) * 16 + hex_digit_value c) * 16 + hex_digit_value d) else None
  | _ => None
  end.
(** The second half of a surrogate pair, after the digits of the first. *)
Definition low_surrogate (s : string) : option Z :=
  match s with
  | String _ (String _ (String _ (String _ (String b (String u s'))))) =>
      if is_byte 92 b && is_byte 117 u then
        match getu4 s' with Some r => if in_range 56320 57343 r then Some r else None | None => None end
      else None
  | _ => None
  end.
Definition simple_escape (e : ascii) : ascii :=
  let b := byte_at e in
  chr (if b =? 98 then 8 else if b =? 102 then 12 else if b =? 110 then 10 else if b =? 114 then 13 else if b =? 116 then 9 else b).

(** The text of a valid string literal, without its quotes; [skip] bytes belong
    to the previous rune or escape. *)
Fixpoint unquote (skip : nat) (s : string) : string :=
  match s with
  | EmptyString => EmptyString
  | String c s1 =>
      match skip with
      | S skip => unquote skip s1
      | O =>
          if is_byte 92 c then
            match s1 with
            | EmptyString => EmptyString
            | String e s2 =>
                if is_byte 117 e then
                  match getu4 s2 with
                  | None => EmptyString
                  | Some r =>
                      match (if in_range 55296 56319 r then low_surrogate s2 else None) with
                      | Some low => (encode_rune ((r - 55296) * 1024 + (low - 56320) + 65536) ++ unquote 11 s1)%string
                      | None => (encode_rune r ++ unquote 5 s1)%string
                      end
                  end
                else String (simple_escape e) (unquote 1 s1)
            end
          else if byte_at c <? 128 then String c (unquote 0 s1)
          else
            let '(r, w) := DecodeRune s in
            (encode_rune r ++ unquote (w - 1) s1)%string
      end
  end.

(** The text of [s] before its suffix [rest]. *)
Definition before_rest (s rest : string) : string := String.substring 0 (String.length s - String.length rest) s.
(** A string literal, after its opening quote: its text and the rest. *)
Definition read_string (s : string) : option (string * string) :=
  match scan_string s with
  | None => None
  | Some rest => let body := before_rest s rest in Some (unquote 0 (String.substring 0 (String.length body - 1) body), rest)
  end.

(** The members of a valid object, after its opening brace: each key with its
    value when that is a string. *)
Fixpoint object_members (fuel : nat) (s : string) : list (string * option string) :=
  match fuel with
  | O => []
  | S fuel =>
      match skip_ws s with
      | String c s1 =>
          if is_byte 34 c then
            match read_string s1 with
            | Some (key, s2) =>
                match skip_ws s2 with
                | String _ s3 =>
                    let s4 := skip_ws s3 in
                    match scan_json (json_fuel s4) true JValue 0 s4 with
                    | Some s5 =>
                        let value := match s4 with
                          | String q s6 => if is_byte 34 q then match read_string s6 with Some (v, _) => Some v | None => None end else None
                          | EmptyString => None end in
                        (key, value) :: match skip_ws s5 with
                          | String c5 s7 => if is_byte 44 c5 then object_members fuel s7 else []
                          | EmptyString => [] end
                    | None => []
                    end
                | EmptyString => []
                end
            | None => []
            end
          else []
      | EmptyString => []
      end
  end.

(** [json.Unmarshal(raw, &object)] of a [map[string]any], keeping the strings:
    a later member replaces an earlier one of its key; [None] is an error. *)
Definition unmarshal_strings (raw : string) : option (gmap string (option string)) :=
  if negb (scan_document true raw) then None
  else
    match skip_ws raw with
    | String c rest =>
        if is_byte 123 c then
          Some (fold_left (fun m kv => <[fst kv := snd kv]> m) (object_members (json_fuel rest) rest) ∅)
        else if is_byte 110 c then Some ∅ else None
    | EmptyString => None
    end.

Example unmarshal_1 :
  (map_to_list <$> unmarshal_strings (dq "{ 'a' : 'x\u0041\n', 'b':[1,{'c':'d'}], 'a':'\ud83d\ude00z' }"))
  = Some [("a", Some (encode_rune 128512 ++ "z")); ("b", None)]%string.
Proof. vm_compute. reflexivity. Qed.
Example unquote_lone : unquote 0 "\ud83dx" = (encode_rune RuneError ++ "x")%string.
Proof. reflexivity. Qed.
