(* ===== verification/External.v ===== *)
(** * Third-party code the service calls

    github.com/shopspring/decimal, github.com/google/uuid and the IANA time
    zone database are not part of the repository: the operations the source
    uses are fields of the classes below, and what it relies on are the
    [...Laws] classes. Module [Concrete] instantiates them for the witnesses. *)
From Stdlib Require Import QArith.
From S2P Require Import Prelude GoStrings GoTime.

(** [domain.ID] is a UUID, [[16]byte], read as a big-endian number; the nil
    UUID is 0. *)
Abbreviation ID := N (only parsing).
Definition id_IsZero (id : ID) : bool := N.eqb id 0.

(** ** shopspring/decimal *)
Class DecimalLib := {
  Decimal : Type;
  dec_IsNegative : Decimal -> bool;
  dec_IsPositive : Decimal -> bool;
  dec_GreaterThan : Decimal -> Decimal -> bool;
  dec_LessThan : Decimal -> Decimal -> bool;
  dec_String : Decimal -> string;
  dec_NewFromString : string -> option Decimal }.

(** A decimal is an exact rational number and its predicates compare values. *)
Class DecimalLaws (D : DecimalLib) := {
  dec_val : Decimal -> Q;
  dec_IsNegative_spec d : dec_IsNegative d = true <-> (dec_val d < 0)%Q;
  dec_IsPositive_spec d : dec_IsPositive d = true <-> (0 < dec_val d)%Q;
  dec_GreaterThan_spec d e : dec_GreaterThan d e = true <-> (dec_val e < dec_val d)%Q;
  dec_LessThan_spec d e : dec_LessThan d e = true <-> (dec_val d < dec_val e)%Q }.

(** ** google/uuid *)
Class UUIDLib := {
  uuid_String : ID -> string;
  uuid_Version : ID -> Z;
  uuid_Parse : string -> option ID }.

(** The canonical text has 36 characters and parses back. *)
Class UUIDLaws (U : UUIDLib) := {
  uuid_String_length id : String.length (uuid_String id) = 36%nat;
  uuid_Parse_String id : (id < 2 ^ 128)%N -> uuid_Parse (uuid_String id) = Some id }.

(** ** The time zone database: [time.LoadLocation] *)
Class TzLib := { load_location : string -> option Location }.

Lemma uuid_String_inj `{L : UUIDLaws} a b :
  (a < 2 ^ 128)%N -> (b < 2 ^ 128)%N -> uuid_String a = uuid_String b -> a = b.
Proof.
  intros Ha Hb E. apply uuid_Parse_String in Ha, Hb. rewrite E in Ha. congruence.
Qed.

Lemma dec_not_negative `{L : DecimalLaws} d : dec_IsNegative d = false <-> (0 <= dec_val d)%Q.
Proof.
  destruct (dec_IsNegative d) eqn:E.
  - apply dec_IsNegative_spec in E. split; [done |]. intros H.
    by apply Qle_not_lt in H.
  - split; [| done]. intros _. apply Qnot_lt_le. intros H%dec_IsNegative_spec. congruence.
Qed.
Lemma dec_not_greater `{L : DecimalLaws} d e : dec_GreaterThan d e = false <-> (dec_val d <= dec_val e)%Q.
Proof.
  destruct (dec_GreaterThan d e) eqn:E.
  - apply dec_GreaterThan_spec in E. split; [done |]. intros H. by apply Qle_not_lt in H.
  - split; [| done]. intros _. apply Qnot_lt_le. intros H%dec_GreaterThan_spec. congruence.
Qed.
Lemma dec_not_less `{L : DecimalLaws} d e : dec_LessThan d e = false <-> (dec_val e <= dec_val d)%Q.
Proof.
  destruct (dec_LessThan d e) eqn:E.
  - apply dec_LessThan_spec in E. split; [done |]. intros H. by apply Qle_not_lt in H.
  - split; [| done]. intros _. apply Qnot_lt_le. intros H%dec_LessThan_spec. congruence.
Qed.

(** ** Concrete instances, used by the witnesses only *)
Module Concrete.
(** Integers as decimals. *)
Definition int_decimal : DecimalLib := {|
  Decimal := Z;
  dec_IsNegative d := d <? 0; dec_IsPositive d := 0 <? d;
  dec_GreaterThan d e := e <? d; dec_LessThan d e := d <? e;
  dec_String d := digit d; dec_NewFromString _ := None |}.
Lemma int_decimal_laws : DecimalLaws int_decimal.
Proof.
  refine {| dec_val := (inject_Z : @Decimal int_decimal -> Q) |}; intros; simpl;
    rewrite Z.ltb_lt; unfold Qlt; simpl; lia.
Defined.

(** A 128-bit number as hexadecimal digits in the 8-4-4-4-12 layout. *)
Fixpoint hex_digits (n : nat) (id : N) : list N :=
  match n with O => [] | S n => hex_digits n (id / 16) ++ [id mod 16]%N end.
Definition hex_char (d : N) : ascii := ascii_of_N (if (d <? 10)%N then 48 + d else 87 + d).
Definition hex_value (c : ascii) : N := let b := N_of_ascii c in (if b <? 58 then b - 48 else b - 87)%N.
Definition dashes : list nat := [8; 4; 4; 4; 12]%nat.
Fixpoint layout (groups : list nat) (ds : list ascii) : list ascii :=
  match groups with
  | [] => []
  | [g] => firstn g ds
  | g :: gs => firstn g ds ++ ("-"%char :: layout gs (skipn g ds))
  end.
Definition hex_string (id : N) : string :=
  string_of_list_ascii (layout dashes (map hex_char (hex_digits 32 id))).
Definition hex_parse (s : string) : option N :=
  Some (fold_left (fun acc c => if (N_of_ascii c =? 45)%N then acc else acc * 16 + hex_value c)%N
          (list_ascii_of_string s) 0%N).
Definition hex_uuid : UUIDLib := {|
  uuid_String := hex_string;
  uuid_Version id := Z.of_N ((id / 2 ^ 76) mod 16);
  uuid_Parse := hex_parse |}.

Lemma hex_digits_length n id : length (hex_digits n id) = n.
Proof. revert id. induction n; intros id; simpl; [done |]. rewrite length_app, IHn. simpl. lia. Qed.
Lemma hex_digits_bound n id : Forall (fun d => d < 16)%N (hex_digits n id).
Proof.
  revert id. induction n; intros id; simpl; [done |].
  apply Forall_app. split; [done |]. repeat constructor. by apply N.mod_lt.
Qed.

Definition parse_step (acc : N) (c : ascii) : N :=
  (if (N_of_ascii c =? 45)%N then acc else acc * 16 + hex_value c)%N.
Lemma parse_layout gs ds acc : Forall (fun c => N_of_ascii c <> 45%N) ds ->
  length ds = list_sum gs ->
  fold_left parse_step (layout gs ds) acc = fold_left parse_step ds acc.
Proof.
  revert ds acc. induction gs as [|g [|g' gs] IH]; intros ds acc Hd Hl.
  - by destruct ds.
  - simpl in *. rewrite firstn_all2 by lia. done.
  - change (layout (g :: g' :: gs) ds) with (firstn g ds ++ ("-"%char :: layout (g' :: gs) (skipn g ds))).
    rewrite fold_left_app. cbn [fold_left].
    change (parse_step ?a "-"%char) with a. rewrite IH.
    + by rewrite <- fold_left_app, firstn_skipn.
    + by apply Forall_drop.
    + simpl in *. rewrite length_skipn. lia.
Qed.

Lemma hex_char_value d : (d < 16)%N -> N_of_ascii (hex_char d) <> 45%N /\ hex_value (hex_char d) = d.
Proof.
  intros H. assert (In d [0;1;2;3;4;5;6;7;8;9;10;11;12;13;14;15]%N) as Hin by (simpl; lia).
  simpl in Hin. repeat destruct Hin as [<-|Hin]; [vm_compute; done.. | done].
Qed.

Lemma hex_digits_value n id acc : (id < 16 ^ N.of_nat n)%N ->
  fold_left parse_step (map hex_char (hex_digits n id)) acc = (acc * 16 ^ N.of_nat n + id)%N.
Proof.
  revert id acc. induction n as [|n IH]; intros id acc H.
  - change (16 ^ N.of_nat 0)%N with 1%N in *. simpl. lia.
  - simpl hex_digits. rewrite Nat2N.inj_succ, N.pow_succ_r' in *.
    rewrite map_app, fold_left_app, IH by (apply N.Div0.div_lt_upper_bound; lia).
    cbn [map fold_left]. unfold parse_step at 1.
    destruct (hex_char_value (id mod 16)%N) as [Hne ->]; [by apply N.mod_lt |].
    apply N.eqb_neq in Hne. rewrite Hne.
    pose proof (N.div_mod id 16 ltac:(done)). lia.
Qed.

Lemma hex_uuid_laws : UUIDLaws hex_uuid.
Proof.
  split.
  - intros id. simpl. unfold hex_string. rewrite <- (hex_digits_length 32 id) at 1.
    pose proof (hex_digits_length 32 id) as Hl. revert Hl. generalize (hex_digits 32 id). intros l Hl.
    do 33 (destruct l as [|? l]; [try done |]); done.
  - intros id H. simpl. unfold hex_parse, hex_string. rewrite list_ascii_of_string_of_list_ascii.
    fold parse_step. f_equal. rewrite parse_layout.
    + rewrite hex_digits_value; [done |]. exact H.
    + apply Forall_map. eapply Forall_impl; [apply hex_digits_bound |]. intros d Hd.
      by apply hex_char_value.
    + by rewrite length_map, hex_digits_length.
Qed.

(** New York in 2025-2029: standard time UTC-5, daylight time UTC-4 from the
    second Sunday of March 07:00Z to the first Sunday of November 06:00Z. *)
Definition ny_transitions : list (Z * Z) :=
  [(1741503600, -14400); (1762063200, -18000);
   (1772953200, -14400); (1793512800, -18000);
   (1805007600, -14400); (1825567200, -18000);
   (1836457200, -14400); (1857016800, -18000);
   (1867906800, -14400); (1888466400, -18000)].
Fixpoint lookup_from (start off : Z) (tx : list (Z * Z)) (sec : Z) : Z * Z * Z :=
  match tx with
  | [] => (off, start, int64_max)
  | (w, off') :: tx' => if sec <? w then (off, start, w) else lookup_from w off' tx' sec
  end.
Definition new_york : Location := {| loc_lookup := lookup_from int64_min (-18000) ny_transitions |}.
Definition tz : TzLib := {| load_location name :=
  if (name =s "America/New_York") then Some new_york
  else if (name =s "UTC") then Some {| loc_lookup := fun _ => (0, int64_min, int64_max) |} else None |}.
End Concrete.
