(* ===== verification/Domain.v ===== *)
(** * Package internal/domain: identities, enumerations and catalog entities

    Values with a restricted text form are Go strings with a parser
    ([ParseCode], [ParseBarInterval], ...); a struct's [Validate] is the
    sequence of its checks, each returning the first violation. *)
From S2P Require Import Prelude Errors GoStrings GoTime GoJson External.

Definition invalidData (message : string) : error := Wrap message (Sentinel ErrInvalidData).

(** ** Instants and codes *)
Definition NewUTCInstant (value : Time) : result Time :=
  failif IsZero value, Wrap "construct UTC instant" (Sentinel ErrInvalidData) ;;
  Ok value.

(** [UTC] normalises a non-zero instant; the instant itself is unchanged. *)
Definition UTC (value : Time) : Time := if IsZero value then value else value.

Abbreviation Code := string (only parsing).
Definition maximumCodeLength : Z := 192.
Definition code_IsZero (code : Code) : bool := code =s EmptyString.

Definition ParseCode (value : string) : result Code :=
  failif (slen value =? 0) || (maximumCodeLength <? slen value)
         || negb (match_segments is_code_sep false value),
         Wrap "parse code" (Sentinel ErrInvalidData) ;;
  Ok value.

(** ** Enumerations *)
Definition BarInterval1Hour : string := "1h".
Definition BarInterval1Day : string := "1d".
Definition ParseBarInterval (value : string) : result string :=
  failif (value <>s BarInterval1Hour) && (value <>s BarInterval1Day),
         Wrap "parse bar interval" (Sentinel ErrInvalidData) ;;
  Ok value.

(** A [switch] over the accepted constants with an erring default. *)
Definition parse_enum (accepted : list string) (e : error) (value : string) : result string :=
  if contains_string accepted value then Ok value else Err e.

Definition AssetTypeStock : string := "STOCK".
Definition AssetTypeETF : string := "ETF".
Definition AssetTypeCrypto : string := "CRYPTO".
Definition AssetTypeCash : string := "CASH".
Definition AssetTypeFX : string := "FX".
Definition ParseAssetType : string -> result string :=
  parse_enum [AssetTypeStock; AssetTypeETF; AssetTypeCrypto; AssetTypeCash; AssetTypeFX]
    (Wrap "parse asset type" (Sentinel ErrInvalidData)).

Definition InstrumentTypeEquity : string := "EQUITY".
Definition InstrumentTypeETF : string := "ETF".
Definition InstrumentTypeSpot : string := "SPOT".
Definition InstrumentTypeFX : string := "FX".
Definition ParseInstrumentType : string -> result string :=
  parse_enum [InstrumentTypeEquity; InstrumentTypeETF; InstrumentTypeSpot; InstrumentTypeFX]
    (Wrap "parse instrument type" (Sentinel ErrInvalidData)).

Definition AssetStatusActive : string := "active".
Definition ParseAssetStatus : string -> result string :=
  parse_enum [AssetStatusActive; "inactive"; "delisted"]%string (invalidData "unsupported asset status").

Definition InstrumentStatusActive : string := "active".
Definition ParseInstrumentStatus : string -> result string :=
  parse_enum [InstrumentStatusActive; "suspended"; "delisted"]%string (invalidData "unsupported instrument status").

Definition ParseProviderType : string -> result string :=
  parse_enum ["BROKER"; "EXCHANGE"; "AGGREGATOR"]%string (invalidData "unsupported provider type").

Definition ProviderStatusActive : string := "active".
Definition ProviderStatusDisabled : string := "disabled".
Definition ProviderStatusDegraded : string := "degraded".
Definition ParseProviderStatus : string -> result string :=
  parse_enum [ProviderStatusActive; ProviderStatusDisabled; ProviderStatusDegraded]
    (invalidData "unsupported provider status").

Definition QualityStatusUnchecked : string := "unchecked".
Definition QualityStatusValid : string := "valid".
Definition QualityStatusWarning : string := "warning".
Definition QualityStatusInvalid : string := "invalid".
Definition ParseQualityStatus : string -> result string :=
  parse_enum [QualityStatusUnchecked; QualityStatusValid; QualityStatusWarning; QualityStatusInvalid]
    (invalidData "unsupported market-data quality status").

(** ** Field validators *)
Definition isJSONObject (value : string) : bool := unmarshals_raw_object value.

Definition normalizedJSON (value : string) : string := if slen value =? 0 then "{}"%string else value.

Definition normalizedOptionalTime (value : option Time) : option Time :=
  match value with None => None | Some t => Some (UTC t) end.

Definition validateIdentity (id : ID) (code : Code) (prefix : string) (maximumLength : Z) (kind : string) : result unit :=
  failif id_IsZero id, invalidData (kind ++ " ID is required") ;;
  match ParseCode code with
  | Ok parsed =>
      failif (parsed <>s code) || (maximumLength <? slen code), invalidData (kind ++ " code is invalid") ;;
      failif (prefix <>s EmptyString) && negb (HasPrefix code prefix),
             invalidData (kind ++ " code has an invalid prefix") ;;
      Ok tt
  | _ => Err (invalidData (kind ++ " code is invalid"))
  end.

Definition validateText (value : string) (maximumLength : Z) (field : string) : result unit :=
  failif (TrimSpace value =s EmptyString) || (maximumLength <? RuneCountInString value),
         invalidData (field ++ " is required or exceeds its maximum length") ;;
  Ok tt.

Definition validateScale (value : option Z) (field : string) : result unit :=
  failif opt_test (fun v => (v <? 0) || (18 <? v)) value, invalidData (field ++ " must be between 0 and 18") ;;
  Ok tt.

Definition validateValidRange (from to : option Time) (kind : string) : result unit :=
  failif opt_test (fun f => opt_test (fun t => negb (After t f)) to) from,
         invalidData (kind ++ " valid_to must be after valid_from") ;;
  Ok tt.

Definition validateRecord (metadata : string) (createdAt updatedAt : Time) (kind : string) : result unit :=
  failif negb (isJSONObject metadata), invalidData (kind ++ " metadata must be a JSON object") ;;
  failif IsZero createdAt || IsZero updatedAt || Before updatedAt createdAt,
         invalidData (kind ++ " timestamps are invalid") ;;
  Ok tt.

(** ** Catalog entities without decimals *)
Record Asset := mkAsset {
  asset_ID : ID; asset_Code : Code; asset_AssetType : string; asset_CanonicalSymbol : string;
  asset_Name : string; asset_Status : string; asset_Metadata : string;
  asset_CreatedAt : Time; asset_UpdatedAt : Time }.

Definition asset_Validate (asset : Asset) : result unit :=
  validateIdentity (asset_ID asset) (asset_Code asset) "asset." 128 "asset" ;;;
  wrap "validate asset type" (ParseAssetType (asset_AssetType asset)) ;;;
  wrap "validate asset status" (ParseAssetStatus (asset_Status asset)) ;;;
  validateText (asset_CanonicalSymbol asset) 64 "asset canonical symbol" ;;;
  validateText (asset_Name asset) 255 "asset name" ;;;
  validateRecord (asset_Metadata asset) (asset_CreatedAt asset) (asset_UpdatedAt asset) "asset".

Definition NewAsset (a : Asset) : result Asset :=
  let a := {| asset_ID := asset_ID a; asset_Code := asset_Code a; asset_AssetType := asset_AssetType a;
              asset_CanonicalSymbol := asset_CanonicalSymbol a; asset_Name := asset_Name a;
              asset_Status := asset_Status a; asset_Metadata := normalizedJSON (asset_Metadata a);
              asset_CreatedAt := UTC (asset_CreatedAt a); asset_UpdatedAt := UTC (asset_UpdatedAt a) |} in
  asset_Validate a ;;; Ok a.

Record Provider := mkProvider {
  prov_ID : ID; prov_Code : Code; prov_Name : string; prov_ProviderType : string; prov_Status : string;
  prov_Metadata : string; prov_CreatedAt : Time; prov_UpdatedAt : Time }.

Definition provider_Validate (p : Provider) : result unit :=
  validateIdentity (prov_ID p) (prov_Code p) EmptyString 64 "provider" ;;;
  validateText (prov_Name p) 128 "provider name" ;;;
  wrap "validate provider type" (ParseProviderType (prov_ProviderType p)) ;;;
  wrap "validate provider status" (ParseProviderStatus (prov_Status p)) ;;;
  validateRecord (prov_Metadata p) (prov_CreatedAt p) (prov_UpdatedAt p) "provider".

Definition NewProvider (p : Provider) : result Provider :=
  let p := {| prov_ID := prov_ID p; prov_Code := prov_Code p; prov_Name := prov_Name p;
              prov_ProviderType := prov_ProviderType p; prov_Status := prov_Status p;
              prov_Metadata := normalizedJSON (prov_Metadata p);
              prov_CreatedAt := UTC (prov_CreatedAt p); prov_UpdatedAt := UTC (prov_UpdatedAt p) |} in
  provider_Validate p ;;; Ok p.

(** [domain.ProviderCapabilities], the per-instrument capability document. *)
Record Capabilities := mkCapabilities {
  cap_Quote : bool; cap_Historical : bool; cap_Intervals : list string }.

Fixpoint validate_intervals (seen intervals : list string) : result unit :=
  match intervals with
  | [] => Ok tt
  | interval :: rest =>
      failif is_err (ParseBarInterval interval),
             invalidData "provider capabilities contain an unsupported interval" ;;
      failif contains_string seen interval,
             invalidData "provider capabilities contain a duplicate interval" ;;
      validate_intervals (interval :: seen) rest
  end.
Definition capabilities_Validate (c : Capabilities) : result unit := validate_intervals [] (cap_Intervals c).

Record ProviderInstrument := mkProviderInstrument {
  pi_ID : ID; pi_Code : Code; pi_ProviderID : ID; pi_InstrumentID : ID; pi_ExternalSymbol : string;
  pi_ProviderMarket : string; pi_Capabilities : Capabilities; pi_Priority : Z; pi_IsDefault : bool;
  pi_Enabled : bool; pi_ValidFrom : option Time; pi_ValidTo : option Time; pi_Metadata : string;
  pi_CreatedAt : Time; pi_UpdatedAt : Time }.

Definition mapping_Validate (m : ProviderInstrument) : result unit :=
  validateIdentity (pi_ID m) (pi_Code m) "provider." 192 "provider instrument" ;;;
  failif id_IsZero (pi_ProviderID m) || id_IsZero (pi_InstrumentID m),
         invalidData "provider and instrument IDs are required" ;;
  validateText (pi_ExternalSymbol m) 128 "provider external symbol" ;;;
  validateText (pi_ProviderMarket m) 32 "provider market" ;;;
  failif pi_Priority m <? 0, invalidData "provider instrument priority cannot be negative" ;;
  capabilities_Validate (pi_Capabilities m) ;;;
  validateValidRange (pi_ValidFrom m) (pi_ValidTo m) "provider instrument" ;;;
  failif pi_IsDefault m && (negb (pi_Enabled m) || not_nil (pi_ValidTo m)),
         invalidData "default provider instrument must be enabled and have no valid_to" ;;
  validateRecord (pi_Metadata m) (pi_CreatedAt m) (pi_UpdatedAt m) "provider instrument".

Definition NewProviderInstrument (m : ProviderInstrument) : result ProviderInstrument :=
  let m := {| pi_ID := pi_ID m; pi_Code := pi_Code m; pi_ProviderID := pi_ProviderID m;
              pi_InstrumentID := pi_InstrumentID m; pi_ExternalSymbol := pi_ExternalSymbol m;
              pi_ProviderMarket := pi_ProviderMarket m; pi_Capabilities := pi_Capabilities m;
              pi_Priority := pi_Priority m; pi_IsDefault := pi_IsDefault m; pi_Enabled := pi_Enabled m;
              pi_ValidFrom := normalizedOptionalTime (pi_ValidFrom m);
              pi_ValidTo := normalizedOptionalTime (pi_ValidTo m);
              pi_Metadata := normalizedJSON (pi_Metadata m);
              pi_CreatedAt := UTC (pi_CreatedAt m); pi_UpdatedAt := UTC (pi_UpdatedAt m) |} in
  mapping_Validate m ;;; Ok m.

(** ** Subscriptions *)
Record CollectionSubscription := mkCollectionSubscription {
  sub_ID : ID; sub_ProviderInstrumentID : ID; sub_Interval : string; sub_Enabled : bool;
  sub_Priority : Z; sub_CloseDelaySeconds : Z; sub_RevisionDelaySeconds : option Z;
  sub_Metadata : string; sub_CreatedAt : Time; sub_UpdatedAt : Time }.

Record SubscriptionSettings := mkSubscriptionSettings {
  set_Enabled : bool; set_Priority : Z; set_CloseDelaySeconds : Z; set_RevisionDelaySeconds : option Z }.

(** [audit_OccurredUTC] is [OccurredAt.Location() == time.UTC]. *)
Record SubscriptionAuditEntry := mkSubscriptionAuditEntry {
  audit_Action : string; audit_RequestedBy : string; audit_ActorType : string;
  audit_RequestID : string; audit_Reason : string; audit_OccurredAt : Time; audit_OccurredUTC : bool }.

Definition invalid_audit_text (v : string * Z) : bool :=
  (fst v =s EmptyString) || (fst v <>s TrimSpace (fst v)) || (snd v <? RuneCountInString (fst v)).

Definition audit_Validate (entry : SubscriptionAuditEntry) : result unit :=
  failif (audit_Action entry <>s "create") && (audit_Action entry <>s "update"),
         Wrap "subscription audit action" (Sentinel ErrInvalidData) ;;
  failif (audit_ActorType entry <>s "user") && (audit_ActorType entry <>s "service"),
         Wrap "subscription audit actor type" (Sentinel ErrInvalidData) ;;
  failif existsb invalid_audit_text
           [(audit_RequestedBy entry, 128); (audit_RequestID entry, 128); (audit_Reason entry, 512)],
         Wrap "subscription audit text" (Sentinel ErrInvalidData) ;;
  failif IsZero (audit_OccurredAt entry) || negb (audit_OccurredUTC entry),
         Wrap "subscription audit time" (Sentinel ErrInvalidData) ;;
  Ok tt.

(** ** Instruments *)
Section Instruments.
Context `{DecimalLib} `{TzLib}.

Record Instrument := mkInstrument {
  inst_ID : ID; inst_Code : Code; inst_AssetID : ID; inst_Venue : string;
  inst_InstrumentType : string; inst_Symbol : string; inst_QuoteAssetID : option ID;
  inst_QuoteCurrency : string; inst_MarketTimezone : string; inst_PriceScale : option Z;
  inst_QuantityScale : option Z; inst_LotSize : option Decimal; inst_MinQuantity : option Decimal;
  inst_Status : string; inst_ValidFrom : option Time; inst_ValidTo : option Time;
  inst_Metadata : string; inst_CreatedAt : Time; inst_UpdatedAt : Time }.

Definition validatePositiveDecimal (value : option Decimal) (field : string) : result unit :=
  failif opt_test (fun v => negb (dec_IsPositive v)) value, invalidData (field ++ " must be positive") ;;
  Ok tt.

Definition instrument_Validate (i : Instrument) : result unit :=
  validateIdentity (inst_ID i) (inst_Code i) "instrument." 160 "instrument" ;;;
  failif id_IsZero (inst_AssetID i), invalidData "instrument asset ID is required" ;;
  wrap "validate instrument type" (ParseInstrumentType (inst_InstrumentType i)) ;;;
  wrap "validate instrument status" (ParseInstrumentStatus (inst_Status i)) ;;;
  validateText (inst_Venue i) 32 "instrument venue" ;;;
  validateText (inst_Symbol i) 64 "instrument symbol" ;;;
  validateText (inst_QuoteCurrency i) 16 "instrument quote currency" ;;;
  validateText (inst_MarketTimezone i) 64 "instrument market timezone" ;;;
  failif is_nil (load_location (inst_MarketTimezone i)),
         invalidData "instrument market timezone is not an IANA timezone" ;;
  failif opt_test (fun q => id_IsZero q || (q =id inst_AssetID i)) (inst_QuoteAssetID i),
         invalidData "instrument quote asset must be non-zero and differ from its base asset" ;;
  validateScale (inst_PriceScale i) "instrument price scale" ;;;
  validateScale (inst_QuantityScale i) "instrument quantity scale" ;;;
  validatePositiveDecimal (inst_LotSize i) "instrument lot size" ;;;
  validatePositiveDecimal (inst_MinQuantity i) "instrument minimum quantity" ;;;
  validateValidRange (inst_ValidFrom i) (inst_ValidTo i) "instrument" ;;;
  validateRecord (inst_Metadata i) (inst_CreatedAt i) (inst_UpdatedAt i) "instrument".

Definition NewInstrument (i : Instrument) : result Instrument :=
  let i := {| inst_ID := inst_ID i; inst_Code := inst_Code i; inst_AssetID := inst_AssetID i;
              inst_Venue := inst_Venue i; inst_InstrumentType := inst_InstrumentType i;
              inst_Symbol := inst_Symbol i; inst_QuoteAssetID := inst_QuoteAssetID i;
              inst_QuoteCurrency := inst_QuoteCurrency i; inst_MarketTimezone := inst_MarketTimezone i;
              inst_PriceScale := inst_PriceScale i; inst_QuantityScale := inst_QuantityScale i;
              inst_LotSize := inst_LotSize i; inst_MinQuantity := inst_MinQuantity i;
              inst_Status := inst_Status i; inst_ValidFrom := normalizedOptionalTime (inst_ValidFrom i);
              inst_ValidTo := normalizedOptionalTime (inst_ValidTo i);
              inst_Metadata := normalizedJSON (inst_Metadata i);
              inst_CreatedAt := UTC (inst_CreatedAt i); inst_UpdatedAt := UTC (inst_UpdatedAt i) |} in
  instrument_Validate i ;;; Ok i.

(** The supported first-phase identity combinations. *)
Definition types_compatible (assetType instrumentType : string) : bool :=
  ((assetType =s AssetTypeStock) && (instrumentType =s InstrumentTypeEquity)) ||
  ((assetType =s AssetTypeETF) && (instrumentType =s InstrumentTypeETF)) ||
  ((assetType =s AssetTypeCrypto) && (instrumentType =s InstrumentTypeSpot)) ||
  ((assetType =s AssetTypeFX) && (instrumentType =s InstrumentTypeFX)).

Definition ValidateAssetInstrument (asset : Asset) (instrument : Instrument) : result unit :=
  asset_Validate asset ;;;
  instrument_Validate instrument ;;;
  failif asset_ID asset <>id inst_AssetID instrument, invalidData "instrument does not belong to asset" ;;
  failif negb (types_compatible (asset_AssetType asset) (inst_InstrumentType instrument)),
         invalidData "asset and instrument types are incompatible" ;;
  Ok tt.

Definition ValidateProviderMapping (provider : Provider) (instrument : Instrument) (mapping : ProviderInstrument) : result unit :=
  provider_Validate provider ;;;
  instrument_Validate instrument ;;;
  mapping_Validate mapping ;;;
  failif (pi_ProviderID mapping <>id prov_ID provider) || (pi_InstrumentID mapping <>id inst_ID instrument),
         invalidData "provider instrument relationship IDs do not match" ;;
  Ok tt.
End Instruments.
