(* ===== verification/MarketData.v ===== *)
(** * internal/domain/market_data.go: sources, ranges, quotes and bars *)
From Stdlib Require Import QArith.
From S2P Require Import Prelude Errors GoStrings GoTime GoJson External Domain.
Open Scope Z_scope.
Open Scope go_scope.

(** ** Source identity *)
Record MarketDataSource := mkMarketDataSource {
  src_InstrumentID : ID; src_ProviderInstrumentID : ID }.

Definition source_Validate (s : MarketDataSource) : result unit :=
  failif id_IsZero (src_InstrumentID s) || id_IsZero (src_ProviderInstrumentID s),
         invalidData "market-data source requires instrument and provider instrument IDs" ;;
  Ok tt.

Definition NewMarketDataSource (instrumentID providerInstrumentID : ID) : result MarketDataSource :=
  let source := mkMarketDataSource instrumentID providerInstrumentID in
  source_Validate source ;;; Ok source.

Definition ValidateProviderInstrument (s : MarketDataSource) (mapping : ProviderInstrument) : result unit :=
  source_Validate s ;;;
  mapping_Validate mapping ;;;
  failif (src_InstrumentID s <>id pi_InstrumentID mapping) || (src_ProviderInstrumentID s <>id pi_ID mapping),
         invalidData "market-data source does not match provider instrument mapping" ;;
  Ok tt.

(** ** Time ranges: [[start, end)] with optional bounds *)
Record TimeRange := mkTimeRange { range_Start : option Time; range_End : option Time }.

Definition range_Validate (r : TimeRange) : result unit :=
  failif opt_test IsZero (range_Start r), invalidData "time range start cannot be zero" ;;
  failif opt_test IsZero (range_End r), invalidData "time range end cannot be zero" ;;
  failif opt_test (fun s => opt_test (fun e => negb (Before s e)) (range_End r)) (range_Start r),
         invalidData "time range start must be before end" ;;
  Ok tt.

Definition instant_opt (t : option Time) : result (option Time) :=
  match t with None => Ok None | Some v => p <- NewUTCInstant v ;; Ok (Some p) end.

Definition NewTimeRange (start stop : option Time) : result TimeRange :=
  s <- wrap "construct time range start" (instant_opt start) ;;
  e <- wrap "construct time range end" (instant_opt stop) ;;
  let r := mkTimeRange s e in
  range_Validate r ;;; Ok r.

Definition NewBoundedTimeRange (start stop : Time) : result TimeRange := NewTimeRange (Some start) (Some stop).

Definition Contains (r : TimeRange) (instant : Time) : bool :=
  if IsZero instant || is_err (range_Validate r) then false
  else if opt_test (fun s => Before instant s) (range_Start r) then false
  else is_nil (range_End r) || opt_test (fun e => Before instant e) (range_End r).

Definition IsBounded (r : TimeRange) : bool := not_nil (range_Start r) && not_nil (range_End r).

Section MarketData.
Context `{D : DecimalLib}.

(** ** Quotes *)
Record Quote := mkQuote {
  quote_InstrumentID : ID; quote_ProviderInstrumentID : ID; quote_MarketTime : Time;
  quote_LastPrice : Decimal; quote_BidPrice : option Decimal; quote_BidSize : option Decimal;
  quote_AskPrice : option Decimal; quote_AskSize : option Decimal; quote_Open24H : option Decimal;
  quote_High24H : option Decimal; quote_Low24H : option Decimal; quote_BaseVolume24H : option Decimal;
  quote_QuoteVolume24H : option Decimal; quote_QualityStatus : string; quote_CollectedAt : Time;
  quote_Metadata : string }.

Definition quote_Source (q : Quote) : MarketDataSource :=
  mkMarketDataSource (quote_InstrumentID q) (quote_ProviderInstrumentID q).

Definition validateOptionalOHLC (open high low : option Decimal) : result unit :=
  failif opt_test (fun h => opt_test (fun l => dec_LessThan h l) low) high,
         invalidData "quote 24h high cannot be below low" ;;
  failif opt_test (fun o => opt_test (fun h => dec_GreaterThan o h) high) open,
         invalidData "quote 24h open cannot exceed high" ;;
  failif opt_test (fun o => opt_test (fun l => dec_LessThan o l) low) open,
         invalidData "quote 24h open cannot be below low" ;;
  Ok tt.

(** The loop over the named optional fields: the first negative one errs. *)
Fixpoint check_not_negative (items : list (option Decimal * string)) : result unit :=
  match items with
  | [] => Ok tt
  | (value, name) :: rest =>
      failif opt_test dec_IsNegative value, invalidData ("quote " ++ name ++ " cannot be negative") ;;
      check_not_negative rest
  end.

Definition quote_Validate (q : Quote) : result unit :=
  source_Validate (quote_Source q) ;;;
  failif IsZero (quote_MarketTime q) || IsZero (quote_CollectedAt q),
         invalidData "quote market and collection times are required" ;;
  failif dec_IsNegative (quote_LastPrice q), invalidData "quote last price cannot be negative" ;;
  check_not_negative
    [(quote_BidPrice q, "bid price"); (quote_BidSize q, "bid size");
     (quote_AskPrice q, "ask price"); (quote_AskSize q, "ask size");
     (quote_Open24H q, "24h open"); (quote_High24H q, "24h high");
     (quote_Low24H q, "24h low"); (quote_BaseVolume24H q, "24h base volume");
     (quote_QuoteVolume24H q, "24h quote volume")]%string ;;;
  failif opt_test (fun b => opt_test (fun a => dec_GreaterThan b a) (quote_AskPrice q)) (quote_BidPrice q),
         invalidData "quote bid price cannot exceed ask price" ;;
  validateOptionalOHLC (quote_Open24H q) (quote_High24H q) (quote_Low24H q) ;;;
  ParseQualityStatus (quote_QualityStatus q) ;;;
  failif negb (isJSONObject (quote_Metadata q)), invalidData "quote metadata must be a JSON object" ;;
  Ok tt.

Definition quote_with_metadata (q : Quote) (metadata : string) : Quote :=
  {| quote_InstrumentID := quote_InstrumentID q; quote_ProviderInstrumentID := quote_ProviderInstrumentID q;
     quote_MarketTime := quote_MarketTime q; quote_LastPrice := quote_LastPrice q;
     quote_BidPrice := quote_BidPrice q; quote_BidSize := quote_BidSize q;
     quote_AskPrice := quote_AskPrice q; quote_AskSize := quote_AskSize q;
     quote_Open24H := quote_Open24H q; quote_High24H := quote_High24H q; quote_Low24H := quote_Low24H q;
     quote_BaseVolume24H := quote_BaseVolume24H q; quote_QuoteVolume24H := quote_QuoteVolume24H q;
     quote_QualityStatus := quote_QualityStatus q; quote_CollectedAt := quote_CollectedAt q;
     quote_Metadata := metadata |}.

Definition NewQuote (q : Quote) : result Quote :=
  let q := quote_with_metadata q (normalizedJSON (quote_Metadata q)) in
  quote_Validate q ;;; Ok q.

(** ** Bars *)
Record Bar := mkBar {
  bar_InstrumentID : ID; bar_ProviderInstrumentID : ID; bar_Interval : string; bar_OpenTime : Time;
  bar_Revision : Z; bar_CloseTime : Time; bar_OpenPrice : Decimal; bar_HighPrice : Decimal;
  bar_LowPrice : Decimal; bar_ClosePrice : Decimal; bar_BaseVolume : option Decimal;
  bar_QuoteVolume : option Decimal; bar_TradeCount : option Z; bar_IsClosed : bool;
  bar_IsCurrent : bool; bar_QualityStatus : string; bar_ProviderUpdatedAt : option Time;
  bar_CollectedAt : Time; bar_RawHash : string; bar_Metadata : string }.

Definition bar_Source (b : Bar) : MarketDataSource :=
  mkMarketDataSource (bar_InstrumentID b) (bar_ProviderInstrumentID b).

Definition validateOHLC (open high low close : Decimal) : result unit :=
  failif dec_IsNegative open || dec_IsNegative high || dec_IsNegative low || dec_IsNegative close,
         invalidData "bar prices cannot be negative" ;;
  failif dec_LessThan high low || dec_GreaterThan open high || dec_GreaterThan close high
         || dec_LessThan open low || dec_LessThan close low,
         invalidData "bar OHLC prices are inconsistent" ;;
  Ok tt.

Definition bar_Validate (b : Bar) : result unit :=
  source_Validate (bar_Source b) ;;;
  ParseBarInterval (bar_Interval b) ;;;
  failif IsZero (bar_OpenTime b) || IsZero (bar_CloseTime b) || IsZero (bar_CollectedAt b),
         invalidData "bar open, close and collection times are required" ;;
  failif negb (Before (bar_OpenTime b) (bar_CloseTime b)), invalidData "bar close time must be after open time" ;;
  failif bar_Revision b <? 0, invalidData "bar revision cannot be negative" ;;
  validateOHLC (bar_OpenPrice b) (bar_HighPrice b) (bar_LowPrice b) (bar_ClosePrice b) ;;;
  failif opt_test dec_IsNegative (bar_BaseVolume b), invalidData "bar base volume cannot be negative" ;;
  failif opt_test dec_IsNegative (bar_QuoteVolume b), invalidData "bar quote volume cannot be negative" ;;
  failif opt_test (fun n => n <? 0) (bar_TradeCount b), invalidData "bar trade count cannot be negative" ;;
  failif bar_IsClosed b && Before (bar_CollectedAt b) (bar_CloseTime b),
         invalidData "closed bar cannot be collected before close time" ;;
  failif opt_test IsZero (bar_ProviderUpdatedAt b), invalidData "bar provider update time cannot be zero" ;;
  ParseQualityStatus (bar_QualityStatus b) ;;;
  failif 64 <? RuneCountInString (bar_RawHash b), invalidData "bar raw hash exceeds its maximum length" ;;
  failif negb (isJSONObject (bar_Metadata b)), invalidData "bar metadata must be a JSON object" ;;
  Ok tt.

Definition bar_with_storage (b : Bar) (revision : Z) (current : bool) (metadata : string) : Bar :=
  {| bar_InstrumentID := bar_InstrumentID b; bar_ProviderInstrumentID := bar_ProviderInstrumentID b;
     bar_Interval := bar_Interval b; bar_OpenTime := bar_OpenTime b; bar_Revision := revision;
     bar_CloseTime := bar_CloseTime b; bar_OpenPrice := bar_OpenPrice b; bar_HighPrice := bar_HighPrice b;
     bar_LowPrice := bar_LowPrice b; bar_ClosePrice := bar_ClosePrice b; bar_BaseVolume := bar_BaseVolume b;
     bar_QuoteVolume := bar_QuoteVolume b; bar_TradeCount := bar_TradeCount b; bar_IsClosed := bar_IsClosed b;
     bar_IsCurrent := current; bar_QualityStatus := bar_QualityStatus b;
     bar_ProviderUpdatedAt := bar_ProviderUpdatedAt b; bar_CollectedAt := bar_CollectedAt b;
     bar_RawHash := bar_RawHash b; bar_Metadata := metadata |}.

Definition NewBar (b : Bar) : result Bar :=
  let b := bar_with_storage b (bar_Revision b) (bar_IsCurrent b) (normalizedJSON (bar_Metadata b)) in
  bar_Validate b ;;; Ok b.

Definition NewStoredBar (b : Bar) : result Bar :=
  b <- NewBar b ;;
  failif bar_Revision b <=? 0, invalidData "stored bar revision must be positive" ;;
  Ok b.

Record MarketBarFilter := mkMarketBarFilter {
  filter_InstrumentID : ID; filter_ProviderInstrumentID : ID; filter_Interval : string;
  filter_Range : TimeRange; filter_BeforeOpenTime : option Time; filter_Limit : Z }.

Definition barFilter_Validate (f : MarketBarFilter) : result unit :=
  source_Validate (mkMarketDataSource (filter_InstrumentID f) (filter_ProviderInstrumentID f)) ;;;
  ParseBarInterval (filter_Interval f) ;;;
  range_Validate (filter_Range f) ;;;
  failif opt_test IsZero (filter_BeforeOpenTime f), invalidData "market bar cursor cannot be zero" ;;
  Ok tt.

Record MarketBarWriteResult := mkMarketBarWriteResult { mbw_Applied : bool; mbw_Revision : Z }.

(** ** What a validated bar guarantees *)
Definition ohlc_consistent `{!DecimalLaws D} (b : Bar) : Prop :=
  (0 <= dec_val (bar_LowPrice b) /\
   dec_val (bar_LowPrice b) <= dec_val (bar_OpenPrice b) <= dec_val (bar_HighPrice b) /\
   dec_val (bar_LowPrice b) <= dec_val (bar_ClosePrice b) <= dec_val (bar_HighPrice b))%Q.

Lemma validateOHLC_spec `{!DecimalLaws D} o h l c :
  validateOHLC o h l c = Ok tt <->
  (0 <= dec_val l /\ dec_val l <= dec_val o <= dec_val h /\ dec_val l <= dec_val c <= dec_val h)%Q.
Proof.
  unfold validateOHLC. split.
  - intros Hv. inv_ok. bool_hyps. destruct_ands.
    rewrite ?dec_not_negative, ?dec_not_greater, ?dec_not_less in *. done.
  - intros (Hl & [Hlo Hoh] & [Hlc Hch]).
    assert (forall x, (dec_val l <= x)%Q -> (0 <= x)%Q) as Hp by (intros; by eapply Qle_trans).
    assert (dec_val l <= dec_val h)%Q as Hlh by (by eapply Qle_trans).
    rewrite (proj2 (dec_not_negative o)), (proj2 (dec_not_negative h)), (proj2 (dec_not_negative l)),
      (proj2 (dec_not_negative c)) by auto.
    rewrite (proj2 (dec_not_less h l)), (proj2 (dec_not_greater o h)), (proj2 (dec_not_greater c h)),
      (proj2 (dec_not_less o l)), (proj2 (dec_not_less c l)) by auto. done.
Qed.
End MarketData.

(** ** Ranges *)
Lemma range_Validate_ok r : range_Validate r = Ok tt <->
  range_Start r <> Some 0 /\ range_End r <> Some 0 /\
  (forall s e, range_Start r = Some s -> range_End r = Some e -> s < e).
Proof.
  destruct r as [[s|] [e|]]; unfold range_Validate; simpl; unfold_time; case_Z; simpl; split; intros;
    destruct_ands; spec_some; try done; try lia; repeat split; intros; simplify_eq; try congruence; try lia.
Qed.

Lemma Contains_spec r t : range_Validate r = Ok tt ->
  Contains r t = true <->
  t <> 0 /\ (forall s, range_Start r = Some s -> s <= t) /\ (forall e, range_End r = Some e -> t < e).
Proof.
  intros Hv. unfold Contains. rewrite Hv. simpl. rewrite orb_false_r.
  destruct r as [[s|] [e|]]; simpl; unfold_time; case_Z; simpl; split; intros;
    destruct_ands; spec_some; try done; try lia; repeat split; intros; simplify_eq; try done; try lia.
Qed.
