(* ===== verification/Calendar.v ===== *)
(** * internal/markettime/calendar.go: the NYSE trading calendar *)
From S2P Require Import Prelude Errors GoStrings GoTime External.

Definition invalidCalendar (message : string) : error := Wrap message (Sentinel ErrInvalidData).

(** ** Civil market dates *)
Record MarketDate := mkMarketDate { date_Year : Z; date_Month : Z; date_Day : Z }.

#[export] Instance MarketDate_eq_dec : EqDecision MarketDate.
Proof. solve_decision. Defined.
#[export] Instance MarketDate_countable : Countable MarketDate.
Proof.
  refine (inj_countable' (fun d => (date_Year d, date_Month d, date_Day d))
            (fun p => mkMarketDate p.1.1 p.1.2 p.2) _).
  by intros [].
Defined.

Definition date_of_civil (c : Z * Z * Z) : MarketDate := let '(y, m, d) := c in mkMarketDate y m d.

Definition date_Validate (date : MarketDate) : result unit :=
  let '(mkMarketDate y m d) := date in
  failif (y <? 1) || (m <? 1) || (12 <? m) || (d <? 1) || (31 <? d), invalidCalendar "market date is invalid" ;;
  let '(vy, vm, vd) := CivilDate_UTC (Date_UTC y m d 0 0) in
  failif negb (vy =? y) || negb (vm =? m) || negb (vd =? d), invalidCalendar "market date is invalid" ;;
  Ok tt.

#[global] Arguments date_Validate : simpl never.

Definition NewMarketDate (y m d : Z) : result MarketDate :=
  let date := mkMarketDate y m d in
  date_Validate date ;;; Ok date.

Definition DateInLocation (value : Time) (location : option Location) : result MarketDate :=
  match location with
  | Some l =>
      failif IsZero value, invalidCalendar "time and location are required" ;;
      let '(y, m, d) := CivilDate_In value l in NewMarketDate y m d
  | None => Err (invalidCalendar "time and location are required")
  end.

Definition UTCDate (value : Time) : result MarketDate :=
  failif IsZero value, invalidCalendar "time is required" ;;
  let '(y, m, d) := CivilDate_UTC value in NewMarketDate y m d.

(** [time.Date(date, 12h, UTC).AddDate(0, 0, days)]: the day of the month is
    advanced and normalised again. *)
Definition addDays (date : MarketDate) (days : Z) : MarketDate :=
  let '(y, m, d) := CivilDate_UTC (Date_UTC (date_Year date) (date_Month date) (date_Day date) 12 0) in
  date_of_civil (CivilDate_UTC (Date_UTC y m (d + days) 12 0)).

(** ** Sessions *)
Record MarketSession := mkMarketSession {
  session_Date : MarketDate; session_Open : Time; session_Close : Time }.
Definition zero_session : MarketSession := mkMarketSession (mkMarketDate 0 0 0) 0 0.

Definition session_Validate (s : MarketSession) : result unit :=
  date_Validate (session_Date s) ;;;
  failif IsZero (session_Open s) || IsZero (session_Close s) || negb (Before (session_Open s) (session_Close s)),
         invalidCalendar "market session bounds are invalid" ;;
  Ok tt.

(** The port the schedulers use. [SessionForDate]'s [exists] result is the
    option; [SessionAt] returns the session together with its [active] flag. *)
Record TradingCalendar := mkTradingCalendar {
  cal_Location : option Location;
  cal_SessionForDate : MarketDate -> result (option MarketSession);
  cal_SessionAt : Time -> result (MarketSession * bool);
  cal_NextSession : Time -> result MarketSession;
  cal_PreviousSession : Time -> result MarketSession }.

(** ** The NYSE calendar *)
Record SessionOverride := mkSessionOverride {
  ov_Date : MarketDate; ov_Closed : bool; ov_CloseHour : Z; ov_CloseMinute : Z }.
Record sessionRule := mkSessionRule { rule_closed : bool; rule_closeHour : Z; rule_closeMinute : Z }.

(** A nil receiver behaves as one whose location is nil. *)
Record NYSECalendar := mkNYSECalendar {
  nyse_location : option Location; nyse_special : gmap MarketDate sessionRule }.

Definition firstNYSEYear : Z := 2026.
Definition lastNYSEYear : Z := 2028.

Definition closed_dates : list MarketDate := map date_of_civil
  [(2026, 1, 1); (2026, 1, 19); (2026, 2, 16); (2026, 4, 3); (2026, 5, 25); (2026, 6, 19); (2026, 7, 3);
   (2026, 9, 7); (2026, 11, 26); (2026, 12, 25);
   (2027, 1, 1); (2027, 1, 18); (2027, 2, 15); (2027, 3, 26); (2027, 5, 31); (2027, 6, 18); (2027, 7, 5);
   (2027, 9, 6); (2027, 11, 25); (2027, 12, 24);
   (2028, 1, 17); (2028, 2, 21); (2028, 4, 14); (2028, 5, 29); (2028, 6, 19); (2028, 7, 4); (2028, 9, 4);
   (2028, 11, 23); (2028, 12, 25)].
Definition early_dates : list MarketDate := map date_of_civil
  [(2026, 11, 27); (2026, 12, 24); (2027, 11, 26); (2028, 7, 3); (2028, 11, 24)].

Definition officialNYSERules : gmap MarketDate sessionRule :=
  let rules := fold_left (fun rules date => <[date := mkSessionRule true 0 0]> rules) closed_dates ∅ in
  fold_left (fun rules date => <[date := mkSessionRule false 13 0]> rules) early_dates rules.

Definition applyOverride (c : NYSECalendar) (o : SessionOverride) : result NYSECalendar :=
  wrap "apply NYSE override" (date_Validate (ov_Date o)) ;;;
  failif (date_Year (ov_Date o) <? firstNYSEYear) || (lastNYSEYear <? date_Year (ov_Date o)),
         Wrap "apply NYSE override" (Sentinel ErrCalendarOutOfRange) ;;
  if ov_Closed o then
    failif negb (ov_CloseHour o =? 0) || negb (ov_CloseMinute o =? 0),
           invalidCalendar "closed NYSE override cannot also define a close time" ;;
    Ok (mkNYSECalendar (nyse_location c) (<[ov_Date o := mkSessionRule true 0 0]> (nyse_special c)))
  else
    failif (ov_CloseHour o <? 9) || (16 <? ov_CloseHour o) || (ov_CloseMinute o <? 0) || (59 <? ov_CloseMinute o)
           || ((ov_CloseHour o =? 9) && (ov_CloseMinute o <=? 30))
           || ((ov_CloseHour o =? 16) && negb (ov_CloseMinute o =? 0)),
           invalidCalendar "NYSE override close must be after 09:30 and no later than 16:00" ;;
    Ok (mkNYSECalendar (nyse_location c)
          (<[ov_Date o := mkSessionRule false (ov_CloseHour o) (ov_CloseMinute o)]> (nyse_special c))).

Fixpoint apply_overrides (c : NYSECalendar) (os : list SessionOverride) : result NYSECalendar :=
  match os with [] => Ok c | o :: os' => c' <- applyOverride c o ;; apply_overrides c' os' end.

Definition NewNYSECalendar `{TzLib} (overrides : list SessionOverride) : result NYSECalendar :=
  match load_location "America/New_York" with
  | None => Err (Plain "load NYSE timezone")
  | Some l => apply_overrides (mkNYSECalendar (Some l) officialNYSERules) overrides
  end.

Definition SessionForDate (c : NYSECalendar) (date : MarketDate) : result (option MarketSession) :=
  match nyse_location c with
  | None => Err (Plain "NYSE calendar is not initialized")
  | Some loc =>
      date_Validate date ;;;
      let '(mkMarketDate y m d) := date in
      failif (y <? firstNYSEYear) || (lastNYSEYear <? y), Wrap "NYSE date" (Sentinel ErrCalendarOutOfRange) ;;
      let weekday := Weekday_In (Date_In y m d 12 0 loc) loc in
      if (weekday =? 6) || (weekday =? 0) then Ok None
      else
        let rule := nyse_special c !! date in
        if opt_test rule_closed rule then Ok None
        else
          let '(closeHour, closeMinute) :=
            match rule with Some r => (rule_closeHour r, rule_closeMinute r) | None => (16, 0) end in
          let session := mkMarketSession date (Date_In y m d 9 30 loc) (Date_In y m d closeHour closeMinute loc) in
          session_Validate session ;;; Ok (Some session)
  end.

Definition SessionAt (c : NYSECalendar) (value : Time) : result (MarketSession * bool) :=
  failif IsZero value, invalidCalendar "session instant is required" ;;
  date <- DateInLocation value (nyse_location c) ;;
  session <- SessionForDate c date ;;
  match session with
  | None => Ok (zero_session, false)
  | Some s => Ok (s, negb (Before value (session_Open s)) && Before value (session_Close s))
  end.

(** The date loops. A date outside the supported years ends them with an
    error, so [calendar_fuel] iterations always suffice. *)
Definition calendar_fuel : nat := 1100.
Lemma calendar_fuel_value : Z.of_nat calendar_fuel = 1100.
Proof. reflexivity. Qed.
#[global] Opaque calendar_fuel.

Fixpoint next_session_loop (fuel : nat) (c : NYSECalendar) (value : Time) (date : MarketDate) : result MarketSession :=
  match fuel with
  | O => Diverge
  | S fuel =>
      session <- SessionForDate c date ;;
      match session with
      | Some s => if After (session_Open s) value then Ok s
                  else next_session_loop fuel c value (addDays date 1)
      | None => next_session_loop fuel c value (addDays date 1)
      end
  end.
Definition NextSession (c : NYSECalendar) (value : Time) : result MarketSession :=
  failif IsZero value, invalidCalendar "next-session instant is required" ;;
  date <- DateInLocation value (nyse_location c) ;;
  next_session_loop calendar_fuel c value date.

Fixpoint previous_session_loop (fuel : nat) (c : NYSECalendar) (value : Time) (date : MarketDate) : result MarketSession :=
  match fuel with
  | O => Diverge
  | S fuel =>
      session <- SessionForDate c date ;;
      match session with
      | Some s => if negb (After (session_Close s) value) then Ok s
                  else previous_session_loop fuel c value (addDays date (-1))
      | None => previous_session_loop fuel c value (addDays date (-1))
      end
  end.
Definition PreviousSession (c : NYSECalendar) (value : Time) : result MarketSession :=
  failif IsZero value, invalidCalendar "previous-session instant is required" ;;
  date <- DateInLocation value (nyse_location c) ;;
  previous_session_loop calendar_fuel c value date.

Definition nyse_TradingCalendar (c : NYSECalendar) : TradingCalendar := {|
  cal_Location := nyse_location c;
  cal_SessionForDate := SessionForDate c;
  cal_SessionAt := SessionAt c;
  cal_NextSession := NextSession c;
  cal_PreviousSession := PreviousSession c |}.

#[global] Arguments DateInLocation : simpl never.
#[global] Arguments SessionForDate : simpl never.
#[global] Arguments SessionAt : simpl never.
#[global] Arguments NextSession : simpl never.
#[global] Arguments PreviousSession : simpl never.
#[global] Arguments addDays : simpl never.

(** ** Day numbers *)
Definition day_number (date : MarketDate) : Z := days_from_civil (date_Year date) (date_Month date) (date_Day date).
Definition first_day : Z := days_from_civil firstNYSEYear 1 1.
Definition last_day : Z := days_from_civil lastNYSEYear 12 31.

Lemma CivilDate_UTC_Date_UTC y m d h mi : 1 <= m <= 12 -> 0 <= h * 3600 + mi * 60 < seconds_per_day ->
  CivilDate_UTC (Date_UTC y m d h mi) = civil_from_days (days_from_civil y m d).
Proof.
  intros Hm Ht. unfold CivilDate_UTC, Date_UTC, date_seconds. rewrite norm_month_id by done.
  unfold Second, seconds_per_day in *. f_equal.
  rewrite Z.div_mul by lia. rewrite <- Z.add_assoc, Z.div_add_l by lia. rewrite Z.div_small by lia. lia.
Qed.

Lemma date_Validate_ok date : date_Validate date = Ok tt ->
  1 <= date_Year date /\ 1 <= date_Month date <= 12 /\ 1 <= date_Day date <= 31 /\
  date_of_civil (civil_from_days (day_number date)) = date.
Proof.
  destruct date as [y m d]. unfold date_Validate, day_number. simpl.
  destruct ((y <? 1) || (m <? 1) || (12 <? m) || (d <? 1) || (31 <? d)) eqn:G; [discriminate |].
  bool_hyps. destruct_ands. rewrite CivilDate_UTC_Date_UTC by (unfold seconds_per_day; lia).
  destruct (civil_from_days _) as [[vy vm] vd] eqn:E. intros Hv. inv_ok. bsimp. subst. simpl.
  repeat split; lia.
Qed.

Lemma civil_date_Validate z : 0 <= z -> date_Validate (date_of_civil (civil_from_days z)) = Ok tt.
Proof.
  intros Hz. pose proof (civil_from_days_range z) as Hr. pose proof (days_from_civil_from_days z) as Hd.
  destruct (civil_from_days z) as [[y m] d] eqn:E. simpl. destruct Hr as (Hm & Hdd & Hy).
  specialize (Hy Hz). unfold date_Validate. rewrite CivilDate_UTC_Date_UTC by (unfold seconds_per_day; lia). rewrite Hd, E.
  rewrite !Z.eqb_refl. simpl.
  destruct (_ || _) eqn:G; [| done]. exfalso. bsimp. lia.
Qed.

Lemma addDays_civil date n : date_Validate date = Ok tt ->
  addDays date n = date_of_civil (civil_from_days (day_number date + n)).
Proof.
  intros Hv. pose proof (date_Validate_ok date Hv) as (Hy & Hm & Hd & Hc).
  unfold addDays. rewrite CivilDate_UTC_Date_UTC by (unfold seconds_per_day; lia).
  fold (day_number date). pose proof (civil_from_days_range (day_number date)) as Hr.
  pose proof (days_from_civil_from_days (day_number date)) as Hn.
  destruct (civil_from_days (day_number date)) as [[y m] d] eqn:E.
  rewrite CivilDate_UTC_Date_UTC by (unfold seconds_per_day; lia). do 2 f_equal.
  rewrite days_from_civil_add_day. lia.
Qed.

Lemma day_number_civil z : day_number (date_of_civil (civil_from_days z)) = z.
Proof.
  pose proof (days_from_civil_from_days z). destruct (civil_from_days z) as [[y m] d]. done.
Qed.

Lemma addDays_day date n : date_Validate date = Ok tt -> day_number (addDays date n) = day_number date + n.
Proof. intros Hv. rewrite addDays_civil by done. apply day_number_civil. Qed.

Lemma addDays_valid date n : date_Validate date = Ok tt -> 0 <= day_number date + n ->
  date_Validate (addDays date n) = Ok tt.
Proof. intros Hv Hn. rewrite addDays_civil by done. by apply civil_date_Validate. Qed.

Lemma day_number_inj a b : date_Validate a = Ok tt -> date_Validate b = Ok tt ->
  day_number a = day_number b -> a = b.
Proof.
  intros Ha Hb E. apply date_Validate_ok in Ha as (_ & _ & _ & <-), Hb as (_ & _ & _ & <-). by rewrite E.
Qed.

Lemma addDays_0 date : date_Validate date = Ok tt -> addDays date 0 = date.
Proof.
  intros Hv. rewrite addDays_civil, Z.add_0_r by exact Hv. by apply date_Validate_ok.
Qed.

Lemma addDays_addDays date a b : date_Validate date = Ok tt -> 0 <= day_number date + a ->
  addDays (addDays date a) b = addDays date (a + b).
Proof.
  intros Hv Ha. rewrite (addDays_civil (addDays date a)) by (by apply addDays_valid).
  rewrite addDays_day, (addDays_civil date) by exact Hv. do 2 f_equal. lia.
Qed.

#[local] Transparent days_from_civil.
Lemma supported_day date : date_Validate date = Ok tt ->
  firstNYSEYear <= date_Year date <= lastNYSEYear -> first_day <= day_number date <= last_day.
Proof.
  intros (_ & Hm & Hd & _)%date_Validate_ok. destruct date as [y m d]. simpl in *.
  unfold first_day, last_day, day_number, firstNYSEYear, lastNYSEYear. intros Hr. simpl.
  assert (y = 2026 \/ y = 2027 \/ y = 2028) as Hy by lia. clear Hr.
  destruct Hy as [-> | [-> | ->]]; unfold days_from_civil;
    destruct (Z.leb_spec m 2); simpl; Z.div_mod_to_equations; lia.
Qed.
#[local] Opaque days_from_civil.
