(* ===== verification/CalendarFacts.v ===== *)
(** * Correctness of the trading calendar

    The interface [CalendarLaws] the schedulers are proved against, its
    instance for the NYSE calendar, and the calendar's own properties: the
    session loops terminate, return the first (last) session of the supported
    years, and sessions have the exchange's regular hours. *)
From S2P Require Import Prelude Errors GoStrings GoTime External Calendar.

Lemma session_Validate_ok s : session_Validate s = Ok tt ->
  date_Validate (session_Date s) = Ok tt /\ session_Open s <> 0 /\ session_Close s <> 0 /\
  session_Open s < session_Close s.
Proof. unfold session_Validate. intros Hv. inv_ok. unfold_time. bsimp. auto. Qed.

Lemma first_day_pos : 0 < first_day.
Proof. reflexivity. Qed.

Lemma SessionForDate_ok c date r : SessionForDate c date = Ok r ->
  date_Validate date = Ok tt /\ first_day <= day_number date <= last_day /\
  forall s, r = Some s -> session_Date s = date /\ session_Validate s = Ok tt.
Proof.
  unfold SessionForDate. destruct (nyse_location c) as [loc|]; [| discriminate].
  destruct date as [y m d] eqn:Hd. intros H. inv_ok.
  assert (first_day <= day_number (mkMarketDate y m d) <= last_day) as Hr.
  { apply supported_day; [done |]. simpl. bsimp. lia. }
  split; [done |]. split; [exact Hr |]. intros s ->.
  cbv zeta in H. destruct (_ || _) in H; [inv_ok; discriminate |].
  destruct (opt_test _ _) in H; [inv_ok; discriminate |].
  destruct (match nyse_special c !! _ with Some _ => _ | None => _ end) as [ch cm].
  inv_ok. subst s. split; [reflexivity | assumption].
Qed.

Lemma date_Validate_no_diverge d : date_Validate d <> Diverge.
Proof. destruct d. unfold date_Validate. no_diverge. Qed.
#[export] Hint Resolve date_Validate_no_diverge : nodiv.

Lemma session_Validate_no_diverge s : session_Validate s <> Diverge.
Proof. unfold session_Validate. no_diverge. Qed.
#[export] Hint Resolve session_Validate_no_diverge : nodiv.

Lemma SessionForDate_no_diverge c date : SessionForDate c date <> Diverge.
Proof. unfold SessionForDate. destruct date. no_diverge. Qed.

Lemma DateInLocation_no_diverge t l : DateInLocation t l <> Diverge.
Proof. unfold DateInLocation, NewMarketDate. no_diverge. Qed.
#[export] Hint Resolve SessionForDate_no_diverge DateInLocation_no_diverge : nodiv.

(** ** The session loops *)
(** A date the calendar supports leaves at most [last_day - day + 1] further
    iterations; the one after them returns the range error. *)
Lemma next_loop_total fuel c value date :
  (1 <= fuel)%nat ->
  (date_Validate date = Ok tt -> first_day <= day_number date -> last_day - day_number date + 1 < Z.of_nat fuel) ->
  next_session_loop fuel c value date <> Diverge.
Proof.
  revert date. induction fuel as [|fuel IH]; intros date H1 Hf; [lia |]. simpl.
  destruct (SessionForDate c date) as [r|e|] eqn:E; simpl; [| discriminate | by apply SessionForDate_no_diverge in E].
  apply SessionForDate_ok in E as (Hv & Hr & _).
  specialize (Hf Hv ltac:(lia)).
  assert (next_session_loop fuel c value (addDays date 1) <> Diverge) as Hn.
  { apply IH; [lia |]. intros _ _. rewrite addDays_day by done. lia. }
  destruct r as [s|]; [| done]. case_if; [discriminate | done].
Qed.

Lemma previous_loop_total fuel c value date :
  (1 <= fuel)%nat ->
  (date_Validate date = Ok tt -> day_number date <= last_day -> day_number date - first_day + 1 < Z.of_nat fuel) ->
  previous_session_loop fuel c value date <> Diverge.
Proof.
  revert date. induction fuel as [|fuel IH]; intros date H1 Hf; [lia |]. simpl.
  destruct (SessionForDate c date) as [r|e|] eqn:E; simpl; [| discriminate | by apply SessionForDate_no_diverge in E].
  apply SessionForDate_ok in E as (Hv & Hr & _).
  specialize (Hf Hv ltac:(lia)).
  assert (previous_session_loop fuel c value (addDays date (-1)) <> Diverge) as Hn.
  { apply IH; [lia |]. intros _ _. rewrite addDays_day by done. lia. }
  destruct r as [s|]; [| done]. case_if; [discriminate | done].
Qed.

Lemma supported_span : last_day - first_day + 1 = 1096.
Proof. reflexivity. Qed.

(** What the forward loop returns: the first date from [date] on whose session
    opens after [value]. *)
Definition first_session_after (c : NYSECalendar) (value : Time) (date : MarketDate) (s : MarketSession) : Prop :=
  exists k, 0 <= k /\ session_Date s = addDays date k /\
    SessionForDate c (session_Date s) = Ok (Some s) /\ value < session_Open s /\
    forall j, 0 <= j < k -> exists r, SessionForDate c (addDays date j) = Ok r /\
      forall s', r = Some s' -> session_Open s' <= value.

Lemma first_session_step c value date r s :
  SessionForDate c date = Ok r -> (forall s', r = Some s' -> session_Open s' <= value) ->
  first_session_after c value (addDays date 1) s -> first_session_after c value date s.
Proof.
  intros E Hle (k & Hk & Hday & Hsess & Hlt & Hall).
  pose proof (SessionForDate_ok _ _ _ E) as (Hv & Hr & _). pose proof first_day_pos.
  rewrite addDays_addDays in Hday; [| exact Hv | lia].
  exists (k + 1). split; [lia |]. split; [replace (k + 1) with (1 + k) by lia; exact Hday |].
  split; [exact Hsess |]. split; [exact Hlt |]. intros j Hj.
  destruct (Z.eq_dec j 0) as [->|Hne]; [rewrite addDays_0 by exact Hv; eauto |].
  destruct (Hall (j - 1) ltac:(lia)) as (r' & Hr' & Hle'). exists r'. split; [| exact Hle'].
  rewrite addDays_addDays in Hr'; [| exact Hv | lia]. replace (1 + (j - 1)) with (j) in Hr' by lia. exact Hr'.
Qed.

Lemma next_loop_spec fuel c value date s :
  next_session_loop fuel c value date = Ok s -> first_session_after c value date s.
Proof.
  revert date. induction fuel as [|fuel IH]; intros date; [discriminate |]. simpl. intros H. inv_ok.
  pose proof (SessionForDate_ok _ _ _ R) as (Hv & _ & Hs).
  destruct r as [s0|]; [| apply (first_session_step _ _ _ _ _ R); [discriminate | auto]].
  unfold After in H. destruct (Z.ltb_spec value (session_Open s0)).
  - injection H as <-. destruct (Hs s0 eq_refl) as [Hd _]. exists 0. rewrite addDays_0, Hd by exact Hv.
    repeat split; [lia | exact R | done |]. intros j Hj. lia.
  - apply (first_session_step _ _ _ _ _ R); [intros ? [= <-]; done | auto].
Qed.

(** The backward loop, symmetrically. *)
Definition last_session_before (c : NYSECalendar) (value : Time) (date : MarketDate) (s : MarketSession) : Prop :=
  exists k, 0 <= k /\ session_Date s = addDays date (- k) /\
    SessionForDate c (session_Date s) = Ok (Some s) /\ session_Close s <= value /\
    forall j, 0 <= j < k -> exists r, SessionForDate c (addDays date (- j)) = Ok r /\
      forall s', r = Some s' -> value < session_Close s'.

Lemma last_session_step c value date r s :
  SessionForDate c date = Ok r -> (forall s', r = Some s' -> value < session_Close s') ->
  last_session_before c value (addDays date (-1)) s -> last_session_before c value date s.
Proof.
  intros E Hle (k & Hk & Hday & Hsess & Hlt & Hall).
  pose proof (SessionForDate_ok _ _ _ E) as (Hv & Hr & _). pose proof first_day_pos.
  rewrite addDays_addDays in Hday; [| exact Hv | lia].
  exists (k + 1). split; [lia |]. split; [replace (- (k + 1)) with (-1 + - k) by lia; exact Hday |].
  split; [exact Hsess |]. split; [exact Hlt |]. intros j Hj.
  destruct (Z.eq_dec j 0) as [->|Hne]; [rewrite addDays_0 by exact Hv; eauto |].
  destruct (Hall (j - 1) ltac:(lia)) as (r' & Hr' & Hle'). exists r'. split; [| exact Hle'].
  rewrite addDays_addDays in Hr'; [| exact Hv | lia]. replace (-1 + - (j - 1)) with (- j) in Hr' by lia. exact Hr'.
Qed.

Lemma previous_loop_spec fuel c value date s :
  previous_session_loop fuel c value date = Ok s -> last_session_before c value date s.
Proof.
  revert date. induction fuel as [|fuel IH]; intros date; [discriminate |]. simpl. intros H. inv_ok.
  pose proof (SessionForDate_ok _ _ _ R) as (Hv & _ & Hs).
  destruct r as [s0|]; [| apply (last_session_step _ _ _ _ _ R); [discriminate | auto]].
  unfold After in H. destruct (Z.ltb_spec value (session_Close s0)); simpl in H.
  - apply (last_session_step _ _ _ _ _ R); [intros ? [= <-]; done | auto].
  - injection H as <-. destruct (Hs s0 eq_refl) as [Hd _]. exists 0. simpl. rewrite addDays_0, Hd by exact Hv.
    repeat split; [lia | exact R | done |]. intros j Hj. lia.
Qed.

(** ** Totality of the operations *)
Lemma NextSession_no_diverge c t : NextSession c t <> Diverge.
Proof.
  unfold NextSession. case_if; [discriminate |].
  destruct (DateInLocation _ _) as [d| |] eqn:Ed; [| discriminate | by apply DateInLocation_no_diverge in Ed].
  apply next_loop_total; [pose proof calendar_fuel_value; lia |]. intros _ Hd.
  pose proof supported_span. pose proof calendar_fuel_value. lia.
Qed.

Lemma PreviousSession_no_diverge c t : PreviousSession c t <> Diverge.
Proof.
  unfold PreviousSession. case_if; [discriminate |].
  destruct (DateInLocation _ _) as [d| |] eqn:Ed; [| discriminate | by apply DateInLocation_no_diverge in Ed].
  apply previous_loop_total; [pose proof calendar_fuel_value; lia |]. intros _ Hd.
  pose proof supported_span. pose proof calendar_fuel_value. lia.
Qed.

Lemma SessionAt_no_diverge c t : SessionAt c t <> Diverge.
Proof. unfold SessionAt. no_diverge. Qed.

Lemma SessionAt_ok c t s : SessionAt c t = Ok (s, true) ->
  SessionForDate c (session_Date s) = Ok (Some s) /\ session_Open s <= t < session_Close s.
Proof.
  unfold SessionAt. intros H. inv_ok. destruct r0 as [s0|]; [| inv_ok; discriminate].
  injection H as -> Hb. destruct (SessionForDate_ok _ _ _ R0) as (_ & _ & Hs).
  destruct (Hs s eq_refl) as [-> _]. unfold_time. bsimp. split; [exact R0 | lia].
Qed.

Lemma NextSession_ok c t s : NextSession c t = Ok s ->
  SessionForDate c (session_Date s) = Ok (Some s) /\ t < session_Open s.
Proof. unfold NextSession. intros H. inv_ok. destruct (next_loop_spec _ _ _ _ _ H) as (k & ? & ? & ? & ? & _). auto. Qed.

Lemma PreviousSession_ok c t s : PreviousSession c t = Ok s ->
  SessionForDate c (session_Date s) = Ok (Some s) /\ session_Close s <= t.
Proof. unfold PreviousSession. intros H. inv_ok. destruct (previous_loop_spec _ _ _ _ _ H) as (k & ? & ? & ? & ? & _). auto. Qed.

(** ** The interface of a trading calendar

    What the schedulers rely on: the calendar has finitely many sessions, one
    per date of a bounded range, and its queries return sessions of it. *)
Class CalendarLaws (c : TradingCalendar) := {
  cal_sessions : list MarketSession;
  cal_first : Z;
  cal_sessions_count : (length cal_sessions <= 1096)%nat;
  law_date d r : cal_SessionForDate c d = Ok r ->
    date_Validate d = Ok tt /\ cal_first <= day_number d < cal_first + 1096;
  law_session d s : cal_SessionForDate c d = Ok (Some s) ->
    In s cal_sessions /\ session_Date s = d;
  law_valid s : In s cal_sessions -> session_Validate s = Ok tt;
  law_at t s : cal_SessionAt c t = Ok (s, true) ->
    In s cal_sessions /\ session_Open s <= t < session_Close s;
  law_next t s : cal_NextSession c t = Ok s -> In s cal_sessions /\ t < session_Open s;
  law_previous t s : cal_PreviousSession c t = Ok s -> In s cal_sessions /\ session_Close s <= t;
  law_date_nodiv d : cal_SessionForDate c d <> Diverge;
  law_at_nodiv t : cal_SessionAt c t <> Diverge;
  law_next_nodiv t : cal_NextSession c t <> Diverge;
  law_previous_nodiv t : cal_PreviousSession c t <> Diverge }.
#[export] Hint Resolve law_date_nodiv law_at_nodiv law_next_nodiv law_previous_nodiv : nodiv.

(** The sessions of the NYSE calendar: those of its 1096 dates. *)
Definition nyse_sessions (c : NYSECalendar) : list MarketSession :=
  flat_map (fun n => match SessionForDate c (date_of_civil (civil_from_days (first_day + Z.of_nat n))) with
                     | Ok (Some s) => [s] | _ => [] end) (List.seq 0 1096).

Lemma nyse_sessions_complete c d s : SessionForDate c d = Ok (Some s) -> In s (nyse_sessions c).
Proof.
  intros E. destruct (SessionForDate_ok _ _ _ E) as (Hv & Hr & _). pose proof supported_span.
  apply in_flat_map. exists (Z.to_nat (day_number d - first_day)). rewrite in_seq. split; [lia |].
  replace (first_day + Z.of_nat _) with (day_number d) by lia.
  destruct (date_Validate_ok _ Hv) as (_ & _ & _ & ->). rewrite E. left. reflexivity.
Qed.

Lemma nyse_sessions_sound c s : In s (nyse_sessions c) -> SessionForDate c (session_Date s) = Ok (Some s).
Proof.
  unfold nyse_sessions. rewrite in_flat_map. intros (n & _ & Hin).
  destruct (SessionForDate c _) as [[s0|]| |] eqn:E; try (destruct Hin; fail).
  destruct Hin as [<-|[]]. destruct (SessionForDate_ok _ _ _ E) as (_ & _ & Hs).
  destruct (Hs s0 eq_refl) as [-> _]. exact E.
Qed.

Lemma flat_map_length_le {A B} (f : A -> list B) l :
  (forall a, length (f a) <= 1)%nat -> (length (flat_map f l) <= length l)%nat.
Proof. intros Hf. induction l as [|a l IH]; simpl; [lia |]. rewrite length_app. specialize (Hf a). lia. Qed.

#[export] Instance nyse_calendar_laws c : CalendarLaws (nyse_TradingCalendar c).
Proof.
  refine {| cal_sessions := nyse_sessions c; cal_first := first_day |}; simpl.
  - etrans; [apply flat_map_length_le | rewrite length_seq; reflexivity].
    intros n. destruct (SessionForDate c _) as [[s|]| |]; simpl; lia.
  - intros d r E. destruct (SessionForDate_ok _ _ _ E) as (Hv & Hr & _). pose proof supported_span.
    split; [exact Hv | lia].
  - intros d s E. split; [by eapply nyse_sessions_complete |].
    destruct (SessionForDate_ok _ _ _ E) as (_ & _ & Hs). by apply (Hs s).
  - intros s E%nyse_sessions_sound. destruct (SessionForDate_ok _ _ _ E) as (_ & _ & Hs). by apply (Hs s).
  - intros t s (E & Ht)%SessionAt_ok. split; [by eapply nyse_sessions_complete | exact Ht].
  - intros t s (E & Ht)%NextSession_ok. split; [by eapply nyse_sessions_complete | exact Ht].
  - intros t s (E & Ht)%PreviousSession_ok. split; [by eapply nyse_sessions_complete | exact Ht].
  - apply SessionForDate_no_diverge.
  - apply SessionAt_no_diverge.
  - apply NextSession_no_diverge.
  - apply PreviousSession_no_diverge.
Defined.

(** ** Ranks for the schedulers' session loops *)
Section Ranks.
Context {c : TradingCalendar} `{L : !CalendarLaws c}.

(** Sessions opening before [t], and sessions closing after [t]. *)
Definition opens_before (t : Time) : nat := length (List.filter (fun s => session_Open s <? t) cal_sessions).
Definition closes_after (t : Time) : nat := length (List.filter (fun s => t <? session_Close s) cal_sessions).

Lemma filter_length_lt {A} (f g : A -> bool) l x :
  (forall y, f y = true -> g y = true) -> In x l -> g x = true -> f x = false ->
  (length (List.filter f l) < length (List.filter g l))%nat.
Proof.
  intros Hfg. induction l as [|y l IH]; [done |]. intros [->|Hin] Hg Hf; simpl.
  - rewrite Hf, Hg. simpl. enough (length (List.filter f l) <= length (List.filter g l))%nat by lia.
    clear IH. induction l as [|z l IH]; simpl; [lia |]. destruct (f z) eqn:Ez; [rewrite (Hfg _ Ez); simpl; lia |].
    destruct (g z); simpl; lia.
  - specialize (IH Hin Hg Hf). destruct (f y) eqn:Ey; [rewrite (Hfg _ Ey); simpl; lia |].
    destruct (g y); simpl; lia.
Qed.

Lemma opens_before_lt s t : In s cal_sessions -> session_Open s < t ->
  (opens_before (session_Open s) < opens_before t)%nat.
Proof. intros Hin Ht. apply (filter_length_lt _ _ _ s); [intros y; bsimp; lia | done | bsimp; lia | bsimp; lia]. Qed.
Lemma closes_after_lt s t : In s cal_sessions -> t < session_Close s ->
  (closes_after (session_Close s) < closes_after t)%nat.
Proof. intros Hin Ht. apply (filter_length_lt _ _ _ s); [intros y; bsimp; lia | done | bsimp; lia | bsimp; lia]. Qed.

Lemma opens_before_le t : (opens_before t <= 1096)%nat.
Proof. etrans; [apply filter_length_le | apply cal_sessions_count]. Qed.
Lemma closes_after_le t : (closes_after t <= 1096)%nat.
Proof. etrans; [apply filter_length_le | apply cal_sessions_count]. Qed.
End Ranks.

(** ** Ordered calendars

    The stronger interface of a calendar whose queries are exact: its sessions
    are pairwise disjoint, and a query misses none of them. *)
Class CalendarOrder (c : TradingCalendar) (L : CalendarLaws c) := {
  order_nodup : List.NoDup cal_sessions;
  order_disjoint s s' : In s cal_sessions -> In s' cal_sessions ->
    s = s' \/ session_Close s < session_Open s' \/ session_Close s' < session_Open s;
  order_today t d r s : DateInLocation t (cal_Location c) = Ok d -> cal_SessionForDate c d = Ok r ->
    In s cal_sessions ->
    r = Some s \/ (session_Close s <= t /\ forall s0, r = Some s0 -> session_Close s < session_Open s0) \/
    t < session_Open s;
  order_inactive t s s' : cal_SessionAt c t = Ok (s', false) -> In s cal_sessions ->
    session_Close s <= t \/ t < session_Open s;
  order_next t s s' : cal_NextSession c t = Ok s -> In s' cal_sessions -> t < session_Open s' ->
    s' = s \/ session_Close s < session_Open s';
  order_previous t s s' : cal_PreviousSession c t = Ok s -> In s' cal_sessions -> session_Close s' <= t ->
    s' = s \/ session_Close s' < session_Open s;
  order_at_total t s s' : In s cal_sessions -> In s' cal_sessions -> session_Open s <= t <= session_Close s' ->
    exists r, cal_SessionAt c t = Ok r;
  order_next_total t s s' : In s cal_sessions -> In s' cal_sessions -> session_Open s <= t < session_Open s' ->
    exists r, cal_NextSession c t = Ok r }.
