(* ===== verification/CalendarHours.v ===== *)
(** * The hours of the NYSE calendar

    What the zone database says about New York in the supported years
    ([NewYorkLaws]), and with it the exact sessions of the calendar: the
    weekdays that are not closed, 09:30 to 16:00 or to the early close, in
    order and disjoint, with [SessionAt], [NextSession] and [PreviousSession]
    characterised against them. *)
From S2P Require Import Prelude Errors GoStrings GoTime External Calendar CalendarFacts.

(** The Unix time of 00:00 UTC of a day number. *)
Definition unix_midnight (day : Z) : Z := day * seconds_per_day - unixToInternal.

(** New York is between four and five hours west of UTC, and a change of the
    clocks happens before 08:00 UTC, outside the trading day. *)
Class NewYorkLaws (l : Location) := {
  ny_offset : Z -> Z;
  ny_offset_range unix : -18000 <= offset_at l unix <= -14400;
  ny_offset_const day unix : first_day <= day <= last_day ->
    unix_midnight day + 28800 <= unix < unix_midnight day + 86400 -> offset_at l unix = ny_offset day }.

#[export] Instance new_york_laws : NewYorkLaws Concrete.new_york.
Proof.
  refine {| ny_offset := fun day => offset_at Concrete.new_york (unix_midnight day + 43200) |}.
  - intros u. unfold offset_at. simpl. repeat case_if; simpl; lia.
  - intros day u Hday Hu. unfold offset_at, unix_midnight, unixToInternal, seconds_per_day in *. simpl.
    change first_day with 739616 in Hday. change last_day with 740711 in Hday.
    repeat match goal with |- context [Z.ltb ?a ?b] => destruct (Z.ltb_spec a b) end; simpl; lia.
Defined.

(** The instant of a local wall-clock reading. *)
Definition local_instant (off day h mi : Z) : Time := (day * seconds_per_day + h * 3600 + mi * 60 - off) * Second.

Section Hours.
Context {l : Location} `{NY : !NewYorkLaws l}.

Lemma ny_offset_bounds day : first_day <= day <= last_day -> -18000 <= ny_offset day <= -14400.
Proof.
  intros Hd. rewrite <- (ny_offset_const day (unix_midnight day + 43200)) by lia. apply ny_offset_range.
Qed.

Lemma Date_In_local y m d h mi : let date := mkMarketDate y m d in
  date_Validate date = Ok tt -> first_day <= day_number date <= last_day ->
  8 <= h <= 16 -> 0 <= mi < 60 ->
  Date_In y m d h mi l = local_instant (ny_offset (day_number date)) (day_number date) h mi.
Proof.
  intros date Hv Hr Hh Hm. destruct (date_Validate_ok _ Hv) as (_ & Hmo & _). simpl in Hmo.
  unfold Date_In, date_seconds, local_instant. rewrite norm_month_id by done.
  change (days_from_civil y m d) with (day_number date).
  set (day := day_number date) in *. pose proof (ny_offset_const day) as Hc.
  pose proof (ny_offset_range (day * seconds_per_day + h * 3600 + mi * 60 - unixToInternal)) as Hoff.
  unfold offset_at in *. unfold unix_midnight, seconds_per_day, unixToInternal in *.
  pose proof (Hc (day * 86400 + h * 3600 + mi * 60 - 62135596800) Hr ltac:(lia)) as H1.
  destruct (loc_lookup l (day * 86400 + h * 3600 + mi * 60 - 62135596800)) as [[off start] stop]. simpl in *. subst off.
  destruct (Z.eqb_spec (ny_offset day) 0); [lia |].
  case_if; [| unfold Second; lia]. rewrite Hc by lia. unfold Second. lia.
Qed.

(** The local civil day of an instant between 08:00 and 24:00 UTC. *)
Lemma local_day day t : first_day <= day <= last_day ->
  day * seconds_per_day + 28800 <= t / Second < day * seconds_per_day + 86400 ->
  local_seconds t l / seconds_per_day = day.
Proof.
  intros Hr Ht. unfold local_seconds, Unix. pose proof (ny_offset_bounds day Hr).
  rewrite (ny_offset_const day) by (unfold unix_midnight; lia).
  unfold seconds_per_day in *. symmetry. apply Z.div_unique with (r := t / Second + ny_offset day - day * 86400); lia.
Qed.

Lemma local_instant_seconds off day h mi :
  local_instant off day h mi / Second = day * seconds_per_day + h * 3600 + mi * 60 - off.
Proof. apply Z.div_mul. discriminate. Qed.
End Hours.

(** ** The rules a calendar can hold *)
Definition rule_ok (r : sessionRule) : Prop :=
  rule_closed r = true \/
  (0 <= rule_closeHour r <= 16 /\ 0 <= rule_closeMinute r <= 59 /\
   570 < rule_closeHour r * 60 + rule_closeMinute r <= 960).
Definition rules_ok (c : NYSECalendar) : Prop := map_Forall (fun _ r => rule_ok r) (nyse_special c).

Lemma fold_insert_ok (r : sessionRule) ds (m : gmap MarketDate sessionRule) : rule_ok r -> map_Forall (fun _ r => rule_ok r) m ->
  map_Forall (fun _ r => rule_ok r) (fold_left (fun (m : gmap MarketDate sessionRule) d => <[d := r]> m) ds m).
Proof.
  intros Hr. revert m. induction ds as [|d ds IH]; intros m Hm; simpl; [exact Hm |].
  apply IH. apply map_Forall_insert_2; assumption.
Qed.

Lemma officialNYSERules_ok : map_Forall (fun _ r => rule_ok r) officialNYSERules.
Proof.
  unfold officialNYSERules. apply fold_insert_ok; [right; simpl; lia |].
  apply fold_insert_ok; [left; reflexivity | apply map_Forall_empty].
Qed.

Lemma applyOverride_ok c o c' : rules_ok c -> applyOverride c o = Ok c' ->
  rules_ok c' /\ nyse_location c' = nyse_location c.
Proof.
  unfold applyOverride, rules_ok. intros Hc H. inv_ok. destruct (ov_Closed o); inv_ok.
  - split; [| reflexivity]. apply map_Forall_insert_2; [left; reflexivity | exact Hc].
  - split; [| reflexivity]. apply map_Forall_insert_2; [right; simpl; bsimp; lia | exact Hc].
Qed.

Lemma NewNYSECalendar_ok `{TzLib} os c : NewNYSECalendar os = Ok c ->
  rules_ok c /\ nyse_location c = load_location "America/New_York".
Proof.
  unfold NewNYSECalendar. destruct (load_location _) as [l|]; [| discriminate].
  assert (forall c0, rules_ok c0 -> apply_overrides c0 os = Ok c ->
    rules_ok c /\ nyse_location c = nyse_location c0) as Hos.
  { induction os as [|o os IH]; simpl; intros c0 H0 E; inv_ok; [done |].
    destruct (applyOverride_ok _ _ _ H0 R) as [H1 <-]. apply IH; assumption. }
  intros E. destruct (Hos (mkNYSECalendar (Some l) officialNYSERules) officialNYSERules_ok E) as [Hr Hl].
  split; [exact Hr | exact Hl].
Qed.

#[local] Transparent days_from_civil.
Lemma supported_year date : date_Validate date = Ok tt -> first_day <= day_number date <= last_day ->
  firstNYSEYear <= date_Year date <= lastNYSEYear.
Proof.
  intros (_ & Hm & Hd & _)%date_Validate_ok Hr. destruct date as [y m d]. simpl in *.
  change first_day with 739616 in Hr. change last_day with 740711 in Hr.
  unfold day_number, firstNYSEYear, lastNYSEYear, days_from_civil in *. simpl in Hr.
  revert Hr. destruct (Z.leb_spec m 2); intros Hr; Z.div_mod_to_equations; lia.
Qed.
#[local] Opaque days_from_civil.

(** ** The rules of a date, from the holidays of the exchange *)
(** The weekday of a day number, Sunday being 0. *)
Definition weekday (day : Z) : Z := (day + 1) mod 7.
(** A holiday on a fixed date: kept on the Friday before a Saturday, on the
    Monday after a Sunday. *)
Definition observed_day (y m d : Z) : Z :=
  let day := days_from_civil y m d in
  if weekday day =? 6 then day - 1 else if weekday day =? 0 then day + 1 else day.
(** The [n]th such weekday of a month, and the last one of a month of 31 days. *)
Definition nth_weekday (n wd y m : Z) : Z :=
  let first := days_from_civil y m 1 in first + (wd - weekday first) mod 7 + 7 * (n - 1).
Definition last_weekday (wd y m : Z) : Z :=
  let last := days_from_civil y m 31 in last - (weekday last - wd) mod 7.
(** Easter Sunday, by the Gregorian computus. *)
Definition easter (y : Z) : Z :=
  let a := y mod 19 in let b := y / 100 in let c := y mod 100 in
  let h := (19 * a + b - b / 4 - (b - (b + 8) / 25 + 1) / 3 + 15) mod 30 in
  let l := (32 + 2 * (b mod 4) + 2 * (c / 4) - h - c mod 4) mod 7 in
  let n := h + l - 7 * ((a + 11 * h + 22 * l) / 451) + 114 in
  days_from_civil y (n / 31) (n mod 31 + 1).
Definition thanksgiving (y : Z) : Z := nth_weekday 4 4 y 11.

(** New Year's Day (which is not kept on a Friday of the year before), Martin
    Luther King Jr. Day, Washington's Birthday, Good Friday, Memorial Day,
    Juneteenth, Independence Day, Labor Day, Thanksgiving and Christmas. *)
Definition holidays (y : Z) : list Z :=
  (if weekday (days_from_civil y 1 1) =? 6 then [] else [observed_day y 1 1]) ++
  [nth_weekday 3 1 y 1; nth_weekday 3 1 y 2; easter y - 2; last_weekday 1 y 5; observed_day y 6 19; observed_day y 7 4;
   nth_weekday 1 1 y 9; thanksgiving y; observed_day y 12 25].
(** The exchange closes at 13:00 on the day after Thanksgiving, on Christmas
    Eve and on July 3, when they are trading days. *)
Definition early_closes (y : Z) : list Z :=
  thanksgiving y + 1 ::
  List.filter (fun day => (1 <=? weekday day) && (weekday day <=? 5) && negb (existsb (Z.eqb day) (holidays y)))
    [days_from_civil y 12 24; days_from_civil y 7 3].
Definition exchange_rule (date : MarketDate) : option sessionRule :=
  let day := day_number date in
  if existsb (Z.eqb day) (holidays (date_Year date)) then Some (mkSessionRule true 0 0)
  else if existsb (Z.eqb day) (early_closes (date_Year date)) then Some (mkSessionRule false 13 0)
  else None.

#[local] Instance sessionRule_eq_dec : EqDecision sessionRule.
Proof. solve_decision. Defined.
Lemma official_rules_days :
  forallb (fun k => let date := date_of_civil (civil_from_days (first_day + Z.of_nat k)) in
    bool_decide (officialNYSERules !! date = exchange_rule date)) (seq 0 1096) = true.
Proof. vm_compute. reflexivity. Qed.

(** The official rules are the exchange's holidays and early closes. *)
Lemma official_rules date : date_Validate date = Ok tt -> firstNYSEYear <= date_Year date <= lastNYSEYear ->
  officialNYSERules !! date = exchange_rule date.
Proof.
  intros Hv Hy. pose proof (supported_day _ Hv Hy) as Hd. destruct (date_Validate_ok _ Hv) as (_ & _ & _ & Hc).
  change first_day with 739616 in Hd. change last_day with 740711 in Hd.
  pose proof official_rules_days as Ha. rewrite forallb_forall in Ha. specialize (Ha (Z.to_nat (day_number date - 739616))).
  cbv zeta in Ha. replace (first_day + Z.of_nat (Z.to_nat (day_number date - 739616))) with (day_number date) in Ha
    by (change first_day with 739616; lia).
  rewrite Hc in Ha. apply bool_decide_eq_true in Ha; [exact Ha |]. apply in_seq. lia.
Qed.

(** An override replaces the rule of its date; the last one of a date counts. *)
Definition override_rule (o : SessionOverride) : sessionRule :=
  if ov_Closed o then mkSessionRule true 0 0 else mkSessionRule false (ov_CloseHour o) (ov_CloseMinute o).
Definition date_rule (os : list SessionOverride) (date : MarketDate) : option sessionRule :=
  match List.find (fun o => bool_decide (ov_Date o = date)) (rev os) with Some o => Some (override_rule o) | None => exchange_rule date end.

Lemma applyOverride_special c o c' : applyOverride c o = Ok c' -> nyse_special c' = <[ov_Date o := override_rule o]> (nyse_special c).
Proof. unfold applyOverride, override_rule. intros H. inv_ok. destruct (ov_Closed o); inv_ok; reflexivity. Qed.
Lemma find_app {A} (f : A -> bool) l1 l2 : List.find f (l1 ++ l2) = match List.find f l1 with Some x => Some x | None => List.find f l2 end.
Proof. induction l1 as [|x l1 IH]; simpl; [reflexivity |]. by destruct (f x). Qed.
Lemma apply_overrides_special os c c' date : apply_overrides c os = Ok c' ->
  nyse_special c' !! date =
  match List.find (fun o => bool_decide (ov_Date o = date)) (rev os) with Some o => Some (override_rule o) | None => nyse_special c !! date end.
Proof.
  revert c. induction os as [|o os IH]; intros c H; cbn [apply_overrides rev] in *; [by injection H as <- |].
  apply rbind_ok in H as (c1 & H1 & H). rewrite (IH _ H), find_app. destruct (List.find _ (rev os)); [reflexivity |].
  rewrite (applyOverride_special _ _ _ H1). cbn [List.find]. destruct (decide (ov_Date o = date)) as [<-|n].
  - rewrite bool_decide_eq_true_2 by reflexivity. by rewrite lookup_insert_eq.
  - rewrite bool_decide_eq_false_2 by exact n. by rewrite lookup_insert_ne.
Qed.
(** The rule a calendar built with overrides has for a date. *)
Lemma NewNYSECalendar_rule `{TzLib} os c date : NewNYSECalendar os = Ok c -> date_Validate date = Ok tt ->
  firstNYSEYear <= date_Year date <= lastNYSEYear -> nyse_special c !! date = date_rule os date.
Proof.
  unfold NewNYSECalendar, date_rule. destruct (load_location _) as [l|]; [| discriminate]. intros E Hv Hy.
  rewrite (apply_overrides_special _ _ _ date E). by rewrite <- (official_rules date Hv Hy).
Qed.

(** ** The sessions, exactly *)
Definition is_weekend (day : Z) : bool := ((day + 1) mod 7 =? 6) || ((day + 1) mod 7 =? 0).

(** The session of a date under a rule. *)
Definition rule_session (off : Z -> Z) (rule : option sessionRule) (date : MarketDate) : option MarketSession :=
  let day := day_number date in
  let session h mi := mkMarketSession date (local_instant (off day) day 9 30) (local_instant (off day) day h mi) in
  if is_weekend day then None
  else match rule with
       | None => Some (session 16 0)
       | Some r => if rule_closed r then None else Some (session (rule_closeHour r) (rule_closeMinute r))
       end.
Definition nyse_session (off : Z -> Z) (rules : gmap MarketDate sessionRule) (date : MarketDate) : option MarketSession :=
  rule_session off (rules !! date) date.

Section Sessions.
Context (c : NYSECalendar) (l : Location) `{NY : !NewYorkLaws l}
        (Hl : nyse_location c = Some l) (Hc : rules_ok c).

Lemma weekday_local y m d : let date := mkMarketDate y m d in
  date_Validate date = Ok tt -> first_day <= day_number date <= last_day ->
  Weekday_In (Date_In y m d 12 0 l) l = (day_number date + 1) mod 7.
Proof.
  intros date Hv Hr. unfold Weekday_In. do 2 f_equal. apply local_day; [exact Hr |].
  rewrite Date_In_local by (try exact Hr; try exact Hv; lia). rewrite local_instant_seconds.
  fold date. pose proof (ny_offset_bounds _ Hr). lia.
Qed.

Lemma session_Validate_intro date o cl : date_Validate date = Ok tt -> 0 < o < cl ->
  session_Validate (mkMarketSession date o cl) = Ok tt.
Proof.
  intros Hv Ho. unfold session_Validate. simpl. rewrite Hv. simpl. unfold_time. case_Z; simpl; try lia. reflexivity.
Qed.

(** A supported date has the session the rules give it, and no error. *)
Lemma SessionForDate_spec date : date_Validate date = Ok tt ->
  firstNYSEYear <= date_Year date <= lastNYSEYear ->
  SessionForDate c date = Ok (nyse_session ny_offset (nyse_special c) date).
Proof.
  intros Hv Hy. pose proof (supported_day _ Hv Hy) as Hr. pose proof first_day_pos.
  unfold SessionForDate. rewrite Hl, Hv. simpl. destruct date as [y m d] eqn:Hd. rewrite <- Hd in *.
  assert ((y <? firstNYSEYear) || (lastNYSEYear <? y) = false) as ->.
  { rewrite Hd in Hy. simpl in Hy. bsimp. lia. }
  rewrite weekday_local by (rewrite <- Hd; assumption). rewrite <- Hd. unfold nyse_session, rule_session.
  fold (is_weekend (day_number date)). destruct (is_weekend _); [reflexivity |].
  pose proof (ny_offset_bounds _ Hr) as Hoff.
  assert (forall h mi, 0 <= h <= 16 -> 0 <= mi <= 59 -> 570 < h * 60 + mi <= 960 ->
    session_Validate (mkMarketSession date (Date_In y m d 9 30 l) (Date_In y m d h mi l)) = Ok tt /\
    mkMarketSession date (Date_In y m d 9 30 l) (Date_In y m d h mi l) =
    mkMarketSession date (local_instant (ny_offset (day_number date)) (day_number date) 9 30)
      (local_instant (ny_offset (day_number date)) (day_number date) h mi)) as Hs.
  { intros h mi Hh Hmi Hb. rewrite !Date_In_local by (rewrite <- ?Hd; try assumption; lia). rewrite <- Hd.
    split; [| reflexivity]. apply session_Validate_intro; [exact Hv |].
    unfold local_instant, Second, seconds_per_day. lia. }
  destruct (nyse_special c !! date) as [r|] eqn:E; simpl.
  - destruct (rule_closed r) eqn:Er; [reflexivity |].
    destruct (Hc _ _ E) as [Hcl | (Hh & Hm & Hb)]; [congruence |].
    destruct (Hs _ _ Hh Hm Hb) as [-> ->]. reflexivity.
  - destruct (Hs 16 0) as [-> ->]; [lia.. |]. reflexivity.
Qed.

(** The bounds of a session within its day. *)
Lemma session_bounds date s : SessionForDate c date = Ok (Some s) ->
  session_Date s = date /\
  session_Open s = local_instant (ny_offset (day_number date)) (day_number date) 9 30 /\
  exists minutes, 570 < minutes <= 960 /\
    session_Close s = local_instant (ny_offset (day_number date)) (day_number date) 0 minutes.
Proof.
  intros E. destruct (SessionForDate_ok _ _ _ E) as (Hv & Hr & _).
  assert (firstNYSEYear <= date_Year date <= lastNYSEYear) as Hy.
  { revert E. unfold SessionForDate. rewrite Hl, Hv. destruct date as [y m d]. simpl.
    destruct (_ || _) eqn:G; [discriminate |]. intros _. bsimp. lia. }
  rewrite (SessionForDate_spec _ Hv Hy) in E. injection E as E. revert E. unfold nyse_session, rule_session.
  destruct (is_weekend _); [discriminate |].
  destruct (nyse_special c !! date) as [r|] eqn:Er.
  - destruct (rule_closed r) eqn:Hcl; [discriminate |]. intros [= <-]. simpl.
    destruct (Hc _ _ Er) as [? | (Hh & Hm & Hb)]; [congruence |]. do 2 (split; [reflexivity |]).
    exists (rule_closeHour r * 60 + rule_closeMinute r). split; [exact Hb |]. unfold local_instant. f_equal. lia.
  - intros [= <-]. simpl. do 2 (split; [reflexivity |]). exists 960. split; [lia |]. unfold local_instant. f_equal. lia.
Qed.

Lemma session_day_of t date s : SessionForDate c date = Ok (Some s) -> session_Open s <= t < session_Close s ->
  local_seconds t l / seconds_per_day = day_number date.
Proof.
  intros E Ht. destruct (SessionForDate_ok _ _ _ E) as (Hv & Hr & _).
  destruct (session_bounds _ _ E) as (_ & Ho & mins & Hm & Hcl). rewrite Ho, Hcl in Ht.
  pose proof (ny_offset_bounds _ Hr). unfold local_instant in Ht.
  apply local_day; [exact Hr |]. unfold Second, seconds_per_day in *. Z.div_mod_to_equations. lia.
Qed.

Lemma DateInLocation_spec t : t <> 0 -> 0 <= local_seconds t l / seconds_per_day ->
  DateInLocation t (Some l) = Ok (date_of_civil (civil_from_days (local_seconds t l / seconds_per_day))).
Proof.
  intros Ht Hd. unfold DateInLocation, CivilDate_In, NewMarketDate. unfold_time.
  destruct (Z.eqb_spec t 0); [done |].
  pose proof (civil_date_Validate _ Hd) as Hv. revert Hv.
  destruct (civil_from_days _) as [[y m] d]. simpl. intros ->. reflexivity.
Qed.

(** [SessionAt] is active exactly inside the sessions of the calendar. *)
Lemma SessionAt_iff t s : t <> 0 ->
  SessionAt c t = Ok (s, true) <->
  SessionForDate c (session_Date s) = Ok (Some s) /\ session_Open s <= t < session_Close s.
Proof.
  intros Ht. split; [apply SessionAt_ok |]. intros [E Hb].
  destruct (SessionForDate_ok _ _ _ E) as (Hv & Hr & _). pose proof first_day_pos.
  unfold SessionAt. rewrite Hl, DateInLocation_spec; [| done | rewrite (session_day_of _ _ _ E Hb); lia].
  rewrite (session_day_of _ _ _ E Hb). unfold_time. destruct (Z.eqb_spec t 0); [done |]. simpl.
  destruct (date_Validate_ok _ Hv) as (_ & _ & _ & ->). rewrite E. simpl.
  case_Z; try lia. reflexivity.
Qed.

(** Sessions of different dates are disjoint and in the order of the dates. *)
Lemma sessions_ordered d1 d2 s1 s2 : SessionForDate c d1 = Ok (Some s1) -> SessionForDate c d2 = Ok (Some s2) ->
  day_number d1 < day_number d2 -> session_Close s1 < session_Open s2.
Proof.
  intros E1 E2 Hd. destruct (session_bounds _ _ E1) as (_ & _ & m1 & Hm1 & ->).
  destruct (session_bounds _ _ E2) as (_ & -> & _).
  destruct (SessionForDate_ok _ _ _ E1) as (_ & Hr1 & _), (SessionForDate_ok _ _ _ E2) as (_ & Hr2 & _).
  pose proof (ny_offset_bounds _ Hr1). pose proof (ny_offset_bounds _ Hr2).
  unfold local_instant, Second, seconds_per_day. lia.
Qed.

Lemma DateInLocation_day t d : DateInLocation t (Some l) = Ok d ->
  t <> 0 /\ date_Validate d = Ok tt /\ day_number d = local_seconds t l / seconds_per_day.
Proof.
  unfold DateInLocation, NewMarketDate, CivilDate_In. unfold_time. intros H. inv_ok.
  pose proof (day_number_civil (local_seconds t l / seconds_per_day)) as Hn. bsimp.
  destruct (civil_from_days _) as [[y m] dd]. inv_ok. auto.
Qed.

(** Sessions of the days before (after) the local day of [t] open and close
    before (after) [t]. *)
Lemma session_before_day t s d : SessionForDate c d = Ok (Some s) ->
  day_number d < local_seconds t l / seconds_per_day -> session_Close s <= t.
Proof.
  intros E Hd. destruct (session_bounds _ _ E) as (_ & _ & m & Hm & ->).
  destruct (SessionForDate_ok _ _ _ E) as (_ & Hr & _).
  pose proof (ny_offset_bounds _ Hr). pose proof (ny_offset_range (Unix t)).
  unfold local_seconds, local_instant, Second, seconds_per_day in *. Z.div_mod_to_equations. lia.
Qed.
Lemma session_after_day t s d : SessionForDate c d = Ok (Some s) ->
  local_seconds t l / seconds_per_day < day_number d -> t < session_Open s.
Proof.
  intros E Hd. destruct (session_bounds _ _ E) as (_ & -> & _).
  destruct (SessionForDate_ok _ _ _ E) as (_ & Hr & _).
  pose proof (ny_offset_bounds _ Hr). pose proof (ny_offset_range (Unix t)).
  unfold local_seconds, local_instant, Second, seconds_per_day in *. Z.div_mod_to_equations. lia.
Qed.

Lemma session_same_day s s' : SessionForDate c (session_Date s) = Ok (Some s) ->
  SessionForDate c (session_Date s') = Ok (Some s') ->
  day_number (session_Date s) = day_number (session_Date s') -> s = s'.
Proof.
  intros E E' Hd. destruct (SessionForDate_ok _ _ _ E) as (Hv & _), (SessionForDate_ok _ _ _ E') as (Hv' & _).
  rewrite (day_number_inj _ _ Hv Hv' Hd) in E. congruence.
Qed.

(** The earliest session of the calendar that opens after [t]. *)
Definition is_next_session (t : Time) (s : MarketSession) : Prop :=
  SessionForDate c (session_Date s) = Ok (Some s) /\ t < session_Open s /\
  forall s', SessionForDate c (session_Date s') = Ok (Some s') -> t < session_Open s' ->
    s' = s \/ session_Close s < session_Open s'.

Lemma next_sound t s : NextSession c t = Ok s -> is_next_session t s.
Proof.
  unfold NextSession. rewrite Hl. intros H. inv_ok. destruct (DateInLocation_day _ _ R) as (_ & Hv & Hd).
  destruct (next_loop_spec _ _ _ _ _ H) as (k & Hk & Hs & E & Ho & Hall).
  split; [exact E |]. split; [exact Ho |]. intros s' E' Ho'.
  assert (day_number (session_Date s) = day_number r + k) as Hn by (rewrite Hs; by apply addDays_day).
  destruct (Z.lt_trichotomy (day_number (session_Date s)) (day_number (session_Date s'))) as [Hlt | [Heq | Hgt]].
  - right. by apply (sessions_ordered _ _ _ _ E E').
  - left. symmetry. by apply session_same_day.
  - exfalso. destruct (SessionForDate_ok _ _ _ E') as (Hv' & Hr' & _). pose proof first_day_pos.
    destruct (Z.lt_ge_cases (day_number (session_Date s')) (day_number r)) as [Hb | Hb].
    + rewrite Hd in Hb. pose proof (session_before_day _ _ _ E' Hb).
      destruct (session_Validate_ok s') as (_ & _ & _ & ?); [| lia].
      destruct (SessionForDate_ok _ _ _ E') as (_ & _ & Hsv). by apply Hsv.
    + destruct (Hall (day_number (session_Date s') - day_number r)) as (r' & Er & Hle); [lia |].
      assert (addDays r (day_number (session_Date s') - day_number r) = session_Date s') as Hadd.
      { apply day_number_inj; [apply addDays_valid; [exact Hv | lia] | exact Hv' |].
        rewrite addDays_day by exact Hv. lia. }
      rewrite Hadd, E' in Er. injection Er as <-. specialize (Hle s' eq_refl). lia.
Qed.

Lemma next_loop_complete value date n fuel s : (n < fuel)%nat ->
  date_Validate date = Ok tt -> firstNYSEYear <= date_Year date <= lastNYSEYear ->
  (forall j, 0 <= j <= Z.of_nat n -> firstNYSEYear <= date_Year (addDays date j) <= lastNYSEYear) ->
  SessionForDate c (addDays date (Z.of_nat n)) = Ok (Some s) -> value < session_Open s ->
  exists s', next_session_loop fuel c value date = Ok s'.
Proof.
  revert date fuel. induction n as [|n IH]; intros date fuel Hf Hv Hy Hall E Ho.
  - destruct fuel as [|fuel]; [lia |]. cbn [next_session_loop]. rewrite addDays_0 in E by exact Hv. rewrite E.
    cbn. unfold After. destruct (Z.ltb_spec value (session_Open s)); [eauto | lia].
  - destruct fuel as [|fuel]; [lia |]. cbn [next_session_loop]. rewrite (SessionForDate_spec _ Hv Hy). cbn.
    pose proof (supported_day _ Hv Hy) as Hr. pose proof first_day_pos.
    assert (exists s', next_session_loop fuel c value (addDays date 1) = Ok s') as Hn.
    { apply IH; [lia | apply addDays_valid; [exact Hv | lia] | apply Hall; lia | | | exact Ho].
      - intros j Hj. rewrite addDays_addDays; [apply Hall; lia | exact Hv | lia].
      - rewrite addDays_addDays; [| exact Hv | lia]. replace (1 + Z.of_nat n) with (Z.of_nat (S n)) by lia. exact E. }
    destruct (nyse_session _ _ _) as [s0|]; [| exact Hn]. case_if; [eauto | exact Hn].
Qed.

Lemma is_next_unique t s s' : is_next_session t s -> is_next_session t s' -> s = s'.
Proof.
  intros (E & Ho & Hmin) (E' & Ho' & Hmin'). destruct (Hmin _ E' Ho') as [-> | H1]; [reflexivity |].
  destruct (Hmin' _ E Ho) as [-> | H2]; [reflexivity |]. exfalso.
  destruct (SessionForDate_ok _ _ _ E) as (_ & _ & Hs), (SessionForDate_ok _ _ _ E') as (_ & _ & Hs').
  destruct (Hs _ eq_refl) as [_ (_ & _ & _ & ?)%session_Validate_ok].
  destruct (Hs' _ eq_refl) as [_ (_ & _ & _ & ?)%session_Validate_ok]. lia.
Qed.

Lemma next_complete t s : t <> 0 -> first_day <= local_seconds t l / seconds_per_day ->
  is_next_session t s -> NextSession c t = Ok s.
Proof.
  intros Ht Hd Hn. destruct Hn as (E & Ho & Hmin) eqn:Hn'. clear Hn'. pose proof first_day_pos.
  destruct (SessionForDate_ok _ _ _ E) as (Hv & Hr & Hsv).
  destruct (Hsv s eq_refl) as [_ (_ & _ & _ & Hoc)%session_Validate_ok].
  set (D := local_seconds t l / seconds_per_day) in *. set (date := date_of_civil (civil_from_days D)).
  assert (day_number date = D) as HD by apply day_number_civil.
  assert (D <= day_number (session_Date s)) as HDs.
  { destruct (Z.le_gt_cases D (day_number (session_Date s))) as [| Hlt]; [done |].
    pose proof (session_before_day _ _ _ E Hlt). lia. }
  assert (date_Validate date = Ok tt) as Hvd by (apply civil_date_Validate; lia).
  pose proof supported_span. pose proof calendar_fuel_value.
  destruct (next_loop_complete t date (Z.to_nat (day_number (session_Date s) - D)) calendar_fuel s) as [s' Hs'].
  - lia.
  - exact Hvd.
  - apply supported_year; [exact Hvd | lia].
  - intros j Hj. apply supported_year; [apply addDays_valid; [exact Hvd | lia] |].
    rewrite addDays_day by exact Hvd. lia.
  - rewrite Z2Nat.id by lia. replace (addDays date _) with (session_Date s); [exact E |].
    apply day_number_inj; [exact Hv | apply addDays_valid; [exact Hvd | lia] |].
    rewrite addDays_day by exact Hvd. lia.
  - exact Ho.
  - assert (NextSession c t = Ok s') as Hns.
    { unfold NextSession. rewrite Hl, DateInLocation_spec; [| exact Ht | fold D; lia]. fold D. fold date.
      unfold_time. destruct (Z.eqb_spec t 0); [done |]. exact Hs'. }
    rewrite Hns. f_equal. symmetry. apply (is_next_unique t); [by split | by apply next_sound].
Qed.

(** The latest session of the calendar that has closed at [t]. *)
Definition is_previous_session (t : Time) (s : MarketSession) : Prop :=
  SessionForDate c (session_Date s) = Ok (Some s) /\ session_Close s <= t /\
  forall s', SessionForDate c (session_Date s') = Ok (Some s') -> session_Close s' <= t ->
    s' = s \/ session_Close s' < session_Open s.

Lemma previous_sound t s : PreviousSession c t = Ok s -> is_previous_session t s.
Proof.
  unfold PreviousSession. rewrite Hl. intros H. inv_ok. destruct (DateInLocation_day _ _ R) as (_ & Hv & Hd).
  destruct (previous_loop_spec _ _ _ _ _ H) as (k & Hk & Hs & E & Ho & Hall).
  split; [exact E |]. split; [exact Ho |]. intros s' E' Ho'.
  assert (day_number (session_Date s) = day_number r - k) as Hn.
  { rewrite Hs, addDays_day by exact Hv. lia. }
  destruct (Z.lt_trichotomy (day_number (session_Date s')) (day_number (session_Date s))) as [Hlt | [Heq | Hgt]].
  - right. by apply (sessions_ordered _ _ _ _ E' E).
  - left. by apply session_same_day.
  - exfalso. destruct (SessionForDate_ok _ _ _ E') as (Hv' & Hr' & Hsv). pose proof first_day_pos.
    destruct (Hsv s' eq_refl) as [_ (_ & _ & _ & Hoc)%session_Validate_ok].
    destruct (Z.lt_ge_cases (day_number r) (day_number (session_Date s'))) as [Hb | Hb].
    + rewrite Hd in Hb. pose proof (session_after_day _ _ _ E' Hb). lia.
    + destruct (Hall (day_number r - day_number (session_Date s'))) as (r' & Er & Hle); [lia |].
      assert (addDays r (- (day_number r - day_number (session_Date s'))) = session_Date s') as Hadd.
      { apply day_number_inj; [apply addDays_valid; [exact Hv | lia] | exact Hv' |].
        rewrite addDays_day by exact Hv. lia. }
      rewrite Hadd, E' in Er. injection Er as <-. specialize (Hle s' eq_refl). lia.
Qed.
End Sessions.

(** ** The NYSE calendar implements the ordered interface *)
Section Order.
Context (c : NYSECalendar) (l : Location) `{NY : !NewYorkLaws l}
        (Hl : nyse_location c = Some l) (Hc : rules_ok c).

Lemma nyse_sessions_nodup : List.NoDup (nyse_sessions c).
Proof.
  unfold nyse_sessions. generalize 1096%nat. intros n. generalize 0%nat. induction n as [|n IH]; intros m; [constructor |].
  simpl. apply List.NoDup_app; [| apply IH |].
  - destruct (SessionForDate c _) as [[s|]| |]; repeat constructor. intros [].
  - intros s Hin Hin'.
    destruct (SessionForDate c (date_of_civil _)) as [[s0|]| |] eqn:E0; try (destruct Hin; fail).
    destruct Hin as [<-|[]]. apply in_flat_map in Hin' as (k & Hk & Hin').
    destruct (SessionForDate c (date_of_civil (civil_from_days (first_day + Z.of_nat k)))) as [[s1|]| |] eqn:E1;
      try (destruct Hin'; fail).
    destruct Hin' as [->|[]]. apply in_seq in Hk.
    destruct (session_bounds _ _ Hl Hc _ _ E0) as [H0 _], (session_bounds _ _ Hl Hc _ _ E1) as [H1 _].
    rewrite H0 in H1. apply (f_equal day_number) in H1. rewrite !day_number_civil in H1. lia.
Qed.

Lemma session_valid_bounds s : In s (nyse_sessions c) ->
  SessionForDate c (session_Date s) = Ok (Some s) /\ first_day <= day_number (session_Date s) <= last_day /\
  0 < session_Open s < session_Close s.
Proof.
  intros E%nyse_sessions_sound. split; [exact E |].
  destruct (SessionForDate_ok _ _ _ E) as (_ & Hr & Hs). split; [exact Hr |].
  destruct (Hs s eq_refl) as [_ (_ & _ & _ & Hoc)%session_Validate_ok].
  destruct (session_bounds _ _ Hl Hc _ _ E) as (_ & -> & _). pose proof (ny_offset_bounds _ Hr).
  pose proof first_day_pos. revert Hoc. destruct (session_bounds _ _ Hl Hc _ _ E) as (_ & -> & _). intros Hoc.
  split; [| exact Hoc]. unfold local_instant, Second, seconds_per_day. lia.
Qed.

(** An instant between two sessions falls on a supported local date. *)
Lemma supported_instant t s s' : In s (nyse_sessions c) -> In s' (nyse_sessions c) ->
  session_Open s <= t <= session_Close s' ->
  t <> 0 /\ first_day <= local_seconds t l / seconds_per_day <= last_day.
Proof.
  intros (E & Hr & Ho)%session_valid_bounds (E' & Hr' & Ho')%session_valid_bounds Ht. split; [lia |].
  split; apply Z.le_ngt; intros Hlt.
  - pose proof (session_after_day _ _ Hl Hc t _ _ E ltac:(lia)). lia.
  - assert (day_number (session_Date s') < local_seconds t l / seconds_per_day) as Hd by lia.
    pose proof (session_before_day _ _ Hl Hc t _ _ E' Hd) as Hle.
    assert (t = session_Close s') as -> by lia.
    destruct (session_bounds _ _ Hl Hc _ _ E') as (_ & _ & m & Hm & Hcl).
    rewrite Hcl, (local_day (day_number (session_Date s'))) in Hd; [lia | exact Hr' |].
    pose proof (ny_offset_bounds _ Hr'). rewrite local_instant_seconds. lia.
Qed.

Lemma SessionForDate_total z : first_day <= z <= last_day ->
  exists r, SessionForDate c (date_of_civil (civil_from_days z)) = Ok r.
Proof.
  intros Hz. pose proof first_day_pos. assert (date_Validate (date_of_civil (civil_from_days z)) = Ok tt) as Hv
    by (apply civil_date_Validate; lia).
  eexists. apply (SessionForDate_spec _ _ Hl Hc _ Hv). apply supported_year; [exact Hv |].
  rewrite day_number_civil. exact Hz.
Qed.

Lemma DateInLocation_supported t : t <> 0 -> first_day <= local_seconds t l / seconds_per_day ->
  DateInLocation t (nyse_location c) = Ok (date_of_civil (civil_from_days (local_seconds t l / seconds_per_day))).
Proof. intros Ht Hd. pose proof first_day_pos. rewrite Hl. apply DateInLocation_spec; [exact Ht | lia]. Qed.

Lemma today_sessions t d r s : DateInLocation t (nyse_location c) = Ok d -> SessionForDate c d = Ok r ->
  In s (nyse_sessions c) ->
  r = Some s \/ (session_Close s <= t /\ forall s0, r = Some s0 -> session_Close s < session_Open s0) \/
  t < session_Open s.
Proof.
  rewrite Hl. intros Hd E (E' & Hr & _)%session_valid_bounds.
  destruct (DateInLocation_day l t d Hd) as (_ & Hv & Hday).
  destruct (Z.lt_trichotomy (day_number (session_Date s)) (day_number d)) as [Hlt | [Heq | Hgt]].
  - right. left. split; [apply (session_before_day _ _ Hl Hc _ _ _ E'); lia |].
    intros s0 ->. by apply (sessions_ordered _ _ Hl Hc _ _ _ _ E' E).
  - left. destruct (SessionForDate_ok _ _ _ E') as (Hv' & _). rewrite (day_number_inj _ _ Hv' Hv Heq) in E'. congruence.
  - right. right. apply (session_after_day _ _ Hl Hc _ _ _ E'). lia.
Qed.

Lemma inactive_sessions t s s' : SessionAt c t = Ok (s', false) -> In s (nyse_sessions c) ->
  session_Close s <= t \/ t < session_Open s.
Proof.
  unfold SessionAt. intros H Hin. inv_ok.
  destruct (today_sessions _ _ _ _ R R0 Hin) as [-> | [[Hs _] | Hs]]; [| by left | by right].
  injection H as -> Hb. unfold_time. bsimp. lia.
Qed.

Lemma SessionAt_total t s s' : In s (nyse_sessions c) -> In s' (nyse_sessions c) ->
  session_Open s <= t <= session_Close s' -> exists r, SessionAt c t = Ok r.
Proof.
  intros Hs Hs' Ht. destruct (supported_instant _ _ _ Hs Hs' Ht) as [Hz Hd].
  unfold SessionAt, IsZero. destruct (Z.eqb_spec t 0); [done |].
  rewrite DateInLocation_supported by (exact Hz || lia). simpl.
  destruct (SessionForDate_total _ Hd) as [r ->]. simpl. destruct r; eauto.
Qed.

Lemma next_loop_exists value date s k fuel : (Z.to_nat k < fuel)%nat -> 0 <= k ->
  date_Validate date = Ok tt -> first_day <= day_number date ->
  session_Date s = addDays date k -> SessionForDate c (session_Date s) = Ok (Some s) -> value < session_Open s ->
  exists s', next_session_loop fuel c value date = Ok s'.
Proof.
  intros Hf Hk Hv Hd Hs E Ho. destruct (SessionForDate_ok _ _ _ E) as (_ & Hr & _).
  rewrite Hs, addDays_day in Hr by exact Hv. pose proof first_day_pos.
  apply (next_loop_complete _ _ Hl Hc value date (Z.to_nat k) fuel s); [exact Hf | exact Hv | | | | exact Ho].
  - apply supported_year; [exact Hv | lia].
  - intros j Hj. apply supported_year; [apply addDays_valid; [exact Hv | lia] |].
    rewrite addDays_day by exact Hv. lia.
  - rewrite Z2Nat.id by lia. rewrite <- Hs. exact E.
Qed.

Lemma NextSession_total t s s' : In s (nyse_sessions c) -> In s' (nyse_sessions c) ->
  session_Open s <= t < session_Open s' -> exists r, NextSession c t = Ok r.
Proof.
  intros Hs Hs' Ht. destruct (session_valid_bounds _ Hs') as (E & Hr & Ho).
  destruct (supported_instant t s s' Hs Hs' ltac:(lia)) as [Hz Hd].
  unfold NextSession, IsZero. destruct (Z.eqb_spec t 0); [done |].
  rewrite DateInLocation_supported by (exact Hz || lia). cbn [rbind].
  set (D := local_seconds t l / seconds_per_day) in *. pose proof first_day_pos.
  assert (D <= day_number (session_Date s')) as HD.
  { apply Z.le_ngt. intros Hlt. pose proof (session_before_day _ _ Hl Hc t _ _ E Hlt). lia. }
  assert (date_Validate (date_of_civil (civil_from_days D)) = Ok tt) as Hv by (apply civil_date_Validate; lia).
  pose proof supported_span. pose proof calendar_fuel_value.
  apply (next_loop_exists t _ s' (day_number (session_Date s') - D)); [lia | lia | exact Hv | | | exact E | lia].
  - rewrite day_number_civil. lia.
  - destruct (SessionForDate_ok _ _ _ E) as (Hv' & _).
    apply day_number_inj; [exact Hv' | apply addDays_valid; [exact Hv |] |];
      rewrite ?addDays_day by exact Hv; rewrite day_number_civil; lia.
Qed.

Definition nyse_order : CalendarOrder (nyse_TradingCalendar c) (nyse_calendar_laws c).
Proof.
  refine {| order_nodup := nyse_sessions_nodup |}; simpl.
  - intros s s' (E & _)%session_valid_bounds (E' & _)%session_valid_bounds.
    destruct (Z.lt_trichotomy (day_number (session_Date s)) (day_number (session_Date s'))) as [Hlt | [Heq | Hgt]].
    + right. left. by apply (sessions_ordered _ _ Hl Hc _ _ _ _ E E').
    + left. by apply (session_same_day c).
    + right. right. by apply (sessions_ordered _ _ Hl Hc _ _ _ _ E' E).
  - apply today_sessions.
  - apply inactive_sessions.
  - intros t s s' Hn (E' & _)%session_valid_bounds. apply (next_sound _ _ Hl Hc _ _ Hn); exact E'.
  - intros t s s' Hn (E' & _)%session_valid_bounds. apply (previous_sound _ _ Hl Hc _ _ Hn); exact E'.
  - apply SessionAt_total.
  - apply NextSession_total.
Qed.
End Order.

(** ** Properties of a calendar built by [NewNYSECalendar] *)
Section Built.
Context `{TZ : TzLib} (l : Location) `{NY : !NewYorkLaws l} (os : list SessionOverride) (c : NYSECalendar).

(** C23. What [SessionForDate] answers for every date of a built calendar. An
    invalid date is an error, and one outside 2026 to 2028 the out-of-range
    error. In those years a weekend has no session; any other date has the rule
    of the last override given for it or else that of the exchange's calendar,
    which is computed here from the rules of its holidays: no session on a
    holiday or an override that closes, otherwise the session from 09:30 New
    York time to 16:00, to 13:00 on the early closes, or to the hour of the
    override. *)
Theorem NYSE_session_of_date date :
  load_location "America/New_York" = Some l -> NewNYSECalendar os = Ok c ->
  SessionForDate c date =
    match date_Validate date with
    | Ok _ => if (date_Year date <? 2026) || (2028 <? date_Year date) then Err (Wrap "NYSE date" (Sentinel ErrCalendarOutOfRange))
              else Ok (rule_session ny_offset (date_rule os date) date)
    | Err e => Err e
    | Diverge => Diverge
    end.
Proof.
  intros Hl Hc. pose proof (NewNYSECalendar_rule os c date Hc) as Hrule. destruct (NewNYSECalendar_ok _ _ Hc) as [Hr Hloc]. rewrite Hl in Hloc.
  destruct (date_Validate date) as [[]|e|] eqn:Hv; [| unfold SessionForDate; rewrite Hloc, Hv; reflexivity..].
  destruct (_ || _) eqn:Hy.
  - unfold SessionForDate. rewrite Hloc, Hv. destruct date as [y m d]. unfold firstNYSEYear, lastNYSEYear. cbn [date_Year rbind] in *. by rewrite Hy.
  - apply orb_false_iff in Hy as [Hy1 Hy2]. apply Z.ltb_ge in Hy1, Hy2. rewrite <- (Hrule eq_refl (conj Hy1 Hy2)).
    apply (SessionForDate_spec c l); [exact Hloc | exact Hr | exact Hv | exact (conj Hy1 Hy2)].
Qed.

(** [SessionAt] is active exactly at the instants of the half-open
    [[open, close)] of a session of the calendar, and returns that session. *)
Theorem NYSE_session_at t s :
  load_location "America/New_York" = Some l -> NewNYSECalendar os = Ok c -> t <> 0 ->
  SessionAt c t = Ok (s, true) <->
  SessionForDate c (session_Date s) = Ok (Some s) /\ session_Open s <= t < session_Close s.
Proof.
  intros Hl Hc Ht. destruct (NewNYSECalendar_ok _ _ Hc) as [Hr Hloc]. rewrite Hl in Hloc.
  apply (SessionAt_iff c l); assumption.
Qed.

(** From the supported years [NextSession] returns exactly the session
    that opens first after the instant: no other one opens in between. *)
Theorem NYSE_next_session t s :
  load_location "America/New_York" = Some l -> NewNYSECalendar os = Ok c ->
  t <> 0 -> first_day <= local_seconds t l / seconds_per_day ->
  NextSession c t = Ok s <-> is_next_session c t s.
Proof.
  intros Hl Hc Ht Hd. destruct (NewNYSECalendar_ok _ _ Hc) as [Hr Hloc]. rewrite Hl in Hloc. split.
  - apply (next_sound c l); assumption.
  - apply (next_complete c l); assumption.
Qed.

(** [PreviousSession] returns the session that closed last: every other
    session closed by then had closed before it opened. *)
Theorem NYSE_previous_session t s :
  load_location "America/New_York" = Some l -> NewNYSECalendar os = Ok c ->
  PreviousSession c t = Ok s -> is_previous_session c t s.
Proof.
  intros Hl Hc. destruct (NewNYSECalendar_ok _ _ Hc) as [Hr Hloc]. rewrite Hl in Hloc.
  apply (previous_sound c l); assumption.
Qed.
End Built.

(** *** Witnesses, on the official calendar *)
Definition official : NYSECalendar := mkNYSECalendar (Some Concrete.new_york) officialNYSERules.
Definition monday : MarketDate := mkMarketDate 2026 7 27.
Definition monday_session : MarketSession := mkMarketSession monday
  (local_instant (-14400) 739823 9 30) (local_instant (-14400) 739823 16 0).

(** A calendar whose Monday is first closed and then closed early, and whose
    Independence Day is a trading day. *)
Definition overrides : list SessionOverride :=
  [mkSessionOverride monday true 0 0; mkSessionOverride (mkMarketDate 2028 7 4) false 16 0; mkSessionOverride monday false 12 15].
Definition overridden : NYSECalendar :=
  match NewNYSECalendar (H := Concrete.tz) overrides with Ok c => c | _ => official end.
Lemma overridden_built : NewNYSECalendar (H := Concrete.tz) overrides = Ok overridden.
Proof.
  assert (is_ok (NewNYSECalendar (H := Concrete.tz) overrides) = true) as Hok by (vm_compute; reflexivity).
  unfold overridden. destruct (NewNYSECalendar overrides); [reflexivity | discriminate Hok..].
Qed.
Lemma NYSE_session_of_date_witness :
  SessionForDate official monday = Ok (Some monday_session) /\
  SessionForDate official (mkMarketDate 2027 3 26) = Ok None /\
  SessionForDate official (mkMarketDate 2029 1 2) = Err (Wrap "NYSE date" (Sentinel ErrCalendarOutOfRange)) /\
  SessionForDate overridden monday = Ok (Some (mkMarketSession monday (session_Open monday_session) (local_instant (-14400) 739823 12 15))).
Proof.
  pose proof (fun d => NYSE_session_of_date (TZ := Concrete.tz) Concrete.new_york [] official d eq_refl eq_refl) as H.
  split; [rewrite H; vm_compute; reflexivity |]. split; [rewrite H; vm_compute; reflexivity |]. split; [rewrite H; vm_compute; reflexivity |].
  rewrite (NYSE_session_of_date (TZ := Concrete.tz) Concrete.new_york overrides overridden monday eq_refl overridden_built).
  vm_compute. reflexivity.
Defined.

Lemma NYSE_session_at_witness : SessionAt official (session_Open monday_session) = Ok (monday_session, true).
Proof.
  apply (NYSE_session_at (TZ := Concrete.tz) Concrete.new_york [] official); [reflexivity | reflexivity | discriminate |].
  split; [vm_compute; reflexivity | vm_compute; split; [discriminate | reflexivity]].
Defined.

Lemma NYSE_next_session_witness : is_next_session official (session_Open monday_session - 1) monday_session.
Proof.
  apply (NYSE_next_session (TZ := Concrete.tz) Concrete.new_york [] official);
    [reflexivity | reflexivity | discriminate | vm_compute; discriminate | vm_compute; reflexivity].
Defined.

Lemma NYSE_previous_session_witness : is_previous_session official (session_Close monday_session) monday_session.
Proof.
  apply (NYSE_previous_session (TZ := Concrete.tz) Concrete.new_york [] official);
    [reflexivity | reflexivity | vm_compute; reflexivity].
Defined.
