(* ===== verification/Window.v ===== *)
(** * internal/scheduler/window.go: collection windows of a continuous market

    The delay policy of a subscription and the windows of the 7x24 UTC axis,
    with the characterisation of the windows they return. *)
From S2P Require Import Prelude Errors GoStrings GoTime External Domain.

Definition invalidWindow (message : string) : error := Wrap message (Sentinel ErrInvalidData).

Definition WindowTriggerClose : string := "close".
Definition WindowTriggerRevision : string := "revision".

(** ** Delays *)
Record DelayPolicy := mkDelayPolicy { policy_CloseDelay : Duration; policy_RevisionDelay : option Duration }.

Definition secondsDuration (seconds : Z) : result Duration :=
  failif (seconds <? 0) || (int64_max / Second <? seconds),
         invalidWindow "delay seconds are outside the supported range" ;;
  Ok (wrap64 (seconds * Second)).

Definition NewDelayPolicy (closeDelaySeconds : Z) (revisionDelaySeconds : option Z) : result DelayPolicy :=
  closeDelay <- wrap "construct close delay" (secondsDuration closeDelaySeconds) ;;
  match revisionDelaySeconds with
  | None => Ok (mkDelayPolicy closeDelay None)
  | Some seconds =>
      revisionDelay <- wrap "construct revision delay" (secondsDuration seconds) ;;
      Ok (mkDelayPolicy closeDelay (Some revisionDelay))
  end.

(** [None] is [enabled = false]. *)
Definition Delay (policy : DelayPolicy) (trigger : string) : result (option Duration) :=
  if trigger =s WindowTriggerClose then
    failif policy_CloseDelay policy <? 0, invalidWindow "close delay cannot be negative" ;;
    Ok (Some (policy_CloseDelay policy))
  else if trigger =s WindowTriggerRevision then
    match policy_RevisionDelay policy with
    | None => Ok None
    | Some d =>
        failif d <? 0, invalidWindow "revision delay cannot be negative" ;;
        Ok (Some d)
    end
  else Err (invalidWindow "unsupported window trigger").

Definition durationForInterval (interval : string) : result Duration :=
  match ParseBarInterval interval with
  | Ok _ =>
      if interval =s BarInterval1Hour then Ok Hour
      else if interval =s BarInterval1Day then Ok (24 * Hour)
      else Err (invalidWindow "unsupported bar interval")
  | _ => Err (invalidWindow "unsupported bar interval")
  end.

(** ** Windows *)
Record ContinuousWindowRequest := mkContinuousWindowRequest {
  req_Interval : string; req_Trigger : string; req_NextOpenTime : Time; req_Delay : Duration }.

Record CollectionWindow := mkCollectionWindow {
  win_Interval : string; win_Trigger : string; win_RangeStart : Time; win_RangeEnd : Time;
  win_EligibleAt : Time }.

Definition CalculateContinuousWindow (request : ContinuousWindowRequest) (observedAt : Time) : result (option CollectionWindow) :=
  intervalDuration <- durationForInterval (req_Interval request) ;;
  failif (req_Trigger request <>s WindowTriggerClose) && (req_Trigger request <>s WindowTriggerRevision),
         invalidWindow "unsupported window trigger" ;;
  failif IsZero observedAt, invalidWindow "observed time is required" ;;
  failif IsZero (req_NextOpenTime request), invalidWindow "next open time is required" ;;
  failif req_Delay request <? 0, invalidWindow "delay cannot be negative" ;;
  let nextOpen := req_NextOpenTime request in
  failif negb (Equal nextOpen (Truncate nextOpen intervalDuration)),
         invalidWindow "next open time must align to the UTC interval boundary" ;;
  let latestEligibleEnd := Truncate (Add observedAt (- req_Delay request)) intervalDuration in
  if negb (Before nextOpen latestEligibleEnd) then Ok None
  else Ok (Some (mkCollectionWindow (req_Interval request) (req_Trigger request) nextOpen latestEligibleEnd
                   (Add latestEligibleEnd (req_Delay request)))).

Definition CalculateLatestContinuousWindow (interval trigger : string) (observedAt : Time) (delay : Duration) : result (option CollectionWindow) :=
  duration <- durationForInterval interval ;;
  failif IsZero observedAt || (delay <? 0) || ((trigger <>s WindowTriggerClose) && (trigger <>s WindowTriggerRevision)),
         invalidWindow "latest continuous window input is invalid" ;;
  let latestEnd := Truncate (Add observedAt (- delay)) duration in
  CalculateContinuousWindow (mkContinuousWindowRequest interval trigger (Add latestEnd (- duration)) delay) observedAt.

(** ** Lemmas *)
Lemma durationForInterval_ok interval d : durationForInterval interval = Ok d ->
  (interval = BarInterval1Hour /\ d = Hour) \/ (interval = BarInterval1Day /\ d = 24 * Hour).
Proof.
  unfold durationForInterval, ParseBarInterval.
  destruct (String.eqb_spec interval BarInterval1Hour) as [->|]; simpl; [intros [= <-]; auto |].
  destruct (String.eqb_spec interval BarInterval1Day) as [->|]; simpl; [intros [= <-]; auto | discriminate].
Qed.

Lemma durationForInterval_pos interval d : durationForInterval interval = Ok d -> 0 < d.
Proof. intros [[_ ->] | [_ ->]]%durationForInterval_ok; unfold Hour, Minute, Second; lia. Qed.

Lemma ParseBarInterval_no_diverge s : ParseBarInterval s <> Diverge.
Proof. unfold ParseBarInterval. no_diverge. Qed.
Lemma durationForInterval_no_diverge s : durationForInterval s <> Diverge.
Proof. unfold durationForInterval. destruct (ParseBarInterval s); [| discriminate..]. no_diverge. Qed.
#[export] Hint Resolve ParseBarInterval_no_diverge durationForInterval_no_diverge : nodiv.
Lemma CalculateContinuousWindow_no_diverge r t : CalculateContinuousWindow r t <> Diverge.
Proof. unfold CalculateContinuousWindow. no_diverge. Qed.
#[export] Hint Resolve CalculateContinuousWindow_no_diverge : nodiv.
Lemma CalculateLatestContinuousWindow_no_diverge i g t d : CalculateLatestContinuousWindow i g t d <> Diverge.
Proof. unfold CalculateLatestContinuousWindow. no_diverge. Qed.
#[export] Hint Resolve CalculateLatestContinuousWindow_no_diverge : nodiv.

Lemma secondsDuration_ok s d : secondsDuration s = Ok d ->
  0 <= s <= int64_max / Second /\ d = s * Second /\ int64_range d.
Proof.
  unfold secondsDuration. intros H. inv_ok. bsimp.
  assert (0 <= s * Second <= int64_max).
  { split; [unfold Second; lia |]. pose proof (Z.mul_div_le int64_max Second eq_refl). unfold Second in *. lia. }
  rewrite wrap64_id by (unfold int64_range, int64_min; lia). repeat split; unfold int64_min; try lia.
Qed.

(** What [CalculateContinuousWindow] requires of its input. *)
Definition valid_request (r : ContinuousWindowRequest) (observedAt : Time) (d : Duration) : Prop :=
  durationForInterval (req_Interval r) = Ok d /\
  (req_Trigger r = WindowTriggerClose \/ req_Trigger r = WindowTriggerRevision) /\
  observedAt <> 0 /\ req_NextOpenTime r <> 0 /\ 0 <= req_Delay r /\ req_NextOpenTime r mod d = 0.

Lemma CalculateContinuousWindow_ok r t d : valid_request r t d ->
  CalculateContinuousWindow r t = Ok (
    let e := Truncate (t - req_Delay r) d in
    if req_NextOpenTime r <? e
    then Some (mkCollectionWindow (req_Interval r) (req_Trigger r) (req_NextOpenTime r) e (e + req_Delay r))
    else None).
Proof.
  intros (Hd & Htr & Ht & Hn & Hdel & Hmod). pose proof (durationForInterval_pos _ _ Hd) as Hp.
  unfold CalculateContinuousWindow. rewrite Hd. simpl.
  assert ((req_Trigger r <>s WindowTriggerClose) && (req_Trigger r <>s WindowTriggerRevision) = false) as ->
    by (destruct Htr as [-> | ->]; reflexivity).
  apply (Truncate_aligned _ _ Hp) in Hmod. rewrite Hmod. unfold_time.
  destruct (Z.eqb_spec t 0); [done |]. destruct (Z.eqb_spec (req_NextOpenTime r) 0); [done |].
  destruct (Z.ltb_spec (req_Delay r) 0); [lia |]. simpl. rewrite Z.add_opp_r.
  destruct (_ <? _); reflexivity.
Qed.

Lemma CalculateContinuousWindow_inv r t w : CalculateContinuousWindow r t = Ok w -> exists d, valid_request r t d.
Proof.
  unfold CalculateContinuousWindow. intros H. inv_ok. exists r0.
  pose proof (durationForInterval_pos _ _ R) as Hp. unfold valid_request.
  apply negb_false_iff in G3. apply (Truncate_aligned _ _ Hp) in G3.
  unfold_time. bool_hyps. repeat split; try tauto; lia.
Qed.

(** ** Properties *)

(** C24. A continuous window is returned exactly for an aligned next bar that
    has closed, with its delay, at the observed instant; it starts at that bar,
    ends at the last interval boundary whose delay has passed, and its range
    covers every closed bar: the next boundary is not yet due. *)
Theorem continuous_window_spec r t w :
  CalculateContinuousWindow r t = Ok (Some w) <->
  exists d, valid_request r t d /\
    win_Interval w = req_Interval r /\ win_Trigger w = req_Trigger r /\ win_RangeStart w = req_NextOpenTime r /\
    win_RangeStart w < win_RangeEnd w /\ win_RangeEnd w mod d = 0 /\
    win_EligibleAt w = win_RangeEnd w + req_Delay r /\
    win_EligibleAt w <= t < win_EligibleAt w + d.
Proof.
  split.
  - intros H. destruct (CalculateContinuousWindow_inv _ _ _ H) as [d Hv]. exists d. split; [exact Hv |].
    rewrite (CalculateContinuousWindow_ok _ _ _ Hv) in H. cbv zeta in H.
    destruct Hv as (Hd & _). apply durationForInterval_pos in Hd.
    destruct (Z.ltb_spec (req_NextOpenTime r) (Truncate (t - req_Delay r) d)) as [Hlt|]; [| discriminate].
    injection H as <-. simpl. pose proof (Truncate_le (t - req_Delay r) d Hd).
    repeat split; try lia. by apply Truncate_mod.
  - intros (d & Hv & Hi & Htr & Hs & Hlt & Hmod & He & Ht).
    rewrite (CalculateContinuousWindow_ok _ _ _ Hv). cbv zeta.
    destruct Hv as (Hd & _). apply durationForInterval_pos in Hd.
    assert (Truncate (t - req_Delay r) d = win_RangeEnd w) as ->.
    { apply Z.le_antisymm; [| apply Truncate_greatest; lia].
      pose proof (Truncate_le (t - req_Delay r) d Hd) as Hle. pose proof (Truncate_mod (t - req_Delay r) d Hd) as Hm.
      apply Z.mod_divide in Hm as [k Hk]; [| lia]. apply Z.mod_divide in Hmod as [j Hj]; [| lia].
      assert (k < j + 1) by nia. nia. }
    destruct (Z.ltb_spec (req_NextOpenTime r) (win_RangeEnd w)); [| lia].
    destruct w. simpl in *. subst. reflexivity.
Qed.

(** The latest continuous window, when its inputs are valid, always exists
    and is exactly one bar: the last bar whose close and delay have passed.
    (The zero instant as the bar's open time, the first bar of year 1, is
    rejected by the calculation.) *)
Theorem latest_continuous_window_spec interval trigger t delay d :
  durationForInterval interval = Ok d ->
  (trigger = WindowTriggerClose \/ trigger = WindowTriggerRevision) ->
  t <> 0 -> 0 <= delay -> Truncate (t - delay) d <> d ->
  exists w, CalculateLatestContinuousWindow interval trigger t delay = Ok (Some w) /\
    win_Interval w = interval /\ win_Trigger w = trigger /\
    win_RangeStart w mod d = 0 /\ win_RangeEnd w = win_RangeStart w + d /\
    win_EligibleAt w = win_RangeEnd w + delay /\ win_EligibleAt w <= t < win_EligibleAt w + d.
Proof.
  intros Hd Htr Ht Hdel Hz. pose proof (durationForInterval_pos _ _ Hd) as Hp.
  set (e := Truncate (t - delay) d) in *.
  pose proof (Truncate_mod (t - delay) d Hp) as Hm. pose proof (Truncate_le (t - delay) d Hp) as Hle. fold e in Hm, Hle.
  assert ((e - d) mod d = 0) as Hm' by (rewrite Zminus_mod, Hm, Z_mod_same_full; apply Z.mod_0_l; lia).
  assert (valid_request (mkContinuousWindowRequest interval trigger (e - d) delay) t d) as Hv.
  { repeat split; simpl; try assumption; lia. }
  exists (mkCollectionWindow interval trigger (e - d) e (e + delay)).
  unfold CalculateLatestContinuousWindow. rewrite Hd. simpl.
  unfold_time. destruct (Z.eqb_spec t 0); [done |]. destruct (Z.ltb_spec delay 0); [lia |].
  assert ((trigger <>s WindowTriggerClose) && (trigger <>s WindowTriggerRevision) = false) as ->
    by (destruct Htr as [-> | ->]; reflexivity).
  simpl. rewrite !Z.add_opp_r. fold e. rewrite (CalculateContinuousWindow_ok _ _ _ Hv). simpl. fold e.
  destruct (Z.ltb_spec (e - d) e); [| lia]. repeat split; lia.
Qed.

Definition july : Time := Date_UTC 2026 7 27 10 25.
Lemma latest_continuous_window_spec_witness : exists w,
  CalculateLatestContinuousWindow BarInterval1Hour WindowTriggerClose july (30 * Second) = Ok (Some w) /\
  win_RangeEnd w = win_RangeStart w + Hour.
Proof.
  destruct (latest_continuous_window_spec BarInterval1Hour WindowTriggerClose july (30 * Second) Hour) as
    (w & Hw & _ & _ & _ & He & _); [reflexivity | left; reflexivity | discriminate | discriminate | vm_compute; discriminate |].
  exists w. split; [exact Hw | exact He].
Defined.
