(* ===== verification/Freshness.v ===== *)
(** * internal/scheduler/freshness.go: US regular-session bars and freshness

    The bars of a session, the latest due bar, the trading time between two
    instants and the freshness projection, against an abstract trading
    calendar; a nil calendar is one whose location is nil. The session loops
    have [session_fuel] iterations, enough for any calendar of the interface. *)
From S2P Require Import Prelude Errors GoStrings GoTime External Domain Calendar CalendarFacts Window.

Definition MarketStateOpen : string := "open".
Definition MarketStateClosed : string := "closed".
Definition FreshnessStatusFresh : string := "fresh".
Definition FreshnessStatusDelayed : string := "delayed".
Definition FreshnessStatusUnknown : string := "unknown".
Definition FreshnessStatusNotApplicable : string := "not_applicable".

Record USFreshnessInput := mkUSFreshnessInput {
  fi_ObservedAt : Time; fi_Interval : string; fi_CloseDelay : Duration; fi_LastClosedOpenTime : option Time }.

Record USFreshnessResult := mkUSFreshnessResult {
  fr_MarketState : string; fr_FreshnessStatus : string; fr_DataDelaySeconds : option Z;
  fr_ExpectedOpenTime : option Time; fr_ExpectedCloseTime : option Time; fr_NextMarketOpenAt : option Time }.

Record scheduledUSBar := mkScheduledUSBar { usbar_open : Time; usbar_close : Time }.

(** ** The bars of one session *)
Fixpoint hour_bars (fuel : nat) (open close : Time) : result (list scheduledUSBar) :=
  if Before open close then
    match fuel with
    | O => Diverge
    | S fuel =>
        let closeAt := Add open Hour in
        let closeAt := if After closeAt close then close else closeAt in
        bars <- hour_bars fuel closeAt close ;; Ok (mkScheduledUSBar open closeAt :: bars)
    end
  else Ok [].

Definition hour_fuel (open close : Time) : nat := Z.to_nat ((close - open) / Hour + 1).

Definition barsForUSSession (session : MarketSession) (interval : string) : result (list scheduledUSBar) :=
  session_Validate session ;;;
  if interval =s BarInterval1Day then
    let date := session_Date session in
    Ok [mkScheduledUSBar (Date_UTC (date_Year date) (date_Month date) (date_Day date) 0 0) (session_Close session)]
  else if interval =s BarInterval1Hour then
    hour_bars (hour_fuel (session_Open session) (session_Close session)) (session_Open session) (session_Close session)
  else Err (invalidWindow "unsupported US bar interval").

(** ** The latest due bar *)
Definition session_fuel : nat := 1200.
Lemma session_fuel_value : Z.of_nat session_fuel = 1200.
Proof. reflexivity. Qed.
#[global] Opaque session_fuel.

(** [for index := len(bars) - 1; index >= 0; index--]: the last due bar. *)
Definition last_due_bar (bars : list scheduledUSBar) (observedAt : Time) (delay : Duration) : option scheduledUSBar :=
  List.find (fun bar => negb (After (Add (usbar_close bar) delay) observedAt)) (rev bars).

Section WithCalendar.
Context (calendar : TradingCalendar).

Fixpoint latestEligibleUSBar (fuel : nat) (session : MarketSession) (interval : string) (observedAt : Time)
    (delay : Duration) : result (option scheduledUSBar) :=
  match fuel with
  | O => Diverge
  | S fuel =>
      bars <- barsForUSSession session interval ;;
      match last_due_bar bars observedAt delay with
      | Some bar => Ok (Some bar)
      | None =>
          match cal_PreviousSession calendar (session_Open session) with
          | Ok previous => latestEligibleUSBar fuel previous interval observedAt delay
          | Err e => failif negb (errors_Is e ErrCalendarOutOfRange), e ;; Ok None
          | Diverge => Diverge
          end
      end
  end.

Definition usBarForOpen (interval : string) (open : Time) : result scheduledUSBar :=
  failif IsZero open, invalidWindow "US bar open time is required" ;;
  date <- (if interval =s BarInterval1Day then UTCDate open else DateInLocation open (cal_Location calendar)) ;;
  found <- cal_SessionForDate calendar date ;;
  match found with
  | None => Err (invalidWindow "US bar open time belongs to a closed market date")
  | Some session =>
      bars <- barsForUSSession session interval ;;
      match List.find (fun bar => Equal (usbar_open bar) open) bars with
      | Some bar => Ok bar
      | None => Err (invalidWindow "US bar open time is not aligned to a regular-session bar")
      end
  end.

(** ** Trading time between two instants *)
Fixpoint trading_loop (fuel : nat) (cursor to : Time) (total : Duration) : result Duration :=
  if Before cursor to then
    match fuel with
    | O => Diverge
    | S fuel =>
        let* (found, active) := cal_SessionAt calendar cursor ;;
        session <- (if active : bool then Ok found else cal_NextSession calendar cursor) ;;
        let start := if Before cursor (session_Open session) then session_Open session else cursor in
        let stop := if After to (session_Close session) then session_Close session else to in
        let total := if Before start stop then wrap64 (total + Sub stop start) else total in
        if negb (Before (session_Close session) to) then Ok total
        else trading_loop fuel (session_Close session) to total
    end
  else Ok total.

Definition regularTradingDuration (from to : Time) : result Duration :=
  if negb (Before from to) then Ok 0 else trading_loop session_fuel from to 0.

(** ** Freshness *)
Definition CalculateUSFreshness (input : USFreshnessInput) : result USFreshnessResult :=
  failif is_nil (cal_Location calendar), Plain "US freshness trading calendar is required" ;;
  failif IsZero (fi_ObservedAt input), invalidWindow "freshness observed time is required" ;;
  failif fi_CloseDelay input <? 0, invalidWindow "freshness close delay cannot be negative" ;;
  durationForInterval (fi_Interval input) ;;;
  let observedAt := fi_ObservedAt input in
  let* (currentSession, open) := wrap "resolve US market state" (cal_SessionAt calendar observedAt) ;;
  if negb open then
    nextSession <- wrap "resolve next US market open" (cal_NextSession calendar observedAt) ;;
    Ok (mkUSFreshnessResult MarketStateClosed FreshnessStatusNotApplicable None None None
          (Some (session_Open nextSession)))
  else
    found <- wrap "resolve expected US bar"
      (latestEligibleUSBar session_fuel currentSession (fi_Interval input) observedAt (fi_CloseDelay input)) ;;
    match found with
    | None => Ok (mkUSFreshnessResult MarketStateOpen FreshnessStatusUnknown None None None None)
    | Some expected =>
        let result status delay := mkUSFreshnessResult MarketStateOpen status delay
          (Some (usbar_open expected)) (Some (usbar_close expected)) None in
        match fi_LastClosedOpenTime input with
        | None => Ok (result FreshnessStatusUnknown None)
        | Some last =>
            actual <- wrap "resolve last closed US bar" (usBarForOpen (fi_Interval input) last) ;;
            failif After (usbar_close actual) observedAt,
                   invalidWindow "last closed US bar has not closed at the observed time" ;;
            if negb (Before (usbar_open actual) (usbar_open expected)) then
              Ok (result FreshnessStatusFresh (Some 0))
            else
              delay <- wrap "calculate US data delay"
                (regularTradingDuration (usbar_close actual) (usbar_close expected)) ;;
              Ok (result FreshnessStatusDelayed (Some (Z.quot delay Second)))
        end
    end.

(** The window of the latest due bar, going back from a session; [None] is a
    nil window: nothing is due, or the calendar does not reach back. *)
Definition window_from_session (interval trigger : string) (observedAt : Time) (delay : Duration)
    (session : MarketSession) : result (option CollectionWindow) :=
  found <- latestEligibleUSBar session_fuel session interval observedAt delay ;;
  match found with
  | None => Ok None
  | Some bar => Ok (Some (mkCollectionWindow interval trigger (usbar_open bar) (usbar_close bar)
                            (Add (usbar_close bar) delay)))
  end.

Definition window_from_previous (interval trigger : string) (observedAt : Time) (delay : Duration) : result (option CollectionWindow) :=
  match cal_PreviousSession calendar observedAt with
  | Ok session => window_from_session interval trigger observedAt delay session
  | Err e => failif negb (errors_Is e ErrCalendarOutOfRange), e ;; Ok None
  | Diverge => Diverge
  end.

Definition CalculateLatestUSWindow (interval trigger : string) (observedAt : Time) (delay : Duration) : result (option CollectionWindow) :=
  failif is_nil (cal_Location calendar) || IsZero observedAt || (delay <? 0)
         || ((trigger <>s WindowTriggerClose) && (trigger <>s WindowTriggerRevision)),
         invalidWindow "latest US window input is invalid" ;;
  durationForInterval interval ;;;
  date <- DateInLocation observedAt (cal_Location calendar) ;;
  found <- cal_SessionForDate calendar date ;;
  match found with
  | Some session =>
      if Before observedAt (session_Open session) then window_from_previous interval trigger observedAt delay
      else window_from_session interval trigger observedAt delay session
  | None => window_from_previous interval trigger observedAt delay
  end.
End WithCalendar.
