(* ===== verification/FreshnessFacts.v ===== *)
(** * Correctness of the US session bars and of the freshness projection

    The hourly bars tile a session; the latest due bar is the latest one of
    the whole calendar; the trading time between two instants is the total
    length of the sessions' overlaps with them; the loops terminate. *)
From S2P Require Import Prelude Errors GoStrings GoTime External Domain Calendar CalendarFacts CalendarHours Window Freshness.

(** ** The bars of a session *)

(** [tiles o c bars]: consecutive bars of exactly an hour from [o] to [c], the
    last one cut at [c]. *)
Inductive tiles : Time -> Time -> list scheduledUSBar -> Prop :=
  | tiles_last o c : o < c <= o + Hour -> tiles o c [mkScheduledUSBar o c]
  | tiles_cons o c bars : o + Hour < c -> tiles (o + Hour) c bars ->
      tiles o c (mkScheduledUSBar o (o + Hour) :: bars).

Lemma hour_bars_spec fuel o c : o < c -> c - o <= Z.of_nat fuel * Hour ->
  exists bars, hour_bars fuel o c = Ok bars /\ tiles o c bars.
Proof.
  revert o. induction fuel as [|fuel IH]; intros o Hoc Hf; [unfold Hour in Hf; lia |].
  cbn [hour_bars]. unfold_time. destruct (Z.ltb_spec o c); [| lia].
  destruct (Z.ltb_spec c (o + Hour)).
  - exists [mkScheduledUSBar o c]. split; [| apply tiles_last; lia].
    destruct fuel; cbn [hour_bars]; unfold_time; rewrite Z.ltb_irrefl; reflexivity.
  - destruct (Z.eq_dec (o + Hour) c) as [<- | Hne].
    + exists [mkScheduledUSBar o (o + Hour)]. split; [| apply tiles_last; lia].
      destruct fuel; cbn [hour_bars]; unfold_time; rewrite Z.ltb_irrefl; reflexivity.
    + destruct (IH (o + Hour)) as (bars & -> & Ht); [lia | lia |].
      eexists. split; [reflexivity | apply tiles_cons; [lia | exact Ht]].
Qed.

Lemma hour_fuel_enough o c : o < c -> c - o <= Z.of_nat (hour_fuel o c) * Hour.
Proof.
  intros H. unfold hour_fuel. assert (0 < Hour) by reflexivity.
  pose proof (Z.div_pos (c - o) Hour ltac:(lia) ltac:(lia)).
  rewrite Z2Nat.id by lia. pose proof (Z.mul_succ_div_gt (c - o) Hour ltac:(lia)). lia.
Qed.

Lemma tiles_bounds o c bars : tiles o c bars ->
  forall b, In b bars -> o <= usbar_open b < usbar_close b /\ usbar_close b <= c.
Proof.
  assert (0 < Hour) as Hh by reflexivity.
  induction 1 as [o c Ho | o c bars Ho Ht IH]; intros b [<- | Hin]; simpl; [lia | destruct Hin | lia |].
  specialize (IH b Hin). lia.
Qed.

(** The valid input of [barsForUSSession], and its result. *)
Definition day_open (session : MarketSession) : Time :=
  Date_UTC (date_Year (session_Date session)) (date_Month (session_Date session)) (date_Day (session_Date session)) 0 0.

Lemma barsForUSSession_spec s interval : session_Validate s = Ok tt ->
  interval = BarInterval1Hour \/ interval = BarInterval1Day ->
  exists bars, barsForUSSession s interval = Ok bars /\
    (interval = BarInterval1Hour -> tiles (session_Open s) (session_Close s) bars) /\
    (interval = BarInterval1Day -> bars = [mkScheduledUSBar (day_open s) (session_Close s)]).
Proof.
  intros Hv Hi. unfold barsForUSSession. rewrite Hv. cbn [rbind].
  destruct (session_Validate_ok _ Hv) as (_ & _ & _ & Hoc).
  destruct Hi as [-> | ->].
  - destruct (hour_bars_spec _ _ _ Hoc (hour_fuel_enough _ _ Hoc)) as (bars & E & Ht). simpl.
    rewrite E. eexists. split; [reflexivity |]. split; [auto | discriminate].
  - simpl. eexists. split; [reflexivity |]. split; [discriminate | reflexivity].
Qed.

Lemma hour_bars_no_diverge fuel o c : o < c -> c - o <= Z.of_nat fuel * Hour -> hour_bars fuel o c <> Diverge.
Proof. intros H1 H2. destruct (hour_bars_spec _ _ _ H1 H2) as (? & -> & _). discriminate. Qed.

Lemma barsForUSSession_no_diverge s i : barsForUSSession s i <> Diverge.
Proof.
  unfold barsForUSSession. destruct (session_Validate s) as [[]| |] eqn:E; [| discriminate | by apply session_Validate_no_diverge in E].
  destruct (session_Validate_ok _ E) as (_ & _ & _ & Hoc). cbn [rbind]. case_if; [discriminate |]. case_if; [| discriminate].
  apply hour_bars_no_diverge; [exact Hoc | by apply hour_fuel_enough].
Qed.
#[export] Hint Resolve barsForUSSession_no_diverge : nodiv.

(** The due bar chosen: no later bar of the list is due. *)
Lemma last_due_bar_spec bars t delay b : last_due_bar bars t delay = Some b ->
  exists before after, bars = before ++ b :: after /\ usbar_close b + delay <= t /\
    Forall (fun b' => t < usbar_close b' + delay) after.
Proof.
  unfold last_due_bar. revert b. induction bars as [|x bars IH] using rev_ind; intros b; simpl; [discriminate |].
  rewrite rev_app_distr. simpl. unfold_time. destruct (Z.ltb_spec t (usbar_close x + delay)); simpl.
  - intros Hf. destruct (IH _ Hf) as (bf & af & -> & Hd & Ha). exists bf, (af ++ [x]).
    rewrite <- app_assoc. split; [reflexivity |]. split; [exact Hd |]. apply Forall_app. auto.
  - intros [= <-]. exists bars, []. auto.
Qed.

Lemma last_due_bar_none bars t delay : last_due_bar bars t delay = None ->
  Forall (fun b => t < usbar_close b + delay) bars.
Proof.
  unfold last_due_bar. intros H. apply List.Forall_forall. intros b Hin.
  apply in_rev in Hin. pose proof (List.find_none _ _ H b Hin) as Hn. unfold_time. bsimp. lia.
Qed.

(** ** The latest due bar *)
Section Latest.
Context (calendar : TradingCalendar) `{L : !CalendarLaws calendar}.
Context (interval : string) (t : Time) (delay : Duration).

Definition bar_of (s : MarketSession) (b : scheduledUSBar) : Prop :=
  exists bars, barsForUSSession s interval = Ok bars /\ In b bars.
Definition due (b : scheduledUSBar) : Prop := usbar_close b + delay <= t.

Lemma latest_no_diverge fuel s : (opens_before (session_Open s) < fuel)%nat ->
  latestEligibleUSBar calendar fuel s interval t delay <> Diverge.
Proof.
  revert s. induction fuel as [|fuel IH]; intros s Hf; [lia |]. cbn [latestEligibleUSBar].
  destruct (barsForUSSession s interval) as [bars| |] eqn:E; cbn [rbind]; [| discriminate | by apply barsForUSSession_no_diverge in E].
  destruct (last_due_bar _ _ _); [discriminate |].
  destruct (cal_PreviousSession calendar _) as [p| |] eqn:Ep; [| case_if; discriminate | by apply law_previous_nodiv in Ep].
  apply IH. destruct (law_previous _ _ Ep) as [Hin Hp]. apply law_valid in Hin as Hpv.
  apply session_Validate_ok in Hpv as (_ & _ & _ & ?).
  pose proof (opens_before_lt p (session_Open s) Hin ltac:(lia)). lia.
Qed.

(** The bars of a session lie in it, in order. *)
Lemma bar_in_session s b : bar_of s b -> session_Open s < usbar_close b <= session_Close s.
Proof.
  intros (bars & E & Hin). revert E. unfold barsForUSSession. intros H. inv_ok.
  apply session_Validate_ok in R as (_ & _ & _ & Hoc).
  destruct (interval =s BarInterval1Day); [inv_ok; destruct Hin as [<-|[]]; simpl; lia |].
  destruct (interval =s BarInterval1Hour); [| inv_ok].
  destruct (hour_bars_spec _ _ _ Hoc (hour_fuel_enough _ _ Hoc)) as (bars' & E' & Ht).
  rewrite H in E'. injection E' as <-. pose proof (tiles_bounds _ _ _ Ht _ Hin). lia.
Qed.

Lemma bars_in_order s before b after : barsForUSSession s interval = Ok (before ++ b :: after) ->
  forall b', In b' before -> usbar_close b' <= usbar_close b.
Proof.
  unfold barsForUSSession. intros H b' Hin. inv_ok. apply session_Validate_ok in R as (_ & _ & _ & Hoc).
  destruct (interval =s BarInterval1Day).
  { injection H as H. apply (f_equal length) in H. rewrite length_app in H.
    destruct before; [destruct Hin | simpl in H; lia]. }
  destruct (interval =s BarInterval1Hour); [| inv_ok].
  destruct (hour_bars_spec _ _ _ Hoc (hour_fuel_enough _ _ Hoc)) as (bars' & E' & Ht).
  rewrite H in E'. injection E' as <-. clear H. revert Ht Hin. generalize (session_Open s).
  induction before as [|x before IH]; intros o Ht Hin; [destruct Hin |].
  inversion Ht as [| ? ? ? ? Ht']; subst; [by destruct before |].
  destruct Hin as [<- | Hin]; [| by apply (IH _ Ht')].
  pose proof (tiles_bounds _ _ _ Ht' b ltac:(apply in_or_app; right; left; reflexivity)). simpl. lia.
Qed.

(** The bar returned is due, a bar of a session reached going back from [s],
    and no bar is due after it in that session or in the sessions between. *)
Definition reached (s s' : MarketSession) : Prop := s' = s \/ (In s' cal_sessions /\ session_Close s' <= session_Open s).
Definition latest_from (s : MarketSession) (b : scheduledUSBar) : Prop :=
  exists s' before after, reached s s' /\
    barsForUSSession s' interval = Ok (before ++ b :: after) /\ due b /\
    Forall (fun b' => ~ due b') after /\
    (forall s'' b'', reached s s'' -> bar_of s'' b'' -> due b'' -> s'' = s' \/ session_Close s'' <= session_Open s').

Context {O : CalendarOrder calendar L}.

Lemma latest_sound fuel s b :
  latestEligibleUSBar calendar fuel s interval t delay = Ok (Some b) -> latest_from s b.
Proof.
  revert s. induction fuel as [|fuel IH]; intros s; [discriminate |]. cbn [latestEligibleUSBar].
  destruct (barsForUSSession s interval) as [bars| |] eqn:E; [| discriminate..]. cbn [rbind].
  destruct (last_due_bar bars t delay) as [b0|] eqn:Ed.
  - intros [= <-]. destruct (last_due_bar_spec _ _ _ _ Ed) as (bf & af & -> & Hdue & Ha).
    exists s, bf, af. split; [by left |]. split; [exact E |]. split; [exact Hdue |].
    split; [eapply Forall_impl; [exact Ha |]; unfold due; intros; simpl in *; lia |].
    intros s'' b'' [-> | [_ Hle]] _ _; auto.
  - apply last_due_bar_none in Ed.
    destruct (cal_PreviousSession calendar _) as [p|e|] eqn:Ep; [| case_if; discriminate | discriminate].
    intros Hb. destruct (IH _ Hb) as (s' & bf & af & Hs' & E' & Hdue & Ha & Hall).
    destruct (law_previous _ _ Ep) as [Hin Hp]. pose proof (law_valid _ Hin) as Hpv.
    apply session_Validate_ok in Hpv as (_ & _ & _ & Hpo).
    exists s', bf, af. split; [right; destruct Hs' as [-> | [? ?]]; split; try assumption; lia |].
    split; [exact E' |]. split; [exact Hdue |]. split; [exact Ha |].
    intros s'' b'' [-> | [Hin'' Hle]] Hbar Hd''.
    + exfalso. destruct Hbar as (bars' & E'' & Hin''). rewrite E in E''. injection E'' as <-.
      rewrite List.Forall_forall in Ed. specialize (Ed _ Hin''). unfold due in Hd''. lia.
    + destruct (order_previous _ _ _ Ep Hin'' Hle) as [-> | Hlt]; (eapply Hall; [| exact Hbar | exact Hd'']).
      * by left.
      * right. split; [exact Hin'' | lia].
Qed.

(** When every session with a due bar is reached from [s], the bar returned
    closes last of all due bars of the calendar. *)
Lemma latest_is_last s b : latest_from s b ->
  (forall s' b', In s' cal_sessions -> bar_of s' b' -> due b' -> reached s s') ->
  In s cal_sessions ->
  (exists s', In s' cal_sessions /\ bar_of s' b) /\ due b /\
  forall s' b', In s' cal_sessions -> bar_of s' b' -> due b' -> usbar_close b' <= usbar_close b.
Proof.
  intros (s' & bf & af & Hs' & E & Hdue & Ha & Hall) Hreach Hins.
  assert (bar_of s' b) as Hb by (eexists; split; [exact E | apply in_or_app; right; left; reflexivity]).
  split; [exists s'; split; [destruct Hs' as [-> | [? _]]; assumption | exact Hb] |]. split; [exact Hdue |].
  intros s'' b'' Hin'' Hbar Hd''. destruct (Hall _ _ (Hreach _ _ Hin'' Hbar Hd'') Hbar Hd'') as [-> | Hle].
  - destruct Hbar as (bars & E' & Hin). rewrite E in E'. injection E' as <-.
    apply in_app_or in Hin as [Hin | [-> | Hin]]; [by apply (bars_in_order _ _ _ _ E) | reflexivity |].
    rewrite List.Forall_forall in Ha. by destruct (Ha _ Hin).
  - pose proof (bar_in_session _ _ Hbar). pose proof (bar_in_session _ _ Hb). lia.
Qed.
End Latest.

(** ** Trading time *)

(** The length of [[from, to)] inside a session. *)
Definition overlap (from to : Time) (s : MarketSession) : Z :=
  Z.max 0 (Z.min to (session_Close s) - Z.max from (session_Open s)).
Definition sum_list {A} (f : A -> Z) (l : list A) : Z := fold_right (fun a acc => f a + acc) 0 l.

Lemma sum_list_ext {A} (f g : A -> Z) l : (forall a, In a l -> f a = g a) -> sum_list f l = sum_list g l.
Proof. induction l as [|a l IH]; intros H; simpl; [reflexivity |]. rewrite (H a), IH; [reflexivity | intros; apply H; by right | by left]. Qed.

Lemma sum_list_point {A} (f g : A -> Z) l x : List.NoDup l -> In x l ->
  (forall a, In a l -> a <> x -> f a = g a) -> sum_list f l = f x - g x + sum_list g l.
Proof.
  induction l as [|a l IH]; intros Hn Hin H; [destruct Hin |]. inversion_clear Hn as [| ? ? Ha Hl]. simpl.
  destruct Hin as [-> | Hin].
  - rewrite (sum_list_ext f g l); [lia |]. intros b Hb. apply H; [by right | congruence].
  - rewrite IH; [| exact Hl | exact Hin | intros; apply H; [by right | assumption]].
    rewrite (H a); [lia | by left | congruence].
Qed.

Lemma sum_list_zero {A} (f : A -> Z) l : (forall a, In a l -> f a = 0) -> sum_list f l = 0.
Proof. induction l as [|a l IH]; intros H; simpl; [reflexivity |]. rewrite (H a), IH; [reflexivity | intros; apply H; by right | by left]. Qed.

Section Trading.
Context (calendar : TradingCalendar) `{L : !CalendarLaws calendar} {O : CalendarOrder calendar L}.

Definition trading_time (from to : Time) : Z := sum_list (overlap from to) cal_sessions.

(** The session the loop works on is the first one closing after the cursor. *)
Definition current_session (cursor : Time) (s : MarketSession) : Prop :=
  In s cal_sessions /\ cursor < session_Close s /\
  forall s', In s' cal_sessions -> s' = s \/ session_Close s' <= cursor \/ session_Close s < session_Open s'.

Lemma active_current t s : cal_SessionAt calendar t = Ok (s, true) -> current_session t s.
Proof.
  intros [Hin Ht]%law_at. split; [exact Hin |]. split; [lia |]. intros s' Hin'.
  destruct (order_disjoint s s' Hin Hin') as [-> | [? | ?]]; [by left | by right; right |]. right. left. lia.
Qed.
Lemma next_current t s s0 : cal_SessionAt calendar t = Ok (s0, false) -> cal_NextSession calendar t = Ok s ->
  current_session t s.
Proof.
  intros Ha Hn. destruct (law_next _ _ Hn) as [Hin Ht].
  pose proof (law_valid _ Hin) as (_ & _ & _ & ?)%session_Validate_ok.
  split; [exact Hin |]. split; [lia |]. intros s' Hin'.
  destruct (order_inactive _ s' _ Ha Hin') as [Hle | Hlt]; [auto |].
  destruct (order_next _ _ _ Hn Hin' Hlt) as [-> | ?]; auto.
Qed.

(** One iteration moves the overlap with the current session into the total. *)
Lemma trading_time_step cursor to s : current_session cursor s -> cursor < to ->
  trading_time cursor to = overlap cursor to s + trading_time (session_Close s) to.
Proof.
  intros (Hin & Hc & Hall) Hto. unfold trading_time.
  pose proof (law_valid _ Hin) as (_ & _ & _ & ?)%session_Validate_ok.
  rewrite (sum_list_point _ (overlap (session_Close s) to) _ s order_nodup Hin).
  - unfold overlap at 2. lia.
  - intros s' Hin' Hne. pose proof (law_valid _ Hin') as (_ & _ & _ & ?)%session_Validate_ok.
    destruct (Hall _ Hin') as [? | [? | ?]]; [done | unfold overlap; lia | unfold overlap; lia].
Qed.

Lemma trading_time_done cursor to : to <= cursor -> trading_time cursor to = 0.
Proof. intros H. apply sum_list_zero. intros s _. unfold overlap. lia. Qed.

Lemma current_no_error cursor to s1 s2 : In s1 cal_sessions -> In s2 cal_sessions ->
  session_Open s1 <= cursor -> cursor < to -> to <= session_Close s2 ->
  exists s r active, cal_SessionAt calendar cursor = Ok (r, active) /\
    (if active then Ok r else cal_NextSession calendar cursor) = Ok s /\ current_session cursor s.
Proof.
  intros H1 H2 Ho Hc Hcl. destruct (order_at_total cursor s1 s2 H1 H2 ltac:(lia)) as [[r [|]] E].
  - exists r, r, true. split; [exact E |]. split; [reflexivity |]. by apply active_current.
  - destruct (order_inactive _ s2 _ E H2) as [? | Hlt]; [lia |].
    destruct (order_next_total cursor s1 s2 H1 H2 ltac:(lia)) as [s En].
    exists s, r, false. split; [exact E |]. split; [exact En |]. by apply (next_current _ _ r).
Qed.

Lemma trading_loop_spec fuel cursor to total s1 s2 : (closes_after cursor < fuel)%nat ->
  In s1 cal_sessions -> In s2 cal_sessions -> session_Open s1 <= cursor -> to <= session_Close s2 ->
  0 <= total -> total + Z.max 0 (to - cursor) <= int64_max ->
  trading_loop calendar fuel cursor to total = Ok (total + trading_time cursor to).
Proof.
  revert cursor total. induction fuel as [|fuel IH]; intros cursor total Hf H1 H2 Ho Hcl Ht Hmax; [lia |].
  cbn [trading_loop]. unfold_time. destruct (Z.ltb_spec cursor to) as [Hlt | Hge];
    [| rewrite trading_time_done by lia; f_equal; lia].
  destruct (current_no_error _ _ _ _ H1 H2 Ho Hlt Hcl) as (s & r & active & -> & Es & Hcur).
  cbn [rbind]. rewrite Es. cbn [rbind]. rewrite (trading_time_step _ _ _ Hcur Hlt).
  destruct Hcur as (Hin & Hc & _).
  pose proof (law_valid _ Hin) as (_ & _ & _ & Hoc)%session_Validate_ok.
  set (start := if cursor <? session_Open s then session_Open s else cursor).
  set (stop := if session_Close s <? to then session_Close s else to).
  assert (start = Z.max cursor (session_Open s)) as -> by (unfold start; destruct (Z.ltb_spec cursor (session_Open s)); lia).
  assert (stop = Z.min to (session_Close s)) as -> by (unfold stop; destruct (Z.ltb_spec (session_Close s) to); lia).
  set (o := overlap cursor to s).
  assert ((if Z.max cursor (session_Open s) <? Z.min to (session_Close s)
           then wrap64 (total + Sub (Z.min to (session_Close s)) (Z.max cursor (session_Open s))) else total)
          = total + o) as ->.
  { unfold o, overlap, Sub, int64_min. unfold int64_max in *. case_if; bsimp; [| lia].
    rewrite wrap64_id; unfold int64_range, int64_min, int64_max; lia. }
  assert (0 <= o) by (unfold o, overlap; lia).
  assert (o <= session_Close s - cursor) by (unfold o, overlap; lia).
  destruct (Z.ltb_spec (session_Close s) to); simpl.
  - rewrite IH; [f_equal; lia | | exact H1 | exact H2 | lia | exact Hcl | lia | lia].
    pose proof (closes_after_lt s cursor Hin Hc). lia.
  - rewrite (trading_time_done (session_Close s)) by lia. f_equal. lia.
Qed.

Lemma trading_loop_no_diverge fuel cursor to total : (closes_after cursor < fuel)%nat ->
  trading_loop calendar fuel cursor to total <> Diverge.
Proof.
  revert cursor total. induction fuel as [|fuel IH]; intros cursor total Hf; [lia |].
  cbn [trading_loop]. case_if; [| discriminate].
  destruct (cal_SessionAt calendar cursor) as [[r a]| |] eqn:Ea; cbn [rbind]; [| discriminate | by apply law_at_nodiv in Ea].
  destruct (if a then Ok r else cal_NextSession calendar cursor) as [s| |] eqn:Es; cbn [rbind]; [| discriminate |].
  - case_if; [discriminate |]. apply IH.
    assert (In s cal_sessions /\ cursor < session_Close s) as [Hin Hc].
    { destruct a; [injection Es as <-; apply law_at in Ea as [? ?]; split; [done | lia] |].
      apply law_next in Es as [Hin ?]. pose proof (law_valid _ Hin) as (_ & _ & _ & ?)%session_Validate_ok.
      split; [exact Hin | lia]. }
    pose proof (closes_after_lt s cursor Hin Hc). lia.
  - destruct a; [discriminate |]. by apply law_next_nodiv in Es.
Qed.
End Trading.

(** ** Termination *)
Section Totality.
Context (calendar : TradingCalendar) `{L : !CalendarLaws calendar}.

Lemma latestEligible_no_diverge s i t d : latestEligibleUSBar calendar session_fuel s i t d <> Diverge.
Proof.
  apply (latest_no_diverge calendar (L := L)). pose proof (opens_before_le (c := calendar) (session_Open s)).
  pose proof session_fuel_value. lia.
Qed.
Lemma regularTradingDuration_no_diverge from to : regularTradingDuration calendar from to <> Diverge.
Proof.
  unfold regularTradingDuration. case_if; [discriminate |]. apply (trading_loop_no_diverge calendar (L := L)).
  pose proof (closes_after_le (c := calendar) from). pose proof session_fuel_value. lia.
Qed.
Lemma UTCDate_no_diverge t : UTCDate t <> Diverge.
Proof. unfold UTCDate, NewMarketDate. no_diverge. Qed.
Lemma usBarForOpen_no_diverge i t : usBarForOpen calendar i t <> Diverge.
Proof.
  unfold usBarForOpen. intros H. repeat (inv_div_step; cbv zeta beta in * ).
  all: first [exact (UTCDate_no_diverge _ H) | exact (DateInLocation_no_diverge _ _ H) |
    exact (law_date_nodiv _ H) | exact (barsForUSSession_no_diverge _ _ H)].
Qed.

Lemma CalculateUSFreshness_no_diverge input : CalculateUSFreshness calendar input <> Diverge.
Proof.
  unfold CalculateUSFreshness. intros H. repeat (inv_div_step; cbv zeta beta in * ).
  all: first [exact (durationForInterval_no_diverge _ H) | exact (law_at_nodiv _ H) | exact (law_next_nodiv _ H) |
    exact (latestEligible_no_diverge _ _ _ _ H) | exact (usBarForOpen_no_diverge _ _ H) |
    exact (regularTradingDuration_no_diverge _ _ H)].
Qed.

Lemma window_from_session_no_diverge i g t d s : window_from_session calendar i g t d s <> Diverge.
Proof.
  unfold window_from_session. destruct (latestEligibleUSBar _ _ _ _ _ _) as [[b|]| |] eqn:E; try discriminate.
  by apply latestEligible_no_diverge in E.
Qed.
Lemma window_from_previous_no_diverge i g t d : window_from_previous calendar i g t d <> Diverge.
Proof.
  unfold window_from_previous.
  destruct (cal_PreviousSession calendar t) eqn:E; [apply window_from_session_no_diverge | case_if; discriminate |].
  by apply law_previous_nodiv in E.
Qed.
Lemma CalculateLatestUSWindow_no_diverge i g t d : CalculateLatestUSWindow calendar i g t d <> Diverge.
Proof.
  unfold CalculateLatestUSWindow. case_if; [discriminate |].
  destruct (durationForInterval i) eqn:Ei; cbn [rbind]; [| discriminate | by apply durationForInterval_no_diverge in Ei].
  destruct (DateInLocation _ _) as [dt| |] eqn:Ed; cbn [rbind]; [| discriminate | by apply DateInLocation_no_diverge in Ed].
  destruct (cal_SessionForDate _ _) as [[s|]| |] eqn:Es; cbn [rbind];
    [case_if; [apply window_from_previous_no_diverge | apply window_from_session_no_diverge]
    | apply window_from_previous_no_diverge | discriminate | by apply law_date_nodiv in Es].
Qed.
End Totality.
#[export] Hint Resolve CalculateUSFreshness_no_diverge CalculateLatestUSWindow_no_diverge
  regularTradingDuration_no_diverge usBarForOpen_no_diverge latestEligible_no_diverge UTCDate_no_diverge : nodiv.

Lemma sum_list_nonneg {A} (f : A -> Z) l : (forall a, 0 <= f a) -> 0 <= sum_list f l.
Proof. intros Hf. induction l as [|a l IH]; simpl; [lia | specialize (Hf a); lia]. Qed.

Lemma trading_time_nonneg calendar (L : CalendarLaws calendar) from to : 0 <= trading_time calendar from to.
Proof. apply sum_list_nonneg. intros s. unfold overlap. lia. Qed.

Lemma trading_duration_bounded calendar (L : CalendarLaws calendar) (O : CalendarOrder calendar L) from to s1 s2 :
  In s1 cal_sessions -> In s2 cal_sessions -> session_Open s1 <= from -> to <= session_Close s2 ->
  to - from <= int64_max ->
  regularTradingDuration calendar from to = Ok (trading_time calendar from to).
Proof.
  intros H1 H2 Ho Hc Hmax. unfold regularTradingDuration, Before.
  destruct (Z.ltb_spec from to) as [Hlt | Hge]; simpl; [| rewrite trading_time_done by lia; reflexivity].
  rewrite (trading_loop_spec calendar _ _ _ _ s1 s2 (L := L)); try assumption; try lia; [reflexivity |].
  pose proof (closes_after_le (c := calendar) from). pose proof session_fuel_value. lia.
Qed.

(** ** Properties *)

(** The hourly bars of a session cover it exactly: consecutive, an hour
    each from the open, the last one cut at the close. *)
Theorem us_session_bars_tile s : session_Validate s = Ok tt ->
  exists bars, barsForUSSession s BarInterval1Hour = Ok bars /\ tiles (session_Open s) (session_Close s) bars.
Proof.
  intros Hv. destruct (barsForUSSession_spec s BarInterval1Hour Hv) as (bars & E & Ht & _); [by left |].
  exists bars. auto.
Qed.

Lemma us_session_bars_tile_witness : exists bars,
  barsForUSSession monday_session BarInterval1Hour = Ok bars /\
  tiles (session_Open monday_session) (session_Close monday_session) bars.
Proof. apply (us_session_bars_tile monday_session). vm_compute. reflexivity. Defined.

Section LatestWindow.
Context (calendar : TradingCalendar) `{L : !CalendarLaws calendar} {O : CalendarOrder calendar L}.
Context (interval trigger : string) (t : Time) (delay : Duration).

(** A window that is the latest due bar of the calendar. *)
Definition latest_due_window (w : CollectionWindow) : Prop :=
  win_Interval w = interval /\ win_Trigger w = trigger /\ win_EligibleAt w = win_RangeEnd w + delay /\
  win_EligibleAt w <= t /\
  (exists s, In s cal_sessions /\ bar_of interval s (mkScheduledUSBar (win_RangeStart w) (win_RangeEnd w))) /\
  forall s b, In s cal_sessions -> bar_of interval s b -> due t delay b -> usbar_close b <= win_RangeEnd w.

Definition due_reached (s : MarketSession) : Prop :=
  forall s' b', In s' cal_sessions -> bar_of interval s' b' -> due t delay b' -> reached calendar s s'.

Lemma window_from_session_latest s w : In s cal_sessions -> due_reached s ->
  window_from_session calendar interval trigger t delay s = Ok (Some w) -> latest_due_window w.
Proof.
  unfold window_from_session. intros Hin Hreach H. apply rbind_ok in H as ([b|] & Eb & H); [| discriminate].
  injection H as <-. apply (latest_sound calendar interval t delay) in Eb.
  destruct (latest_is_last calendar interval t delay s b Eb Hreach Hin) as (Hbar & Hd & Hall).
  destruct b as [o c]. repeat split; assumption || reflexivity.
Qed.

(** With a non-negative delay, a session with a due bar has opened. *)
Lemma due_opened s b : 0 <= delay -> bar_of interval s b -> due t delay b -> session_Open s < t.
Proof. intros Hdel Hb Hd. pose proof (bar_in_session interval s b Hb). unfold due in Hd. lia. Qed.

Lemma window_from_previous_latest w :
  (forall s, In s cal_sessions -> session_Open s < t -> session_Close s <= t) -> 0 <= delay ->
  window_from_previous calendar interval trigger t delay = Ok (Some w) -> latest_due_window w.
Proof.
  intros Hclosed Hdel. unfold window_from_previous.
  destruct (cal_PreviousSession calendar t) as [p| |] eqn:Ep; [| case_if; discriminate | discriminate].
  apply window_from_session_latest; [by eapply law_previous |].
  intros s b Hin Hb Hd. pose proof (Hclosed _ Hin (due_opened _ _ Hdel Hb Hd)).
  destruct (order_previous _ _ _ Ep Hin) as [-> | ?]; [done | by left | right; split; [exact Hin | lia]].
Qed.
End LatestWindow.

(** The latest US window is one bar of a session of the calendar, due at
    the observed instant, and no due bar of the calendar closes after it. *)
Theorem latest_us_window_is_latest calendar (L : CalendarLaws calendar) (O : CalendarOrder calendar L)
    interval trigger t delay w :
  CalculateLatestUSWindow calendar interval trigger t delay = Ok (Some w) ->
  latest_due_window calendar interval trigger t delay w.
Proof.
  unfold CalculateLatestUSWindow. intros H. inv_ok.
  assert (0 <= delay) as Hdel by (bsimp; lia).
  assert (forall s, In s cal_sessions -> r1 = Some s \/
    (session_Close s <= t /\ forall s0, r1 = Some s0 -> session_Close s < session_Open s0) \/ t < session_Open s) as Htoday.
  { intros s Hin. by apply (order_today t r0 r1 s). }
  assert (window_from_previous calendar interval trigger t delay = Ok (Some w) ->
    (forall s0, r1 = Some s0 -> t < session_Open s0) -> latest_due_window calendar interval trigger t delay w) as Hprev.
  { intros Hw Hr1. apply (window_from_previous_latest calendar interval trigger t delay w); [| exact Hdel | exact Hw]. intros s Hin Ho.
    destruct (Htoday _ Hin) as [E | [[? _] | ?]]; [specialize (Hr1 _ E); lia | done | lia]. }
  destruct r1 as [s|]; [| by apply Hprev]. unfold Before in H. destruct (Z.ltb_spec t (session_Open s)).
  { apply Hprev; [exact H | by intros ? [= <-]]. }
  apply (window_from_session_latest calendar interval trigger t delay s w) in H; [exact H | by apply (law_session r0 s R1) |].
  intros s' b' Hin Hb Hd. pose proof (due_opened interval t delay s' b' Hdel Hb Hd).
  destruct (Htoday _ Hin) as [[= ->] | [[? Hs] | ?]]; [by left | | lia].
  right. split; [exact Hin |]. specialize (Hs s eq_refl). lia.
Qed.

Definition official_order : CalendarOrder (nyse_TradingCalendar official) (nyse_calendar_laws official) :=
  nyse_order official Concrete.new_york eq_refl officialNYSERules_ok.
(** Sunday evening: the latest bar is Friday's last one. *)
Definition sunday : Time := Date_UTC 2026 7 26 22 0.
Definition friday_bar : CollectionWindow := mkCollectionWindow BarInterval1Hour WindowTriggerClose
  (local_instant (-14400) 739820 15 30) (local_instant (-14400) 739820 16 0) (local_instant (-14400) 739820 16 1).

Lemma latest_us_window_is_latest_witness :
  latest_due_window (nyse_TradingCalendar official) BarInterval1Hour WindowTriggerClose sunday Minute friday_bar.
Proof.
  apply (latest_us_window_is_latest (nyse_TradingCalendar official) (nyse_calendar_laws official) official_order).
  vm_compute. reflexivity.
Defined.

(** Between two instants of the calendar's span the trading duration is the
    total length of the sessions inside them, and there is no error: nights,
    weekends and holidays count nothing. *)
Theorem trading_duration_is_session_overlap calendar (L : CalendarLaws calendar) (O : CalendarOrder calendar L) from to s1 s2 :
  In s1 cal_sessions -> In s2 cal_sessions -> session_Open s1 <= from -> to <= session_Close s2 ->
  to - from <= int64_max ->
  regularTradingDuration calendar from to = Ok (trading_time calendar from to).
Proof.
  apply (trading_duration_bounded calendar L O).
Qed.

Definition friday : MarketDate := mkMarketDate 2026 7 24.
Definition friday_session : MarketSession := mkMarketSession friday
  (local_instant (-14400) 739820 9 30) (local_instant (-14400) 739820 16 0).
(** From Friday 15:30 to Monday 10:30 the market trades for an hour and a half. *)
Lemma trading_duration_is_session_overlap_witness :
  regularTradingDuration (nyse_TradingCalendar official) (session_Close friday_session - 30 * Minute)
    (session_Open monday_session + Hour) = Ok (90 * Minute).
Proof.
  rewrite (trading_duration_is_session_overlap (nyse_TradingCalendar official) (nyse_calendar_laws official) official_order
    _ _ friday_session monday_session).
  - vm_compute. reflexivity.
  - apply (nyse_sessions_complete official friday). vm_compute. reflexivity.
  - apply (nyse_sessions_complete official monday). vm_compute. reflexivity.
  - vm_compute. discriminate.
  - vm_compute. discriminate.
  - vm_compute. discriminate.
Defined.

Lemma usBarForOpen_session calendar (L : CalendarLaws calendar) interval open b :
  usBarForOpen calendar interval open = Ok b ->
  exists s, In s cal_sessions /\ bar_of interval s b.
Proof.
  unfold usBarForOpen. intros H. inv_ok. destruct r0 as [s|]; [| discriminate]. inv_ok.
  destruct (List.find _ _) as [b0|] eqn:Ef; [| discriminate]. injection H as ->.
  exists s. split; [by apply (law_session r s) | exists r0]. split; [exact R1 |]. apply List.find_some in Ef as [Hin _]. exact Hin.
Qed.

Lemma latest_from_session calendar (L : CalendarLaws calendar) interval t delay s b :
  latest_from calendar interval t delay s b -> exists s', reached calendar s s' /\ bar_of interval s' b.
Proof.
  intros (s' & bf & af & Hs' & E & _). exists s'. split; [exact Hs' |]. eexists. split; [exact E |].
  apply in_or_app. right. left. reflexivity.
Qed.

(** The delay between the bar that should be stored and the last stored one. *)
Definition data_delay (calendar : TradingCalendar) {L : CalendarLaws calendar} (actual expected : scheduledUSBar) : option Z :=
  if usbar_open expected <=? usbar_open actual then Some 0
  else Some (trading_time calendar (usbar_close actual) (usbar_close expected) / Second).

Definition freshness_of (actual expected : scheduledUSBar) : string :=
  if usbar_open expected <=? usbar_open actual then FreshnessStatusFresh else FreshnessStatusDelayed.

(** In an open market with a due bar and a stored bar, freshness is decided
    by the two bars: fresh with no delay when the stored one is at least the
    due one, else delayed by the trading time between their closes in whole
    seconds. The due bar is the latest due one of its session or before. *)
Theorem us_freshness_of_stored_bar calendar (L : CalendarLaws calendar) (O : CalendarOrder calendar L) input
    session last expected actual :
  not_nil (cal_Location calendar) = true -> fi_ObservedAt input <> 0 -> 0 <= fi_CloseDelay input ->
  fi_Interval input = BarInterval1Hour \/ fi_Interval input = BarInterval1Day ->
  fi_LastClosedOpenTime input = Some last ->
  cal_SessionAt calendar (fi_ObservedAt input) = Ok (session, true) ->
  latestEligibleUSBar calendar session_fuel session (fi_Interval input) (fi_ObservedAt input) (fi_CloseDelay input)
    = Ok (Some expected) ->
  usBarForOpen calendar (fi_Interval input) last = Ok actual -> usbar_close actual <= fi_ObservedAt input ->
  usbar_close expected - usbar_close actual <= int64_max ->
  CalculateUSFreshness calendar input =
    Ok (mkUSFreshnessResult MarketStateOpen (freshness_of actual expected) (data_delay calendar actual expected)
          (Some (usbar_open expected)) (Some (usbar_close expected)) None) /\
  latest_from calendar (fi_Interval input) (fi_ObservedAt input) (fi_CloseDelay input) session expected.
Proof.
  intros Hloc Ht Hd Hi Hlast Hat He Ha Hclosed Hmax. pose proof (latest_sound calendar (L := L) _ _ _ (O := O) _ _ _ He) as Hfrom.
  split; [| exact Hfrom]. destruct (usBarForOpen_session calendar L _ _ _ Ha) as (s1 & H1 & Hb1).
  destruct (latest_from_session calendar L _ _ _ _ _ Hfrom) as (s2 & Hs2 & Hb2).
  assert (In s2 cal_sessions) as H2 by (destruct Hs2 as [-> | [? _]]; [by eapply law_at | done]).
  pose proof (bar_in_session _ _ _ Hb1). pose proof (bar_in_session _ _ _ Hb2).
  unfold CalculateUSFreshness. apply negb_true_iff in Hloc. rewrite Hloc. unfold_time.
  destruct (Z.eqb_spec (fi_ObservedAt input) 0); [done |]. destruct (Z.ltb_spec (fi_CloseDelay input) 0); [lia |].
  assert (exists d, durationForInterval (fi_Interval input) = Ok d) as [d ->]
    by (destruct Hi as [-> | ->]; eexists; reflexivity).
  cbn [rbind]. rewrite Hat. cbn [wrap rbind negb]. rewrite He. cbn [wrap rbind]. rewrite Hlast, Ha. cbn [wrap rbind].
  unfold freshness_of, data_delay.
  destruct (Z.ltb_spec (fi_ObservedAt input) (usbar_close actual)); [lia |].
  destruct (Z.ltb_spec (usbar_open actual) (usbar_open expected)), (Z.leb_spec (usbar_open expected) (usbar_open actual));
    try lia; cbn [negb]; [| reflexivity].
  rewrite (trading_duration_bounded calendar _ _ _ _ s1 s2) by (assumption || lia). cbn [wrap rbind].
  rewrite Z.quot_div_nonneg; [reflexivity | apply trading_time_nonneg | reflexivity].
Qed.

(** Monday 12:00: Friday's last hour is stored, Monday's 10:30-11:30 bar is due. *)
Definition monday_noon : USFreshnessInput := mkUSFreshnessInput (local_instant (-14400) 739823 12 0)
  BarInterval1Hour Minute (Some (local_instant (-14400) 739820 15 30)).
Lemma us_freshness_of_stored_bar_witness :
  CalculateUSFreshness (nyse_TradingCalendar official) monday_noon =
    Ok (mkUSFreshnessResult MarketStateOpen FreshnessStatusDelayed (Some 7200)
          (Some (local_instant (-14400) 739823 10 30)) (Some (local_instant (-14400) 739823 11 30)) None).
Proof.
  refine (eq_trans (proj1 (us_freshness_of_stored_bar (nyse_TradingCalendar official) (nyse_calendar_laws official) official_order
    monday_noon monday_session (local_instant (-14400) 739820 15 30)
    (mkScheduledUSBar (local_instant (-14400) 739823 10 30) (local_instant (-14400) 739823 11 30))
    (mkScheduledUSBar (local_instant (-14400) 739820 15 30) (local_instant (-14400) 739820 16 0)) _ _ _ _ _ _ _ _ _ _)) _);
    first [by left | vm_compute; first [reflexivity | discriminate]].
Defined.

(** C25. The schedulers' session loops terminate against every calendar of the
    interface: freshness, the latest window and the trading duration always
    return a result or an error. *)
Theorem us_scheduling_terminates calendar (L : CalendarLaws calendar) :
  (forall input, CalculateUSFreshness calendar input <> Diverge) /\
  (forall interval trigger t delay, CalculateLatestUSWindow calendar interval trigger t delay <> Diverge) /\
  (forall from to, regularTradingDuration calendar from to <> Diverge).
Proof.
  split; [intros; by apply (CalculateUSFreshness_no_diverge calendar (L := L)) |].
  split; intros; [by apply (CalculateLatestUSWindow_no_diverge calendar (L := L)) |
    by apply (regularTradingDuration_no_diverge calendar (L := L))].
Qed.
