(* ===== verification/CatchUp.v ===== *)
(** * internal/domain/ingestion.go and internal/scheduler/catchup.go

    The ingestion records, and the window lists of the catch-up: every expected
    window from a boundary, the first missing groups of them, and the checkpoint
    check. The continuous loop has as many iterations as there are bars between
    the boundary and the latest window. *)
From S2P Require Import Prelude Errors GoStrings GoTime External Domain Calendar CalendarFacts Window Freshness.

(** ** internal/domain/ingestion.go *)
Record IngestionRun := mkIngestionRun {
  run_ID : ID; run_RunKey : string; run_RunType : string; run_TriggerType : string; run_Status : string;
  run_ScheduledAt : option Time; run_StartedAt : option Time; run_FinishedAt : option Time;
  run_RequestedBy : option string; run_TaskCount : Z; run_SuccessCount : Z; run_FailedCount : Z;
  run_Context : string; run_ErrorSummary : string; run_CreatedAt : Time }.

Record IngestionTask := mkIngestionTask {
  task_ID : ID; task_RunID : ID; task_SubscriptionID : ID; task_RetryOfTaskID : option ID;
  task_RangeStart : Time; task_RangeEnd : Time; task_Status : string; task_AttemptCount : Z;
  task_MaxAttempts : Z; task_NextAttemptAt : option Time; task_LockedBy : option string;
  task_LockedUntil : option Time; task_StartedAt : option Time; task_FinishedAt : option Time;
  task_ProviderRequestID : option string; task_ErrorCode : option string; task_ErrorMessage : option string;
  task_ErrorDetails : string; task_CanceledBy : option string; task_CancelReason : option string;
  task_CreatedAt : Time; task_UpdatedAt : Time }.

Record IngestionCheckpoint := mkIngestionCheckpoint {
  ckpt_SubscriptionID : ID; ckpt_LastSuccessOpenTime : option Time; ckpt_LastClosedOpenTime : option Time;
  ckpt_LastAttemptAt : option Time; ckpt_LastSuccessAt : option Time; ckpt_ConsecutiveFailures : Z;
  ckpt_UpdatedAt : Time }.

Record TaskClaim := mkTaskClaim { claim_Task : IngestionTask }.

(** ** Expected windows *)
Definition validateCheckpoint (subscriptionID : ID) (checkpoint : IngestionCheckpoint) : result unit :=
  failif (ckpt_SubscriptionID checkpoint <>id subscriptionID) || IsZero (ckpt_UpdatedAt checkpoint)
         || (ckpt_ConsecutiveFailures checkpoint <? 0) || opt_test IsZero (ckpt_LastClosedOpenTime checkpoint),
         Wrap "invalid scheduling checkpoint" (Sentinel ErrInvalidData) ;;
  Ok tt.

Definition limit_allows (limit : Z) (windows : list CollectionWindow) : bool := (limit <=? 0) || (llen windows <? limit).

Fixpoint continuous_loop (fuel : nat) (interval : string) (duration delay : Duration) (limit : Z) (last open : Time)
    (windows : list CollectionWindow) : result (list CollectionWindow) :=
  if limit_allows limit windows && negb (After open last) then
    match fuel with
    | O => Diverge
    | S fuel =>
        let closeAt := Add open duration in
        continuous_loop fuel interval duration delay limit last closeAt
          (windows ++ [mkCollectionWindow interval WindowTriggerClose open closeAt (Add closeAt delay)])
    end
  else Ok windows.

Definition continuous_fuel (open last : Time) (duration : Duration) : nat := Z.to_nat ((last - open) / duration + 1).

Definition expectedContinuousWindows (interval : string) (boundary : Time) (latest : CollectionWindow)
    (delay : Duration) (limit : Z) : result (list CollectionWindow) :=
  duration <- durationForInterval interval ;;
  let open := Truncate boundary duration in
  let open := if negb (After (Add open duration) boundary) then Add open duration else open in
  continuous_loop (continuous_fuel open (win_RangeStart latest) duration) interval duration delay limit
    (win_RangeStart latest) open [].

Definition sessionDateBefore (date : MarketDate) (stop : Time) (location : Location) : bool :=
  let '(year, month, day) := CivilDate_In stop location in
  (date_Year date <? year)
  || ((date_Year date =? year) && ((date_Month date <? month) || ((date_Month date =? month) && (date_Day date <? day)))).

(** The bars of one session that close after the boundary and open by the
    latest window's start; [None] is the early return at the limit. *)
Fixpoint us_session_windows (bars : list scheduledUSBar) (interval : string) (boundary last : Time) (delay : Duration)
    (limit : Z) (windows : list CollectionWindow) : list CollectionWindow * bool :=
  match bars with
  | [] => (windows, false)
  | bar :: bars =>
      if After (usbar_close bar) boundary && negb (After (usbar_open bar) last) then
        let windows := windows ++ [mkCollectionWindow interval WindowTriggerClose (usbar_open bar) (usbar_close bar)
                                     (Add (usbar_close bar) delay)] in
        if (0 <? limit) && (llen windows =? limit) then (windows, true)
        else us_session_windows bars interval boundary last delay limit windows
      else us_session_windows bars interval boundary last delay limit windows
  end.

(** The value is normalised by [time.Date] and checked again by [NewMarketDate]. *)
Definition next_market_date (date : MarketDate) : result MarketDate :=
  let value := addDays date 1 in NewMarketDate (date_Year value) (date_Month value) (date_Day value).

Section WithCalendar.
Context (calendar : TradingCalendar).

Fixpoint us_loop (fuel : nat) (location : Location) (interval : string) (boundary : Time) (latest : CollectionWindow)
    (delay : Duration) (limit : Z) (date : MarketDate) (windows : list CollectionWindow) : result (list CollectionWindow) :=
  if limit_allows limit windows then
    match fuel with
    | O => Diverge
    | S fuel =>
        found <- cal_SessionForDate calendar date ;;
        let* (windows, full) :=
          match found with
          | None => Ok (windows, false)
          | Some session =>
              bars <- barsForUSSession session interval ;;
              Ok (us_session_windows bars interval boundary (win_RangeStart latest) delay limit windows)
          end ;;
        if full : bool then Ok windows
        else if negb (sessionDateBefore date (win_RangeEnd latest) location) then Ok windows
        else
          date <- next_market_date date ;;
          us_loop fuel location interval boundary latest delay limit date windows
    end
  else Ok windows.

Definition expectedUSWindows (interval : string) (boundary : Time) (latest : CollectionWindow) (delay : Duration)
    (limit : Z) : result (list CollectionWindow) :=
  match cal_Location calendar with
  | None => Err (Plain "US catch-up trading calendar is required")
  | Some location =>
      date <- DateInLocation boundary (Some location) ;;
      us_loop session_fuel location interval boundary latest delay limit date []
  end.
End WithCalendar.

(** ** Missing windows

    The sets of instants are maps keyed by [UnixNano]. *)
Definition nano_set (existing : list Time) : gset Z := list_to_set (map UnixNano existing).
Definition nano_present (present : gset Z) (open : Time) : bool := bool_decide (UnixNano open ∈ present).

(** The inner loop: extend the group over the next missing candidates. *)
Fixpoint extend_group (present : gset Z) (maximumBars barCount : Z) (group : CollectionWindow)
    (candidates : list CollectionWindow) : CollectionWindow * list CollectionWindow :=
  match candidates with
  | [] => (group, [])
  | w :: rest =>
      if barCount <? maximumBars then
        if nano_present present (win_RangeStart w) then (group, candidates)
        else extend_group present maximumBars (barCount + 1)
               (mkCollectionWindow (win_Interval group) (win_Trigger group) (win_RangeStart group) (win_RangeEnd w)
                  (win_EligibleAt w)) rest
      else (group, candidates)
  end.

(** The outer loop. Each iteration consumes a candidate, so the length of the
    list is enough fuel. *)
Fixpoint groups_loop (fuel : nat) (present : gset Z) (maximumBars maximumGroups : Z)
    (candidates groups : list CollectionWindow) : list CollectionWindow :=
  match fuel, candidates with
  | S fuel, w :: rest =>
      if llen groups <? maximumGroups then
        if nano_present present (win_RangeStart w) then groups_loop fuel present maximumBars maximumGroups rest groups
        else
          let '(group, rest) := extend_group present maximumBars 1 w rest in
          groups_loop fuel present maximumBars maximumGroups rest (groups ++ [group])
      else groups
  | _, _ => groups
  end.

Definition missingWindowGroups (candidates : list CollectionWindow) (existing : list Time)
    (maximumBars maximumGroups : Z) : list CollectionWindow :=
  groups_loop (length candidates) (nano_set existing) maximumBars maximumGroups candidates [].

Definition allWindowsPresent (candidates : list CollectionWindow) (existing : list Time) : bool :=
  forallb (fun w => nano_present (nano_set existing) (win_RangeStart w)) candidates.
