(* ===== verification/CatchUpFacts.v ===== *)
(** * Correctness of the catch-up windows

    The continuous windows are every bar between the boundary and the latest
    window; the groups are the runs of missing candidates, cut at the maximum
    length and the maximum number; the loops terminate. *)
From S2P Require Import Prelude Errors GoStrings GoTime External Domain Calendar CalendarFacts CalendarHours Window Freshness FreshnessFacts CatchUp.

(** ** Continuous windows *)
Definition continuous_window (interval : string) (d delay open : Z) : CollectionWindow :=
  mkCollectionWindow interval WindowTriggerClose open (open + d) (open + d + delay).

(** The bars opening at [open], [open + d], ... *)
Definition bars_from (interval : string) (d delay : Z) (n : nat) (open : Time) : list CollectionWindow :=
  map (fun k => continuous_window interval d delay (open + Z.of_nat k * d)) (List.seq 0 n).

Lemma bars_from_S i d delay n open :
  bars_from i d delay (S n) open = continuous_window i d delay open :: bars_from i d delay n (open + d).
Proof.
  unfold bars_from. simpl. f_equal; [f_equal; lia |]. rewrite <- seq_shift, map_map.
  apply map_ext. intros k. f_equal. lia.
Qed.

(** How many bars open in [[open, last]]. *)
Definition bar_count (d open last : Z) : nat := if last <? open then 0 else Z.to_nat ((last - open) / d + 1).

Lemma continuous_loop_spec fuel i d delay last open ws : 0 < d -> (bar_count d open last <= fuel)%nat ->
  continuous_loop fuel i d delay 0 last open ws = Ok (ws ++ bars_from i d delay (bar_count d open last) open).
Proof.
  intros Hd. revert open ws. induction fuel as [|fuel IH]; intros open ws Hf.
  - unfold bar_count in *. cbn [continuous_loop limit_allows Z.leb orb andb]. unfold limit_allows, After. simpl.
    destruct (Z.ltb_spec last open); [by rewrite app_nil_r |].
    pose proof (Z.div_pos (last - open) d ltac:(lia) Hd). lia.
  - cbn [continuous_loop]. unfold limit_allows, After. simpl. unfold bar_count in *.
    destruct (Z.ltb_spec last open) as [|Hle]; [by rewrite app_nil_r |]. simpl.
    pose proof (Z.div_pos (last - open) d ltac:(lia) Hd) as Hq.
    replace (Z.to_nat ((last - open) / d + 1)) with (S (Z.to_nat ((last - open) / d))) in * by lia.
    rewrite bars_from_S. unfold Add.
    assert (bar_count d (open + d) last = Z.to_nat ((last - open) / d)) as Hc.
    { unfold bar_count. destruct (Z.ltb_spec last (open + d)) as [Hlt | Hge].
      - rewrite Z.div_small by lia. reflexivity.
      - replace (last - (open + d)) with (last - open + (-1) * d) by lia. rewrite Z.div_add by lia. f_equal. lia. }
    rewrite IH; unfold bar_count in Hc; rewrite Hc; [| lia]. rewrite <- app_assoc. reflexivity.
Qed.

(** The first bar of the list: the one containing the boundary's next instant. *)
Lemma first_open_spec d boundary : 0 < d ->
  let t := Truncate boundary d in
  let open := if negb (After (Add t d) boundary) then Add t d else t in
  open = t /\ boundary - d < open <= boundary.
Proof.
  intros Hd t. pose proof (Truncate_le boundary d Hd) as Hl. fold t in Hl. unfold After, Add.
  destruct (Z.ltb_spec boundary (t + d)); simpl; lia.
Qed.

Lemma expectedContinuousWindows_ok interval boundary latest delay d : durationForInterval interval = Ok d ->
  expectedContinuousWindows interval boundary latest delay 0 =
  Ok (bars_from interval d delay (bar_count d (Truncate boundary d) (win_RangeStart latest)) (Truncate boundary d)).
Proof.
  intros Hd. unfold expectedContinuousWindows. rewrite Hd. simpl. pose proof (durationForInterval_pos _ _ Hd) as Hp.
  destruct (first_open_spec d boundary Hp) as [-> _].
  rewrite continuous_loop_spec; [reflexivity | exact Hp |].
  unfold bar_count, continuous_fuel. case_if; lia.
Qed.

Lemma bars_from_In i d delay n open w : In w (bars_from i d delay n open) <->
  exists k, 0 <= k < Z.of_nat n /\ w = continuous_window i d delay (open + k * d).
Proof.
  unfold bars_from. rewrite in_map_iff. split.
  - intros (k & <- & Hk%in_seq). exists (Z.of_nat k). split; [lia | reflexivity].
  - intros (k & Hk & ->). exists (Z.to_nat k). rewrite in_seq, Z2Nat.id by lia. split; [reflexivity | lia].
Qed.

(** ** Missing groups *)
Section Groups.
Context (present : gset Z) (maximumBars maximumGroups : Z).

Definition missing (w : CollectionWindow) : bool := negb (nano_present present (win_RangeStart w)).

(** The window of a group of candidates: the first one's start, the last
    one's end and eligibility. *)
Definition window_of_group (first : CollectionWindow) (rest : list CollectionWindow) : CollectionWindow :=
  let l := List.last rest first in
  mkCollectionWindow (win_Interval first) (win_Trigger first) (win_RangeStart first) (win_RangeEnd l) (win_EligibleAt l).

Lemma window_of_group_app first rest w :
  window_of_group (window_of_group first [w]) rest = window_of_group first (w :: rest).
Proof.
  unfold window_of_group. destruct rest as [|x rest]; [reflexivity |].
  change (List.last (w :: x :: rest) first) with (List.last (x :: rest) first). cbv zeta.
  rewrite (last_cons_default rest x _ first). reflexivity.
Qed.
Lemma window_of_group_nil w : window_of_group w [] = w.
Proof. by destruct w. Qed.

Lemma extend_group_spec barCount group candidates g rest : extend_group present maximumBars barCount group candidates = (g, rest) ->
  exists taken, candidates = taken ++ rest /\ g = window_of_group group taken /\
    Forall (fun w => missing w = true) taken /\ (barCount <= maximumBars -> barCount + llen taken <= maximumBars) /\
    (length rest <= length candidates)%nat /\
    (forall w rest', rest = w :: rest' -> missing w = true -> maximumBars <= barCount + llen taken).
Proof.
  revert barCount group. induction candidates as [|w cs IH]; intros barCount group; simpl.
  - intros [= <- <-]. exists []. rewrite window_of_group_nil. unfold llen. simpl.
    repeat split; [constructor | lia | lia | discriminate].
  - destruct (Z.ltb_spec barCount maximumBars) as [Hlt | Hge].
    + destruct (nano_present present (win_RangeStart w)) eqn:Hp.
      * intros [= <- <-]. exists []. rewrite window_of_group_nil. unfold llen. simpl.
        repeat split; [constructor | lia | lia |]. intros ? ? [= <- <-]. unfold missing. by rewrite Hp.
      * intros E. destruct (IH _ _ E) as (taken & -> & -> & Hm & Hl & Hlen & Hmax). exists (w :: taken).
        change (mkCollectionWindow _ _ _ (win_RangeEnd w) (win_EligibleAt w)) with (window_of_group group [w]).
        rewrite window_of_group_app. unfold llen in *. simpl length. split; [reflexivity |]. split; [reflexivity |].
        split; [constructor; [unfold missing; by rewrite Hp | exact Hm] |].
        split; [lia |]. split; [rewrite length_app in *; simpl; lia |].
        intros w' rest' E' Hw'. specialize (Hmax _ _ E' Hw'). lia.
    + intros [= <- <-]. exists []. rewrite window_of_group_nil. unfold llen. simpl.
      repeat split; [constructor | lia | lia |]. intros; lia.
Qed.

(** What a list of groups covers: [covers candidates rest gs] when the groups
    [gs] are, in order, runs of consecutive missing candidates, the other
    candidates before [rest] being present. *)
Inductive covers (rest : list CollectionWindow) : list CollectionWindow -> list (CollectionWindow * list CollectionWindow) -> Prop :=
  | covers_done : covers rest rest []
  | covers_skip w cs gs : missing w = false -> covers rest cs gs -> covers rest (w :: cs) gs
  | covers_group w taken cs gs :
      missing w = true -> Forall (fun w => missing w = true) taken -> llen (w :: taken) <= maximumBars ->
      (forall w' cs', cs = w' :: cs' -> missing w' = true -> llen (w :: taken) = maximumBars) ->
      covers rest cs gs -> covers rest (w :: taken ++ cs) ((w, taken) :: gs).

Definition group_windows (gs : list (CollectionWindow * list CollectionWindow)) : list CollectionWindow :=
  map (fun g => window_of_group g.1 g.2) gs.

Lemma groups_loop_spec fuel candidates groups : 1 <= maximumBars -> llen groups <= maximumGroups ->
  (length candidates <= fuel)%nat ->
  exists gs rest, groups_loop fuel present maximumBars maximumGroups candidates groups = groups ++ group_windows gs /\
    covers rest candidates gs /\ llen groups + llen gs <= maximumGroups /\
    (rest = [] \/ llen groups + llen gs = maximumGroups).
Proof.
  intros Hb. revert candidates groups. induction fuel as [|fuel IH]; intros candidates groups Hg Hf.
  - destruct candidates; [| simpl in Hf; lia]. exists [], []. simpl. rewrite app_nil_r.
    unfold llen in *. simpl. repeat split; [constructor | lia | by left].
  - destruct candidates as [|w cs].
    { exists [], []. simpl. rewrite app_nil_r. unfold llen in *. simpl. repeat split; [constructor | lia | by left]. }
    simpl in Hf. cbn [groups_loop]. destruct (Z.ltb_spec (llen groups) maximumGroups) as [Hlt | Hge].
    + destruct (nano_present present (win_RangeStart w)) eqn:Hp.
      * destruct (IH cs groups Hg ltac:(lia)) as (gs & rest & -> & Hc & Hl & Hr). exists gs, rest.
        split; [reflexivity |]. split; [apply covers_skip; [unfold missing; by rewrite Hp | exact Hc] | auto].
      * destruct (extend_group present maximumBars 1 w cs) as [g rest] eqn:Ee.
        destruct (extend_group_spec _ _ _ _ _ Ee) as (taken & -> & -> & Hm & Hlen & Hle & Hmax).
        destruct (IH rest (groups ++ [window_of_group w taken])) as (gs & r & -> & Hc & Hl & Hr).
        -- unfold llen in *. rewrite length_app. simpl. lia.
        -- rewrite length_app in *. lia.
        -- exists ((w, taken) :: gs), r. rewrite <- app_assoc. split; [reflexivity |].
           unfold llen in *. rewrite length_app in *. simpl in *.
           split; [| split; [lia | destruct Hr; [by left | right; lia]]].
           apply covers_group; [unfold missing; by rewrite Hp | exact Hm | unfold llen; simpl; lia | | exact Hc].
           intros w' cs' E Hw'. specialize (Hmax _ _ E Hw'). unfold llen. simpl. lia.
    + exists [], (w :: cs). simpl. rewrite app_nil_r. unfold llen in *. simpl.
      repeat split; [constructor | lia | right; lia].
Qed.
End Groups.

(** The missing candidates of the covered prefix are exactly the members of
    the groups, in order. *)
Lemma covers_members present m rest candidates gs : covers present m rest candidates gs ->
  exists prefix, candidates = prefix ++ rest /\
    List.filter (missing present) prefix = List.concat (map (fun g => g.1 :: g.2) gs).
Proof.
  induction 1 as [| w cs gs Hw _ (p & -> & IH) | w taken cs gs Hw Hm _ _ _ (p & -> & IH)].
  - exists []. auto.
  - exists (w :: p). simpl. rewrite Hw. auto.
  - exists (w :: taken ++ p). split; [simpl; rewrite <- app_assoc; reflexivity |]. simpl. rewrite Hw, List.filter_app, IH.
    f_equal. f_equal. clear -Hm. induction Hm as [|x l Hx _ IH]; simpl; [reflexivity |]. rewrite Hx, IH. reflexivity.
Qed.

(** ** Windows of the US sessions *)
Lemma next_market_date_ok date d : date_Validate date = Ok tt -> next_market_date date = Ok d ->
  date_Validate d = Ok tt /\ day_number d = day_number date + 1.
Proof.
  intros Hv. unfold next_market_date, NewMarketDate. intros H. inv_ok.
  destruct (addDays date 1) as [y m dd] eqn:E. split; [exact R |].
  change (mkMarketDate _ _ _) with (mkMarketDate y m dd). rewrite <- E. apply addDays_day. exact Hv.
Qed.
Lemma next_market_date_no_diverge date : next_market_date date <> Diverge.
Proof. unfold next_market_date, NewMarketDate. no_diverge. Qed.

(** A window made of one bar of a session, closing after the boundary and
    opening no later than the latest window. *)
Definition us_bar_window (calendar : TradingCalendar) {L : CalendarLaws calendar} (interval : string) (boundary last : Time)
    (delay : Z) (w : CollectionWindow) : Prop :=
  exists s b, In s cal_sessions /\ bar_of interval s b /\ boundary < usbar_close b /\ usbar_open b <= last /\
    w = mkCollectionWindow interval WindowTriggerClose (usbar_open b) (usbar_close b) (usbar_close b + delay).

Lemma us_session_windows_spec bars interval boundary last delay ws :
  us_session_windows bars interval boundary last delay 0 ws =
  (ws ++ map (fun b => mkCollectionWindow interval WindowTriggerClose (usbar_open b) (usbar_close b) (usbar_close b + delay))
           (List.filter (fun b => (boundary <? usbar_close b) && (usbar_open b <=? last)) bars), false).
Proof.
  revert ws. induction bars as [|b bars IH]; intros ws; simpl; [by rewrite app_nil_r |].
  unfold After, Add. rewrite <- Z.leb_antisym.
  destruct ((boundary <? usbar_close b) && (usbar_open b <=? last)); [| apply IH]. rewrite IH, <- app_assoc. reflexivity.
Qed.

Lemma limit_allows_0 ws : limit_allows 0 ws = true.
Proof. reflexivity. Qed.

Section USWindows.
Context (calendar : TradingCalendar) `{L : !CalendarLaws calendar}.
Context (interval : string) (boundary : Time) (latest : CollectionWindow) (delay : Duration).

Lemma us_loop_no_diverge fuel location date ws : (1 <= fuel)%nat ->
  (cal_first <= day_number date -> cal_first + 1096 - day_number date < Z.of_nat fuel) ->
  us_loop calendar fuel location interval boundary latest delay 0 date ws <> Diverge.
Proof.
  revert date ws. induction fuel as [|fuel IH]; intros date ws H1 Hf; [lia |]. cbn [us_loop]. rewrite limit_allows_0.
  destruct (cal_SessionForDate calendar date) as [r| |] eqn:E; cbn [rbind]; [| discriminate | by apply law_date_nodiv in E].
  destruct (law_date _ _ E) as [Hv Hr]. specialize (Hf ltac:(lia)).
  destruct (match r with Some session => _ | None => _ end) as [[ws' full]| |] eqn:Ew; cbn [rbind]; [| discriminate |].
  - destruct full; [discriminate |]. case_if; [discriminate |].
    destruct (next_market_date date) as [d| |] eqn:Ed; cbn [rbind]; [| discriminate | by apply next_market_date_no_diverge in Ed].
    destruct (next_market_date_ok _ _ Hv Ed) as [Hv' Hd]. apply IH; [lia |]. intros _. lia.
  - destruct r as [s|]; [| discriminate].
    destruct (barsForUSSession s interval) eqn:Eb; cbn [rbind] in Ew; try discriminate. by apply barsForUSSession_no_diverge in Eb.
Qed.

Lemma us_loop_sound fuel location date ws ws' :
  us_loop calendar fuel location interval boundary latest delay 0 date ws = Ok ws' ->
  Forall (us_bar_window calendar interval boundary (win_RangeStart latest) delay) ws ->
  Forall (us_bar_window calendar interval boundary (win_RangeStart latest) delay) ws'.
Proof.
  revert date ws. induction fuel as [|fuel IH]; intros date ws H Hws; [discriminate |].
  cbn [us_loop] in H. rewrite limit_allows_0 in H. inv_ok.
  assert (Forall (us_bar_window calendar interval boundary (win_RangeStart latest) delay) (fst r0)) as Hr0.
  { destruct r as [s|]; inv_ok; [| exact Hws]. rewrite us_session_windows_spec. cbn [fst]. apply Forall_app. split; [exact Hws |].
    apply List.Forall_forall. intros w Hin. apply in_map_iff in Hin as (b & <- & Hin).
    apply List.filter_In in Hin as [Hin Hb]. bsimp. exists s, b.
    split; [by apply (law_session date s) |]. split; [eexists; split; [exact R1 | exact Hin] |]. auto. }
  destruct r0 as [ws1 full]. cbn [fst] in Hr0.
  destruct full; [injection H as <-; exact Hr0 |].
  destruct (negb _) in H; [injection H as <-; exact Hr0 |]. apply rbind_ok in H as (d & _ & H). by apply (IH _ _ H).
Qed.

Lemma expectedUSWindows_no_diverge : expectedUSWindows calendar interval boundary latest delay 0 <> Diverge.
Proof.
  unfold expectedUSWindows. destruct (cal_Location calendar) as [l|]; [| discriminate].
  destruct (DateInLocation _ _) as [d| |] eqn:E; cbn [rbind]; [| discriminate | by apply DateInLocation_no_diverge in E].
  apply us_loop_no_diverge; pose proof session_fuel_value; lia.
Qed.
End USWindows.

(** ** Properties *)

(** The expected continuous windows are exactly the one-bar windows of the
    aligned bars that close after the boundary and open no later than the
    latest window; the loop always finishes. *)
Theorem continuous_catch_up_windows interval boundary latest delay d :
  durationForInterval interval = Ok d ->
  exists ws, expectedContinuousWindows interval boundary latest delay 0 = Ok ws /\
    forall w, In w ws <->
      exists open, open mod d = 0 /\ boundary < open + d /\ open <= win_RangeStart latest /\
        w = continuous_window interval d delay open.
Proof.
  intros Hd. pose proof (durationForInterval_pos _ _ Hd) as Hp.
  rewrite (expectedContinuousWindows_ok _ _ _ _ _ Hd). eexists. split; [reflexivity |]. intros w.
  set (t := Truncate boundary d). pose proof (Truncate_le boundary d Hp) as Hle. fold t in Hle.
  pose proof (Truncate_mod boundary d Hp) as Hm. fold t in Hm.
  rewrite bars_from_In. unfold bar_count. split.
  - intros (k & Hk & ->). exists (t + k * d). rewrite Z_mod_plus_full. split; [exact Hm |].
    destruct (Z.ltb_spec (win_RangeStart latest) t); [lia |].
    assert (k <= (win_RangeStart latest - t) / d) as Hkd.
    { pose proof (Z.div_pos (win_RangeStart latest - t) d). lia. }
    pose proof (Z.mul_div_le (win_RangeStart latest - t) d Hp). repeat split; nia.
  - intros (open & Hmod & Hb & Hl & ->). exists ((open - t) / d).
    assert (open - t = (open - t) / d * d) as He.
    { rewrite Z.mul_comm. apply Z_div_exact_full_2; [lia |]. rewrite Zminus_mod, Hmod, Hm. apply Z.mod_0_l. lia. }
    assert (t <= open).
    { apply Z.mod_divide in Hm as [a Ha]; [| lia]. apply Z.mod_divide in Hmod as [b Hb']; [| lia].
      assert (a < b + 1) by nia. nia. }
    destruct (Z.ltb_spec (win_RangeStart latest) t); [lia |].
    assert ((open - t) / d <= (win_RangeStart latest - t) / d) by (apply Z.div_le_mono; lia).
    pose proof (Z.div_pos (open - t) d ltac:(lia) Hp).
    split; [lia |]. f_equal. lia.
Qed.

Lemma continuous_catch_up_windows_witness : exists ws,
  expectedContinuousWindows BarInterval1Hour (july - Hour) (continuous_window BarInterval1Hour Hour 0 (Truncate july Hour)) 0 0 = Ok ws /\
  In (continuous_window BarInterval1Hour Hour 0 (Truncate july Hour - Hour)) ws.
Proof.
  destruct (continuous_catch_up_windows BarInterval1Hour (july - Hour)
    (continuous_window BarInterval1Hour Hour 0 (Truncate july Hour)) 0 Hour eq_refl) as (ws & E & Hws).
  exists ws. split; [exact E |]. apply Hws. exists (Truncate july Hour - Hour).
  vm_compute. repeat split; discriminate.
Defined.

(** The windows created for missing bars: in the order of the candidates,
    each group is a run of at most [maximumBars] consecutive missing candidates
    (shorter only before a present candidate or the end), the groups' members
    are exactly the missing candidates up to where the maximum number of groups
    was reached, and nothing is left out before that. *)
Theorem missing_window_groups_cover candidates existing maximumBars maximumGroups :
  1 <= maximumBars -> 0 <= maximumGroups ->
  exists gs prefix rest,
    missingWindowGroups candidates existing maximumBars maximumGroups = group_windows gs /\
    candidates = prefix ++ rest /\
    List.filter (missing (nano_set existing)) prefix = List.concat (map (fun g => g.1 :: g.2) gs) /\
    covers (nano_set existing) maximumBars rest candidates gs /\
    llen gs <= maximumGroups /\ (rest = [] \/ llen gs = maximumGroups).
Proof.
  intros Hb Hg. unfold missingWindowGroups.
  destruct (groups_loop_spec (nano_set existing) maximumBars maximumGroups (length candidates) candidates [] Hb)
    as (gs & rest & E & Hc & Hl & Hr); [unfold llen; simpl; lia | reflexivity |].
  destruct (covers_members _ _ _ _ _ Hc) as (prefix & Hp & Hm).
  exists gs, prefix, rest. rewrite E. unfold llen in *. simpl in *. repeat split; try assumption.
Qed.

Definition hours (n : nat) : list CollectionWindow := bars_from BarInterval1Hour Hour 0 n (Truncate july Hour).
Lemma missing_window_groups_cover_witness : exists gs,
  missingWindowGroups (hours 5) [Truncate july Hour + 2 * Hour] 10 2 = group_windows gs /\ llen gs <= 2.
Proof.
  destruct (missing_window_groups_cover (hours 5) [Truncate july Hour + 2 * Hour] 10 2)
    as (gs & _ & _ & E & _ & _ & _ & Hl & _); [discriminate | discriminate |].
  exists gs. split; [exact E | exact Hl].
Defined.

(** Every expected US window is one bar of a session of the calendar that
    closes after the boundary and opens no later than the latest window, and
    the scan of the dates always finishes. *)
Theorem us_catch_up_windows calendar (L : CalendarLaws calendar) interval boundary latest delay :
  expectedUSWindows calendar interval boundary latest delay 0 <> Diverge /\
  forall ws, expectedUSWindows calendar interval boundary latest delay 0 = Ok ws ->
    Forall (us_bar_window calendar interval boundary (win_RangeStart latest) delay) ws.
Proof.
  split; [by apply (expectedUSWindows_no_diverge calendar (L := L)) |].
  unfold expectedUSWindows. destruct (cal_Location calendar) as [l|]; [| discriminate]. intros ws H.
  apply rbind_ok in H as (d & _ & H). apply (us_loop_sound calendar _ _ _ _ _ _ _ _ _ H). constructor.
Qed.
