(* ===== verification/Incremental.v ===== *)
(** * internal/scheduler/incremental.go and the catch-up planner of catchup.go

    The scheduler scans the targets of a store and creates one idempotent batch
    per due window. The store is an interface over a world [W]; the partial
    [IncrementalResult] the code returns next to an error is part of the state.
    The scan of the pages has [fuel] iterations. *)
From S2P Require Import Prelude Errors GoStrings GoTime GoJson External Domain Calendar CalendarFacts Window Freshness CatchUp.

Definition defaultSchedulingPageSize : Z := 50.
Definition maximumSchedulingPageSize : Z := 100.
Definition defaultSchedulingMaximumAttempts : Z := 5.
Definition defaultMaximumCatchUpBars : Z := 500.
Definition maximumCatchUpBars : Z := 10000.
Definition defaultMaximumCatchUpRuns : Z := 20.
Definition maximumCatchUpRuns : Z := 100.

(** ** Targets *)
Record SchedulingTarget := mkSchedulingTarget {
  tgt_Subscription : CollectionSubscription; tgt_ProviderCode : Code; tgt_ProviderMarket : string;
  tgt_InstrumentCode : Code; tgt_AssetType : string; tgt_InstrumentType : string; tgt_Capabilities : Capabilities }.

Definition schedulingMarket (target : SchedulingTarget) : result string :=
  if (tgt_AssetType target =s AssetTypeCrypto) && (tgt_InstrumentType target =s InstrumentTypeSpot) then Ok "continuous"%string
  else if (tgt_AssetType target =s AssetTypeFX) && (tgt_InstrumentType target =s InstrumentTypeFX) then Ok "continuous"%string
  else if (tgt_ProviderMarket target =s "us") &&
       (((tgt_AssetType target =s AssetTypeStock) && (tgt_InstrumentType target =s InstrumentTypeEquity)) ||
        ((tgt_AssetType target =s AssetTypeETF) && (tgt_InstrumentType target =s InstrumentTypeETF))) then Ok "us_regular"%string
  else Err (Sentinel ErrInvalidState).

Definition supportsInterval (values : list string) (expected : string) : bool := contains_string values expected.

Definition validJSONObject (value : string) : bool := json_Valid value && unmarshals_any_object value.

Definition target_Validate (target : SchedulingTarget) : result unit :=
  let subscription := tgt_Subscription target in
  failif id_IsZero (sub_ID subscription) || id_IsZero (sub_ProviderInstrumentID subscription)
         || negb (sub_Enabled subscription) || IsZero (sub_CreatedAt subscription) || IsZero (sub_UpdatedAt subscription)
         || code_IsZero (tgt_ProviderCode target) || code_IsZero (tgt_InstrumentCode target)
         || (TrimSpace (tgt_ProviderMarket target) <>s tgt_ProviderMarket target) || (tgt_ProviderMarket target =s EmptyString)
         || (sub_CloseDelaySeconds subscription <? 0) || opt_test (fun d => d <? 0) (sub_RevisionDelaySeconds subscription),
         Sentinel ErrInvalidData ;;
  failif negb (is_ok (ParseBarInterval (sub_Interval subscription))) || negb (cap_Historical (tgt_Capabilities target))
         || negb (supportsInterval (cap_Intervals (tgt_Capabilities target)) (sub_Interval subscription)),
         Sentinel ErrInvalidState ;;
  schedulingMarket target ;;; Ok tt.

Record SchedulingTargetPage := mkSchedulingTargetPage {
  page_Items : list SchedulingTarget; page_NextAfterID : option ID }.

(** ** Batches *)
Record ScheduledBatch := mkScheduledBatch { batch_Trigger : string; batch_Run : IngestionRun; batch_Task : IngestionTask }.

Section Batches.
Context `{UUIDLib}.

Definition StableRunKey (trigger : string) (subscriptionID : ID) (start stop : Time) : string :=
  let runType := if trigger =s WindowTriggerRevision then "revision"%string else "incremental"%string in
  (runType ++ "." ++ "scheduler" ++ "." ++ trigger ++ "." ++ uuid_String subscriptionID ++ "." ++
   FormatKey start ++ "." ++ FormatKey stop)%string.

Definition validScheduledID (id : ID) : bool := negb (id_IsZero id) && (uuid_Version id =? 7).

Definition batch_Validate (batch : ScheduledBatch) : result unit :=
  let run := batch_Run batch in
  let task := batch_Task batch in
  failif (batch_Trigger batch <>s WindowTriggerRevision) && (batch_Trigger batch <>s WindowTriggerClose),
         Sentinel ErrInvalidData ;;
  let wantRunType := if batch_Trigger batch =s WindowTriggerRevision then "revision"%string else "incremental"%string in
  failif id_IsZero (run_ID run) || id_IsZero (task_ID task) || negb (uuid_Version (run_ID run) =? 7)
         || negb (uuid_Version (task_ID task) =? 7) || (run_ID run =id task_ID task)
         || (task_RunID task <>id run_ID run) || id_IsZero (task_SubscriptionID task)
         || (run_RunKey run <>s StableRunKey (batch_Trigger batch) (task_SubscriptionID task) (task_RangeStart task) (task_RangeEnd task))
         || (run_RunType run <>s wantRunType) || (run_TriggerType run <>s "scheduler") || (run_Status run <>s "pending")
         || is_nil (run_ScheduledAt run) || not_nil (run_StartedAt run) || not_nil (run_FinishedAt run)
         || not_nil (run_RequestedBy run) || negb (run_TaskCount run =? 1) || negb (run_SuccessCount run =? 0)
         || negb (run_FailedCount run =? 0) || IsZero (run_CreatedAt run)
         || opt_test (fun s => After s (run_CreatedAt run)) (run_ScheduledAt run)
         || negb (validJSONObject (run_Context run)) || negb (validJSONObject (run_ErrorSummary run))
         || (task_Status task <>s "pending") || negb (task_AttemptCount task =? 0) || (task_MaxAttempts task <? 1)
         || negb (After (task_RangeEnd task) (task_RangeStart task))
         || opt_test (fun s => After (task_RangeEnd task) s) (run_ScheduledAt run)
         || not_nil (task_RetryOfTaskID task) || not_nil (task_NextAttemptAt task) || not_nil (task_LockedBy task)
         || not_nil (task_LockedUntil task) || not_nil (task_StartedAt task) || not_nil (task_FinishedAt task)
         || not_nil (task_ProviderRequestID task) || not_nil (task_ErrorCode task) || not_nil (task_ErrorMessage task)
         || not_nil (task_CanceledBy task) || not_nil (task_CancelReason task)
         || negb (Equal (task_CreatedAt task) (run_CreatedAt run)) || negb (Equal (task_UpdatedAt task) (run_CreatedAt run))
         || negb (validJSONObject (task_ErrorDetails task)),
         Sentinel ErrInvalidData ;;
  Ok tt.
End Batches.

(** ** The scheduler *)
Record IncrementalConfig := mkIncrementalConfig {
  cfg_PageSize : Z; cfg_MaximumAttempts : Z; cfg_MaximumCatchUpBars : Z; cfg_MaximumCatchUpRuns : Z }.

Record IncrementalResult := mkIncrementalResult {
  res_ScannedSubscriptions : Z; res_DueWindows : Z; res_CreatedRuns : Z; res_ExistingRuns : Z; res_RecoveredTasks : Z }.

(** The store the scheduler needs, over a world [W]. *)
Class IncrementalStore (W : Type) := {
  ListSchedulingTargets : option ID -> Z -> Time -> M W SchedulingTargetPage;
  LoadSchedulingCheckpoint : ID -> M W (option IngestionCheckpoint);
  ListClosedBarOpenTimes : SchedulingTarget -> Time -> Time -> M W (list Time);
  CreateScheduledBatch : ScheduledBatch -> M W bool;
  RecoverExpiredTasks : Time -> M W Z }.

Definition or_default (value default : Z) : Z := if value =? 0 then default else value.

(** The dependencies are non-nil by their types, up to the calendar's location. *)
Record IncrementalScheduler := mkIncrementalScheduler {
  sched_usCalendar : TradingCalendar; sched_pageSize : Z; sched_maximumAttempts : Z;
  sched_maximumCatchUpBars : Z; sched_maximumCatchUpRuns : Z }.

Definition NewIncrementalScheduler (config : IncrementalConfig) (usCalendar : TradingCalendar) : result IncrementalScheduler :=
  let pageSize := or_default (cfg_PageSize config) defaultSchedulingPageSize in
  let maximumAttempts := or_default (cfg_MaximumAttempts config) defaultSchedulingMaximumAttempts in
  let catchUpBars := or_default (cfg_MaximumCatchUpBars config) defaultMaximumCatchUpBars in
  let catchUpRuns := or_default (cfg_MaximumCatchUpRuns config) defaultMaximumCatchUpRuns in
  failif (pageSize <? 1) || (maximumSchedulingPageSize <? pageSize) || (maximumAttempts <? 1)
         || (catchUpBars <? 1) || (maximumCatchUpBars <? catchUpBars)
         || (catchUpRuns <? 1) || (maximumCatchUpRuns <? catchUpRuns),
         Plain "incremental scheduler configuration is invalid" ;;
  failif is_nil (cal_Location usCalendar), Plain "incremental scheduler dependencies are required" ;;
  Ok (mkIncrementalScheduler usCalendar pageSize maximumAttempts catchUpBars catchUpRuns).

Definition latestWindow (scheduler : IncrementalScheduler) (target : SchedulingTarget) (trigger : string)
    (delay : Duration) (observedAt : Time) : result (option CollectionWindow) :=
  let interval := match ParseBarInterval (sub_Interval (tgt_Subscription target)) with Ok i => i | _ => EmptyString end in
  market <- schedulingMarket target ;;
  if market =s "continuous" then CalculateLatestContinuousWindow interval trigger observedAt delay
  else CalculateLatestUSWindow (sched_usCalendar scheduler) interval trigger observedAt delay.

Definition barForOpen (scheduler : IncrementalScheduler) (target : SchedulingTarget) (open : Time) : result scheduledUSBar :=
  interval <- ParseBarInterval (sub_Interval (tgt_Subscription target)) ;;
  market <- schedulingMarket target ;;
  if market =s "us_regular" then usBarForOpen (sched_usCalendar scheduler) interval open
  else
    duration <- durationForInterval interval ;;
    failif negb (Equal open (Truncate open duration)), invalidWindow "checkpoint open time is not interval aligned" ;;
    Ok (mkScheduledUSBar open (Add open duration)).

Definition expectedCloseWindowsUntil (scheduler : IncrementalScheduler) (target : SchedulingTarget) (boundary : Time)
    (latest : CollectionWindow) (delay : Duration) : result (list CollectionWindow) :=
  interval <- ParseBarInterval (sub_Interval (tgt_Subscription target)) ;;
  market <- schedulingMarket target ;;
  if market =s "continuous" then expectedContinuousWindows interval boundary latest delay 0
  else expectedUSWindows (sched_usCalendar scheduler) interval boundary latest delay 0.

Definition expectedCloseWindows := expectedCloseWindowsUntil.

(** The first window's start and the last window's end of a non-empty list. *)
Definition span_of (windows : list CollectionWindow) : option (Time * Time) :=
  match windows with
  | [] => None
  | w :: _ => Some (win_RangeStart w, win_RangeEnd (List.last windows w))
  end.

Section Scheduler.
Context {W : Type} `{Store : IncrementalStore W} `{U : UUIDLib} (newID : M W ID) (now : W -> Time).
Context (scheduler : IncrementalScheduler).

(** *** catchup.go: the planner of one target *)
(** The boundary after the checkpoint: its bar's close, when every window up
    to it is really stored. *)
Definition checkpointBoundary (target : SchedulingTarget) (latest : CollectionWindow) (delay : Duration)
    (checkpoint : option IngestionCheckpoint) : M W Time :=
  let subscription := tgt_Subscription target in
  match checkpoint with
  | None => mret (sub_UpdatedAt subscription)
  | Some checkpoint =>
      _ <-- mlift (validateCheckpoint (sub_ID subscription) checkpoint) ;;
      match ckpt_LastClosedOpenTime checkpoint with
      | None => mret (sub_UpdatedAt subscription)
      | Some lastOpen =>
          bar <-- mlift (wrap "resolve checkpoint bar" (barForOpen scheduler target lastOpen)) ;;
          prefix <-- mlift (wrap "plan checkpoint prefix"
            (expectedCloseWindowsUntil scheduler target (sub_UpdatedAt subscription)
               (mkCollectionWindow (win_Interval latest) WindowTriggerClose (usbar_open bar) (usbar_close bar)
                  (Add (usbar_close bar) delay)) delay)) ;;
          match span_of prefix with
          | None => mret (sub_UpdatedAt subscription)
          | Some (first, last) =>
              existing <-- mwrap "verify scheduling checkpoint" (ListClosedBarOpenTimes target first last) ;;
              mret (if allWindowsPresent prefix existing then usbar_close bar else sub_UpdatedAt subscription)
          end
      end
  end.

Definition catchUpWindows (target : SchedulingTarget) (delay : Duration) (observedAt : Time) : M W (list CollectionWindow) :=
  latest <-- mlift (latestWindow scheduler target WindowTriggerClose delay observedAt) ;;
  match latest with
  | None => mret []
  | Some latest =>
      if negb (After (win_RangeEnd latest) (sub_UpdatedAt (tgt_Subscription target))) then mret []
      else
        checkpoint <-- mwrap "load scheduling checkpoint" (LoadSchedulingCheckpoint (sub_ID (tgt_Subscription target))) ;;
        boundary <-- checkpointBoundary target latest delay checkpoint ;;
        candidates <-- mlift (expectedCloseWindows scheduler target boundary latest delay) ;;
        match span_of candidates with
        | None => mret []
        | Some (first, last) =>
            existing <-- mwrap "list closed bars for catch-up" (ListClosedBarOpenTimes target first last) ;;
            mret (missingWindowGroups candidates existing (sched_maximumCatchUpBars scheduler) (sched_maximumCatchUpRuns scheduler))
        end
  end.

(** *** Batches *)
(** A generated ID is checked; without an error an invalid one is ErrInvalidData. *)
Definition newScheduledID (kind : string) (invalid : ID -> bool) : M W ID :=
  mwrap kind (id <-- newID ;; mfailif negb (validScheduledID id) || invalid id, Sentinel ErrInvalidData ;; mret id).

Definition newBatch (target : SchedulingTarget) (window : CollectionWindow) (observedAt : Time) : M W ScheduledBatch :=
  runID <-- newScheduledID "generate scheduled run ID" (fun _ => false) ;;
  taskID <-- newScheduledID "generate scheduled task ID" (fun id => id =id runID) ;;
  let subscription := tgt_Subscription target in
  let contextJSON := json_Marshal_map
    [("trigger", win_Trigger window); ("subscription_id", uuid_String (sub_ID subscription));
     ("provider", tgt_ProviderCode target); ("instrument_code", tgt_InstrumentCode target);
     ("interval", win_Interval window); ("range_start", FormatRFC3339Nano (win_RangeStart window));
     ("range_end", FormatRFC3339Nano (win_RangeEnd window))]%string in
  let runType := if win_Trigger window =s WindowTriggerRevision then "revision"%string else "incremental"%string in
  let run := {|
    run_ID := runID;
    run_RunKey := StableRunKey (win_Trigger window) (sub_ID subscription) (win_RangeStart window) (win_RangeEnd window);
    run_RunType := runType; run_TriggerType := "scheduler"; run_Status := "pending";
    run_ScheduledAt := Some (win_EligibleAt window); run_StartedAt := None; run_FinishedAt := None;
    run_RequestedBy := None; run_TaskCount := 1; run_SuccessCount := 0; run_FailedCount := 0;
    run_Context := contextJSON; run_ErrorSummary := "{}"; run_CreatedAt := observedAt |} in
  let task := {|
    task_ID := taskID; task_RunID := runID; task_SubscriptionID := sub_ID subscription; task_RetryOfTaskID := None;
    task_RangeStart := win_RangeStart window; task_RangeEnd := win_RangeEnd window; task_Status := "pending";
    task_AttemptCount := 0; task_MaxAttempts := sched_maximumAttempts scheduler; task_NextAttemptAt := None;
    task_LockedBy := None; task_LockedUntil := None; task_StartedAt := None; task_FinishedAt := None;
    task_ProviderRequestID := None; task_ErrorCode := None; task_ErrorMessage := None; task_ErrorDetails := "{}";
    task_CanceledBy := None; task_CancelReason := None; task_CreatedAt := observedAt; task_UpdatedAt := observedAt |} in
  let batch := mkScheduledBatch (win_Trigger window) run task in
  _ <-- mlift (wrap "construct scheduled batch" (batch_Validate batch)) ;; mret batch.

(** *** The scan, with the running result in the state *)
Definition ScanState : Type := (W * IncrementalResult)%type.
Definition store {A} (c : M W A) : M ScanState A := fun s => let '(r, w) := c (fst s) in (r, (w, snd s)).
Definition bump (f : IncrementalResult -> IncrementalResult) : M ScanState unit := fun s => (Ok tt, (fst s, f (snd s))).

Definition add_scanned (r : IncrementalResult) := mkIncrementalResult (res_ScannedSubscriptions r + 1) (res_DueWindows r)
  (res_CreatedRuns r) (res_ExistingRuns r) (res_RecoveredTasks r).
Definition add_due (r : IncrementalResult) := mkIncrementalResult (res_ScannedSubscriptions r) (res_DueWindows r + 1)
  (res_CreatedRuns r) (res_ExistingRuns r) (res_RecoveredTasks r).
Definition add_created (created : bool) (r : IncrementalResult) := mkIncrementalResult (res_ScannedSubscriptions r) (res_DueWindows r)
  (if created then res_CreatedRuns r + 1 else res_CreatedRuns r)
  (if created then res_ExistingRuns r else res_ExistingRuns r + 1) (res_RecoveredTasks r).
Definition set_recovered (n : Z) (r : IncrementalResult) := mkIncrementalResult (res_ScannedSubscriptions r) (res_DueWindows r)
  (res_CreatedRuns r) (res_ExistingRuns r) n.

Fixpoint create_batches (target : SchedulingTarget) (observedAt : Time) (windows : list CollectionWindow) : M ScanState unit :=
  match windows with
  | [] => mret tt
  | window :: rest =>
      _ <-- bump add_due ;;
      batch <-- store (newBatch target window observedAt) ;;
      created <-- mwrap "persist scheduled batch" (store (CreateScheduledBatch batch)) ;;
      _ <-- bump (add_created created) ;;
      create_batches target observedAt rest
  end.

(** The windows of one enabled trigger. *)
Definition trigger_windows (target : SchedulingTarget) (trigger : string) (delay : Duration) (observedAt : Time) : M W (list CollectionWindow) :=
  if trigger =s WindowTriggerClose then catchUpWindows target delay observedAt
  else
    window <-- mlift (latestWindow scheduler target trigger delay observedAt) ;;
    mret (match window with
          | Some w => if After (win_RangeEnd w) (sub_UpdatedAt (tgt_Subscription target)) then [w] else []
          | None => []
          end).

Definition schedule_trigger (target : SchedulingTarget) (policy : DelayPolicy) (observedAt : Time) (trigger : string) : M ScanState unit :=
  enabled <-- mlift (Delay policy trigger) ;;
  match enabled with
  | None => mret tt
  | Some delay =>
      windows <-- mwrap "calculate window for subscription" (store (trigger_windows target trigger delay observedAt)) ;;
      create_batches target observedAt windows
  end.

Definition schedule_target (target : SchedulingTarget) (observedAt : Time) : M ScanState unit :=
  _ <-- bump add_scanned ;;
  _ <-- mlift (wrap "validate scheduling target" (target_Validate target)) ;;
  policy <-- mlift (wrap "construct scheduling delay policy"
    (NewDelayPolicy (sub_CloseDelaySeconds (tgt_Subscription target)) (sub_RevisionDelaySeconds (tgt_Subscription target)))) ;;
  _ <-- schedule_trigger target policy observedAt WindowTriggerClose ;;
  schedule_trigger target policy observedAt WindowTriggerRevision.

Fixpoint schedule_targets (targets : list SchedulingTarget) (observedAt : Time) : M ScanState unit :=
  match targets with
  | [] => mret tt
  | target :: rest => _ <-- schedule_target target observedAt ;; schedule_targets rest observedAt
  end.

Definition last_target_id (items : list SchedulingTarget) : option ID :=
  match rev items with [] => None | t :: _ => Some (sub_ID (tgt_Subscription t)) end.

Fixpoint scan_pages (fuel : nat) (observedAt : Time) (afterID : option ID) : M ScanState unit :=
  match fuel with
  | O => mlift Diverge
  | S fuel =>
      page <-- mwrap "list incremental scheduling targets"
                 (store (ListSchedulingTargets afterID (sched_pageSize scheduler) observedAt)) ;;
      mfailif (match page_Items page with [] => true | _ => false end) && not_nil (page_NextAfterID page),
              Wrap "list incremental scheduling targets returned an invalid cursor" (Sentinel ErrInvalidData) ;;
      _ <-- schedule_targets (page_Items page) observedAt ;;
      match page_NextAfterID page with
      | None => mret tt
      | Some next =>
          mfailif opt_test (fun a => next =id a) afterID || opt_test (fun l => next <>id l) (last_target_id (page_Items page)),
                  Wrap "list incremental scheduling targets returned a non-advancing cursor" (Sentinel ErrInvalidData) ;;
          scan_pages fuel observedAt (Some next)
      end
  end.

Definition zero_result : IncrementalResult := mkIncrementalResult 0 0 0 0 0.

(** The result is returned with the error, as in the code. *)
Definition RunOnce (fuel : nat) (w : W) : result unit * ScanState :=
  let observedAt := now w in
  (mfailif IsZero observedAt, Wrap "run incremental scheduler" (Sentinel ErrInvalidData) ;;
   recovered <-- mwrap "recover expired ingestion tasks" (store (RecoverExpiredTasks observedAt)) ;;
   _ <-- bump (set_recovered recovered) ;;
   scan_pages fuel observedAt None) (w, zero_result).
End Scheduler.
