(* ===== verification/IncrementalFacts.v ===== *)
(** * Correctness of the incremental scheduler

    Run keys identify their window; every batch handed to the store is valid
    and due; the counters agree with the batches; an invariant of the store's
    own operations is kept by a scan, also by one that ends with an error. *)
From S2P Require Import Prelude Errors GoStrings GoTime GoJson External Domain Calendar CalendarFacts CalendarHours Window Freshness FreshnessFacts CatchUp CatchUpFacts Incremental.

(** ** The key format *)
Lemma digit_inj a b : digit a = digit b -> a mod 10 = b mod 10.
Proof.
  unfold digit. intros [= H]. apply (f_equal N_of_ascii) in H.
  pose proof (Z.mod_pos_bound a 10 eq_refl). pose proof (Z.mod_pos_bound b 10 eq_refl).
  rewrite !N_ascii_embedding in H by lia. lia.
Qed.

Ltac digits_eq := intros; Z.div_mod_to_equations; lia.
Lemma pad2_inj a b : pad2 a = pad2 b -> a mod 100 = b mod 100.
Proof.
  unfold pad2. intros [H1 H2]%string_app_inj_l; [| reflexivity]. apply digit_inj in H1, H2.
  revert H1 H2. digits_eq.
Qed.
Lemma pad3_inj a b : pad3 a = pad3 b -> a mod 1000 = b mod 1000.
Proof.
  unfold pad3. intros [H1 H2]%string_app_inj_l; [| reflexivity]. apply digit_inj in H1. apply pad2_inj in H2.
  revert H1 H2. digits_eq.
Qed.
Lemma pad4_inj a b : pad4 a = pad4 b -> a mod 10000 = b mod 10000.
Proof.
  unfold pad4. intros [H1 H2]%string_app_inj_l; [| reflexivity]. apply pad2_inj in H1, H2.
  revert H1 H2. digits_eq.
Qed.
Lemma pad9_inj a b : pad9 a = pad9 b -> a mod 1000000000 = b mod 1000000000.
Proof.
  unfold pad9. intros [H1 [H2 H3]%string_app_inj_l]%string_app_inj_l; [| reflexivity..]. apply pad3_inj in H1, H2, H3.
  revert H1 H2 H3. digits_eq.
Qed.

(** Instants the four-digit layout can express. *)
Definition four_digit_year (t : Time) : Prop :=
  let '(y, _, _) := civil_from_days (t / Second / seconds_per_day) in 0 <= y < 10000.

Lemma FormatKey_length t : String.length (FormatKey t) = 26%nat.
Proof. unfold FormatKey. destruct (civil_from_days _) as [[y m] d]. reflexivity. Qed.

Lemma FormatKey_inj t u : four_digit_year t -> four_digit_year u -> FormatKey t = FormatKey u -> t = u.
Proof.
  unfold four_digit_year, FormatKey. intros Ht Hu.
  pose proof (civil_from_days_range (t / Second / seconds_per_day)) as Hrt.
  pose proof (civil_from_days_range (u / Second / seconds_per_day)) as Hru.
  destruct (civil_from_days (t / Second / seconds_per_day)) as [[y m] d] eqn:Et.
  destruct (civil_from_days (u / Second / seconds_per_day)) as [[y' m'] d'] eqn:Eu.
  intros H. do 3 (apply string_app_inj_l in H as [? H]; [| reflexivity]).
  apply string_app_inj_l in H as [_ H]; [| reflexivity].
  do 3 (apply string_app_inj_l in H as [? H]; [| reflexivity]).
  apply string_app_inj_l in H as [_ H]; [| reflexivity]. apply string_app_inj_l in H as [H _]; [| reflexivity].
  apply pad9_inj in H. apply pad4_inj in H0. apply pad2_inj in H1, H2, H3, H4, H5.
  rewrite !Z.mod_small in H0 by lia. rewrite !Z.mod_small in H1 by lia. rewrite !Z.mod_small in H2 by lia. subst y' m' d'.
  rewrite <- Eu in Et. apply civil_from_days_inj in Et. clear Eu Hrt Hru Ht Hu.
  set (s := t / Second) in *. set (s' := u / Second) in *.
  assert (s = s') as Hs.
  { unfold seconds_per_day in *. clear H. clearbody s s'.
    pose proof (Z.mod_pos_bound s 86400 eq_refl). pose proof (Z.mod_pos_bound s' 86400 eq_refl).
    pose proof (Z_div_mod_eq_full s 86400). pose proof (Z_div_mod_eq_full s' 86400).
    set (a := s mod 86400) in *. set (b := s' mod 86400) in *. clearbody a b.
    enough (a = b) by lia. clear -H3 H4 H5 H0 H1. Z.div_mod_to_equations. lia. }
  unfold Second in *. pose proof (Z_div_mod_eq_full t 1000000000). pose proof (Z_div_mod_eq_full u 1000000000).
  rewrite !Zmod_mod in H. unfold s, s' in Hs. lia.
Qed.

(** ** Windows of a scan *)
Section Scan.
Context {W : Type} {St : IncrementalStore W} {U : UUIDLib} (newID : M W ID) (now : W -> Time).
Context (scheduler : IncrementalScheduler) {L : CalendarLaws (sched_usCalendar scheduler)}.

(** A batch the store may be given at an observed instant: valid, with the
    scheduler's retry limit, and not before its window was due. *)
Definition good_batch (observedAt : Time) (b : ScheduledBatch) : Prop :=
  batch_Validate b = Ok tt /\ run_CreatedAt (batch_Run b) = observedAt /\
  task_MaxAttempts (batch_Task b) = sched_maximumAttempts scheduler /\
  exists due, run_ScheduledAt (batch_Run b) = Some due /\ task_RangeEnd (batch_Task b) <= due <= observedAt.

Lemma batch_Validate_due b : batch_Validate b = Ok tt ->
  exists due, run_ScheduledAt (batch_Run b) = Some due /\ task_RangeEnd (batch_Task b) <= due <= run_CreatedAt (batch_Run b).
Proof.
  unfold batch_Validate. intros H. cbv zeta in H. destruct (_ && _) in H; [discriminate |].
  destruct (run_ScheduledAt (batch_Run b)) as [due|]; [| rewrite !orb_true_r in H; discriminate].
  exists due. split; [reflexivity |]. simpl opt_test in H. unfold After in H.
  destruct (Z.ltb_spec (run_CreatedAt (batch_Run b)) due); [rewrite ?orb_true_r in H; discriminate |].
  destruct (Z.ltb_spec due (task_RangeEnd (batch_Task b))); [rewrite ?orb_true_r in H; discriminate |]. lia.
Qed.

Lemma newBatch_good I target window observedAt : safe I newID (fun _ => True) ->
  safe I (newBatch newID scheduler target window observedAt) (good_batch observedAt).
Proof.
  intros Hid. unfold newBatch, newScheduledID.
  assert (forall kind f, safe I (mwrap kind (id <-- newID ;;
    mfailif negb (validScheduledID id) || f id, Sentinel ErrInvalidData ;; mret id)) (fun _ => True)) as Hn.
  { intros kind f. apply safe_wrap. eapply safe_bind; [exact Hid |]. intros id _. apply safe_failif. intros _. by apply safe_ret. }
  eapply safe_bind; [apply Hn |]. intros rid _. eapply safe_bind; [apply Hn |]. intros tid _. cbv zeta.
  match goal with |- safe _ (mbind (mlift (wrap _ (batch_Validate ?b))) _) _ =>
    apply (safe_bind _ _ _ (fun _ => batch_Validate b = Ok tt)) end.
  { apply safe_lift. intros [] Hv. apply wrap_ok in Hv. exact Hv. }
  intros _ Hv. apply safe_ret. destruct (batch_Validate_due _ Hv) as (due & Hs & Hd). simpl in *.
  split; [exact Hv |]. split; [reflexivity |]. split; [reflexivity |]. exists due. auto.
Qed.

(** *** Invariants of the store *)
Section Invariant.
Context (I : W -> Prop) (observedAt : Time).
Context (Hid : safe I newID (fun _ => True))
        (Hlist : forall a n t, safe I (ListSchedulingTargets a n t) (fun _ => True))
        (Hckpt : forall id, safe I (LoadSchedulingCheckpoint id) (fun _ => True))
        (Hbars : forall t a b, safe I (ListClosedBarOpenTimes t a b) (fun _ => True))
        (Hcreate : forall b, good_batch observedAt b -> safe I (CreateScheduledBatch b) (fun _ => True)).

Definition onW (s : W * IncrementalResult) : Prop := I (fst s).

Lemma safe_store {A} (c : M W A) Q : safe I c Q -> safe onW (store c) Q.
Proof. intros Hc [w r] Hw. unfold store. simpl. destruct (Hc w Hw). destruct (c w). auto. Qed.
Lemma safe_bump f : safe onW (@bump W f) (fun _ => True).
Proof. intros [w r] Hw. split; [exact Hw | auto]. Qed.
Lemma safe_any {A} (r : result A) : safe I (mlift r) (fun _ => True).
Proof. by apply safe_lift. Qed.

Lemma safe_checkpointBoundary target latest delay ckpt :
  safe I (checkpointBoundary scheduler target latest delay ckpt) (fun _ => True).
Proof.
  unfold checkpointBoundary. destruct ckpt as [c|]; [| by apply safe_ret].
  eapply safe_bind; [apply safe_any |]. intros _ _. destruct (ckpt_LastClosedOpenTime c); [| by apply safe_ret].
  eapply safe_bind; [apply safe_any |]. intros bar _. eapply safe_bind; [apply safe_any |]. intros prefix _.
  destruct (span_of prefix) as [[a b]|]; [| by apply safe_ret].
  eapply safe_bind; [apply safe_wrap, Hbars |]. intros ex _. by apply safe_ret.
Qed.

Lemma safe_catchUp target delay : safe I (catchUpWindows scheduler target delay observedAt) (fun _ => True).
Proof.
  unfold catchUpWindows. eapply safe_bind; [apply safe_any |]. intros [latest|] _; [| by apply safe_ret].
  case_if; [by apply safe_ret |]. eapply safe_bind; [apply safe_wrap, Hckpt |]. intros ckpt _.
  eapply safe_bind; [apply safe_checkpointBoundary |]. intros bd _. eapply safe_bind; [apply safe_any |]. intros cs _.
  destruct (span_of cs) as [[a b]|]; [| by apply safe_ret].
  eapply safe_bind; [apply safe_wrap, Hbars |]. intros ex _. by apply safe_ret.
Qed.

Lemma safe_create_batches target ws : safe onW (create_batches newID scheduler target observedAt ws) (fun _ => True).
Proof.
  induction ws as [|w ws IH]; [by apply safe_ret |]. cbn [create_batches].
  eapply safe_bind; [apply safe_bump |]. intros _ _.
  eapply safe_bind; [apply safe_store, newBatch_good, Hid |]. intros b Hb.
  eapply safe_bind; [apply safe_wrap, safe_store, Hcreate, Hb |]. intros created _.
  eapply safe_bind; [apply safe_bump |]. intros _ _. exact IH.
Qed.

Lemma safe_trigger target policy trigger :
  safe onW (schedule_trigger newID scheduler target policy observedAt trigger) (fun _ => True).
Proof.
  unfold schedule_trigger. eapply safe_bind; [by apply (safe_lift onW _ (fun _ => True)) |]. intros [delay|] _; [| by apply safe_ret].
  eapply safe_bind; [| intros ws _; apply safe_create_batches].
  apply safe_wrap, safe_store. unfold trigger_windows. case_if; [apply safe_catchUp |].
  eapply safe_bind; [apply safe_any |]. intros w _. by apply safe_ret.
Qed.

Lemma safe_targets ts : safe onW (schedule_targets newID scheduler ts observedAt) (fun _ => True).
Proof.
  induction ts as [|t ts IH]; [by apply safe_ret |]. cbn [schedule_targets]. eapply safe_bind; [| intros _ _; exact IH].
  unfold schedule_target. eapply safe_bind; [apply safe_bump |]. intros _ _.
  eapply safe_bind; [by apply (safe_lift onW _ (fun _ => True)) |]. intros _ _.
  eapply safe_bind; [by apply (safe_lift onW _ (fun _ => True)) |]. intros p _.
  eapply safe_bind; [apply safe_trigger |]. intros _ _. apply safe_trigger.
Qed.

Lemma safe_scan fuel after : safe onW (scan_pages newID scheduler fuel observedAt after) (fun _ => True).
Proof.
  revert after. induction fuel as [|fuel IH]; intros after; [by apply safe_lift |]. cbn [scan_pages].
  eapply safe_bind; [apply safe_wrap, safe_store, Hlist |]. intros page _. apply safe_failif. intros _.
  eapply safe_bind; [apply safe_targets |]. intros _ _. destruct (page_NextAfterID page); [| by apply safe_ret].
  apply safe_failif. intros _. apply IH.
Qed.
End Invariant.

(** *** Termination: no loop below the pages diverges *)
Section Finishes.
Context (Hid : finishes newID)
        (Hlist : forall a n t, finishes (ListSchedulingTargets a n t))
        (Hckpt : forall id, finishes (LoadSchedulingCheckpoint id))
        (Hbars : forall t a b, finishes (ListClosedBarOpenTimes t a b))
        (Hcreate : forall b, finishes (CreateScheduledBatch b))
        (Hrecover : forall t, finishes (RecoverExpiredTasks t)).

Lemma finishes_store {A} (c : M W A) : finishes c -> finishes (@store W A c).
Proof. intros Hc [w r]. unfold store. simpl. specialize (Hc w). destruct (c w). exact Hc. Qed.
Lemma finishes_bump f : finishes (@bump W f).
Proof. intros s. discriminate. Qed.
#[local] Hint Resolve finishes_store finishes_bump finishes_if : nodiv.

Lemma schedulingMarket_no_diverge t : schedulingMarket t <> Diverge.
Proof. unfold schedulingMarket. no_diverge. Qed.
#[local] Hint Resolve schedulingMarket_no_diverge : nodiv.

Lemma wrap_no_diverge {A} t (c : result A) : c <> Diverge -> wrap t c <> Diverge.
Proof. destruct c; simpl; congruence. Qed.
#[local] Hint Resolve wrap_no_diverge : nodiv.

Lemma latestWindow_no_diverge t g d o : latestWindow scheduler t g d o <> Diverge.
Proof.
  unfold latestWindow. destruct (schedulingMarket t) eqn:E; cbn [rbind]; [| discriminate | by apply schedulingMarket_no_diverge in E].
  case_if; [apply CalculateLatestContinuousWindow_no_diverge | by apply (CalculateLatestUSWindow_no_diverge _ (L := L))].
Qed.
Lemma barForOpen_no_diverge t o : barForOpen scheduler t o <> Diverge.
Proof.
  unfold barForOpen. intros H. repeat (inv_div_step; cbv zeta beta in * ).
  all: first [exact (ParseBarInterval_no_diverge _ H) | exact (schedulingMarket_no_diverge _ H) |
    exact (usBarForOpen_no_diverge _ _ _ H) | exact (durationForInterval_no_diverge _ H)].
Qed.
Lemma expectedContinuousWindows_no_diverge i b l d : expectedContinuousWindows i b l d 0 <> Diverge.
Proof.
  destruct (durationForInterval i) as [du| |] eqn:E; [rewrite (expectedContinuousWindows_ok _ _ _ _ _ E); discriminate | |].
  - unfold expectedContinuousWindows. rewrite E. discriminate.
  - by apply durationForInterval_no_diverge in E.
Qed.
Lemma expected_no_diverge t b l d : expectedCloseWindowsUntil scheduler t b l d <> Diverge.
Proof.
  unfold expectedCloseWindowsUntil. intros H. repeat (inv_div_step; cbv zeta beta in * ).
  all: first [exact (ParseBarInterval_no_diverge _ H) | exact (schedulingMarket_no_diverge _ H) |
    exact (expectedContinuousWindows_no_diverge _ _ _ _ H) | exact (expectedUSWindows_no_diverge _ _ _ _ _ H)].
Qed.
#[local] Hint Resolve latestWindow_no_diverge barForOpen_no_diverge expected_no_diverge : nodiv.

Lemma validateCheckpoint_no_diverge i c : validateCheckpoint i c <> Diverge.
Proof. unfold validateCheckpoint. no_diverge. Qed.
Lemma Delay_no_diverge p t : Delay p t <> Diverge.
Proof. unfold Delay. no_diverge. Qed.
Lemma secondsDuration_no_diverge s : secondsDuration s <> Diverge.
Proof. unfold secondsDuration. no_diverge. Qed.
#[local] Hint Resolve secondsDuration_no_diverge : nodiv.
Lemma NewDelayPolicy_no_diverge a b : NewDelayPolicy a b <> Diverge.
Proof. unfold NewDelayPolicy. no_diverge. Qed.
Lemma target_Validate_no_diverge t : target_Validate t <> Diverge.
Proof. unfold target_Validate. cbv zeta. no_diverge. Qed.
Lemma batch_Validate_no_diverge b : batch_Validate b <> Diverge.
Proof. unfold batch_Validate. cbv zeta. no_diverge. Qed.
#[local] Hint Resolve validateCheckpoint_no_diverge Delay_no_diverge NewDelayPolicy_no_diverge target_Validate_no_diverge
  batch_Validate_no_diverge : nodiv.

Lemma finishes_checkpointBoundary target latest delay ckpt : finishes (checkpointBoundary scheduler target latest delay ckpt).
Proof.
  unfold checkpointBoundary. destruct ckpt as [c|]; [| auto with nodiv].
  apply finishes_bind; [auto with nodiv |]. intros _. destruct (ckpt_LastClosedOpenTime c); [| auto with nodiv].
  apply finishes_bind; [auto with nodiv |]. intros bar. apply finishes_bind; [auto with nodiv |]. intros prefix.
  destruct (span_of prefix) as [[a b]|]; auto with nodiv.
Qed.
Lemma finishes_catchUp target delay o : finishes (catchUpWindows scheduler target delay o).
Proof.
  unfold catchUpWindows. apply finishes_bind; [auto with nodiv |]. intros [latest|]; [| auto with nodiv].
  apply finishes_if; [auto with nodiv |]. apply finishes_bind; [auto with nodiv |]. intros ckpt.
  apply finishes_bind; [apply finishes_checkpointBoundary |]. intros bd. apply finishes_bind; [unfold expectedCloseWindows; auto with nodiv |]. intros cs.
  destruct (span_of cs) as [[a b]|]; auto with nodiv.
Qed.
Lemma finishes_newBatch target w o : finishes (newBatch newID scheduler target w o).
Proof.
  assert (forall k f, finishes (newScheduledID newID k f)) as Hn.
  { intros k f. unfold newScheduledID. auto 6 with nodiv. }
  unfold newBatch. apply finishes_bind; [apply Hn |]. intros rid. apply finishes_bind; [apply Hn |]. intros tid. auto with nodiv.
Qed.
Lemma finishes_create_batches target o ws : finishes (create_batches newID scheduler target o ws).
Proof.
  induction ws as [|w ws IH]; cbn [create_batches]; [auto with nodiv |].
  apply finishes_bind; [auto with nodiv |]. intros _. apply finishes_bind; [auto using finishes_newBatch with nodiv |]. intros b.
  apply finishes_bind; [auto with nodiv |]. intros c. apply finishes_bind; auto with nodiv.
Qed.
Lemma finishes_trigger target policy o trigger : finishes (schedule_trigger newID scheduler target policy o trigger).
Proof.
  unfold schedule_trigger. apply finishes_bind; [auto with nodiv |]. intros [delay|]; [| auto with nodiv].
  apply finishes_bind; [| intros ws; apply finishes_create_batches].
  apply finishes_wrap, finishes_store. unfold trigger_windows. auto using finishes_catchUp with nodiv.
Qed.
Lemma finishes_targets ts o : finishes (schedule_targets newID scheduler ts o).
Proof.
  induction ts as [|t ts IH]; cbn [schedule_targets]; [auto with nodiv |]. apply finishes_bind; [| auto].
  unfold schedule_target. apply finishes_bind; [auto with nodiv |]. intros _. apply finishes_bind; [auto with nodiv |]. intros _.
  apply finishes_bind; [auto with nodiv |]. intros p. apply finishes_bind; [apply finishes_trigger | intros _; apply finishes_trigger].
Qed.

(** The pages of a store advance: fewer targets remain after each. *)
Context (remaining : option ID -> nat)
        (Hadvance : forall a n t w page next, fst (ListSchedulingTargets a n t w) = Ok page ->
           page_NextAfterID page = Some next -> (remaining (Some next) < remaining a)%nat).

Lemma finishes_scan fuel o after : (remaining after < fuel)%nat -> finishes (scan_pages newID scheduler fuel o after).
Proof.
  revert after. induction fuel as [|fuel IH]; intros after Hf; [lia |]. cbn [scan_pages].
  intros [w r]. unfold mbind at 1, mwrap, store. simpl.
  pose proof (Hadvance after (sched_pageSize scheduler) o w) as Ha.
  pose proof (Hlist after (sched_pageSize scheduler) o w) as Hl.
  destruct (ListSchedulingTargets after (sched_pageSize scheduler) o w) as [[page|e|] w']; simpl in *;
    [| discriminate | done].
  apply finishes_if; [auto with nodiv |]. apply finishes_bind; [apply finishes_targets |]. intros _.
  destruct (page_NextAfterID page) as [next|] eqn:En; [| auto with nodiv]. apply finishes_if; [auto with nodiv |].
  apply IH. specialize (Ha page next eq_refl En). lia.
Qed.
End Finishes.

(** *** The counters *)
Definition counted (s : W * IncrementalResult) : Prop :=
  res_DueWindows (snd s) = res_CreatedRuns (snd s) + res_ExistingRuns (snd s).

Lemma keeps_store {A} (c : M W A) : keeps counted (store c).
Proof. intros [w r] a Hw. unfold store. simpl. by destruct (c w). Qed.
#[local] Hint Resolve keeps_store : keepdb.
Lemma keeps_if {V A} P (b : bool) (c d : M V A) : keeps P c -> keeps P d -> keeps P (if b then c else d).
Proof. by destruct b. Qed.
#[local] Hint Resolve keeps_if : keepdb.

Lemma keeps_create_batches target o ws : keeps counted (create_batches newID scheduler target o ws).
Proof.
  induction ws as [|w ws IH]; cbn [create_batches]; [auto with keepdb |].
  intros [w0 r] a Hc. unfold mbind, bump, store, mwrap. simpl.
  destruct (newBatch newID scheduler target w o w0) as [[b|e|] w1]; simpl; try discriminate.
  destruct (CreateScheduledBatch b w1) as [[created|e|] w2]; simpl; try discriminate.
  apply IH. unfold counted in *. simpl in *. destruct created; lia.
Qed.
Lemma keeps_bump_scanned : keeps counted (@bump W add_scanned).
Proof. intros s a Hs _. exact Hs. Qed.
#[local] Hint Resolve keeps_bump_scanned keeps_create_batches : keepdb.
Lemma keeps_trigger target policy o trigger : keeps counted (schedule_trigger newID scheduler target policy o trigger).
Proof. unfold schedule_trigger. apply keeps_bind; [auto with keepdb |]. intros [delay|]; auto with keepdb. Qed.
#[local] Hint Resolve keeps_trigger : keepdb.
Lemma keeps_targets ts o : keeps counted (schedule_targets newID scheduler ts o).
Proof.
  induction ts as [|t ts IH]; cbn [schedule_targets]; [auto with keepdb |]. apply keeps_bind; [| auto].
  unfold schedule_target. auto 8 with keepdb.
Qed.
Lemma keeps_scan fuel o after : keeps counted (scan_pages newID scheduler fuel o after).
Proof.
  revert after. induction fuel as [|fuel IH]; intros after; cbn [scan_pages]; [auto with keepdb |].
  apply keeps_bind; [auto with keepdb |]. intros page. apply keeps_if; [auto with keepdb |].
  apply keeps_bind; [apply keeps_targets |]. intros _. destruct (page_NextAfterID page); auto with keepdb.
Qed.
End Scan.

(** ** Properties *)

(** The stable run key identifies the scheduled range: two windows of the
    scheduler's triggers with the same key have the same trigger, subscription
    and bounds, so that the unique run key creates each range once. *)
Theorem stable_run_key_injective (U : UUIDLib) (UL : UUIDLaws U) trigger trigger' id id' start start' stop stop' :
  trigger = WindowTriggerClose \/ trigger = WindowTriggerRevision ->
  trigger' = WindowTriggerClose \/ trigger' = WindowTriggerRevision ->
  (id < 2 ^ 128)%N -> (id' < 2 ^ 128)%N ->
  four_digit_year start -> four_digit_year start' -> four_digit_year stop -> four_digit_year stop' ->
  StableRunKey trigger id start stop = StableRunKey trigger' id' start' stop' ->
  trigger = trigger' /\ id = id' /\ start = start' /\ stop = stop'.
Proof.
  intros Ht Ht' Hid Hid' Hs Hs' He He'.
  assert (forall pre pre' : string, String.length pre = String.length pre' ->
    (pre ++ uuid_String id ++ "." ++ FormatKey start ++ "." ++ FormatKey stop)%string =
    (pre' ++ uuid_String id' ++ "." ++ FormatKey start' ++ "." ++ FormatKey stop')%string ->
    id = id' /\ start = start' /\ stop = stop') as Hrest.
  { intros pre pre' Hp H. apply string_app_inj_l in H as [_ H]; [| exact Hp].
    apply string_app_inj_l in H as [Hu H]; [| by rewrite !uuid_String_length].
    apply string_app_inj_l in H as [_ H]; [| reflexivity].
    apply string_app_inj_l in H as [H1 H]; [| by rewrite !FormatKey_length].
    apply string_app_inj_l in H as [_ H2]; [| reflexivity].
    split; [by apply uuid_String_inj | split; by apply FormatKey_inj]. }
  unfold StableRunKey. destruct Ht as [-> | ->], Ht' as [-> | ->]; intros H.
  - split; [reflexivity |]. by apply (Hrest "incremental.scheduler.close."%string "incremental.scheduler.close."%string).
  - discriminate.
  - discriminate.
  - split; [reflexivity |]. by apply (Hrest "revision.scheduler.revision."%string "revision.scheduler.revision."%string).
Qed.

Definition example_id (n : N) : ID := (7 * 2 ^ 76 + n)%N.
Lemma stable_run_key_injective_witness :
  WindowTriggerClose = WindowTriggerClose /\ example_id 1 = example_id 1 /\ july = july /\ july + Hour = july + Hour.
Proof.
  refine (stable_run_key_injective Concrete.hex_uuid Concrete.hex_uuid_laws
    WindowTriggerClose WindowTriggerClose (example_id 1) (example_id 1) july july (july + Hour) (july + Hour)
    (or_introl eq_refl) (or_introl eq_refl) _ _ _ _ _ _ eq_refl); vm_compute; first [reflexivity | split; [discriminate | reflexivity]].
Defined.

Section ScanProperties.
Context {W : Type} {St : IncrementalStore W} {U : UUIDLib} (newID : M W ID) (now : W -> Time).
Context (scheduler : IncrementalScheduler) {L : CalendarLaws (sched_usCalendar scheduler)}.

(** C17. A scan only hands valid, due batches to the store: every invariant
    of the store that its reads, its recovery, the ID generator and the
    creation of such batches keep is kept by [RunOnce], whatever its outcome
    (a batch is created at the observed instant, with the scheduler's retry
    limit, and its window was due). *)
Theorem run_once_invariant (I : W -> Prop) fuel w :
  safe I newID (fun _ => True) ->
  (forall a n t, safe I (ListSchedulingTargets a n t) (fun _ => True)) ->
  (forall id, safe I (LoadSchedulingCheckpoint id) (fun _ => True)) ->
  (forall t a b, safe I (ListClosedBarOpenTimes t a b) (fun _ => True)) ->
  (forall t, safe I (RecoverExpiredTasks t) (fun _ => True)) ->
  (forall b, good_batch scheduler (now w) b -> safe I (CreateScheduledBatch b) (fun _ => True)) ->
  I w -> I (fst (snd (RunOnce newID now scheduler fuel w))).
Proof.
  intros Hid Hlist Hckpt Hbars Hrec Hcreate Hw. unfold RunOnce.
  assert (safe (onW I) (mfailif IsZero (now w), Wrap "run incremental scheduler" (Sentinel ErrInvalidData) ;;
    recovered <-- mwrap "recover expired ingestion tasks" (store (RecoverExpiredTasks (now w))) ;;
    _ <-- bump (set_recovered recovered) ;; scan_pages newID scheduler fuel (now w) None) (fun _ => True)) as Hs.
  { apply safe_failif. intros _. eapply safe_bind; [apply safe_wrap, safe_store, Hrec |]. intros n _.
    eapply safe_bind; [apply safe_bump |]. intros _ _. by apply safe_scan. }
  by apply (Hs (w, zero_result) Hw).
Qed.

(** When a scan succeeds every due window has been created or existed:
    the counters add up. *)
Theorem run_once_counts fuel w : fst (RunOnce newID now scheduler fuel w) = Ok tt ->
  let r := snd (snd (RunOnce newID now scheduler fuel w)) in
  res_DueWindows r = res_CreatedRuns r + res_ExistingRuns r.
Proof.
  unfold RunOnce. set (c := (if IsZero (now w) then _ else _)). intros H. cbv zeta.
  assert (keeps counted c) as Hk.
  { unfold c. apply keeps_if; [apply keeps_throw |]. apply keeps_bind; [apply keeps_wrap, keeps_store |].
    intros n. apply keeps_bind; [intros s a Hs _; exact Hs |]. intros _. apply keeps_scan. }
  exact (Hk (w, zero_result) tt eq_refl H).
Qed.

(** A scan terminates: when the store's own operations do and its pages
    advance, no loop of [RunOnce] (the pages, the session scans, the bar
    loops) runs out of its fuel. *)
Theorem run_once_terminates (remaining : option ID -> nat) fuel w :
  finishes newID -> (forall a n t, finishes (ListSchedulingTargets a n t)) ->
  (forall id, finishes (LoadSchedulingCheckpoint id)) -> (forall t a b, finishes (ListClosedBarOpenTimes t a b)) ->
  (forall b, finishes (CreateScheduledBatch b)) -> (forall t, finishes (RecoverExpiredTasks t)) ->
  (forall a n t w page next, fst (ListSchedulingTargets a n t w) = Ok page ->
     page_NextAfterID page = Some next -> (remaining (Some next) < remaining a)%nat) ->
  (remaining None < fuel)%nat -> fst (RunOnce newID now scheduler fuel w) <> Diverge.
Proof.
  intros Hid Hlist Hckpt Hbars Hcreate Hrec Hadv Hf. unfold RunOnce. revert w.
  assert (forall t, finishes (recovered <-- mwrap "recover expired ingestion tasks" (store (RecoverExpiredTasks t)) ;;
    _ <-- bump (set_recovered recovered) ;; scan_pages newID scheduler fuel t None)) as Hs.
  { intros t. apply finishes_bind; [apply finishes_wrap, finishes_store, Hrec |]. intros n.
    apply finishes_bind; [apply finishes_bump |]. intros _. by apply (finishes_scan newID scheduler Hid Hlist Hckpt Hbars Hcreate remaining Hadv). }
  intros w. case_if; [discriminate | apply Hs].
Qed.
End ScanProperties.

(** *** A small store for the witnesses: one crypto target, an ID counter and
    the list of the created batches. *)
Definition demo_world : Type := (N * list ScheduledBatch)%type.
Definition demo_target : SchedulingTarget := {|
  tgt_Subscription := mkCollectionSubscription (example_id 1) (example_id 2) BarInterval1Hour true 0 30 (Some 120) "{}"
    (july - 3 * Hour) (july - 3 * Hour);
  tgt_ProviderCode := "bybit"; tgt_ProviderMarket := "spot"; tgt_InstrumentCode := "instrument.btc-usdt";
  tgt_AssetType := AssetTypeCrypto; tgt_InstrumentType := InstrumentTypeSpot;
  tgt_Capabilities := mkCapabilities false true [BarInterval1Hour] |}.
#[local] Instance demo_store : IncrementalStore demo_world := {|
  ListSchedulingTargets _ _ _ := mret (mkSchedulingTargetPage [demo_target] None);
  LoadSchedulingCheckpoint _ := mret None;
  ListClosedBarOpenTimes _ _ _ := mret [];
  CreateScheduledBatch b := fun w => (Ok true, (fst w, b :: snd w));
  RecoverExpiredTasks _ := mret 0 |}.
Definition demo_newID : M demo_world ID := fun w => (Ok (example_id (10 + fst w)), ((fst w + 1)%N, snd w)).
Definition demo_scheduler : IncrementalScheduler := mkIncrementalScheduler (nyse_TradingCalendar official) 50 5 500 20.
#[local] Instance demo_uuid : UUIDLib := Concrete.hex_uuid.

Lemma run_once_invariant_witness :
  Forall (good_batch demo_scheduler july) (snd (fst (snd (RunOnce demo_newID (fun _ => july) demo_scheduler 3 (0%N, []))))).
Proof.
  apply (run_once_invariant demo_newID (fun _ => july) demo_scheduler
    (fun w => Forall (good_batch demo_scheduler july) (snd w)) 3 (0%N, []));
    try (intros; intros w Hw; split; [exact Hw | auto]; fail); [| constructor].
  intros b Hb w Hw. split; [constructor; assumption | auto].
Defined.

Lemma run_once_counts_witness :
  let r := snd (snd (RunOnce demo_newID (fun _ => july) demo_scheduler 3 (0%N, []))) in
  res_DueWindows r = res_CreatedRuns r + res_ExistingRuns r /\ res_DueWindows r = 2.
Proof.
  split; [| vm_compute; reflexivity].
  apply (run_once_counts demo_newID (fun _ => july) demo_scheduler 3 (0%N, [])). vm_compute. reflexivity.
Defined.

Lemma run_once_terminates_witness :
  fst (RunOnce demo_newID (fun _ => july) demo_scheduler 3 (0%N, [])) <> Diverge.
Proof.
  apply (run_once_terminates demo_newID (fun _ => july) demo_scheduler (fun _ => 0%nat));
    try (intros; intros w; discriminate); [| lia].
  intros a n t w page next [= <-]. discriminate.
Defined.
