(* ===== verification/Ports.v ===== *)
(** * internal/ingestion/ports: the adapter contract

    Capabilities, references, normalized quotes and bars, paged bar requests
    and their validation, and the classified provider errors. An error text
    built by [invalidContract] keeps its constant part only. *)
From S2P Require Import Prelude Errors GoStrings GoTime GoJson External Domain MarketData.

Definition maximumAdapterCursorLength : Z := 2048.
Definition invalidContract (message : string) : error :=
  Wrap ("adapter contract: " ++ message) (Sentinel ErrInvalidData).

(** ** Field validators *)
Definition validateProviderMarket (value : string) : result unit :=
  failif (32 <? RuneCountInString value) || negb (match_segments is_market_sep false value),
         invalidContract "provider market is invalid" ;;
  Ok tt.

Definition validateAdapterText (value : string) (maximum : Z) (field : string) : result unit :=
  failif (value =s EmptyString) || (TrimSpace value <>s value) || (maximum <? RuneCountInString value),
         invalidContract (field ++ " is invalid") ;;
  Ok tt.

Definition validOptionalJSONObject (raw : string) : bool := (slen raw =? 0) || unmarshals_raw_object raw.
Definition validOptionalJSON (raw : string) : bool := (slen raw =? 0) || json_Valid raw.

(** The loops over the declared values, with the set of the values seen. *)
Fixpoint validate_distinct (parse : string -> result string) (unsupported duplicate : error) (seen values : list string) : result unit :=
  match values with
  | [] => Ok tt
  | value :: rest =>
      failif negb (is_ok (parse value)), unsupported ;;
      failif contains_string seen value, duplicate ;;
      validate_distinct parse unsupported duplicate (value :: seen) rest
  end.

Definition validateAssetTypes (values : list string) : result unit :=
  failif llen values =? 0, invalidContract "provider market asset types are required" ;;
  validate_distinct ParseAssetType (invalidContract "provider market contains an unsupported asset type")
    (invalidContract "provider market contains a duplicate asset type") [] values.

Definition validateInstrumentTypes (values : list string) : result unit :=
  failif llen values =? 0, invalidContract "provider market instrument types are required" ;;
  validate_distinct ParseInstrumentType (invalidContract "provider market contains an unsupported instrument type")
    (invalidContract "provider market contains a duplicate instrument type") [] values.

(** ** Capabilities *)
Record ProviderMarketCapability := mkProviderMarketCapability {
  pmc_ProviderMarket : string; pmc_AssetTypes : list string; pmc_InstrumentTypes : list string;
  pmc_SupportsQuote : bool; pmc_SupportsBars : bool; pmc_Intervals : list string;
  pmc_MaxBatchSize : Z; pmc_MaxBarsPerRequest : Z }.

Record ProviderCapabilities := mkProviderCapabilities {
  pc_ProviderCode : Code; pc_Markets : list ProviderMarketCapability }.

Definition marketCapability_Validate (c : ProviderMarketCapability) : result unit :=
  validateProviderMarket (pmc_ProviderMarket c) ;;;
  validateAssetTypes (pmc_AssetTypes c) ;;;
  validateInstrumentTypes (pmc_InstrumentTypes c) ;;;
  failif negb (pmc_SupportsQuote c) && negb (pmc_SupportsBars c),
         invalidContract "provider market must support quote or bars" ;;
  failif pmc_SupportsQuote c && (pmc_MaxBatchSize c <=? 0),
         invalidContract "quote capability requires a positive max batch size" ;;
  failif negb (pmc_SupportsQuote c) && negb (pmc_MaxBatchSize c =? 0),
         invalidContract "max batch size requires quote capability" ;;
  failif pmc_SupportsBars c && ((pmc_MaxBarsPerRequest c <=? 0) || (llen (pmc_Intervals c) =? 0)),
         invalidContract "bar capability requires intervals and a positive request limit" ;;
  failif negb (pmc_SupportsBars c) && (negb (pmc_MaxBarsPerRequest c =? 0) || negb (llen (pmc_Intervals c) =? 0)),
         invalidContract "bar intervals and limit require bar capability" ;;
  validate_distinct ParseBarInterval (invalidContract "provider market contains an unsupported interval")
    (invalidContract "provider market contains a duplicate interval") [] (pmc_Intervals c).

Fixpoint validate_markets (seen : list string) (markets : list ProviderMarketCapability) : result unit :=
  match markets with
  | [] => Ok tt
  | market :: rest =>
      wrap "validate provider market" (marketCapability_Validate market) ;;;
      failif contains_string seen (pmc_ProviderMarket market), invalidContract "provider market is duplicated" ;;
      validate_markets (pmc_ProviderMarket market :: seen) rest
  end.

Definition providerCapabilities_Validate (c : ProviderCapabilities) : result unit :=
  failif code_IsZero (pc_ProviderCode c), invalidContract "provider code is required" ;;
  failif llen (pc_Markets c) =? 0, invalidContract "at least one provider market is required" ;;
  validate_markets [] (pc_Markets c).

(** ** Instrument references *)
Record ProviderInstrumentRef := mkProviderInstrumentRef {
  ref_ProviderInstrumentID : ID; ref_ProviderInstrumentCode : Code; ref_InstrumentID : ID; ref_AssetID : ID;
  ref_ProviderCode : Code; ref_ProviderMarket : string; ref_AssetType : string; ref_InstrumentType : string;
  ref_ExternalSymbol : string; ref_InstrumentCode : Code; ref_InstrumentSymbol : string;
  ref_QuoteCurrency : string; ref_Metadata : string }.

Definition reference_Validate (r : ProviderInstrumentRef) : result unit :=
  failif id_IsZero (ref_ProviderInstrumentID r) || id_IsZero (ref_InstrumentID r) || id_IsZero (ref_AssetID r),
         invalidContract "provider instrument, instrument and asset IDs are required" ;;
  failif negb (HasPrefix (ref_ProviderInstrumentCode r) "provider."), invalidContract "provider instrument code is invalid" ;;
  failif negb (HasPrefix (ref_InstrumentCode r) "instrument."), invalidContract "instrument code is invalid" ;;
  failif code_IsZero (ref_ProviderCode r), invalidContract "provider code is required" ;;
  validateProviderMarket (ref_ProviderMarket r) ;;;
  failif negb (is_ok (ParseAssetType (ref_AssetType r))), invalidContract "provider instrument asset type is unsupported" ;;
  failif negb (is_ok (ParseInstrumentType (ref_InstrumentType r))), invalidContract "provider instrument type is unsupported" ;;
  validateAdapterText (ref_ExternalSymbol r) 128 "external symbol" ;;;
  validateAdapterText (ref_InstrumentSymbol r) 64 "instrument symbol" ;;;
  validateAdapterText (ref_QuoteCurrency r) 16 "quote currency" ;;;
  failif negb (validOptionalJSONObject (ref_Metadata r)),
         invalidContract "provider instrument metadata must be a JSON object" ;;
  Ok tt.

(** ** Provider errors *)
Definition ProviderErrorRateLimited : string := "rate_limited".
Definition ProviderErrorNetwork : string := "network".
Definition ProviderErrorTemporaryUnavailable : string := "temporary_unavailable".
Definition ProviderErrorUnauthorized : string := "unauthorized".
Definition ProviderErrorInvalidInstrument : string := "invalid_instrument".
Definition ProviderErrorUnsupportedInterval : string := "unsupported_interval".
Definition ProviderErrorBadRequest : string := "bad_request".
Definition ProviderErrorInvalidResponse : string := "invalid_response".
Definition ProviderErrorUnknown : string := "unknown".

Definition ParseProviderErrorCode : string -> result string :=
  parse_enum [ProviderErrorRateLimited; ProviderErrorNetwork; ProviderErrorTemporaryUnavailable;
              ProviderErrorUnauthorized; ProviderErrorInvalidInstrument; ProviderErrorUnsupportedInterval;
              ProviderErrorBadRequest; ProviderErrorInvalidResponse; ProviderErrorUnknown]
    (invalidContract "unsupported provider error code").

Definition Retryable (code : string) : bool :=
  contains_string [ProviderErrorRateLimited; ProviderErrorNetwork; ProviderErrorTemporaryUnavailable; ProviderErrorUnknown] code.

Definition providerError_Validate (provider class message : string) (retryAfter : option Duration) : result unit :=
  failif code_IsZero provider, invalidContract "provider error requires a provider code" ;;
  ParseProviderErrorCode class ;;;
  failif (message =s EmptyString) || (TrimSpace message <>s message) || (512 <? RuneCountInString message),
         invalidContract "provider error safe message is invalid" ;;
  failif opt_test (fun d => (d <=? 0) || negb (Retryable class)) retryAfter,
         invalidContract "retry-after requires a positive retryable provider error" ;;
  Ok tt.

Definition NewProviderError (provider class message : string) (retryAfter : option Duration) (cause : option error) : result error :=
  providerError_Validate provider class message retryAfter ;;;
  Ok (ProviderErr provider class message retryAfter cause).

(** The fields of a provider error. *)
Record ProviderError := mkProviderError {
  pe_ProviderCode : Code; pe_Code : string; pe_Message : string; pe_RetryAfter : option Duration }.

Definition AsProviderError (e : error) : option ProviderError :=
  match errors_AsProvider e with
  | Some (ProviderErr provider class message retryAfter _) =>
      match providerError_Validate provider class message retryAfter with
      | Ok _ => Some (mkProviderError provider class message retryAfter)
      | _ => None
      end
  | _ => None
  end.

Definition IsRetryableProviderError (e : error) : bool := opt_test (fun p => Retryable (pe_Code p)) (AsProviderError e).

Section Payloads.
Context `{D : DecimalLib}.

(** ** Quotes *)
Record ProviderQuote := mkProviderQuote {
  pq_ProviderInstrumentID : ID; pq_InstrumentID : ID; pq_AssetID : ID; pq_ProviderCode : Code;
  pq_LastPrice : Decimal; pq_BidPrice : option Decimal; pq_BidSize : option Decimal;
  pq_AskPrice : option Decimal; pq_AskSize : option Decimal; pq_Open24H : option Decimal;
  pq_High24H : option Decimal; pq_Low24H : option Decimal; pq_BaseVolume24H : option Decimal;
  pq_QuoteVolume24H : option Decimal; pq_MarketTime : Time; pq_ReceivedAt : Time; pq_RawPayload : string }.

Definition providerQuote_Validate (q : ProviderQuote) : result unit :=
  failif id_IsZero (pq_AssetID q) || code_IsZero (pq_ProviderCode q),
         invalidContract "quote asset ID and provider code are required" ;;
  wrap "validate provider quote" (NewQuote {|
    quote_InstrumentID := pq_InstrumentID q; quote_ProviderInstrumentID := pq_ProviderInstrumentID q;
    quote_MarketTime := pq_MarketTime q; quote_LastPrice := pq_LastPrice q; quote_BidPrice := pq_BidPrice q;
    quote_BidSize := pq_BidSize q; quote_AskPrice := pq_AskPrice q; quote_AskSize := pq_AskSize q;
    quote_Open24H := pq_Open24H q; quote_High24H := pq_High24H q; quote_Low24H := pq_Low24H q;
    quote_BaseVolume24H := pq_BaseVolume24H q; quote_QuoteVolume24H := pq_QuoteVolume24H q;
    quote_QualityStatus := QualityStatusUnchecked; quote_CollectedAt := pq_ReceivedAt q; quote_Metadata := "{}" |}) ;;;
  failif negb (validOptionalJSON (pq_RawPayload q)), invalidContract "quote raw payload is invalid JSON" ;;
  Ok tt.

Definition quote_ValidateFor (q : ProviderQuote) (r : ProviderInstrumentRef) : result unit :=
  reference_Validate r ;;;
  providerQuote_Validate q ;;;
  failif (pq_ProviderInstrumentID q <>id ref_ProviderInstrumentID r) || (pq_InstrumentID q <>id ref_InstrumentID r)
         || (pq_AssetID q <>id ref_AssetID r) || (pq_ProviderCode q <>s ref_ProviderCode r),
         invalidContract "quote does not match provider instrument reference" ;;
  Ok tt.

(** The two loops of the batch check: the requested references by mapping ID,
    then the results against them. *)
Fixpoint requested_references (providerCode : Code) (requested : gmap ID ProviderInstrumentRef)
    (references : list ProviderInstrumentRef) : result (gmap ID ProviderInstrumentRef) :=
  match references with
  | [] => Ok requested
  | r :: rest =>
      reference_Validate r ;;;
      failif ref_ProviderCode r <>s providerCode, invalidContract "quote reference belongs to another provider" ;;
      failif not_nil (requested !! ref_ProviderInstrumentID r), invalidContract "quote reference is duplicated" ;;
      requested_references providerCode (<[ref_ProviderInstrumentID r := r]> requested) rest
  end.

Fixpoint validate_quotes (requested : gmap ID ProviderInstrumentRef) (seen : gset ID) (quotes : list ProviderQuote) : result unit :=
  match quotes with
  | [] => Ok tt
  | q :: rest =>
      match requested !! pq_ProviderInstrumentID q with
      | None => Err (invalidContract "quote result was not requested")
      | Some r =>
          failif bool_decide (pq_ProviderInstrumentID q ∈ seen), invalidContract "quote result is duplicated" ;;
          quote_ValidateFor q r ;;;
          validate_quotes requested ({[pq_ProviderInstrumentID q]} ∪ seen) rest
      end
  end.

Definition ValidateLatestQuoteBatch (providerCode : Code) (references : list ProviderInstrumentRef)
    (quotes : list ProviderQuote) : result unit :=
  failif code_IsZero providerCode || (llen references =? 0),
         invalidContract "provider code and quote references are required" ;;
  requested <- requested_references providerCode ∅ references ;;
  validate_quotes requested ∅ quotes.

(** ** Bars *)
Record ProviderBar := mkProviderBar {
  pb_ProviderInstrumentID : ID; pb_InstrumentID : ID; pb_AssetID : ID; pb_ProviderCode : Code;
  pb_Interval : string; pb_OpenTime : Time; pb_CloseTime : Time; pb_Open : Decimal; pb_High : Decimal;
  pb_Low : Decimal; pb_Close : Decimal; pb_BaseVolume : option Decimal; pb_QuoteVolume : option Decimal;
  pb_TradeCount : option Z; pb_IsClosed : bool; pb_ProviderUpdatedAt : option Time; pb_ReceivedAt : Time;
  pb_RawPayload : string }.

(** The domain bar of a provider bar. *)
Definition bar_of_provider (b : ProviderBar) (quality rawHash metadata : string) : Bar := {|
  bar_InstrumentID := pb_InstrumentID b; bar_ProviderInstrumentID := pb_ProviderInstrumentID b;
  bar_Interval := pb_Interval b; bar_OpenTime := pb_OpenTime b; bar_Revision := 0;
  bar_CloseTime := pb_CloseTime b; bar_OpenPrice := pb_Open b; bar_HighPrice := pb_High b;
  bar_LowPrice := pb_Low b; bar_ClosePrice := pb_Close b; bar_BaseVolume := pb_BaseVolume b;
  bar_QuoteVolume := pb_QuoteVolume b; bar_TradeCount := pb_TradeCount b; bar_IsClosed := pb_IsClosed b;
  bar_IsCurrent := false; bar_QualityStatus := quality; bar_ProviderUpdatedAt := pb_ProviderUpdatedAt b;
  bar_CollectedAt := pb_ReceivedAt b; bar_RawHash := rawHash; bar_Metadata := metadata |}.

Definition providerBar_Validate (b : ProviderBar) : result unit :=
  failif id_IsZero (pb_AssetID b) || code_IsZero (pb_ProviderCode b),
         invalidContract "bar asset ID and provider code are required" ;;
  wrap "validate provider bar" (NewBar (bar_of_provider b QualityStatusUnchecked EmptyString "{}")) ;;;
  failif negb (validOptionalJSON (pb_RawPayload b)), invalidContract "bar raw payload is invalid JSON" ;;
  Ok tt.

Definition bar_ValidateFor (b : ProviderBar) (r : ProviderInstrumentRef) : result unit :=
  reference_Validate r ;;;
  providerBar_Validate b ;;;
  failif (pb_ProviderInstrumentID b <>id ref_ProviderInstrumentID r) || (pb_InstrumentID b <>id ref_InstrumentID r)
         || (pb_AssetID b <>id ref_AssetID r) || (pb_ProviderCode b <>s ref_ProviderCode r),
         invalidContract "bar does not match provider instrument reference" ;;
  Ok tt.

Record FetchBarsRequest := mkFetchBarsRequest {
  fbr_Instrument : ProviderInstrumentRef; fbr_Interval : string; fbr_StartTime : Time; fbr_EndTime : Time;
  fbr_Limit : Z; fbr_Cursor : string }.

Record FetchBarsResult := mkFetchBarsResult {
  fbs_Bars : list ProviderBar; fbs_NextCursor : string; fbs_HasMore : bool }.

Definition request_Validate (q : FetchBarsRequest) : result unit :=
  reference_Validate (fbr_Instrument q) ;;;
  failif negb (is_ok (ParseBarInterval (fbr_Interval q))), invalidContract "bar interval is unsupported" ;;
  failif IsZero (fbr_StartTime q) || IsZero (fbr_EndTime q) || negb (Before (fbr_StartTime q) (fbr_EndTime q)),
         invalidContract "bar request requires a bounded increasing time range" ;;
  failif fbr_Limit q <=? 0, invalidContract "bar request limit must be positive" ;;
  failif maximumAdapterCursorLength <? slen (fbr_Cursor q), invalidContract "bar request cursor is too long" ;;
  Ok tt.

(** The loop over the bars of a page, with the previous bar's open time. *)
Fixpoint validate_page_bars (q : FetchBarsRequest) (previous : option Time) (bars : list ProviderBar) : result unit :=
  match bars with
  | [] => Ok tt
  | b :: rest =>
      bar_ValidateFor b (fbr_Instrument q) ;;;
      failif (pb_Interval b <>s fbr_Interval q) || Before (pb_OpenTime b) (fbr_StartTime q)
             || negb (Before (pb_OpenTime b) (fbr_EndTime q)),
             invalidContract "bar result does not match interval or requested range" ;;
      failif opt_test (fun p => negb (After (pb_OpenTime b) p)) previous,
             invalidContract "bar result must be strictly ascending by open time" ;;
      validate_page_bars q (Some (pb_OpenTime b)) rest
  end.

Definition page_Validate (p : FetchBarsResult) (q : FetchBarsRequest) : result unit :=
  request_Validate q ;;;
  failif fbr_Limit q <? llen (fbs_Bars p), invalidContract "bar result exceeds request limit" ;;
  failif fbs_HasMore p && ((fbs_NextCursor p =s EmptyString) || (fbs_NextCursor p =s fbr_Cursor q) || (llen (fbs_Bars p) =? 0)),
         invalidContract "bar result does not provide a progressing next cursor" ;;
  failif fbs_HasMore p && (maximumAdapterCursorLength <? slen (fbs_NextCursor p)),
         invalidContract "bar result cursor is too long" ;;
  failif negb (fbs_HasMore p) && (fbs_NextCursor p <>s EmptyString),
         invalidContract "terminal bar result cannot contain a next cursor" ;;
  validate_page_bars q None (fbs_Bars p).
End Payloads.
