(* ===== verification/Registry.v ===== *)
(** * internal/providers/registry.go: the adapter registry

    An immutable snapshot of the adapters and their capabilities, keyed by
    provider code, and the validation of requests against it. An adapter acts
    on a world [W]; a nil adapter is [None]. *)
From S2P Require Import Prelude Errors GoStrings GoTime GoJson External Domain MarketData Ports.

Section Registry.
Context `{D : DecimalLib} {W : Type}.

Record MarketDataAdapter := mkMarketDataAdapter {
  adapter_ProviderCode : Code;
  adapter_Capabilities : M W ProviderCapabilities;
  adapter_FetchLatestQuotes : list ProviderInstrumentRef -> M W (list ProviderQuote);
  adapter_FetchBars : FetchBarsRequest -> M W FetchBarsResult }.

Record registryEntry := mkRegistryEntry { entry_adapter : MarketDataAdapter; entry_capabilities : ProviderCapabilities }.
Record Registry := mkRegistry { reg_entries : gmap string registryEntry; reg_ordered : list MarketDataAdapter }.

(** [sort.Slice] by provider code; the codes of a registry are distinct. *)
Fixpoint insert_adapter (a : MarketDataAdapter) (l : list MarketDataAdapter) : list MarketDataAdapter :=
  match l with
  | [] => [a]
  | b :: rest => if String.ltb (adapter_ProviderCode b) (adapter_ProviderCode a) then b :: insert_adapter a rest else a :: l
  end.
Definition sort_adapters (l : list MarketDataAdapter) : list MarketDataAdapter := fold_right insert_adapter [] l.

Fixpoint register_adapters (r : Registry) (adapters : list (option MarketDataAdapter)) : M W Registry :=
  match adapters with
  | [] => mret r
  | None :: _ => mthrow (Wrap "register adapter" (Sentinel ErrInvalidData))
  | Some a :: rest =>
      let code := adapter_ProviderCode a in
      mfailif code_IsZero code, Wrap "register adapter: provider code is required" (Sentinel ErrInvalidData) ;;
      mfailif not_nil (reg_entries r !! code), Wrap "register adapter" (Sentinel ErrConflict) ;;
      capabilities <-- mwrap "load adapter capabilities" (adapter_Capabilities a) ;;
      mfailif pc_ProviderCode capabilities <>s code,
              Wrap "register adapter: capability provider code mismatch" (Sentinel ErrInvalidData) ;;
      _ <-- mlift (wrap "register adapter" (providerCapabilities_Validate capabilities)) ;;
      register_adapters (mkRegistry (<[code := mkRegistryEntry a capabilities]> (reg_entries r)) (reg_ordered r ++ [a])) rest
  end.

Definition NewRegistry (adapters : list (option MarketDataAdapter)) : M W Registry :=
  r <-- register_adapters (mkRegistry ∅ []) adapters ;;
  mret (mkRegistry (reg_entries r) (sort_adapters (reg_ordered r))).

Definition registry_Get (r : Registry) (providerCode : Code) : option MarketDataAdapter :=
  entry_adapter <$> reg_entries r !! providerCode.
Definition registry_List (r : Registry) : list MarketDataAdapter := reg_ordered r.
Definition registry_Capabilities (r : Registry) (providerCode : Code) : option ProviderCapabilities :=
  entry_capabilities <$> reg_entries r !! providerCode.

Definition registry_entry (r : Registry) (providerCode : Code) : result registryEntry :=
  failif code_IsZero providerCode, Wrap "lookup adapter" (Sentinel ErrAdapterNotRegistered) ;;
  match reg_entries r !! providerCode with
  | None => Err (Wrap "lookup adapter" (Sentinel ErrAdapterNotRegistered))
  | Some e => Ok e
  end.

Definition capability_matches (reference : ProviderInstrumentRef) (c : ProviderMarketCapability) : bool :=
  (pmc_ProviderMarket c =s ref_ProviderMarket reference)
  && contains_string (pmc_AssetTypes c) (ref_AssetType reference)
  && contains_string (pmc_InstrumentTypes c) (ref_InstrumentType reference).
Definition matchingCapability (capabilities : ProviderCapabilities) (reference : ProviderInstrumentRef) : option ProviderMarketCapability :=
  List.find (capability_matches reference) (pc_Markets capabilities).

Definition unsupported (operation : string) : error :=
  Wrap ("provider does not support " ++ operation ++ " request") (Sentinel ErrCapabilityUnsupported).

(** The loop over the references, with the per-market counts and the set of
    sources seen. *)
Fixpoint quote_request_loop (providerCode : Code) (capabilities : ProviderCapabilities) (counts : gmap string Z)
    (seen : gset ID) (references : list ProviderInstrumentRef) : result unit :=
  match references with
  | [] => Ok tt
  | r :: rest =>
      wrap "validate latest quote request" (reference_Validate r) ;;;
      failif ref_ProviderCode r <>s providerCode,
             Wrap "validate latest quote request: provider mismatch" (Sentinel ErrInvalidData) ;;
      failif bool_decide (ref_ProviderInstrumentID r ∈ seen),
             Wrap "validate latest quote request: duplicate source" (Sentinel ErrInvalidData) ;;
      let seen := {[ref_ProviderInstrumentID r]} ∪ seen in
      match matchingCapability capabilities r with
      | None => Err (unsupported "latest quote")
      | Some capability =>
          failif negb (pmc_SupportsQuote capability), unsupported "latest quote" ;;
          let count := default 0 (counts !! ref_ProviderMarket r) + 1 in
          failif pmc_MaxBatchSize capability <? count,
                 Wrap "validate latest quote request for provider" (Sentinel ErrProviderLimitExceeded) ;;
          quote_request_loop providerCode capabilities (<[ref_ProviderMarket r := count]> counts) seen rest
      end
  end.

Definition ValidateLatestQuoteRequest (r : Registry) (providerCode : Code) (references : list ProviderInstrumentRef) : result unit :=
  entry <- registry_entry r providerCode ;;
  failif llen references =? 0, Wrap "validate latest quote request: references are required" (Sentinel ErrInvalidData) ;;
  quote_request_loop providerCode (entry_capabilities entry) ∅ ∅ references.

Definition ValidateBarsRequest (r : Registry) (request : FetchBarsRequest) : result unit :=
  wrap "validate bars request" (request_Validate request) ;;;
  entry <- registry_entry r (ref_ProviderCode (fbr_Instrument request)) ;;
  match matchingCapability (entry_capabilities entry) (fbr_Instrument request) with
  | None => Err (unsupported "bars")
  | Some capability =>
      failif negb (pmc_SupportsBars capability) || negb (contains_string (pmc_Intervals capability) (fbr_Interval request)),
             unsupported "bars" ;;
      failif pmc_MaxBarsPerRequest capability <? fbr_Limit request,
             Wrap "validate bars request for provider" (Sentinel ErrProviderLimitExceeded) ;;
      Ok tt
  end.
End Registry.
#[global] Arguments MarketDataAdapter {D} W.
#[global] Arguments Registry {D} W.
