(* ===== verification/GoSha256.v ===== *)
(** * Package crypto/sha256 and encoding/hex

    SHA-256 (FIPS 180-4) on a string of bytes, with 32-bit words as integers
    modulo 2^32, and the hexadecimal text of the digest. *)
From S2P Require Import Prelude GoStrings.

Definition w32 (z : Z) : Z := z mod 2 ^ 32.
Definition rotr (x n : Z) : Z := Z.lor (Z.shiftr x n) (w32 (Z.shiftl x (32 - n))).
Definition ch32 (x y z : Z) : Z := Z.lxor (Z.land x y) (Z.land (Z.lxor x (2 ^ 32 - 1)) z).
Definition maj32 (x y z : Z) : Z := Z.lxor (Z.lxor (Z.land x y) (Z.land x z)) (Z.land y z).
Definition bsig0 (x : Z) : Z := Z.lxor (Z.lxor (rotr x 2) (rotr x 13)) (rotr x 22).
Definition bsig1 (x : Z) : Z := Z.lxor (Z.lxor (rotr x 6) (rotr x 11)) (rotr x 25).
Definition ssig0 (x : Z) : Z := Z.lxor (Z.lxor (rotr x 7) (rotr x 18)) (Z.shiftr x 3).
Definition ssig1 (x : Z) : Z := Z.lxor (Z.lxor (rotr x 17) (rotr x 19)) (Z.shiftr x 10).

Definition sha_k : list Z :=
  [1116352408; 1899447441; 3049323471; 3921009573; 961987163; 1508970993; 2453635748; 2870763221;
   3624381080; 310598401; 607225278; 1426881987; 1925078388; 2162078206; 2614888103; 3248222580;
   3835390401; 4022224774; 264347078; 604807628; 770255983; 1249150122; 1555081692; 1996064986;
   2554220882; 2821834349; 2952996808; 3210313671; 3336571891; 3584528711; 113926993; 338241895;
   666307205; 773529912; 1294757372; 1396182291; 1695183700; 1986661051; 2177026350; 2456956037;
   2730485921; 2820302411; 3259730800; 3345764771; 3516065817; 3600352804; 4094571909; 275423344;
   430227734; 506948616; 659060556; 883997877; 958139571; 1322822218; 1537002063; 1747873779;
   1955562222; 2024104815; 2227730452; 2361852424; 2428436474; 2756734187; 3204031479; 3329325298].
Definition sha_h0 : list Z :=
  [1779033703; 3144134277; 1013904242; 2773480762; 1359893119; 2600822924; 528734635; 1541459225].

(** The message schedule: the last sixteen words, most recent first. *)
Fixpoint schedule (n : nat) (recent : list Z) : list Z :=
  match n with
  | O => []
  | S n =>
      let w := w32 (ssig1 (nth 1 recent 0) + nth 6 recent 0 + ssig0 (nth 14 recent 0) + nth 15 recent 0) in
      w :: schedule n (w :: firstn 15 recent)
  end.

Definition sha_round (st : list Z) (kw : Z * Z) : list Z :=
  match st with
  | [a; b; c; d; e; f; g; h] =>
      let t1 := w32 (h + bsig1 e + ch32 e f g + fst kw + snd kw) in
      let t2 := w32 (bsig0 a + maj32 a b c) in
      [w32 (t1 + t2); a; b; c; w32 (d + t1); e; f; g]
  | _ => st
  end.

Definition sha_block (st words : list Z) : list Z :=
  let w := words ++ schedule 48 (rev words) in
  let st' := fold_left sha_round (combine sha_k w) st in
  map (fun p => w32 (fst p + snd p)) (combine st st').

(** [n] bytes of [z], most significant first. *)
Fixpoint be_bytes (n : nat) (z : Z) : list Z :=
  match n with O => [] | S n => be_bytes n (z / 256) ++ [z mod 256] end.

Definition sha_pad (bytes : list Z) : list Z :=
  let len := llen bytes in
  bytes ++ 128 :: repeat 0 (Z.to_nat ((55 - len) mod 64)) ++ be_bytes 8 (len * 8).

Fixpoint be_words (bytes : list Z) : list Z :=
  match bytes with
  | a :: b :: c :: d :: rest => (((a * 256 + b) * 256 + c) * 256 + d) :: be_words rest
  | _ => []
  end.

Fixpoint sha_blocks (n : nat) (st words : list Z) : list Z :=
  match n with O => st | S n => sha_blocks n (sha_block st (firstn 16 words)) (skipn 16 words) end.

Definition sha256 (s : string) : list Z :=
  let words := be_words (sha_pad (map byte_at (list_ascii_of_string s))) in
  flat_map (be_bytes 4) (sha_blocks (length words / 16) sha_h0 words).

Definition hex_nibble (n : Z) : ascii := ascii_of_N (Z.to_N (if n <? 10 then 48 + n else 87 + n)).
Definition hex_EncodeToString (bytes : list Z) : string :=
  string_of_list_ascii (flat_map (fun b => [hex_nibble (b / 16); hex_nibble (b mod 16)]) bytes).

(** The digest always has 64 hexadecimal characters. *)
Lemma be_bytes_length n z : length (be_bytes n z) = n.
Proof. revert z. induction n as [|n IH]; intros z; simpl; [reflexivity |]. rewrite length_app, IH. simpl. lia. Qed.
Lemma sha_round_length st kw : length st = 8%nat -> length (sha_round st kw) = 8%nat.
Proof. intros H. do 9 (destruct st as [|? st]; try discriminate). reflexivity. Qed.
Lemma sha_block_length st words : length st = 8%nat -> length (sha_block st words) = 8%nat.
Proof.
  intros H. unfold sha_block. rewrite length_map, length_combine.
  assert (forall l st', length st' = 8%nat -> length (fold_left sha_round l st') = 8%nat) as Hf.
  { intros l. induction l as [|x l IH]; intros st' Hs; simpl; [exact Hs | apply IH, sha_round_length, Hs]. }
  rewrite (Hf _ _ H), H. reflexivity.
Qed.
Lemma sha256_length s : length (sha256 s) = 32%nat.
Proof.
  unfold sha256. set (words := be_words _).
  assert (forall n st ws, length st = 8%nat -> length (sha_blocks n st ws) = 8%nat) as Hb.
  { induction n as [|n IH]; intros st ws Hs; simpl; [exact Hs | apply IH, sha_block_length, Hs]. }
  pose proof (Hb (length words / 16)%nat sha_h0 words eq_refl) as H. revert H.
  generalize (sha_blocks (length words / 16) sha_h0 words). intros l H.
  do 9 (destruct l as [|? l]; try discriminate). reflexivity.
Qed.
Lemma hex_length bytes : String.length (hex_EncodeToString bytes) = (2 * length bytes)%nat.
Proof.
  unfold hex_EncodeToString. induction bytes as [|b l IH]; [reflexivity |]. simpl in *. rewrite IH. lia.
Qed.
