(* ===== verification/Ingestion.v ===== *)
(** * internal/ingestion: contracts, quality, retry policy and run summaries

    contracts.go, quality.go, retry.go, run.go and the pure checks of
    service.go. The service itself is in Service.v. *)
From stdpp Require Import pretty.
From S2P Require Import Prelude Errors GoStrings GoTime GoJson External Domain MarketData CatchUp Ports GoSha256.
Open Scope go_scope.

(** ** internal/domain/quality.go *)
Record DataQualityIssue := mkDataQualityIssue {
  issue_ID : ID; issue_InstrumentID : ID; issue_ProviderInstrumentID : option ID; issue_Interval : option string;
  issue_OpenTime : option Time; issue_RuleCode : string; issue_Severity : string; issue_Status : string;
  issue_Summary : string; issue_Details : string; issue_DetectedAt : Time; issue_ResolvedAt : option Time;
  issue_ResolutionNote : option string; issue_CreatedAt : Time; issue_UpdatedAt : Time }.

(** ** Run summaries *)
Record RunTaskSnapshot := mkRunTaskSnapshot {
  snap_RunID : ID; snap_PendingCount : Z; snap_RunningCount : Z; snap_RetryWaitCount : Z; snap_SuccessCount : Z;
  snap_FailedCount : Z; snap_CanceledCount : Z; snap_EarliestStartedAt : option Time; snap_LatestFinishedAt : option Time }.

Definition TaskCount (s : RunTaskSnapshot) : Z :=
  wrap64 (snap_PendingCount s + snap_RunningCount s + snap_RetryWaitCount s + snap_SuccessCount s
          + snap_FailedCount s + snap_CanceledCount s).

Record RunSummary := mkRunSummary {
  sum_RunID : ID; sum_Status : string; sum_TaskCount : Z; sum_PendingCount : Z; sum_RunningCount : Z;
  sum_RetryWaitCount : Z; sum_SuccessCount : Z; sum_FailedCount : Z; sum_CanceledCount : Z;
  sum_EarliestStartedAt : option Time; sum_LatestFinishedAt : option Time }.

Definition validateRunTaskSnapshot (s : RunTaskSnapshot) : result unit :=
  failif id_IsZero (snap_RunID s) || (snap_PendingCount s <? 0) || (snap_RunningCount s <? 0)
         || (snap_RetryWaitCount s <? 0) || (snap_SuccessCount s <? 0) || (snap_FailedCount s <? 0)
         || (snap_CanceledCount s <? 0) || (TaskCount s =? 0),
         Sentinel ErrInvalidData ;;
  Ok tt.

Definition summary_status (s : RunTaskSnapshot) : string :=
  let total := TaskCount s in
  if snap_PendingCount s =? total then "pending"%string
  else if 0 <? wrap64 (snap_PendingCount s + snap_RunningCount s + snap_RetryWaitCount s) then "running"%string
  else if snap_SuccessCount s =? total then "success"%string
  else if snap_FailedCount s =? total then "failed"%string
  else if snap_CanceledCount s =? total then "canceled"%string
  else "partial"%string.

Definition SummarizeRun (s : RunTaskSnapshot) : result RunSummary :=
  validateRunTaskSnapshot s ;;;
  let status := summary_status s in
  let finishedAt := if (status =s "pending") || (status =s "running") then None else snap_LatestFinishedAt s in
  Ok {| sum_RunID := snap_RunID s; sum_Status := status; sum_TaskCount := TaskCount s;
        sum_PendingCount := snap_PendingCount s; sum_RunningCount := snap_RunningCount s;
        sum_RetryWaitCount := snap_RetryWaitCount s; sum_SuccessCount := snap_SuccessCount s;
        sum_FailedCount := snap_FailedCount s; sum_CanceledCount := snap_CanceledCount s;
        sum_EarliestStartedAt := snap_EarliestStartedAt s; sum_LatestFinishedAt := finishedAt |}.

(** ** Retry policy *)
Definition taskStatusRetryWait : string := "retry_wait".
Definition taskStatusFailed : string := "failed".
Definition defaultRetryBackoffs : list Duration := [Minute; 5 * Minute; 15 * Minute; 30 * Minute; Hour].

Record Config := mkConfig {
  conf_BarsPerPage : Z; conf_MaximumPages : Z; conf_RetryBackoffs : list Duration; conf_MaximumRetryDelay : Duration }.

Fixpoint check_backoffs (previous : Duration) (delays : list Duration) : bool :=
  match delays with
  | [] => true
  | d :: rest => negb ((d <=? 0) || (d <? previous)) && check_backoffs d rest
  end.
Definition validateRetryConfig (c : Config) : result unit :=
  failif (conf_MaximumRetryDelay c <=? 0) || (llen (conf_RetryBackoffs c) =? 0),
         Plain "ingestion retry backoffs and maximum delay must be positive" ;;
  failif negb (check_backoffs 0 (conf_RetryBackoffs c)),
         Plain "ingestion retry backoffs must be positive and non-decreasing" ;;
  Ok tt.

(** The configuration part of [NewService]; its dependencies are non-nil here. *)
Definition NewServiceConfig (c : Config) : result Config :=
  failif (conf_BarsPerPage c <=? 0) || (conf_MaximumPages c <=? 0),
         Plain "ingestion page size and maximum pages must be positive" ;;
  let c := mkConfig (conf_BarsPerPage c) (conf_MaximumPages c)
    (if llen (conf_RetryBackoffs c) =? 0 then defaultRetryBackoffs else conf_RetryBackoffs c)
    (if conf_MaximumRetryDelay c =? 0 then Hour else conf_MaximumRetryDelay c) in
  validateRetryConfig c ;;; Ok c.

Record failureClassification := mkFailureClassification {
  fc_code : string; fc_message : string; fc_details : string; fc_retryable : bool; fc_retryAfter : option Duration }.

Definition classifyFailure (e : error) : failureClassification :=
  match AsProviderError e with
  | Some p => mkFailureClassification (pe_Code p) (pe_Message p)
                (json_Marshal_map [("provider_code"%string, pe_ProviderCode p)]) (Retryable (pe_Code p)) (pe_RetryAfter p)
  | None =>
      let plain code message retryable := mkFailureClassification code message "{}" retryable None in
      if errors_Is e ErrDatabaseUnavailable then plain "database_unavailable" "database temporarily unavailable" true
      else if errors_Is e ErrRetryable then plain "temporary_failure" "service temporarily unavailable" true
      else if errors_Is e ErrAdapterNotRegistered then
        plain "adapter_not_registered" "provider adapter is not registered" false
      else if errors_Is e ErrProviderLimitExceeded then
        plain "provider_limit_exceeded" "provider pagination limit was exceeded" false
      else if errors_Is e ErrNotFound then
        plain "configuration_not_found" "ingestion configuration was not found" false
      else if errors_Is e ErrInvalidData || errors_Is e ErrInvalidState || errors_Is e ErrReferenceViolation || errors_Is e ErrConflict then
        plain "configuration_invalid" "ingestion configuration or data contract is invalid" false
      else plain "internal_error" "ingestion task failed" false
  end%string.

Record FailureCommit := mkFailureCommit {
  fail_Claim : TaskClaim; fail_Status : string; fail_NextAttemptAt : option Time; fail_ErrorCode : string;
  fail_ErrorMessage : string; fail_ErrorDetails : string; fail_FinishedAt : Time }.

(** The index is within the slice for the configurations [NewServiceConfig]
    accepts; [0] stands for the panic of an empty slice. *)
Definition retryBackoff (c : Config) (attemptCount : Z) : Duration :=
  let index := attemptCount - 1 in
  let index := if index <? 0 then 0 else index in
  let index := if llen (conf_RetryBackoffs c) <=? index then llen (conf_RetryBackoffs c) - 1 else index in
  Z.min (nth (Z.to_nat index) (conf_RetryBackoffs c) 0) (conf_MaximumRetryDelay c).

Definition failureCommit (c : Config) (claim : TaskClaim) (failure : error) (finishedAt : Time) : FailureCommit :=
  let classified := classifyFailure failure in
  let task := claim_Task claim in
  if negb (fc_retryable classified) || (task_MaxAttempts task <=? task_AttemptCount task) then
    mkFailureCommit claim taskStatusFailed None (fc_code classified) (fc_message classified) (fc_details classified) finishedAt
  else
    let delay := match fc_retryAfter classified with
                 | Some d => Z.min d (conf_MaximumRetryDelay c)
                 | None => retryBackoff c (task_AttemptCount task)
                 end in
    mkFailureCommit claim taskStatusRetryWait (Some (Add finishedAt delay)) (fc_code classified) (fc_message classified)
      (fc_details classified) finishedAt.

(** ** Claims *)
Definition validateExecutableClaim (claim : TaskClaim) (now : Time) : result unit :=
  let task := claim_Task claim in
  failif id_IsZero (task_ID task) || id_IsZero (task_RunID task) || id_IsZero (task_SubscriptionID task)
         || (task_Status task <>s "running") || (task_AttemptCount task <=? 0) || (task_MaxAttempts task <=? 0)
         || negb (After (task_RangeEnd task) (task_RangeStart task)) || is_nil (task_LockedBy task)
         || opt_test (fun w => w =s EmptyString) (task_LockedBy task) || is_nil (task_LockedUntil task),
         Sentinel ErrInvalidData ;;
  failif opt_test (fun u => negb (After u now)) (task_LockedUntil task), Sentinel ErrTaskLeaseLost ;;
  Ok tt.

Section Contracts.
Context `{D : DecimalLib} `{T : TzLib}.

(** ** Execution contexts *)
Record ExecutionContext := mkExecutionContext {
  exec_Subscription : CollectionSubscription; exec_Asset : Asset; exec_Instrument : Instrument;
  exec_Provider : Provider; exec_ProviderInstrument : ProviderInstrument }.

Definition execution_Validate (x : ExecutionContext) : result unit :=
  let subscription := exec_Subscription x in
  let mapping := exec_ProviderInstrument x in
  failif id_IsZero (sub_ID subscription) || (sub_ProviderInstrumentID subscription <>id pi_ID mapping)
         || negb (sub_Enabled subscription), Sentinel ErrInvalidState ;;
  ValidateAssetInstrument (exec_Asset x) (exec_Instrument x) ;;;
  ValidateProviderMapping (exec_Provider x) (exec_Instrument x) mapping ;;;
  failif (asset_Status (exec_Asset x) <>s AssetStatusActive) || (inst_Status (exec_Instrument x) <>s InstrumentStatusActive)
         || (prov_Status (exec_Provider x) =s ProviderStatusDisabled) || negb (pi_Enabled mapping), Sentinel ErrInvalidState ;;
  failif negb (is_ok (ParseBarInterval (sub_Interval subscription))) || negb (cap_Historical (pi_Capabilities mapping))
         || negb (contains_string (cap_Intervals (pi_Capabilities mapping)) (sub_Interval subscription)),
         Sentinel ErrInvalidState ;;
  Ok tt.

Definition Reference (x : ExecutionContext) : result ProviderInstrumentRef :=
  execution_Validate x ;;;
  let mapping := exec_ProviderInstrument x in
  let reference := {|
    ref_ProviderInstrumentID := pi_ID mapping; ref_ProviderInstrumentCode := pi_Code mapping;
    ref_InstrumentID := inst_ID (exec_Instrument x); ref_AssetID := asset_ID (exec_Asset x);
    ref_ProviderCode := prov_Code (exec_Provider x); ref_ProviderMarket := pi_ProviderMarket mapping;
    ref_AssetType := asset_AssetType (exec_Asset x); ref_InstrumentType := inst_InstrumentType (exec_Instrument x);
    ref_ExternalSymbol := pi_ExternalSymbol mapping; ref_InstrumentCode := inst_Code (exec_Instrument x);
    ref_InstrumentSymbol := inst_Symbol (exec_Instrument x); ref_QuoteCurrency := inst_QuoteCurrency (exec_Instrument x);
    ref_Metadata := pi_Metadata mapping |} in
  reference_Validate reference ;;; Ok reference.

(** ** Quality *)
Record QualityResult := mkQualityResult { qr_Bars : list Bar; qr_Issues : list DataQualityIssue }.

Record SuccessCommit := mkSuccessCommit {
  succ_Claim : TaskClaim; succ_Bars : list Bar; succ_Issues : list DataQualityIssue;
  succ_Checkpoint : IngestionCheckpoint; succ_FinishedAt : Time }.

Definition optionalDecimalText (value : option Decimal) : string :=
  match value with None => EmptyString | Some d => dec_String d end.

(** The hashed text: every field followed by a zero byte. *)
Definition hash_fields (fields : list string) : string :=
  String.concat EmptyString (map (fun v => v ++ String zero EmptyString)%string fields).
Definition bar_fields (b : ProviderBar) : list string :=
  [FormatRFC3339Nano (pb_OpenTime b); FormatRFC3339Nano (pb_CloseTime b); dec_String (pb_Open b); dec_String (pb_High b);
   dec_String (pb_Low b); dec_String (pb_Close b); optionalDecimalText (pb_BaseVolume b); optionalDecimalText (pb_QuoteVolume b);
   match pb_TradeCount b with Some n => pretty n | None => EmptyString end;
   if pb_IsClosed b then "true"%string else "false"%string].
Definition normalizedBarHash (b : ProviderBar) : string := hex_EncodeToString (sha256 (hash_fields (bar_fields b))).

Definition rawPayloadMetadata (raw : string) : result string :=
  if slen raw =? 0 then Ok "{}"%string
  else
    failif negb (json_Valid raw), Plain "provider payload is invalid JSON" ;;
    Ok (dq "{'provider_payload':" ++ json_Marshal_raw raw ++ "}")%string.

(** [ctxErr n] is what [ctx.Err()] returns when it is asked at the bar that has
    [n] bars after it. *)
Fixpoint normalize_bars (ctxErr : nat -> option error) (reference : ProviderInstrumentRef) (bars : list ProviderBar) : result (list Bar) :=
  match bars with
  | [] => Ok []
  | b :: rest =>
      match ctxErr (length rest) with Some e => Err e | None => Ok tt end ;;;
      wrap "validate provider bar" (bar_ValidateFor b reference) ;;;
      metadata <- wrap "build provider bar metadata" (rawPayloadMetadata (pb_RawPayload b)) ;;
      let quality := if pb_IsClosed b then QualityStatusValid else QualityStatusWarning in
      bar <- wrap "normalize provider bar" (NewBar (bar_of_provider b quality (normalizedBarHash b) metadata)) ;;
      rest <- normalize_bars ctxErr reference rest ;;
      Ok (bar :: rest)
  end.

(** [StructuralBarQualityValidator.ValidateBars] *)
Definition ValidateBars (ctxErr : nat -> option error) (x : ExecutionContext) (bars : list ProviderBar) : result QualityResult :=
  reference <- wrap "validate bars context" (Reference x) ;;
  bars <- normalize_bars ctxErr reference bars ;;
  Ok (mkQualityResult bars []).

Definition validIssueSeverity (value : string) : bool :=
  contains_string ["info"; "warning"; "error"; "critical"]%string value.

Fixpoint check_result_bars (reference : ProviderInstrumentRef) (interval : string) (start stop : Time)
    (previous : option Time) (seen : gset Z) (bars : list Bar) : bool :=
  match bars with
  | [] => true
  | b :: rest =>
      negb (negb (is_ok (bar_Validate b)) || (bar_InstrumentID b <>id ref_InstrumentID reference)
            || (bar_ProviderInstrumentID b <>id ref_ProviderInstrumentID reference) || (bar_Interval b <>s interval)
            || Before (bar_OpenTime b) start || negb (Before (bar_OpenTime b) stop))
      && negb (bool_decide (bar_OpenTime b ∈ seen))
      && negb (opt_test (fun p => negb (After (bar_OpenTime b) p)) previous)
      && check_result_bars reference interval start stop (Some (bar_OpenTime b)) ({[bar_OpenTime b]} ∪ seen) rest
  end.

Definition result_issue_ok (reference : ProviderInstrumentRef) (interval : string) (start stop : Time) (i : DataQualityIssue) : bool :=
  negb (id_IsZero (issue_ID i) || (issue_InstrumentID i <>id ref_InstrumentID reference)
        || is_nil (issue_ProviderInstrumentID i)
        || opt_test (fun p => p <>id ref_ProviderInstrumentID reference) (issue_ProviderInstrumentID i)
        || (issue_RuleCode i =s EmptyString) || (issue_Summary i =s EmptyString) || IsZero (issue_DetectedAt i)
        || IsZero (issue_CreatedAt i) || IsZero (issue_UpdatedAt i) || negb (validIssueSeverity (issue_Severity i)))
  && negb (opt_test (fun v => v <>s interval) (issue_Interval i))
  && negb (opt_test (fun t => Before t start || negb (Before t stop)) (issue_OpenTime i))
  && negb ((0 <? slen (issue_Details i)) && negb (json_Valid (issue_Details i) && unmarshals_any_object (issue_Details i))).

Definition validateQualityResult (r : QualityResult) (reference : ProviderInstrumentRef) (interval : string)
    (start stop : Time) : result unit :=
  failif negb (check_result_bars reference interval start stop None ∅ (qr_Bars r)), Sentinel ErrInvalidData ;;
  failif negb (forallb (result_issue_ok reference interval start stop) (qr_Issues r)), Sentinel ErrInvalidData ;;
  Ok tt.

(** ** The checkpoint of a successful task *)
Fixpoint last_closed_open (bars : list Bar) (last : option Time) : option Time :=
  match bars with
  | [] => last
  | b :: rest =>
      if bar_IsClosed b then
        if is_nil last || opt_test (fun l => After (bar_OpenTime b) l) last then last_closed_open rest (Some (bar_OpenTime b))
        else last_closed_open rest last
      else last_closed_open rest last
  end.

Definition successfulCheckpoint (subscriptionID : ID) (bars : list Bar) (now : Time) : IngestionCheckpoint :=
  let last := last_closed_open bars None in
  {| ckpt_SubscriptionID := subscriptionID; ckpt_LastSuccessOpenTime := last; ckpt_LastClosedOpenTime := last;
     ckpt_LastAttemptAt := Some now; ckpt_LastSuccessAt := Some now; ckpt_ConsecutiveFailures := 0; ckpt_UpdatedAt := now |}.
End Contracts.
