(* ===== verification/Service.v ===== *)
(** * internal/ingestion/service.go and run.go: executing a claimed task

    The service acts on a world [W] through its store, its clock, the context's
    [Err] and the adapters: the provider is read page by page, then one fenced
    transaction commits the result or the failure, and the run is refreshed. *)
From S2P Require Import Prelude Errors GoStrings GoTime GoJson External Domain MarketData CatchUp Ports Registry Ingestion.

Section Service.
Context `{D : DecimalLib} `{T : TzLib} {W : Type}.

(** [ingestion.Store] *)
Class IngestionStore := {
  LoadRunTaskSnapshot : ID -> M W RunTaskSnapshot;
  SaveRunSummary : RunSummary -> M W unit;
  LoadExecutionContext : ID -> M W ExecutionContext;
  CommitSuccess : SuccessCommit -> M W unit;
  CommitFailure : FailureCommit -> M W unit }.

Context `{St : IngestionStore}.

(** ** run.go *)
Definition maximumRunRefreshAttempts : nat := 3.

Fixpoint refresh_loop (attempts : nat) (runID : ID) : M W RunSummary :=
  match attempts with
  | O => mthrow (Wrap "save ingestion run summary after concurrent changes" (Sentinel ErrConflict))
  | S attempts =>
      snapshot <-- mwrap "load ingestion run task snapshot" (LoadRunTaskSnapshot runID) ;;
      mfailif snap_RunID snapshot <>id runID,
              Wrap "load ingestion run task snapshot identity" (Sentinel ErrInvalidData) ;;
      summary <-- mlift (wrap "summarize ingestion run" (SummarizeRun snapshot)) ;;
      saved <-- mtry (SaveRunSummary summary) ;;
      match saved with
      | Ok _ => mret summary
      | Err e =>
          mfailif negb (errors_Is e ErrConflict), Wrap "save ingestion run summary" e ;;
          refresh_loop attempts runID
      | Diverge => mlift Diverge
      end
  end.

Definition Refresh (runID : ID) : M W RunSummary :=
  mfailif id_IsZero runID, Wrap "refresh ingestion run" (Sentinel ErrInvalidData) ;;
  refresh_loop maximumRunRefreshAttempts runID.

(** ** service.go *)
Context (config : Config) (registry : Registry W) (now : M W Time) (ctxErr : M W (option error))
        (quality : ExecutionContext -> list ProviderBar -> M W QualityResult).

(** [sort.Slice] by open time; the open times are distinct. *)
Fixpoint insert_bar (b : ProviderBar) (l : list ProviderBar) : list ProviderBar :=
  match l with
  | [] => [b]
  | c :: rest => if Before (pb_OpenTime c) (pb_OpenTime b) then c :: insert_bar b rest else b :: l
  end.
Definition sort_bars (l : list ProviderBar) : list ProviderBar := fold_right insert_bar [] l.

(** The bars of a page are added unless an open time was seen before. *)
Fixpoint collect_bars (seen : gset Z) (bars page : list ProviderBar) : result (gset Z * list ProviderBar) :=
  match page with
  | [] => Ok (seen, bars)
  | b :: rest =>
      failif bool_decide (pb_OpenTime b ∈ seen),
             Wrap "provider returned a bar duplicated across pages" (Sentinel ErrInvalidData) ;;
      collect_bars ({[pb_OpenTime b]} ∪ seen) (bars ++ [b]) rest
  end.

Definition with_cursor (q : FetchBarsRequest) (cursor : string) : FetchBarsRequest :=
  mkFetchBarsRequest (fbr_Instrument q) (fbr_Interval q) (fbr_StartTime q) (fbr_EndTime q) (fbr_Limit q) cursor.

Fixpoint fetch_pages (pages : nat) (adapter : MarketDataAdapter W) (request : FetchBarsRequest) (seen : gset Z)
    (bars : list ProviderBar) : M W (list ProviderBar) :=
  match pages with
  | O => mthrow (Wrap "provider pagination exceeded" (Sentinel ErrProviderLimitExceeded))
  | S pages =>
      canceled <-- ctxErr ;;
      match canceled with
      | Some e => mthrow e
      | None =>
          _ <-- mlift (wrap "validate ingestion provider request" (ValidateBarsRequest registry request)) ;;
          page <-- mwrap "fetch ingestion bars" (adapter_FetchBars adapter request) ;;
          _ <-- mlift (wrap "validate ingestion provider response" (page_Validate page request)) ;;
          do* (seen, bars) := mlift (collect_bars seen bars (fbs_Bars page)) ;;
          if negb (fbs_HasMore page) then mret (sort_bars bars)
          else fetch_pages pages adapter (with_cursor request (fbs_NextCursor page)) seen bars
      end
  end.

Definition fetchAllBars (adapter : MarketDataAdapter W) (request : FetchBarsRequest) : M W (list ProviderBar) :=
  fetch_pages (Z.to_nat (conf_MaximumPages config)) adapter request ∅ [].

Definition executeClaim (claim : TaskClaim) : M W unit :=
  let task := claim_Task claim in
  execution <-- mwrap "load ingestion context" (LoadExecutionContext (task_SubscriptionID task)) ;;
  mfailif sub_ID (exec_Subscription execution) <>id task_SubscriptionID task,
          Wrap "load ingestion context: subscription mismatch" (Sentinel ErrInvalidData) ;;
  reference <-- mlift (wrap "validate ingestion context" (Reference execution)) ;;
  interval <-- mlift (wrap "parse ingestion interval" (ParseBarInterval (sub_Interval (exec_Subscription execution)))) ;;
  startTime <-- mlift (wrap "parse ingestion range start" (NewUTCInstant (task_RangeStart task))) ;;
  endTime <-- mlift (wrap "parse ingestion range end" (NewUTCInstant (task_RangeEnd task))) ;;
  match registry_Get registry (prov_Code (exec_Provider execution)) with
  | None => mthrow (Wrap "lookup ingestion adapter" (Sentinel ErrAdapterNotRegistered))
  | Some adapter =>
      bars <-- fetchAllBars adapter
        (mkFetchBarsRequest reference interval startTime endTime (conf_BarsPerPage config) EmptyString) ;;
      result <-- mwrap "validate ingestion bars" (quality execution bars) ;;
      _ <-- mlift (wrap "validate ingestion quality result" (validateQualityResult result reference interval startTime endTime)) ;;
      finishedAt <-- now ;;
      _ <-- mlift (wrap "commit ingestion task" (validateExecutableClaim claim finishedAt)) ;;
      let checkpoint := successfulCheckpoint (sub_ID (exec_Subscription execution)) (qr_Bars result) finishedAt in
      mwrap "commit ingestion task"
        (CommitSuccess (mkSuccessCommit claim (qr_Bars result) (qr_Issues result) checkpoint finishedAt))
  end.

(** The failure transition of a claim; the error returned is the original
    one, joined with what went wrong in the transition. *)
Definition transition_failure (claim : TaskClaim) (e : error) : M W unit :=
  finishedAt <-- now ;;
  match validateExecutableClaim claim finishedAt with
  | Err leaseErr => mthrow (Join e (Wrap "transition ingestion failure" leaseErr))
  | Diverge => mlift Diverge
  | Ok _ =>
      committed <-- mtry (CommitFailure (failureCommit config claim e finishedAt)) ;;
      match committed with
      | Err transitionErr => mthrow (Join e (Wrap "commit ingestion failure" transitionErr))
      | Diverge => mlift Diverge
      | Ok _ =>
          refreshed <-- mtry (Refresh (task_RunID (claim_Task claim))) ;;
          match refreshed with
          | Err refreshErr => mthrow (Join e (Wrap "refresh failed ingestion run" refreshErr))
          | Diverge => mlift Diverge
          | Ok _ => mthrow e
          end
      end
  end.

Definition ExecuteTask (claim : TaskClaim) : M W unit :=
  startedAt <-- now ;;
  _ <-- mlift (wrap "execute ingestion task" (validateExecutableClaim claim startedAt)) ;;
  executed <-- mtry (executeClaim claim) ;;
  match executed with
  | Diverge => mlift Diverge
  | Ok _ => _ <-- mwrap "refresh successful ingestion run" (Refresh (task_RunID (claim_Task claim))) ;; mret tt
  | Err e =>
      mfailif errors_Is e ErrTaskLeaseLost, e ;;
      canceled <-- ctxErr ;;
      mfailif not_nil canceled, e ;;
      mfailif is_nil (AsProviderError e) && (errors_Is e Canceled || errors_Is e DeadlineExceeded), e ;;
      transition_failure claim e
  end.
End Service.
#[global] Arguments IngestionStore {D} W.
