(* ===== verification/Fixtures.v ===== *)
(** * Concrete inputs of the witnesses

    One BTC-USDT collection target of a spot provider, its bars, a claimed
    task and a retry configuration, over the concrete instances of External.v.
    Nothing here models code. *)
From S2P Require Import Prelude Errors GoStrings GoTime GoJson External Domain MarketData CatchUp Ports Registry Ingestion.
Open Scope go_scope.

#[global] Existing Instance Concrete.int_decimal.
#[global] Existing Instance Concrete.int_decimal_laws.
#[global] Existing Instance Concrete.hex_uuid.
#[global] Existing Instance Concrete.hex_uuid_laws.
#[global] Existing Instance Concrete.tz.

(** UUIDv7-shaped identifiers and one summer morning. *)
Definition uuid7 (n : N) : ID := (7 * 2 ^ 76 + n)%N.
Definition morning : Time := Date_UTC 2026 7 27 10 0.
Definition created : Time := Date_UTC 2026 7 1 0 0.

Definition btc : Asset := mkAsset (uuid7 1) "asset.crypto.btc" AssetTypeCrypto "BTC" "Bitcoin" AssetStatusActive "{}" created created.
Definition btc_usdt : Instrument := {|
  inst_ID := uuid7 2; inst_Code := "instrument.crypto.btc-usdt"; inst_AssetID := uuid7 1; inst_Venue := "SPOT";
  inst_InstrumentType := InstrumentTypeSpot; inst_Symbol := "BTCUSDT"; inst_QuoteAssetID := None; inst_QuoteCurrency := "USDT";
  inst_MarketTimezone := "America/New_York"; inst_PriceScale := Some 2; inst_QuantityScale := None; inst_LotSize := None;
  inst_MinQuantity := None; inst_Status := InstrumentStatusActive; inst_ValidFrom := None; inst_ValidTo := None;
  inst_Metadata := "{}"; inst_CreatedAt := created; inst_UpdatedAt := created |}.
Definition exchange : Provider := {|
  prov_ID := uuid7 3; prov_Code := "bybit"; prov_Name := "Bybit"; prov_ProviderType := "EXCHANGE";
  prov_Status := "active"; prov_Metadata := "{}"; prov_CreatedAt := created; prov_UpdatedAt := created |}.
Definition listing : ProviderInstrument := {|
  pi_ID := uuid7 4; pi_Code := "provider.bybit.btc-usdt"; pi_ProviderID := uuid7 3; pi_InstrumentID := uuid7 2;
  pi_ExternalSymbol := "BTCUSDT"; pi_ProviderMarket := "spot"; pi_Capabilities := mkCapabilities true true [BarInterval1Hour];
  pi_Priority := 1; pi_IsDefault := true; pi_Enabled := true; pi_ValidFrom := None; pi_ValidTo := None; pi_Metadata := "{}";
  pi_CreatedAt := created; pi_UpdatedAt := created |}.
Definition hourly : CollectionSubscription :=
  mkCollectionSubscription (uuid7 5) (uuid7 4) BarInterval1Hour true 0 30 (Some 120) "{}" created created.
Definition btc_context : ExecutionContext := mkExecutionContext hourly btc btc_usdt exchange listing.

Definition btc_reference : ProviderInstrumentRef := {|
  ref_ProviderInstrumentID := uuid7 4; ref_ProviderInstrumentCode := "provider.bybit.btc-usdt"; ref_InstrumentID := uuid7 2;
  ref_AssetID := uuid7 1; ref_ProviderCode := "bybit"; ref_ProviderMarket := "spot"; ref_AssetType := AssetTypeCrypto;
  ref_InstrumentType := InstrumentTypeSpot; ref_ExternalSymbol := "BTCUSDT"; ref_InstrumentCode := "instrument.crypto.btc-usdt";
  ref_InstrumentSymbol := "BTCUSDT"; ref_QuoteCurrency := "USDT"; ref_Metadata := "{}" |}.

(** The closed hourly bar that opens at [t]. *)
Definition hour_bar (t : Time) : ProviderBar := {|
  pb_ProviderInstrumentID := uuid7 4; pb_InstrumentID := uuid7 2; pb_AssetID := uuid7 1; pb_ProviderCode := "bybit";
  pb_Interval := BarInterval1Hour; pb_OpenTime := t; pb_CloseTime := t + Hour; pb_Open := 5; pb_High := 7; pb_Low := 4; pb_Close := 6;
  pb_BaseVolume := Some 3; pb_QuoteVolume := None; pb_TradeCount := Some 12; pb_IsClosed := true; pb_ProviderUpdatedAt := None;
  pb_ReceivedAt := morning + 5 * Hour; pb_RawPayload := EmptyString |}.

Definition two_hours : FetchBarsRequest := mkFetchBarsRequest btc_reference BarInterval1Hour morning (morning + 2 * Hour) 1 EmptyString.

Definition claimed_task : IngestionTask := {|
  task_ID := uuid7 20; task_RunID := uuid7 21; task_SubscriptionID := uuid7 5; task_RetryOfTaskID := None;
  task_RangeStart := morning; task_RangeEnd := morning + 2 * Hour; task_Status := "running"; task_AttemptCount := 1;
  task_MaxAttempts := 5; task_NextAttemptAt := None; task_LockedBy := Some "worker-1"%string;
  task_LockedUntil := Some (morning + 6 * Hour); task_StartedAt := Some (morning + 5 * Hour); task_FinishedAt := None;
  task_ProviderRequestID := None; task_ErrorCode := None; task_ErrorMessage := None; task_ErrorDetails := "{}";
  task_CanceledBy := None; task_CancelReason := None; task_CreatedAt := morning + 2 * Hour;
  task_UpdatedAt := morning + 5 * Hour |}.
Definition claim : TaskClaim := mkTaskClaim claimed_task.
Definition service_config : Config := mkConfig 1 4 defaultRetryBackoffs Hour.

Example context_valid : Reference btc_context = Ok btc_reference.
Proof. vm_compute. reflexivity. Qed.
Example bar_valid : bar_ValidateFor (hour_bar morning) btc_reference = Ok tt.
Proof. vm_compute. reflexivity. Qed.
