(* ===== verification/IngestionFacts.v ===== *)
(** * Facts about run summaries, the retry policy and quality results

    The state table of a run summary, the bounds and monotonicity of the retry
    delays, the checkpoint of a successful task and the acceptance of the
    structural validator's results. *)
From Stdlib Require Import Sorted.
From S2P Require Import Prelude Errors GoStrings GoTime GoJson External Domain MarketData CatchUp Ports Registry GoSha256 Ingestion Fixtures.
Open Scope go_scope.

(** ** Run summaries *)
Definition snapshot_total (s : RunTaskSnapshot) : Z :=
  snap_PendingCount s + snap_RunningCount s + snap_RetryWaitCount s + snap_SuccessCount s + snap_FailedCount s
  + snap_CanceledCount s.

(** The snapshots of a store: a run, counts that are not negative, at least
    one task, and a total that fits an [int]. *)
Definition snapshot_wf (s : RunTaskSnapshot) : Prop :=
  snap_RunID s <> 0%N /\ 0 <= snap_PendingCount s /\ 0 <= snap_RunningCount s /\ 0 <= snap_RetryWaitCount s /\
  0 <= snap_SuccessCount s /\ 0 <= snap_FailedCount s /\ 0 <= snap_CanceledCount s /\
  0 < snapshot_total s <= int64_max.

Definition settled (s : RunTaskSnapshot) : Prop :=
  snap_PendingCount s = 0 /\ snap_RunningCount s = 0 /\ snap_RetryWaitCount s = 0.

(** What each status of a run says of its tasks. *)
Definition status_means (status : string) (s : RunTaskSnapshot) : Prop :=
  (status = "pending"%string <-> snap_PendingCount s = snapshot_total s) /\
  (status = "running"%string <-> ~ settled s /\ snap_PendingCount s <> snapshot_total s) /\
  (status = "success"%string <-> settled s /\ snap_FailedCount s = 0 /\ snap_CanceledCount s = 0) /\
  (status = "failed"%string <-> settled s /\ snap_SuccessCount s = 0 /\ snap_CanceledCount s = 0) /\
  (status = "canceled"%string <-> settled s /\ snap_SuccessCount s = 0 /\ snap_FailedCount s = 0) /\
  (status = "partial"%string <-> settled s /\
     (0 < snap_SuccessCount s /\ 0 < snap_FailedCount s \/ 0 < snap_SuccessCount s /\ 0 < snap_CanceledCount s \/
      0 < snap_FailedCount s /\ 0 < snap_CanceledCount s)).

Lemma TaskCount_total s : snapshot_wf s -> TaskCount s = snapshot_total s.
Proof.
  intros (_ & H1 & H2 & H3 & H4 & H5 & H6 & H7). unfold TaskCount. apply wrap64_id.
  unfold snapshot_total, int64_range, int64_min, int64_max in *. lia.
Qed.

Lemma summary_status_means s : snapshot_wf s -> status_means (summary_status s) s.
Proof.
  intros Hw. unfold summary_status. rewrite (TaskCount_total _ Hw).
  destruct Hw as (_ & H1 & H2 & H3 & H4 & H5 & H6 & H7).
  rewrite wrap64_id by (unfold snapshot_total, int64_range, int64_min, int64_max in *; lia).
  unfold status_means, settled, snapshot_total in *. cbv zeta.
  repeat case_if; bool_hyps; repeat split; intros; destruct_ands; first [discriminate | reflexivity | lia].
Qed.

Lemma validateRunTaskSnapshot_ok s : snapshot_wf s -> validateRunTaskSnapshot s = Ok tt.
Proof.
  intros Hw. pose proof (TaskCount_total _ Hw) as Ht. destruct Hw as (H0 & H1 & H2 & H3 & H4 & H5 & H6 & H7).
  unfold validateRunTaskSnapshot. rewrite Ht. apply N.eqb_neq in H0. unfold id_IsZero. rewrite H0. simpl.
  case_Z; simpl; first [reflexivity | lia].
Qed.

(** The snapshots [validateRunTaskSnapshot] refuses. *)
Definition snapshot_refused (s : RunTaskSnapshot) : bool :=
  id_IsZero (snap_RunID s) || (snap_PendingCount s <? 0) || (snap_RunningCount s <? 0)
  || (snap_RetryWaitCount s <? 0) || (snap_SuccessCount s <? 0) || (snap_FailedCount s <? 0)
  || (snap_CanceledCount s <? 0) || (TaskCount s =? 0).
Lemma snapshot_refused_iff s : snapshot_refused s = true <->
  snap_RunID s = 0%N \/ snap_PendingCount s < 0 \/ snap_RunningCount s < 0 \/ snap_RetryWaitCount s < 0 \/
  snap_SuccessCount s < 0 \/ snap_FailedCount s < 0 \/ snap_CanceledCount s < 0 \/ wrap64 (snapshot_total s) = 0.
Proof. unfold snapshot_refused, id_IsZero, TaskCount, snapshot_total. rewrite !orb_true_iff, !Z.ltb_lt, Z.eqb_eq, N.eqb_eq. tauto. Qed.

(** ** Retry delays *)
Definition retry_config_wf (c : Config) : Prop :=
  0 < conf_MaximumRetryDelay c /\ conf_RetryBackoffs c <> [] /\ Forall (fun d => 0 < d) (conf_RetryBackoffs c) /\
  StronglySorted Z.le (conf_RetryBackoffs c).

Lemma check_backoffs_ok p l : 0 <= p -> check_backoffs p l = true ->
  Forall (fun d => 0 < d /\ p <= d) l /\ StronglySorted Z.le l.
Proof.
  revert p. induction l as [|d l IH]; intros p Hp H; simpl in H; [split; constructor |].
  bsimp. destruct (IH d ltac:(lia) ltac:(assumption)) as [Hf Hs]. split.
  - constructor; [lia |]. eapply Forall_impl; [exact Hf |]. simpl. intros; lia.
  - constructor; [exact Hs |]. eapply Forall_impl; [exact Hf |]. simpl. intros; lia.
Qed.

Lemma validateRetryConfig_ok c : validateRetryConfig c = Ok tt -> retry_config_wf c.
Proof.
  unfold validateRetryConfig. intros H. inv_ok. bsimp.
  destruct (check_backoffs_ok 0 (conf_RetryBackoffs c) ltac:(lia) ltac:(assumption)) as [Hf Hs].
  split; [lia |]. split.
  - destruct (conf_RetryBackoffs c); unfold llen in *; simpl in *; [lia | discriminate].
  - split; [| exact Hs]. eapply Forall_impl; [exact Hf |]. simpl. intros; lia.
Qed.

Lemma NewServiceConfig_wf c c' : NewServiceConfig c = Ok c' ->
  retry_config_wf c' /\ 0 < conf_BarsPerPage c' /\ 0 < conf_MaximumPages c'.
Proof.
  unfold NewServiceConfig. intros H. destruct (_ || _) eqn:G in H; [discriminate |].
  apply rbind_ok in H as ([] & R & H). injection H as <-. split; [by apply validateRetryConfig_ok |].
  simpl. bsimp. lia.
Qed.

(** The index of the backoff of an attempt: the attempt before it, kept
    within the schedule. *)
Lemma retryBackoff_index c a : conf_RetryBackoffs c <> [] ->
  exists i, (i < length (conf_RetryBackoffs c))%nat /\
    Z.of_nat i = Z.max 0 (Z.min (a - 1) (llen (conf_RetryBackoffs c) - 1)) /\
    retryBackoff c a = Z.min (nth i (conf_RetryBackoffs c) 0) (conf_MaximumRetryDelay c).
Proof.
  intros Hne. assert (0 < llen (conf_RetryBackoffs c)) as Hl.
  { destruct (conf_RetryBackoffs c); [done | unfold llen; simpl; lia]. }
  unfold retryBackoff. cbv zeta.
  set (i := if llen (conf_RetryBackoffs c) <=? (if a - 1 <? 0 then 0 else a - 1) then _ else _).
  assert (i = Z.max 0 (Z.min (a - 1) (llen (conf_RetryBackoffs c) - 1))) as Hi.
  { unfold i. case_Z; simpl; try lia. }
  exists (Z.to_nat i). split; [unfold llen in *; lia |]. split; [lia | reflexivity].
Qed.

Lemma retryBackoff_bounds c a : retry_config_wf c -> 0 < retryBackoff c a <= conf_MaximumRetryDelay c.
Proof.
  intros (Hm & Hne & Hf & _). destruct (retryBackoff_index c a Hne) as (i & Hi & _ & ->).
  pose proof (proj1 (List.Forall_forall _ _) Hf _ (nth_In _ 0 Hi)) as Hp. simpl in Hp. lia.
Qed.

Lemma sorted_nth_le l i j : StronglySorted Z.le l -> (i <= j < length l)%nat -> nth i l 0 <= nth j l 0.
Proof.
  intros Hs. revert i j. induction Hs as [|x l Hs IH Hx]; intros i j H; simpl in H; [lia |].
  destruct i as [|i], j as [|j]; simpl; try lia.
  - apply (proj1 (List.Forall_forall _ _) Hx). apply nth_In. lia.
  - apply IH. lia.
Qed.

(** ** The classification of failures *)
Lemma AsProviderError_retryAfter e p d :
  AsProviderError e = Some p -> pe_RetryAfter p = Some d -> 0 < d /\ Retryable (pe_Code p) = true.
Proof.
  unfold AsProviderError. destruct (errors_AsProvider e) as [[| | | | |prov class msg ra ?|? ? ? ? ?]|]; try discriminate.
  destruct (providerError_Validate prov class msg ra) as [[]| |] eqn:V; try discriminate.
  intros [= <-]. simpl. intros ->. unfold providerError_Validate in V. inv_ok. simpl in *. bsimp. split; [lia | assumption].
Qed.

Lemma classify_retryAfter e d : fc_retryAfter (classifyFailure e) = Some d -> 0 < d.
Proof.
  unfold classifyFailure. destruct (AsProviderError e) as [p|] eqn:E; simpl.
  - intros Hd. by destruct (AsProviderError_retryAfter e p d E Hd).
  - repeat case_if; discriminate.
Qed.

Section Bars.
Context `{D : DecimalLib} `{T : TzLib}.

(** ** The checkpoint of a successful task *)
(** [o] is the latest open time of the closed bars, if there is one. *)
Definition latest_closed (bars : list Bar) (o : option Time) : Prop :=
  match o with
  | None => forall b, In b bars -> bar_IsClosed b = false
  | Some t => (exists b, In b bars /\ bar_IsClosed b = true /\ bar_OpenTime b = t) /\
              forall b, In b bars -> bar_IsClosed b = true -> bar_OpenTime b <= t
  end.

Lemma last_closed_open_app seen bars last :
  latest_closed seen last -> latest_closed (seen ++ bars) (last_closed_open bars last).
Proof.
  revert seen last. induction bars as [|b bars IH]; intros seen last H; simpl; [by rewrite app_nil_r |].
  assert (forall o, latest_closed (seen ++ [b]) o -> latest_closed (seen ++ b :: bars) (last_closed_open bars o)) as K.
  { intros o Ho. specialize (IH (seen ++ [b]) o Ho). by rewrite <- app_assoc in IH. }
  assert (forall x, In x (seen ++ [b]) -> In x seen \/ b = x) as Hin.
  { intros x [Hx | [Hx | []]]%in_app_or; auto. }
  destruct (bar_IsClosed b) eqn:C.
  - destruct (is_nil last || opt_test (fun l => After (bar_OpenTime b) l) last) eqn:N; apply K.
    + split; [exists b; rewrite in_app_iff; simpl; auto |]. intros x [Hx | <-]%Hin Cx; [| lia].
      destruct last as [t|]; simpl in N; [| pose proof (H x Hx); congruence].
      destruct H as [_ H]. specialize (H x Hx Cx). unfold After in N. bsimp. lia.
    + destruct last as [t|]; [| discriminate]. simpl in N. destruct H as [(y & Hy & Cy & Ty) H]. split.
      * exists y. rewrite in_app_iff. auto.
      * intros x [Hx | <-]%Hin Cx; [by apply H | unfold After in N; bsimp; lia].
  - apply K. destruct last as [t|].
    + destruct H as [(y & Hy & Cy & Ty) H]. split; [exists y; rewrite in_app_iff; auto |].
      intros x [Hx | <-]%Hin Cx; [by apply H | congruence].
    + intros x [Hx | <-]%Hin; [by apply H | exact C].
Qed.

Lemma last_closed_open_latest bars : latest_closed bars (last_closed_open bars None).
Proof. apply (last_closed_open_app [] bars None). intros b []. Qed.

(** ** The structural validator *)
(** The domain bar a provider bar is stored as. *)
Definition normalized (p : ProviderBar) (b : Bar) : Prop :=
  bar_InstrumentID b = pb_InstrumentID p /\ bar_ProviderInstrumentID b = pb_ProviderInstrumentID p /\
  bar_Interval b = pb_Interval p /\ bar_OpenTime b = pb_OpenTime p /\ bar_CloseTime b = pb_CloseTime p /\
  bar_OpenPrice b = pb_Open p /\ bar_HighPrice b = pb_High p /\ bar_LowPrice b = pb_Low p /\ bar_ClosePrice b = pb_Close p /\
  bar_IsClosed b = pb_IsClosed p /\ bar_RawHash b = normalizedBarHash p /\
  bar_QualityStatus b = (if pb_IsClosed p then QualityStatusValid else QualityStatusWarning) /\
  bar_Validate b = Ok tt.

(** A provider bar of a request: it belongs to the reference and the interval
    and opens within the range. *)
Definition in_request (reference : ProviderInstrumentRef) (interval : string) (start stop : Time) (b : ProviderBar) : Prop :=
  bar_ValidateFor b reference = Ok tt /\ pb_Interval b = interval /\ start <= pb_OpenTime b < stop.

Definition bar_before (a b : ProviderBar) : Prop := pb_OpenTime a < pb_OpenTime b.

Lemma NewBar_ok b b' : NewBar b = Ok b' ->
  b' = bar_with_storage b (bar_Revision b) (bar_IsCurrent b) (normalizedJSON (bar_Metadata b)) /\ bar_Validate b' = Ok tt.
Proof. unfold NewBar. cbv zeta. intros ([] & V & [= <-])%rbind_ok. split; [reflexivity | exact V]. Qed.

Lemma normalize_bars_ok ctx reference bars out : normalize_bars ctx reference bars = Ok out ->
  Forall2 normalized bars out /\ Forall (fun b => bar_ValidateFor b reference = Ok tt) bars.
Proof.
  revert out. induction bars as [|b bars IH]; intros out H; simpl in H; [injection H as <-; split; constructor |].
  apply rbind_ok in H as ([] & _ & H). apply rbind_ok in H as ([] & V%wrap_ok & H).
  apply rbind_ok in H as (meta & _ & H). apply rbind_ok in H as (x & N%wrap_ok & H).
  apply rbind_ok in H as (rest & R & H). injection H as <-. destruct (IH _ R) as [Hf Hv].
  split; [| by constructor]. constructor; [| exact Hf]. apply NewBar_ok in N as [-> N].
  unfold normalized. simpl. repeat split. exact N.
Qed.

Lemma bar_ValidateFor_ids b reference : bar_ValidateFor b reference = Ok tt ->
  pb_InstrumentID b = ref_InstrumentID reference /\ pb_ProviderInstrumentID b = ref_ProviderInstrumentID reference.
Proof. unfold bar_ValidateFor. intros H. inv_ok. bsimp. auto. Qed.

Lemma check_result_bars_ok reference interval start stop bars out previous seen :
  Forall2 normalized bars out -> Forall (in_request reference interval start stop) bars ->
  StronglySorted bar_before bars ->
  (forall t, previous = Some t -> Forall (fun b => t < pb_OpenTime b) bars) ->
  (forall t, t ∈ seen -> Forall (fun b => t < pb_OpenTime b) bars) ->
  check_result_bars reference interval start stop previous seen out = true.
Proof.
  intros Hn. revert previous seen. induction Hn as [|p b bars out Hb Hn IH]; intros previous seen Hr Hs Hp Hseen; [reflexivity |].
  inversion Hr as [|? ? (Hv & Hi & Hrange) Hr']; subst. inversion Hs as [|? ? Hs' Hlt]; subst.
  destruct Hb as (E1 & E2 & E3 & E4 & _ & _ & _ & _ & _ & _ & _ & _ & V). destruct (bar_ValidateFor_ids _ _ Hv) as [I1 I2].
  simpl. rewrite V, E1, E2, E3, E4, I1, I2, !N.eqb_refl, String.eqb_refl. simpl.
  rewrite bool_decide_eq_false_2.
  2:{ intros Ht. specialize (Hseen _ Ht). inversion Hseen; subst; lia. }
  unfold Before. case_Z; try lia. simpl. destruct previous as [t|]; simpl.
  - specialize (Hp t eq_refl). inversion Hp as [|? ? Ht Hp']; subst. unfold After. case_Z; try lia. simpl. apply IH; auto.
    + intros ? [= <-]. exact Hlt.
    + intros u [->%elem_of_singleton | Hu]%elem_of_union; [exact Hlt |]. specialize (Hseen _ Hu). by inversion Hseen.
  - apply IH; auto.
    + intros ? [= <-]. exact Hlt.
    + intros u [->%elem_of_singleton | Hu]%elem_of_union; [exact Hlt |]. specialize (Hseen _ Hu). by inversion Hseen.
Qed.
End Bars.

(** ** Properties *)
(** C13. [SummarizeRun] derives the state of a run from its tasks: for every
    well-formed snapshot it returns a summary whose status says exactly what
    [status_means] says of the counts, which has a finish time only when no
    task is active, and which carries the six counts unchanged; it refuses, as
    invalid data, exactly the snapshots without a run, with a negative count or
    without tasks (the total is the machine's, so one that wraps to zero is
    refused too). *)
Theorem summarize_run_table s :
  (snapshot_wf s -> exists r, SummarizeRun s = Ok r /\ status_means (sum_Status r) s /\
     sum_RunID r = snap_RunID s /\ sum_TaskCount r = snapshot_total s /\
     sum_PendingCount r = snap_PendingCount s /\ sum_RunningCount r = snap_RunningCount s /\
     sum_RetryWaitCount r = snap_RetryWaitCount s /\
     sum_SuccessCount r = snap_SuccessCount s /\ sum_FailedCount r = snap_FailedCount s /\
     sum_CanceledCount r = snap_CanceledCount s /\ sum_EarliestStartedAt r = snap_EarliestStartedAt s /\
     (settled s -> sum_LatestFinishedAt r = snap_LatestFinishedAt s) /\
     (~ settled s -> sum_LatestFinishedAt r = None)) /\
  (SummarizeRun s = Err (Sentinel ErrInvalidData) <->
   snap_RunID s = 0%N \/ snap_PendingCount s < 0 \/ snap_RunningCount s < 0 \/ snap_RetryWaitCount s < 0 \/
   snap_SuccessCount s < 0 \/ snap_FailedCount s < 0 \/ snap_CanceledCount s < 0 \/ wrap64 (snapshot_total s) = 0) /\
  (forall e, SummarizeRun s = Err e -> e = Sentinel ErrInvalidData).
Proof.
  split.
  - intros Hw. pose proof (summary_status_means _ Hw) as Hm. unfold SummarizeRun.
    rewrite (validateRunTaskSnapshot_ok _ Hw). simpl. eexists. split; [reflexivity |]. simpl.
    rewrite (TaskCount_total _ Hw). repeat (split; [first [exact Hm | reflexivity] |]).
    destruct Hm as (Hp & Hr & _). destruct Hw as (_ & H1 & H2 & H3 & H4 & H5 & H6 & H7).
    destruct (String.eqb_spec (summary_status s) "pending") as [Ep|Ep]; simpl.
    { apply Hp in Ep. split; [| reflexivity]. unfold settled, snapshot_total in *. lia. }
    destruct (String.eqb_spec (summary_status s) "running") as [Er|Er]; simpl.
    { apply Hr in Er as [Er _]. split; [contradiction | reflexivity]. }
    split; [reflexivity |]. intros Hs. exfalso. apply Er, Hr. split; [exact Hs |]. intros E. by apply Ep, Hp.
  - split.
    + rewrite <- snapshot_refused_iff. unfold SummarizeRun, validateRunTaskSnapshot, snapshot_refused.
      destruct (_ || _); simpl; [tauto | split; discriminate].
    + intros e. unfold SummarizeRun, validateRunTaskSnapshot. destruct (_ || _); simpl; [intros [= <-]; reflexivity | discriminate].
Qed.

(** Under every configuration [NewService] accepts, the retry delay of an
    attempt is positive, at most the configured maximum and does not decrease
    from one attempt to the next. *)
Theorem retry_backoff_bounded c c' a b : NewServiceConfig c = Ok c' ->
  0 < retryBackoff c' a <= conf_MaximumRetryDelay c' /\ (a <= b -> retryBackoff c' a <= retryBackoff c' b).
Proof.
  intros (Hw & _)%NewServiceConfig_wf. split; [by apply retryBackoff_bounds |]. intros Hab.
  destruct Hw as (Hm & Hne & _ & Hs).
  destruct (retryBackoff_index c' a Hne) as (i & Hi & Ei & ->), (retryBackoff_index c' b Hne) as (j & Hj & Ej & ->).
  pose proof (sorted_nth_le _ i j Hs). lia.
Qed.

(** C27. The transition of a failed attempt: it waits for a retry exactly when
    the failure is retryable and attempts remain, until a time after the
    failure and within the maximum delay (the provider's retry-after when it
    gave one, the backoff of the attempt otherwise); in every other case the
    task fails for good and has no next attempt. *)
Theorem failure_commit_policy c c' claim e finishedAt : NewServiceConfig c = Ok c' ->
  let f := failureCommit c' claim e finishedAt in
  let retry := fc_retryable (classifyFailure e) = true /\ task_AttemptCount (claim_Task claim) < task_MaxAttempts (claim_Task claim) in
  fail_Claim f = claim /\ fail_FinishedAt f = finishedAt /\
  (retry -> fail_Status f = taskStatusRetryWait /\ exists next, fail_NextAttemptAt f = Some next /\
     finishedAt < next <= finishedAt + conf_MaximumRetryDelay c' /\
     next - finishedAt = Z.min (default (retryBackoff c' (task_AttemptCount (claim_Task claim))) (fc_retryAfter (classifyFailure e)))
                               (conf_MaximumRetryDelay c')) /\
  (~ retry -> fail_Status f = taskStatusFailed /\ fail_NextAttemptAt f = None).
Proof.
  intros (Hw & _)%NewServiceConfig_wf f retry. unfold f, failureCommit. cbv zeta.
  destruct (negb _ || _) eqn:G; simpl; bool_hyps.
  - repeat (split; [reflexivity |]). split; [| intros _; split; reflexivity]. intros [Hr Ha]. exfalso.
    destruct G as [G | G]; [rewrite Hr in G; discriminate | lia].
  - repeat (split; [reflexivity |]). destruct G as [G1 G2]. split; [| intros Hn; exfalso; apply Hn; split; [exact G1 | lia]].
    intros _. split; [reflexivity |]. eexists. split; [reflexivity |]. unfold Add.
    pose proof (retryBackoff_bounds c' (task_AttemptCount (claim_Task claim)) Hw) as Hb. destruct Hw as (Hm & _).
    destruct (fc_retryAfter (classifyFailure e)) as [d|] eqn:E; simpl; [pose proof (classify_retryAfter e d E) |]; lia.
Qed.

Section BarProperties.
Context `{D : DecimalLib} `{T : TzLib}.

(** The checkpoint a successful task writes names the latest closed bar it
    collected, whatever the order of its bars, and no bar at all when none of
    them is closed; the failures are reset. *)
Theorem successful_checkpoint_latest subscriptionID bars now :
  let c := successfulCheckpoint subscriptionID bars now in
  ckpt_SubscriptionID c = subscriptionID /\ latest_closed bars (ckpt_LastClosedOpenTime c) /\
  ckpt_LastSuccessOpenTime c = ckpt_LastClosedOpenTime c /\ ckpt_ConsecutiveFailures c = 0 /\
  ckpt_LastSuccessAt c = Some now /\ ckpt_UpdatedAt c = now.
Proof. simpl. split; [reflexivity |]. split; [apply last_closed_open_latest | repeat split]. Qed.

(** C32. The structural validator normalizes every provider bar, in order, into
    a valid domain bar with the hash of its fields, and the service's own check
    accepts its result: for the bars of a request, in ascending order, the
    default validator never makes a task fail on its quality result. *)
Theorem structural_quality_accepted ctx x reference interval start stop bars r :
  Reference x = Ok reference -> Forall (in_request reference interval start stop) bars -> StronglySorted bar_before bars ->
  ValidateBars ctx x bars = Ok r ->
  Forall2 normalized bars (qr_Bars r) /\ qr_Issues r = [] /\ validateQualityResult r reference interval start stop = Ok tt.
Proof.
  intros HR Hin Hs H. unfold ValidateBars in H. rewrite HR in H. simpl in H. apply rbind_ok in H as (out & N & [= <-]).
  apply normalize_bars_ok in N as [N _]. simpl. split; [exact N |]. split; [reflexivity |].
  unfold validateQualityResult. simpl. rewrite (check_result_bars_ok _ _ _ _ _ _ None ∅ N Hin Hs); [reflexivity | discriminate |].
  intros t Ht. by apply elem_of_empty in Ht.
Qed.
End BarProperties.

(** *** Witnesses *)
Definition finished_snapshot : RunTaskSnapshot := mkRunTaskSnapshot (uuid7 21) 0 0 0 3 1 0 (Some morning) (Some (morning + Hour)).

Lemma summarize_run_table_witness : exists r,
  SummarizeRun finished_snapshot = Ok r /\ sum_TaskCount r = 4 /\ sum_LatestFinishedAt r = Some (morning + Hour).
Proof.
  destruct (proj1 (summarize_run_table finished_snapshot)) as (r & E & _ & _ & Ht & _ & _ & _ & _ & _ & _ & _ & Hf & _).
  { repeat split; try discriminate. }
  exists r. split; [exact E |]. split; [exact Ht |]. apply Hf. repeat split.
Defined.

Lemma retry_backoff_bounded_witness :
  0 < retryBackoff service_config 3 <= Hour /\ retryBackoff service_config 3 <= retryBackoff service_config 9.
Proof.
  destruct (retry_backoff_bounded service_config service_config 3 9) as [H H']; [vm_compute; reflexivity |].
  split; [exact H | apply H'; lia].
Defined.

Definition rate_limited : error := ProviderErr "bybit" ProviderErrorRateLimited "slow down" (Some (2 * Minute)) None.
Lemma failure_commit_policy_witness :
  fail_Status (failureCommit service_config claim rate_limited morning) = taskStatusRetryWait /\
  exists next, fail_NextAttemptAt (failureCommit service_config claim rate_limited morning) = Some next /\ next - morning = 2 * Minute.
Proof.
  destruct (failure_commit_policy service_config service_config claim rate_limited morning) as (_ & _ & H & _);
    [vm_compute; reflexivity |].
  destruct H as [Hs (next & En & _ & Ed)]; [vm_compute; split; reflexivity |].
  split; [exact Hs |]. exists next. split; [exact En |]. rewrite Ed. vm_compute. reflexivity.
Defined.

Lemma structural_quality_accepted_witness : exists r,
  ValidateBars (fun _ => None) btc_context [hour_bar morning; hour_bar (morning + Hour)] = Ok r /\
  validateQualityResult r btc_reference BarInterval1Hour morning (morning + 2 * Hour) = Ok tt.
Proof.
  destruct (ValidateBars (fun _ => None) btc_context [hour_bar morning; hour_bar (morning + Hour)]) as [r| |] eqn:E;
    [| vm_compute in E; discriminate E | vm_compute in E; discriminate E].
  exists r. split; [reflexivity |].
  apply (structural_quality_accepted (fun _ => None) btc_context btc_reference BarInterval1Hour morning (morning + 2 * Hour)
    [hour_bar morning; hour_bar (morning + Hour)] r).
  - vm_compute. reflexivity.
  - repeat constructor; try (vm_compute; reflexivity); vm_compute; discriminate.
  - repeat constructor.
  - exact E.
Defined.
