(* ===== verification/ManualTasks.v ===== *)
(** * internal/ingestion/backfill.go and manual_tasks.go

    The administrator's services: one backfill Run and Task for an explicit
    range, a new repair Task for a failed one, and a cooperative cancel. Their
    stores are interfaces over a world [W]; the clock and the ID generator act
    on it too. *)
From S2P Require Import Prelude Errors GoStrings GoTime GoJson External Domain MarketData CatchUp Ports Ingestion.
Open Scope go_scope.

Definition defaultBackfillMaximumAttempts : Z := 5.
Definition maximumBackfillAuditTextLength : Z := 128.
Definition maximumBackfillReasonLength : Z := 512.
Definition defaultManualRetryMaximumAttempts : Z := 5.

(** The loop over the runes of a text. *)
Definition has_control (value : string) : bool := existsb IsControl (runes value).
Definition validBackfillText (value : string) (maximumLength : Z) : bool :=
  negb ((value =s EmptyString) || (value <>s TrimSpace value) || (maximumLength <? RuneCountInString value)) && negb (has_control value).

Record BackfillInput := mkBackfillInput {
  in_ProviderCode : string; in_InstrumentCode : string; in_Interval : string; in_StartTime : Time; in_EndTime : Time;
  in_Reason : string; in_RequestedBy : string; in_ActorType : string; in_RequestID : string }.
Record BackfillResult := mkBackfillResult { bf_RunID : ID; bf_TaskID : ID; bf_Status : string; bf_CreatedAt : Time }.

Record parsedBackfillInput := mkParsedBackfillInput {
  pbi_providerCode : Code; pbi_instrumentCode : Code; pbi_interval : string; pbi_startTime : Time; pbi_endTime : Time;
  pbi_reason : string; pbi_requestedBy : string; pbi_actorType : string; pbi_requestID : string; pbi_createdAt : Time }.

Definition parseBackfillInput (input : BackfillInput) (now : Time) : result parsedBackfillInput :=
  match ParseCode (in_ProviderCode input), ParseCode (in_InstrumentCode input), ParseBarInterval (in_Interval input),
        NewBoundedTimeRange (in_StartTime input) (in_EndTime input) with
  | Ok providerCode, Ok instrumentCode, Ok interval, Ok range =>
      failif IsZero now || negb (validBackfillText (in_Reason input) maximumBackfillReasonLength)
             || negb (validBackfillText (in_RequestedBy input) maximumBackfillAuditTextLength)
             || negb (validBackfillText (in_RequestID input) maximumBackfillAuditTextLength)
             || ((in_ActorType input <>s "user") && (in_ActorType input <>s "service")), Sentinel ErrInvalidData ;;
      let startTime := default 0 (range_Start range) in
      let endTime := default 0 (range_End range) in
      failif After endTime now, Sentinel ErrInvalidData ;;
      Ok (mkParsedBackfillInput providerCode instrumentCode interval startTime endTime (in_Reason input) (in_RequestedBy input)
            (in_ActorType input) (in_RequestID input) now)
  | _, _, _, _ => Err (Sentinel ErrInvalidData)
  end.

(** ** Manual tasks *)
Record TaskOperationAudit := mkTaskOperationAudit {
  op_RequestedBy : string; op_ActorType : string; op_RequestID : string; op_Reason : string }.
Record ManualRetryCreation := mkManualRetryCreation {
  mr_OriginalTaskID : ID; mr_RunID : ID; mr_TaskID : ID; mr_MaximumAttempts : Z; mr_Audit : TaskOperationAudit;
  mr_CreatedAt : Time; mr_RunContext : string }.
Record ManualRetryResult := mkManualRetryResult { mrr_RunID : ID; mrr_TaskID : ID; mrr_Status : string; mrr_CreatedAt : Time }.
Record TaskCancellationResult := mkTaskCancellationResult { tc_TaskID : ID; tc_RunID : ID; tc_Status : string; tc_CanceledAt : Time }.

Definition validTaskOperationAudit (a : TaskOperationAudit) : bool :=
  validBackfillText (op_RequestedBy a) maximumBackfillAuditTextLength
  && validBackfillText (op_RequestID a) maximumBackfillAuditTextLength
  && validBackfillText (op_Reason a) maximumBackfillReasonLength && ((op_ActorType a =s "user") || (op_ActorType a =s "service")).

(** The constructors' attempts: zero is the default. *)
Definition maximum_attempts (configured default_ : Z) (text : string) : result Z :=
  let attempts := if configured =? 0 then default_ else configured in
  failif attempts <? 1, Plain text ;; Ok attempts.
Definition NewBackfillService (maximumAttempts : Z) : result Z :=
  maximum_attempts maximumAttempts defaultBackfillMaximumAttempts "backfill maximum attempts must be positive".
Definition NewManualTaskService (maximumAttempts : Z) : result Z :=
  maximum_attempts maximumAttempts defaultManualRetryMaximumAttempts "manual retry maximum attempts must be positive".

Section Services.
Context `{D : DecimalLib} `{T : TzLib} `{U : UUIDLib} {W : Type}.

(** [BackfillStore], [ManualTaskStore] and [RunRefresher] *)
Class BackfillStore := {
  ResolveBackfillTarget : Code -> Code -> string -> Time -> M W ExecutionContext;
  CreateBackfillRunWithTask : IngestionRun -> IngestionTask -> M W unit }.
Class ManualTaskStore := {
  CreateManualRetry : ManualRetryCreation -> M W unit;
  CancelTaskWithAudit : ID -> TaskOperationAudit -> Time -> M W ID }.

Definition validBackfillID (id : ID) : bool := negb (id_IsZero id) && (uuid_Version id =? 7).

Definition validateBackfillTarget (target : ExecutionContext) (request : parsedBackfillInput) : result unit :=
  execution_Validate target ;;;
  failif (prov_Code (exec_Provider target) <>s pbi_providerCode request) || (inst_Code (exec_Instrument target) <>s pbi_instrumentCode request)
         || (sub_Interval (exec_Subscription target) <>s pbi_interval request)
         || (sub_ProviderInstrumentID (exec_Subscription target) <>id pi_ID (exec_ProviderInstrument target)), Sentinel ErrInvalidData ;;
  Ok tt.

Definition backfillContextJSON (r : parsedBackfillInput) : string :=
  json_Marshal_map
    [("actor_type", pbi_actorType r); ("request_id", pbi_requestID r); ("reason", pbi_reason r); ("provider", pbi_providerCode r);
     ("instrument_code", pbi_instrumentCode r); ("interval", pbi_interval r); ("range_start", FormatRFC3339Nano (pbi_startTime r));
     ("range_end", FormatRFC3339Nano (pbi_endTime r))]%string.

(** A generated identifier that must be valid and different from the others. *)
Definition generate_id (newID : M W ID) (text : string) (taken : list ID) : M W ID :=
  mwrap text (
    id <-- newID ;;
    mfailif negb (validBackfillID id) || existsb (fun t => id =id t) taken, Sentinel ErrInvalidData ;;
    mret id).

Definition Create `{St : BackfillStore} (maximumAttempts : Z) (now : M W Time) (newID : M W ID) (input : BackfillInput) :
    M W BackfillResult :=
  createdAt <-- now ;;
  request <-- mlift (wrap "create backfill" (parseBackfillInput input createdAt)) ;;
  target <-- mwrap "resolve backfill target"
    (ResolveBackfillTarget (pbi_providerCode request) (pbi_instrumentCode request) (pbi_interval request) (pbi_createdAt request)) ;;
  _ <-- mlift (wrap "validate backfill target" (validateBackfillTarget target request)) ;;
  runID <-- generate_id newID "generate backfill run ID" [] ;;
  taskID <-- generate_id newID "generate backfill task ID" [runID] ;;
  let run := {|
    run_ID := runID; run_RunKey := ("backfill.manual." ++ uuid_String runID)%string; run_RunType := "backfill";
    run_TriggerType := "manual"; run_Status := "pending"; run_ScheduledAt := None; run_StartedAt := None; run_FinishedAt := None;
    run_RequestedBy := Some (pbi_requestedBy request); run_TaskCount := 1; run_SuccessCount := 0; run_FailedCount := 0;
    run_Context := backfillContextJSON request; run_ErrorSummary := "{}"; run_CreatedAt := pbi_createdAt request |} in
  let task := {|
    task_ID := taskID; task_RunID := runID; task_SubscriptionID := sub_ID (exec_Subscription target); task_RetryOfTaskID := None;
    task_RangeStart := pbi_startTime request; task_RangeEnd := pbi_endTime request; task_Status := "pending";
    task_AttemptCount := 0; task_MaxAttempts := maximumAttempts; task_NextAttemptAt := None; task_LockedBy := None;
    task_LockedUntil := None; task_StartedAt := None; task_FinishedAt := None; task_ProviderRequestID := None;
    task_ErrorCode := None; task_ErrorMessage := None; task_ErrorDetails := "{}"; task_CanceledBy := None;
    task_CancelReason := None; task_CreatedAt := pbi_createdAt request; task_UpdatedAt := pbi_createdAt request |} in
  _ <-- mwrap "persist backfill" (CreateBackfillRunWithTask run task) ;;
  mret (mkBackfillResult runID taskID "pending" (pbi_createdAt request)).

Definition Retry `{St : ManualTaskStore} (maximumAttempts : Z) (now : M W Time) (newID : M W ID) (originalTaskID : ID)
    (audit : TaskOperationAudit) : M W ManualRetryResult :=
  mfailif id_IsZero originalTaskID || negb (validTaskOperationAudit audit), Wrap "retry ingestion task" (Sentinel ErrInvalidData) ;;
  createdAt <-- now ;;
  mfailif IsZero createdAt, Wrap "retry ingestion task time" (Sentinel ErrInvalidData) ;;
  runID <-- generate_id newID "generate manual retry run ID" [originalTaskID] ;;
  taskID <-- generate_id newID "generate manual retry task ID" [runID; originalTaskID] ;;
  let runContext := json_Marshal_map
    [("actor_type", op_ActorType audit); ("request_id", op_RequestID audit); ("reason", op_Reason audit);
     ("retry_of_task_id", uuid_String originalTaskID)]%string in
  _ <-- mwrap "create manual retry"
    (CreateManualRetry (mkManualRetryCreation originalTaskID runID taskID maximumAttempts audit createdAt runContext)) ;;
  mret (mkManualRetryResult runID taskID "pending" createdAt).

(** The refresh after the cancel is best effort: its outcome is dropped. *)
Definition Cancel `{St : ManualTaskStore} (refresh : ID -> M W RunSummary) (now : M W Time) (taskID : ID) (audit : TaskOperationAudit) :
    M W TaskCancellationResult :=
  mfailif id_IsZero taskID || negb (validTaskOperationAudit audit), Wrap "cancel ingestion task" (Sentinel ErrInvalidData) ;;
  canceledAt <-- now ;;
  mfailif IsZero canceledAt, Wrap "cancel ingestion task time" (Sentinel ErrInvalidData) ;;
  runID <-- mwrap "cancel ingestion task" (CancelTaskWithAudit taskID audit canceledAt) ;;
  _ <-- mtry (refresh runID) ;;
  mret (mkTaskCancellationResult taskID runID "canceled" canceledAt).
End Services.
#[global] Arguments BackfillStore {D} W.
#[global] Arguments ManualTaskStore W : clear implicits.
