(* ===== verification/ServiceFacts.v ===== *)
(** * Facts about the registry and the ingestion service

    What [NewRegistry] builds, what the paged fetch returns, the commits the
    service hands to its store, and the termination of a task. *)
From Stdlib Require Import Sorted.
From S2P Require Import Prelude Errors GoStrings GoTime GoJson External Domain MarketData CatchUp Ports Registry Ingestion Service Fixtures IngestionFacts.
Open Scope go_scope.

(** * Totality of the validators

    None of the pure functions of the domain, the adapter contract, the
    registry and the ingestion checks runs out of fuel; the lemmas feed the
    [nodiv] database that the termination theorems use. *)
(** ** The domain *)
Lemma parse_enum_total l e v : parse_enum l e v <> Diverge.
Proof. unfold parse_enum. by destruct (contains_string _ _). Qed.
#[export] Hint Resolve parse_enum_total : nodiv.

Lemma ParseCode_total v : ParseCode v <> Diverge.
Proof. unfold ParseCode. no_diverge. Qed.
Lemma ParseBarInterval_total v : ParseBarInterval v <> Diverge.
Proof. unfold ParseBarInterval. no_diverge. Qed.
Lemma NewUTCInstant_total v : NewUTCInstant v <> Diverge.
Proof. unfold NewUTCInstant. no_diverge. Qed.
#[export] Hint Resolve ParseCode_total ParseBarInterval_total NewUTCInstant_total : nodiv.

Lemma validateIdentity_total id code p m k : validateIdentity id code p m k <> Diverge.
Proof. unfold validateIdentity. destruct (ParseCode code); no_diverge. Qed.
Lemma validateText_total v m k : validateText v m k <> Diverge.
Proof. unfold validateText. no_diverge. Qed.
Lemma validateRecord_total m c u k : validateRecord m c u k <> Diverge.
Proof. unfold validateRecord. no_diverge. Qed.
Lemma validateScale_total v f : validateScale v f <> Diverge.
Proof. unfold validateScale. no_diverge. Qed.
Lemma validateValidRange_total a b k : validateValidRange a b k <> Diverge.
Proof. unfold validateValidRange. no_diverge. Qed.
Lemma validate_intervals_total seen l : validate_intervals seen l <> Diverge.
Proof. revert seen. induction l as [|v l IH]; intros seen; simpl; no_diverge. Qed.
#[export] Hint Resolve validateIdentity_total validateText_total validateRecord_total validateScale_total
  validateValidRange_total validate_intervals_total : nodiv.

Lemma asset_Validate_total a : asset_Validate a <> Diverge.
Proof. unfold asset_Validate, ParseAssetType, ParseAssetStatus. no_diverge. Qed.
Lemma provider_Validate_total p : provider_Validate p <> Diverge.
Proof. unfold provider_Validate, ParseProviderType, ParseProviderStatus. no_diverge. Qed.
Lemma mapping_Validate_total m : mapping_Validate m <> Diverge.
Proof. unfold mapping_Validate, capabilities_Validate. no_diverge. Qed.
#[export] Hint Resolve asset_Validate_total provider_Validate_total mapping_Validate_total : nodiv.

Lemma source_Validate_total s : source_Validate s <> Diverge.
Proof. unfold source_Validate. no_diverge. Qed.
#[export] Hint Resolve source_Validate_total : nodiv.

Section WithDecimals.
Context `{D : DecimalLib} `{T : TzLib}.

Lemma validatePositiveDecimal_total v f : validatePositiveDecimal v f <> Diverge.
Proof. unfold validatePositiveDecimal. no_diverge. Qed.
#[local] Hint Resolve validatePositiveDecimal_total : nodiv.
Lemma instrument_Validate_total i : instrument_Validate i <> Diverge.
Proof. unfold instrument_Validate, ParseInstrumentType, ParseInstrumentStatus. no_diverge. Qed.
#[local] Hint Resolve instrument_Validate_total : nodiv.
Lemma ValidateAssetInstrument_total a i : ValidateAssetInstrument a i <> Diverge.
Proof. unfold ValidateAssetInstrument. no_diverge. Qed.
Lemma ValidateProviderMapping_total p i m : ValidateProviderMapping p i m <> Diverge.
Proof. unfold ValidateProviderMapping. no_diverge. Qed.
#[local] Hint Resolve ValidateAssetInstrument_total ValidateProviderMapping_total : nodiv.

Lemma validateOHLC_total o h l c : validateOHLC o h l c <> Diverge.
Proof. unfold validateOHLC. no_diverge. Qed.
#[local] Hint Resolve validateOHLC_total : nodiv.
Lemma bar_Validate_total b : bar_Validate b <> Diverge.
Proof. unfold bar_Validate, ParseQualityStatus. no_diverge. Qed.
#[local] Hint Resolve bar_Validate_total : nodiv.
Lemma NewBar_total b : NewBar b <> Diverge.
Proof. unfold NewBar. no_diverge. Qed.
#[local] Hint Resolve NewBar_total : nodiv.

(** ** The adapter contract *)
Lemma validateProviderMarket_total v : validateProviderMarket v <> Diverge.
Proof. unfold validateProviderMarket. no_diverge. Qed.
Lemma validateAdapterText_total v m f : validateAdapterText v m f <> Diverge.
Proof. unfold validateAdapterText. no_diverge. Qed.
#[local] Hint Resolve validateProviderMarket_total validateAdapterText_total : nodiv.
Lemma reference_Validate_total r : reference_Validate r <> Diverge.
Proof. unfold reference_Validate. no_diverge. Qed.
#[local] Hint Resolve reference_Validate_total : nodiv.
Lemma bar_ValidateFor_total b r : bar_ValidateFor b r <> Diverge.
Proof. unfold bar_ValidateFor, providerBar_Validate. no_diverge. Qed.
Lemma request_Validate_total q : request_Validate q <> Diverge.
Proof. unfold request_Validate. no_diverge. Qed.
#[local] Hint Resolve bar_ValidateFor_total request_Validate_total : nodiv.
Lemma validate_page_bars_total q p l : validate_page_bars q p l <> Diverge.
Proof. revert p. induction l as [|b l IH]; intros p; simpl; no_diverge. Qed.
#[local] Hint Resolve validate_page_bars_total : nodiv.
Lemma page_Validate_total p q : page_Validate p q <> Diverge.
Proof. unfold page_Validate. no_diverge. Qed.

(** ** The registry and the ingestion checks *)
Lemma registry_entry_total {W} (r : Registry W) code : registry_entry r code <> Diverge.
Proof. unfold registry_entry. no_diverge. Qed.
#[local] Hint Resolve registry_entry_total : nodiv.
Lemma ValidateBarsRequest_total {W} (r : Registry W) q : ValidateBarsRequest r q <> Diverge.
Proof. unfold ValidateBarsRequest. no_diverge. Qed.

Lemma Reference_total x : Reference x <> Diverge.
Proof. unfold Reference, execution_Validate. no_diverge. Qed.
Lemma validateQualityResult_total r ref i s e : validateQualityResult r ref i s e <> Diverge.
Proof. unfold validateQualityResult. no_diverge. Qed.
#[local] Hint Resolve Reference_total bar_ValidateFor_total : nodiv.
Lemma rawPayloadMetadata_total raw : rawPayloadMetadata raw <> Diverge.
Proof. unfold rawPayloadMetadata. no_diverge. Qed.
#[local] Hint Resolve rawPayloadMetadata_total : nodiv.
Lemma normalize_bars_total ctx r bars : normalize_bars ctx r bars <> Diverge.
Proof. induction bars as [|b bars IH]; simpl; [discriminate |]. no_diverge. Qed.
#[local] Hint Resolve normalize_bars_total : nodiv.
Lemma ValidateBars_total ctx x bars : ValidateBars ctx x bars <> Diverge.
Proof. unfold ValidateBars. no_diverge. Qed.
End WithDecimals.

Lemma SummarizeRun_total s : SummarizeRun s <> Diverge.
Proof. unfold SummarizeRun, validateRunTaskSnapshot. no_diverge. Qed.
Lemma validateExecutableClaim_total c t : validateExecutableClaim c t <> Diverge.
Proof. unfold validateExecutableClaim. no_diverge. Qed.
#[export] Hint Resolve ValidateAssetInstrument_total ValidateProviderMapping_total bar_Validate_total NewBar_total
  bar_ValidateFor_total page_Validate_total ValidateBarsRequest_total Reference_total validateQualityResult_total
  SummarizeRun_total validateExecutableClaim_total : nodiv.

(** * Execution *)
(** ** The order of strings *)
Lemma string_compare_cons a s b u :
  String.compare (String a s) (String b u) =
  match N.compare (N_of_ascii a) (N_of_ascii b) with Eq => String.compare s u | c => c end.
Proof. reflexivity. Qed.

Lemma ltb_cons a s b u : String.ltb (String a s) (String b u) = true <->
  (N_of_ascii a < N_of_ascii b)%N \/ a = b /\ String.ltb s u = true.
Proof.
  unfold String.ltb. rewrite string_compare_cons.
  destruct (N.compare_spec (N_of_ascii a) (N_of_ascii b)) as [E|L|G].
  - assert (a = b) as -> by (rewrite <- (ascii_N_embedding a), E; apply ascii_N_embedding). split; [auto | intros [H | [_ H]]; [lia | exact H]].
  - split; auto.
  - split; [discriminate |]. intros [H | [-> _]]; lia.
Qed.

Lemma ltb_trans a b c : String.ltb a b = true -> String.ltb b c = true -> String.ltb a c = true.
Proof.
  revert b c. induction a as [|x a IH]; intros [|y b] [|z c]; try discriminate; [reflexivity |].
  rewrite !ltb_cons. intros [H | [-> H]] [G | [-> G]]; [left; lia | left; lia | left; lia | right; eauto].
Qed.

Lemma ltb_total a b : String.ltb a b = false -> a <> b -> String.ltb b a = true.
Proof.
  revert b. induction a as [|x a IH]; intros [|y b] H Hne; try discriminate; try reflexivity; [done |].
  apply not_true_iff_false in H. rewrite ltb_cons in *.
  destruct (N.lt_trichotomy (N_of_ascii x) (N_of_ascii y)) as [L | [E | L]]; [tauto | | auto].
  assert (x = y) as -> by (rewrite <- (ascii_N_embedding x), E; apply ascii_N_embedding).
  right. split; [reflexivity |]. apply IH; [| congruence]. apply not_true_iff_false. tauto.
Qed.

(** ** The registry *)
Section RegistryFacts.
Context `{D : DecimalLib} {W : Type}.

Definition code_before (a b : MarketDataAdapter W) : Prop := String.ltb (adapter_ProviderCode a) (adapter_ProviderCode b) = true.

(** A registry over the adapters [l]: every adapter is found under its code
    with valid capabilities of that code, and nothing else is found. *)
Definition registers (r : Registry W) (l : list (MarketDataAdapter W)) : Prop :=
  (forall code, registry_Get r code = None <-> ~ In code (map adapter_ProviderCode l)) /\
  (forall code a, registry_Get r code = Some a -> In a l /\ adapter_ProviderCode a = code) /\
  (forall code c, registry_Capabilities r code = Some c -> pc_ProviderCode c = code /\ providerCapabilities_Validate c = Ok tt).

Lemma registers_insert r a c l : registers r l -> ~ In (adapter_ProviderCode a) (map adapter_ProviderCode l) ->
  pc_ProviderCode c = adapter_ProviderCode a -> providerCapabilities_Validate c = Ok tt ->
  registers (mkRegistry (<[adapter_ProviderCode a := mkRegistryEntry a c]> (reg_entries r)) (reg_ordered r ++ [a])) (l ++ [a]).
Proof.
  unfold registers, registry_Get, registry_Capabilities. simpl. intros (Hn & Hg & Hc) Ha Ec V.
  split; [| split]; intros code; destruct (decide (adapter_ProviderCode a = code)) as [<-|Hne];
    rewrite ?lookup_insert_eq, ?(lookup_insert_ne _ _ _ _ Hne).
  - rewrite map_app, in_app_iff. simpl. split; [discriminate | tauto].
  - rewrite Hn, map_app, in_app_iff. simpl. tauto.
  - intros b [= <-]. rewrite in_app_iff. simpl. auto.
  - intros b Hb. destruct (Hg _ _ Hb). rewrite in_app_iff. auto.
  - intros k [= <-]. auto.
  - apply Hc.
Qed.

Lemma register_adapters_ok adapters r w r' w' l :
  registers r l -> List.NoDup (map adapter_ProviderCode l) -> reg_ordered r = l ->
  register_adapters r adapters w = (Ok r', w') ->
  exists l', adapters = map Some l' /\ registers r' (l ++ l') /\ List.NoDup (map adapter_ProviderCode (l ++ l')) /\
             reg_ordered r' = l ++ l'.
Proof.
  revert r w l. induction adapters as [|[a|] adapters IH]; intros r w l Hr Hd Ho H; [| | discriminate].
  { injection H as <- <-. exists []. rewrite app_nil_r. auto. }
  cbn -[registry_Get] in H. destruct (code_IsZero _); [discriminate |].
  destruct (not_nil (reg_entries r !! _)) eqn:N; [discriminate |]. apply not_nil_false in N.
  unfold mbind at 1, mwrap in H. destruct (adapter_Capabilities a w) as [[c| |] w1]; simpl in H; try discriminate.
  destruct (negb (pc_ProviderCode c =s _)) eqn:E; [discriminate |]. apply negb_false_iff, String.eqb_eq in E.
  unfold mbind at 1, mlift in H. destruct (providerCapabilities_Validate c) as [[]| |] eqn:V; simpl in H; try discriminate.
  assert (~ In (adapter_ProviderCode a) (map adapter_ProviderCode l)) as Ha
    by (apply (proj1 Hr); unfold registry_Get; by rewrite N).
  apply (IH _ _ (l ++ [a])) in H.
  - destruct H as (l' & -> & H). exists (a :: l'). rewrite <- app_assoc in H. simpl in H. split; [reflexivity | exact H].
  - by apply registers_insert.
  - rewrite map_app. simpl. apply NoDup_ListNoDup, NoDup_app. split; [by apply NoDup_ListNoDup |]. split.
    + intros x Hx%list_elem_of_In ->%list_elem_of_singleton. contradiction.
    + apply NoDup_singleton.
  - simpl. by rewrite Ho.
Qed.

Lemma insert_adapter_Permutation (a : MarketDataAdapter W) l : Permutation (insert_adapter a l) (a :: l).
Proof. induction l as [|b l IH]; simpl; [reflexivity |]. case_if; [| reflexivity]. rewrite IH. constructor. Qed.

Lemma sort_adapters_Permutation (l : list (MarketDataAdapter W)) : Permutation (sort_adapters l) l.
Proof. unfold sort_adapters. induction l as [|a l IH]; simpl; [reflexivity |]. by rewrite insert_adapter_Permutation, IH. Qed.

Lemma insert_adapter_sorted a l : (forall b, In b l -> adapter_ProviderCode b <> adapter_ProviderCode a) ->
  StronglySorted code_before l -> StronglySorted code_before (insert_adapter a l).
Proof.
  intros Hne Hs. induction l as [|b l IH]; simpl; [repeat constructor |]. inversion Hs as [|? ? Hs' Hb]; subst.
  destruct (String.ltb (adapter_ProviderCode b) (adapter_ProviderCode a)) eqn:E.
  - constructor; [apply IH; [intros; apply Hne; by right | exact Hs'] |].
    rewrite insert_adapter_Permutation. constructor; [exact E | exact Hb].
  - assert (code_before a b) as Hab by (apply ltb_total; [exact E | apply Hne; by left]).
    constructor; [exact Hs |]. constructor; [exact Hab |].
    eapply List.Forall_impl; [| exact Hb]. intros c Hc. by apply (ltb_trans _ (adapter_ProviderCode b)).
Qed.

Lemma sort_adapters_sorted (l : list (MarketDataAdapter W)) :
  List.NoDup (map adapter_ProviderCode l) -> StronglySorted code_before (sort_adapters l).
Proof.
  induction l as [|a l IH]; intros H; [constructor |]. inversion H as [|? ? Hn H']; subst.
  apply insert_adapter_sorted; [| by apply IH]. intros b Hb E. apply Hn. rewrite <- E. apply in_map.
  eapply Permutation_in; [apply sort_adapters_Permutation | exact Hb].
Qed.
End RegistryFacts.

(** ** The paged fetch *)
Section Fetch.
Context `{D : DecimalLib} `{T : TzLib} {W : Type} (config : Config) (registry : Registry W) (ctxErr : M W (option error)).

Lemma insert_bar_Permutation b l : Permutation (insert_bar b l) (b :: l).
Proof. induction l as [|c l IH]; simpl; [reflexivity |]. case_if; [| reflexivity]. rewrite IH. constructor. Qed.
Lemma sort_bars_Permutation l : Permutation (sort_bars l) l.
Proof. unfold sort_bars. induction l as [|b l IH]; simpl; [reflexivity |]. by rewrite insert_bar_Permutation, IH. Qed.

Lemma insert_bar_sorted b l : (forall c, In c l -> pb_OpenTime c <> pb_OpenTime b) ->
  StronglySorted bar_before l -> StronglySorted bar_before (insert_bar b l).
Proof.
  intros Hne Hs. induction l as [|c l IH]; simpl; [repeat constructor |]. inversion Hs as [|? ? Hs' Hc]; subst.
  unfold Before. destruct (Z.ltb_spec (pb_OpenTime c) (pb_OpenTime b)) as [E|E].
  - constructor; [apply IH; [intros; apply Hne; by right | exact Hs'] |].
    rewrite insert_bar_Permutation. constructor; [exact E | exact Hc].
  - assert (bar_before b c) as Hbc by (specialize (Hne c (or_introl eq_refl)); unfold bar_before; lia).
    constructor; [exact Hs |]. constructor; [exact Hbc |].
    eapply List.Forall_impl; [| exact Hc]. unfold bar_before in *. intros; lia.
Qed.

Lemma sort_bars_sorted l : List.NoDup (map pb_OpenTime l) -> StronglySorted bar_before (sort_bars l).
Proof.
  induction l as [|b l IH]; intros H; [constructor |]. inversion H as [|? ? Hn H']; subst.
  apply insert_bar_sorted; [| by apply IH]. intros c Hc E. apply Hn. rewrite <- E. apply in_map.
  eapply Permutation_in; [apply sort_bars_Permutation | exact Hc].
Qed.

(** The bars of a validated page are bars of the request, within its limit. *)
Lemma validate_page_bars_ok q previous bars : validate_page_bars q previous bars = Ok tt ->
  Forall (in_request (fbr_Instrument q) (fbr_Interval q) (fbr_StartTime q) (fbr_EndTime q)) bars.
Proof.
  revert previous. induction bars as [|b bars IH]; intros previous H; [constructor |]. simpl in H.
  apply rbind_ok in H as ([] & V & H). destruct (_ || _) eqn:G in H; [discriminate |].
  destruct (opt_test _ previous) in H; [discriminate |]. constructor; [| by apply (IH _ H)].
  unfold Before in G. bsimp. split; [exact V |]. split; [assumption | lia].
Qed.

Lemma page_Validate_ok p q : page_Validate p q = Ok tt ->
  Forall (in_request (fbr_Instrument q) (fbr_Interval q) (fbr_StartTime q) (fbr_EndTime q)) (fbs_Bars p) /\
  llen (fbs_Bars p) <= fbr_Limit q.
Proof.
  unfold page_Validate. intros H. apply rbind_ok in H as ([] & _ & H). inv_ok. bsimp.
  split; [by apply (validate_page_bars_ok _ None) | assumption].
Qed.

(** The bars collected so far: the open times seen are theirs, once each. *)
Definition collected (q : FetchBarsRequest) (seen : gset Z) (bars : list ProviderBar) : Prop :=
  (forall t, t ∈ seen <-> In t (map pb_OpenTime bars)) /\ List.NoDup (map pb_OpenTime bars) /\
  Forall (in_request (fbr_Instrument q) (fbr_Interval q) (fbr_StartTime q) (fbr_EndTime q)) bars.

Lemma collect_bars_ok q seen bars page seen' bars' :
  collected q seen bars -> Forall (in_request (fbr_Instrument q) (fbr_Interval q) (fbr_StartTime q) (fbr_EndTime q)) page ->
  collect_bars seen bars page = Ok (seen', bars') -> bars' = bars ++ page /\ collected q seen' bars'.
Proof.
  revert seen bars. induction page as [|b page IH]; intros seen bars Hc Hp H; simpl in H.
  { injection H as <- <-. by rewrite app_nil_r. }
  destruct (bool_decide _) eqn:E in H; [discriminate |]. apply bool_decide_eq_false in E.
  inversion Hp as [|? ? Hb Hp']; subst. destruct Hc as (Hs & Hd & Hf). apply IH in H; [| | exact Hp'].
  - destruct H as [-> H]. split; [by rewrite <- app_assoc | exact H].
  - split; [| split].
    + intros t. rewrite elem_of_union, elem_of_singleton, Hs, map_app, in_app_iff. simpl. intuition.
    + rewrite map_app. apply NoDup_ListNoDup, NoDup_app. split; [by apply NoDup_ListNoDup |]. split; [| apply NoDup_singleton].
      intros t Ht%list_elem_of_In ->%list_elem_of_singleton. by apply E, Hs.
    + apply Forall_app. split; [exact Hf | by constructor].
Qed.

Lemma fetch_pages_ok pages adapter q seen bars w out w' :
  collected q seen bars -> fetch_pages registry ctxErr pages adapter q seen bars w = (Ok out, w') ->
  exists seen all, out = sort_bars all /\ collected q seen all /\ llen all <= llen bars + Z.of_nat pages * fbr_Limit q.
Proof.
  revert q seen bars w. induction pages as [|pages IH]; intros q seen bars w Hc H; [discriminate |].
  simpl in H. unfold mbind at 1 in H. destruct (ctxErr w) as [[[e|]| |] w1]; try discriminate.
  unfold mbind at 1, mlift at 1 in H. destruct (wrap _ (ValidateBarsRequest registry q)) as [[]| |]; try discriminate.
  unfold mbind at 1, mwrap in H. destruct (adapter_FetchBars adapter q w1) as [[page| |] w2]; simpl in H; try discriminate.
  unfold mbind at 1, mlift at 1 in H. destruct (page_Validate page q) as [[]| |] eqn:V; simpl in H; try discriminate.
  unfold mbind at 1, mlift at 1 in H. destruct (collect_bars seen bars (fbs_Bars page)) as [[seen' bars']| |] eqn:C; try discriminate.
  apply page_Validate_ok in V as [Vb Vl]. destruct (collect_bars_ok q _ _ _ _ _ Hc Vb C) as [-> Hc'].
  assert (llen (bars ++ fbs_Bars page) <= llen bars + fbr_Limit q) as Hl by (unfold llen in *; rewrite length_app; lia).
  destruct (negb (fbs_HasMore page)).
  - injection H as <- <-. exists seen', (bars ++ fbs_Bars page). split; [reflexivity |]. split; [exact Hc' |].
    assert (0 <= fbr_Limit q) by (unfold llen in *; lia). nia.
  - apply (IH (with_cursor q (fbs_NextCursor page)) seen') in H; [| exact Hc'].
    destruct H as (s & all & -> & Ha & Hn). exists s, all. split; [reflexivity |]. split; [exact Ha |]. simpl in Hn. lia.
Qed.
End Fetch.

(** ** The commits of the service *)
Section Commits.
Context `{D : DecimalLib} `{T : TzLib} {W : Type} `{St : !IngestionStore W}.
Context (config : Config) (registry : Registry W) (now : M W Time) (ctxErr : M W (option error)).
Context (quality : ExecutionContext -> list ProviderBar -> M W QualityResult) (claim : TaskClaim).

(** A summary of the claim's run. *)
Definition good_summary (r : RunSummary) : Prop :=
  exists s, SummarizeRun s = Ok r /\ snap_RunID s = task_RunID (claim_Task claim).

(** A success commit of the claim: its lease still holds at the finish time,
    its bars and issues passed the quality check for the claim's range, and its
    checkpoint is that of its bars. *)
Definition good_success (c : SuccessCommit) : Prop :=
  succ_Claim c = claim /\ validateExecutableClaim claim (succ_FinishedAt c) = Ok tt /\
  (exists x reference, Reference x = Ok reference /\ sub_ID (exec_Subscription x) = task_SubscriptionID (claim_Task claim) /\
     validateQualityResult (mkQualityResult (succ_Bars c) (succ_Issues c)) reference (sub_Interval (exec_Subscription x))
       (task_RangeStart (claim_Task claim)) (task_RangeEnd (claim_Task claim)) = Ok tt) /\
  succ_Checkpoint c = successfulCheckpoint (task_SubscriptionID (claim_Task claim)) (succ_Bars c) (succ_FinishedAt c).

(** A failure commit of the claim: its lease still holds, the failure is not
    the loss of the lease, and the transition is the policy's. *)
Definition good_failure (c : FailureCommit) : Prop :=
  validateExecutableClaim claim (fail_FinishedAt c) = Ok tt /\
  exists e, errors_Is e ErrTaskLeaseLost = false /\ c = failureCommit config claim e (fail_FinishedAt c).

Context (I : W -> Prop).
Context (Hnow : safe I now (fun _ => True)) (Hctx : safe I ctxErr (fun _ => True))
        (Hquality : forall x bars, safe I (quality x bars) (fun _ => True))
        (Hadapter : forall code a q, registry_Get registry code = Some a -> safe I (adapter_FetchBars a q) (fun _ => True))
        (Hload : forall id, safe I (LoadExecutionContext id) (fun _ => True))
        (Hsnap : forall id, safe I (LoadRunTaskSnapshot id) (fun _ => True)).
Context (Hsave : forall r, good_summary r -> safe I (SaveRunSummary r) (fun _ => True))
        (Hsuccess : forall c, good_success c -> safe I (CommitSuccess c) (fun _ => True))
        (Hfailure : forall c, good_failure c -> safe I (CommitFailure c) (fun _ => True)).

Lemma safe_refresh_loop n : safe I (refresh_loop n (task_RunID (claim_Task claim))) (fun _ => True).
Proof.
  induction n as [|n IH]; simpl; [apply safe_throw |].
  eapply safe_bind; [apply safe_wrap, Hsnap |]. intros s _. apply safe_failif. intros Hid.
  apply negb_false_iff, N.eqb_eq in Hid.
  eapply (safe_bind _ _ _ good_summary); [apply safe_lift; intros r Hr; apply wrap_ok in Hr; exists s; auto |].
  intros r Hr. eapply safe_bind; [apply safe_try, Hsave, Hr |]. intros [u|e|] _.
  - by apply safe_ret.
  - apply safe_failif. intros _. exact IH.
  - by apply safe_lift.
Qed.

Lemma safe_refresh : safe I (Refresh (task_RunID (claim_Task claim))) (fun _ => True).
Proof. unfold Refresh. apply safe_failif. intros _. apply safe_refresh_loop. Qed.

Lemma safe_fetch_pages code a : registry_Get registry code = Some a ->
  forall pages q seen bars, safe I (fetch_pages registry ctxErr pages a q seen bars) (fun _ => True).
Proof.
  intros Ha. induction pages as [|pages IH]; intros q seen bars; simpl; [apply safe_throw |].
  eapply safe_bind; [exact Hctx |]. intros [e|] _; [apply safe_throw |].
  eapply safe_bind; [apply safe_pure |]. intros _ _.
  eapply safe_bind; [by eapply safe_wrap, Hadapter |]. intros page _.
  eapply safe_bind; [apply safe_pure |]. intros _ _.
  eapply safe_bind; [apply safe_pure |]. intros [s b] _. destruct (negb _); [by apply safe_ret | apply IH].
Qed.

Lemma safe_executeClaim : safe I (executeClaim config registry now ctxErr quality claim) (fun _ => True).
Proof.
  unfold executeClaim. cbv zeta. eapply safe_bind; [apply safe_wrap, Hload |]. intros x _.
  apply safe_failif. intros Hid. apply negb_false_iff, N.eqb_eq in Hid.
  eapply (safe_bind _ _ _ (fun r => Reference x = Ok r)); [apply safe_lift; intros r Hr; by apply wrap_ok in Hr |]. intros reference HR.
  eapply (safe_bind _ _ _ (fun i => i = sub_Interval (exec_Subscription x))).
  { apply safe_lift. intros i Hi. apply wrap_ok in Hi. unfold ParseBarInterval in Hi. destruct (_ && _) in Hi; [discriminate | by injection Hi]. }
  intros interval ->. eapply (safe_bind _ _ _ (fun t => t = task_RangeStart (claim_Task claim))).
  { apply safe_lift. intros t Ht. apply wrap_ok in Ht. unfold NewUTCInstant in Ht. destruct (IsZero _) in Ht; [discriminate | by injection Ht]. }
  intros start ->. eapply (safe_bind _ _ _ (fun t => t = task_RangeEnd (claim_Task claim))).
  { apply safe_lift. intros t Ht. apply wrap_ok in Ht. unfold NewUTCInstant in Ht. destruct (IsZero _) in Ht; [discriminate | by injection Ht]. }
  intros stop ->. destruct (registry_Get registry _) as [a|] eqn:Ha; [| apply safe_throw].
  eapply safe_bind; [by eapply safe_fetch_pages |]. intros bars _.
  eapply safe_bind; [apply safe_wrap, Hquality |]. intros r _.
  eapply (safe_bind _ _ _ (fun _ => validateQualityResult r reference _ _ _ = Ok tt)).
  { apply safe_lift. intros [] Hv. apply wrap_ok in Hv. exact Hv. }
  intros _ Hq. eapply safe_bind; [exact Hnow |]. intros finishedAt _.
  eapply (safe_bind _ _ _ (fun _ => validateExecutableClaim claim finishedAt = Ok tt)).
  { apply safe_lift. intros [] Hv. apply wrap_ok in Hv. exact Hv. }
  intros _ Hv. apply safe_wrap, Hsuccess. split; [reflexivity |]. split; [exact Hv |].
  split; [| simpl; by rewrite Hid]. exists x, reference. destruct r. auto.
Qed.

Lemma safe_transition_failure e : errors_Is e ErrTaskLeaseLost = false ->
  safe I (transition_failure config now claim e) (fun _ => True).
Proof.
  intros He. unfold transition_failure. eapply safe_bind; [exact Hnow |]. intros t _.
  destruct (validateExecutableClaim claim t) as [[]| |] eqn:V; [| apply safe_throw | by apply safe_lift].
  eapply safe_bind.
  { apply safe_try, Hfailure. assert (fail_FinishedAt (failureCommit config claim e t) = t) as Ht
      by (unfold failureCommit; cbv zeta; by destruct (_ || _)).
    split; [by rewrite Ht | exists e; by rewrite Ht]. }
  intros [u|e'|] _; [| apply safe_throw | by apply safe_lift].
  eapply safe_bind; [apply safe_try, safe_refresh |]. intros [r|e'|] _; [apply safe_throw | apply safe_throw | by apply safe_lift].
Qed.

Lemma safe_ExecuteTask : safe I (ExecuteTask config registry now ctxErr quality claim) (fun _ => True).
Proof.
  unfold ExecuteTask. eapply safe_bind; [exact Hnow |]. intros t _.
  eapply safe_bind; [apply safe_pure |]. intros _ _.
  eapply safe_bind; [apply safe_try, safe_executeClaim |]. intros [u|e|] _; [| | by apply safe_lift].
  - eapply safe_bind; [apply safe_wrap, safe_refresh |]. intros _ _. by apply safe_ret.
  - apply safe_failif. intros He. eapply safe_bind; [exact Hctx |]. intros c _. apply safe_failif. intros _.
    apply safe_failif. intros _. by apply safe_transition_failure.
Qed.
End Commits.

(** ** Termination, and the number of calls *)
Section Costs.
Context {W : Type} (count : W -> Z).

(** [c] finishes, and what it does adds at most [n] to a count of the world. *)
Definition costs {A} (n : Z) (c : M W A) : Prop := forall w, fst (c w) <> Diverge /\ count (snd (c w)) <= count w + n.

Lemma costs_le {A} (c : M W A) n m : costs n c -> n <= m -> costs m c.
Proof. intros Hc Hn w. destruct (Hc w) as [H1 H2]. split; [exact H1 | lia]. Qed.
Lemma costs_lift {A} (r : result A) n : 0 <= n -> r <> Diverge -> costs n (mlift r).
Proof. intros Hn Hr w. split; [exact Hr | simpl; lia]. Qed.
Lemma costs_ret {A} (a : A) n : 0 <= n -> costs n (mret a).
Proof. intros Hn w. split; [discriminate | simpl; lia]. Qed.
Lemma costs_throw {A} e n : 0 <= n -> costs n (@mthrow W A e).
Proof. intros Hn w. split; [discriminate | simpl; lia]. Qed.
Lemma costs_wrap {A} text (c : M W A) n : costs n c -> costs n (mwrap text c).
Proof. intros Hc w. specialize (Hc w). unfold mwrap. destruct (c w) as [[a|e|] w']; (split; [| exact (proj2 Hc)]); [discriminate | discriminate | exact (proj1 Hc)]. Qed.
(** A computation and what follows it; each costs its own. *)
Lemma costs_bind {A B} n1 n2 n (c : M W A) (k : A -> M W B) : costs n1 c -> (forall a, costs n2 (k a)) -> 0 <= n2 -> n1 + n2 <= n ->
  costs n (mbind c k).
Proof.
  intros Hc Hk H2 Hn w. specialize (Hc w). unfold mbind. destruct (c w) as [[a|e|] w']; simpl in *.
  - destruct (Hk a w') as [K1 K2]. split; [exact K1 | lia].
  - split; [discriminate | lia].
  - destruct Hc as [Hc _]. contradiction.
Qed.
Lemma costs_pure {A B} text (r : result A) n (k : A -> M W B) : r <> Diverge -> 0 <= n -> (forall a, costs n (k a)) -> costs n (mbind (mlift (wrap text r)) k).
Proof. intros Hr Hn Hk. apply (costs_bind 0 n); [apply costs_lift; [lia | by destruct r] | exact Hk | exact Hn | lia]. Qed.
Lemma costs_if {A} (b : bool) (c d : M W A) n : costs n c -> costs n d -> costs n (if b then c else d).
Proof. by destruct b. Qed.
Lemma costs_match_try {A B} n1 n2 n (c : M W A) (k : A -> M W B) (h : error -> M W B) : costs n1 c ->
  (forall a, costs n2 (k a)) -> (forall e, costs n2 (h e)) -> n1 + n2 <= n ->
  costs n (r <-- mtry c ;; match r with Ok a => k a | Err e => h e | Diverge => mlift Diverge end).
Proof.
  intros Hc Hk Hh Hn w. specialize (Hc w). unfold mbind, mtry. destruct (c w) as [[a|e|] w']; simpl in *.
  - destruct (Hk a w') as [K1 K2]. split; [exact K1 | lia].
  - destruct (Hh e w') as [K1 K2]. split; [exact K1 | lia].
  - destruct Hc as [Hc _]. contradiction.
Qed.
End Costs.

(** How much a call of each collaborator counts. *)
Record Weights := mkWeights {
  wt_now : Z; wt_ctxErr : Z; wt_LoadExecutionContext : Z; wt_FetchBars : Z; wt_ValidateBars : Z; wt_CommitSuccess : Z;
  wt_CommitFailure : Z; wt_LoadRunTaskSnapshot : Z; wt_SaveRunSummary : Z }.
Definition weights_wf (k : Weights) : Prop :=
  0 <= wt_now k /\ 0 <= wt_ctxErr k /\ 0 <= wt_LoadExecutionContext k /\ 0 <= wt_FetchBars k /\ 0 <= wt_ValidateBars k /\ 0 <= wt_CommitSuccess k
  /\ 0 <= wt_CommitFailure k /\ 0 <= wt_LoadRunTaskSnapshot k /\ 0 <= wt_SaveRunSummary k.

Section Termination.
Context `{D : DecimalLib} `{T : TzLib} {W : Type} `{St : !IngestionStore W}.
Context (config : Config) (registry : Registry W) (now : M W Time) (ctxErr : M W (option error)).
Context (quality : ExecutionContext -> list ProviderBar -> M W QualityResult).
(** What is counted, and what a call of each collaborator adds to it at most. *)
Context (count : W -> Z) (k : Weights).
Record collaborators_cost : Prop := mkCollaboratorsCost {
  cost_now : costs count (wt_now k) now; cost_ctxErr : costs count (wt_ctxErr k) ctxErr;
  cost_quality : forall x bars, costs count (wt_ValidateBars k) (quality x bars);
  cost_adapter : forall code a q, registry_Get registry code = Some a -> costs count (wt_FetchBars k) (adapter_FetchBars a q);
  cost_load : forall id, costs count (wt_LoadExecutionContext k) (LoadExecutionContext id);
  cost_snapshot : forall id, costs count (wt_LoadRunTaskSnapshot k) (LoadRunTaskSnapshot id);
  cost_save : forall r, costs count (wt_SaveRunSummary k) (SaveRunSummary r);
  cost_success : forall c, costs count (wt_CommitSuccess k) (CommitSuccess c);
  cost_failure : forall c, costs count (wt_CommitFailure k) (CommitFailure c) }.
Context (Hk : weights_wf k) (Hc : collaborators_cost).

Definition refresh_cost : Z := 3 * (wt_LoadRunTaskSnapshot k + wt_SaveRunSummary k).
Definition page_cost : Z := wt_ctxErr k + wt_FetchBars k.
Definition claim_cost : Z :=
  wt_LoadExecutionContext k + Z.max 0 (conf_MaximumPages config) * page_cost + wt_ValidateBars k + wt_now k + wt_CommitSuccess k.
(** The most an execution adds. *)
Definition task_cost : Z := wt_now k + claim_cost + wt_ctxErr k + wt_now k + wt_CommitFailure k + refresh_cost.

Lemma costs_refresh_loop n id : costs count (Z.of_nat n * (wt_LoadRunTaskSnapshot k + wt_SaveRunSummary k)) (refresh_loop n id).
Proof.
  destruct Hk as (_ & _ & _ & _ & _ & _ & _ & H1 & H2). induction n as [|n IH]; cbn [refresh_loop]; [apply costs_throw; lia |].
  rewrite Nat2Z.inj_succ, Z.mul_succ_l. set (rest := Z.of_nat n * _) in *. assert (0 <= rest) by (unfold rest; nia).
  apply (costs_bind _ (wt_LoadRunTaskSnapshot k) (rest + wt_SaveRunSummary k)); [apply costs_wrap, (cost_snapshot Hc) | intros s | lia | lia].
  apply costs_if; [apply costs_throw; lia |]. apply costs_pure; [apply SummarizeRun_total | lia |]. intros r.
  apply (costs_match_try _ (wt_SaveRunSummary k) rest _ (SaveRunSummary r) (fun _ => mret r)); [apply (cost_save Hc) | intros; by apply costs_ret | | lia].
  intros e. apply costs_if; [by apply costs_throw | exact IH].
Qed.
Lemma refresh_cost_nonneg : 0 <= refresh_cost.
Proof. unfold refresh_cost. destruct Hk as (_ & _ & _ & _ & _ & _ & _ & H1 & H2). lia. Qed.
Lemma costs_Refresh id : costs count refresh_cost (Refresh id).
Proof. unfold Refresh. apply costs_if; [apply costs_throw, refresh_cost_nonneg |]. apply (costs_refresh_loop 3). Qed.

Lemma collect_bars_total seen bars page : collect_bars seen bars page <> Diverge.
Proof. revert seen bars. induction page as [|b page IH]; intros seen bars; simpl; no_diverge. Qed.

Lemma costs_fetch_pages code a pages q seen bars : registry_Get registry code = Some a ->
  costs count (Z.of_nat pages * page_cost) (fetch_pages registry ctxErr pages a q seen bars).
Proof.
  intros Ha. assert (0 <= wt_ctxErr k /\ 0 <= wt_FetchBars k) as [H1 H2] by (destruct Hk as (? & ? & ? & ? & _); auto).
  revert q seen bars. induction pages as [|pages IH]; intros q seen bars; cbn [fetch_pages]; [apply costs_throw; lia |].
  rewrite Nat2Z.inj_succ, Z.mul_succ_l. set (rest := Z.of_nat pages * _) in *. assert (0 <= rest) by (unfold rest, page_cost; nia). unfold page_cost.
  apply (costs_bind _ (wt_ctxErr k) (rest + wt_FetchBars k)); [apply (cost_ctxErr Hc) | | lia | lia]. intros [e|]; [apply costs_throw; lia |].
  apply costs_pure; [apply ValidateBarsRequest_total | lia |]. intros _.
  apply (costs_bind _ (wt_FetchBars k) rest); [by eapply costs_wrap, (cost_adapter Hc) | | lia | lia]. intros page.
  apply costs_pure; [apply page_Validate_total | lia |]. intros _.
  apply (costs_bind _ 0 rest); [apply costs_lift; [lia | apply collect_bars_total] | | lia | lia]. intros [s b].
  apply costs_if; [by apply costs_ret | apply IH].
Qed.

Lemma costs_executeClaim claim : costs count claim_cost (executeClaim config registry now ctxErr quality claim).
Proof.
  destruct Hk as (K1 & K2 & K3 & K4 & K5 & K6 & _). unfold executeClaim, claim_cost. cbv zeta. set (pages := Z.max 0 _ * page_cost).
  assert (0 <= pages) by (unfold pages, page_cost; nia).
  apply (costs_bind _ (wt_LoadExecutionContext k) (pages + wt_ValidateBars k + wt_now k + wt_CommitSuccess k)); [apply costs_wrap, (cost_load Hc) | | lia | lia].
  intros x. apply costs_if; [apply costs_throw; lia |].
  apply costs_pure; [apply Reference_total | lia |]. intros reference. apply costs_pure; [apply ParseBarInterval_total | lia |]. intros interval.
  apply costs_pure; [apply NewUTCInstant_total | lia |]. intros start. apply costs_pure; [apply NewUTCInstant_total | lia |]. intros stop.
  destruct (registry_Get registry _) as [a|] eqn:Ha; [| apply costs_throw; lia].
  apply (costs_bind _ pages (wt_ValidateBars k + wt_now k + wt_CommitSuccess k)); [| | lia | lia].
  { eapply costs_le; [by eapply costs_fetch_pages |]. unfold pages. replace (Z.of_nat (Z.to_nat (conf_MaximumPages config))) with (Z.max 0 (conf_MaximumPages config)) by lia. lia. }
  intros bars. apply (costs_bind _ (wt_ValidateBars k) (wt_now k + wt_CommitSuccess k)); [apply costs_wrap, (cost_quality Hc) | | lia | lia]. intros r.
  apply costs_pure; [apply validateQualityResult_total | lia |]. intros _.
  apply (costs_bind _ (wt_now k) (wt_CommitSuccess k)); [apply (cost_now Hc) | | lia | lia]. intros t.
  apply costs_pure; [apply validateExecutableClaim_total | lia |]. intros _. apply costs_wrap, (cost_success Hc).
Qed.

Lemma costs_transition_failure claim e : costs count (wt_now k + wt_CommitFailure k + refresh_cost) (transition_failure config now claim e).
Proof.
  pose proof refresh_cost_nonneg. destruct Hk as (K1 & K2 & K3 & K4 & K5 & K6 & K7 & _). unfold transition_failure.
  apply (costs_bind _ (wt_now k) (wt_CommitFailure k + refresh_cost)); [apply (cost_now Hc) | | lia | lia]. intros t.
  destruct (validateExecutableClaim claim t) eqn:V; [| apply costs_throw; lia | by apply validateExecutableClaim_total in V].
  apply (costs_match_try _ (wt_CommitFailure k) refresh_cost); [apply (cost_failure Hc) | | intros; by apply costs_throw | lia]. intros _.
  apply (costs_match_try _ refresh_cost 0); [apply costs_Refresh | | | lia]; intros; by apply costs_throw.
Qed.

Lemma costs_ExecuteTask claim : costs count task_cost (ExecuteTask config registry now ctxErr quality claim).
Proof.
  pose proof refresh_cost_nonneg. destruct Hk as (K1 & K2 & K3 & K4 & K5 & K6 & K7 & _). unfold ExecuteTask, task_cost.
  assert (0 <= claim_cost) by (unfold claim_cost, page_cost; nia).
  apply (costs_bind _ (wt_now k) (claim_cost + (wt_ctxErr k + (wt_now k + wt_CommitFailure k + refresh_cost)))); [apply (cost_now Hc) | | lia | lia]. intros t.
  apply costs_pure; [apply validateExecutableClaim_total | lia |]. intros _.
  apply (costs_match_try _ claim_cost (wt_ctxErr k + (wt_now k + wt_CommitFailure k + refresh_cost))); [apply costs_executeClaim | | | lia].
  - intros _. apply (costs_bind _ refresh_cost 0); [apply costs_wrap, costs_Refresh | intros; by apply costs_ret | lia | lia].
  - intros e. apply costs_if; [apply costs_throw; lia |].
    apply (costs_bind _ (wt_ctxErr k) (wt_now k + wt_CommitFailure k + refresh_cost)); [apply (cost_ctxErr Hc) | | lia | lia]. intros c.
    apply costs_if; [apply costs_throw; lia |]. apply costs_if; [apply costs_throw; lia | apply costs_transition_failure].
Qed.
End Termination.

(** ** A finished task was committed *)
Section Committed.
Context `{D : DecimalLib} `{T : TzLib} {W : Type} `{St : !IngestionStore W}.
Context (config : Config) (registry : Registry W) (now : M W Time) (ctxErr : M W (option error)).
Context (quality : ExecutionContext -> list ProviderBar -> M W QualityResult) (claim : TaskClaim).

Lemma executeClaim_committed w w' : executeClaim config registry now ctxErr quality claim w = (Ok tt, w') ->
  exists c w1, good_success claim c /\ CommitSuccess c w1 = (Ok tt, w').
Proof.
  unfold executeClaim. cbv zeta. intros H. apply mbind_ok in H as (x & w1 & Hx & H). apply mwrap_ok in Hx.
  minv. apply negb_false_iff, N.eqb_eq in G. destruct (registry_Get registry _) as [a'|]; [| discriminate]. minv.
  eexists; eexists; split; [| exact H]. unfold good_success. simpl.
  unfold ParseBarInterval, NewUTCInstant in *. repeat match goal with
  | E : (if _ then Err _ else Ok _) = Ok _ |- _ => destruct (_ : bool) in E; [discriminate | injection E as <-] end.
  split; [reflexivity |]. split; [match goal with V : validateExecutableClaim _ _ = Ok ?u |- _ => destruct u; exact V end |]. split; [| by rewrite G].
  eexists x, _. split; [eassumption |]. split; [exact G |].
  match goal with V : validateQualityResult ?r _ _ _ _ = Ok ?u |- _ => destruct r, u; exact V end.
Qed.
End Committed.

(** ** Properties *)
Section Properties.
Context `{D : DecimalLib} `{T : TzLib} {W : Type} `{St : !IngestionStore W}.

(** The registry holds exactly the adapters it was given: their codes are
    distinct, [Get] finds each adapter under its code and nothing else, the
    capabilities were validated for that code, and [List] returns every adapter
    once, by ascending code. *)
Theorem new_registry_spec (adapters : list (option (MarketDataAdapter W))) r w w' :
  NewRegistry adapters w = (Ok r, w') ->
  exists l, adapters = map Some l /\ List.NoDup (map adapter_ProviderCode l) /\ registers r l /\
    (forall a, In a l -> registry_Get r (adapter_ProviderCode a) = Some a) /\
    Permutation (registry_List r) l /\ StronglySorted code_before (registry_List r).
Proof.
  unfold NewRegistry. intros H. minv. apply (register_adapters_ok _ _ _ _ _ []) in M; [| | constructor | reflexivity].
  - destruct M as (l & -> & Hr & Hd & Ho). simpl in *. exists l. split; [reflexivity |]. split; [exact Hd |]. split; [exact Hr |].
    unfold registry_List. simpl. rewrite Ho. split; [| split; [apply sort_adapters_Permutation | by apply sort_adapters_sorted]].
    intros x Hx. destruct Hr as (Hn & Hg & _). unfold registry_Get in *. simpl.
    destruct (reg_entries a !! adapter_ProviderCode x) as [e|] eqn:E.
    + destruct (Hg (adapter_ProviderCode x) (entry_adapter e)) as [He Ec]; [by rewrite E |]. simpl. f_equal.
      by apply (NoDup_map_same adapter_ProviderCode l).
    + exfalso. apply (Hn (adapter_ProviderCode x)); [by rewrite E | by apply in_map].
  - unfold registers, registry_Get, registry_Capabilities. simpl. split; [| split]; intros code; rewrite lookup_empty; try discriminate.
    simpl. split; [intros _ [] | reflexivity].
Qed.

(** C10. A fetch that succeeds returns bars of the requested source, interval
    and range only, strictly ascending by open time (so no bar twice, across
    the pages too), and at most the configured number of pages of them. *)
Theorem fetch_all_bars_result config (registry : Registry W) ctxErr adapter q w bars w' :
  fetchAllBars config registry ctxErr adapter q w = (Ok bars, w') ->
  StronglySorted bar_before bars /\
  Forall (in_request (fbr_Instrument q) (fbr_Interval q) (fbr_StartTime q) (fbr_EndTime q)) bars /\
  llen bars <= conf_MaximumPages config * fbr_Limit q.
Proof.
  unfold fetchAllBars. destruct (Z.le_gt_cases (conf_MaximumPages config) 0) as [Hz|Hz].
  { rewrite (Z2Nat.nonpos _ Hz). discriminate. }
  intros H. apply fetch_pages_ok in H; [| repeat split; [set_solver | intros [] | constructor | constructor]].
  destruct H as (s & all & -> & (_ & Hd & Hf) & Hn). split; [by apply sort_bars_sorted |].
  split; [rewrite sort_bars_Permutation; exact Hf |]. rewrite Z2Nat.id in Hn by lia.
  unfold llen in *. by rewrite (Permutation_length (sort_bars_Permutation all)).
Qed.

(** C5. Whatever fails while a task executes, the store is only ever asked for
    the commits of that claim: a success commit carries bars and issues that
    passed the quality check for the claim's own range and the checkpoint of
    those bars, a failure commit the policy's transition, both with a lease
    that still holds at their finish time, and a saved summary is that of the
    claim's run. Every invariant those calls keep is kept by [ExecuteTask]. *)
Theorem execute_task_invariant config registry now ctxErr quality claim (I : W -> Prop) w :
  safe I now (fun _ => True) -> safe I ctxErr (fun _ => True) ->
  (forall x bars, safe I (quality x bars) (fun _ => True)) ->
  (forall code a q, registry_Get registry code = Some a -> safe I (adapter_FetchBars a q) (fun _ => True)) ->
  (forall id, safe I (LoadExecutionContext id) (fun _ => True)) ->
  (forall id, safe I (LoadRunTaskSnapshot id) (fun _ => True)) ->
  (forall r, good_summary claim r -> safe I (SaveRunSummary r) (fun _ => True)) ->
  (forall c, good_success claim c -> safe I (CommitSuccess c) (fun _ => True)) ->
  (forall c, good_failure config claim c -> safe I (CommitFailure c) (fun _ => True)) ->
  I w -> I (snd (ExecuteTask config registry now ctxErr quality claim w)).
Proof. intros. by apply safe_ExecuteTask. Qed.

(** A task that [ExecuteTask] reports as done was committed: a success
    commit of the claim, with a lease that still held, succeeded, and only the
    run's summary was read and saved after it. *)
Theorem execute_task_committed config registry now ctxErr quality claim w w' :
  ExecuteTask config registry now ctxErr quality claim w = (Ok tt, w') ->
  exists c w1 w2 r, good_success claim c /\ CommitSuccess c w1 = (Ok tt, w2) /\
    Refresh (task_RunID (claim_Task claim)) w2 = (Ok r, w').
Proof.
  unfold ExecuteTask. intros H. apply mbind_ok in H as (t & w1 & _ & H). apply mbind_ok in H as (? & w2 & _ & H).
  apply mbind_ok in H as (r & w3 & Hx & H). apply mtry_ok in Hx as [Hx _]. destruct r as [[]|e|]; [| | discriminate].
  - apply executeClaim_committed in Hx as (c & w4 & Hc & Hs). minv. exists c, w4, w3. eauto.
  - exfalso. minv. revert H. unfold transition_failure. intros H. minv.
    destruct (validateExecutableClaim claim a0) as [u|e'|]; [| discriminate | discriminate]. minv.
    destruct a1 as [u'|e'|]; [| discriminate | discriminate]. minv. destruct a1; discriminate.
Qed.

(** C33. Executing a task ends, and calls its collaborators a bounded number of
    times: when each call of one of them ends and adds at most its weight to a
    count, an execution ends and adds at most the weights of: three readings of
    the clock, one of the context for each page and one more, the execution
    context once, a page for each of the configured maximum, the quality once,
    each commit once, and three times the snapshot of the run and the save of
    its summary. (Weighing one call by one and the others by zero bounds the
    number of those calls.) *)
Theorem execute_task_terminates config registry now ctxErr quality claim (count : W -> Z) k w :
  weights_wf k -> collaborators_cost registry now ctxErr quality count k ->
  let r := ExecuteTask config registry now ctxErr quality claim w in
  let pages := Z.max 0 (conf_MaximumPages config) in
  fst r <> Diverge /\
  count (snd r) <= count w + 3 * wt_now k + (pages + 1) * wt_ctxErr k + wt_LoadExecutionContext k + pages * wt_FetchBars k
    + wt_ValidateBars k + wt_CommitSuccess k + wt_CommitFailure k + 3 * wt_LoadRunTaskSnapshot k + 3 * wt_SaveRunSummary k.
Proof.
  intros Hk Hc r pages. destruct (costs_ExecuteTask config registry now ctxErr quality count k Hk Hc claim w) as [H1 H2]. split; [exact H1 |].
  fold r in H2. unfold task_cost, claim_cost, page_cost, refresh_cost in H2. fold pages in H2. lia.
Qed.
End Properties.

(** *** A recording store for the witnesses: the commits made so far. *)
Definition commits : Type := list (SuccessCommit + FailureCommit).
#[local] Instance recording_store : IngestionStore commits := {|
  LoadRunTaskSnapshot id := mret (mkRunTaskSnapshot id 0 0 0 1 0 0 (Some morning) (Some (morning + 5 * Hour)));
  SaveRunSummary _ := mret tt;
  LoadExecutionContext _ := mret btc_context;
  CommitSuccess c := fun w => (Ok tt, inl c :: w);
  CommitFailure c := fun w => (Ok tt, inr c :: w) |}.

(** An adapter with two pages of one bar, and a registry of it. *)
Definition two_pages (q : FetchBarsRequest) : FetchBarsResult :=
  if fbr_Cursor q =s EmptyString then mkFetchBarsResult [hour_bar morning] "2" true
  else mkFetchBarsResult [hour_bar (morning + Hour)] EmptyString false.
Definition spot_adapter : MarketDataAdapter commits := {|
  adapter_ProviderCode := "bybit";
  adapter_Capabilities := mret (mkProviderCapabilities "bybit"
    [mkProviderMarketCapability "spot" [AssetTypeCrypto] [InstrumentTypeSpot] false true [BarInterval1Hour] 0 10]);
  adapter_FetchLatestQuotes _ := mret [];
  adapter_FetchBars q := mret (two_pages q) |}.
Definition spot_registry : Registry commits :=
  match fst (NewRegistry [Some spot_adapter] []) with Ok r => r | _ => mkRegistry ∅ [] end.
Definition five_hours_later : M commits Time := mret (morning + 5 * Hour).
Definition no_cancel : M commits (option error) := mret None.
Definition structural (x : ExecutionContext) (bars : list ProviderBar) : M commits QualityResult :=
  mlift (ValidateBars (fun _ => None) x bars).
Definition executed : result unit * commits :=
  ExecuteTask service_config spot_registry five_hours_later no_cancel structural claim [].

Lemma spot_registry_only code a : registry_Get spot_registry code = Some a -> a = spot_adapter.
Proof.
  assert (exists c, reg_entries spot_registry = {["bybit"%string := mkRegistryEntry spot_adapter c]}) as [c E]
    by (eexists; vm_compute; reflexivity).
  unfold registry_Get. rewrite E. intros (e & [_ <-]%lookup_singleton_Some & ->)%fmap_Some. reflexivity.
Qed.

Lemma new_registry_spec_witness : registry_Get spot_registry "bybit" = Some spot_adapter.
Proof.
  destruct (new_registry_spec [Some spot_adapter] spot_registry [] []) as (l & E & _ & _ & H & _); [vm_compute; reflexivity |].
  apply (H spot_adapter). destruct l as [|a [|b l]]; try discriminate. injection E as <-. left. reflexivity.
Defined.

Lemma fetch_all_bars_result_witness : exists bars,
  fst (fetchAllBars service_config spot_registry no_cancel spot_adapter two_hours []) = Ok bars /\
  llen bars = 2 /\ StronglySorted bar_before bars.
Proof.
  set (f := fetchAllBars service_config spot_registry no_cancel spot_adapter two_hours []).
  assert (fst f = Ok [hour_bar morning; hour_bar (morning + Hour)]) as E by (vm_compute; reflexivity).
  exists [hour_bar morning; hour_bar (morning + Hour)]. split; [exact E |]. split; [reflexivity |].
  apply (fetch_all_bars_result service_config spot_registry no_cancel spot_adapter two_hours [] _ (snd f)).
  change (f = (Ok [hour_bar morning; hour_bar (morning + Hour)], snd f)). rewrite <- E. apply surjective_pairing.
Defined.

Lemma execute_task_invariant_witness :
  Forall (fun c => match c with inl s => good_success claim s | inr f => good_failure service_config claim f end) (snd executed).
Proof.
  apply (execute_task_invariant service_config spot_registry five_hours_later no_cancel structural claim
    (Forall (fun c => match c with inl s => good_success claim s | inr f => good_failure service_config claim f end)));
    try (intros; intros w Hw; split; [exact Hw | auto]; fail); [| | | constructor].
  - intros code a q ->%spot_registry_only w Hw. split; [exact Hw | auto].
  - intros c Hc w Hw. split; [constructor; assumption | auto].
  - intros c Hc w Hw. split; [constructor; assumption | auto].
Defined.

Lemma execute_task_committed_witness : exists c w1 w2 r,
  good_success claim c /\ CommitSuccess c w1 = (Ok tt, w2) /\ Refresh (task_RunID (claim_Task claim)) w2 = (Ok r, snd executed).
Proof.
  apply (execute_task_committed service_config spot_registry five_hours_later no_cancel structural claim []).
  assert (fst executed = Ok tt) as H by (vm_compute; reflexivity).
  change (executed = (Ok tt, snd executed)). rewrite <- H. apply surjective_pairing.
Defined.

(** A world that counts the pages fetched, of a task that may fetch one, from
    a provider with two, for a run whose summary is always in conflict. *)
Definition counted_call : M Z unit := fun n => (Ok tt, n + 1).
Definition counting_pages (q : FetchBarsRequest) : M Z FetchBarsResult := _ <-- counted_call ;; mret (two_pages q).
Definition counting_adapter : MarketDataAdapter Z := {|
  adapter_ProviderCode := "bybit"; adapter_Capabilities := mret (mkProviderCapabilities "bybit"
    [mkProviderMarketCapability "spot" [AssetTypeCrypto] [InstrumentTypeSpot] false true [BarInterval1Hour] 0 10]);
  adapter_FetchLatestQuotes _ := mret []; adapter_FetchBars := counting_pages |}.
Definition counting_registry : Registry Z := match fst (NewRegistry [Some counting_adapter] 0) with Ok r => r | _ => mkRegistry ∅ [] end.
#[local] Instance conflicting_store : IngestionStore Z := {|
  LoadRunTaskSnapshot id := mret (mkRunTaskSnapshot id 0 0 0 1 0 0 (Some morning) (Some (morning + 5 * Hour)));
  SaveRunSummary _ := mthrow (Sentinel ErrConflict);
  LoadExecutionContext _ := mret btc_context; CommitSuccess _ := mret tt; CommitFailure _ := mret tt |}.
Definition one_page : Config := mkConfig 2 1 defaultRetryBackoffs Hour.
Definition counting_run : result unit * Z :=
  ExecuteTask one_page counting_registry (mret (morning + 5 * Hour)) (mret None) (fun x bars => mlift (ValidateBars (fun _ => None) x bars)) claim 0.
Lemma execute_task_terminates_witness : fst counting_run <> Diverge /\ 0 < snd counting_run <= 1.
Proof.
  destruct (execute_task_terminates one_page counting_registry (mret (morning + 5 * Hour)) (mret None)
    (fun x bars => mlift (ValidateBars (fun _ => None) x bars)) claim (fun n => n) (mkWeights 0 0 0 1 0 0 0 0 0) 0) as [H1 H2].
  - repeat split; discriminate.
  - split; try (intros; first [apply costs_ret | apply costs_throw]; discriminate).
    + intros x bars. apply costs_lift; [discriminate | apply ValidateBars_total].
    + assert (forall n, n + 1 <= n + 1) as Hn by lia. intros code a q E w. assert (a = counting_adapter) as ->; [| split; [discriminate | apply Hn]].
      assert (exists c, reg_entries counting_registry = {["bybit"%string := mkRegistryEntry counting_adapter c]}) as [c Er] by (eexists; vm_compute; reflexivity).
      unfold registry_Get in E. rewrite Er in E. by apply fmap_Some in E as (e & [_ <-]%lookup_singleton_Some & ->).
  - split; [exact H1 |]. split; [vm_compute; reflexivity | exact H2].
Defined.
