(* ===== verification/Database.v ===== *)
(** * The PostgreSQL side of internal/repository/postgres

    The tables of internal/database/migrations/sql (00002-00004) as finite maps
    with the constraints the migrations declare, the statements' outcomes as
    the driver reports them, and transactions.

    PostgreSQL and pgx are not part of the repository: what a column type makes
    of a value is the parameter [PgLib], and every statement, [Begin] and
    [Commit] can fail with any driver error, given by a list of faults in the
    world. A transaction is one step of the world: the row locks its first
    statement takes serialize it with the others on the same rows. *)
From S2P Require Import Prelude Errors GoStrings GoTime External Domain MarketData CatchUp Ingestion.
Open Scope go_scope.

(** ** Column types *)
Class PgLib `{D : DecimalLib} := {
  (** timestamptz, in microseconds *)
  pg_time : Time -> Time;
  (** varchar(n), text and jsonb: the stored text, or the server's error *)
  pg_varchar : Z -> string -> result string;
  pg_text : string -> result string;
  pg_jsonb : string -> result string;
  (** numeric(38,18) *)
  pg_numeric : Decimal -> result Decimal;
  (** [jsonb_set(context, '{operations}', COALESCE(context->'operations', '[]') || $1, true)] *)
  pg_append_operations : string -> string -> result string;
  (** [jsonb_set(metadata, '{audit_log}', CASE WHEN jsonb_typeof(metadata->'audit_log') = 'array'
      THEN metadata->'audit_log' ELSE '[]' END || $5, true)] *)
  pg_append_audit_log : string -> string -> result string }.

(** What the code relies on: a stored instant is at most a microsecond before
    the one sent, in the same order, and reads back unchanged; a text that fits
    its column is stored unchanged, if at all, and a rejection is not the
    absence of a row. *)
Class PgLaws `{D : DecimalLib} (P : PgLib) := {
  pg_time_le t : pg_time t <= t < pg_time t + 1000;
  pg_time_idem t : pg_time (pg_time t) = pg_time t;
  pg_time_mono t u : t <= u -> pg_time t <= pg_time u;
  pg_varchar_exact n s s' : pg_varchar n s = Ok s' -> RuneCountInString s <= n -> s' = s;
  pg_varchar_error n s e : pg_varchar n s = Err e -> errors_Is e ErrNoRows = false }.

Definition pg_error (code constraint : string) : error :=
  Driver {| drv_code := Some code; drv_constraint := constraint; drv_safe_to_retry := false; drv_net := false |}.
Definition unique_violation : string -> error := pg_error "23505".
Definition foreign_key_violation : string -> error := pg_error "23503".
Definition check_violation : string -> error := pg_error "23514".
Definition no_rows : error := Sentinel ErrNoRows.

Definition int4_range (z : Z) : bool := (- 2 ^ 31 <=? z) && (z <=? int32_max).
(** An [int] argument for an integer column, and integer addition in SQL. *)
Definition pg_int4 (z : Z) : result Z :=
  failif negb (int4_range z), Plain "unable to encode integer into int4" ;; Ok z.
Definition int4_add (a b : Z) : result Z :=
  failif negb (int4_range (a + b)), pg_error "22003" EmptyString ;; Ok (a + b).

Definition opt_map_result {A B} (f : A -> result B) (o : option A) : result (option B) :=
  match o with None => Ok None | Some a => b <- f a ;; Ok (Some b) end.

(** ** repository/postgres/errors.go *)
Definition has_prefix_08 (code : string) : bool := String.prefix "08" code.

Definition MapError (e : error) : error :=
  if errors_Is e ErrNoRows then Join (Sentinel ErrNotFound) e
  else if not_nil (errors_AsDriver drv_safe_to_retry e) then Join (Sentinel ErrRetryable) e
  else if not_nil (errors_AsDriver drv_net e) then Join (Sentinel ErrDatabaseUnavailable) e
  else match errors_AsDriver (fun d => not_nil (drv_code d)) e with
       | None => e
       | Some d =>
           let code := default EmptyString (drv_code d) in
           if code =s "23505" then Join (Sentinel ErrConflict) e
           else if code =s "23503" then Join (Sentinel ErrReferenceViolation) e
           else if (code =s "23514") || (code =s "22001") || (code =s "22003") || (code =s "22007") || (code =s "22P02")
                then Join (Sentinel ErrInvalidData) e
           else if (code =s "40001") || (code =s "40P01") then Join (Sentinel ErrRetryable) e
           else if has_prefix_08 code then Join (Sentinel ErrDatabaseUnavailable) e
           else e
       end.

Section Tables.
Context `{D : DecimalLib}.

(** ** Tables *)
(** The unique key of the current bars; a key's revisions in insertion order. *)
Abbreviation BarKey := (ID * ID * string * Z)%type.
Definition bar_key (b : Bar) : BarKey := (bar_InstrumentID b, bar_ProviderInstrumentID b, bar_Interval b, bar_OpenTime b).

Record DB := mkDB {
  db_assets : gmap ID Asset; db_instruments : gmap ID Instrument; db_providers : gmap ID Provider;
  db_mappings : gmap ID ProviderInstrument; db_subscriptions : gmap ID CollectionSubscription;
  db_runs : gmap ID IngestionRun; db_tasks : gmap ID IngestionTask; db_checkpoints : gmap ID IngestionCheckpoint;
  db_bars : gmap BarKey (list Bar); db_issues : gmap ID DataQualityIssue; db_quotes : gmap (ID * ID) Quote }.

Definition set_providers (f : gmap ID Provider -> gmap ID Provider) (d : DB) : DB :=
  mkDB (db_assets d) (db_instruments d) (f (db_providers d)) (db_mappings d) (db_subscriptions d)
       (db_runs d) (db_tasks d) (db_checkpoints d) (db_bars d) (db_issues d) (db_quotes d).
Definition set_mappings (f : gmap ID ProviderInstrument -> gmap ID ProviderInstrument) (d : DB) : DB :=
  mkDB (db_assets d) (db_instruments d) (db_providers d) (f (db_mappings d)) (db_subscriptions d)
       (db_runs d) (db_tasks d) (db_checkpoints d) (db_bars d) (db_issues d) (db_quotes d).
Definition set_subscriptions (f : gmap ID CollectionSubscription -> gmap ID CollectionSubscription) (d : DB) : DB :=
  mkDB (db_assets d) (db_instruments d) (db_providers d) (db_mappings d) (f (db_subscriptions d))
       (db_runs d) (db_tasks d) (db_checkpoints d) (db_bars d) (db_issues d) (db_quotes d).
Definition set_runs (f : gmap ID IngestionRun -> gmap ID IngestionRun) (d : DB) : DB :=
  mkDB (db_assets d) (db_instruments d) (db_providers d) (db_mappings d) (db_subscriptions d)
       (f (db_runs d)) (db_tasks d) (db_checkpoints d) (db_bars d) (db_issues d) (db_quotes d).
Definition set_tasks (f : gmap ID IngestionTask -> gmap ID IngestionTask) (d : DB) : DB :=
  mkDB (db_assets d) (db_instruments d) (db_providers d) (db_mappings d) (db_subscriptions d)
       (db_runs d) (f (db_tasks d)) (db_checkpoints d) (db_bars d) (db_issues d) (db_quotes d).
Definition set_checkpoints (f : gmap ID IngestionCheckpoint -> gmap ID IngestionCheckpoint) (d : DB) : DB :=
  mkDB (db_assets d) (db_instruments d) (db_providers d) (db_mappings d) (db_subscriptions d)
       (db_runs d) (db_tasks d) (f (db_checkpoints d)) (db_bars d) (db_issues d) (db_quotes d).
Definition set_bars (f : gmap BarKey (list Bar) -> gmap BarKey (list Bar)) (d : DB) : DB :=
  mkDB (db_assets d) (db_instruments d) (db_providers d) (db_mappings d) (db_subscriptions d)
       (db_runs d) (db_tasks d) (db_checkpoints d) (f (db_bars d)) (db_issues d) (db_quotes d).
Definition set_issues (f : gmap ID DataQualityIssue -> gmap ID DataQualityIssue) (d : DB) : DB :=
  mkDB (db_assets d) (db_instruments d) (db_providers d) (db_mappings d) (db_subscriptions d)
       (db_runs d) (db_tasks d) (db_checkpoints d) (db_bars d) (f (db_issues d)) (db_quotes d).
Definition set_quotes (f : gmap (ID * ID) Quote -> gmap (ID * ID) Quote) (d : DB) : DB :=
  mkDB (db_assets d) (db_instruments d) (db_providers d) (db_mappings d) (db_subscriptions d)
       (db_runs d) (db_tasks d) (db_checkpoints d) (db_bars d) (db_issues d) (f (db_quotes d)).

(** ** The connection *)
(** What the driver reports of a statement: nothing, or a failure, whose effect
    the server may nevertheless have applied. *)
Inductive Fault := NoFault | Failure (d : DriverError) (applied : bool).

Record PG := mkPG { pg_db : DB; pg_faults : list Fault }.

Definition next_fault (w : PG) : Fault * PG :=
  match pg_faults w with
  | [] => (NoFault, w)
  | f :: rest => (f, mkPG (pg_db w) rest)
  end.

(** A statement: its result and the tables after it. *)
Abbreviation sql A := (DB -> result (A * DB)) (only parsing).

Definition run_sql {A} (s : DB -> result (A * DB)) (w : PG) : result A * PG :=
  match s (pg_db w) with
  | Ok (a, d) => (Ok a, mkPG d (pg_faults w))
  | Err e => (Err e, w)
  | Diverge => (Diverge, w)
  end.

(** A statement of an open transaction. *)
Definition exec_tx {A} (s : DB -> result (A * DB)) : M PG A := fun w =>
  let '(f, w) := next_fault w in
  match f with
  | Failure d _ => (Err (Driver d), w)
  | NoFault => run_sql s w
  end.

(** A statement on its own: it may be applied although the driver fails. *)
Definition exec_auto {A} (s : DB -> result (A * DB)) : M PG A := fun w =>
  let '(f, w) := next_fault w in
  match f with
  | Failure d applied => (Err (Driver d), if applied then snd (run_sql s w) else w)
  | NoFault => run_sql s w
  end.

(** A read, inside or outside a transaction. *)
Definition query {A} (q : DB -> result A) : M PG A := exec_tx (fun d => a <- q d ;; Ok (a, d)).

(** The end of a transaction's function: after [tx.Commit], or by a return that
    leaves the deferred [tx.Rollback] to end it. *)
Inductive TxEnd (A : Type) := Committed (a : A) | RolledBack (a : A).
Arguments Committed {A} a.
Arguments RolledBack {A} a.

Definition rollback (w0 w : PG) : PG := mkPG (pg_db w0) (pg_faults w).

Definition mwrap_db {A} (text : string) (c : M PG A) : M PG A := fun w =>
  match c w with (Err e, w') => (Err (Wrap text (MapError e)), w') | r => r end.

(** [return ..., MapError(err)], without a text of its own. *)
Definition mmap_db {A} (text : string) (c : M PG A) : M PG A := fun w =>
  match c w with (Err e, w') => (Err (MapError e), w') | r => r end.

Definition transaction {A} (begin_text commit_text : string) (body : M PG (TxEnd A)) : M PG A := fun w =>
  let '(f, w0) := next_fault w in
  match f with
  | Failure d _ => (Err (Wrap begin_text (MapError (Driver d))), w0)
  | NoFault =>
      match body w0 with
      | (Ok (Committed a), w1) =>
          let '(f, w2) := next_fault w1 in
          match f with
          | Failure d applied =>
              (Err (Wrap commit_text (MapError (Driver d))), if applied then w2 else rollback w0 w2)
          | NoFault => (Ok a, w2)
          end
      | (Ok (RolledBack a), w1) => (Ok a, rollback w0 w1)
      | (Err e, w1) => (Err e, rollback w0 w1)
      | (Diverge, w1) => (Diverge, rollback w0 w1)
      end
  end.
End Tables.
#[global] Arguments Committed {A} a.
#[global] Arguments RolledBack {A} a.
