(* ===== verification/Statements.v ===== *)
(** * The statements of the ingestion repository

    The SQL of repository/postgres/ingestion.go, manual_tasks.go,
    market_data.go and quality.go as functions on the tables: the row a value is
    stored as, the constraints in the order PostgreSQL checks them (column
    types, CHECK, unique indexes, foreign keys), and the rows affected. *)
From S2P Require Import Prelude Errors GoStrings GoTime GoJson External Domain MarketData CatchUp Incremental Ports Ingestion Database.
Open Scope go_scope.

(** ** repository/postgres/value.go and catalog.go: arguments *)
Definition TimeToDatabase (value : Time) : Time := UTC value.
Lemma TimeToDatabase_id t : TimeToDatabase t = t.
Proof. unfold TimeToDatabase, UTC. by destruct (IsZero t). Qed.
Definition jsonValue (value : string) : string := if slen value =? 0 then "{}"%string else value.
Definition copyJSON (value : string) : string := if slen value =? 0 then "{}"%string else value.
Definition nullableString (value : string) : option string := if value =s EmptyString then None else Some value.

Definition task_active (status : string) : bool := contains_string ["pending"; "running"; "retry_wait"]%string status.
Definition rows {K A} `{Countable K} (m : gmap K A) : list A := map snd (map_to_list m).

Section Statements.
Context `{D : DecimalLib} `{P : !PgLib}.

Definition opt_time (o : option Time) : option Time := pg_time <$> (TimeToDatabase <$> o).

(** ** Runs *)
(** The row of [runArguments]: the counters of a new run are constants. *)
Definition run_row (run : IngestionRun) : result IngestionRun :=
  key <- pg_varchar 192 (run_RunKey run) ;;
  runType <- pg_varchar 24 (run_RunType run) ;;
  triggerType <- pg_varchar 16 (run_TriggerType run) ;;
  status <- pg_varchar 16 (run_Status run) ;;
  requestedBy <- opt_map_result (pg_varchar 128) (run_RequestedBy run) ;;
  context <- pg_jsonb (jsonValue (run_Context run)) ;;
  errorSummary <- pg_jsonb (jsonValue (run_ErrorSummary run)) ;;
  Ok {| run_ID := run_ID run; run_RunKey := key; run_RunType := runType; run_TriggerType := triggerType; run_Status := status;
        run_ScheduledAt := opt_time (run_ScheduledAt run); run_StartedAt := opt_time (run_StartedAt run);
        run_FinishedAt := opt_time (run_FinishedAt run); run_RequestedBy := requestedBy; run_TaskCount := 1;
        run_SuccessCount := 0; run_FailedCount := 0; run_Context := context; run_ErrorSummary := errorSummary;
        run_CreatedAt := pg_time (TimeToDatabase (run_CreatedAt run)) |}.

Definition run_checks (run : IngestionRun) : result unit :=
  failif negb (contains_string ["incremental"; "backfill"; "repair"; "revision"]%string (run_RunType run)),
         check_violation "ck_ingestion_runs_type" ;;
  failif negb (contains_string ["scheduler"; "manual"; "recovery"]%string (run_TriggerType run)),
         check_violation "ck_ingestion_runs_trigger" ;;
  failif negb (contains_string ["pending"; "running"; "partial"; "success"; "failed"; "canceled"]%string (run_Status run)),
         check_violation "ck_ingestion_runs_status" ;;
  failif (run_TaskCount run <? 0) || (run_SuccessCount run <? 0) || (run_FailedCount run <? 0),
         check_violation "ck_ingestion_runs_counts" ;;
  Ok tt.

Definition has_run_key (d : DB) (key : string) : bool := existsb (fun r => run_RunKey r =s key) (rows (db_runs d)).

(** [INSERT INTO ingestion_runs ...], and with [ON CONFLICT (run_key) DO
    NOTHING]; whether a row was inserted. *)
Definition insert_run (on_conflict_do_nothing : bool) (run : IngestionRun) (d : DB) : result (bool * DB) :=
  row <- run_row run ;;
  run_checks row ;;;
  if on_conflict_do_nothing && has_run_key d (run_RunKey row) then Ok (false, d)
  else
    failif not_nil (db_runs d !! run_ID row), unique_violation "ingestion_runs_pkey" ;;
    failif has_run_key d (run_RunKey row), unique_violation "uq_ingestion_runs_key" ;;
    Ok (true, set_runs <[run_ID row := row]> d).

(** ** Tasks *)
Definition task_row (task : IngestionTask) : result IngestionTask :=
  status <- pg_varchar 16 (task_Status task) ;;
  attempts <- pg_int4 (task_AttemptCount task) ;;
  maximum <- pg_int4 (task_MaxAttempts task) ;;
  lockedBy <- opt_map_result (pg_varchar 128) (task_LockedBy task) ;;
  requestID <- opt_map_result (pg_varchar 128) (task_ProviderRequestID task) ;;
  errorCode <- opt_map_result (pg_varchar 64) (task_ErrorCode task) ;;
  errorMessage <- opt_map_result pg_text (task_ErrorMessage task) ;;
  details <- pg_jsonb (jsonValue (task_ErrorDetails task)) ;;
  canceledBy <- opt_map_result (pg_varchar 128) (task_CanceledBy task) ;;
  reason <- opt_map_result pg_text (task_CancelReason task) ;;
  Ok {| task_ID := task_ID task; task_RunID := task_RunID task; task_SubscriptionID := task_SubscriptionID task;
        task_RetryOfTaskID := task_RetryOfTaskID task; task_RangeStart := pg_time (TimeToDatabase (task_RangeStart task));
        task_RangeEnd := pg_time (TimeToDatabase (task_RangeEnd task)); task_Status := status; task_AttemptCount := attempts;
        task_MaxAttempts := maximum; task_NextAttemptAt := opt_time (task_NextAttemptAt task); task_LockedBy := lockedBy;
        task_LockedUntil := opt_time (task_LockedUntil task); task_StartedAt := opt_time (task_StartedAt task);
        task_FinishedAt := opt_time (task_FinishedAt task); task_ProviderRequestID := requestID; task_ErrorCode := errorCode;
        task_ErrorMessage := errorMessage; task_ErrorDetails := details; task_CanceledBy := canceledBy;
        task_CancelReason := reason; task_CreatedAt := pg_time (TimeToDatabase (task_CreatedAt task));
        task_UpdatedAt := pg_time (TimeToDatabase (task_UpdatedAt task)) |}.

Definition task_checks (t : IngestionTask) : result unit :=
  failif negb (task_RangeStart t <? task_RangeEnd t), check_violation "ck_ingestion_tasks_range" ;;
  failif (task_AttemptCount t <? 0) || (task_MaxAttempts t <=? 0), check_violation "ck_ingestion_tasks_attempts" ;;
  failif negb (contains_string ["pending"; "running"; "retry_wait"; "success"; "failed"; "canceled"]%string (task_Status t)),
         check_violation "ck_ingestion_tasks_status" ;;
  Ok tt.

Definition same_task_range (t u : IngestionTask) : bool :=
  (task_RunID t =id task_RunID u) && (task_SubscriptionID t =id task_SubscriptionID u)
  && (task_RangeStart t =? task_RangeStart u) && (task_RangeEnd t =? task_RangeEnd u).
(** The partial unique index on the active successors of a task. *)
Definition same_active_retry (t u : IngestionTask) : bool :=
  task_active (task_Status t) && task_active (task_Status u)
  && opt_test (fun r => opt_test (fun r' => r =id r') (task_RetryOfTaskID u)) (task_RetryOfTaskID t).

(** [insertTaskSQL] *)
Definition insert_task (task : IngestionTask) (d : DB) : result (unit * DB) :=
  row <- task_row task ;;
  task_checks row ;;;
  failif not_nil (db_tasks d !! task_ID row), unique_violation "ingestion_tasks_pkey" ;;
  failif existsb (same_task_range row) (rows (db_tasks d)), unique_violation "uq_ingestion_task_range" ;;
  failif existsb (same_active_retry row) (rows (db_tasks d)), unique_violation "uq_active_manual_retry" ;;
  failif is_nil (db_runs d !! task_RunID row), foreign_key_violation "ingestion_tasks_run_id_fkey" ;;
  failif is_nil (db_subscriptions d !! task_SubscriptionID row), foreign_key_violation "ingestion_tasks_subscription_id_fkey" ;;
  failif opt_test (fun r => is_nil (db_tasks d !! r)) (task_RetryOfTaskID row),
         foreign_key_violation "ingestion_tasks_retry_of_task_id_fkey" ;;
  Ok (tt, set_tasks <[task_ID row := row]> d).

(** [UPDATE ingestion_tasks SET ... WHERE id = $ AND ...]: the rows affected. *)
Definition update_task (id : ID) (where_ : IngestionTask -> bool) (set_ : IngestionTask -> result IngestionTask) (d : DB) :
    result (Z * DB) :=
  match db_tasks d !! id with
  | Some t =>
      if where_ t then row <- set_ t ;; task_checks row ;;; Ok (1, set_tasks <[id := row]> d) else Ok (0, d)
  | None => Ok (0, d)
  end.

(** The columns a transition sets; the others keep their value. *)
Definition with_transition (t : IngestionTask) (status : string) (attempts : Z) (next : option Time) (lockedBy : option string)
    (lockedUntil started finished : option Time) (updated : Time) : IngestionTask :=
  {| task_ID := task_ID t; task_RunID := task_RunID t; task_SubscriptionID := task_SubscriptionID t;
     task_RetryOfTaskID := task_RetryOfTaskID t; task_RangeStart := task_RangeStart t; task_RangeEnd := task_RangeEnd t;
     task_Status := status; task_AttemptCount := attempts; task_MaxAttempts := task_MaxAttempts t; task_NextAttemptAt := next;
     task_LockedBy := lockedBy; task_LockedUntil := lockedUntil; task_StartedAt := started; task_FinishedAt := finished;
     task_ProviderRequestID := task_ProviderRequestID t; task_ErrorCode := task_ErrorCode t;
     task_ErrorMessage := task_ErrorMessage t; task_ErrorDetails := task_ErrorDetails t; task_CanceledBy := task_CanceledBy t;
     task_CancelReason := task_CancelReason t; task_CreatedAt := task_CreatedAt t; task_UpdatedAt := updated |}.
Definition with_error (t : IngestionTask) (code message : option string) (details : string) : IngestionTask :=
  {| task_ID := task_ID t; task_RunID := task_RunID t; task_SubscriptionID := task_SubscriptionID t;
     task_RetryOfTaskID := task_RetryOfTaskID t; task_RangeStart := task_RangeStart t; task_RangeEnd := task_RangeEnd t;
     task_Status := task_Status t; task_AttemptCount := task_AttemptCount t; task_MaxAttempts := task_MaxAttempts t;
     task_NextAttemptAt := task_NextAttemptAt t; task_LockedBy := task_LockedBy t; task_LockedUntil := task_LockedUntil t;
     task_StartedAt := task_StartedAt t; task_FinishedAt := task_FinishedAt t;
     task_ProviderRequestID := task_ProviderRequestID t; task_ErrorCode := code; task_ErrorMessage := message;
     task_ErrorDetails := details; task_CanceledBy := task_CanceledBy t; task_CancelReason := task_CancelReason t;
     task_CreatedAt := task_CreatedAt t; task_UpdatedAt := task_UpdatedAt t |}.
Definition with_cancellation (t : IngestionTask) (by_ : option string) (reason : option string) : IngestionTask :=
  {| task_ID := task_ID t; task_RunID := task_RunID t; task_SubscriptionID := task_SubscriptionID t;
     task_RetryOfTaskID := task_RetryOfTaskID t; task_RangeStart := task_RangeStart t; task_RangeEnd := task_RangeEnd t;
     task_Status := task_Status t; task_AttemptCount := task_AttemptCount t; task_MaxAttempts := task_MaxAttempts t;
     task_NextAttemptAt := task_NextAttemptAt t; task_LockedBy := task_LockedBy t; task_LockedUntil := task_LockedUntil t;
     task_StartedAt := task_StartedAt t; task_FinishedAt := task_FinishedAt t;
     task_ProviderRequestID := task_ProviderRequestID t; task_ErrorCode := task_ErrorCode t;
     task_ErrorMessage := task_ErrorMessage t; task_ErrorDetails := task_ErrorDetails t; task_CanceledBy := by_;
     task_CancelReason := reason; task_CreatedAt := task_CreatedAt t; task_UpdatedAt := task_UpdatedAt t |}.

(** *** The claim *)
Definition claimable (now : Time) (t : IngestionTask) : bool :=
  (task_Status t =s "pending") || ((task_Status t =s "retry_wait") && opt_test (fun n => n <=? now) (task_NextAttemptAt t)).

(** [ORDER BY created_at ASC ... LIMIT 1] over the rows in the order [scan]
    visits them, without those [locked] by other transactions (SKIP LOCKED). *)
Fixpoint oldest (best : option IngestionTask) (candidates : list IngestionTask) : option IngestionTask :=
  match candidates with
  | [] => best
  | t :: rest =>
      oldest (match best with Some b => if task_CreatedAt t <? task_CreatedAt b then Some t else best | None => Some t end) rest
  end.
Definition claim_candidates (scan : list ID) (locked : gset ID) (now : Time) (d : DB) : list IngestionTask :=
  List.filter (claimable now)
    (omap (fun id => if bool_decide (id ∈ locked) then None else db_tasks d !! id) scan).

(** The UPDATE ... RETURNING of the candidate; no row is [ErrNoRows]. *)
Definition claim_next (scan : list ID) (locked : gset ID) (workerID : string) (now leaseUntil : Time) (d : DB) :
    result (IngestionTask * DB) :=
  match oldest None (claim_candidates scan locked (pg_time now) d) with
  | None => Err no_rows
  | Some t =>
      by_ <- pg_varchar 128 workerID ;;
      attempts <- int4_add (task_AttemptCount t) 1 ;;
      let row := with_transition t "running" attempts None (Some by_) (Some (pg_time leaseUntil)) (Some (pg_time now))
                   (task_FinishedAt t) (pg_time now) in
      Ok (row, set_tasks <[task_ID t := row]> d)
  end.

(** *** The recovery of expired leases *)
Definition expired (locked : gset ID) (now : Time) (t : IngestionTask) : bool :=
  (task_Status t =s "running") && opt_test (fun u => u <? now) (task_LockedUntil t) && negb (bool_decide (task_ID t ∈ locked)).

Definition recover_task (now : Time) (t : IngestionTask) : IngestionTask :=
  let exhausted := task_MaxAttempts t <=? task_AttemptCount t in
  with_error
    (with_transition t (if exhausted then "failed" else "pending") (task_AttemptCount t) None None None (task_StartedAt t)
       (if exhausted then Some now else None) now)
    (Some "lease_expired"%string) (Some "worker lease expired before completion"%string) "{}".

(** [INSERT ... ON CONFLICT (subscription_id) DO UPDATE] of a failed attempt,
    or of [failures] of them. *)
Definition fail_checkpoint (subscriptionID : ID) (failures : Z) (now : Time) (d : DB) : result DB :=
  match db_checkpoints d !! subscriptionID with
  | None =>
      failif is_nil (db_subscriptions d !! subscriptionID), foreign_key_violation "ingestion_checkpoints_subscription_id_fkey" ;;
      Ok (set_checkpoints <[subscriptionID := mkIngestionCheckpoint subscriptionID None None (Some now) None failures now]> d)
  | Some c =>
      count <- int4_add (ckpt_ConsecutiveFailures c) failures ;;
      Ok (set_checkpoints <[subscriptionID :=
            mkIngestionCheckpoint subscriptionID (ckpt_LastSuccessOpenTime c) (ckpt_LastClosedOpenTime c) (Some now)
              (ckpt_LastSuccessAt c) count now]> d)
  end.

Definition failure_counts (tasks : list IngestionTask) : gmap ID Z :=
  fold_right (fun t m => <[task_SubscriptionID t := default 0 (m !! task_SubscriptionID t) + 1]> m) ∅ tasks.
Fixpoint fail_checkpoints (counts : list (ID * Z)) (now : Time) (d : DB) : result DB :=
  match counts with
  | [] => Ok d
  | (subscriptionID, failures) :: rest => d <- fail_checkpoint subscriptionID failures now d ;; fail_checkpoints rest now d
  end.

Definition recover_expired (locked : gset ID) (now : Time) (d : DB) : result (Z * DB) :=
  let now := pg_time now in
  let tasks := List.filter (expired locked now) (rows (db_tasks d)) in
  let d' := set_tasks (fun m => (fun t => if expired locked now t then recover_task now t else t) <$> m) d in
  d' <- fail_checkpoints (map_to_list (failure_counts tasks)) now d' ;;
  Ok (llen tasks, d').

(** ** Run summaries *)
Definition run_tasks (runID : ID) (d : DB) : list IngestionTask :=
  List.filter (fun t => task_RunID t =id runID) (rows (db_tasks d)).
Definition count_status (status : string) (tasks : list IngestionTask) : Z :=
  llen (List.filter (fun t => task_Status t =s status) tasks).
Definition opt_best (better : Z -> Z -> Z) (a b : option Time) : option Time :=
  match a, b with Some x, Some y => Some (better x y) | Some x, None => Some x | None, _ => b end.
Definition min_started (tasks : list IngestionTask) : option Time :=
  fold_right (fun t acc => opt_best Z.min (task_StartedAt t) acc) None tasks.
Definition max_finished (tasks : list IngestionTask) : option Time :=
  fold_right (fun t acc => opt_best Z.max (task_FinishedAt t) acc) None tasks.

Definition run_snapshot (runID : ID) (d : DB) : result RunTaskSnapshot :=
  match db_runs d !! runID with
  | None => Err no_rows
  | Some _ =>
      let tasks := run_tasks runID d in
      Ok (mkRunTaskSnapshot runID (count_status "pending" tasks) (count_status "running" tasks) (count_status "retry_wait" tasks)
            (count_status "success" tasks) (count_status "failed" tasks) (count_status "canceled" tasks)
            (min_started tasks) (max_finished tasks))
  end.

(** The [EXISTS (... GROUP BY ... HAVING ...)] guard of the summary. *)
Definition summary_current (s : RunSummary) (d : DB) : bool :=
  let tasks := run_tasks (sum_RunID s) d in
  (0 <? llen tasks) && (llen tasks =? sum_TaskCount s) && (count_status "pending" tasks =? sum_PendingCount s)
  && (count_status "running" tasks =? sum_RunningCount s) && (count_status "retry_wait" tasks =? sum_RetryWaitCount s)
  && (count_status "success" tasks =? sum_SuccessCount s) && (count_status "failed" tasks =? sum_FailedCount s)
  && (count_status "canceled" tasks =? sum_CanceledCount s).

Definition save_summary (s : RunSummary) (d : DB) : result (Z * DB) :=
  match db_runs d !! sum_RunID s with
  | Some r =>
      if summary_current s d then
        status <- pg_varchar 16 (sum_Status s) ;;
        tasks <- pg_int4 (sum_TaskCount s) ;;
        success <- pg_int4 (sum_SuccessCount s) ;;
        failed <- pg_int4 (sum_FailedCount s) ;;
        let row := {| run_ID := run_ID r; run_RunKey := run_RunKey r; run_RunType := run_RunType r;
          run_TriggerType := run_TriggerType r; run_Status := status; run_ScheduledAt := run_ScheduledAt r;
          run_StartedAt := match run_StartedAt r with Some t => Some t | None => opt_time (sum_EarliestStartedAt s) end;
          run_FinishedAt := opt_time (sum_LatestFinishedAt s); run_RequestedBy := run_RequestedBy r; run_TaskCount := tasks;
          run_SuccessCount := success; run_FailedCount := failed; run_Context := run_Context r;
          run_ErrorSummary := run_ErrorSummary r; run_CreatedAt := run_CreatedAt r |} in
        run_checks row ;;;
        Ok (1, set_runs <[sum_RunID s := row]> d)
      else Ok (0, d)
  | None => Ok (0, d)
  end.

(** ** Checkpoints *)
Definition checkpoint_checks (failures : Z) (subscriptionID : ID) (d : DB) : result unit :=
  failif failures <? 0, check_violation "ck_ingestion_checkpoints_failures" ;;
  failif is_nil (db_subscriptions d !! subscriptionID), foreign_key_violation "ingestion_checkpoints_subscription_id_fkey" ;;
  Ok tt.

(** [UpsertCheckpoint]: every column is replaced. *)
Definition replace_checkpoint (c : IngestionCheckpoint) (d : DB) : result (unit * DB) :=
  failures <- pg_int4 (ckpt_ConsecutiveFailures c) ;;
  checkpoint_checks failures (ckpt_SubscriptionID c) d ;;;
  Ok (tt, set_checkpoints <[ckpt_SubscriptionID c :=
        mkIngestionCheckpoint (ckpt_SubscriptionID c) (opt_time (ckpt_LastSuccessOpenTime c)) (opt_time (ckpt_LastClosedOpenTime c))
          (opt_time (ckpt_LastAttemptAt c)) (opt_time (ckpt_LastSuccessAt c)) failures (pg_time (TimeToDatabase (ckpt_UpdatedAt c)))]> d).

(** The monotone columns of a successful checkpoint: NULL keeps the stored
    value, otherwise the greatest of the two. *)
Definition greatest (stored excluded : option Time) : option Time :=
  match excluded, stored with
  | None, _ => stored
  | Some e, None => Some e
  | Some e, Some s => Some (Z.max s e)
  end.
Definition succeed_checkpoint (c : IngestionCheckpoint) (d : DB) : result (unit * DB) :=
  checkpoint_checks 0 (ckpt_SubscriptionID c) d ;;;
  let success := opt_time (ckpt_LastSuccessOpenTime c) in
  let closed := opt_time (ckpt_LastClosedOpenTime c) in
  let stored := db_checkpoints d !! ckpt_SubscriptionID c in
  let column (f : IngestionCheckpoint -> option Time) := c' ← stored; f c' in
  Ok (tt, set_checkpoints <[ckpt_SubscriptionID c :=
        mkIngestionCheckpoint (ckpt_SubscriptionID c) (greatest (column ckpt_LastSuccessOpenTime) success)
          (greatest (column ckpt_LastClosedOpenTime) closed) (opt_time (ckpt_LastAttemptAt c)) (opt_time (ckpt_LastSuccessAt c)) 0
          (pg_time (TimeToDatabase (ckpt_UpdatedAt c)))]> d).

(** ** Market bars *)
(** The row of [marketBarArguments]; the empty hash is stored as NULL and read
    back as the empty string. *)
Definition bar_row (b : Bar) : result Bar :=
  interval <- pg_varchar 8 (bar_Interval b) ;;
  revision <- pg_int4 (bar_Revision b) ;;
  open <- pg_numeric (bar_OpenPrice b) ;;
  high <- pg_numeric (bar_HighPrice b) ;;
  low <- pg_numeric (bar_LowPrice b) ;;
  close <- pg_numeric (bar_ClosePrice b) ;;
  base <- opt_map_result pg_numeric (bar_BaseVolume b) ;;
  quote <- opt_map_result pg_numeric (bar_QuoteVolume b) ;;
  quality <- pg_varchar 16 (bar_QualityStatus b) ;;
  rawHash <- opt_map_result (pg_varchar 64) (nullableString (bar_RawHash b)) ;;
  metadata <- pg_jsonb (jsonValue (bar_Metadata b)) ;;
  Ok {| bar_InstrumentID := bar_InstrumentID b; bar_ProviderInstrumentID := bar_ProviderInstrumentID b; bar_Interval := interval;
        bar_OpenTime := pg_time (TimeToDatabase (bar_OpenTime b)); bar_Revision := revision;
        bar_CloseTime := pg_time (TimeToDatabase (bar_CloseTime b)); bar_OpenPrice := open; bar_HighPrice := high;
        bar_LowPrice := low; bar_ClosePrice := close; bar_BaseVolume := base; bar_QuoteVolume := quote;
        bar_TradeCount := bar_TradeCount b; bar_IsClosed := bar_IsClosed b; bar_IsCurrent := bar_IsCurrent b;
        bar_QualityStatus := quality; bar_ProviderUpdatedAt := opt_time (bar_ProviderUpdatedAt b);
        bar_CollectedAt := pg_time (TimeToDatabase (bar_CollectedAt b)); bar_RawHash := default EmptyString rawHash;
        bar_Metadata := metadata |}.

Definition bar_checks (b : Bar) : result unit :=
  failif negb (contains_string [BarInterval1Hour; BarInterval1Day] (bar_Interval b)), check_violation "ck_market_bars_interval" ;;
  failif bar_Revision b <=? 0, check_violation "ck_market_bars_revision" ;;
  failif negb (bar_OpenTime b <? bar_CloseTime b), check_violation "ck_market_bars_time" ;;
  failif dec_LessThan (bar_OpenPrice b) (bar_LowPrice b) || dec_LessThan (bar_ClosePrice b) (bar_LowPrice b)
         || dec_LessThan (bar_HighPrice b) (bar_OpenPrice b) || dec_LessThan (bar_HighPrice b) (bar_ClosePrice b)
         || dec_LessThan (bar_HighPrice b) (bar_LowPrice b), check_violation "ck_market_bars_ohlc" ;;
  failif opt_test dec_IsNegative (bar_BaseVolume b) || opt_test dec_IsNegative (bar_QuoteVolume b),
         check_violation "ck_market_bars_volume" ;;
  failif negb (contains_string ["unchecked"; "valid"; "warning"; "invalid"]%string (bar_QualityStatus b)),
         check_violation "ck_market_bars_quality" ;;
  Ok tt.

(** The rows of the key of a bar, as the WHERE clauses compare it. *)
Definition series_key (b : Bar) : ID * ID * string * Z :=
  (bar_InstrumentID b, bar_ProviderInstrumentID b, bar_Interval b, pg_time (TimeToDatabase (bar_OpenTime b))).
Definition series (b : Bar) (d : DB) : list Bar := default [] (db_bars d !! series_key b).

(** [scanMarketBar] of a row: the parsers of its enumerations are also in
    [NewStoredBar]'s validation. *)
Definition scanMarketBar (row : Bar) : result Bar :=
  interval <- ParseBarInterval (bar_Interval row) ;;
  openTime <- NewUTCInstant (bar_OpenTime row) ;;
  closeTime <- NewUTCInstant (bar_CloseTime row) ;;
  collectedAt <- NewUTCInstant (bar_CollectedAt row) ;;
  updatedAt <- opt_map_result NewUTCInstant (bar_ProviderUpdatedAt row) ;;
  quality <- ParseQualityStatus (bar_QualityStatus row) ;;
  NewStoredBar (bar_with_storage row (bar_Revision row) (bar_IsCurrent row) (copyJSON (bar_Metadata row))).

Definition loadCurrentMarketBar (b : Bar) (d : DB) : result Bar :=
  match List.find bar_IsCurrent (series b d) with
  | None => Err no_rows
  | Some row => scanMarketBar row
  end.

(** [UPDATE market_bars SET is_current = false WHERE ... AND revision = $5 AND
    is_current = true]: the rows affected. *)
Definition close_current (b : Bar) (revision : Z) (d : DB) : result (Z * DB) :=
  let current r := (bar_Revision r =? revision) && bar_IsCurrent r in
  let bars := series b d in
  Ok (llen (List.filter current bars),
      set_bars <[series_key b := map (fun r => if current r then bar_with_storage r (bar_Revision r) false (bar_Metadata r) else r) bars]> d).

(** [insertMarketBarSQL] *)
Definition insert_bar_row (b : Bar) (d : DB) : result (unit * DB) :=
  row <- bar_row b ;;
  bar_checks row ;;;
  let bars := default [] (db_bars d !! bar_key row) in
  failif existsb (fun r => bar_Revision r =? bar_Revision row) bars, unique_violation "market_bars_pkey" ;;
  failif bar_IsCurrent row && existsb bar_IsCurrent bars, unique_violation "uq_market_bars_current" ;;
  failif is_nil (db_instruments d !! bar_InstrumentID row), foreign_key_violation "market_bars_instrument_id_fkey" ;;
  failif is_nil (db_mappings d !! bar_ProviderInstrumentID row), foreign_key_violation "market_bars_provider_instrument_id_fkey" ;;
  Ok (tt, set_bars <[bar_key row := bars ++ [row]]> d).

(** ** Quality issues *)
Definition issue_row (i : DataQualityIssue) : result DataQualityIssue :=
  interval <- opt_map_result (pg_varchar 8) (issue_Interval i) ;;
  rule <- pg_varchar 64 (issue_RuleCode i) ;;
  severity <- pg_varchar 16 (issue_Severity i) ;;
  summary <- pg_varchar 512 (issue_Summary i) ;;
  details <- pg_jsonb (jsonValue (issue_Details i)) ;;
  Ok {| issue_ID := issue_ID i; issue_InstrumentID := issue_InstrumentID i; issue_ProviderInstrumentID := issue_ProviderInstrumentID i;
        issue_Interval := interval; issue_OpenTime := opt_time (issue_OpenTime i); issue_RuleCode := rule;
        issue_Severity := severity; issue_Status := "open"; issue_Summary := summary; issue_Details := details;
        issue_DetectedAt := pg_time (TimeToDatabase (issue_DetectedAt i)); issue_ResolvedAt := None; issue_ResolutionNote := None;
        issue_CreatedAt := pg_time (TimeToDatabase (issue_CreatedAt i));
        issue_UpdatedAt := pg_time (TimeToDatabase (issue_UpdatedAt i)) |}.

Definition issue_checks (i : DataQualityIssue) : result unit :=
  failif opt_test (fun v => negb (contains_string [BarInterval1Hour; BarInterval1Day] v)) (issue_Interval i),
         check_violation "ck_quality_issues_interval" ;;
  failif negb (contains_string ["info"; "warning"; "error"; "critical"]%string (issue_Severity i)),
         check_violation "ck_quality_issues_severity" ;;
  failif negb (contains_string ["open"; "acknowledged"; "resolved"; "ignored"]%string (issue_Status i)),
         check_violation "ck_quality_issues_status" ;;
  Ok tt.

Definition issue_open (i : DataQualityIssue) : bool := contains_string ["open"; "acknowledged"]%string (issue_Status i).
(** The partial unique index, NULLS NOT DISTINCT. *)
Definition same_open_issue (i j : DataQualityIssue) : bool :=
  issue_open i && issue_open j && (issue_InstrumentID i =id issue_InstrumentID j)
  && bool_decide (issue_ProviderInstrumentID i = issue_ProviderInstrumentID j) && bool_decide (issue_Interval i = issue_Interval j)
  && bool_decide (issue_OpenTime i = issue_OpenTime j) && (issue_RuleCode i =s issue_RuleCode j).

(** [INSERT ... ON CONFLICT DO NOTHING RETURNING id] *)
Definition insert_issue (i : DataQualityIssue) (d : DB) : result (ID * DB) :=
  row <- issue_row i ;;
  issue_checks row ;;;
  if existsb (same_open_issue row) (rows (db_issues d)) then Err no_rows
  else
    failif not_nil (db_issues d !! issue_ID row), unique_violation "data_quality_issues_pkey" ;;
    failif is_nil (db_instruments d !! issue_InstrumentID row), foreign_key_violation "data_quality_issues_instrument_id_fkey" ;;
    failif opt_test (fun m => is_nil (db_mappings d !! m)) (issue_ProviderInstrumentID row),
           foreign_key_violation "data_quality_issues_provider_instrument_id_fkey" ;;
    Ok (issue_ID row, set_issues <[issue_ID row := row]> d).

Definition update_issue (id : ID) (from : list string) (to : string) (resolvedAt : option Time) (note : option string)
    (updatedAt : Time) (d : DB) : result (Z * DB) :=
  match db_issues d !! id with
  | Some i =>
      if contains_string from (issue_Status i) then
        note <- opt_map_result pg_text note ;;
        let row := {| issue_ID := issue_ID i; issue_InstrumentID := issue_InstrumentID i;
          issue_ProviderInstrumentID := issue_ProviderInstrumentID i; issue_Interval := issue_Interval i;
          issue_OpenTime := issue_OpenTime i; issue_RuleCode := issue_RuleCode i; issue_Severity := issue_Severity i;
          issue_Status := to; issue_Summary := issue_Summary i; issue_Details := issue_Details i;
          issue_DetectedAt := issue_DetectedAt i; issue_ResolvedAt := opt_time resolvedAt; issue_ResolutionNote := note;
          issue_CreatedAt := issue_CreatedAt i; issue_UpdatedAt := pg_time (TimeToDatabase updatedAt) |} in
        issue_checks row ;;; Ok (1, set_issues <[id := row]> d)
      else Ok (0, d)
  | None => Ok (0, d)
  end.

(** ** Latest quotes *)
Definition quote_row (q : Quote) : result Quote :=
  lastPrice <- pg_numeric (quote_LastPrice q) ;;
  bid <- opt_map_result pg_numeric (quote_BidPrice q) ;;
  bidSize <- opt_map_result pg_numeric (quote_BidSize q) ;;
  ask <- opt_map_result pg_numeric (quote_AskPrice q) ;;
  askSize <- opt_map_result pg_numeric (quote_AskSize q) ;;
  open <- opt_map_result pg_numeric (quote_Open24H q) ;;
  high <- opt_map_result pg_numeric (quote_High24H q) ;;
  low <- opt_map_result pg_numeric (quote_Low24H q) ;;
  base <- opt_map_result pg_numeric (quote_BaseVolume24H q) ;;
  volume <- opt_map_result pg_numeric (quote_QuoteVolume24H q) ;;
  quality <- pg_varchar 16 (quote_QualityStatus q) ;;
  metadata <- pg_jsonb (jsonValue (quote_Metadata q)) ;;
  Ok {| quote_InstrumentID := quote_InstrumentID q; quote_ProviderInstrumentID := quote_ProviderInstrumentID q;
        quote_MarketTime := pg_time (TimeToDatabase (quote_MarketTime q)); quote_LastPrice := lastPrice; quote_BidPrice := bid;
        quote_BidSize := bidSize; quote_AskPrice := ask; quote_AskSize := askSize; quote_Open24H := open; quote_High24H := high;
        quote_Low24H := low; quote_BaseVolume24H := base; quote_QuoteVolume24H := volume; quote_QualityStatus := quality;
        quote_CollectedAt := pg_time (TimeToDatabase (quote_CollectedAt q)); quote_Metadata := metadata |}.

Definition quote_checks (q : Quote) : result unit :=
  failif dec_IsNegative (quote_LastPrice q), check_violation "ck_latest_quotes_last_price" ;;
  failif opt_test dec_IsNegative (quote_BidPrice q), check_violation "ck_latest_quotes_bid_price" ;;
  failif opt_test dec_IsNegative (quote_AskPrice q), check_violation "ck_latest_quotes_ask_price" ;;
  failif negb (contains_string ["unchecked"; "valid"; "warning"; "invalid"]%string (quote_QualityStatus q)),
         check_violation "ck_latest_quotes_quality" ;;
  Ok tt.

(** [INSERT ... ON CONFLICT DO UPDATE ... WHERE EXCLUDED.market_time >
    latest_quotes.market_time RETURNING market_time] *)
Definition upsert_quote (q : Quote) (d : DB) : result (Time * DB) :=
  row <- quote_row q ;;
  quote_checks row ;;;
  let key := (quote_InstrumentID row, quote_ProviderInstrumentID row) in
  match db_quotes d !! key with
  | Some stored =>
      failif negb (quote_MarketTime stored <? quote_MarketTime row), no_rows ;;
      Ok (quote_MarketTime row, set_quotes <[key := row]> d)
  | None =>
      failif is_nil (db_instruments d !! quote_InstrumentID row), foreign_key_violation "latest_quotes_instrument_id_fkey" ;;
      failif is_nil (db_mappings d !! quote_ProviderInstrumentID row),
             foreign_key_violation "latest_quotes_provider_instrument_id_fkey" ;;
      Ok (quote_MarketTime row, set_quotes <[key := row]> d)
  end.

(** [UPDATE ingestion_runs SET context = jsonb_set(...) WHERE id = $2] *)
Definition append_operation (auditJSON : string) (runID : ID) (d : DB) : result (Z * DB) :=
  match db_runs d !! runID with
  | None => Ok (0, d)
  | Some r =>
      context <- pg_append_operations (run_Context r) auditJSON ;;
      Ok (1, set_runs <[runID := {|
        run_ID := run_ID r; run_RunKey := run_RunKey r; run_RunType := run_RunType r; run_TriggerType := run_TriggerType r;
        run_Status := run_Status r; run_ScheduledAt := run_ScheduledAt r; run_StartedAt := run_StartedAt r;
        run_FinishedAt := run_FinishedAt r; run_RequestedBy := run_RequestedBy r; run_TaskCount := run_TaskCount r;
        run_SuccessCount := run_SuccessCount r; run_FailedCount := run_FailedCount r; run_Context := context;
        run_ErrorSummary := run_ErrorSummary r; run_CreatedAt := run_CreatedAt r |}]> d)
  end.
End Statements.
