(* ===== verification/Repository.v ===== *)
(** * internal/repository/postgres: the ingestion repository

    The operations of ingestion.go, manual_tasks.go, market_data.go and
    quality.go over the statements of Statements.v, with their argument checks,
    their transactions and their fenced transitions, and the instances of the
    store interfaces the scheduler and the ingestion service use. *)
From stdpp Require Import sorting.
From S2P Require Import Prelude Errors GoStrings GoTime GoJson External Domain MarketData CatchUp Incremental Ports Ingestion Service ManualTasks Database Statements.
Open Scope go_scope.

(** ** Scans of the catalog rows *)
Definition scanAsset (row : Asset) : result Asset :=
  ParseCode (asset_Code row) ;;;
  ParseAssetType (asset_AssetType row) ;;;
  ParseAssetStatus (asset_Status row) ;;;
  NewAsset (mkAsset (asset_ID row) (asset_Code row) (asset_AssetType row) (asset_CanonicalSymbol row) (asset_Name row)
              (asset_Status row) (copyJSON (asset_Metadata row)) (asset_CreatedAt row) (asset_UpdatedAt row)).

Definition scanProvider (row : Provider) : result Provider :=
  ParseCode (prov_Code row) ;;;
  ParseProviderType (prov_ProviderType row) ;;;
  ParseProviderStatus (prov_Status row) ;;;
  NewProvider (mkProvider (prov_ID row) (prov_Code row) (prov_Name row) (prov_ProviderType row) (prov_Status row)
                 (copyJSON (prov_Metadata row)) (prov_CreatedAt row) (prov_UpdatedAt row)).

(** The capabilities column holds the parsed document here. *)
Definition scanProviderInstrument (row : ProviderInstrument) : result ProviderInstrument :=
  ParseCode (pi_Code row) ;;;
  capabilities_Validate (pi_Capabilities row) ;;;
  NewProviderInstrument {|
    pi_ID := pi_ID row; pi_Code := pi_Code row; pi_ProviderID := pi_ProviderID row; pi_InstrumentID := pi_InstrumentID row;
    pi_ExternalSymbol := pi_ExternalSymbol row; pi_ProviderMarket := pi_ProviderMarket row;
    pi_Capabilities := pi_Capabilities row; pi_Priority := pi_Priority row; pi_IsDefault := pi_IsDefault row;
    pi_Enabled := pi_Enabled row; pi_ValidFrom := pi_ValidFrom row; pi_ValidTo := pi_ValidTo row;
    pi_Metadata := copyJSON (pi_Metadata row); pi_CreatedAt := pi_CreatedAt row; pi_UpdatedAt := pi_UpdatedAt row |}.

Definition scanSubscription (row : CollectionSubscription) : result CollectionSubscription :=
  Ok (mkCollectionSubscription (sub_ID row) (sub_ProviderInstrumentID row) (sub_Interval row) (sub_Enabled row) (sub_Priority row)
        (sub_CloseDelaySeconds row) (sub_RevisionDelaySeconds row) (copyJSON (sub_Metadata row))
        (TimeToDatabase (sub_CreatedAt row)) (TimeToDatabase (sub_UpdatedAt row))).

(** [scanTask]: the row, with the empty details as an object. *)
Definition scanTask (t : IngestionTask) : IngestionTask :=
  with_error t (task_ErrorCode t) (task_ErrorMessage t) (copyJSON (task_ErrorDetails t)).

(** ** Argument checks *)
Section Checks.
Context `{D : DecimalLib} `{T : TzLib} `{U : UUIDLib}.

Definition validateBackfillRunAndTask (run : IngestionRun) (task : IngestionTask) : result unit :=
  failif id_IsZero (run_ID run) || id_IsZero (task_ID task) || negb (uuid_Version (run_ID run) =? 7)
         || negb (uuid_Version (task_ID task) =? 7) || (task_ID task =id run_ID run) || (task_RunID task <>id run_ID run)
         || id_IsZero (task_SubscriptionID task) || (run_RunKey run <>s ("backfill.manual." ++ uuid_String (run_ID run))%string)
         || (run_RunType run <>s "backfill") || (run_TriggerType run <>s "manual") || (run_Status run <>s "pending")
         || not_nil (run_ScheduledAt run) || not_nil (run_StartedAt run) || not_nil (run_FinishedAt run)
         || is_nil (run_RequestedBy run)
         || opt_test (fun r => (TrimSpace r <>s r) || (r =s EmptyString) || (128 <? RuneCountInString r)) (run_RequestedBy run)
         || negb (run_TaskCount run =? 1) || negb (run_SuccessCount run =? 0) || negb (run_FailedCount run =? 0)
         || IsZero (run_CreatedAt run) || (task_Status task <>s "pending") || negb (task_AttemptCount task =? 0)
         || (task_MaxAttempts task <? 1) || negb (After (task_RangeEnd task) (task_RangeStart task))
         || After (task_RangeEnd task) (run_CreatedAt run) || not_nil (task_RetryOfTaskID task)
         || not_nil (task_NextAttemptAt task) || not_nil (task_LockedBy task) || not_nil (task_LockedUntil task)
         || not_nil (task_StartedAt task) || not_nil (task_FinishedAt task) || not_nil (task_ProviderRequestID task)
         || not_nil (task_ErrorCode task) || not_nil (task_ErrorMessage task) || not_nil (task_CanceledBy task)
         || not_nil (task_CancelReason task) || negb (Equal (task_CreatedAt task) (run_CreatedAt run))
         || negb (Equal (task_UpdatedAt task) (run_CreatedAt run)) || negb (validJSONObject (run_Context run))
         || negb (validJSONObject (run_ErrorSummary run)) || negb (validJSONObject (task_ErrorDetails task)),
         Sentinel ErrInvalidData ;;
  Ok tt.

Definition validateRunSummary (s : RunSummary) : result unit :=
  match SummarizeRun (mkRunTaskSnapshot (sum_RunID s) (sum_PendingCount s) (sum_RunningCount s) (sum_RetryWaitCount s)
          (sum_SuccessCount s) (sum_FailedCount s) (sum_CanceledCount s) (sum_EarliestStartedAt s) (sum_LatestFinishedAt s)) with
  | Ok expected =>
      failif negb (sum_TaskCount s =? sum_TaskCount expected) || (sum_Status s <>s sum_Status expected)
             || negb (Bool.eqb (is_nil (sum_LatestFinishedAt s)) (is_nil (sum_LatestFinishedAt expected))),
             Sentinel ErrInvalidData ;;
      Ok tt
  | _ => Err (Sentinel ErrInvalidData)
  end.

Definition validateFailureCommit (c : FailureCommit) : result unit :=
  let task := claim_Task (fail_Claim c) in
  failif id_IsZero (task_ID task) || id_IsZero (task_SubscriptionID task) || (task_Status task <>s "running")
         || (task_AttemptCount task <=? 0) || (task_MaxAttempts task <=? 0) || is_nil (task_LockedBy task)
         || opt_test (fun b => b =s EmptyString) (task_LockedBy task) || is_nil (task_LockedUntil task)
         || IsZero (fail_FinishedAt c) || opt_test (fun u => negb (After u (fail_FinishedAt c))) (task_LockedUntil task),
         Sentinel ErrInvalidData ;;
  failif (fail_Status c <>s "retry_wait") && (fail_Status c <>s "failed"), Sentinel ErrInvalidData ;;
  failif negb (Bool.eqb (fail_Status c =s "retry_wait") (not_nil (fail_NextAttemptAt c)))
         || opt_test (fun n => negb (After n (fail_FinishedAt c))) (fail_NextAttemptAt c), Sentinel ErrInvalidData ;;
  failif (TrimSpace (fail_ErrorCode c) <>s fail_ErrorCode c) || (fail_ErrorCode c =s EmptyString)
         || (64 <? RuneCountInString (fail_ErrorCode c)) || (TrimSpace (fail_ErrorMessage c) <>s fail_ErrorMessage c)
         || (fail_ErrorMessage c =s EmptyString) || (512 <? RuneCountInString (fail_ErrorMessage c)), Sentinel ErrInvalidData ;;
  failif negb (validJSONObject (fail_ErrorDetails c)), Sentinel ErrInvalidData ;;
  Ok tt.

(** The key of a bar in the [seen] map of [validateSuccessCommit], a text of
    its identifiers, interval and open time: distinct fields give distinct texts. *)
Definition commit_key (b : Bar) : ID * ID * string * Z :=
  (bar_InstrumentID b, bar_ProviderInstrumentID b, bar_Interval b, bar_OpenTime b).
Fixpoint validate_commit_bars (seen : list (ID * ID * string * Z)) (bars : list Bar) : result unit :=
  match bars with
  | [] => Ok tt
  | b :: rest =>
      NewBar b ;;;
      failif existsb (fun k => bool_decide (k = commit_key b)) seen, Sentinel ErrInvalidData ;;
      validate_commit_bars (commit_key b :: seen) rest
  end.

Definition commit_issue_ok (i : DataQualityIssue) : bool :=
  negb (id_IsZero (issue_ID i) || id_IsZero (issue_InstrumentID i) || (issue_RuleCode i =s EmptyString)
        || (issue_Severity i =s EmptyString) || (issue_Summary i =s EmptyString) || IsZero (issue_DetectedAt i)
        || IsZero (issue_CreatedAt i) || IsZero (issue_UpdatedAt i)).

Definition validateSuccessCommit (c : SuccessCommit) : result unit :=
  let task := claim_Task (succ_Claim c) in
  failif id_IsZero (task_ID task) || id_IsZero (task_SubscriptionID task) || (task_Status task <>s "running")
         || (task_AttemptCount task <=? 0) || is_nil (task_LockedBy task)
         || opt_test (fun b => b =s EmptyString) (task_LockedBy task) || is_nil (task_LockedUntil task)
         || IsZero (succ_FinishedAt c) || opt_test (fun u => negb (After u (succ_FinishedAt c))) (task_LockedUntil task),
         Sentinel ErrInvalidData ;;
  failif (ckpt_SubscriptionID (succ_Checkpoint c) <>id task_SubscriptionID task) || IsZero (ckpt_UpdatedAt (succ_Checkpoint c))
         || is_nil (ckpt_LastAttemptAt (succ_Checkpoint c)) || is_nil (ckpt_LastSuccessAt (succ_Checkpoint c)),
         Sentinel ErrInvalidData ;;
  validate_commit_bars [] (succ_Bars c) ;;;
  failif negb (forallb commit_issue_ok (succ_Issues c)), Sentinel ErrInvalidData ;;
  Ok tt.
End Checks.

Section Operations.
Context `{D : DecimalLib} `{T : TzLib} `{U : UUIDLib} `{P : !PgLib}.

(** ** Runs and tasks *)
Definition repo_CreateRunWithTask (run : IngestionRun) (task : IngestionTask) : M PG unit :=
  mfailif id_IsZero (run_ID run) || id_IsZero (task_ID task) || (task_RunID task <>id run_ID run)
          || id_IsZero (task_SubscriptionID task) || negb (After (task_RangeEnd task) (task_RangeStart task)),
          Wrap "create run with task" (Sentinel ErrInvalidData) ;;
  transaction "begin create run with task" "commit create run with task" (
    _ <-- mwrap_db "insert ingestion run" (exec_tx (insert_run false run)) ;;
    _ <-- mwrap_db "insert ingestion task" (exec_tx (insert_task task)) ;;
    mret (Committed tt)).

(** The row the equivalence check joins: the run and its tasks. *)
Definition existing_batch (key : string) (d : DB) : result (IngestionRun * IngestionTask * Z) :=
  match List.find (fun r => run_RunKey r =s key) (rows (db_runs d)) with
  | None => Err no_rows
  | Some r =>
      match run_tasks (run_ID r) d with
      | [] => Err no_rows
      | (t :: _) as tasks => Ok (r, t, llen tasks)
      end
  end.

Definition equivalentScheduledBatch (batch : ScheduledBatch) : M PG bool :=
  do* (r, t, taskCount) := mwrap_db "load existing scheduled batch" (query (existing_batch (run_RunKey (batch_Run batch)))) ;;
  mfailif is_nil (run_ScheduledAt r), Wrap "load existing scheduled batch" (Plain "cannot scan NULL into time.Time") ;;
  mret ((taskCount =? 1) && (run_RunType r =s run_RunType (batch_Run batch)) && (run_TriggerType r =s run_TriggerType (batch_Run batch))
        && opt_test (fun s => opt_test (fun b => Equal s (TimeToDatabase b)) (run_ScheduledAt (batch_Run batch))) (run_ScheduledAt r)
        && (task_SubscriptionID t =id task_SubscriptionID (batch_Task batch))
        && Equal (task_RangeStart t) (TimeToDatabase (task_RangeStart (batch_Task batch)))
        && Equal (task_RangeEnd t) (TimeToDatabase (task_RangeEnd (batch_Task batch)))).

(** [SELECT enabled FROM collection_subscriptions WHERE id = $1 FOR SHARE] *)
Definition subscription_enabled (id : ID) (d : DB) : result bool :=
  match db_subscriptions d !! id with None => Err no_rows | Some s => Ok (sub_Enabled s) end.

Definition repo_CreateScheduledBatch (batch : ScheduledBatch) : M PG bool :=
  _ <-- mlift (wrap "create scheduled batch" (batch_Validate batch)) ;;
  transaction "begin scheduled batch" "commit scheduled batch" (
    enabled <-- mwrap_db "revalidate scheduled subscription" (query (subscription_enabled (task_SubscriptionID (batch_Task batch)))) ;;
    mfailif negb enabled, Wrap "revalidate scheduled subscription" (Sentinel ErrInvalidState) ;;
    inserted <-- mwrap_db "insert scheduled run" (exec_tx (insert_run true (batch_Run batch))) ;;
    if negb inserted then
      equivalent <-- equivalentScheduledBatch batch ;;
      mfailif negb equivalent, Wrap "scheduled run key describes different work" (Sentinel ErrConflict) ;;
      mret (RolledBack false)
    else
      _ <-- mwrap_db "insert scheduled task" (exec_tx (insert_task (batch_Task batch))) ;;
      mret (Committed true)).

(** [SELECT tasks.id ... LIMIT 1] of an equivalent active backfill. *)
Definition active_backfill (task : IngestionTask) (d : DB) : bool :=
  existsb (fun t => (task_SubscriptionID t =id task_SubscriptionID task)
                    && (task_RangeStart t =? pg_time (TimeToDatabase (task_RangeStart task)))
                    && (task_RangeEnd t =? pg_time (TimeToDatabase (task_RangeEnd task)))
                    && opt_test (fun r => run_RunType r =s "backfill") (db_runs d !! task_RunID t)
                    && task_active (task_Status t)) (rows (db_tasks d)).

(** The advisory lock on the range serializes two creations of the same range. *)
Definition repo_CreateBackfillRunWithTask (run : IngestionRun) (task : IngestionTask) : M PG unit :=
  _ <-- mlift (wrap "create backfill run with task" (validateBackfillRunAndTask run task)) ;;
  transaction "begin create backfill" "commit create backfill" (
    _ <-- mwrap_db "lock equivalent backfill range" (query (fun _ => Ok tt)) ;;
    enabled <-- mwrap_db "revalidate backfill subscription" (query (subscription_enabled (task_SubscriptionID task))) ;;
    mfailif negb enabled, Wrap "revalidate backfill subscription" (Sentinel ErrInvalidState) ;;
    active <-- mwrap_db "check equivalent active backfill" (query (fun d => Ok (active_backfill task d))) ;;
    mfailif active, Wrap "active backfill task" (Sentinel ErrBackfillAlreadyRunning) ;;
    _ <-- mwrap_db "insert backfill run" (exec_tx (insert_run false run)) ;;
    _ <-- mwrap_db "insert backfill task" (exec_tx (insert_task task)) ;;
    mret (Committed tt)).

Definition repo_ClaimNextTask (scan : list ID) (locked : gset ID) (workerID : string) (now : Time) (leaseDuration : Duration) :
    M PG (option TaskClaim) :=
  mfailif (workerID =s EmptyString) || IsZero now || (leaseDuration <=? 0), Wrap "claim next task" (Sentinel ErrInvalidData) ;;
  claimed <-- mtry (exec_auto (claim_next scan locked workerID (TimeToDatabase now) (TimeToDatabase (Add now leaseDuration)))) ;;
  match claimed with
  | Ok t => mret (Some (mkTaskClaim (scanTask t)))
  | Err e => if errors_Is e ErrNoRows then mret None else mthrow (Wrap "claim next task" (MapError e))
  | Diverge => mlift Diverge
  end.

(** [SELECT status ... FOR UPDATE] *)
Definition locked_task (id : ID) (d : DB) : result IngestionTask :=
  match db_tasks d !! id with None => Err no_rows | Some t => Ok t end.
(** A locked read whose missing row is the error [missing]. *)
Definition lock_row {A} (missing : error) (text : string) (q : DB -> result A) : M PG A :=
  locked <-- mtry (query q) ;;
  match locked with
  | Ok a => mret a
  | Err e => if errors_Is e ErrNoRows then mthrow missing else mthrow (Wrap text (MapError e))
  | Diverge => mlift Diverge
  end.

Definition cancel_row (by_ : string) (reason : option string) (now : Time) (t : IngestionTask) : result IngestionTask :=
  by_ <- pg_varchar 128 by_ ;;
  reason <- opt_map_result pg_text reason ;;
  Ok (with_cancellation (with_transition t "canceled" (task_AttemptCount t) None None None (task_StartedAt t)
        (Some (pg_time now)) (pg_time now)) (Some by_) reason).

Definition repo_CancelTask (taskID : ID) (canceledBy reason : string) (now : Time) : M PG unit :=
  mfailif id_IsZero taskID || (TrimSpace canceledBy <>s canceledBy) || (canceledBy =s EmptyString)
          || (128 <? RuneCountInString canceledBy) || (TrimSpace reason <>s reason) || IsZero now,
          Wrap "cancel task" (Sentinel ErrInvalidData) ;;
  transaction "begin cancel task" "commit cancel task" (
    t <-- lock_row (Wrap "cancel task" (Sentinel ErrNotFound)) "lock task for cancellation" (locked_task taskID) ;;
    mfailif negb (task_active (task_Status t)), Wrap "cancel task in status" (Sentinel ErrConflict) ;;
    affected <-- mwrap_db "cancel task" (exec_tx (update_task taskID (fun u => task_Status u =s task_Status t)
                   (cancel_row canceledBy (nullableString reason) (TimeToDatabase now)))) ;;
    mfailif negb (affected =? 1), Wrap "cancel task" (Sentinel ErrConflict) ;;
    mret (Committed tt)).

Definition repo_RecoverExpiredTasks (locked : gset ID) (now : Time) : M PG Z :=
  mfailif IsZero now, Wrap "recover expired tasks" (Sentinel ErrInvalidData) ;;
  mwrap_db "recover expired tasks" (exec_auto (recover_expired locked (TimeToDatabase now))).

(** ** Run summaries and checkpoints *)
Definition repo_LoadRunTaskSnapshot (runID : ID) : M PG RunTaskSnapshot :=
  mfailif id_IsZero runID, Wrap "load run task snapshot" (Sentinel ErrInvalidData) ;;
  mwrap_db "load run task snapshot" (query (run_snapshot runID)).

Definition repo_SaveRunSummary (s : RunSummary) : M PG unit :=
  _ <-- mlift (wrap "save run summary" (validateRunSummary s)) ;;
  affected <-- mwrap_db "save run summary" (exec_auto (save_summary s)) ;;
  mfailif negb (affected =? 1), Wrap "save run summary from stale task snapshot" (Sentinel ErrConflict) ;;
  mret tt.

Definition repo_UpsertCheckpoint (c : IngestionCheckpoint) : M PG unit :=
  mfailif id_IsZero (ckpt_SubscriptionID c) || IsZero (ckpt_UpdatedAt c), Wrap "upsert checkpoint" (Sentinel ErrInvalidData) ;;
  mwrap_db "upsert checkpoint" (exec_auto (replace_checkpoint c)).

Definition repo_LoadSchedulingCheckpoint (subscriptionID : ID) : M PG (option IngestionCheckpoint) :=
  mfailif id_IsZero subscriptionID, Wrap "load scheduling checkpoint" (Sentinel ErrInvalidData) ;;
  mwrap_db "load scheduling checkpoint" (query (fun d => Ok (db_checkpoints d !! subscriptionID))).

(** ** Contexts and targets *)
Definition by_id {A} (table : DB -> gmap ID A) (scan : A -> result A) (id : ID) (d : DB) : result A :=
  match table d !! id with None => Err no_rows | Some row => scan row end.

Definition scanInstrument (row : Instrument) : result Instrument :=
  ParseCode (inst_Code row) ;;;
  ParseInstrumentType (inst_InstrumentType row) ;;;
  ParseInstrumentStatus (inst_Status row) ;;;
  NewInstrument {|
    inst_ID := inst_ID row; inst_Code := inst_Code row; inst_AssetID := inst_AssetID row; inst_Venue := inst_Venue row;
    inst_InstrumentType := inst_InstrumentType row; inst_Symbol := inst_Symbol row; inst_QuoteAssetID := inst_QuoteAssetID row;
    inst_QuoteCurrency := inst_QuoteCurrency row; inst_MarketTimezone := inst_MarketTimezone row;
    inst_PriceScale := inst_PriceScale row; inst_QuantityScale := inst_QuantityScale row; inst_LotSize := inst_LotSize row;
    inst_MinQuantity := inst_MinQuantity row; inst_Status := inst_Status row; inst_ValidFrom := inst_ValidFrom row;
    inst_ValidTo := inst_ValidTo row; inst_Metadata := copyJSON (inst_Metadata row); inst_CreatedAt := inst_CreatedAt row;
    inst_UpdatedAt := inst_UpdatedAt row |}.

Definition repo_LoadExecutionContext (subscriptionID : ID) : M PG ExecutionContext :=
  mfailif id_IsZero subscriptionID, Wrap "load ingestion context" (Sentinel ErrInvalidData) ;;
  subscription <-- mwrap_db "load ingestion subscription" (query (by_id db_subscriptions scanSubscription subscriptionID)) ;;
  mapping <-- mwrap_db "load ingestion provider instrument"
    (query (by_id db_mappings scanProviderInstrument (sub_ProviderInstrumentID subscription))) ;;
  provider <-- mwrap_db "load ingestion provider" (query (by_id db_providers scanProvider (pi_ProviderID mapping))) ;;
  instrument <-- mwrap_db "load ingestion instrument" (query (by_id db_instruments scanInstrument (pi_InstrumentID mapping))) ;;
  asset <-- mwrap_db "load ingestion asset" (query (by_id db_assets scanAsset (inst_AssetID instrument))) ;;
  let execution := mkExecutionContext subscription asset instrument provider mapping in
  _ <-- mlift (wrap "validate ingestion context" (execution_Validate execution)) ;;
  mret execution.

(** [valid_from IS NULL OR valid_from <= $2] and [valid_to IS NULL OR valid_to > $2] *)
Definition effective (from to : option Time) (at_ : Time) : bool :=
  negb (opt_test (fun f => at_ <? f) from) && negb (opt_test (fun u => u <=? at_) to).

(** The joined row of a subscription, when every join has its row. *)
Definition joined (d : DB) (s : CollectionSubscription) : option (ProviderInstrument * Provider * Instrument * Asset) :=
  m ← db_mappings d !! sub_ProviderInstrumentID s;
  p ← db_providers d !! pi_ProviderID m;
  i ← db_instruments d !! pi_InstrumentID m;
  a ← db_assets d !! inst_AssetID i;
  Some (m, p, i, a).
Definition provider_available (p : Provider) : bool := contains_string ["active"; "degraded"]%string (prov_Status p).

(** The WHERE clause of [ListSchedulingTargets]. *)
Definition schedulable (d : DB) (at_ : Time) (s : CollectionSubscription) : bool :=
  sub_Enabled s && opt_test (fun '(m, p, i, a) =>
    pi_Enabled m && effective (pi_ValidFrom m) (pi_ValidTo m) at_ && provider_available p
    && (inst_Status i =s "active") && effective (inst_ValidFrom i) (inst_ValidTo i) at_ && (asset_Status a =s "active")) (joined d s).

Definition target_ids (afterID : option ID) (limit : nat) (at_ : Time) (d : DB) : result (list ID) :=
  Ok (firstn limit (merge_sort N.le (map fst (List.filter
        (fun '(id, s) => schedulable d at_ s && negb (opt_test (fun a => N.leb id a) afterID)) (map_to_list (db_subscriptions d)))))).

Definition target_of (x : ExecutionContext) : SchedulingTarget := {|
  tgt_Subscription := exec_Subscription x; tgt_ProviderCode := prov_Code (exec_Provider x);
  tgt_ProviderMarket := pi_ProviderMarket (exec_ProviderInstrument x); tgt_InstrumentCode := inst_Code (exec_Instrument x);
  tgt_AssetType := asset_AssetType (exec_Asset x); tgt_InstrumentType := inst_InstrumentType (exec_Instrument x);
  tgt_Capabilities := pi_Capabilities (exec_ProviderInstrument x) |}.

Fixpoint load_targets (ids : list ID) : M PG (list SchedulingTarget) :=
  match ids with
  | [] => mret []
  | id :: rest =>
      execution <-- mwrap "load scheduling target" (repo_LoadExecutionContext id) ;;
      let target := target_of execution in
      _ <-- mlift (wrap "validate scheduling target" (target_Validate target)) ;;
      targets <-- load_targets rest ;;
      mret (target :: targets)
  end.

Definition repo_ListSchedulingTargets (afterID : option ID) (limit : Z) (effectiveAt : Time) : M PG SchedulingTargetPage :=
  mfailif (limit <? 1) || (100 <? limit) || IsZero effectiveAt || opt_test id_IsZero afterID,
          Wrap "list scheduling targets" (Sentinel ErrInvalidData) ;;
  ids <-- mwrap_db "query scheduling targets" (query (target_ids afterID (Z.to_nat (limit + 1)) (pg_time (TimeToDatabase effectiveAt)))) ;;
  let page := firstn (Z.to_nat limit) ids in
  let next := if limit <? llen ids then last page else None in
  targets <-- load_targets page ;;
  mret (mkSchedulingTargetPage targets next).

Definition closed_open_times (target : SchedulingTarget) (rangeStart rangeEnd : Time) (d : DB) : result (list Time) :=
  Ok (merge_sort Z.le (map bar_OpenTime (List.filter
    (fun b => (bar_ProviderInstrumentID b =id sub_ProviderInstrumentID (tgt_Subscription target))
              && (bar_Interval b =s sub_Interval (tgt_Subscription target)) && (rangeStart <=? bar_OpenTime b)
              && (bar_OpenTime b <? rangeEnd) && bar_IsCurrent b && bar_IsClosed b
              && contains_string ["valid"; "warning"]%string (bar_QualityStatus b))
    (concat (rows (db_bars d)))))).

Definition repo_ListClosedBarOpenTimes (target : SchedulingTarget) (rangeStart rangeEnd : Time) : M PG (list Time) :=
  mfailif negb (is_ok (target_Validate target)) || IsZero rangeStart || IsZero rangeEnd || negb (After rangeEnd rangeStart),
          Wrap "list closed bar open times" (Sentinel ErrInvalidData) ;;
  mwrap_db "list closed bar open times"
    (query (closed_open_times target (pg_time (TimeToDatabase rangeStart)) (pg_time (TimeToDatabase rangeEnd)))).

(** [ORDER BY is_default DESC, priority ASC, code ASC LIMIT 1] *)
Definition preferred (a b : ID * ProviderInstrument) : bool :=
  let '(x, y) := (snd a, snd b) in
  if Bool.eqb (pi_IsDefault x) (pi_IsDefault y) then
    if pi_Priority x =? pi_Priority y then String.ltb (pi_Code x) (pi_Code y) else pi_Priority x <? pi_Priority y
  else pi_IsDefault x.
Definition best_mapping (l : list (ID * ProviderInstrument)) : option (ID * ProviderInstrument) :=
  fold_right (fun x acc => match acc with Some y => if preferred y x then Some y else Some x | None => Some x end) None l.

Definition backfill_subscription (providerCode instrumentCode : Code) (interval : string) (at_ : Time) (d : DB) : result ID :=
  match best_mapping (omap (fun '(id, s) =>
      match db_mappings d !! sub_ProviderInstrumentID s with
      | Some m =>
          match db_providers d !! pi_ProviderID m, db_instruments d !! pi_InstrumentID m with
          | Some p, Some i =>
              if (prov_Code p =s providerCode) && (inst_Code i =s instrumentCode) && (sub_Interval s =s interval) && sub_Enabled s
                 && (inst_Status i =s "active") && effective (inst_ValidFrom i) (inst_ValidTo i) at_ && pi_Enabled m
                 && effective (pi_ValidFrom m) (pi_ValidTo m) at_ && provider_available p
              then Some (id, m) else None
          | _, _ => None
          end
      | None => None
      end) (map_to_list (db_subscriptions d))) with
  | None => Err no_rows
  | Some (id, _) => Ok id
  end.

Definition repo_ResolveBackfillTarget (providerCode instrumentCode : Code) (interval : string) (effectiveAt : Time) : M PG ExecutionContext :=
  mfailif code_IsZero providerCode || code_IsZero instrumentCode || IsZero effectiveAt,
          Wrap "resolve backfill target" (Sentinel ErrInvalidData) ;;
  mfailif negb (is_ok (ParseBarInterval interval)), Wrap "resolve backfill target" (Sentinel ErrInvalidData) ;;
  id <-- mwrap_db "resolve backfill subscription"
    (query (backfill_subscription providerCode instrumentCode interval (pg_time (TimeToDatabase effectiveAt)))) ;;
  repo_LoadExecutionContext id.

(** ** Market bars *)
(** The body of [writeMarketBarInTransaction] and [WriteMarketBar] once the bar
    is normalized: keep an unchanged current bar, or close it and insert the
    next revision. [check_closed] is the rows-affected check, which only the
    ingestion commit makes, and [db] the way each maps a driver error. *)
Definition write_revision (check_closed : bool) (db : forall A, string -> M PG A -> M PG A) (bar : Bar) :
    M PG (TxEnd MarketBarWriteResult) :=
  loaded <-- mtry (query (loadCurrentMarketBar bar)) ;;
  let insert revision :=
    _ <-- db unit "insert market bar revision"%string
      (exec_tx (insert_bar_row (bar_with_storage bar revision true (bar_Metadata bar)))) ;;
    mret (Committed (mkMarketBarWriteResult true revision)) in
  match loaded with
  | Diverge => mlift Diverge
  | Err e => if errors_Is e ErrNoRows then insert 1 else db _ "load current market bar"%string (mthrow e)
  | Ok current =>
      if (bar_RawHash bar <>s EmptyString) && (bar_RawHash current =s bar_RawHash bar) then
        mret (RolledBack (mkMarketBarWriteResult false (bar_Revision current)))
      else
        affected <-- db Z "close current market bar"%string (exec_tx (close_current bar (bar_Revision current))) ;;
        mfailif check_closed && negb (affected =? 1), Sentinel ErrConflict ;;
        insert (bar_Revision current + 1)
  end.

Definition tx_value {A} (e : TxEnd A) : A := match e with Committed a => a | RolledBack a => a end.

Definition writeMarketBarInTransaction (bar : Bar) : M PG MarketBarWriteResult :=
  bar <-- mlift (NewBar bar) ;;
  e <-- write_revision true (@mmap_db _) bar ;;
  mret (tx_value e).

Definition repo_WriteMarketBar (bar : Bar) : M PG MarketBarWriteResult :=
  bar <-- mlift (wrap "write market bar" (NewBar bar)) ;;
  _ <-- mlift (wrap "write market bar" (NewBar bar)) ;;
  transaction "begin market bar write" "commit market bar revision" (write_revision false (@mwrap_db _) bar).

(** ** Quality issues *)
Definition openQualityIssue (exec : (DB -> result (ID * DB)) -> M PG ID) (i : DataQualityIssue) : M PG bool :=
  mfailif id_IsZero (issue_ID i) || id_IsZero (issue_InstrumentID i) || (issue_RuleCode i =s EmptyString)
          || IsZero (issue_DetectedAt i) || IsZero (issue_CreatedAt i) || IsZero (issue_UpdatedAt i),
          Wrap "open quality issue" (Sentinel ErrInvalidData) ;;
  opened <-- mtry (exec (insert_issue i)) ;;
  match opened with
  | Ok _ => mret true
  | Err e => if errors_Is e ErrNoRows then mret false else mthrow (Wrap "open quality issue" (MapError e))
  | Diverge => mlift Diverge
  end.
Definition repo_OpenIssue (i : DataQualityIssue) : M PG bool := openQualityIssue exec_auto i.

Definition transitionIssue (id : ID) (from : list string) (to : string) (note : option string) (resolvedAt : option Time)
    (updatedAt : Time) : M PG unit :=
  mfailif id_IsZero id || IsZero updatedAt, Wrap "transition quality issue" (Sentinel ErrInvalidData) ;;
  affected <-- mwrap_db "transition quality issue" (exec_auto (update_issue id from to resolvedAt note updatedAt)) ;;
  if affected =? 1 then mret tt
  else
    _ <-- lock_row (Wrap "transition quality issue" (Sentinel ErrNotFound)) "check quality issue state"
            (fun d => match db_issues d !! id with None => Err no_rows | Some _ => Ok true end) ;;
    mthrow (Wrap "transition quality issue" (Sentinel ErrInvalidState)).
Definition repo_AcknowledgeIssue (id : ID) (updatedAt : Time) : M PG unit :=
  transitionIssue id ["open"%string] "acknowledged" None None updatedAt.
Definition repo_ResolveIssue (id : ID) (note : string) (updatedAt : Time) : M PG unit :=
  transitionIssue id ["open"; "acknowledged"]%string "resolved" (Some note) (Some updatedAt) updatedAt.
Definition repo_IgnoreIssue (id : ID) (note : string) (updatedAt : Time) : M PG unit :=
  transitionIssue id ["open"; "acknowledged"]%string "ignored" (Some note) (Some updatedAt) updatedAt.

(** ** The commits of a claim *)
(** The joined row of [lockAndValidateTaskClaim]. *)
Definition claim_source (taskID : ID) (d : DB) : result (IngestionTask * CollectionSubscription * ProviderInstrument) :=
  match db_tasks d !! taskID with
  | None => Err no_rows
  | Some t =>
      match db_subscriptions d !! task_SubscriptionID t with
      | None => Err no_rows
      | Some s => match db_mappings d !! sub_ProviderInstrumentID s with None => Err no_rows | Some m => Ok (t, s, m) end
      end
  end.

(** The fence: the stored row is still the claim's attempt, and its lease is
    after the finish time. *)
Definition lease_lost (t claim : IngestionTask) (finishedAt : Time) : bool :=
  (task_Status t <>s "running") || negb (task_AttemptCount t =? task_AttemptCount claim)
  || (task_SubscriptionID t <>id task_SubscriptionID claim)
  || match task_LockedBy t, task_LockedBy claim with Some a, Some b => a <>s b | _, _ => true end
  || match task_LockedUntil t, task_LockedUntil claim with
     | Some a, Some b => negb (Equal a (TimeToDatabase b)) || negb (After a finishedAt)
     | _, _ => true
     end.

Definition lockAndValidateTaskClaim (c : SuccessCommit) : M PG unit :=
  let claim := claim_Task (succ_Claim c) in
  do* (t, s, m) := lock_row (Wrap "lock ingestion task" (Sentinel ErrTaskLeaseLost)) "lock ingestion task" (claim_source (task_ID claim)) ;;
  mfailif lease_lost t claim (succ_FinishedAt c), Wrap "validate ingestion task lease" (Sentinel ErrTaskLeaseLost) ;;
  mfailif negb (forallb (fun b => (bar_InstrumentID b =id pi_InstrumentID m) && (bar_ProviderInstrumentID b =id sub_ProviderInstrumentID s)
                                  && (bar_Interval b =s sub_Interval s)) (succ_Bars c)),
          Wrap "validate ingestion bar source" (Sentinel ErrInvalidData) ;;
  mfailif negb (forallb (fun i => (issue_InstrumentID i =id pi_InstrumentID m)
                                  && opt_test (fun p => p =id sub_ProviderInstrumentID s) (issue_ProviderInstrumentID i)
                                  && negb (opt_test (fun v => v <>s sub_Interval s) (issue_Interval i))) (succ_Issues c)),
          Wrap "validate ingestion quality issue source" (Sentinel ErrInvalidData) ;;
  mret tt.

Definition lockAndValidateFailureClaim (c : FailureCommit) : M PG unit :=
  let claim := claim_Task (fail_Claim c) in
  t <-- lock_row (Wrap "lock ingestion failed task" (Sentinel ErrTaskLeaseLost)) "lock ingestion failed task" (locked_task (task_ID claim)) ;;
  mfailif lease_lost t claim (fail_FinishedAt c), Wrap "validate ingestion failed task lease" (Sentinel ErrTaskLeaseLost) ;;
  mret tt.

Fixpoint each {A} (f : A -> M PG unit) (l : list A) : M PG unit :=
  match l with [] => mret tt | x :: rest => _ <-- f x ;; each f rest end.

(** The WHERE clause of both final updates. *)
Definition fenced (claim : IngestionTask) (finishedAt : Time) (t : IngestionTask) : bool :=
  (task_Status t =s "running") && (task_AttemptCount t =? task_AttemptCount claim)
  && match task_LockedBy t, task_LockedBy claim with Some a, Some b => a =s b | _, _ => false end
  && match task_LockedUntil t, task_LockedUntil claim with
     | Some a, Some b => (a =? pg_time (TimeToDatabase b)) && (pg_time finishedAt <? a)
     | _, _ => false
     end.

Definition success_row (finishedAt : Time) (t : IngestionTask) : result IngestionTask :=
  Ok (with_error (with_transition t "success" (task_AttemptCount t) None None None (task_StartedAt t) (Some (pg_time finishedAt))
        (pg_time finishedAt)) None None "{}").

Definition repo_CommitSuccess (c : SuccessCommit) : M PG unit :=
  _ <-- mlift (wrap "commit ingestion success" (validateSuccessCommit c)) ;;
  let task := claim_Task (succ_Claim c) in
  transaction "begin ingestion success" "commit ingestion success" (
    _ <-- lockAndValidateTaskClaim c ;;
    _ <-- each (fun b => mwrap "write ingestion bar" (_ <-- writeMarketBarInTransaction b ;; mret tt)) (succ_Bars c) ;;
    _ <-- each (fun i => mwrap "write ingestion quality issue" (_ <-- openQualityIssue exec_tx i ;; mret tt)) (succ_Issues c) ;;
    _ <-- mwrap_db "upsert successful ingestion checkpoint" (exec_tx (succeed_checkpoint (succ_Checkpoint c))) ;;
    affected <-- mwrap_db "complete ingestion task"
      (exec_tx (update_task (task_ID task) (fenced task (TimeToDatabase (succ_FinishedAt c)))
                  (success_row (TimeToDatabase (succ_FinishedAt c))))) ;;
    mfailif negb (affected =? 1), Wrap "complete ingestion task" (Sentinel ErrTaskLeaseLost) ;;
    mret (Committed tt)).

Definition failure_row (c : FailureCommit) (t : IngestionTask) : result IngestionTask :=
  status <- pg_varchar 16 (fail_Status c) ;;
  code <- pg_varchar 64 (fail_ErrorCode c) ;;
  message <- pg_text (fail_ErrorMessage c) ;;
  details <- pg_jsonb (fail_ErrorDetails c) ;;
  let finishedAt := pg_time (TimeToDatabase (fail_FinishedAt c)) in
  Ok (with_error (with_transition t status (task_AttemptCount t) (opt_time (fail_NextAttemptAt c)) None None (task_StartedAt t)
        (if fail_Status c =s "failed" then Some finishedAt else None) finishedAt) (Some code) (Some message) details).

Definition repo_CommitFailure (c : FailureCommit) : M PG unit :=
  _ <-- mlift (wrap "commit ingestion failure" (validateFailureCommit c)) ;;
  let task := claim_Task (fail_Claim c) in
  transaction "begin ingestion failure" "commit ingestion failure" (
    _ <-- lockAndValidateFailureClaim c ;;
    _ <-- mwrap_db "upsert failed ingestion checkpoint"
      (exec_tx (fun d => d <- fail_checkpoint (task_SubscriptionID task) 1 (pg_time (TimeToDatabase (fail_FinishedAt c))) d ;; Ok (tt, d))) ;;
    affected <-- mwrap_db "transition ingestion task failure"
      (exec_tx (update_task (task_ID task) (fenced task (TimeToDatabase (fail_FinishedAt c))) (failure_row c))) ;;
    mfailif negb (affected =? 1), Wrap "transition ingestion task failure" (Sentinel ErrTaskLeaseLost) ;;
    mret (Committed tt)).

(** ** manual_tasks.go *)
Definition validRepositoryAuditText (value : string) (maximum : Z) : bool :=
  negb ((value =s EmptyString) || (value <>s TrimSpace value) || (maximum <? RuneCountInString value))
  && negb (has_control value).
Definition repo_validTaskOperationAudit (a : TaskOperationAudit) : bool :=
  validRepositoryAuditText (op_RequestedBy a) 128 && validRepositoryAuditText (op_RequestID a) 128
  && validRepositoryAuditText (op_Reason a) 512 && ((op_ActorType a =s "user") || (op_ActorType a =s "service")).

Definition validateManualRetryCreation (c : ManualRetryCreation) : result unit :=
  failif id_IsZero (mr_OriginalTaskID c) || id_IsZero (mr_RunID c) || id_IsZero (mr_TaskID c)
         || (mr_OriginalTaskID c =id mr_RunID c) || (mr_OriginalTaskID c =id mr_TaskID c) || (mr_RunID c =id mr_TaskID c)
         || (mr_MaximumAttempts c <? 1) || IsZero (mr_CreatedAt c) || negb (repo_validTaskOperationAudit (mr_Audit c))
         || negb (validJSONObject (mr_RunContext c)), Sentinel ErrInvalidData ;;
  Ok tt.

(** [source_available] of the joined row, at the instant of the request. *)
Definition source_available (at_ : Time) (s : CollectionSubscription) (row : ProviderInstrument * Provider * Instrument * Asset) : bool :=
  let '(m, p, i, a) := row in
  sub_Enabled s && pi_Enabled m && effective (pi_ValidFrom m) (pi_ValidTo m) at_ && cap_Historical (pi_Capabilities m)
  && contains_string (cap_Intervals (pi_Capabilities m)) (sub_Interval s) && provider_available p && (inst_Status i =s "active")
  && effective (inst_ValidFrom i) (inst_ValidTo i) at_ && (asset_Status a =s "active").

(** The locked source row of a retry: the task and whether its source is available. *)
Definition retry_source (taskID : ID) (at_ : Time) (d : DB) : result (IngestionTask * bool) :=
  match db_tasks d !! taskID with
  | None => Err no_rows
  | Some t =>
      match db_subscriptions d !! task_SubscriptionID t with
      | None => Err no_rows
      | Some s => match joined d s with None => Err no_rows | Some row => Ok (t, source_available at_ s row) end
      end
  end.

Definition manualRetryUniqueViolation (e : error) : bool :=
  match errors_AsDriver (fun d => not_nil (drv_code d)) e with
  | Some d => opt_test (fun c => c =s "23505") (drv_code d) && (drv_constraint d =s "uq_active_manual_retry")
  | None => false
  end.

Definition retry_run (c : ManualRetryCreation) : IngestionRun := {|
  run_ID := mr_RunID c; run_RunKey := ("repair.manual." ++ uuid_String (mr_RunID c))%string; run_RunType := "repair";
  run_TriggerType := "manual"; run_Status := "pending"; run_ScheduledAt := None; run_StartedAt := None; run_FinishedAt := None;
  run_RequestedBy := Some (op_RequestedBy (mr_Audit c)); run_TaskCount := 1; run_SuccessCount := 0; run_FailedCount := 0;
  run_Context := mr_RunContext c; run_ErrorSummary := "{}"; run_CreatedAt := mr_CreatedAt c |}.
(** The successor copies the subscription and the range of the locked task. *)
Definition retry_task (c : ManualRetryCreation) (source : IngestionTask) : IngestionTask := {|
  task_ID := mr_TaskID c; task_RunID := mr_RunID c; task_SubscriptionID := task_SubscriptionID source;
  task_RetryOfTaskID := Some (mr_OriginalTaskID c); task_RangeStart := task_RangeStart source; task_RangeEnd := task_RangeEnd source;
  task_Status := "pending"; task_AttemptCount := 0; task_MaxAttempts := mr_MaximumAttempts c; task_NextAttemptAt := None;
  task_LockedBy := None; task_LockedUntil := None; task_StartedAt := None; task_FinishedAt := None; task_ProviderRequestID := None;
  task_ErrorCode := None; task_ErrorMessage := None; task_ErrorDetails := "{}"; task_CanceledBy := None; task_CancelReason := None;
  task_CreatedAt := mr_CreatedAt c; task_UpdatedAt := mr_CreatedAt c |}.

Definition active_retry (originalTaskID : ID) (d : DB) : bool :=
  existsb (fun t => opt_test (fun r => r =id originalTaskID) (task_RetryOfTaskID t) && task_active (task_Status t)) (rows (db_tasks d)).

Definition repo_CreateManualRetry (c : ManualRetryCreation) : M PG unit :=
  _ <-- mlift (wrap "create manual retry" (validateManualRetryCreation c)) ;;
  transaction "begin manual retry" "commit manual retry" (
    do* (source, available) := lock_row (Wrap "lock manual retry source task" (Sentinel ErrNotFound)) "lock manual retry source task"
      (retry_source (mr_OriginalTaskID c) (pg_time (TimeToDatabase (mr_CreatedAt c)))) ;;
    mfailif task_Status source <>s "failed", Wrap "manual retry source task status" (Sentinel ErrConflict) ;;
    mfailif negb available, Wrap "manual retry collection source" (Sentinel ErrManualRetrySourceUnavailable) ;;
    active <-- mwrap_db "check active manual retry" (query (fun d => Ok (active_retry (mr_OriginalTaskID c) d))) ;;
    mfailif active, Wrap "check active manual retry" (Sentinel ErrManualRetryAlreadyRunning) ;;
    _ <-- mwrap_db "insert manual retry run" (exec_tx (insert_run false (retry_run c))) ;;
    inserted <-- mtry (exec_tx (insert_task (retry_task c source))) ;;
    match inserted with
    | Ok _ => mret (Committed tt)
    | Err e =>
        if manualRetryUniqueViolation e then mthrow (Wrap "insert manual retry task" (Sentinel ErrManualRetryAlreadyRunning))
        else mthrow (Wrap "insert manual retry task" (MapError e))
    | Diverge => mlift Diverge
    end).

(** The audit document: a list of one object. *)
Definition cancel_audit (taskID : ID) (audit : TaskOperationAudit) (now : Time) : string :=
  ("[" ++ json_Marshal_map
    [("action", "cancel"); ("task_id", uuid_String taskID); ("requested_by", op_RequestedBy audit);
     ("actor_type", op_ActorType audit); ("request_id", op_RequestID audit); ("reason", op_Reason audit);
     ("occurred_at", FormatRFC3339Nano now)] ++ "]")%string.

Definition repo_CancelTaskWithAudit (taskID : ID) (audit : TaskOperationAudit) (now : Time) : M PG ID :=
  mfailif id_IsZero taskID || IsZero now || negb (repo_validTaskOperationAudit audit),
          Wrap "cancel task with audit" (Sentinel ErrInvalidData) ;;
  transaction "begin audited task cancellation" "commit audited task cancellation" (
    t <-- lock_row (Wrap "cancel task with audit" (Sentinel ErrNotFound)) "lock task for audited cancellation" (locked_task taskID) ;;
    mfailif negb (task_active (task_Status t)), Wrap "cancel task in status" (Sentinel ErrConflict) ;;
    affected <-- mwrap_db "cancel task with audit" (exec_tx (update_task taskID (fun u => task_Status u =s task_Status t)
                   (cancel_row (op_RequestedBy audit) (Some (op_Reason audit)) (TimeToDatabase now)))) ;;
    mfailif negb (affected =? 1), Wrap "cancel task with audit" (Sentinel ErrConflict) ;;
    appended <-- mwrap_db "append task cancellation audit" (exec_tx (append_operation (cancel_audit taskID audit now) (task_RunID t))) ;;
    mfailif negb (appended =? 1), Wrap "append task cancellation audit" (Sentinel ErrReferenceViolation) ;;
    mret (Committed (task_RunID t))).

(** ** Latest quotes and bar pages *)
Definition repo_UpsertLatestQuote (quote : Quote) : M PG bool :=
  quote <-- mlift (wrap "upsert latest quote" (NewQuote quote)) ;;
  upserted <-- mtry (exec_auto (upsert_quote quote)) ;;
  match upserted with
  | Ok _ => mret true
  | Err e => if errors_Is e ErrNoRows then mret false else mthrow (Wrap "upsert latest quote" (MapError e))
  | Diverge => mlift Diverge
  end.

(** [scanLatestQuote]: the stored quote, validated again. *)
Definition scanLatestQuote (row : Quote) : result Quote :=
  NewUTCInstant (quote_MarketTime row) ;;;
  NewUTCInstant (quote_CollectedAt row) ;;;
  ParseQualityStatus (quote_QualityStatus row) ;;;
  NewQuote (quote_with_metadata row (copyJSON (quote_Metadata row))).
(** [ORDER BY market_time DESC, provider_instrument_id ASC] *)
Definition quote_before (q r : Quote) : bool :=
  if quote_MarketTime q =? quote_MarketTime r then N.leb (quote_ProviderInstrumentID q) (quote_ProviderInstrumentID r)
  else quote_MarketTime r <? quote_MarketTime q.
Fixpoint insert_quote (q : Quote) (l : list Quote) : list Quote :=
  match l with [] => [q] | r :: rest => if quote_before q r then q :: l else r :: insert_quote q rest end.
Fixpoint scan_all {A B} (scan : A -> result B) (l : list A) : result (list B) :=
  match l with [] => Ok [] | x :: rest => b <- scan x ;; bs <- scan_all scan rest ;; Ok (b :: bs) end.
Definition repo_ListLatestQuotes (instrumentID : ID) : M PG (list Quote) :=
  mfailif id_IsZero instrumentID, Wrap "list latest quotes" (Sentinel ErrInvalidData) ;;
  page <-- mwrap_db "list latest quotes" (query (fun d =>
    Ok (fold_right insert_quote [] (List.filter (fun q => quote_InstrumentID q =id instrumentID) (rows (db_quotes d)))))) ;;
  mwrap_db "scan latest quote" (mlift (scan_all scanLatestQuote page)).

Definition defaultMarketBarPageSize : Z := 200.
Definition maximumMarketBarPageSize : Z := 1000.
Definition marketBarPageLimit (value : Z) : result Z :=
  if value =? 0 then Ok defaultMarketBarPageSize
  else
    failif (value <? 0) || (maximumMarketBarPageSize <? value), Wrap "market bar page limit" (Sentinel ErrInvalidData) ;;
    Ok value.

(** The selected rows, newest first. *)
Fixpoint insert_newest (b : Bar) (l : list Bar) : list Bar :=
  match l with
  | [] => [b]
  | c :: rest => if bar_OpenTime b <? bar_OpenTime c then c :: insert_newest b rest else b :: l
  end.
Definition current_bars (f : MarketBarFilter) (d : DB) : list Bar :=
  fold_right insert_newest []
    (List.filter (fun b => (bar_InstrumentID b =id filter_InstrumentID f) && (bar_ProviderInstrumentID b =id filter_ProviderInstrumentID f)
         && (bar_Interval b =s filter_Interval f) && bar_IsCurrent b
         && negb (opt_test (fun s => bar_OpenTime b <? pg_time (TimeToDatabase s)) (range_Start (filter_Range f)))
         && negb (opt_test (fun e => pg_time (TimeToDatabase e) <=? bar_OpenTime b) (range_End (filter_Range f)))
         && negb (opt_test (fun c => pg_time (TimeToDatabase c) <=? bar_OpenTime b) (filter_BeforeOpenTime f)))
       (concat (rows (db_bars d)))).

Definition repo_ListCurrentMarketBars (f : MarketBarFilter) : M PG (list Bar) :=
  _ <-- mlift (wrap "list current market bars" (barFilter_Validate f)) ;;
  limit <-- mlift (marketBarPageLimit (filter_Limit f)) ;;
  page <-- mwrap_db "list current market bars" (query (fun d => Ok (firstn (Z.to_nat limit) (current_bars f d)))) ;;
  mwrap_db "scan current market bar" (mlift (scan_all scanMarketBar page)).

(** ** The repository as the stores of the scheduler and the services *)
#[export] Instance repo_IngestionStore : IngestionStore PG := {|
  LoadRunTaskSnapshot := repo_LoadRunTaskSnapshot; SaveRunSummary := repo_SaveRunSummary;
  LoadExecutionContext := repo_LoadExecutionContext; CommitSuccess := repo_CommitSuccess; CommitFailure := repo_CommitFailure |}.
(** [locked]: the task rows other transactions hold while the scheduler recovers. *)
#[export] Instance repo_IncrementalStore (locked : gset ID) : IncrementalStore PG := {|
  ListSchedulingTargets := repo_ListSchedulingTargets; LoadSchedulingCheckpoint := repo_LoadSchedulingCheckpoint;
  ListClosedBarOpenTimes := repo_ListClosedBarOpenTimes; CreateScheduledBatch := repo_CreateScheduledBatch;
  RecoverExpiredTasks := repo_RecoverExpiredTasks locked |}.
#[export] Instance repo_BackfillStore : BackfillStore PG := {|
  ResolveBackfillTarget := repo_ResolveBackfillTarget; CreateBackfillRunWithTask := repo_CreateBackfillRunWithTask |}.
#[export] Instance repo_ManualTaskStore : ManualTaskStore PG := {|
  CreateManualRetry := repo_CreateManualRetry; CancelTaskWithAudit := repo_CancelTaskWithAudit |}.
End Operations.
