(* ===== verification/RepositoryFacts.v ===== *)
(** * Reasoning about the repository's transactions

    [stmt_keeps I s]: a statement that succeeds keeps the predicate [I] of the
    tables. An operation keeps what its statements keep, whatever the driver
    reports and wherever its transaction ends. *)
From S2P Require Import Prelude Errors GoStrings GoTime GoJson External Domain MarketData CatchUp Incremental Ports Ingestion Service IngestionFacts ManualTasks Database Statements Repository.
Open Scope go_scope.

Section Hoare.
Context `{D : DecimalLib} `{T : TzLib} `{U : UUIDLib} `{P : !PgLib}.

Definition on_db (I : DB -> Prop) (w : PG) : Prop := I (pg_db w).
Definition stmt_keeps {A} (I : DB -> Prop) (s : DB -> result (A * DB)) : Prop := forall d a d', I d -> s d = Ok (a, d') -> I d'.

Lemma next_fault_db w f w' : next_fault w = (f, w') -> pg_db w' = pg_db w.
Proof. unfold next_fault. destruct (pg_faults w); intros [= <- <-]; reflexivity. Qed.

Lemma run_sql_keeps {A} I (s : DB -> result (A * DB)) w : stmt_keeps I s -> on_db I w -> on_db I (snd (run_sql s w)).
Proof. intros Hs Hw. unfold run_sql. destruct (s (pg_db w)) as [[a d]|e|] eqn:E; [exact (Hs _ _ _ Hw E) | exact Hw | exact Hw]. Qed.

Lemma safe_exec_tx {A} I (s : DB -> result (A * DB)) : stmt_keeps I s -> safe (on_db I) (exec_tx s) (fun _ => True).
Proof.
  intros Hs w Hw. unfold exec_tx. destruct (next_fault w) as [f w'] eqn:E. apply next_fault_db in E.
  assert (on_db I w') as Hw' by (unfold on_db; by rewrite E). destruct f; simpl; split; auto. by apply run_sql_keeps.
Qed.

Lemma safe_exec_auto {A} I (s : DB -> result (A * DB)) : stmt_keeps I s -> safe (on_db I) (exec_auto s) (fun _ => True).
Proof.
  intros Hs w Hw. unfold exec_auto. destruct (next_fault w) as [f w'] eqn:E. apply next_fault_db in E.
  assert (on_db I w') as Hw' by (unfold on_db; by rewrite E). destruct f as [|d applied]; simpl; split; auto.
  - by apply run_sql_keeps.
  - destruct applied; [by apply run_sql_keeps | exact Hw'].
Qed.

Lemma safe_query {A} I (q : DB -> result A) : safe (on_db I) (query q) (fun _ => True).
Proof. apply safe_exec_tx. intros d a d' Hd. destruct (q d); intros H; inversion H; by subst. Qed.

Lemma safe_mwrap_db {A} I text (c : M PG A) Q : safe I c Q -> safe I (mwrap_db text c) Q.
Proof. intros Hc w Hw. unfold mwrap_db. destruct (Hc w Hw) as [Hi Hq]. destruct (c w) as [[a|e|] w']; (split; [exact Hi | first [exact Hq | discriminate]]). Qed.
Lemma safe_mmap_db {A} I text (c : M PG A) Q : safe I c Q -> safe I (mmap_db text c) Q.
Proof. intros Hc w Hw. unfold mmap_db. destruct (Hc w Hw) as [Hi Hq]. destruct (c w) as [[a|e|] w']; (split; [exact Hi | first [exact Hq | discriminate]]). Qed.

Lemma safe_lock_row {A} I missing text (q : DB -> result A) : safe (on_db I) (lock_row missing text q) (fun _ => True).
Proof.
  unfold lock_row. eapply safe_bind; [apply safe_try, safe_query |]. intros [a|e|] _; [by apply safe_ret | | apply safe_pure].
  destruct (errors_Is e ErrNoRows); apply safe_throw.
Qed.

(** [kept I c Q]: a normal result of [c] keeps [I] and satisfies [Q]; nothing is
    asked of an error, which rolls its transaction back. *)
Definition kept {A} (I : PG -> Prop) (c : M PG A) (Q : A -> Prop) : Prop :=
  forall w a w', I w -> c w = (Ok a, w') -> I w' /\ Q a.

Lemma kept_safe {A} I (c : M PG A) Q : safe I c Q -> kept I c Q.
Proof. intros Hc w a w' Hw E. destruct (Hc w Hw) as [Hi Hq]. rewrite E in *. auto. Qed.
Lemma kept_bind {A B} I (c : M PG A) (k : A -> M PG B) Q R : kept I c Q -> (forall a, Q a -> kept I (k a) R) -> kept I (mbind c k) R.
Proof. intros Hc Hk w b w' Hw (a & w1 & E & E')%mbind_ok. destruct (Hc _ _ _ Hw E) as [H1 HQ]. exact (Hk a HQ _ _ _ H1 E'). Qed.
Lemma kept_failif {A} I (b : bool) e (k : M PG A) Q : (b = false -> kept I k Q) -> kept I (mfailif b , e ;; k) Q.
Proof. destruct b; [intros _ w a w' _ [=] | auto]. Qed.
Lemma kept_throw {A} I e (Q : A -> Prop) : kept I (mthrow e) Q.
Proof. intros w a w' _ [=]. Qed.
Lemma kept_ret {A} I (a : A) (Q : A -> Prop) : Q a -> kept I (mret a) Q.
Proof. intros HQ w b w' Hw [= <- <-]. auto. Qed.
Lemma kept_mwrap {A} I text (c : M PG A) Q : kept I c Q -> kept I (mwrap text c) Q.
Proof. intros Hc w a w' Hw E%mwrap_ok. by apply (Hc w). Qed.
Lemma kept_mwrap_db {A} I text (c : M PG A) Q : kept I c Q -> kept I (mwrap_db text c) Q.
Proof. intros Hc w a w' Hw E. unfold mwrap_db in E. destruct (c w) as [[b|e|] w1] eqn:Ec; try discriminate. injection E as <- <-. by apply (Hc w). Qed.
Lemma kept_mmap_db {A} I text (c : M PG A) Q : kept I c Q -> kept I (mmap_db text c) Q.
Proof. intros Hc w a w' Hw E. unfold mmap_db in E. destruct (c w) as [[b|e|] w1] eqn:Ec; try discriminate. injection E as <- <-. by apply (Hc w). Qed.
Lemma kept_weaken {A} I (c : M PG A) (Q R : A -> Prop) : (forall a, Q a -> R a) -> kept I c Q -> kept I c R.
Proof. intros HQ Hc w a w' Hw E. destruct (Hc _ _ _ Hw E). auto. Qed.
Lemma kept_exec_tx {A} I (s : DB -> result (A * DB)) : stmt_keeps I s -> kept (on_db I) (exec_tx s) (fun _ => True).
Proof. intros Hs. apply kept_safe. by apply safe_exec_tx. Qed.
Lemma kept_each {A} I (f : A -> M PG unit) l : (forall x, kept I (f x) (fun _ => True)) -> kept I (each f l) (fun _ => True).
Proof. intros Hf. induction l as [|x l IH]; simpl; [by apply kept_ret |]. eapply kept_bind; [apply Hf |]. intros _ _. exact IH. Qed.

Lemma safe_transaction {A} I begin_text commit_text (body : M PG (TxEnd A)) :
  kept (on_db I) body (fun _ => True) -> safe (on_db I) (transaction begin_text commit_text body) (fun _ => True).
Proof.
  intros Hb w Hw. unfold transaction. destruct (next_fault w) as [f w0] eqn:E. apply next_fault_db in E.
  assert (on_db I w0) as Hw0 by (unfold on_db; by rewrite E). destruct f as [|d ap]; [| split; [exact Hw0 | auto]].
  destruct (body w0) as [[[a|a]|e|] w1] eqn:Eb; simpl; try (split; [exact Hw0 | auto]; fail).
  destruct (Hb _ _ _ Hw0 Eb) as [Hi _]. destruct (next_fault w1) as [f w2] eqn:E2. apply next_fault_db in E2.
  assert (on_db I w2) as Hw2 by (unfold on_db; by rewrite E2). destruct f as [|d applied]; simpl; (split; [| auto]); [exact Hw2 |].
  destruct applied; [exact Hw2 | exact Hw0].
Qed.

Lemma safe_each {A} I (f : A -> M PG unit) l : (forall x, safe I (f x) (fun _ => True)) -> safe I (each f l) (fun _ => True).
Proof. intros Hf. induction l as [|x l IH]; simpl; [by apply safe_ret |]. eapply safe_bind; [apply Hf |]. intros _ _. exact IH. Qed.
End Hoare.

(** [db_safe] walks along an operation, [db_kept] along the body of a
    transaction; the statements are left. *)
Ltac db_safe_step :=
  match goal with
  | |- safe _ (transaction _ _ _) _ => apply safe_transaction
  | |- safe _ (if _ then mthrow _ else _) _ => apply safe_failif; intros _
  | |- safe _ (mthrow _) _ => apply safe_throw
  | |- safe _ (mret _) _ => apply safe_ret; exact I
  | |- safe _ (mlift _) _ => apply safe_pure
  | |- safe _ (mwrap_db _ _) _ => apply safe_mwrap_db
  | |- safe _ (mmap_db _ _) _ => apply safe_mmap_db
  | |- safe _ (mwrap _ _) _ => apply safe_wrap
  | |- safe _ (mtry _) _ => eapply safe_true, safe_try
  | |- safe _ (lock_row _ _ _) _ => apply safe_lock_row
  | |- safe _ (query _) _ => apply safe_query
  | |- safe _ (exec_tx _) _ => apply safe_exec_tx
  | |- safe _ (exec_auto _) _ => apply safe_exec_auto
  | |- safe _ (each _ _) _ => apply safe_each; intros ?
  | |- safe _ (mbind _ _) _ => eapply (safe_bind _ _ _ (fun _ => True)); [| intros ? _]
  | |- safe _ (let '_ := ?p in _) _ => destruct p
  | |- safe _ (match ?x with _ => _ end) _ => destruct x
  end.
Ltac db_kept_step :=
  match goal with
  | |- kept _ (if _ then mthrow _ else _) _ => apply kept_failif; intros ?
  | |- kept _ (mthrow _) _ => apply kept_throw
  | |- kept _ (mret _) (fun _ => True) => apply kept_ret; exact I
  | |- kept _ (mwrap_db _ _) _ => apply kept_mwrap_db
  | |- kept _ (mmap_db _ _) _ => apply kept_mmap_db
  | |- kept _ (mwrap _ _) _ => apply kept_mwrap
  | |- kept _ (lock_row _ _ _) _ => apply kept_safe, safe_lock_row
  | |- kept _ (query _) _ => apply kept_safe, safe_query
  | |- kept _ (mtry (query _)) _ => apply kept_safe; eapply safe_true, safe_try, safe_query
  | |- kept _ (mlift _) _ => apply kept_safe, safe_pure
  | |- kept _ (exec_tx _) _ => apply kept_exec_tx
  | |- kept _ (mtry (exec_tx _)) _ => apply kept_safe; eapply safe_true, safe_try, safe_exec_tx
  | |- kept _ (each _ _) _ => apply kept_each; intros ?
  | |- kept _ (mbind _ _) _ => eapply (kept_bind _ _ _ (fun _ => True)); [| intros ? _]
  | |- kept _ (let '_ := ?p in _) _ => destruct p
  | |- kept _ (match ?x with _ => _ end) _ => destruct x
  end.
Ltac db_safe := repeat (cbv zeta; first [db_safe_step | db_kept_step]).

(** * The revisions of a stored bar

    What [write_revision] does to the revisions of a bar's series: it keeps an
    unchanged bar and otherwise retires the current revision and appends the
    next one. *)
(** ** Statements that succeed *)
Section Statements.
Context `{D : DecimalLib} `{P : !PgLib}.

Lemma exec_tx_ok {A} (s : DB -> result (A * DB)) w a w' : exec_tx s w = (Ok a, w') -> s (pg_db w) = Ok (a, pg_db w').
Proof.
  unfold exec_tx. destruct (next_fault w) as [[|d ap] w1] eqn:E; [| discriminate]. apply next_fault_db in E. unfold run_sql. rewrite E.
  destruct (s (pg_db w)) as [[b d]|e|]; intros [= -> <-]; reflexivity.
Qed.
Lemma exec_auto_ok {A} (s : DB -> result (A * DB)) w a w' : exec_auto s w = (Ok a, w') -> s (pg_db w) = Ok (a, pg_db w').
Proof.
  unfold exec_auto. destruct (next_fault w) as [[|d ap] w1] eqn:E; [| discriminate]. apply next_fault_db in E. unfold run_sql. rewrite E.
  destruct (s (pg_db w)) as [[b d]|e|]; intros [= -> <-]; reflexivity.
Qed.
Lemma query_ok {A} (q : DB -> result A) w a w' : query q w = (Ok a, w') -> q (pg_db w) = Ok a /\ pg_db w' = pg_db w.
Proof. intros H%exec_tx_ok. destruct (q (pg_db w)); [by injection H as -> -> | discriminate | discriminate]. Qed.
(** A read whose outcome is inspected: it failed in the driver, or answered. *)
Lemma query_tried {A} (q : DB -> result A) w r w' : mtry (query q) w = (Ok r, w') ->
  pg_db w' = pg_db w /\ (q (pg_db w) = r \/ exists d, r = Err (Driver d)).
Proof.
  intros [H _]%mtry_ok. unfold query, exec_tx, run_sql in H. destruct (next_fault w) as [[|d ap] w1] eqn:E; apply next_fault_db in E.
  - rewrite E in H. destruct (q (pg_db w)); injection H as <- <-; auto.
  - injection H as <- <-. eauto.
Qed.
End Statements.

(** ** Series *)
Section Revisions.
Context `{D : DecimalLib} `{P : !PgLib}.

(** The revisions of a bar are 1, 2, ... and the last one is the current one. *)
Definition revisions_ok (bars : list Bar) : Prop :=
  forall i b, bars !! i = Some b -> bar_Revision b = Z.of_nat i + 1 /\ (bar_IsCurrent b = true <-> S i = length bars).
Definition bars_inv (d : DB) : Prop := forall key bars, db_bars d !! key = Some bars ->
  bars <> [] /\ revisions_ok bars /\ Forall (fun b => bar_key b = key) bars.

Definition retire (b : Bar) : Bar := bar_with_storage b (bar_Revision b) false (bar_Metadata b).

Lemma series_inv d b : bars_inv d -> revisions_ok (series b d) /\ Forall (fun r => bar_key r = series_key b) (series b d).
Proof.
  intros Hb. unfold series. destruct (db_bars d !! series_key b) as [l|] eqn:E; [by apply (Hb _ _ E) |]. simpl. split; [| constructor].
  intros i r [=].
Qed.

Lemma retire_others l i b : revisions_ok l -> l !! i = Some b ->
  (if (bar_Revision b =? llen l) && bar_IsCurrent b then retire b else b) = retire b.
Proof.
  intros Hl Hi. destruct (Hl i b Hi) as [Er Ec]. destruct (bar_IsCurrent b) eqn:C.
  - rewrite Er. replace (Z.of_nat i + 1 =? llen l) with true; [reflexivity |]. symmetry. apply Z.eqb_eq. unfold llen. pose proof (proj1 Ec eq_refl). lia.
  - rewrite andb_false_r. unfold retire, bar_with_storage. destruct b; simpl in *. by subst.
Qed.
Lemma retire_all l : revisions_ok l -> map (fun b => if (bar_Revision b =? llen l) && bar_IsCurrent b then retire b else b) l = map retire l.
Proof. intros Hl. apply map_ext_in. intros b (i & Hi)%list_elem_of_In%list_elem_of_lookup. by apply (retire_others l i). Qed.

Lemma find_current l : revisions_ok l -> match List.find bar_IsCurrent l with
  | Some r => last l = Some r /\ bar_Revision r = llen l
  | None => l = []
  end.
Proof.
  intros Hl. destruct (List.find bar_IsCurrent l) as [r|] eqn:E.
  - apply find_some in E as [(i & Hi)%list_elem_of_In%list_elem_of_lookup Hc]. destruct (Hl i r Hi) as [Er Ec]. apply Ec in Hc.
    split; [| unfold llen; lia]. rewrite last_lookup, <- Hc. exact Hi.
  - destruct (last l) as [r|] eqn:El; [| by apply last_None]. exfalso. rewrite last_lookup in El. destruct (Hl _ _ El) as [_ Ec].
    pose proof (lookup_lt_Some _ _ _ El). pose proof (find_none _ _ E r (proj1 (list_elem_of_In _ _) (list_elem_of_lookup_2 _ _ _ El))) as F.
    rewrite (proj2 Ec) in F; [discriminate | lia].
Qed.

Lemma revisions_next l row : revisions_ok l -> bar_Revision row = llen l + 1 -> bar_IsCurrent row = true ->
  revisions_ok (map retire l ++ [row]).
Proof.
  intros Hl Er Ec i b Hi. rewrite length_app, length_map. simpl. apply lookup_app_Some in Hi as [Hi | [Hlen Hi]].
  - rewrite list_lookup_fmap in Hi. apply fmap_Some in Hi as (r & Hr & ->). destruct (Hl i r Hr) as [Er' _].
    apply lookup_lt_Some in Hr. split; [exact Er' |]. simpl. split; [discriminate | lia].
  - rewrite length_map in Hlen, Hi. apply list_lookup_singleton_Some in Hi as [Hz ->]. split; [unfold llen in Er; lia |].
    split; [intros _; lia | auto].
Qed.

Lemma revision_taken l n : revisions_ok l -> 1 <= n <= llen l -> existsb (fun r => bar_Revision r =? n) l = true.
Proof.
  intros Hl Hn. destruct (lookup_lt_is_Some_2 l (Z.to_nat (n - 1))) as [b Hb]; [unfold llen in Hn; lia |].
  apply existsb_exists. exists b. split; [apply list_elem_of_In; by apply (list_elem_of_lookup_2 _ _ _ Hb) |].
  apply Z.eqb_eq. destruct (Hl _ _ Hb) as [-> _]. lia.
Qed.

(** ** The statements *)
Lemma scanMarketBar_ok row b : scanMarketBar row = Ok b -> bar_Revision b = bar_Revision row /\ bar_RawHash b = bar_RawHash row.
Proof.
  unfold scanMarketBar, NewStoredBar. intros H. do 6 (apply rbind_ok in H as (? & _ & H)).
  apply rbind_ok in H as (c & Hc & H). apply NewBar_ok in Hc as [-> _]. destruct (_ <=? 0) in H; [discriminate |]. injection H as <-. auto.
Qed.

Context {L : PgLaws P}.

Definition interval_ok (b : Bar) : Prop := ParseBarInterval (bar_Interval b) = Ok (bar_Interval b).

Lemma bar_row_ok b row : interval_ok b -> bar_row b = Ok row ->
  bar_key row = series_key b /\ bar_Revision row = bar_Revision b /\ bar_IsCurrent row = bar_IsCurrent b.
Proof.
  intros Hi H. unfold bar_row in H. apply rbind_ok in H as (interval & E1 & H). apply rbind_ok in H as (n & E2 & H).
  do 9 (apply rbind_ok in H as (? & _ & H)). injection H as <-. unfold bar_key, series_key. simpl.
  assert (n = bar_Revision b) as -> by (unfold pg_int4 in E2; destruct (negb _) in E2; [discriminate | by injection E2]).
  rewrite (pg_varchar_exact _ _ _ E1); [auto |]. unfold interval_ok, ParseBarInterval in Hi.
  destruct (String.eqb_spec (bar_Interval b) BarInterval1Hour) as [-> | _]; [vm_compute; discriminate |].
  destruct (String.eqb_spec (bar_Interval b) BarInterval1Day) as [-> | _]; [vm_compute; discriminate | discriminate Hi].
Qed.

(** The insertion of the next revision of a series. *)
Lemma insert_bar_row_ok b l d u d' : interval_ok b -> default [] (db_bars d !! series_key b) = l ->
  insert_bar_row b d = Ok (u, d') -> exists row, bar_row b = Ok row /\ bar_key row = series_key b /\
    existsb (fun r => bar_Revision r =? bar_Revision b) l = false /\ d' = set_bars <[series_key b := l ++ [row]]> d.
Proof.
  intros Hi Hl H. unfold insert_bar_row in H. apply rbind_ok in H as (row & Hrow & H). apply rbind_ok in H as ([] & _ & H).
  destruct (bar_row_ok b row Hi Hrow) as (Ek & Er & _). rewrite Ek, Er, Hl in H. cbv zeta in H.
  destruct (existsb _ l) eqn:E in H; [discriminate |]. inv_ok. subst. eauto 10.
Qed.

(** ** The write *)
(** Either the current revision has the hash of the bar and nothing changes, or
    the revisions are retired and the bar is the next one. *)
Definition revision_written (bar : Bar) (d : DB) (e : TxEnd MarketBarWriteResult) (d' : DB) : Prop :=
  let old := series bar d in
  (exists current, last old = Some current /\ bar_RawHash current = bar_RawHash bar /\ bar_RawHash bar <> EmptyString /\
     e = RolledBack (mkMarketBarWriteResult false (llen old)) /\ d' = d) \/
  (exists row, e = Committed (mkMarketBarWriteResult true (llen old + 1)) /\ bar_key row = series_key bar /\
     bar_row (bar_with_storage bar (llen old + 1) true (bar_Metadata bar)) = Ok row /\
     d' = set_bars <[series_key bar := map retire old ++ [row]]> d).

Lemma write_revision_spec check (db : forall A, string -> M PG A -> M PG A) bar w e w' :
  (forall A text (c : M PG A) w0 a w1, db A text c w0 = (Ok a, w1) -> c w0 = (Ok a, w1)) ->
  bars_inv (pg_db w) -> interval_ok bar -> write_revision check db bar w = (Ok e, w') -> revision_written bar (pg_db w) e (pg_db w').
Proof.
  intros Hdb Hb Hi H. destruct (series_inv (pg_db w) bar Hb) as [Hl _]. pose proof (find_current _ Hl) as Hf.
  unfold write_revision in H. apply mbind_ok in H as (loaded & w1 & Hload & H). apply query_tried in Hload as [E1 Hload]. cbv zeta in H.
  destruct loaded as [current|er|]; [| | discriminate].
  - (* a current revision *)
    destruct Hload as [Hload | (d & [=])]. unfold loadCurrentMarketBar in Hload.
    destruct (List.find bar_IsCurrent (series bar (pg_db w))) as [row|]; [| discriminate]. destruct Hf as [Hlast Hrev].
    apply scanMarketBar_ok in Hload as [Er Eh]. rewrite Hrev in Er.
    destruct (_ && _) eqn:Same in H.
    + injection H as <- <-. apply andb_true_iff in Same as [Hne%negb_true_iff%String.eqb_neq Heq%String.eqb_eq].
      left. exists row. rewrite Er, E1. by rewrite <- Eh.
    + apply mbind_ok in H as (n & w2 & Hclose & H). apply Hdb, exec_tx_ok in Hclose.
      destruct (check && _) in H; [discriminate |]. apply mbind_ok in H as ([] & w3 & Hins & H). injection H as <- <-.
      apply Hdb, exec_tx_ok in Hins. unfold close_current in Hclose. injection Hclose as _ E2. rewrite E1, Er in E2.
      pose proof (retire_all _ Hl) as R. unfold retire at 1 in R. rewrite R in E2.
      apply (insert_bar_row_ok (bar_with_storage bar (bar_Revision current + 1) true (bar_Metadata bar)) (map retire (series bar (pg_db w)))) in Hins
        as (r & Hr & Ek & _ & E3); [| exact Hi | rewrite <- E2; simpl; by rewrite lookup_insert_eq].
      right. exists r. rewrite Er in *. split; [reflexivity |]. split; [exact Ek |]. split; [exact Hr |].
      rewrite E3, <- E2. unfold set_bars. simpl. f_equal. apply insert_insert_eq.
  - destruct (errors_Is er ErrNoRows) eqn:No; [| apply Hdb in H; discriminate].
    apply mbind_ok in H as ([] & w3 & Hins & H). injection H as <- <-. apply Hdb, exec_tx_ok in Hins. rewrite E1 in Hins.
    apply (insert_bar_row_ok (bar_with_storage bar 1 true (bar_Metadata bar)) (series bar (pg_db w))) in Hins
      as (r & Hr & Ek & Hfree & E3); [| exact Hi | reflexivity].
    assert (series bar (pg_db w) = []) as Enil.
    { destruct (series bar (pg_db w)) as [|x l] eqn:E; [reflexivity |]. exfalso.
      change (existsb (fun r => bar_Revision r =? 1) (x :: l) = false) in Hfree. rewrite (revision_taken (x :: l) 1 Hl) in Hfree; [discriminate |].
      unfold llen. simpl. lia. }
    right. exists r. rewrite Enil in *. by repeat split.
Qed.

Lemma revision_written_inv bar d e d' : bars_inv d -> interval_ok bar -> revision_written bar d e d' -> bars_inv d'.
Proof.
  intros Hb Hi [(c & _ & _ & _ & _ & ->) | (row & _ & Ek & Hrow & ->)]; [exact Hb |]. destruct (series_inv d bar Hb) as [Hl Hk].
  destruct (bar_row_ok (bar_with_storage bar _ _ _) row Hi Hrow) as (_ & Er & Ec). intros key l Hl'. simpl in Hl'. apply lookup_insert_Some in Hl' as [[<- <-] | [Hne Hl']]; [| by apply Hb].
  split; [| split].
  - intros E. by apply app_eq_nil in E as [_ [=]].
  - by apply revisions_next.
  - apply Forall_app. split; [| by constructor]. apply Forall_map. eapply Forall_impl; [exact Hk |]. intros r Hr. exact Hr.
Qed.
End Revisions.

(** * All or nothing

    An operation in a transaction has the effect it has without driver faults,
    or none at all, whatever the driver reports and whenever. *)
Section Atomicity.
Context `{D : DecimalLib} `{T : TzLib} `{U : UUIDLib} `{P : !PgLib}.

(** The same tables, and no fault to come. *)
Definition calm (w : PG) : PG := mkPG (pg_db w) [].

(** ** Faults only make an operation fail *)
Definition honest {A} (c : M PG A) : Prop := forall w a w', c w = (Ok a, w') -> c (calm w) = (Ok a, calm w').
(** Of any outcome but the driver's. *)
Definition faithful {A} (c : M PG A) : Prop := forall w r w', c w = (r, w') -> (exists d, r = Err (Driver d)) \/ c (calm w) = (r, calm w').

Lemma honest_bind {A B} (c : M PG A) (k : A -> M PG B) : honest c -> (forall a, honest (k a)) -> honest (mbind c k).
Proof. intros Hc Hk w b w' (a & w1 & E1 & E2)%mbind_ok. unfold mbind. rewrite (Hc _ _ _ E1). by apply Hk. Qed.
Lemma honest_throw {A} e : honest (@mthrow PG A e).
Proof. intros w a w' [=]. Qed.
Lemma honest_ret {A} (a : A) : honest (@mret PG A a).
Proof. by intros w b w' [= <- <-]. Qed.
Lemma honest_lift {A} (r : result A) : honest (@mlift PG A r).
Proof. by intros w a w' [-> ->]%mlift_ok. Qed.
Lemma honest_failif {A} (b : bool) e (k : M PG A) : honest k -> honest (mfailif b , e ;; k).
Proof. by destruct b; [intros _; apply honest_throw |]. Qed.
Lemma honest_mwrap {A} text (c : M PG A) : honest c -> honest (mwrap text c).
Proof. intros Hc w a w' E%mwrap_ok. unfold mwrap. by rewrite (Hc _ _ _ E). Qed.
Lemma honest_mwrap_db {A} text (c : M PG A) : honest c -> honest (mwrap_db text c).
Proof. intros Hc w a w' H. unfold mwrap_db in *. destruct (c w) as [[b|e|] w1] eqn:E; try discriminate. injection H as -> ->. by rewrite (Hc _ _ _ E). Qed.
Lemma honest_mmap_db {A} text (c : M PG A) : honest c -> honest (mmap_db text c).
Proof. intros Hc w a w' H. unfold mmap_db in *. destruct (c w) as [[b|e|] w1] eqn:E; try discriminate. injection H as -> ->. by rewrite (Hc _ _ _ E). Qed.

Lemma run_sql_calm {A} (s : DB -> result (A * DB)) w r w' : run_sql s w = (r, w') -> run_sql s (calm w) = (r, calm w').
Proof. unfold run_sql. simpl. destruct (s (pg_db w)) as [[a d]|e|]; intros [= <- <-]; reflexivity. Qed.
Lemma faithful_exec_tx {A} (s : DB -> result (A * DB)) : faithful (exec_tx s).
Proof.
  intros w r w' H. unfold exec_tx in *. destruct (next_fault w) as [[|d ap] w1] eqn:E; apply next_fault_db in E.
  - right. assert (calm w1 = calm w) as Ew by (unfold calm; by rewrite E). apply run_sql_calm in H. by rewrite Ew in H.
  - left. injection H as <- <-. eauto.
Qed.
Lemma honest_faithful {A} (c : M PG A) : faithful c -> honest c.
Proof. intros Hc w a w' E. by destruct (Hc _ _ _ E) as [[d [=]] |]. Qed.
Lemma honest_exec_tx {A} (s : DB -> result (A * DB)) : honest (exec_tx s).
Proof. apply honest_faithful, faithful_exec_tx. Qed.

(** An outcome that is inspected: a failure of the driver ends the operation. *)
Lemma honest_try {A B} (c : M PG A) (k : result A -> M PG B) : faithful c -> (forall r, honest (k r)) ->
  (forall d w b w', k (Err (Driver d)) w <> (Ok b, w')) -> honest (mbind (mtry c) k).
Proof.
  intros Hc Hk Hd w b w' (r & w1 & [E1 N]%mtry_ok & E2)%mbind_ok. destruct (Hc _ _ _ E1) as [[d ->] | E]; [by apply Hd in E2 |].
  unfold mbind, mtry. rewrite E. apply Hk in E2. by destruct r.
Qed.
Lemma honest_lock_row {A} missing text (q : DB -> result A) : honest (lock_row missing text q).
Proof.
  apply honest_try; [apply faithful_exec_tx | |].
  - intros [a|e|]; [apply honest_ret | destruct (errors_Is e ErrNoRows); apply honest_throw | apply honest_lift].
  - intros d w b w' [=].
Qed.
Lemma honest_each {A} (f : A -> M PG unit) l : (forall x, honest (f x)) -> honest (each f l).
Proof. intros Hf. induction l as [|x l IH]; simpl; [apply honest_ret | by apply honest_bind]. Qed.

(** ** Transactions *)
(** The effect of the operation without faults, whose success may go
    unreported, or an error and no effect. *)
Definition atomic {A} (c : M PG A) : Prop := forall w r w', c w = (r, w') ->
  (exists a, c (calm w) = (Ok a, calm w') /\ (r = Ok a \/ is_err r = true)) \/ (is_ok r = false /\ pg_db w' = pg_db w).

Lemma atomic_transaction {A} bt ct (body : M PG (TxEnd A)) : honest body -> atomic (transaction bt ct body).
Proof.
  intros Hb w r w' H. unfold transaction in *. destruct (next_fault w) as [[|d ap] w0] eqn:E; apply next_fault_db in E;
    [| right; injection H as <- <-; by split].
  assert (next_fault (calm w) = (NoFault, calm w0)) as -> by (unfold calm; by rewrite E).
  destruct (body w0) as [[[a|a]|e|] w1] eqn:Eb; try (right; injection H as <- <-; by split).
  - apply Hb in Eb. rewrite Eb. destruct (next_fault w1) as [[|d ap] w2] eqn:E2; apply next_fault_db in E2.
    + left. injection H as <- <-. exists a. unfold calm. rewrite E2. simpl. auto.
    + injection H as <- <-. destruct ap; [| right; by split]. left. exists a. unfold calm. rewrite E2. simpl. auto.
  - left. injection H as <- <-. apply Hb in Eb. rewrite Eb. exists a. auto.
Qed.
Lemma atomic_lift {A B} (c : result A) (k : A -> M PG B) : (forall a, atomic (k a)) -> atomic (mbind (mlift c) k).
Proof.
  intros Hk w r w' H. unfold mbind, mlift in *. destruct c as [a|e|]; [by apply Hk | |]; right; injection H as <- <-; by split.
Qed.
Lemma atomic_failif {A} (b : bool) e (k : M PG A) : atomic k -> atomic (mfailif b , e ;; k).
Proof. destruct b; [| auto]. intros _ w r w' [= <- <-]. right. by split. Qed.
End Atomicity.

(** [honest] walks along the body of a transaction. *)
Ltac honest_step :=
  match goal with
  | |- honest (if _ then mthrow _ else _) => apply honest_failif
  | |- honest (mthrow _) => apply honest_throw
  | |- honest (mret _) => apply honest_ret
  | |- honest (mlift _) => apply honest_lift
  | |- honest (mwrap_db _ _) => apply honest_mwrap_db
  | |- honest (mmap_db _ _) => apply honest_mmap_db
  | |- honest (mwrap _ _) => apply honest_mwrap
  | |- honest (lock_row _ _ _) => apply honest_lock_row
  | |- honest (query _) => apply honest_exec_tx
  | |- honest (exec_tx _) => apply honest_exec_tx
  | |- honest (each _ _) => apply honest_each; intros ?
  | |- honest (mbind (mtry _) _) => apply honest_try; [apply faithful_exec_tx | intros ? | intros ? ? ? ? [=]]
  | |- honest (mbind _ _) => apply honest_bind; [| intros ?]
  | |- honest (let '_ := ?p in _) => destruct p
  | |- honest (match ?x with _ => _ end) => destruct x
  end.
Ltac atomic_step :=
  match goal with
  | |- atomic (mbind (mlift _) _) => apply atomic_lift; intros ?
  | |- atomic (if _ then mthrow _ else _) => apply atomic_failif
  | |- atomic (transaction _ _ _) => apply atomic_transaction
  end.
Ltac all_or_nothing := cbv zeta; repeat atomic_step; repeat (cbv zeta; honest_step).

Section Operations.
Context `{D : DecimalLib} `{T : TzLib} `{U : UUIDLib} `{P : !PgLib}.

(** C4. The transactional operations are all-or-nothing: under any sequence
    of driver faults, [CommitSuccess] with its bars, issues, checkpoint and
    task, [CommitFailure], the creations of runs with their tasks, the
    cancellations and [WriteMarketBar] either leave the tables as they were, or
    as the same call leaves them when no fault occurs, even when the driver
    loses the answer of the commit. *)
Theorem transactions_atomic :
  (forall c, atomic (repo_CommitSuccess c)) /\ (forall c, atomic (repo_CommitFailure c)) /\
  (forall run task, atomic (repo_CreateRunWithTask run task)) /\ (forall batch, atomic (repo_CreateScheduledBatch batch)) /\
  (forall run task, atomic (repo_CreateBackfillRunWithTask run task)) /\ (forall c, atomic (repo_CreateManualRetry c)) /\
  (forall id by_ reason now, atomic (repo_CancelTask id by_ reason now)) /\
  (forall id audit now, atomic (repo_CancelTaskWithAudit id audit now)) /\ (forall b, atomic (repo_WriteMarketBar b)).
Proof.
  repeat split; intros.
  - unfold repo_CommitSuccess, lockAndValidateTaskClaim, openQualityIssue, writeMarketBarInTransaction, write_revision. all_or_nothing.
  - unfold repo_CommitFailure, lockAndValidateFailureClaim. all_or_nothing.
  - unfold repo_CreateRunWithTask. all_or_nothing.
  - unfold repo_CreateScheduledBatch, equivalentScheduledBatch. all_or_nothing.
  - unfold repo_CreateBackfillRunWithTask. all_or_nothing.
  - unfold repo_CreateManualRetry. all_or_nothing. destruct (manualRetryUniqueViolation _); discriminate.
  - unfold repo_CancelTask. all_or_nothing.
  - unfold repo_CancelTaskWithAudit. all_or_nothing.
  - unfold repo_WriteMarketBar, write_revision. all_or_nothing.
Qed.
End Operations.
