(* ===== verification/Lifecycle.v ===== *)
(** * The life of the ingestion tasks

    The invariants of the ingestion tables, how a task row may evolve, and the
    statements that keep both. *)
From S2P Require Import Prelude Errors GoStrings GoTime GoJson External Domain MarketData CatchUp Incremental Ports Ingestion Service IngestionFacts ManualTasks Database Statements Repository RepositoryFacts.
Open Scope go_scope.

(** ** Task rows *)
Definition terminal_status (status : string) : bool := contains_string ["success"; "failed"; "canceled"]%string status.
Definition waiting_status (status : string) : bool := contains_string ["pending"; "retry_wait"]%string status.

(** A well-formed task: attempts within the limit, and left, while it waits;
    a lease exactly while it runs; a next attempt exactly while it waits for a
    retry; a finish time exactly when it is over. *)
Record task_ok (t : IngestionTask) : Prop := {
  ok_status : terminal_status (task_Status t) = true \/ waiting_status (task_Status t) = true \/ task_Status t = "running"%string;
  ok_attempts : 0 <= task_AttemptCount t <= task_MaxAttempts t;
  ok_range : task_RangeStart t < task_RangeEnd t;
  ok_waiting : waiting_status (task_Status t) = true -> task_AttemptCount t < task_MaxAttempts t;
  ok_next : task_NextAttemptAt t <> None <-> task_Status t = "retry_wait"%string;
  ok_locked_by : task_LockedBy t <> None <-> task_Status t = "running"%string;
  ok_locked_until : task_LockedUntil t <> None <-> task_Status t = "running"%string;
  ok_running : task_Status t = "running"%string -> 1 <= task_AttemptCount t;
  ok_finished : task_FinishedAt t <> None <-> terminal_status (task_Status t) = true }.

(** How a row may evolve: its identity and work never change, attempts only
    grow, a finished task is never touched again, and an attempt that is over
    does not run again. *)
Record evolves (t u : IngestionTask) : Prop := {
  ev_id : task_ID u = task_ID t; ev_run : task_RunID u = task_RunID t; ev_sub : task_SubscriptionID u = task_SubscriptionID t;
  ev_start : task_RangeStart u = task_RangeStart t; ev_end : task_RangeEnd u = task_RangeEnd t;
  ev_max : task_MaxAttempts u = task_MaxAttempts t; ev_retry : task_RetryOfTaskID u = task_RetryOfTaskID t;
  ev_created : task_CreatedAt u = task_CreatedAt t;
  ev_attempts : task_AttemptCount t <= task_AttemptCount u;
  ev_terminal : terminal_status (task_Status t) = true -> u = t;
  ev_over : task_AttemptCount u = task_AttemptCount t -> task_Status t <> "running"%string -> task_Status u <> "running"%string }.

#[export] Instance evolves_preorder : PreOrder evolves.
Proof.
  split.
  - intros t. split; auto; lia.
  - intros t u v [A1 A2 A3 A4 A5 A6 A7 A8 A9 A10 A11] [B1 B2 B3 B4 B5 B6 B7 B8 B9 B10 B11].
    split; try congruence; [lia | |].
    + intros Ht. specialize (A10 Ht). subst u. by apply B10.
    + intros E Hr. assert (task_AttemptCount u = task_AttemptCount t) by lia. apply B11; [lia | by apply A11].
Qed.

(** ** The tables *)
Section Tables.
Context `{D : DecimalLib}.

(** The tasks are keyed by their ID, well formed, and belong to a run. *)
Definition tasks_inv (d : DB) : Prop := forall id t, db_tasks d !! id = Some t ->
  task_ID t = id /\ task_ok t /\ exists r, db_runs d !! task_RunID t = Some r.
(** The runs are keyed by their ID and have distinct run keys. *)
Definition runs_inv (d : DB) : Prop :=
  (forall id r, db_runs d !! id = Some r -> run_ID r = id) /\
  (forall id id' r r', db_runs d !! id = Some r -> db_runs d !! id' = Some r' -> run_RunKey r = run_RunKey r' -> id = id').
(** A task has at most one active successor. *)
Definition retries_inv (d : DB) : Prop := forall id id' t t' r, db_tasks d !! id = Some t -> db_tasks d !! id' = Some t' ->
  task_RetryOfTaskID t = Some r -> task_RetryOfTaskID t' = Some r ->
  task_active (task_Status t) = true -> task_active (task_Status t') = true -> id = id'.
Definition inv (d : DB) : Prop := tasks_inv d /\ runs_inv d /\ retries_inv d /\ bars_inv d.

(** The row of a task has evolved from [t]. *)
Definition has_evolved (t : IngestionTask) (d : DB) : Prop := exists u, db_tasks d !! task_ID t = Some u /\ evolves t u.
End Tables.

(** ** Transitions of a row *)
Lemma with_transition_fields t s a n b u st f up :
  let r := with_transition t s a n b u st f up in
  task_Status r = s /\ task_AttemptCount r = a /\ task_NextAttemptAt r = n /\ task_LockedBy r = b /\ task_LockedUntil r = u /\
  task_FinishedAt r = f /\ task_MaxAttempts r = task_MaxAttempts t /\ task_ID r = task_ID t.
Proof. repeat split. Qed.

Lemma waiting_not_running s : waiting_status s = true -> s <> "running"%string.
Proof. intros H ->. discriminate. Qed.
Lemma terminal_not_running s : terminal_status s = true -> s <> "running"%string.
Proof. intros H ->. discriminate. Qed.
Lemma terminal_not_waiting s : terminal_status s = true -> waiting_status s = false.
Proof.
  intros H%contains_string_In. simpl in H. by destruct H as [<- | [<- | [<- | []]]].
Qed.
Lemma active_not_terminal s : task_active s = true -> terminal_status s = false.
Proof.
  intros H%contains_string_In. simpl in H. by destruct H as [<- | [<- | [<- | []]]].
Qed.

(** ** The statements keep the invariants *)
Section Keep.
Context `{D : DecimalLib} `{P : !PgLib}.

(** The tables are well formed and every task of [ts] has evolved. *)
Definition life (ts : list IngestionTask) (d : DB) : Prop := inv d /\ Forall (fun t => has_evolved t d) ts.

Lemma life_tasks ts d d' : life ts d -> db_runs d' = db_runs d -> db_bars d' = db_bars d ->
  tasks_inv d' -> retries_inv d' ->
  (forall id t, db_tasks d !! id = Some t -> exists u, db_tasks d' !! id = Some u /\ evolves t u) -> life ts d'.
Proof.
  intros [(Ht & Hr & Ha & Hb) He] Er Eb Ht' Ha' Hev. split.
  - split; [exact Ht' |]. unfold runs_inv, bars_inv in *. rewrite Er, Eb. auto.
  - eapply Forall_impl; [exact He |]. intros t (u & Hu & Etu). destruct (Hev _ _ Hu) as (v & Hv & Euv).
    exists v. split; [exact Hv |]. by transitivity u.
Qed.

Lemma life_set_task ts d id t r : life ts d -> db_tasks d !! id = Some t -> evolves t r -> task_ok r ->
  (task_active (task_Status r) = true -> task_active (task_Status t) = true) ->
  life ts (set_tasks <[id := r]> d).
Proof.
  intros HL Et Ev Hok Hact. pose proof HL as [(Ht & Hr & Ha & Hb) _].
  assert (forall i u, <[id := r]> (db_tasks d) !! i = Some u ->
    exists v, db_tasks d !! i = Some v /\ evolves v u /\ task_ok u /\ (task_active (task_Status u) = true -> task_active (task_Status v) = true)) as Hback.
  { intros i u Hi. apply lookup_insert_Some in Hi as [[<- <-] | [Hne Hi]]; [by exists t |].
    exists u. split; [exact Hi |]. split; [reflexivity |]. split; [by apply (Ht i) | auto]. }
  apply (life_tasks ts d); try reflexivity; try assumption; simpl.
  - intros i u Hi. destruct (Hback i u Hi) as (v & Hv & Evu & Hu & _). destruct (Ht i v Hv) as (Ei & _ & run & Hrun).
    split; [by rewrite (ev_id _ _ Evu) |]. split; [exact Hu |]. exists run. by rewrite (ev_run _ _ Evu).
  - intros i j u v q Hi Hj Hq Hq' Hu Hv. simpl in Hi, Hj. destruct (Hback i u Hi) as (u0 & Hu0 & Eu & _ & Au), (Hback j v Hj) as (v0 & Hv0 & Ev0 & _ & Av).
    apply (Ha i j u0 v0 q Hu0 Hv0); [rewrite <- (ev_retry _ _ Eu) | rewrite <- (ev_retry _ _ Ev0) | |]; auto.
  - intros i u Hi. destruct (decide (i = id)) as [->|Hne].
    + rewrite lookup_insert_eq. exists r. split; [reflexivity |]. congruence.
    + rewrite lookup_insert_ne by congruence. exists u. split; [exact Hi | reflexivity].
Qed.

Lemma life_map_tasks ts d f : life ts d ->
  (forall t, task_ok t -> evolves t (f t) /\ task_ok (f t) /\ (task_active (task_Status (f t)) = true -> task_active (task_Status t) = true)) ->
  life ts (set_tasks (fun m => f <$> m) d).
Proof.
  intros HL Hf. pose proof HL as [(Ht & Hr & Ha & Hb) _].
  apply (life_tasks ts d); try reflexivity; try assumption; simpl.
  - intros i u Hi. simpl in Hi. apply lookup_fmap_Some in Hi as (t & <- & Hi). destruct (Ht i t Hi) as (Ei & Hok & run & Hrun).
    destruct (Hf t Hok) as (Ev & Hok' & _). rewrite (ev_id _ _ Ev), (ev_run _ _ Ev). eauto.
  - intros i j u v q Hi Hj Hq Hq' Hu Hv. simpl in Hi, Hj.
    apply lookup_fmap_Some in Hi as (t & <- & Hi). apply lookup_fmap_Some in Hj as (t' & <- & Hj).
    destruct (Hf t (proj1 (proj2 (Ht i t Hi)))) as (Ev & _ & A), (Hf t' (proj1 (proj2 (Ht j t' Hj)))) as (Ev' & _ & A').
    apply (Ha i j t t' q Hi Hj); [rewrite <- (ev_retry _ _ Ev) | rewrite <- (ev_retry _ _ Ev') | |]; auto.
  - intros i t Hi. exists (f t). split; [by rewrite lookup_fmap, Hi |]. by apply Hf, (Ht i).
Qed.

Lemma rows_In {K A} `{Countable K} (m : gmap K A) x : In x (rows m) <-> exists k, m !! k = Some x.
Proof.
  unfold rows. rewrite in_map_iff. split.
  - intros ((k & y) & <- & Hin). exists k. apply list_elem_of_In, elem_of_map_to_list in Hin. exact Hin.
  - intros (k & Hk). exists (k, x). split; [reflexivity |]. by apply list_elem_of_In, elem_of_map_to_list.
Qed.

Lemma existsb_rows_false {K A} `{Countable K} (f : A -> bool) (m : gmap K A) k x :
  existsb f (rows m) = false -> m !! k = Some x -> f x = false.
Proof.
  intros He Hk. destruct (f x) eqn:E; [| reflexivity]. rewrite <- He. symmetry. apply existsb_exists.
  exists x. split; [| exact E]. apply rows_In. by exists k.
Qed.

Lemma life_insert_task ts d r : life ts d -> db_tasks d !! task_ID r = None -> task_ok r ->
  (exists run, db_runs d !! task_RunID r = Some run) -> existsb (same_active_retry r) (rows (db_tasks d)) = false ->
  life ts (set_tasks <[task_ID r := r]> d).
Proof.
  intros HL Hn Hok Hrun Hu. pose proof HL as [(Ht & Hr & Ha & Hb) _].
  assert (forall i t q, db_tasks d !! i = Some t -> task_RetryOfTaskID r = Some q -> task_RetryOfTaskID t = Some q ->
    task_active (task_Status r) = true -> task_active (task_Status t) = true -> False) as Hno.
  { intros i t q Hi Eq Eq' A A'. pose proof (existsb_rows_false _ _ _ _ Hu Hi) as F. unfold same_active_retry in F.
    rewrite A, A', Eq, Eq' in F. simpl in F. by rewrite N.eqb_refl in F. }
  apply (life_tasks ts d); try reflexivity; try assumption; simpl.
  - intros i u Hi. simpl in Hi. apply lookup_insert_Some in Hi as [[<- <-] | [Hne Hi]]; [by split; [| split] | by apply Ht].
  - intros i j u v q Hi Hj Hq Hq' Hu' Hv. simpl in Hi, Hj.
    apply lookup_insert_Some in Hi, Hj. destruct Hi as [[<- <-] | [Hne Hi]], Hj as [[Ej <-] | [Hne' Hj]].
    + exact Ej.
    + exfalso. by apply (Hno j v q).
    + exfalso. by apply (Hno i u q).
    + by apply (Ha i j u v q).
  - intros i t Hi. exists t. split; [| reflexivity]. rewrite lookup_insert_ne; [exact Hi |]. congruence.
Qed.

Lemma life_set_runs ts d id r : life ts d -> run_ID r = id ->
  (forall id' r', db_runs d !! id' = Some r' -> run_RunKey r' = run_RunKey r -> id' = id) ->
  life ts (set_runs <[id := r]> d).
Proof.
  intros [(Ht & [Hk Hu] & Ha & Hb) He] Ei Hkey. split; [| exact He].
  split; [| split; [split | split; [exact Ha | exact Hb]]].
  - intros i t Hi. destruct (Ht i t Hi) as (Eit & Hok & run & Hrun). split; [exact Eit |]. split; [exact Hok |]. simpl. destruct (decide (task_RunID t = id)) as [<-|Hne].
    + exists r. apply lookup_insert_eq.
    + exists run. by rewrite lookup_insert_ne by congruence.
  - intros i r' Hi. simpl in Hi. apply lookup_insert_Some in Hi as [[<- <-] | [_ Hi]]; [exact Ei | by apply Hk].
  - intros i j r1 r2 Hi Hj E. simpl in Hi, Hj. apply lookup_insert_Some in Hi, Hj. destruct Hi as [[<- <-] | [Hne Hi]], Hj as [[<- <-] | [Hne' Hj]].
    + reflexivity.
    + symmetry. by apply (Hkey j r2).
    + by apply (Hkey i r1).
    + by apply (Hu i j r1 r2).
Qed.

(** *** Runs *)
Lemma has_run_key_false d key id r : has_run_key d key = false -> db_runs d !! id = Some r -> run_RunKey r <> key.
Proof. intros Hk Hr. pose proof (existsb_rows_false _ _ _ _ Hk Hr) as F. by apply String.eqb_neq. Qed.

Lemma insert_run_inserted c run d d' : insert_run c run d = Ok (true, d') ->
  exists row, run_row run = Ok row /\ db_runs d !! run_ID run = None /\ has_run_key d (run_RunKey row) = false /\
              run_checks row = Ok tt /\ d' = set_runs <[run_ID run := row]> d.
Proof.
  unfold insert_run. intros H. apply rbind_ok in H as (row & Hrow & H). apply rbind_ok in H as ([] & Hc & H).
  assert (run_ID row = run_ID run) as Ei by (unfold run_row in Hrow; inv_ok; reflexivity).
  destruct (c && _); [discriminate |]. destruct (not_nil _) eqn:N in H; [discriminate |]. apply not_nil_false in N.
  destruct (has_run_key d (run_RunKey row)) eqn:K; [discriminate |]. injection H as <-. rewrite Ei in *. eauto 10.
Qed.

Lemma keep_insert_run ts c run : stmt_keeps (life ts) (insert_run c run).
Proof.
  intros d [] d' HL H.
  - apply insert_run_inserted in H as (row & Hrow & Hn & Hk & _ & ->).
    apply life_set_runs; [exact HL | unfold run_row in Hrow; inv_ok; reflexivity |].
    intros id' r' Hr' E. exfalso. by apply (has_run_key_false _ _ _ _ Hk Hr').
  - unfold insert_run in H. apply rbind_ok in H as (row & _ & H). apply rbind_ok in H as ([] & _ & H).
    destruct (c && _); [injection H as <-; exact HL |]. destruct (not_nil _) in H; [discriminate |].
    destruct (has_run_key _ _) in H; discriminate.
Qed.

(** An update of a run that keeps its identity and key. *)
Lemma life_update_run ts d id r r' : life ts d -> db_runs d !! id = Some r -> run_ID r' = run_ID r -> run_RunKey r' = run_RunKey r ->
  life ts (set_runs <[id := r']> d).
Proof.
  intros HL Er Ei Ek. pose proof HL as [(_ & [Hk Hu] & _) _]. apply life_set_runs; [exact HL | rewrite Ei; by apply Hk |].
  intros j rj Hj E. apply (Hu j id rj r Hj Er). congruence.
Qed.
Lemma keep_save_summary ts s : stmt_keeps (life ts) (save_summary s).
Proof.
  intros d n d' HL H. unfold save_summary in H. destruct (db_runs d !! _) as [r|] eqn:Er; [| inv_ok; subst; exact HL].
  destruct (summary_current s d); [| inv_ok; subst; exact HL]. inv_ok. subst. by apply (life_update_run ts d _ r).
Qed.
Lemma keep_append_operation ts j id : stmt_keeps (life ts) (append_operation j id).
Proof.
  intros d n d' HL H. unfold append_operation in H. destruct (db_runs d !! _) as [r|] eqn:Er; [| inv_ok; subst; exact HL].
  inv_ok. subst. by apply (life_update_run ts d _ r).
Qed.

(** *** Tasks *)
(** A new task as the services create it. *)
Definition new_task (t : IngestionTask) : Prop :=
  task_Status t = "pending"%string /\ task_AttemptCount t = 0 /\ task_NextAttemptAt t = None /\ task_LockedBy t = None /\
  task_LockedUntil t = None /\ task_FinishedAt t = None.

Lemma insert_task_inserted task d u d' : insert_task task d = Ok (u, d') ->
  exists row, task_row task = Ok row /\ task_checks row = Ok tt /\ db_tasks d !! task_ID task = None /\
    existsb (same_active_retry row) (rows (db_tasks d)) = false /\ (exists r, db_runs d !! task_RunID task = Some r) /\
    (exists s, db_subscriptions d !! task_SubscriptionID task = Some s) /\ d' = set_tasks <[task_ID task := row]> d.
Proof.
  unfold insert_task. intros H. apply rbind_ok in H as (row & Hrow & H). apply rbind_ok in H as ([] & Hc & H).
  assert (task_ID row = task_ID task /\ task_RunID row = task_RunID task /\ task_SubscriptionID row = task_SubscriptionID task) as (E1 & E2 & E3)
    by (unfold task_row in Hrow; inv_ok; auto).
  rewrite E1, E2, E3 in H. inv_ok. subst. bsimp.
  exists row. repeat (split; [eassumption |]). reflexivity.
Qed.

Lemma task_checks_ok t : task_checks t = Ok tt ->
  task_RangeStart t < task_RangeEnd t /\ 0 <= task_AttemptCount t /\ 0 < task_MaxAttempts t /\
  (terminal_status (task_Status t) = true \/ waiting_status (task_Status t) = true \/ task_Status t = "running"%string).
Proof.
  unfold task_checks. intros H. destruct (negb (_ <? _)) eqn:E1 in H; [discriminate |]. destruct (_ || _) eqn:E2 in H; [discriminate |].
  destruct (negb (contains_string _ _)) eqn:E3 in H; [discriminate |]. apply negb_false_iff, contains_string_In in E3. bsimp.
  split; [assumption |]. split; [assumption |]. split; [assumption |]. simpl in E3.
  destruct E3 as [<- | [<- | [<- | [<- | [<- | [<- | []]]]]]]; auto.
Qed.

Context {L : PgLaws P}.

Lemma new_task_row task row : new_task task -> task_row task = Ok row -> new_task row.
Proof.
  intros (H1 & H2 & H3 & H4 & H5 & H6) Hrow. unfold task_row in Hrow. rewrite H2, H3, H4, H5, H6 in Hrow. inv_ok.
  split; [| auto]. simpl. rewrite H1 in *. match goal with S : pg_varchar 16 "pending" = Ok ?s |- ?s = _ => apply (pg_varchar_exact _ _ _ S) end.
  vm_compute. discriminate.
Qed.

Lemma new_task_ok row : new_task row -> task_checks row = Ok tt -> task_ok row.
Proof.
  intros (H1 & H2 & H3 & H4 & H5 & H6) Hc. apply task_checks_ok in Hc as (Hr & Ha & Hm & Hs).
  split; rewrite ?H1, ?H2, ?H3, ?H4, ?H5, ?H6; simpl; try tauto; try lia; try (split; congruence); try discriminate; try exact Hr.
  - split; [congruence | intros E; exfalso; vm_compute in E; discriminate].
Qed.

Lemma keep_insert_task ts task : new_task task -> stmt_keeps (life ts) (insert_task task).
Proof.
  intros Hn d u d' HL H. apply insert_task_inserted in H as (row & Hrow & Hc & Hk & Hu & Hr & _ & ->).
  pose proof (new_task_row _ _ Hn Hrow) as Hn'.
  assert (task_ID row = task_ID task /\ task_RunID row = task_RunID task) as [E1 E2] by (unfold task_row in Hrow; inv_ok; auto).
  rewrite <- E1 in *. apply life_insert_task; try assumption; [by apply new_task_ok | by rewrite E2].
Qed.

(** *** Transitions *)
(** What a transition of one row must satisfy. *)
Definition advances (t r : IngestionTask) : Prop :=
  evolves t r /\ task_ok r /\ (task_active (task_Status r) = true -> task_active (task_Status t) = true).

Lemma keep_update_task ts id where_ set_ :
  (forall d t r, life ts d -> db_tasks d !! id = Some t -> task_ok t -> where_ t = true -> set_ t = Ok r -> task_checks r = Ok tt ->
     advances t r) -> stmt_keeps (life ts) (update_task id where_ set_).
Proof.
  intros Hset d n d' HL H. unfold update_task in H. destruct (db_tasks d !! id) as [t|] eqn:Et; [| by injection H as _ <-].
  destruct (where_ t) eqn:W; [| by injection H as _ <-]. apply rbind_ok in H as (r & Er & H).
  apply rbind_ok in H as ([] & Hc & H). injection H as _ <-. pose proof HL as [(Ht & _) _].
  destruct (Hset d t r HL Et (proj1 (proj2 (Ht id t Et))) W Er Hc) as (Hev & Hok & Hact). by apply (life_set_task ts d id t r).
Qed.

(** The end of an active row. *)
Lemma terminal_advances t s f up r : task_ok t -> task_active (task_Status t) = true -> terminal_status s = true -> f <> None ->
  task_Status r = s -> task_FinishedAt r = f -> task_AttemptCount r = task_AttemptCount t -> task_NextAttemptAt r = None ->
  task_LockedBy r = None -> task_LockedUntil r = None -> task_UpdatedAt r = up ->
  task_ID r = task_ID t -> task_RunID r = task_RunID t -> task_SubscriptionID r = task_SubscriptionID t ->
  task_RangeStart r = task_RangeStart t -> task_RangeEnd r = task_RangeEnd t -> task_MaxAttempts r = task_MaxAttempts t ->
  task_RetryOfTaskID r = task_RetryOfTaskID t -> task_CreatedAt r = task_CreatedAt t -> advances t r.
Proof.
  intros Hok Hact Hs Hf Es Ef Ea En Eb Eu _ E1 E2 E3 E4 E5 E6 E7 E8. pose proof (terminal_not_running s Hs) as Hnr.
  pose proof (terminal_not_waiting s Hs) as Hnw. pose proof (active_not_terminal _ Hact) as Hnt. split; [| split].
  - split; try congruence; lia.
  - split; rewrite ?Es, ?Ef, ?Ea, ?En, ?Eb, ?Eu, ?E4, ?E5, ?E6; try (by intros; congruence).
    + by left.
    + apply (ok_attempts _ Hok).
    + apply (ok_range _ Hok).
    + split; [congruence | intros ->; discriminate].
    + split; congruence.
    + split; congruence.
    + split; auto.
  - intros _. exact Hact.
Qed.

Lemma cancel_advances by_ reason now t r : task_ok t -> task_active (task_Status t) = true -> cancel_row by_ reason now t = Ok r -> advances t r.
Proof.
  intros Hok Hact H. unfold cancel_row in H. apply rbind_ok in H as (b & _ & H). apply rbind_ok in H as (z & _ & H). injection H as <-.
  eapply (terminal_advances t "canceled"); try reflexivity; first [assumption | discriminate].
Qed.
Lemma success_advances at_ t r : task_ok t -> task_Status t = "running"%string -> success_row at_ t = Ok r -> advances t r.
Proof. intros Hok Hr [= <-]. eapply (terminal_advances t "success"); try reflexivity; first [assumption | discriminate | by rewrite Hr]. Qed.

Lemma recover_advances now t : task_ok t -> task_Status t = "running"%string -> advances t (recover_task now t).
Proof.
  intros Hok Hr. pose proof (ok_running _ Hok Hr) as Hpos. pose proof (ok_attempts _ Hok) as Ha. unfold recover_task.
  destruct (Z.leb_spec (task_MaxAttempts t) (task_AttemptCount t)) as [Hle|Hlt].
  - eapply (terminal_advances t "failed"); try reflexivity; first [assumption | discriminate | by rewrite Hr].
  - split; [| split]; [| | by rewrite Hr].
    + split; simpl; rewrite ?Hr; try reflexivity; try discriminate.
    + split; simpl; try (by split); try discriminate; try (by left); try apply (ok_range _ Hok); try lia.
      right. by left.
Qed.

(** The end of a failed attempt, which may retry only while attempts remain. *)
Lemma failure_advances c t r : task_ok t -> task_Status t = "running"%string -> failure_row c t = Ok r ->
  fail_Status c = "failed"%string \/ fail_Status c = "retry_wait"%string /\ task_AttemptCount t < task_MaxAttempts t ->
  (fail_Status c = "retry_wait"%string <-> fail_NextAttemptAt c <> None) -> advances t r.
Proof.
  intros Hok Hr H Hs Hn. pose proof (ok_attempts _ Hok) as Ha. unfold failure_row in H. apply rbind_ok in H as (st & Est & H). inv_ok.
  assert (st = fail_Status c) as -> by (apply (pg_varchar_exact _ _ _ Est); destruct Hs as [-> | [-> _]]; vm_compute; discriminate).
  destruct Hs as [Es | [Es Hlt]].
  - assert (fail_NextAttemptAt c = None) as ->.
    { destruct (fail_NextAttemptAt c) eqn:E; [| reflexivity]. exfalso. assert (fail_Status c = "retry_wait"%string) by (apply Hn; congruence). congruence. }
    rewrite Es. eapply (terminal_advances t "failed"); try reflexivity; first [assumption | discriminate | by rewrite Hr].
  - assert (exists n, fail_NextAttemptAt c = Some n) as (n & ->).
    { destruct (fail_NextAttemptAt c) eqn:E; [eauto |]. exfalso. by apply (proj1 Hn Es). }
    rewrite Es. split; [| split]; [| | by rewrite Hr].
    + split; simpl; rewrite ?Hr; try reflexivity; try discriminate.
    + split; simpl; try (by split); try discriminate; try apply (ok_range _ Hok); try lia. right. by left.
Qed.

Lemma claim_advances now u by_ t : task_ok t -> waiting_status (task_Status t) = true ->
  advances t (with_transition t "running" (task_AttemptCount t + 1) None (Some by_) (Some u) (Some now) (task_FinishedAt t) now).
Proof.
  intros Hok Hw. pose proof (ok_attempts _ Hok) as Ha. pose proof (ok_waiting _ Hok Hw) as Hlt.
  assert (terminal_status (task_Status t) = false) as Ht.
  { destruct (terminal_status (task_Status t)) eqn:E; [| reflexivity]. by rewrite (terminal_not_waiting _ E) in Hw. }
  assert (task_FinishedAt t = None) as Hf.
  { destruct (task_FinishedAt t) eqn:E; [| reflexivity]. exfalso. assert (terminal_status (task_Status t) = true); [| congruence].
    apply (ok_finished _ Hok). by rewrite E. }
  split; [| split].
  - split; simpl; try reflexivity; try congruence; try lia.
  - split; simpl; rewrite ?Hf; try (by split); try discriminate; try apply (ok_range _ Hok); try lia; try (by right; right).
  - intros _. apply contains_string_In in Hw. simpl in Hw. by destruct Hw as [<- | [<- | []]].
Qed.

(** *** Claims *)
Lemma oldest_In best l t : oldest best l = Some t -> best = Some t \/ In t l.
Proof.
  revert best. induction l as [|x l IH]; intros best; simpl; [by left |]. intros [H | H]%IH; [| by right; right].
  destruct best as [b|]; [destruct (task_CreatedAt x <? task_CreatedAt b) |]; injection H as <-; auto.
Qed.
Lemma claim_candidates_In scan locked now d t : In t (claim_candidates scan locked now d) <->
  claimable now t = true /\ exists id, In id scan /\ id ∉ locked /\ db_tasks d !! id = Some t.
Proof.
  unfold claim_candidates. rewrite filter_In, <- list_elem_of_In, list_elem_of_omap. split.
  - intros ((id & Hid & H) & Hc). split; [exact Hc |]. exists id. destruct (bool_decide (id ∈ locked)) eqn:E; [discriminate |].
    apply bool_decide_eq_false in E. by apply list_elem_of_In in Hid.
  - intros (Hc & id & Hid & Hl & H). split; [| exact Hc]. exists id. apply list_elem_of_In in Hid. split; [exact Hid |].
    by rewrite bool_decide_eq_false_2.
Qed.
Lemma claimable_waiting now t : claimable now t = true -> waiting_status (task_Status t) = true.
Proof.
  unfold claimable. intros [->%String.eqb_eq | [->%String.eqb_eq _]%andb_true_iff]%orb_true_iff; reflexivity.
Qed.

(** A claim: the row it takes and the one it leaves. *)
Lemma claim_next_claimed scan locked workerID now leaseUntil d r d' : claim_next scan locked workerID now leaseUntil d = Ok (r, d') ->
  exists t by_, oldest None (claim_candidates scan locked (pg_time now) d) = Some t /\ pg_varchar 128 workerID = Ok by_ /\
    r = with_transition t "running" (task_AttemptCount t + 1) None (Some by_) (Some (pg_time leaseUntil)) (Some (pg_time now))
          (task_FinishedAt t) (pg_time now) /\ d' = set_tasks <[task_ID t := r]> d.
Proof.
  unfold claim_next, int4_add. destruct (oldest None _) as [t|] eqn:E; [| discriminate]. intros H.
  apply rbind_ok in H as (by_ & Eb & H). apply rbind_ok in H as (n & En & H). destruct (negb _) in En; [discriminate |]. injection En as <-.
  injection H as <- <-. eauto 10.
Qed.
Lemma keep_claim_next ts scan locked workerID now leaseUntil : stmt_keeps (life ts) (claim_next scan locked workerID now leaseUntil).
Proof.
  intros d r d' HL (t & by_ & Ho & _ & -> & ->)%claim_next_claimed. apply oldest_In in Ho as [[=] | Ho].
  apply claim_candidates_In in Ho as (Hc & id & _ & _ & Et). pose proof HL as [(Ht & _) _]. destruct (Ht id t Et) as (Ei & Hok & _).
  destruct (claim_advances (pg_time now) (pg_time leaseUntil) by_ t Hok (claimable_waiting _ _ Hc)) as (Hev & Hok' & Hact).
  rewrite Ei in *. by apply (life_set_task ts d id t).
Qed.

(** *** Other tables *)
Lemma life_same ts d d' : life ts d -> db_tasks d' = db_tasks d -> db_runs d' = db_runs d -> bars_inv d' -> life ts d'.
Proof.
  intros [(Ht & Hr & Ha & Hb) He] Et Er Hb'. unfold life, inv, tasks_inv, runs_inv, retries_inv, has_evolved in *. rewrite Et, Er. auto.
Qed.
Lemma life_other ts d d' : life ts d -> db_tasks d' = db_tasks d -> db_runs d' = db_runs d -> db_bars d' = db_bars d -> life ts d'.
Proof. intros HL Et Er Eb. apply (life_same ts d); try assumption. unfold bars_inv. rewrite Eb. apply HL. Qed.
Lemma life_bars_inv ts d : life ts d -> bars_inv d.
Proof. intros [(_ & _ & _ & Hb) _]. exact Hb. Qed.

Definition same_life (d d' : DB) : Prop := db_tasks d' = db_tasks d /\ db_runs d' = db_runs d /\ db_bars d' = db_bars d.
Lemma fail_checkpoint_same id n now d d' : fail_checkpoint id n now d = Ok d' -> same_life d d'.
Proof.
  unfold fail_checkpoint. destruct (db_checkpoints d !! id) as [c|].
  - intros H. apply rbind_ok in H as (k & _ & H). injection H as <-. by repeat split.
  - destruct (is_nil _); [discriminate |]. intros [= <-]. by repeat split.
Qed.
Lemma fail_checkpoints_same l now d d' : fail_checkpoints l now d = Ok d' -> same_life d d'.
Proof.
  revert d. induction l as [|[id n] l IH]; intros d H; simpl in H; [injection H as <-; by repeat split |].
  apply rbind_ok in H as (d1 & H1 & H). apply fail_checkpoint_same in H1 as (E1 & E2 & E3). apply IH in H as (F1 & F2 & F3).
  repeat split; congruence.
Qed.
Lemma life_same_life ts d d' : life ts d -> same_life d d' -> life ts d'.
Proof. intros HL (E1 & E2 & E3). by apply (life_other ts d). Qed.

Lemma keep_fail_checkpoint ts id n now : stmt_keeps (life ts) (fun d => d <- fail_checkpoint id n now d ;; Ok (tt, d)).
Proof.
  intros d [] d' HL H. apply rbind_ok in H as (d1 & H1 & H). injection H as <-. apply (life_same_life ts d); [exact HL |].
  by apply (fail_checkpoint_same _ _ _ _ _ H1).
Qed.
Lemma keep_replace_checkpoint ts c : stmt_keeps (life ts) (replace_checkpoint c).
Proof. intros d [] d' HL H. unfold replace_checkpoint in H. inv_ok. subst. by apply (life_other ts d). Qed.
Lemma keep_succeed_checkpoint ts c : stmt_keeps (life ts) (succeed_checkpoint c).
Proof. intros d [] d' HL H. unfold succeed_checkpoint in H. apply rbind_ok in H as ([] & _ & H). injection H as <-. by apply (life_other ts d). Qed.
Lemma keep_insert_issue ts i : stmt_keeps (life ts) (insert_issue i).
Proof.
  intros d id d' HL H. unfold insert_issue in H. apply rbind_ok in H as (r & _ & H). apply rbind_ok in H as ([] & _ & H).
  destruct (existsb _ _) in H; [discriminate |]. inv_ok. subst. by apply (life_other ts d).
Qed.
Lemma keep_update_issue ts id from to at_ note up : stmt_keeps (life ts) (update_issue id from to at_ note up).
Proof.
  intros d n d' HL H. unfold update_issue in H. destruct (db_issues d !! id) as [i|]; [| by injection H as _ <-].
  destruct (contains_string _ _); [| by injection H as _ <-]. apply rbind_ok in H as (z & _ & H). cbv zeta in H.
  apply rbind_ok in H as ([] & _ & H). injection H as _ <-. by apply (life_other ts d).
Qed.
Lemma keep_upsert_quote ts q : stmt_keeps (life ts) (upsert_quote q).
Proof.
  intros d t d' HL H. unfold upsert_quote in H. apply rbind_ok in H as (r & _ & H). apply rbind_ok in H as ([] & _ & H). cbv zeta in H.
  destruct (db_quotes d !! _); inv_ok; subst; by apply (life_other ts d).
Qed.

Lemma keep_recover_expired ts locked now : stmt_keeps (life ts) (recover_expired locked now).
Proof.
  intros d n d' HL H. unfold recover_expired in H. apply rbind_ok in H as (d1 & H1 & H). injection H as _ <-.
  eapply life_same_life; [| exact (fail_checkpoints_same _ _ _ _ H1)]. apply (life_map_tasks ts d); [exact HL |]. intros t Hok.
  destruct (expired locked (pg_time now) t) eqn:E; [| by split; [| split]].
  apply recover_advances; [exact Hok |]. unfold expired in E. bsimp. assumption.
Qed.

(** *** The writes of bars *)
Lemma kept_write_revision ts check (db : forall A, string -> M PG A -> M PG A) bar :
  (forall A text (c : M PG A) w0 a w1, db A text c w0 = (Ok a, w1) -> c w0 = (Ok a, w1)) -> interval_ok bar ->
  kept (on_db (life ts)) (write_revision check db bar) (fun _ => True).
Proof.
  intros Hdb Hi w e w' HL H. split; [| exact I]. pose proof (life_bars_inv _ _ HL) as Hb.
  pose proof (write_revision_spec check db bar w e w' Hdb Hb Hi H) as Hw. pose proof (revision_written_inv _ _ _ _ Hb Hi Hw) as Hb'.
  apply (life_same ts (pg_db w)); try assumption.
  - by destruct Hw as [(c & _ & _ & _ & _ & ->) | (row & _ & _ & _ & ->)].
  - by destruct Hw as [(c & _ & _ & _ & _ & ->) | (row & _ & _ & _ & ->)].
Qed.
Lemma mwrap_db_ok {A} text (c : M PG A) w a w' : mwrap_db text c w = (Ok a, w') -> c w = (Ok a, w').
Proof. unfold mwrap_db. destruct (c w) as [[b|e|] w1]; congruence. Qed.
Lemma mmap_db_ok {A} text (c : M PG A) w a w' : mmap_db text c w = (Ok a, w') -> c w = (Ok a, w').
Proof. unfold mmap_db. destruct (c w) as [[b|e|] w1]; congruence. Qed.
Lemma NewBar_interval b b' : NewBar b = Ok b' -> interval_ok b'.
Proof.
  intros [-> V]%NewBar_ok. unfold bar_Validate in V. apply rbind_ok in V as ([] & _ & V). apply rbind_ok in V as (v & Ev & _).
  unfold interval_ok. rewrite Ev. f_equal. unfold ParseBarInterval in Ev. by destruct (_ && _) in Ev; [discriminate | injection Ev].
Qed.
Lemma kept_write_bar ts bar : kept (on_db (life ts)) (writeMarketBarInTransaction bar) (fun _ => True).
Proof.
  unfold writeMarketBarInTransaction. apply (kept_bind _ _ _ (fun b => interval_ok b)).
  - intros w b w' HL H. apply mlift_ok in H as [H ->]. split; [exact HL | by apply (NewBar_interval bar)].
  - intros b Hi. eapply kept_bind; [apply kept_write_revision; [apply @mmap_db_ok | exact Hi] |]. intros e _. by apply kept_ret.
Qed.
End Keep.
