(* ===== verification/RepositoryFixtures.v ===== *)
(** * A concrete database of the witnesses

    Column types that behave as PostgreSQL's on the inputs used here, and tables
    with one collection target. Nothing here models code. *)
From S2P Require Import Prelude Errors GoStrings GoTime GoJson External Domain MarketData Window CatchUp Incremental Ports Ingestion Service Fixtures ManualTasks Database Statements Repository RepositoryFacts Lifecycle.
Open Scope go_scope.

#[global] Instance pg : PgLib := {|
  pg_time t := t - t mod 1000;
  pg_varchar n s := if RuneCountInString s <=? n then Ok s else Err (pg_error "22001" EmptyString);
  pg_text s := Ok s;
  pg_jsonb s := if json_Valid s then Ok s else Err (pg_error "22P02" EmptyString);
  pg_numeric d := Ok d;
  pg_append_operations context audit := Ok context;
  pg_append_audit_log metadata audit := Ok metadata |}.
#[global] Instance pg_laws : PgLaws pg.
Proof.
  split; simpl.
  - intros t. pose proof (Z.mod_pos_bound t 1000). lia.
  - intros t. replace ((t - t mod 1000) mod 1000) with 0; [lia |]. rewrite Zminus_mod_idemp_r, Z.sub_diag. reflexivity.
  - intros t u H. rewrite !(Z.mod_eq _ 1000) by lia. pose proof (Z.div_le_mono t u 1000 ltac:(lia) H). lia.
  - intros n s s' H _. by destruct (_ <=? n) in H; [injection H |].
  - intros n s e H. destruct (_ <=? n) in H; [discriminate | by injection H as <-].
Qed.

Definition tables : DB := {|
  db_assets := {[uuid7 1 := btc]}; db_instruments := {[uuid7 2 := btc_usdt]}; db_providers := {[uuid7 3 := exchange]};
  db_mappings := {[uuid7 4 := listing]}; db_subscriptions := {[uuid7 5 := hourly]}; db_runs := ∅; db_tasks := ∅;
  db_checkpoints := ∅; db_bars := ∅; db_issues := ∅; db_quotes := ∅ |}.
Definition fresh_store : PG := mkPG tables [].

Lemma tables_inv : inv tables.
Proof.
  split; [| split; [| split]].
  - intros id t H. discriminate (eq_trans (eq_sym (lookup_empty id)) H).
  - split; [intros id r H | intros id id' r r' H]; discriminate (eq_trans (eq_sym (lookup_empty id)) H).
  - intros id id' t t' r H. discriminate (eq_trans (eq_sym (lookup_empty id)) H).
  - intros key bars H. discriminate (eq_trans (eq_sym (lookup_empty key)) H).
Qed.

(** One scheduled batch: the two hours of the morning. *)
Definition noon : Time := morning + 2 * Hour.
Definition morning_run : IngestionRun := {|
  run_ID := uuid7 21; run_RunKey := StableRunKey WindowTriggerClose (uuid7 5) morning noon; run_RunType := "incremental";
  run_TriggerType := "scheduler"; run_Status := "pending"; run_ScheduledAt := Some (noon + 30 * Second); run_StartedAt := None;
  run_FinishedAt := None; run_RequestedBy := None; run_TaskCount := 1; run_SuccessCount := 0; run_FailedCount := 0;
  run_Context := "{}"; run_ErrorSummary := "{}"; run_CreatedAt := noon + Minute |}.
Definition morning_task : IngestionTask := {|
  task_ID := uuid7 20; task_RunID := uuid7 21; task_SubscriptionID := uuid7 5; task_RetryOfTaskID := None;
  task_RangeStart := morning; task_RangeEnd := noon; task_Status := "pending"; task_AttemptCount := 0; task_MaxAttempts := 5;
  task_NextAttemptAt := None; task_LockedBy := None; task_LockedUntil := None; task_StartedAt := None; task_FinishedAt := None;
  task_ProviderRequestID := None; task_ErrorCode := None; task_ErrorMessage := None; task_ErrorDetails := "{}";
  task_CanceledBy := None; task_CancelReason := None; task_CreatedAt := noon + Minute; task_UpdatedAt := noon + Minute |}.
Definition morning_batch : ScheduledBatch := mkScheduledBatch WindowTriggerClose morning_run morning_task.

(** The store after the batch, and after a claim of its task. *)
Definition scheduled_store : PG := snd (repo_CreateScheduledBatch morning_batch fresh_store).
Definition claim_time : Time := noon + 2 * Minute.
Definition claim_call : M PG (option TaskClaim) := repo_ClaimNextTask [uuid7 20] ∅ "worker-1" claim_time (10 * Minute).
Definition claimed_store : PG := snd (claim_call scheduled_store).
Definition morning_claim : TaskClaim := match fst (claim_call scheduled_store) with Ok (Some c) => c | _ => claim end.

Definition finish_time : Time := claim_time + Minute.
Definition morning_bar (open : Time) : Bar := {|
  bar_InstrumentID := uuid7 2; bar_ProviderInstrumentID := uuid7 4; bar_Interval := BarInterval1Hour; bar_OpenTime := open;
  bar_Revision := 0; bar_CloseTime := open + Hour; bar_OpenPrice := 5; bar_HighPrice := 7; bar_LowPrice := 4; bar_ClosePrice := 6;
  bar_BaseVolume := Some 3; bar_QuoteVolume := None; bar_TradeCount := Some 12; bar_IsClosed := true; bar_IsCurrent := false;
  bar_QualityStatus := "valid"; bar_ProviderUpdatedAt := None; bar_CollectedAt := claim_time; bar_RawHash := "a1b2";
  bar_Metadata := "{}" |}.
Definition morning_commit : SuccessCommit := {|
  succ_Claim := morning_claim; succ_Bars := [morning_bar morning; morning_bar (morning + Hour)]; succ_Issues := [];
  succ_Checkpoint := mkIngestionCheckpoint (uuid7 5) (Some (morning + Hour)) (Some (morning + Hour)) (Some finish_time) (Some finish_time) 0 finish_time;
  succ_FinishedAt := finish_time |}.
Definition committed_store : PG := snd (repo_CommitSuccess morning_commit claimed_store).

Example scheduled_ok : fst (repo_CreateScheduledBatch morning_batch fresh_store) = Ok true.
Proof. vm_compute. reflexivity. Qed.
Example claimed_ok : claim_call scheduled_store = (Ok (Some morning_claim), claimed_store).
Proof. vm_compute. reflexivity. Qed.
Example committed_ok : fst (repo_CommitSuccess morning_commit claimed_store) = Ok tt.
Proof. vm_compute. reflexivity. Qed.
