(* ===== verification/History.v ===== *)
(** * Histories of the ingestion repository

    The operations of the repository as steps of a history, in any order, with
    any arguments the services give them and any driver fault; the claims
    issued so far are remembered. Every step keeps the tables well formed and
    lets the rows only evolve. *)
From S2P Require Import Prelude Errors GoStrings GoTime GoJson External Domain MarketData CatchUp Incremental Ports Ingestion Service IngestionFacts ManualTasks Database Statements Repository RepositoryFacts Lifecycle.
Open Scope go_scope.

Section History.
Context `{D : DecimalLib} `{T : TzLib} `{U : UUIDLib} `{P : !PgLib} {L : PgLaws P}.

(** ** The operations keep the life of the tasks *)
Section Safe.
Variable ts : list IngestionTask.
Abbreviation keeps_life c := (safe (on_db (life ts)) c (fun _ => True)).

#[local] Hint Resolve keep_insert_run keep_insert_task keep_save_summary keep_append_operation keep_fail_checkpoint keep_replace_checkpoint
  keep_succeed_checkpoint keep_insert_issue keep_update_issue keep_upsert_quote keep_recover_expired keep_claim_next : keepdb.

Lemma safe_CreateRunWithTask run task : new_task task -> keeps_life (repo_CreateRunWithTask run task).
Proof. intros Hn. unfold repo_CreateRunWithTask. db_safe; auto with keepdb. Qed.

Lemma guard_new_task t : (task_Status t <>s "pending") = false -> negb (task_AttemptCount t =? 0) = false ->
  not_nil (task_NextAttemptAt t) = false -> not_nil (task_LockedBy t) = false -> not_nil (task_LockedUntil t) = false ->
  not_nil (task_FinishedAt t) = false -> new_task t.
Proof.
  intros H1%negb_false_iff%String.eqb_eq H2%negb_false_iff%Z.eqb_eq H3%not_nil_false H4%not_nil_false H5%not_nil_false H6%not_nil_false.
  by repeat split.
Qed.
Lemma batch_new_task batch : batch_Validate batch = Ok tt -> new_task (batch_Task batch).
Proof.
  unfold batch_Validate. cbv zeta. intros H. destruct (_ && _) in H; [discriminate H |]. destruct (_ || _) eqn:G in H; [discriminate H |].
  split_guard G. apply guard_new_task; assumption.
Qed.
Lemma safe_CreateScheduledBatch batch : keeps_life (repo_CreateScheduledBatch batch).
Proof.
  unfold repo_CreateScheduledBatch. apply (safe_bind _ _ _ (fun _ => new_task (batch_Task batch))).
  - apply safe_lift. intros [] H%wrap_ok. by apply batch_new_task.
  - intros _ Hn. unfold equivalentScheduledBatch. db_safe; auto with keepdb.
Qed.

Lemma backfill_new_task run task : validateBackfillRunAndTask run task = Ok tt -> new_task task.
Proof.
  unfold validateBackfillRunAndTask. intros H. destruct (_ || _) eqn:G in H; [discriminate H |]. split_guard G. apply guard_new_task; assumption.
Qed.
Lemma safe_CreateBackfill run task : keeps_life (repo_CreateBackfillRunWithTask run task).
Proof.
  unfold repo_CreateBackfillRunWithTask. apply (safe_bind _ _ _ (fun _ => new_task task)).
  - apply safe_lift. intros [] H%wrap_ok. by apply (backfill_new_task run).
  - intros _ Hn. db_safe; auto with keepdb.
Qed.

Lemma safe_CreateManualRetry c : keeps_life (repo_CreateManualRetry c).
Proof. unfold repo_CreateManualRetry. db_safe; auto with keepdb. apply keep_insert_task. repeat split. Qed.

Lemma safe_ClaimNextTask scan locked workerID now d : keeps_life (repo_ClaimNextTask scan locked workerID now d).
Proof. unfold repo_ClaimNextTask. db_safe; auto with keepdb. Qed.
Lemma safe_RecoverExpiredTasks locked now : keeps_life (repo_RecoverExpiredTasks locked now).
Proof. unfold repo_RecoverExpiredTasks. db_safe; auto with keepdb. Qed.

Lemma keep_cancel id status by_ reason now : task_active status = true ->
  stmt_keeps (life ts) (update_task id (fun u => task_Status u =s status) (cancel_row by_ reason now)).
Proof.
  intros Ha. apply keep_update_task. intros d t r _ _ Hok Hs%String.eqb_eq Hr _.
  by apply (cancel_advances by_ reason now); [| rewrite Hs |].
Qed.
#[local] Hint Resolve keep_cancel : keepdb.
Lemma safe_CancelTask id by_ reason now : keeps_life (repo_CancelTask id by_ reason now).
Proof. unfold repo_CancelTask. db_safe. apply keep_cancel. by apply negb_false_iff. Qed.
Lemma safe_CancelTaskWithAudit id audit now : keeps_life (repo_CancelTaskWithAudit id audit now).
Proof. unfold repo_CancelTaskWithAudit. db_safe; auto with keepdb. apply keep_cancel. by apply negb_false_iff. Qed.

Lemma safe_SaveRunSummary s : keeps_life (repo_SaveRunSummary s).
Proof. unfold repo_SaveRunSummary. db_safe; auto with keepdb. Qed.
Lemma safe_UpsertCheckpoint c : keeps_life (repo_UpsertCheckpoint c).
Proof. unfold repo_UpsertCheckpoint. db_safe; auto with keepdb. Qed.
Lemma safe_OpenIssue i : keeps_life (repo_OpenIssue i).
Proof. unfold repo_OpenIssue, openQualityIssue. db_safe; auto with keepdb. Qed.
Lemma safe_transitionIssue id from to note at_ up : keeps_life (transitionIssue id from to note at_ up).
Proof. unfold transitionIssue. db_safe; auto with keepdb. Qed.
Lemma safe_UpsertLatestQuote q : keeps_life (repo_UpsertLatestQuote q).
Proof. unfold repo_UpsertLatestQuote. db_safe; auto with keepdb. Qed.

Lemma safe_WriteMarketBar b : keeps_life (repo_WriteMarketBar b).
Proof.
  unfold repo_WriteMarketBar. apply (safe_bind _ _ _ (fun b' => interval_ok b')).
  - apply safe_lift. intros b' H%wrap_ok. by apply (NewBar_interval b).
  - intros b' Hi. eapply safe_bind; [apply safe_pure |]. intros _ _. apply safe_transaction.
    apply kept_write_revision; [apply @mwrap_db_ok | exact Hi].
Qed.

Lemma fenced_running claim at_ t : fenced claim at_ t = true ->
  task_Status t = "running"%string /\ task_AttemptCount t = task_AttemptCount claim.
Proof. unfold fenced. intros H. bsimp. auto. Qed.

Lemma safe_CommitSuccess c : keeps_life (repo_CommitSuccess c).
Proof.
  unfold repo_CommitSuccess, openQualityIssue. eapply safe_bind; [apply safe_pure |]. intros _ _. apply safe_transaction.
  unfold lockAndValidateTaskClaim. db_safe; auto with keepdb.
  - apply kept_write_bar.
  - apply keep_update_task. intros d t r _ _ Hok [Hr _]%fenced_running Hs _. by apply (success_advances _ _ _ Hok Hr Hs).
Qed.

(** A failure built by the service for a claim whose task has evolved. *)
Lemma safe_CommitFailure config claim e at_ : In (claim_Task claim) ts ->
  keeps_life (repo_CommitFailure (failureCommit config claim e at_)).
Proof.
  intros Hin. unfold repo_CommitFailure. eapply safe_bind; [apply safe_pure |]. intros _ _. apply safe_transaction.
  unfold lockAndValidateFailureClaim. db_safe; auto with keepdb. apply keep_update_task.
  intros d t r [_ He] Et Hok [Hr Ha]%fenced_running Hs _. rewrite List.Forall_forall in He. destruct (He _ Hin) as (u & Eu & Hev).
  assert (claim_Task (fail_Claim (failureCommit config claim e at_)) = claim_Task claim) as Ec.
  { unfold failureCommit. cbv zeta. by destruct (_ || _). }
  rewrite Ec in *. assert (u = t) as -> by congruence. pose proof (ev_max _ _ Hev) as Em.
  apply (failure_advances _ t r Hok Hr Hs); unfold failureCommit; cbv zeta; destruct (_ || _) eqn:G; simpl.
  - by left.
  - right. split; [reflexivity |]. apply orb_false_iff in G as [_ G%Z.leb_gt]. lia.
  - split; [discriminate | congruence].
  - split; [discriminate | reflexivity].
Qed.
End Safe.

(** ** Steps *)
(** The state: the database with the faults the driver will report, and the
    claims the repository has issued. *)
Abbreviation State := (PG * list TaskClaim)%type.

Inductive step : State -> State -> Prop :=
  | step_faults d fs fs' cs : step (mkPG d fs, cs) (mkPG d fs', cs)
  | step_create run task w r w' cs : new_task task -> repo_CreateRunWithTask run task w = (r, w') -> step (w, cs) (w', cs)
  | step_schedule batch w r w' cs : repo_CreateScheduledBatch batch w = (r, w') -> step (w, cs) (w', cs)
  | step_backfill run task w r w' cs : repo_CreateBackfillRunWithTask run task w = (r, w') -> step (w, cs) (w', cs)
  | step_retry c w r w' cs : repo_CreateManualRetry c w = (r, w') -> step (w, cs) (w', cs)
  | step_claim scan locked workerID now d w claim w' cs :
      repo_ClaimNextTask scan locked workerID now d w = (Ok (Some claim), w') -> step (w, cs) (w', claim :: cs)
  | step_unclaimed scan locked workerID now d w r w' cs :
      repo_ClaimNextTask scan locked workerID now d w = (r, w') -> (forall claim, r <> Ok (Some claim)) -> step (w, cs) (w', cs)
  | step_recover locked now w r w' cs : repo_RecoverExpiredTasks locked now w = (r, w') -> step (w, cs) (w', cs)
  | step_success c w r w' cs : In (succ_Claim c) cs -> repo_CommitSuccess c w = (r, w') -> step (w, cs) (w', cs)
  | step_failure config claim e at_ w r w' cs : In claim cs ->
      repo_CommitFailure (failureCommit config claim e at_) w = (r, w') -> step (w, cs) (w', cs)
  | step_cancel id by_ reason now w r w' cs : repo_CancelTask id by_ reason now w = (r, w') -> step (w, cs) (w', cs)
  | step_audited id audit now w r w' cs : repo_CancelTaskWithAudit id audit now w = (r, w') -> step (w, cs) (w', cs)
  | step_summary s w r w' cs : repo_SaveRunSummary s w = (r, w') -> step (w, cs) (w', cs)
  | step_checkpoint c w r w' cs : repo_UpsertCheckpoint c w = (r, w') -> step (w, cs) (w', cs)
  | step_bar b w r w' cs : repo_WriteMarketBar b w = (r, w') -> step (w, cs) (w', cs)
  | step_quote q w r w' cs : repo_UpsertLatestQuote q w = (r, w') -> step (w, cs) (w', cs)
  | step_open i w r w' cs : repo_OpenIssue i w = (r, w') -> step (w, cs) (w', cs)
  | step_issue id from to note at_ up w r w' cs : transitionIssue id from to note at_ up w = (r, w') -> step (w, cs) (w', cs).
Definition steps : State -> State -> Prop := rtc step.

(** The invariant of a history: the tables are well formed, and the rows of the
    issued claims, and those of [ts], have evolved since. *)
Definition history (ts : list IngestionTask) (s : State) : Prop := life (ts ++ map claim_Task (snd s)) (pg_db (fst s)).

Lemma safe_keeps ts {A} (c : M PG A) w r w' cs : (forall us, safe (on_db (life us)) c (fun _ => True)) ->
  c w = (r, w') -> history ts (w, cs) -> history ts (w', cs).
Proof. intros Hs E Hh. pose proof (proj1 (Hs _ w Hh)) as H. rewrite E in H. exact H. Qed.

(** A claim is a running row of the table. *)
Lemma ClaimNextTask_issued scan locked workerID now d w claim w' : repo_ClaimNextTask scan locked workerID now d w = (Ok (Some claim), w') ->
  exists r, claim_next scan locked workerID (TimeToDatabase now) (TimeToDatabase (Add now d)) (pg_db w) = Ok (r, pg_db w') /\
            claim_Task claim = scanTask r.
Proof.
  unfold repo_ClaimNextTask. intros H. destruct (_ || _) in H; [discriminate |]. apply mbind_ok in H as (claimed & w1 & Hc & H).
  destruct claimed as [r|e|]; [| destruct (errors_Is e ErrNoRows); discriminate | discriminate]. injection H as <- ->.
  exists r. split; [| reflexivity]. apply mtry_ok in Hc as [Hc _]. unfold exec_auto, run_sql in Hc.
  destruct (next_fault w) as [[|dr ap] w2] eqn:E; [| discriminate]. apply next_fault_db in E. rewrite E in Hc.
  destruct (claim_next _ _ _ _ _ _) as [[x dx]|e|]; [by injection Hc as -> <- | discriminate | discriminate].
Qed.

Lemma scanTask_evolves r : task_Status r = "running"%string -> evolves (scanTask r) r.
Proof. intros Hr. split; simpl; try reflexivity; rewrite ?Hr; try discriminate; try lia. by intros _ H. Qed.

Lemma step_history ts s s' : step s s' -> history ts s -> history ts s'.
Proof.
  intros Hst Hh. inversion Hst; subst; clear Hst;
    try (eapply safe_keeps; [| eassumption | exact Hh]; intros us;
      first [by apply safe_CreateRunWithTask | apply safe_CreateScheduledBatch | apply safe_CreateBackfill | apply safe_CreateManualRetry
        | apply safe_ClaimNextTask | apply safe_RecoverExpiredTasks | apply safe_CommitSuccess | apply safe_CancelTask
        | apply safe_CancelTaskWithAudit | apply safe_SaveRunSummary | apply safe_UpsertCheckpoint | apply safe_WriteMarketBar
        | apply safe_UpsertLatestQuote | apply safe_OpenIssue | apply safe_transitionIssue]).
  - exact Hh.
  - (* a claim is issued *)
    pose proof (proj1 (safe_ClaimNextTask _ scan locked workerID now d w Hh)) as H1. rewrite H in H1. destruct H1 as [Hi He].
    apply ClaimNextTask_issued in H as (r & Hr & Ec). apply claim_next_claimed in Hr as (t & by_ & _ & _ & Er & Ed).
    unfold history, life in *. simpl. split; [exact Hi |]. apply Forall_app in He as [He1 He2]. apply Forall_app. split; [exact He1 |].
    constructor; [| exact He2]. rewrite Ec. exists r. rewrite Ed. split; [| apply scanTask_evolves; by rewrite Er].
    simpl. rewrite Er. simpl. by rewrite lookup_insert_eq.
  - (* a failure of an issued claim *)
    match goal with E : repo_CommitFailure _ _ = _ |- _ => rename E into Hc end.
    assert (In (claim_Task claim) (ts ++ map claim_Task cs)) as Hin by (apply in_app_iff; right; by apply in_map).
    pose proof (proj1 (safe_CommitFailure _ config claim e at_ Hin w Hh)) as H1. rewrite Hc in H1. exact H1.
Qed.
Lemma steps_history ts s s' : steps s s' -> history ts s -> history ts s'.
Proof. induction 1; [auto |]. intros Hh. eauto using step_history. Qed.
End History.

(** * The commits of a claim

    What the body of a commit does when it succeeds, and that a claim whose
    attempt is over cannot commit. *)
Section Commits.
Context `{D : DecimalLib} `{T : TzLib} `{U : UUIDLib} `{P : !PgLib}.

(** ** Transactions that succeed, or cannot *)
Lemma transaction_ok {A} bt ct (body : M PG (TxEnd A)) w a w' : transaction bt ct body w = (Ok a, w') ->
  exists w0 w1, pg_db w0 = pg_db w /\
    (body w0 = (Ok (Committed a), w1) /\ pg_db w' = pg_db w1 \/ body w0 = (Ok (RolledBack a), w1) /\ pg_db w' = pg_db w).
Proof.
  unfold transaction. destruct (next_fault w) as [[|d ap] w0] eqn:E; [| discriminate]. apply next_fault_db in E.
  destruct (body w0) as [[[b|b]|e|] w1] eqn:Eb; try discriminate.
  - destruct (next_fault w1) as [[|d ap] w2] eqn:E2; [| discriminate]. apply next_fault_db in E2. intros [= -> <-]. eauto 10.
  - intros [= -> <-]. exists w0, w1. split; [exact E |]. right. split; [exact Eb | exact E].
Qed.
Lemma transaction_refused {A} bt ct (body : M PG (TxEnd A)) w r w' :
  (forall w0 e w1, pg_db w0 = pg_db w -> body w0 <> (Ok e, w1)) -> transaction bt ct body w = (r, w') ->
  is_ok r = false /\ pg_db w' = pg_db w.
Proof.
  intros Hb H. unfold transaction in H. destruct (next_fault w) as [[|d ap] w0] eqn:E; apply next_fault_db in E; [| by injection H as <- <-].
  destruct (body w0) as [[e|e|] w1] eqn:Eb; [by apply Hb in Eb | |]; by injection H as <- <-.
Qed.

(** ** What a commit writes besides the task *)
(** The tables of tasks, runs and checkpoints are those given. *)
Definition frame (d0 d : DB) : Prop := db_tasks d = db_tasks d0 /\ db_runs d = db_runs d0 /\ db_checkpoints d = db_checkpoints d0.
Lemma frame_refl d : frame d d.
Proof. by repeat split. Qed.

Lemma frame_close_current d0 b n : stmt_keeps (frame d0) (close_current b n).
Proof. intros d k d' H [= _ <-]. exact H. Qed.
Lemma frame_insert_bar d0 b : stmt_keeps (frame d0) (insert_bar_row b).
Proof. intros d u d' Hf H. unfold insert_bar_row in H. apply rbind_ok in H as (r & _ & H). apply rbind_ok in H as ([] & _ & H). cbv zeta in H. inv_ok. subst. exact Hf. Qed.
Lemma frame_insert_issue d0 i : stmt_keeps (frame d0) (insert_issue i).
Proof.
  intros d id d' Hf H. unfold insert_issue in H. apply rbind_ok in H as (r & _ & H). apply rbind_ok in H as ([] & _ & H).
  destruct (existsb _ _) in H; [discriminate |]. inv_ok. subst. exact Hf.
Qed.

Lemma frame_write_bar d0 b : kept (on_db (frame d0)) (writeMarketBarInTransaction b) (fun _ => True).
Proof. unfold writeMarketBarInTransaction, write_revision. db_safe; first [apply frame_close_current | apply frame_insert_bar]. Qed.
Lemma frame_open_issue d0 i : kept (on_db (frame d0)) (openQualityIssue exec_tx i) (fun _ => True).
Proof. unfold openQualityIssue. db_safe. apply frame_insert_issue. Qed.

Lemma kept_frame {A} (c : M PG A) w a w' : kept (on_db (frame (pg_db w))) c (fun _ => True) -> c w = (Ok a, w') -> frame (pg_db w) (pg_db w').
Proof. intros Hk E. exact (proj1 (Hk _ _ _ (frame_refl _) E)). Qed.

(** The update of the task. *)
Lemma update_task_one id where_ set_ d d' : update_task id where_ set_ d = Ok (1, d') ->
  exists t r, db_tasks d !! id = Some t /\ where_ t = true /\ set_ t = Ok r /\ d' = set_tasks <[id := r]> d.
Proof.
  unfold update_task. destruct (db_tasks d !! id) as [t|]; [| discriminate]. destruct (where_ t) eqn:W; [| discriminate].
  intros H. apply rbind_ok in H as (r & Er & H). apply rbind_ok in H as ([] & _ & H). injection H as <-. eauto 10.
Qed.

(** ** Successful commits *)
Definition success_committed (c : SuccessCommit) (d d' : DB) : Prop :=
  let claim := claim_Task (succ_Claim c) in
  exists t r d1 d2, db_tasks d !! task_ID claim = Some t /\ lease_lost t claim (succ_FinishedAt c) = false /\
    fenced claim (TimeToDatabase (succ_FinishedAt c)) t = true /\ success_row (TimeToDatabase (succ_FinishedAt c)) t = Ok r /\
    frame d d1 /\ succeed_checkpoint (succ_Checkpoint c) d1 = Ok (tt, d2) /\ d' = set_tasks <[task_ID claim := r]> d2.

Lemma CommitSuccess_body c w e w1 :
  (_ <-- lockAndValidateTaskClaim c ;;
   _ <-- each (fun b => mwrap "write ingestion bar" (_ <-- writeMarketBarInTransaction b ;; mret tt)) (succ_Bars c) ;;
   _ <-- each (fun i => mwrap "write ingestion quality issue" (_ <-- openQualityIssue exec_tx i ;; mret tt)) (succ_Issues c) ;;
   _ <-- mwrap_db "upsert successful ingestion checkpoint" (exec_tx (succeed_checkpoint (succ_Checkpoint c))) ;;
   affected <-- mwrap_db "complete ingestion task"
     (exec_tx (update_task (task_ID (claim_Task (succ_Claim c))) (fenced (claim_Task (succ_Claim c)) (TimeToDatabase (succ_FinishedAt c)))
                 (success_row (TimeToDatabase (succ_FinishedAt c))))) ;;
   mfailif negb (affected =? 1), Wrap "complete ingestion task" (Sentinel ErrTaskLeaseLost) ;;
   mret (Committed tt)) w = (Ok e, w1) -> e = Committed tt /\ success_committed c (pg_db w) (pg_db w1).
Proof.
  intros H. apply mbind_ok in H as ([] & x1 & H1 & H). apply mbind_ok in H as ([] & x2 & H2 & H). apply mbind_ok in H as ([] & x3 & H3 & H).
  apply mbind_ok in H as ([] & x4 & H4 & H). apply mbind_ok in H as (n & x5 & H5 & H).
  destruct (negb (n =? 1)) eqn:N in H; [discriminate |]. injection H as <- <-. split; [reflexivity |].
  apply negb_false_iff, Z.eqb_eq in N. subst n. apply mwrap_db_ok, exec_tx_ok in H4, H5.
  apply update_task_one in H5 as (t & r & Et & Hw & Hr & E5).
  assert (frame (pg_db w) (pg_db x1)) as F1 by (apply (kept_frame (lockAndValidateTaskClaim c) w tt x1); [| exact H1]; unfold lockAndValidateTaskClaim; db_safe).
  assert (frame (pg_db x1) (pg_db x2)) as F2 by (eapply kept_frame; [| exact H2]; db_safe; apply frame_write_bar).
  assert (frame (pg_db x2) (pg_db x3)) as F3 by (eapply kept_frame; [| exact H3]; db_safe; apply frame_open_issue).
  assert (frame (pg_db w) (pg_db x3)) as F by (destruct F1 as (A & B & C), F2 as (A2 & B2 & C2), F3 as (A3 & B3 & C3); repeat split; congruence).
  assert (db_tasks (pg_db x4) = db_tasks (pg_db x3)) as E4.
  { unfold succeed_checkpoint in H4. apply rbind_ok in H4 as ([] & _ & H4). cbv zeta in H4. injection H4 as <-. reflexivity. }
  assert (db_tasks (pg_db w) !! task_ID (claim_Task (succ_Claim c)) = Some t) as Et0 by (destruct F as (<- & _); by rewrite <- E4).
  exists t, r, (pg_db x3), (pg_db x4). split; [exact Et0 |]. split; [| by repeat (split; [assumption |])].
  unfold lockAndValidateTaskClaim in H1. apply mbind_ok in H1 as ([[t' s] m] & y & Hl & H1).
  destruct (lease_lost t' _ _) eqn:Lost in H1; [discriminate |]. rewrite <- Lost. f_equal.
  unfold lock_row in Hl. apply mbind_ok in Hl as (q & y1 & Hq & Hl). apply query_tried in Hq as [_ [Hq | (dr & ->)]]; [| discriminate].
  destruct q as [q|er|]; [| destruct (errors_Is er ErrNoRows); discriminate | discriminate]. injection Hl as -> _.
  unfold claim_source in Hq. rewrite Et0 in Hq. destruct (db_subscriptions _ !! _); [| discriminate]. destruct (db_mappings _ !! _); [| discriminate].
  by injection Hq.
Qed.

Lemma CommitSuccess_ok c w w' : repo_CommitSuccess c w = (Ok tt, w') -> success_committed c (pg_db w) (pg_db w').
Proof.
  unfold repo_CommitSuccess. intros H. apply mbind_ok in H as ([] & w0 & [_ ->]%mlift_ok & H).
  apply transaction_ok in H as (w0 & w1 & E0 & [[Hb E] | [Hb _]]); apply CommitSuccess_body in Hb as [He Hs]; [| discriminate].
  by rewrite E, <- E0.
Qed.

(** ** Failed commits *)
Definition failure_committed (c : FailureCommit) (d d' : DB) : Prop :=
  let claim := claim_Task (fail_Claim c) in
  exists t r d1, db_tasks d !! task_ID claim = Some t /\ fenced claim (TimeToDatabase (fail_FinishedAt c)) t = true /\
    failure_row c t = Ok r /\ fail_checkpoint (task_SubscriptionID claim) 1 (pg_time (TimeToDatabase (fail_FinishedAt c))) d = Ok d1 /\
    d' = set_tasks <[task_ID claim := r]> d1.

Lemma fail_checkpoint_tasks id n now d d' : fail_checkpoint id n now d = Ok d' -> db_tasks d' = db_tasks d.
Proof. apply fail_checkpoint_same. Qed.

Lemma CommitFailure_body c w e w1 :
  (_ <-- lockAndValidateFailureClaim c ;;
   _ <-- mwrap_db "upsert failed ingestion checkpoint"
     (exec_tx (fun d => d <- fail_checkpoint (task_SubscriptionID (claim_Task (fail_Claim c))) 1 (pg_time (TimeToDatabase (fail_FinishedAt c))) d ;; Ok (tt, d))) ;;
   affected <-- mwrap_db "transition ingestion task failure"
     (exec_tx (update_task (task_ID (claim_Task (fail_Claim c))) (fenced (claim_Task (fail_Claim c)) (TimeToDatabase (fail_FinishedAt c))) (failure_row c))) ;;
   mfailif negb (affected =? 1), Wrap "transition ingestion task failure" (Sentinel ErrTaskLeaseLost) ;;
   mret (Committed tt)) w = (Ok e, w1) -> e = Committed tt /\ failure_committed c (pg_db w) (pg_db w1).
Proof.
  intros H. apply mbind_ok in H as ([] & x1 & H1 & H). apply mbind_ok in H as ([] & x4 & H4 & H). apply mbind_ok in H as (n & x5 & H5 & H).
  destruct (negb (n =? 1)) eqn:N in H; [discriminate |]. injection H as <- <-. split; [reflexivity |].
  apply negb_false_iff, Z.eqb_eq in N. subst n. apply mwrap_db_ok, exec_tx_ok in H4, H5. apply update_task_one in H5 as (t & r & Et & Hw & Hr & E5).
  assert (pg_db x1 = pg_db w) as E1.
  { unfold lockAndValidateFailureClaim in H1. apply mbind_ok in H1 as (a & y & Hl & H1). destruct (lease_lost _ _ _) in H1; [discriminate |]. injection H1 as <-.
    unfold lock_row in Hl. apply mbind_ok in Hl as (q & y1 & Hq & Hl). apply query_tried in Hq as [Hq _].
    destruct q as [q|er|]; [| destruct (errors_Is er ErrNoRows); discriminate | discriminate]. injection Hl as _ <-. exact Hq. }
  rewrite E1 in *. apply rbind_ok in H4 as (d1 & H4 & [= E4]). rewrite <- E4 in *.
  exists t, r, d1. rewrite (fail_checkpoint_tasks _ _ _ _ _ H4) in Et. by repeat (split; [assumption |]).
Qed.
Lemma CommitFailure_ok c w w' : repo_CommitFailure c w = (Ok tt, w') -> failure_committed c (pg_db w) (pg_db w').
Proof.
  unfold repo_CommitFailure. intros H. apply mbind_ok in H as ([] & w0 & [_ ->]%mlift_ok & H).
  apply transaction_ok in H as (w0 & w1 & E0 & [[Hb E] | [Hb _]]); apply CommitFailure_body in Hb as [He Hs]; [| discriminate].
  by rewrite E, <- E0.
Qed.
End Commits.

(** ** The fence *)
Section Fence.
Context `{D : DecimalLib} `{T : TzLib} `{U : UUIDLib} `{P : !PgLib} {L : PgLaws P}.

(** The attempt of a claim is over: its task has ended it, or runs a later one. *)
Definition attempt_over (claim : IngestionTask) (d : DB) : Prop :=
  exists u, db_tasks d !! task_ID claim = Some u /\
    (task_AttemptCount claim < task_AttemptCount u \/ task_AttemptCount u = task_AttemptCount claim /\ task_Status u <> "running"%string).

Lemma attempt_over_evolves claim u v : (task_AttemptCount claim < task_AttemptCount u \/
    task_AttemptCount u = task_AttemptCount claim /\ task_Status u <> "running"%string) -> evolves u v ->
  task_AttemptCount claim < task_AttemptCount v \/ task_AttemptCount v = task_AttemptCount claim /\ task_Status v <> "running"%string.
Proof.
  intros Ho Hev. pose proof (ev_attempts _ _ Hev) as Ha. destruct Ho as [Hlt | [Ea Hr]]; [left; lia |].
  destruct (Z.eq_dec (task_AttemptCount v) (task_AttemptCount u)) as [E|]; [| left; lia].
  right. split; [lia | by apply (ev_over _ _ Hev)].
Qed.
Lemma attempt_over_not_fenced claim at_ t d : attempt_over claim d -> db_tasks d !! task_ID claim = Some t -> fenced claim at_ t = false.
Proof.
  intros (u & Hu & Ho) Ht. assert (u = t) as -> by congruence. destruct (fenced claim at_ t) eqn:F; [| reflexivity].
  apply fenced_running in F as [Hr Ha]. destruct Ho as [Hlt | [_ Hr']]; [lia | contradiction].
Qed.

Lemma CommitSuccess_refused c w r w' : attempt_over (claim_Task (succ_Claim c)) (pg_db w) -> repo_CommitSuccess c w = (r, w') ->
  is_ok r = false /\ pg_db w' = pg_db w.
Proof.
  intros Ho H. unfold repo_CommitSuccess in H. unfold mbind at 1, mlift at 1 in H. destruct (wrap _ _) as [[]|e|]; [| by injection H as <- <- | by injection H as <- <-].
  apply transaction_refused in H; [exact H |]. intros w0 e w1 E Hb. apply CommitSuccess_body in Hb as [_ (t & q & d1 & d2 & Et & _ & Hf & _)].
  rewrite E in Et. by rewrite (attempt_over_not_fenced _ _ t _ Ho Et) in Hf.
Qed.
Lemma CommitFailure_refused c w r w' : attempt_over (claim_Task (fail_Claim c)) (pg_db w) -> repo_CommitFailure c w = (r, w') ->
  is_ok r = false /\ pg_db w' = pg_db w.
Proof.
  intros Ho H. unfold repo_CommitFailure in H. unfold mbind at 1, mlift at 1 in H. destruct (wrap _ _) as [[]|e|]; [| by injection H as <- <- | by injection H as <- <-].
  apply transaction_refused in H; [exact H |]. intros w0 e w1 E Hb. apply CommitFailure_body in Hb as [_ (t & q & d1 & Et & Hf & _)].
  rewrite E in Et. by rewrite (attempt_over_not_fenced _ _ t _ Ho Et) in Hf.
Qed.

(** A commit that succeeded ended the attempt. *)
Lemma CommitSuccess_over c w w' : repo_CommitSuccess c w = (Ok tt, w') -> attempt_over (claim_Task (succ_Claim c)) (pg_db w').
Proof.
  intros (t & r & d1 & d2 & Et & _ & [Hr Ha]%fenced_running & Es & _ & _ & ->)%CommitSuccess_ok. injection Es as <-.
  eexists. simpl. split; [apply lookup_insert_eq |]. right. split; [exact Ha | discriminate].
Qed.
Lemma failureCommit_status config claim e at_ : fail_Claim (failureCommit config claim e at_) = claim /\
  (fail_Status (failureCommit config claim e at_) = "failed"%string \/ fail_Status (failureCommit config claim e at_) = "retry_wait"%string).
Proof. unfold failureCommit. cbv zeta. destruct (_ || _); simpl; auto. Qed.
Lemma CommitFailure_over config claim e at_ w w' : repo_CommitFailure (failureCommit config claim e at_) w = (Ok tt, w') ->
  attempt_over (claim_Task claim) (pg_db w').
Proof.
  destruct (failureCommit_status config claim e at_) as [Ec Hs].
  intros (t & r & d1 & Et & [Hr Ha]%fenced_running & Es & _ & ->)%CommitFailure_ok. rewrite Ec in *.
  eexists. simpl. split; [apply lookup_insert_eq |]. unfold failure_row in Es. apply rbind_ok in Es as (st & Est & Es).
  assert (st = fail_Status (failureCommit config claim e at_)) as -> by (apply (pg_varchar_exact _ _ _ Est); destruct Hs as [-> | ->]; vm_compute; discriminate).
  do 3 (apply rbind_ok in Es as (? & _ & Es)). injection Es as <-. right. split; [exact Ha |]. simpl. destruct Hs as [-> | ->]; discriminate.
Qed.
End Fence.
