(* ===== verification/HistoryFacts.v ===== *)
(** * Properties of the histories of the ingestion repository

    How tasks live, how claims exclude each other, and what a commit does. *)
From S2P Require Import Prelude Errors GoStrings GoTime GoJson External Domain MarketData CatchUp Incremental Ports Ingestion Service Fixtures IngestionFacts ManualTasks Database Statements Repository RepositoryFacts Lifecycle RepositoryFixtures History.
Open Scope go_scope.

Section HistoryFacts.
Context `{D : DecimalLib} `{T : TzLib} `{U : UUIDLib} `{P : !PgLib} {L : PgLaws P}.

(** ** Reachable states *)
Lemma reachable_history w0 s : inv (pg_db w0) -> steps (w0, []) s -> history [] s.
Proof. intros Hi Hs. apply (steps_history [] _ _ Hs). split; [exact Hi | constructor]. Qed.

Lemma step_claims s s' : step s s' -> snd s' = snd s \/ exists scan locked workerID now d claim,
  repo_ClaimNextTask scan locked workerID now d (fst s) = (Ok (Some claim), fst s') /\ snd s' = claim :: snd s.
Proof. intros Hs. destruct Hs; simpl; eauto 12. Qed.

Lemma history_claim ts s claim : history ts s -> In claim (snd s) -> has_evolved (claim_Task claim) (pg_db (fst s)).
Proof.
  intros [_ He] Hin. rewrite List.Forall_forall in He. apply He, in_app_iff. right. by apply in_map.
Qed.

(** The row a claim is made of. *)
Lemma claimed_row scan locked workerID now d w claim w' ts : on_db (life ts) w ->
  repo_ClaimNextTask scan locked workerID now d w = (Ok (Some claim), w') ->
  exists t r, db_tasks (pg_db w) !! task_ID t = Some t /\ task_ok t /\ task_ok r /\
    db_tasks (pg_db w') !! task_ID t = Some r /\ claim_Task claim = scanTask r /\ task_ID r = task_ID t /\
    task_Status r = "running"%string /\ task_AttemptCount r = task_AttemptCount t + 1.
Proof.
  intros [(Ht & _) _] H. apply ClaimNextTask_issued in H as (r & Hr & Ec). apply claim_next_claimed in Hr as (t & by_ & Ho & _ & Er & Ed).
  apply oldest_In in Ho as [[=] | Ho]. apply claim_candidates_In in Ho as (Hc & id & _ & _ & Et). destruct (Ht id t Et) as (Ei & Hok & _).
  exists t, r. rewrite Ed, Er. simpl. rewrite Ei, lookup_insert_eq. repeat (split; [first [assumption | reflexivity] |]).
  split; [apply (claim_advances _ _ _ t Hok (claimable_waiting _ _ Hc)) |]. rewrite Ec, Er. by repeat split.
Qed.

(** ** The claims of a task *)
Definition claim_key (claim : TaskClaim) : ID * Z := (task_ID (claim_Task claim), task_AttemptCount (claim_Task claim)).


Lemma claim_later s s' claim claim' : history [] s -> step s s' -> In claim (snd s) -> snd s' = claim' :: snd s ->
  task_ID (claim_Task claim') = task_ID (claim_Task claim) ->
  task_AttemptCount (claim_Task claim) < task_AttemptCount (claim_Task claim') /\
  task_MaxAttempts (claim_Task claim') = task_MaxAttempts (claim_Task claim).
Proof.
  intros Hh Hst Hin Hs Ei. destruct (step_claims s s' Hst) as [E | (scan & locked & workerID & now & dur & c & Hc & E)].
  { rewrite E in Hs. apply (f_equal length) in Hs. simpl in Hs. lia. }
  rewrite E in Hs. injection Hs as ->.
  destruct (claimed_row _ _ _ _ _ _ _ _ _ Hh Hc) as (t & r & Et & _ & _ & Er & Ec & Eid & _ & Ea).
  pose proof (step_history [] _ _ Hst Hh) as Hh'. destruct (history_claim [] s claim Hh Hin) as (u & Hu & Hev).
  assert (In claim (snd s')) as Hin' by (rewrite E; by right). destruct (history_claim [] s' claim Hh' Hin') as (v & Hv & Hev').
  rewrite Ec in Ei. simpl in Ei. rewrite <- Ei, Eid in Hu, Hv. assert (u = t) as -> by congruence. assert (v = r) as -> by congruence.
  rewrite Ec. simpl. rewrite Ea. split; [pose proof (ev_attempts _ _ Hev); lia | apply (ev_max _ _ Hev')].
Qed.

Definition claims_of (id : ID) (cs : list TaskClaim) : list TaskClaim := List.filter (fun claim => task_ID (claim_Task claim) =id id) cs.

Lemma claims_distinct s s0 : steps s0 s -> snd s0 = [] -> inv (pg_db (fst s0)) ->
  List.NoDup (map claim_key (snd s)) /\ (forall claim, In claim (snd s) -> 1 <= task_AttemptCount (claim_Task claim) <= task_MaxAttempts (claim_Task claim)) /\
  (forall c c', In c (snd s) -> In c' (snd s) -> task_ID (claim_Task c) = task_ID (claim_Task c') ->
     task_MaxAttempts (claim_Task c) = task_MaxAttempts (claim_Task c')).
Proof.
  intros Hst En Hi. revert s Hst. apply rtc_ind_r; [rewrite En; split; [constructor | split; [by intros ? [] | by intros ? ? []]] |].
  intros y z Hy Hz (Hn & Hr & Hm). destruct s0 as [w0 cs0]. simpl in En. subst cs0. pose proof (reachable_history w0 y Hi Hy) as Hh.
  destruct (step_claims y z Hz) as [-> | (scan & locked & workerID & now & dur & claim & Hc & E)]; [auto |].
  destruct (claimed_row _ _ _ _ _ _ _ _ _ Hh Hc) as (t & r & _ & Hok & Hok' & _ & Ec & _ & _ & Ea).
  assert (forall c, In c (snd y) -> task_ID (claim_Task claim) = task_ID (claim_Task c) ->
    task_AttemptCount (claim_Task c) < task_AttemptCount (claim_Task claim) /\ task_MaxAttempts (claim_Task claim) = task_MaxAttempts (claim_Task c)) as Hl
    by (intros c Hin; by apply (claim_later y z)).
  rewrite E. split; [| split].
  - simpl. constructor; [| exact Hn]. intros (c & Ek & Hin)%in_map_iff. injection Ek as Ek Ea'. destruct (Hl c Hin (eq_sym Ek)). lia.
  - intros c [<- | Hin]; [| by apply Hr]. rewrite Ec. pose proof (ok_attempts _ Hok) as A. pose proof (ok_attempts _ Hok') as A'. simpl. lia.
  - intros c c' [<- | Hin] [<- | Hin'] Ei; [reflexivity | by apply Hl | symmetry; by apply Hl | by apply Hm].
Qed.

(** C3. Claims exclude each other: in every history of the repository, whoever
    the workers are and whatever fails, no two claims it issues are for the
    same attempt of a task, an attempt is between 1 and the task's maximum, and
    so a task is never claimed more often than its maximum of attempts. *)
Theorem claims_exclusive w0 s : inv (pg_db w0) -> steps (w0, []) s ->
  List.NoDup (map claim_key (snd s)) /\
  forall claim, In claim (snd s) -> 1 <= task_AttemptCount (claim_Task claim) <= task_MaxAttempts (claim_Task claim) /\
    llen (claims_of (task_ID (claim_Task claim)) (snd s)) <= task_MaxAttempts (claim_Task claim).
Proof.
  intros Hi Hst. destruct (claims_distinct s (w0, []) Hst eq_refl Hi) as (Hn & Hr & Hm). split; [exact Hn |]. intros claim Hin.
  split; [by apply Hr |]. pose proof (Hr _ Hin) as Hb. unfold llen. rewrite <- (length_map (fun c => task_AttemptCount (claim_Task c))).
  apply NoDup_range_length; [| | lia].
  - unfold claims_of. clear Hr Hm Hb Hin Hst. induction (snd s) as [|c cs IH]; simpl; [constructor |]. inversion Hn as [|? ? Hc Hcs]; subst.
    destruct (N.eqb_spec (task_ID (claim_Task c)) (task_ID (claim_Task claim))) as [E|E]; [| by apply IH]. simpl. constructor; [| by apply IH].
    intros (c' & Ea & [Hc' Ei%N.eqb_eq]%filter_In)%in_map_iff. apply Hc, in_map_iff. exists c'. split; [| exact Hc']. unfold claim_key. congruence.
  - intros x (c & <- & [Hc Ei%N.eqb_eq]%filter_In)%in_map_iff. pose proof (Hr c Hc). rewrite <- (Hm c claim Hc Hin Ei). lia.
Qed.

(** ** The life of a task *)
(** C1. The life of a task: in every history, from any well-formed tables, the
    tables stay well formed (attempts within the limit, a lease exactly while
    a task runs, a next attempt exactly while it waits for a retry, a finish
    time exactly when it is over, one active successor at most), a row is never
    lost, its identity and range never change, its attempts only grow, and a
    succeeded, failed or canceled task never changes again. *)
Theorem task_life w0 s s' : inv (pg_db w0) -> steps (w0, []) s -> steps s s' ->
  inv (pg_db (fst s')) /\ forall id t, db_tasks (pg_db (fst s)) !! id = Some t -> exists u, db_tasks (pg_db (fst s')) !! id = Some u /\ evolves t u.
Proof.
  intros Hi H1 H2. pose proof (reachable_history w0 s Hi H1) as Hh. split; [apply (steps_history [] _ _ H2 Hh) |].
  intros id t Ht. destruct Hh as [Hinv He]. destruct (proj1 Hinv id t Ht) as [Ei _].
  assert (history [t] s) as Hh'. { split; [exact Hinv |]. simpl. constructor; [| exact He]. exists t. rewrite Ei. split; [exact Ht | reflexivity]. }
  destruct (steps_history [t] _ _ H2 Hh') as [_ He']. simpl in He'. inversion He' as [|? ? (u & Hu & Hev) _]; subst. eauto.
Qed.

(** ** Commits *)
(** A commit of a claim: of its success, or of a failure the service built. *)
Inductive commits (claim : TaskClaim) (w : PG) : result unit -> PG -> Prop :=
  | commits_success c r w' : succ_Claim c = claim -> repo_CommitSuccess c w = (r, w') -> commits claim w r w'
  | commits_failure config e at_ r w' : repo_CommitFailure (failureCommit config claim e at_) w = (r, w') -> commits claim w r w'.

Lemma commits_refused claim w r w' : attempt_over (claim_Task claim) (pg_db w) -> commits claim w r w' -> is_ok r = false /\ pg_db w' = pg_db w.
Proof.
  intros Ho [c r1 w1 Ec H | config e at_ r1 w1 H].
  - apply (CommitSuccess_refused c w); [by rewrite Ec | exact H].
  - apply (CommitFailure_refused (failureCommit config claim e at_) w); [| exact H]. by rewrite (proj1 (failureCommit_status config claim e at_)).
Qed.
Lemma commits_over claim w w' : commits claim w (Ok tt) w' -> attempt_over (claim_Task claim) (pg_db w').
Proof.
  intros H. inversion H; subst; [eapply CommitSuccess_over | eapply CommitFailure_over]; eassumption.
Qed.
Lemma steps_over claim s s' : history [] s -> steps s s' -> attempt_over claim (pg_db (fst s)) -> attempt_over claim (pg_db (fst s')).
Proof.
  intros Hh Hst (u & Hu & Ho). destruct Hh as [Hinv He]. destruct (proj1 Hinv _ u Hu) as [Ei _].
  assert (history [u] s) as Hh'. { split; [exact Hinv |]. simpl. constructor; [| exact He]. exists u. rewrite Ei. split; [exact Hu | reflexivity]. }
  destruct (steps_history [u] _ _ Hst Hh') as [_ He']. simpl in He'. inversion He' as [|? ? (v & Hv & Hev) _]; subst.
  exists v. rewrite <- Ei. split; [exact Hv |]. by apply (attempt_over_evolves _ u).
Qed.

(** C2. An attempt is committed at most once: after a commit of an issued claim
    has succeeded, every later commit of the same claim, of success or of
    failure, whatever happened in between, is an error that changes nothing. *)
Theorem commit_once w0 s claim w1 s2 r w3 : inv (pg_db w0) -> steps (w0, []) s -> In claim (snd s) ->
  commits claim (fst s) (Ok tt) w1 -> steps (w1, snd s) s2 -> commits claim (fst s2) r w3 ->
  is_ok r = false /\ pg_db w3 = pg_db (fst s2).
Proof.
  intros Hi H0 Hin Hc H2 Hc'. apply (commits_refused claim (fst s2)); [| exact Hc'].
  assert (step s (w1, snd s)) as Hst.
  { destruct s as [w cs]. simpl in *. inversion Hc as [c r1 w2 Ec E | config e at_ r1 w2 E]; subst; [by eapply step_success | by eapply step_failure]. }
  apply (steps_over _ (w1, snd s)); [| exact H2 | by apply (commits_over _ (fst s))].
  apply (step_history [] s _ Hst). by apply (reachable_history w0).
Qed.

Lemma greatest_ge a b x : a = Some x -> exists y, greatest a b = Some y /\ x <= y.
Proof. intros ->. destruct b as [e|]; simpl; [exists (Z.max x e) | exists x]; split; (reflexivity || lia). Qed.
Lemma succeed_checkpoint_ok c d d' : succeed_checkpoint c d = Ok (tt, d') -> exists k, db_checkpoints d' = <[ckpt_SubscriptionID c := k]> (db_checkpoints d) /\
  db_runs d' = db_runs d /\ db_tasks d' = db_tasks d /\ ckpt_ConsecutiveFailures k = 0 /\ ckpt_LastSuccessAt k = opt_time (ckpt_LastSuccessAt c) /\
  forall old, db_checkpoints d !! ckpt_SubscriptionID c = Some old ->
    (forall x, ckpt_LastSuccessOpenTime old = Some x -> exists y, ckpt_LastSuccessOpenTime k = Some y /\ x <= y) /\
    (forall x, ckpt_LastClosedOpenTime old = Some x -> exists y, ckpt_LastClosedOpenTime k = Some y /\ x <= y).
Proof.
  unfold succeed_checkpoint. intros H. apply rbind_ok in H as ([] & _ & H). cbv zeta in H. injection H as <-.
  eexists. split; [reflexivity |]. repeat (split; [reflexivity |]). intros old Ho. simpl. rewrite Ho. simpl.
  split; intros x Hx; by apply greatest_ge.
Qed.

Lemma lease_held t claim at_ : lease_lost t claim at_ = false -> task_Status t = "running"%string /\
  task_AttemptCount t = task_AttemptCount claim /\ task_SubscriptionID t = task_SubscriptionID claim /\
  (exists by_, task_LockedBy t = Some by_ /\ task_LockedBy claim = Some by_) /\ exists until, task_LockedUntil t = Some until /\ at_ < until.
Proof.
  unfold lease_lost. intros H. split_guard H.
  repeat match goal with X : negb _ = false |- _ => apply negb_false_iff in X end.
  destruct (task_LockedBy t) as [a|], (task_LockedBy claim) as [b|]; try discriminate.
  destruct (task_LockedUntil t) as [u|], (task_LockedUntil claim) as [v|]; try discriminate.
  bsimp. subst. split; [assumption |]. split; [assumption |]. split; [assumption |]. split; [by eauto |]. eexists. split; [reflexivity |].
  unfold After, Equal in *. bsimp. subst. lia.
Qed.

(** C9. What a successful commit does: the task was still running the claim's
    attempt for the claim's worker, with a lease beyond the finish time; it is
    the only task that changes, to a success of the same attempt, finished and
    without lease; no run changes; and its subscription's checkpoint alone
    changes, with no failures left and columns that never go back. *)
Theorem commit_success_effect c w w' : repo_CommitSuccess c w = (Ok tt, w') ->
  let claim := claim_Task (succ_Claim c) in
  exists t r k, db_tasks (pg_db w) !! task_ID claim = Some t /\ task_Status t = "running"%string /\
    task_AttemptCount t = task_AttemptCount claim /\ task_LockedBy t = task_LockedBy claim /\
    (exists until, task_LockedUntil t = Some until /\ succ_FinishedAt c < until) /\
    db_tasks (pg_db w') = <[task_ID claim := r]> (db_tasks (pg_db w)) /\ task_Status r = "success"%string /\
    task_AttemptCount r = task_AttemptCount t /\ task_FinishedAt r = Some (pg_time (succ_FinishedAt c)) /\ task_LockedBy r = None /\
    task_LockedUntil r = None /\ db_runs (pg_db w') = db_runs (pg_db w) /\
    db_checkpoints (pg_db w') = <[ckpt_SubscriptionID (succ_Checkpoint c) := k]> (db_checkpoints (pg_db w)) /\
    ckpt_ConsecutiveFailures k = 0 /\
    forall old, db_checkpoints (pg_db w) !! ckpt_SubscriptionID (succ_Checkpoint c) = Some old ->
      (forall x, ckpt_LastSuccessOpenTime old = Some x -> exists y, ckpt_LastSuccessOpenTime k = Some y /\ x <= y) /\
      (forall x, ckpt_LastClosedOpenTime old = Some x -> exists y, ckpt_LastClosedOpenTime k = Some y /\ x <= y).
Proof.
  intros H claim. apply CommitSuccess_ok in H as (t & r & d1 & d2 & Et & Hl & _ & Hr & (F1 & F2 & F3) & Hc & ->).
  apply lease_held in Hl as (Hs & Ha & _ & (by_ & Eb & Eb') & Hu). injection Hr as <-.
  apply succeed_checkpoint_ok in Hc as (k & K1 & K2 & K3 & K4 & _ & K5). rewrite F3 in *.
  eexists t, _, k. split; [exact Et |]. split; [exact Hs |]. split; [exact Ha |]. split; [unfold claim; congruence |]. split; [exact Hu |]. simpl. rewrite K3, F1.
  do 3 (split; [reflexivity |]). split; [simpl; by rewrite TimeToDatabase_id |]. do 2 (split; [reflexivity |]). split; [by rewrite K2 |]. split; [exact K1 |]. split; [exact K4 | exact K5].
Qed.

(** ** Bars *)
(** C12. What [WriteMarketBar] does to the revisions of a bar: the bar is either
    unchanged, when the current revision has its non-empty hash, and then
    nothing is written; or it becomes revision n + 1 of the n stored ones, the
    only current one, every earlier revision is kept and retired, and no other
    series changes. The revisions stay 1, 2, ..., with exactly the last current. *)
Theorem market_bar_write b w r w' : bars_inv (pg_db w) -> repo_WriteMarketBar b w = (Ok r, w') ->
  let old := series b (pg_db w) in
  bars_inv (pg_db w') /\
  ((mbw_Applied r = false /\ mbw_Revision r = llen old /\ pg_db w' = pg_db w /\
    exists current, last old = Some current /\ bar_RawHash current = bar_RawHash b /\ bar_RawHash b <> EmptyString) \/
   (mbw_Applied r = true /\ mbw_Revision r = llen old + 1 /\
    exists row, series b (pg_db w') = map retire old ++ [row] /\ bar_IsCurrent row = true /\ bar_Revision row = llen old + 1 /\
      bar_row (bar_with_storage b (llen old + 1) true (normalizedJSON (bar_Metadata b))) = Ok row /\
      forall key, key <> series_key b -> db_bars (pg_db w') !! key = db_bars (pg_db w) !! key)).
Proof.
  intros Hb H old. unfold repo_WriteMarketBar in H. apply mbind_ok in H as (b' & y & [Hn%wrap_ok ->]%mlift_ok & H).
  apply mbind_ok in H as (b2 & y & [_ ->]%mlift_ok & H). pose proof (NewBar_interval b b' Hn) as Hi. apply NewBar_ok in Hn as [-> _].
  apply transaction_ok in H as (w0 & w1 & E0 & Hbody).
  assert (exists e, revision_written (bar_with_storage b (bar_Revision b) (bar_IsCurrent b) (normalizedJSON (bar_Metadata b))) (pg_db w) e (pg_db w') /\
    (e = Committed r \/ e = RolledBack r)) as (e & Hw & He).
  { rewrite <- E0 in Hb. destruct Hbody as [[Hbody E] | [Hbody E]]; pose proof (write_revision_spec _ _ _ _ _ _ (@mwrap_db_ok _) Hb Hi Hbody) as Hw;
      rewrite E0 in Hw; [rewrite E; eauto |]. rewrite E. exists (RolledBack r). split; [| auto].
    destruct Hw as [(c & C1 & C2 & C3 & C4 & C5) | (row & [=] & _)]. left. by exists c. }
  pose proof (revision_written_inv _ _ _ _ Hb Hi Hw) as Hb'. split; [exact Hb' |].
  change (series (bar_with_storage b (bar_Revision b) (bar_IsCurrent b) (normalizedJSON (bar_Metadata b))) (pg_db w)) with old in Hw.
  destruct Hw as [(current & Hl & Eh & Hne & Ee & Ed) | (row & Ee & Ek & Hrow & Ed)]; rewrite Ee in He.
  - left. destruct He as [He | He]; [discriminate |]. injection He as <-. by repeat (split; [first [reflexivity | assumption] |]); eauto.
  - right. destruct He as [He | He]; [| discriminate]. injection He as <-. split; [reflexivity |]. split; [reflexivity |]. exists row.
    match type of Hrow with bar_row ?x = _ => destruct (bar_row_ok x row Hi Hrow) as (_ & Er & Ec) end. rewrite Ed. unfold series. simpl.
    change (series_key (bar_with_storage b (bar_Revision b) (bar_IsCurrent b) (normalizedJSON (bar_Metadata b)))) with (series_key b) in *.
    rewrite lookup_insert_eq. split; [reflexivity |]. split; [exact Ec |]. split; [exact Er |]. split; [exact Hrow |].
    intros key Hk. by rewrite lookup_insert_ne.
Qed.
End HistoryFacts.

(** ** A history of the witnesses *)
Lemma scheduled_step : step (fresh_store, []) (scheduled_store, []).
Proof. eapply (step_schedule morning_batch). apply surjective_pairing. Qed.
Lemma claimed_step : step (scheduled_store, []) (claimed_store, [morning_claim]).
Proof. eapply step_claim. exact claimed_ok. Qed.
Lemma committed_call : repo_CommitSuccess morning_commit claimed_store = (Ok tt, committed_store).
Proof. unfold committed_store. apply ran. exact committed_ok. Qed.
Lemma committed_step : step (claimed_store, [morning_claim]) (committed_store, [morning_claim]).
Proof. eapply (step_success morning_commit); [by left | exact committed_call]. Qed.
Lemma claimed_steps : steps (fresh_store, []) (claimed_store, [morning_claim]).
Proof. eapply rtc_l; [exact scheduled_step |]. apply rtc_once. exact claimed_step. Qed.

Lemma task_life_witness : exists t u, db_tasks (pg_db scheduled_store) !! uuid7 20 = Some t /\
  db_tasks (pg_db committed_store) !! uuid7 20 = Some u /\ evolves t u.
Proof.
  destruct (task_life fresh_store (scheduled_store, []) (committed_store, [morning_claim]) tables_inv) as [_ H].
  - apply rtc_once. exact scheduled_step.
  - eapply rtc_l; [exact claimed_step |]. apply rtc_once. exact committed_step.
  - destruct (db_tasks (pg_db scheduled_store) !! uuid7 20) as [t|] eqn:E; [| vm_compute in E; discriminate E].
    destruct (H _ _ E) as (u & Hu & Hev). exists t, u. split; [reflexivity |]. split; [exact Hu | exact Hev].
Defined.
Lemma claims_exclusive_witness : llen (claims_of (task_ID (claim_Task morning_claim)) [morning_claim]) <= task_MaxAttempts (claim_Task morning_claim).
Proof.
  destruct (claims_exclusive fresh_store (claimed_store, [morning_claim]) tables_inv claimed_steps) as [_ H].
  apply (H morning_claim). by left.
Defined.
Lemma commit_once_witness : is_ok (fst (repo_CommitSuccess morning_commit committed_store)) = false.
Proof.
  apply (commit_once fresh_store (claimed_store, [morning_claim]) morning_claim committed_store (committed_store, [morning_claim]) _
    (snd (repo_CommitSuccess morning_commit committed_store)) tables_inv claimed_steps).
  - by left.
  - apply (commits_success _ _ morning_commit); [reflexivity | exact committed_call].
  - apply rtc_refl.
  - apply (commits_success _ _ morning_commit); [reflexivity | apply surjective_pairing].
Defined.
Lemma commit_success_effect_witness : exists k, db_checkpoints (pg_db committed_store) = <[uuid7 5 := k]> (db_checkpoints (pg_db claimed_store)) /\
  ckpt_ConsecutiveFailures k = 0.
Proof.
  destruct (commit_success_effect morning_commit claimed_store committed_store committed_call)
    as (t & r & k & _ & _ & _ & _ & _ & _ & _ & _ & _ & _ & _ & _ & Hk & Hf & _).
  exists k. split; [exact Hk | exact Hf].
Defined.
Lemma market_bar_write_witness : exists row,
  series (morning_bar morning) (pg_db (snd (repo_WriteMarketBar (morning_bar morning) fresh_store))) = [row] /\ bar_Revision row = 1.
Proof.
  destruct (market_bar_write (morning_bar morning) fresh_store (mkMarketBarWriteResult true 1) (snd (repo_WriteMarketBar (morning_bar morning) fresh_store)))
    as [_ [(F & _) | (_ & _ & row & Hs & _ & Hr & _)]].
  - apply tables_inv.
  - apply ran. vm_compute. reflexivity.
  - discriminate F.
  - exists row. split; [exact Hs | exact Hr].
Defined.

(** ** The concrete store *)
Lemma scheduled_inv : inv (pg_db scheduled_store).
Proof.
  pose proof (step_history [] (fresh_store, []) (scheduled_store, [])) as H. destruct H as [Hi _]; [| split; [exact tables_inv | constructor] | exact Hi].
  apply (step_schedule morning_batch _ (fst (repo_CreateScheduledBatch morning_batch fresh_store))). apply surjective_pairing.
Qed.
