(* ===== verification/StoreFacts.v ===== *)
(** * Run summaries and scheduled batches in the store

    What [SaveRunSummary] leaves in the run, and that [CreateScheduledBatch]
    creates the work of a batch once. *)
From S2P Require Import Prelude Errors GoStrings GoTime GoJson External Domain MarketData CatchUp Incremental Ports Ingestion Service Fixtures IngestionFacts ManualTasks Database Statements Repository RepositoryFacts Lifecycle RepositoryFixtures History HistoryFacts.
Open Scope go_scope.

Section StoreFacts.
Context `{D : DecimalLib} `{T : TzLib} `{U : UUIDLib} `{P : !PgLib} {L : PgLaws P}.

(** ** Summaries *)
Lemma summary_status_short s : RuneCountInString (summary_status s) <= 16.
Proof. unfold summary_status. repeat (destruct (_ : bool); [vm_compute; discriminate |]). vm_compute. discriminate. Qed.

Lemma validateRunSummary_ok s : validateRunSummary s = Ok tt -> exists e,
  SummarizeRun (mkRunTaskSnapshot (sum_RunID s) (sum_PendingCount s) (sum_RunningCount s) (sum_RetryWaitCount s)
    (sum_SuccessCount s) (sum_FailedCount s) (sum_CanceledCount s) (sum_EarliestStartedAt s) (sum_LatestFinishedAt s)) = Ok e /\
  sum_TaskCount s = sum_TaskCount e /\ sum_Status s = sum_Status e.
Proof.
  unfold validateRunSummary. destruct (SummarizeRun _) as [e|e|]; try discriminate. destruct (_ || _) eqn:G; [discriminate |].
  intros _. split_guard G. exists e. split; [reflexivity |]. split; [by apply Z.eqb_eq, negb_false_iff | by apply String.eqb_eq, negb_false_iff].
Qed.

(** The counts of the tasks of a run in the tables. *)
Definition counted (runID : ID) (d : DB) (earliest latest : option Time) : RunTaskSnapshot :=
  let tasks := run_tasks runID d in
  mkRunTaskSnapshot runID (count_status "pending" tasks) (count_status "running" tasks) (count_status "retry_wait" tasks)
    (count_status "success" tasks) (count_status "failed" tasks) (count_status "canceled" tasks) earliest latest.

(** A summary that is saved is true of the tables it is saved in: the run
    then has the number of its tasks, of the succeeded and of the failed ones,
    and the status [SummarizeRun] computes from their states at that moment,
    even if the tasks changed after the summary was computed; tasks and
    checkpoints are untouched. *)
Theorem run_summary_saved s w w' : repo_SaveRunSummary s w = (Ok tt, w') -> exists r e,
  db_runs (pg_db w') !! sum_RunID s = Some r /\
  SummarizeRun (counted (sum_RunID s) (pg_db w) (sum_EarliestStartedAt s) (sum_LatestFinishedAt s)) = Ok e /\ run_Status r = sum_Status e /\
  run_TaskCount r = llen (run_tasks (sum_RunID s) (pg_db w)) /\ run_TaskCount r = sum_TaskCount e /\
  run_SuccessCount r = count_status "success" (run_tasks (sum_RunID s) (pg_db w)) /\
  run_FailedCount r = count_status "failed" (run_tasks (sum_RunID s) (pg_db w)) /\
  db_tasks (pg_db w') = db_tasks (pg_db w) /\ db_checkpoints (pg_db w') = db_checkpoints (pg_db w).
Proof.
  unfold repo_SaveRunSummary. intros H. apply mbind_ok in H as ([] & y & [Hv%wrap_ok ->]%mlift_ok & H).
  apply validateRunSummary_ok in Hv as (e & He & Et & Es). apply mbind_ok in H as (n & y & Hs & H).
  destruct (negb (n =? 1)) eqn:N in H; [discriminate |]. injection H as <-. apply negb_false_iff, Z.eqb_eq in N. subst n.
  apply mwrap_db_ok, exec_auto_ok in Hs. unfold save_summary in Hs. destruct (db_runs (pg_db w) !! _) as [r|] eqn:Er; [| discriminate].
  destruct (summary_current s (pg_db w)) eqn:C; [| discriminate]. unfold summary_current in C.
  repeat match goal with X : _ && _ = true |- _ => apply andb_true_iff in X; destruct X as [X ?] end.
  repeat match goal with X : (_ =? _) = true |- _ => apply Z.eqb_eq in X end.
  apply rbind_ok in Hs as (st & Hst & Hs). apply rbind_ok in Hs as (n1 & Hn1 & Hs). apply rbind_ok in Hs as (n2 & Hn2 & Hs).
  apply rbind_ok in Hs as (n3 & Hn3 & Hs). cbv zeta in Hs. apply rbind_ok in Hs as ([] & _ & Hs). injection Hs as <-.
  unfold pg_int4 in Hn1, Hn2, Hn3. destruct (negb _) in Hn1; [discriminate |]. destruct (negb _) in Hn2; [discriminate |]. destruct (negb _) in Hn3; [discriminate |].
  injection Hn1 as <-. injection Hn2 as <-. injection Hn3 as <-.
  assert (st = sum_Status s) as ->.
  { apply (pg_varchar_exact _ _ _ Hst). rewrite Es. unfold SummarizeRun in He. apply rbind_ok in He as ([] & _ & He). injection He as <-. apply summary_status_short. }
  eexists _, e. simpl. rewrite lookup_insert_eq. split; [reflexivity |]. simpl. split; [| by repeat (split; [congruence |])].
  rewrite <- He. unfold counted. cbv zeta. congruence.
Qed.

(** ** Scheduled batches *)
Lemma run_row_fields run row : run_row run = Ok row -> run_ID row = run_ID run /\ run_ScheduledAt row = opt_time (run_ScheduledAt run) /\
  pg_varchar 192 (run_RunKey run) = Ok (run_RunKey row) /\ pg_varchar 24 (run_RunType run) = Ok (run_RunType row) /\
  pg_varchar 16 (run_TriggerType run) = Ok (run_TriggerType row).
Proof. unfold run_row. intros H. inv_ok. by repeat split. Qed.
Lemma task_row_fields task row : task_row task = Ok row -> task_ID row = task_ID task /\ task_RunID row = task_RunID task /\
  task_SubscriptionID row = task_SubscriptionID task /\ task_RangeStart row = pg_time (task_RangeStart task) /\
  task_RangeEnd row = pg_time (task_RangeEnd task).
Proof. unfold task_row. intros H. inv_ok. simpl. by rewrite !TimeToDatabase_id. Qed.

Lemma find_run_key d key r id : runs_inv d -> db_runs d !! id = Some r -> run_RunKey r = key ->
  List.find (fun r => run_RunKey r =s key) (rows (db_runs d)) = Some r.
Proof.
  intros [Hk Hu] Hr Ek. destruct (List.find _ _) as [r'|] eqn:F.
  - apply find_some in F as [(id' & Hid')%rows_In E%String.eqb_eq]. assert (id' = id) as -> by (apply (Hu id' id r' r Hid' Hr); congruence). congruence.
  - exfalso. assert (In r (rows (db_runs d))) as Hin by (apply rows_In; eauto). pose proof (find_none _ _ F r Hin) as N. cbv beta in N.
    by rewrite (proj2 (String.eqb_eq _ _) Ek) in N.
Qed.

Lemma list_nil_filter {A} (f : A -> bool) l : (forall x, In x l -> f x = false) -> List.filter f l = [].
Proof. induction l as [|x l IH]; intros H; simpl; [reflexivity |]. rewrite (H x (or_introl eq_refl)). apply IH. intros y Hy. apply H. by right. Qed.
(** The tasks of a run that has just been given its first one. *)
Lemma run_tasks_one d id t : db_tasks d !! id = None -> (forall i u, db_tasks d !! i = Some u -> task_RunID u <> task_RunID t) ->
  run_tasks (task_RunID t) (set_tasks <[id := t]> d) = [t].
Proof.
  intros Hn Ho. unfold run_tasks, rows. simpl.
  assert (List.filter (fun u => task_RunID u =id task_RunID t) (map snd (map_to_list (<[id:=t]> (db_tasks d)))) ≡ₚ [t]) as Hp.
  { rewrite (Permutation_filter_bool _ _ _ (Permutation_map snd (map_to_list_insert (db_tasks d) id t Hn))). simpl. rewrite N.eqb_refl.
    replace (List.filter _ (map snd (map_to_list (db_tasks d)))) with (@nil IngestionTask); [reflexivity |]. symmetry.
    apply list_nil_filter. intros u (i & Hi)%rows_In. apply N.eqb_neq. by apply (Ho i). }
  by apply Permutation_singleton_r in Hp.
Qed.

(** What a created batch left in the tables. *)
Lemma scheduled_created batch w w' : repo_CreateScheduledBatch batch w = (Ok true, w') ->
  exists row trow d1 sub, batch_Validate batch = Ok tt /\ db_subscriptions (pg_db w) !! task_SubscriptionID (batch_Task batch) = Some sub /\
    sub_Enabled sub = true /\ run_row (batch_Run batch) = Ok row /\ run_checks row = Ok tt /\
    db_runs (pg_db w) !! run_ID (batch_Run batch) = None /\ has_run_key (pg_db w) (run_RunKey row) = false /\
    task_row (batch_Task batch) = Ok trow /\ d1 = set_runs <[run_ID (batch_Run batch) := row]> (pg_db w) /\
    db_tasks d1 !! task_ID (batch_Task batch) = None /\ pg_db w' = set_tasks <[task_ID (batch_Task batch) := trow]> d1.
Proof.
  unfold repo_CreateScheduledBatch. intros H. apply mbind_ok in H as ([] & y & [Hv%wrap_ok ->]%mlift_ok & H).
  apply transaction_ok in H as (w0 & w1 & E0 & Hb).
  destruct Hb as [[Hb E1] | [Hb E1]]; apply mbind_ok in Hb as (enabled & y1 & H1 & Hb); destruct (negb enabled) eqn:En in Hb; try discriminate;
    apply mbind_ok in Hb as (ins & y2 & H2 & Hb); destruct (negb ins) eqn:In_ in Hb.
  1, 3: apply mbind_ok in Hb as (eq_ & y3 & _ & Hb); destruct (negb eq_) in Hb; discriminate.
  2: apply mbind_ok in Hb as ([] & y3 & _ & Hb); discriminate.
  apply mbind_ok in Hb as ([] & y3 & H3 & Hb). injection Hb as ->.
  apply negb_false_iff in En, In_. subst enabled ins. apply mwrap_db_ok, query_ok in H1 as [H1 E2]. apply mwrap_db_ok, exec_tx_ok in H2, H3.
  rewrite E2, E0 in *. apply insert_run_inserted in H2 as (row & Hrow & Hn & Hk & Hc & E3). rewrite E3 in H3.
  apply insert_task_inserted in H3 as (trow & Htrow & _ & Htn & _ & _ & _ & E4). unfold subscription_enabled in H1.
  destruct (db_subscriptions _ !! _) as [sub|] eqn:Es; [| discriminate]. injection H1 as H1.
  exists row, trow, (set_runs <[run_ID (batch_Run batch) := row]> (pg_db w)), sub. rewrite E1, E4. by repeat (split; [first [assumption | reflexivity] |]).
Qed.

(** Times the column stores exactly: whole microseconds. *)
Definition stored_time (t : Time) : Prop := pg_time t = t.

Lemma equivalent_created batch row trow d : inv d -> batch_Validate batch = Ok tt -> run_row (batch_Run batch) = Ok row -> task_row (batch_Task batch) = Ok trow ->
  RuneCountInString (run_RunKey (batch_Run batch)) <= 192 ->
  (forall t, run_ScheduledAt (batch_Run batch) = Some t -> stored_time t) ->
  stored_time (task_RangeStart (batch_Task batch)) -> stored_time (task_RangeEnd (batch_Task batch)) ->
  db_runs d !! run_ID row = Some row -> run_tasks (run_ID row) d = [trow] ->
  equivalentScheduledBatch batch (mkPG d []) = (Ok true, mkPG d []).
Proof.
  intros (_ & Hri & _) Hv Hrow Htrow Hk Hs Hrs Hre Hd Hts. destruct (run_row_fields _ _ Hrow) as (E1 & E2 & E3 & E4 & E5).
  destruct (task_row_fields _ _ Htrow) as (F1 & F2 & F3 & F4 & F5).
  assert (run_RunKey row = run_RunKey (batch_Run batch)) as Ek by (by apply (pg_varchar_exact _ _ _ E3)).
  unfold batch_Validate in Hv. cbv zeta in Hv. destruct (_ && _) in Hv; [discriminate |]. destruct (_ || _) eqn:G in Hv; [discriminate |]. clear Hv.
  split_guard G.
  assert (exists t, run_ScheduledAt (batch_Run batch) = Some t) as [at_ Eat].
  { destruct (run_ScheduledAt (batch_Run batch)) eqn:E; [eauto |]. discriminate. }
  assert (run_RunType row = run_RunType (batch_Run batch)) as Et.
  { apply (pg_varchar_exact _ _ _ E4). match goal with X : (run_RunType _ <>s _) = false |- _ => apply negb_false_iff, String.eqb_eq in X; rewrite X end.
    destruct (batch_Trigger batch =s _); vm_compute; discriminate. }
  assert (run_TriggerType row = run_TriggerType (batch_Run batch)) as Eg.
  { apply (pg_varchar_exact _ _ _ E5). match goal with X : (run_TriggerType _ <>s _) = false |- _ => apply negb_false_iff, String.eqb_eq in X; rewrite X end.
    vm_compute; discriminate. }
  assert (run_ScheduledAt row = Some at_) as Esc.
  { rewrite E2, Eat. unfold opt_time. simpl. by rewrite TimeToDatabase_id, (Hs at_ Eat). }
  unfold equivalentScheduledBatch, mwrap_db, mbind, query, exec_tx, next_fault, run_sql. simpl. unfold existing_batch.
  rewrite (find_run_key d _ row (run_ID row) Hri Hd Ek), Hts. simpl. rewrite Esc. simpl.
  rewrite Et, Eg, Eat, F3, F4, F5, !TimeToDatabase_id, Hrs, Hre, !String.eqb_refl, N.eqb_refl. unfold Equal. simpl.
  by rewrite TimeToDatabase_id, !Z.eqb_refl.
Qed.

(** Scheduling is idempotent: once a batch has been created, creating it
    again, as the next scan or another instance does, finds the same work under
    the run key, reports it as existing and changes nothing. The times of the
    batch are whole microseconds, as the windows' are, and the key fits its
    column. *)
Theorem scheduled_batch_idempotent batch w w' : inv (pg_db w) ->
  RuneCountInString (run_RunKey (batch_Run batch)) <= 192 ->
  (forall t, run_ScheduledAt (batch_Run batch) = Some t -> stored_time t) ->
  stored_time (task_RangeStart (batch_Task batch)) -> stored_time (task_RangeEnd (batch_Task batch)) ->
  repo_CreateScheduledBatch batch w = (Ok true, w') ->
  repo_CreateScheduledBatch batch (mkPG (pg_db w') []) = (Ok false, mkPG (pg_db w') []).
Proof.
  intros Hi Hk Hs Hrs Hre H. pose proof (safe_CreateScheduledBatch [] batch w) as Hsafe. rewrite H in Hsafe.
  assert (inv (pg_db w')) as Hi' by (apply Hsafe; split; [exact Hi | constructor]).
  apply scheduled_created in H as (row & trow & d1 & sub & Hv & Hsub & Hen & Hrow & Hc & Hn & Hkey & Htrow & E1 & Htn & E2).
  destruct (run_row_fields _ _ Hrow) as (R1 & _ & R3 & _). destruct (task_row_fields _ _ Htrow) as (T1 & T2 & _).
  assert (run_RunKey row = run_RunKey (batch_Run batch)) as Ek by (by apply (pg_varchar_exact _ _ _ R3)).
  assert (db_runs (pg_db w') !! run_ID row = Some row) as Hget by (rewrite E2, E1, R1; simpl; apply lookup_insert_eq).
  assert (task_RunID (batch_Task batch) = run_ID (batch_Run batch)) as Erun.
  { pose proof Hv as Hv'. unfold batch_Validate in Hv'. cbv zeta in Hv'. destruct (_ && _) in Hv'; [discriminate |]. destruct (_ || _) eqn:G in Hv'; [discriminate |].
    split_guard G. match goal with X : (task_RunID _ <>id _) = false |- _ => by apply negb_false_iff, N.eqb_eq in X end. }
  assert (run_tasks (run_ID row) (pg_db w') = [trow]) as Hts.
  { rewrite R1, <- Erun, <- T2, E2. apply run_tasks_one; [exact Htn |]. intros i u Hu Eu. rewrite E1 in Hu. destruct Hi as (Ht & _).
    destruct (Ht i u Hu) as (_ & _ & r & Hr). rewrite Eu, T2, Erun, Hn in Hr. discriminate. }
  assert (db_subscriptions (pg_db w') !! task_SubscriptionID (batch_Task batch) = Some sub) as Hsub' by (by rewrite E2, E1).
  assert (insert_run true (batch_Run batch) (pg_db w') = Ok (false, pg_db w')) as Hins.
  { unfold insert_run. rewrite Hrow. simpl. rewrite Hc. simpl. replace (has_run_key (pg_db w') (run_RunKey row)) with true; [reflexivity |].
    symmetry. apply existsb_exists. exists row. split; [apply rows_In; eauto | apply String.eqb_refl]. }
  pose proof (equivalent_created batch row trow (pg_db w') Hi' Hv Hrow Htrow Hk Hs Hrs Hre Hget Hts) as Heq.
  unfold repo_CreateScheduledBatch. rewrite Hv. cbn [wrap]. unfold mbind at 1, mlift at 1. unfold transaction. cbn [next_fault pg_faults].
  unfold mbind at 1, mwrap_db at 1, query at 1, exec_tx at 1. cbn [next_fault pg_faults]. unfold run_sql at 1. cbn [pg_db].
  unfold subscription_enabled. rewrite Hsub'. cbn [rbind pg_faults]. rewrite Hen. cbn [negb].
  unfold mbind at 1, mwrap_db at 1, exec_tx at 1. cbn [next_fault pg_faults]. unfold run_sql at 1. cbn [pg_db]. rewrite Hins. cbn [negb].
  unfold mbind at 1. cbn [pg_faults]. rewrite Heq. reflexivity.
Qed.

(** ** Claims *)
Lemma oldest_min best l t : oldest best l = Some t ->
  (forall b, best = Some b -> task_CreatedAt t <= task_CreatedAt b) /\ forall u, In u l -> task_CreatedAt t <= task_CreatedAt u.
Proof.
  revert best. induction l as [|x l IH]; intros best; simpl.
  - intros ->. split; [by intros b [= ->] | intros u []].
  - intros [Hb Hl]%IH. destruct best as [b|].
    + destruct (Z.ltb_spec (task_CreatedAt x) (task_CreatedAt b)); specialize (Hb _ eq_refl).
      * split; [intros ? [= <-]; lia | intros u [<- | Hu]; [lia | by apply Hl]].
      * split; [intros ? [= <-]; lia | intros u [<- | Hu]; [lia | by apply Hl]].
    + specialize (Hb _ eq_refl). split; [discriminate | intros u [<- | Hu]; [lia | by apply Hl]].
Qed.
Lemma oldest_none best l : oldest best l = None -> l = [].
Proof.
  intros H. assert (forall l b, oldest (Some b) l <> None) as Hs.
  { clear. intros l. induction l as [|x l IH]; intros b; simpl; [discriminate |]. destruct (_ <? _); apply IH. }
  destruct l as [|x l]; [reflexivity |]. exfalso. revert H. simpl. destruct best as [b|]; [destruct (_ <? _) |]; apply Hs.
Qed.

(** The tasks a claim may take: unlocked, and pending or due for a retry. *)
Definition eligible (scan : list ID) (locked : gset ID) (now : Time) (d : DB) (t : IngestionTask) : Prop :=
  claimable (pg_time now) t = true /\ exists id, In id scan /\ id ∉ locked /\ db_tasks d !! id = Some t.

(** A claim takes the oldest eligible task, and only it: its row moves to
    the next attempt, running for the worker until the end of the lease; an
    empty claim means that no task was eligible, and changes nothing. *)
Theorem claim_takes_oldest scan locked workerID now lease w o w' : tasks_inv (pg_db w) ->
  repo_ClaimNextTask scan locked workerID now lease w = (Ok o, w') ->
  match o with
  | Some claim => exists t by_, eligible scan locked now (pg_db w) t /\
      (forall u, eligible scan locked now (pg_db w) u -> task_CreatedAt t <= task_CreatedAt u) /\
      pg_varchar 128 workerID = Ok by_ /\ task_ID (claim_Task claim) = task_ID t /\ task_Status (claim_Task claim) = "running"%string /\
      task_AttemptCount (claim_Task claim) = task_AttemptCount t + 1 /\ task_LockedBy (claim_Task claim) = Some by_ /\
      task_LockedUntil (claim_Task claim) = Some (pg_time (Add now lease)) /\ task_NextAttemptAt (claim_Task claim) = None /\
      (exists r, claim_Task claim = scanTask r /\ db_tasks (pg_db w') = <[task_ID t := r]> (db_tasks (pg_db w))) /\
      db_runs (pg_db w') = db_runs (pg_db w)
  | None => (forall t, ~ eligible scan locked now (pg_db w) t) /\ pg_db w' = pg_db w
  end.
Proof.
  intros Ht H. destruct o as [claim|].
  - apply ClaimNextTask_issued in H as (r & Hr & Ec). apply claim_next_claimed in Hr as (t & by_ & Ho & Eb & Er & Ed). rewrite !TimeToDatabase_id in *.
    exists t, by_. pose proof (oldest_min _ _ _ Ho) as [_ Hmin]. apply oldest_In in Ho as [[=] | Ho]. apply claim_candidates_In in Ho as [Hc Hid].
    split; [by split |]. split; [intros u Hu; apply Hmin; by apply claim_candidates_In |]. split; [exact Eb |].
    assert (exists q, claim_Task claim = scanTask q /\ db_tasks (pg_db w') = <[task_ID t := q]> (db_tasks (pg_db w))) as Hex by (exists r; by rewrite Ed).
    rewrite Ec in *. rewrite Ed, Er. repeat (split; [reflexivity |]). split; [rewrite Ed, Er in Hex; exact Hex | reflexivity].
  - unfold repo_ClaimNextTask in H. destruct (_ || _) in H; [discriminate |]. apply mbind_ok in H as (claimed & w1 & Hc & H).
    destruct claimed as [r|e|]; [discriminate | | discriminate]. destruct (errors_Is e ErrNoRows) eqn:No; [| discriminate]. injection H as <-.
    apply mtry_ok in Hc as [Hc _]. unfold exec_auto, run_sql in Hc. destruct (next_fault w) as [[|dr ap] w2] eqn:E; apply next_fault_db in E.
    + rewrite E in Hc. rewrite !TimeToDatabase_id in Hc. destruct (claim_next _ _ _ _ _ _) as [[x dx]|e'|] eqn:Hn; try discriminate. injection Hc as -> <-.
      split; [| exact E]. unfold claim_next in Hn. destruct (oldest None _) as [t|] eqn:Ho.
      * exfalso. apply rbind_err in Hn as [Hn | (by_ & _ & Hn)]; [by rewrite (pg_varchar_error _ _ _ Hn) in No |].
        apply rbind_err in Hn as [Hn | (a & _ & [=])]. unfold int4_add in Hn. destruct (negb _) in Hn; [| discriminate]. by injection Hn as <-.
      * apply oldest_none in Ho. intros t [Hc (id & Hid & Hl & Et)]. assert (In t (claim_candidates scan locked (pg_time now) (pg_db w))) as Hin by (apply claim_candidates_In; eauto).
        by rewrite Ho in Hin.
    + injection Hc as <- _. discriminate No.
Qed.
End StoreFacts.

(** ** Witnesses *)
Definition morning_summary : RunSummary := {|
  sum_RunID := uuid7 21; sum_Status := "success"; sum_TaskCount := 1; sum_PendingCount := 0; sum_RunningCount := 0;
  sum_RetryWaitCount := 0; sum_SuccessCount := 1; sum_FailedCount := 0; sum_CanceledCount := 0;
  sum_EarliestStartedAt := Some claim_time; sum_LatestFinishedAt := Some finish_time |}.
Definition summarized_store : PG := snd (repo_SaveRunSummary morning_summary committed_store).
Lemma run_summary_saved_witness : exists r, db_runs (pg_db summarized_store) !! uuid7 21 = Some r /\ run_TaskCount r = 1 /\ run_SuccessCount r = 1.
Proof.
  destruct (run_summary_saved morning_summary committed_store summarized_store) as (r & e & Hr & _ & _ & Hn & _ & Hs & _).
  - unfold summarized_store. apply ran. vm_compute. reflexivity.
  - exists r. split; [exact Hr |]. rewrite Hn, Hs. vm_compute. split; reflexivity.
Defined.

Lemma scheduled_batch_idempotent_witness :
  repo_CreateScheduledBatch morning_batch (mkPG (pg_db scheduled_store) []) = (Ok false, mkPG (pg_db scheduled_store) []).
Proof.
  apply (scheduled_batch_idempotent morning_batch fresh_store scheduled_store tables_inv).
  - vm_compute. discriminate.
  - intros t [= <-]. vm_compute. reflexivity.
  - vm_compute. reflexivity.
  - vm_compute. reflexivity.
  - unfold scheduled_store. apply ran. exact scheduled_ok.
Defined.

Lemma claim_takes_oldest_witness : exists t, eligible [uuid7 20] ∅ claim_time (pg_db scheduled_store) t /\
  task_AttemptCount (claim_Task morning_claim) = task_AttemptCount t + 1.
Proof.
  assert (tasks_inv (pg_db scheduled_store)) as Hi by apply scheduled_inv.
  pose proof claimed_ok as Hc. unfold claim_call at 1 in Hc. destruct (claim_takes_oldest _ _ _ _ _ _ _ _ Hi Hc)
    as (t & by_ & He & _ & _ & _ & _ & Ha & _).
  exists t. split; [exact He | exact Ha].
Defined.
