(* ===== verification/Worker.v ===== *)
(** * internal/ingestion/worker: the claim loops

    A worker process as a transition system: [Concurrency] slots run
    [claimLoop] side by side, each reading the shared context, clock, claimer
    and executor, whose answers are the inputs of its steps. *)
From S2P Require Import Prelude Errors GoStrings GoTime External Domain CatchUp Ports Ingestion Fixtures.
Open Scope go_scope.

Definition maximumWorkerIDLength : Z := 128.

Record WorkerConfig := mkWorkerConfig {
  wk_WorkerID : string; wk_Concurrency : Z; wk_LeaseDuration : Duration; wk_PollInterval : Duration; wk_ClaimErrorBackoff : Duration }.

Definition validateConfig (c : WorkerConfig) : result unit :=
  failif (TrimSpace (wk_WorkerID c) <>s wk_WorkerID c) || (wk_WorkerID c =s EmptyString) || (maximumWorkerIDLength <? slen (wk_WorkerID c)),
         Plain "invalid worker ID: must be 1-128 non-whitespace-padded bytes" ;;
  failif wk_Concurrency c <=? 0, Plain "worker concurrency must be positive" ;;
  failif (wk_LeaseDuration c <=? 0) || (wk_PollInterval c <=? 0) || (wk_ClaimErrorBackoff c <=? 0),
         Plain "worker lease, poll interval, and claim error backoff must be positive" ;;
  Ok tt.

Definition validateClaim (claim : TaskClaim) (workerID : string) (claimedAt : Time) : result unit :=
  let task := claim_Task claim in
  failif id_IsZero (task_ID task) || (task_Status task <>s "running") || (task_AttemptCount task <=? 0) || (task_MaxAttempts task <=? 0)
         || is_nil (task_LockedBy task) || opt_test (fun b => b <>s workerID) (task_LockedBy task) || is_nil (task_LockedUntil task)
         || opt_test (fun u => negb (After u claimedAt)) (task_LockedUntil task),
         Wrap "worker received invalid task claim" (Sentinel ErrInvalidData) ;;
  Ok tt.

(** ** A slot *)
(** Where a slot is in [claimLoop]: at the top of the loop, in
    [ClaimNextTask], in [ExecuteTask], in [clock.Wait], or returned, before and
    after its result is received by [Run]. *)
Inductive Slot :=
  | Top
  | Claiming (claimedAt : Time)
  | Executing (claim : TaskClaim)
  | Waiting (duration : Duration)
  | Returned (err : option error)
  | Received (err : option error).

(** What the call a slot is in answers: the clock's time, a claim or its
    failure, the outcome of an execution, the outcome of a wait. *)
Inductive Answer :=
  | Now (t : Time)
  | Claim (c : result (option TaskClaim))
  | Executed (err : option error)
  | Waited (err : option error).

(** An observable event: a report to the [ErrorReporter], the start of an
    execution. *)
Inductive Event := Report (e : error) | Start (claim : TaskClaim).

(** The slot after the answer, with its events; [ctxErr] is whether the run
    context is done when the loop looks at it after the answer. *)
Definition claimLoop (c : WorkerConfig) (ctxErr : bool) (s : Slot) (a : Answer) : option (Slot * list Event) :=
  match s, a with
  | Top, Now t => if ctxErr then Some (Returned None, []) else Some (Claiming (UTC t), [])
  | Claiming claimedAt, Claim r =>
      match r with
      | Err e => if ctxErr then Some (Returned None, []) else Some (Waiting (wk_ClaimErrorBackoff c), [Report (Wrap "worker claim task" e)])
      | Ok None => Some (Waiting (wk_PollInterval c), [])
      | Ok (Some claim) =>
          match validateClaim claim (wk_WorkerID c) claimedAt with
          | Err e => Some (Waiting (wk_ClaimErrorBackoff c), [Report e])
          | _ => if ctxErr then Some (Returned None, []) else Some (Executing claim, [Start claim])
          end
      | Diverge => None
      end
  | Executing claim, Executed err =>
      match err with
      | Some e => if ctxErr then Some (Returned None, []) else Some (Top, [Report (Wrap "worker execute task" e)])
      | None => Some (Top, [])
      end
  | Waiting _, Waited err =>
      match err with
      | Some e => if ctxErr then Some (Top, []) else Some (Returned (Some (Wrap "worker wait" e)), [])
      | None => Some (Top, [])
      end
  | _, _ => None
  end.

(** ** The run *)
(** [Run]'s context and its slots, and the results received so far. *)
Record RunState := mkRunState { rs_canceled : bool; rs_slots : list Slot; rs_results : list (option error) }.

(** [Run] when the worker is not running: every slot starts at the top. *)
Definition run_started (c : WorkerConfig) (canceled : bool) : RunState :=
  mkRunState canceled (repeat Top (Z.to_nat (wk_Concurrency c))) [].

(** A step of the process: the caller cancels its context, a slot's call
    answers, a slot that failed cancels the run and hands its result over. *)
Inductive wstep (c : WorkerConfig) : RunState -> list Event -> RunState -> Prop :=
  | wstep_cancel slots results : wstep c (mkRunState false slots results) [] (mkRunState true slots results)
  | wstep_loop canceled slots results i s a s' es : slots !! i = Some s -> claimLoop c canceled s a = Some (s', es) ->
      wstep c (mkRunState canceled slots results) es (mkRunState canceled (<[i := s']> slots) results)
  | wstep_result canceled slots results i err : slots !! i = Some (Returned err) ->
      wstep c (mkRunState canceled slots results) []
        (mkRunState (canceled || not_nil err) (<[i := Received err]> slots) (results ++ [err])).

(** A number of steps, with their events. *)
Inductive wsteps (c : WorkerConfig) : nat -> RunState -> list Event -> RunState -> Prop :=
  | wsteps_nil s : wsteps c 0 s [] s
  | wsteps_cons n s es s1 es' s2 : wstep c s es s1 -> wsteps c n s1 es' s2 -> wsteps c (S n) s (es ++ es') s2.

(** [Run] has received every result; what it then returns: the first error. *)
Definition run_finished (c : WorkerConfig) (s : RunState) : bool := llen (rs_results s) =? wk_Concurrency c.
Definition first_error (results : list (option error)) : option error :=
  fold_left (fun acc r => match acc with Some e => Some e | None => r end) results None.
Definition run_error (s : RunState) : option error := first_error (rs_results s).

(** [Run] on a worker: a second start is refused. *)
Definition start_run (running : bool) : result bool :=
  failif running, Sentinel ErrAlreadyRunning ;; Ok true.

(** * Properties of the worker

    What a worker executes, that a canceled worker stops, and what [Run]
    returns. *)
Section WorkerFacts.
Variable c : WorkerConfig.

(** ** Invariants of the steps *)
Lemma wstep_length s es s' : wstep c s es s' -> length (rs_slots s') = length (rs_slots s).
Proof. intros H. destruct H; simpl; [reflexivity | apply length_insert | apply length_insert]. Qed.
Lemma wsteps_length n s es s' : wsteps c n s es s' -> length (rs_slots s') = length (rs_slots s).
Proof. induction 1; [reflexivity |]. rewrite IHwsteps. by apply (wstep_length _ es). Qed.

(** A property of the slots and events that every answer keeps. *)
Lemma wsteps_invariant (I : RunState -> Prop) (Q : Event -> Prop) n s es s' :
  (forall s es s', I s -> wstep c s es s' -> I s' /\ Forall Q es) -> I s -> wsteps c n s es s' -> I s' /\ Forall Q es.
Proof.
  intros Hstep HI H. induction H as [s | n s es s1 es' s2 H1 H2 IH]; [by split |].
  destruct (Hstep _ _ _ HI H1) as [HI1 HQ]. destruct (IH HI1) as [HI2 HQ2]. split; [exact HI2 | by apply Forall_app].
Qed.

(** ** Executions *)
(** A claim the worker may execute when it asked for it at [claimedAt]: of a
    running attempt of a task that is leased to this worker beyond that time. *)
Definition executable (claimedAt : Time) (claim : TaskClaim) : Prop :=
  id_IsZero (task_ID (claim_Task claim)) = false /\ task_Status (claim_Task claim) = "running"%string /\
  0 < task_AttemptCount (claim_Task claim) /\ 0 < task_MaxAttempts (claim_Task claim) /\
  task_LockedBy (claim_Task claim) = Some (wk_WorkerID c) /\
  exists until, task_LockedUntil (claim_Task claim) = Some until /\ claimedAt < until.

Lemma validateClaim_ok claim at_ : is_err (validateClaim claim (wk_WorkerID c) at_) = false -> executable at_ claim.
Proof.
  unfold validateClaim. cbv zeta. destruct (_ || _) eqn:G; [discriminate |]. intros _. split_guard G.
  repeat match goal with X : negb _ = false |- _ => apply negb_false_iff in X end.
  destruct (task_LockedBy (claim_Task claim)) as [b|] eqn:Eb; [| discriminate]. destruct (task_LockedUntil (claim_Task claim)) as [u|] eqn:Eu; [| discriminate].
  simpl in *. bsimp. subst. unfold After in *. bsimp.
  split; [assumption |]. split; [assumption |]. split; [assumption |]. split; [assumption |]. split; [exact Eb |].
  exists u. split; [exact Eu | assumption].
Qed.
Lemma validateClaim_executable claim at_ : executable at_ claim -> validateClaim claim (wk_WorkerID c) at_ = Ok tt.
Proof.
  intros (Hi & Hs & Ha & Hm & Hb & u & Hu & Hlt). unfold validateClaim. cbv zeta. rewrite Hi, Hs, Hb, Hu. simpl.
  unfold After. rewrite (proj2 (Z.leb_gt _ _) Ha), (proj2 (Z.leb_gt _ _) Hm), String.eqb_refl. simpl.
  by rewrite (proj2 (Z.ltb_lt _ _) Hlt).
Qed.
Lemma validateClaim_refused claim at_ : ~ executable at_ claim ->
  validateClaim claim (wk_WorkerID c) at_ = Err (Wrap "worker received invalid task claim" (Sentinel ErrInvalidData)).
Proof.
  intros Hn. pose proof (validateClaim_ok claim at_) as H. unfold validateClaim in *. cbv zeta in *.
  destruct (_ || _); [reflexivity |]. exfalso. apply Hn, H. reflexivity.
Qed.
Lemma claimLoop_start ctx s a s' es claim : claimLoop c ctx s a = Some (s', es) -> In (Start claim) es ->
  ctx = false /\ s' = Executing claim /\ exists claimedAt, s = Claiming claimedAt /\ executable claimedAt claim.
Proof.
  unfold claimLoop. destruct s as [|at_|cl|d|e|e], a as [t|r|e'|e']; try discriminate.
  - destruct ctx; intros [= <- <-] [].
  - destruct r as [[cl|]|er|]; try discriminate.
    + destruct (validateClaim cl (wk_WorkerID c) at_) eqn:V; [| intros [= <- <-] [[=] | []] |];
        (destruct ctx; intros [= <- <-]; [intros [] |]; intros [[= <-] | []]; split; [reflexivity |]; split; [reflexivity |];
         exists at_; split; [reflexivity |]; apply validateClaim_ok; by rewrite V).
    + intros [= <- <-] [].
    + destruct ctx; intros [= <- <-]; [intros [] | intros [[=] | []]].
  - destruct e' as [e'|]; [destruct ctx |]; intros [= <- <-]; try (intros []; fail). intros [[=] | []].
  - destruct e' as [e'|]; [destruct ctx |]; intros [= <- <-] [].
Qed.
(** A slot that is claiming asked the clock at the top of the loop. *)
Lemma claimLoop_claiming ctx s a at_ es : claimLoop c ctx s a = Some (Claiming at_, es) -> s = Top /\ a = Now at_ /\ ctx = false.
Proof.
  unfold claimLoop. destruct s as [|a0|cl|d|e|e], a as [t|r|e'|e']; try discriminate.
  - destruct ctx; intros H; [discriminate |]. injection H as E _. subst at_. split; [reflexivity |]. split; [| reflexivity]. unfold UTC. by destruct (IsZero t).
  - destruct r as [[cl|]|er|]; try discriminate; [destruct (validateClaim _ _ _) |]; destruct ctx; discriminate.
  - destruct e' as [e'|]; [destruct ctx |]; discriminate.
  - destruct e' as [e'|]; [destruct ctx |]; discriminate.
Qed.
(** A slot that starts to execute a claim reports the start. *)
Lemma claimLoop_executing ctx s a claim es : claimLoop c ctx s a = Some (Executing claim, es) -> es = [Start claim].
Proof.
  unfold claimLoop. destruct s as [|a0|cl|d|e|e], a as [t|r|e'|e']; try discriminate.
  - destruct ctx; discriminate.
  - destruct r as [[cl|]|er|]; try discriminate; [destruct (validateClaim _ _ _) |]; destruct ctx; try discriminate;
      intros H; injection H as -> <-; reflexivity.
  - destruct e' as [e'|]; [destruct ctx |]; discriminate.
  - destruct e' as [e'|]; [destruct ctx |]; discriminate.
Qed.
(** What the loop does with the claim it gets. *)
Lemma claimLoop_claim at_ claim :
  (executable at_ claim -> claimLoop c false (Claiming at_) (Claim (Ok (Some claim))) = Some (Executing claim, [Start claim]) /\
     claimLoop c true (Claiming at_) (Claim (Ok (Some claim))) = Some (Returned None, [])) /\
  (~ executable at_ claim -> forall ctx, claimLoop c ctx (Claiming at_) (Claim (Ok (Some claim))) =
     Some (Waiting (wk_ClaimErrorBackoff c), [Report (Wrap "worker received invalid task claim" (Sentinel ErrInvalidData))])).
Proof.
  split.
  - intros H%validateClaim_executable. simpl. by rewrite H.
  - intros H%validateClaim_refused ctx. simpl. by rewrite H.
Qed.

(** The running executions. *)
Definition executing (s : RunState) : list Slot := List.filter (fun x => match x with Executing _ => true | _ => false end) (rs_slots s).

Lemma filter_length_le {A} (f : A -> bool) l : (length (List.filter f l) <= length l)%nat.
Proof. induction l as [|x l IH]; simpl; [lia |]. destruct (f x); simpl; lia. Qed.
End WorkerFacts.

(** How a step reaches a slot that was elsewhere before it. *)
Lemma wstep_slot c s es s' i x : wstep c s es s' -> rs_slots s' !! i = Some x ->
  rs_slots s !! i = Some x \/ (exists err, x = Received err) \/
  exists x0 a, rs_slots s !! i = Some x0 /\ claimLoop c (rs_canceled s) x0 a = Some (x, es).
Proof.
  intros Hs Hx. destruct Hs as [| cn slots results j x0 a x' es Hj Hl | cn slots results j err Hj]; simpl in *.
  - by left.
  - destruct (decide (i = j)) as [->|n]; [| left; by rewrite list_lookup_insert_ne in Hx].
    right. right. rewrite list_lookup_insert_eq in Hx by (by eapply lookup_lt_Some). injection Hx as <-. by exists x0, a.
  - destruct (decide (i = j)) as [->|n]; [| left; by rewrite list_lookup_insert_ne in Hx].
    right. left. rewrite list_lookup_insert_eq in Hx by (by eapply lookup_lt_Some). injection Hx as <-. by exists err.
Qed.

(** C14. What a worker executes: whatever its claimer, executor and clock
    answer and however its slots interleave, it never runs more executions than
    its concurrency at a time; a step that starts an execution is the answer to
    the claim of one of its slots, before the run context is done, and the claim
    is of a running attempt that is leased to this worker beyond the very time
    that slot claimed it at; that time is the one the clock gave the slot at the
    top of its loop; a slot executes nothing else. A claim that is not such is
    never executed: the slot reports ErrInvalidData and backs off. *)
Theorem worker_executions c canceled n es s : 0 < wk_Concurrency c -> wsteps c n (run_started c canceled) es s ->
  llen (executing s) <= wk_Concurrency c /\
  (forall es' s', wstep c s es' s' ->
     (forall claim, In (Start claim) es' -> rs_canceled s = false /\
        exists i claimedAt, rs_slots s !! i = Some (Claiming claimedAt) /\ rs_slots s' !! i = Some (Executing claim) /\
          executable c claimedAt claim) /\
     (forall i claim, rs_slots s' !! i = Some (Executing claim) -> rs_slots s !! i = Some (Executing claim) \/ In (Start claim) es') /\
     (forall i claimedAt, rs_slots s' !! i = Some (Claiming claimedAt) -> rs_slots s !! i = Some (Claiming claimedAt) \/
        rs_canceled s = false /\ rs_slots s !! i = Some Top /\ claimLoop c false Top (Now claimedAt) = Some (Claiming claimedAt, es'))) /\
  (forall i claimedAt claim, rs_slots s !! i = Some (Claiming claimedAt) -> ~ executable c claimedAt claim ->
     claimLoop c (rs_canceled s) (Claiming claimedAt) (Claim (Ok (Some claim))) =
       Some (Waiting (wk_ClaimErrorBackoff c), [Report (Wrap "worker received invalid task claim" (Sentinel ErrInvalidData))])).
Proof.
  intros Hc H. split; [| split].
  - pose proof (wsteps_length c _ _ _ _ H) as Hl. simpl in Hl. rewrite repeat_length in Hl. unfold executing, llen.
    pose proof (filter_length_le (fun x => match x with Executing _ => true | _ => false end) (rs_slots s)). lia.
  - intros es' s' Hs. split; [| split].
    + intros claim Hin. destruct Hs as [| cn slots results i x a x' es0 Hx Hl |]; [destruct Hin | | destruct Hin].
      apply (claimLoop_start c _ _ _ _ _ claim Hl) in Hin as (-> & -> & at_ & -> & Hex). split; [reflexivity |].
      exists i, at_. simpl. split; [exact Hx |]. split; [| exact Hex]. apply list_lookup_insert_eq. by eapply lookup_lt_Some.
    + intros i claim Hi. destruct (wstep_slot _ _ _ _ _ _ Hs Hi) as [E | [(err & [=]) | (x0 & a & _ & El)]]; [by left | right].
      rewrite (claimLoop_executing _ _ _ _ _ _ El). by left.
    + intros i at_ Hi. destruct (wstep_slot _ _ _ _ _ _ Hs Hi) as [E | [(err & [=]) | (x0 & a & Hx & El)]]; [by left | right].
      destruct (claimLoop_claiming _ _ _ _ _ _ El) as (-> & -> & Hcan). split; [exact Hcan |]. split; [exact Hx |]. by rewrite Hcan in El.
  - intros i at_ claim _ Hn. exact (proj2 (claimLoop_claim c at_ claim) Hn _).
Qed.

(** ** Shutdown *)
(** How many steps a slot of a done context still takes. *)
Definition slot_left (s : Slot) : nat :=
  match s with Claiming _ => 4 | Executing _ | Waiting _ => 3 | Top => 2 | Returned _ => 1 | Received _ => 0 end.
Fixpoint slots_left (l : list Slot) : nat := match l with [] => 0 | x :: l => slot_left x + slots_left l end.

Lemma slots_left_insert l i x y : l !! i = Some x -> (slots_left (<[i := y]> l) + slot_left x = slots_left l + slot_left y)%nat.
Proof.
  revert i. induction l as [|z l IH]; intros [|i] H; simpl in *; try discriminate.
  - injection H as ->. lia.
  - specialize (IH i H). lia.
Qed.
Lemma slots_left_le l : (slots_left l <= 4 * length l)%nat.
Proof. induction l as [|x l IH]; simpl; [lia |]. destruct x; simpl; lia. Qed.
Lemma claimLoop_left c s a s' es : claimLoop c true s a = Some (s', es) -> (slot_left s' < slot_left s)%nat.
Proof.
  unfold claimLoop. destruct s as [|at_|cl|d|e|e], a as [t|r|e'|e']; try discriminate.
  - intros [= <- <-]. simpl. lia.
  - destruct r as [[cl|]|er|]; try discriminate; [destruct (validateClaim _ _ _) | |]; intros [= <- <-]; simpl; lia.
  - destruct e'; intros [= <- <-]; simpl; lia.
  - destruct e'; intros [= <- <-]; simpl; lia.
Qed.
Lemma wstep_left c s es s' : wstep c s es s' -> rs_canceled s = true ->
  rs_canceled s' = true /\ (slots_left (rs_slots s') < slots_left (rs_slots s))%nat.
Proof.
  intros H. destruct H as [slots results | canceled slots results i x a x' es Hx Hl | canceled slots results i err Hx]; simpl; intros Hc; [discriminate | |].
  - subst canceled. split; [reflexivity |]. pose proof (slots_left_insert _ _ _ x' Hx). apply claimLoop_left in Hl. lia.
  - subst canceled. split; [reflexivity |]. pose proof (slots_left_insert _ _ _ (Received err) Hx). simpl in *. lia.
Qed.

(** An answer to the call a slot is in always lets the slot go on. *)
Definition answers (s : Slot) (a : Answer) : Prop :=
  match s, a with
  | Top, Now _ | Executing _, Executed _ | Waiting _, Waited _ => True
  | Claiming _, Claim r => r <> Diverge
  | _, _ => False
  end.
Lemma claimLoop_goes_on c ctx s a : answers s a -> exists s' es, claimLoop c ctx s a = Some (s', es).
Proof.
  unfold answers, claimLoop. destruct s as [|at_|cl|d|e|e], a as [t|r|e'|e']; try contradiction; intros Ha.
  - destruct ctx; eauto.
  - destruct r as [[cl|]|er|]; [destruct (validateClaim _ _ _); [destruct ctx | | destruct ctx] | | destruct ctx |]; eauto. contradiction.
  - destruct e'; [destruct ctx |]; eauto.
  - destruct e'; [destruct ctx |]; eauto.
Qed.

Definition received (s : Slot) : bool := match s with Received _ => true | _ => false end.

(** Every received result is counted. *)
Lemma wsteps_results c canceled n es s : wsteps c n (run_started c canceled) es s ->
  llen (rs_results s) = llen (List.filter received (rs_slots s)).
Proof.
  intros H. apply (wsteps_invariant c (fun s => llen (rs_results s) = llen (List.filter received (rs_slots s))) (fun _ => True)) in H as [H _]; [exact H | |].
  - clear. assert (forall l i (x y : Slot), l !! i = Some x -> llen (List.filter received (<[i := y]> l)) + Z.b2z (received x) =
      llen (List.filter received l) + Z.b2z (received y)) as Hi.
    { induction l as [|z l IH]; intros [|i] x y H; simpl in *; try discriminate.
      - injection H as ->. unfold llen. destruct (received x), (received y); simpl; lia.
      - specialize (IH i x y H). destruct (received z); unfold llen in *; simpl in *; lia. }
    intros s es s' HI H. split; [| apply List.Forall_forall; auto]. destruct H as [| canceled slots results i x a x' es Hx Hl | canceled slots results i err Hx]; simpl in *.
    + exact HI.
    + rewrite HI. specialize (Hi _ _ _ x' Hx). assert (received x = false /\ received x' = false) as [E1 E2]; [| rewrite E1, E2 in Hi; simpl in Hi; lia].
      unfold claimLoop in Hl. destruct x as [|at_|cl|d|e|e], a as [t|r|e'|e']; try discriminate.
      * destruct canceled; injection Hl as <- <-; auto.
      * destruct r as [[cl|]|er|]; try discriminate; [destruct (validateClaim _ _ _); [destruct canceled | | destruct canceled] | | destruct canceled]; injection Hl as <- <-; auto.
      * destruct e' as [e'|]; [destruct canceled |]; injection Hl as <- <-; auto.
      * destruct e' as [e'|]; [destruct canceled |]; injection Hl as <- <-; auto.
    + specialize (Hi _ _ _ (Received err) Hx). simpl in Hi. unfold llen in *. rewrite length_app. simpl. lia.
  - simpl. induction (Z.to_nat (wk_Concurrency c)) as [|k IH]; [reflexivity |]. exact IH.
Qed.

Lemma all_received_finished c canceled n es s : 0 < wk_Concurrency c -> wsteps c n (run_started c canceled) es s ->
  (forall i x, rs_slots s !! i = Some x -> received x = true) -> run_finished c s = true.
Proof.
  intros Hc H Hall. unfold run_finished. rewrite (wsteps_results _ _ _ _ _ H). apply Z.eqb_eq.
  pose proof (wsteps_length c _ _ _ _ H) as Hl. simpl in Hl. rewrite repeat_length in Hl.
  assert (List.filter received (rs_slots s) = rs_slots s) as ->; [| unfold llen; lia].
  clear Hl. revert Hall. generalize (rs_slots s). induction l as [|x l IH]; intros Hall; [reflexivity |]. simpl.
  rewrite (Hall 0%nat x eq_refl). f_equal. apply IH. intros i y Hi. by apply (Hall (S i)).
Qed.

(** C15. A worker shuts down: once its context is done, its slots take at most
    four more steps each, whatever the calls they are in answer; a slot that
    has not returned can always go on when its call answers, and when no slot
    is left in the loop, [Run] has received every result and returns. *)
Theorem worker_shuts_down c canceled n es s : 0 < wk_Concurrency c -> wsteps c n (run_started c canceled) es s -> rs_canceled s = true ->
  (forall m es' s', wsteps c m s es' s' -> Z.of_nat m <= 4 * wk_Concurrency c) /\
  (forall i x a, rs_slots s !! i = Some x -> answers x a -> exists es' s', wstep c s es' s') /\
  ((forall es' s', ~ wstep c s es' s') -> run_finished c s = true).
Proof.
  intros Hc H Hcan. pose proof (wsteps_length c _ _ _ _ H) as Hl. simpl in Hl. rewrite repeat_length in Hl. split; [| split].
  - intros m es' s' Hm. assert (m <= slots_left (rs_slots s))%nat as Hb.
    { clear H Hl. induction Hm as [s | m s es1 s1 es2 s2 H1 H2 IH]; [lia |].
      destruct (wstep_left _ _ _ _ H1 Hcan) as [Hcan' Hlt]. specialize (IH Hcan'). lia. }
    pose proof (slots_left_le (rs_slots s)). lia.
  - intros i x a Hx Ha. destruct (claimLoop_goes_on c (rs_canceled s) x a Ha) as (x' & es' & E). destruct s as [cn slots results]. simpl in *.
    eexists es', _. by apply (wstep_loop c cn slots results i x a x').
  - intros Hstuck. apply (all_received_finished c canceled n es s Hc H). intros i x Hx. destruct s as [cn slots results]. simpl in *.
    assert (forall a, ~ answers x a) as Hno.
    { intros a Ha. destruct (claimLoop_goes_on c cn x a Ha) as (x' & es' & E). apply (Hstuck es' _ (wstep_loop c cn slots results i x a x' es' Hx E)). }
    destruct x as [|at_|cl|d|e|e]; [| | | | | reflexivity]; exfalso.
    + exact (Hno (Now 0) I).
    + apply (Hno (Claim (Ok None))). discriminate.
    + exact (Hno (Executed None) I).
    + exact (Hno (Waited None) I).
    + exact (Hstuck [] _ (wstep_result c cn slots results i e Hx)).
Qed.

(** ** Witnesses *)
Definition one_worker : WorkerConfig := mkWorkerConfig "worker-1" 1 (10 * Minute) Second (5 * Second).
(** One claim is executed, then the caller cancels. *)
Definition demo_slots (s : Slot) : RunState := mkRunState false [s] [].
Lemma demo_steps : wsteps one_worker 3 (run_started one_worker false) [Start claim] (mkRunState true [Executing claim] []).
Proof.
  change [Start claim] with ([] ++ [Start claim] ++ [] ++ ([] : list Event)).
  eapply wsteps_cons; [apply (wstep_loop one_worker false [Top] [] 0 Top (Now (morning + 5 * Hour)) (Claiming (morning + 5 * Hour)) []); reflexivity |].
  eapply wsteps_cons; [apply (wstep_loop one_worker false _ [] 0 (Claiming (morning + 5 * Hour)) (Claim (Ok (Some claim))) (Executing claim) [Start claim]); reflexivity |].
  eapply wsteps_cons; [apply wstep_cancel | apply wsteps_nil].
Qed.
Lemma worker_executions_witness : executable one_worker (morning + 5 * Hour) claim.
Proof.
  destruct (worker_executions one_worker false 1 ([] ++ []) (mkRunState false [Claiming (morning + 5 * Hour)] [])) as (_ & H & _).
  - reflexivity.
  - eapply wsteps_cons; [apply (wstep_loop one_worker false [Top] [] 0 Top (Now (morning + 5 * Hour)) (Claiming (morning + 5 * Hour)) []); reflexivity | apply wsteps_nil].
  - destruct (H [Start claim] (mkRunState false [Executing claim] [])) as (Hst & _).
    + apply (wstep_loop one_worker false [Claiming (morning + 5 * Hour)] [] 0 (Claiming (morning + 5 * Hour)) (Claim (Ok (Some claim))) (Executing claim) [Start claim]); reflexivity.
    + destruct (Hst claim (or_introl eq_refl)) as (_ & i & at_ & Hi & _ & Hex).
      destruct i as [|i]; [injection Hi as <-; exact Hex | discriminate Hi].
Defined.
Lemma worker_shuts_down_witness : exists es' s', wstep one_worker (mkRunState true [Executing claim] []) es' s'.
Proof.
  destruct (worker_shuts_down one_worker false 3 [Start claim] (mkRunState true [Executing claim] [])) as (_ & H & _);
    [reflexivity | exact demo_steps | reflexivity |].
  apply (H 0%nat (Executing claim) (Executed None)); [reflexivity | exact I].
Defined.
