(* ===== verification/Application.v ===== *)
(** * internal/application: errors and caller identities; internal/auth

    errors.go, auth.go and auth/static.go: the application errors the public
    interface maps, the principals, the audit context carried by a request's
    context, and the static bearer authenticator. *)
From S2P Require Import Prelude Errors GoStrings Domain GoSha256.
Open Scope go_scope.

(** ** application/errors.go *)
Definition ErrorCodeInvalidArgument : string := "INVALID_ARGUMENT".
Definition ErrorCodeInvalidTimeRange : string := "INVALID_TIME_RANGE".
Definition ErrorCodeUnsupportedInterval : string := "UNSUPPORTED_INTERVAL".
Definition ErrorCodeUnauthenticated : string := "UNAUTHENTICATED".
Definition ErrorCodePermissionDenied : string := "PERMISSION_DENIED".
Definition ErrorCodeNotFound : string := "NOT_FOUND".
Definition ErrorCodeAssetNotFound : string := "ASSET_NOT_FOUND".
Definition ErrorCodeInstrumentNotFound : string := "INSTRUMENT_NOT_FOUND".
Definition ErrorCodeSubscriptionNotFound : string := "SUBSCRIPTION_NOT_FOUND".
Definition ErrorCodeTaskNotFound : string := "TASK_NOT_FOUND".
Definition ErrorCodeConflict : string := "CONFLICT".
Definition ErrorCodeSubscriptionAlreadyExists : string := "SUBSCRIPTION_ALREADY_EXISTS".
Definition ErrorCodeTaskStateConflict : string := "TASK_STATE_CONFLICT".
Definition ErrorCodeBackfillAlreadyRunning : string := "BACKFILL_ALREADY_RUNNING".
Definition ErrorCodeManualRetryAlreadyRunning : string := "MANUAL_RETRY_ALREADY_RUNNING".
Definition ErrorCodeRateLimited : string := "RATE_LIMITED".
Definition ErrorCodeInternal : string := "INTERNAL_ERROR".
Definition ErrorCodeServiceUnavailable : string := "SERVICE_UNAVAILABLE".
Definition ErrorCodeDatabaseUnavailable : string := "DATABASE_UNAVAILABLE".

Definition knownErrorCodes : list string :=
  [ErrorCodeInvalidArgument; ErrorCodeInvalidTimeRange; ErrorCodeUnsupportedInterval; ErrorCodeUnauthenticated; ErrorCodePermissionDenied;
   ErrorCodeNotFound; ErrorCodeAssetNotFound; ErrorCodeInstrumentNotFound; ErrorCodeSubscriptionNotFound; ErrorCodeTaskNotFound;
   ErrorCodeConflict; ErrorCodeSubscriptionAlreadyExists; ErrorCodeTaskStateConflict; ErrorCodeBackfillAlreadyRunning;
   ErrorCodeManualRetryAlreadyRunning; ErrorCodeRateLimited; ErrorCodeInternal; ErrorCodeServiceUnavailable; ErrorCodeDatabaseUnavailable].
Definition errorCode_Valid (code : string) : bool := contains_string knownErrorCodes code.

Definition NewError (code message : string) (retryable : bool) (details : Details) : error := AppErr code message retryable details None.
Definition WrapError (cause : error) (code message : string) (retryable : bool) (details : Details) : error :=
  AppErr code message retryable details (Some cause).

(** [Error.Validate], for a non-nil application error. *)
Definition appError_Validate (code message : string) : result unit :=
  failif negb (errorCode_Valid code), Plain "unknown application error code" ;;
  failif message =s EmptyString, Plain "application error message is required" ;;
  Ok tt.

(** [ValidationError]: the violations are listed when there are some. *)
Definition ValidationError (violations : list FieldViolation) : error :=
  NewError ErrorCodeInvalidArgument "request validation failed" false
    match violations with [] => NoDetails | _ => Fields violations end.

(** [if b { violations = append(violations, FieldViolation{...}) }], and the
    return of the collected violations. *)
Definition violation (b : bool) (field reason : string) : list FieldViolation := if b then [mkFieldViolation field reason] else [].
Definition validated {A} (violations : list FieldViolation) (a : A) : result A :=
  match violations with [] => Ok a | _ => Err (ValidationError violations) end.

(** The [classify...Failure] functions of the query services: a database that
    is unavailable is reported as it is, anything else hides its cause. *)
Definition classify_failure (e : error) : error :=
  if errors_Is e ErrDatabaseUnavailable || errors_Is e ErrRetryable then e
  else WrapError e ErrorCodeInternal "internal server error" false NoDetails.

(** [if err != nil { return classify(err) }] *)
Definition classified {W A} (classify : error -> error) (c : M W A) : M W A := mcatch c (fun e => mthrow (classify e)).
Lemma classified_ok {W A} classify (c : M W A) w a w' : classified classify c w = (Ok a, w') -> c w = (Ok a, w').
Proof. unfold classified, mcatch. destruct (c w) as [[b|e|] w1]; intros H; [exact H | discriminate H | discriminate H]. Qed.
Lemma classified_err {W A} classify (c : M W A) w e w' : classified classify c w = (Err e, w') -> exists e', c w = (Err e', w') /\ e = classify e'.
Proof. unfold classified, mcatch. destruct (c w) as [[b|e'|] w1]; intros [= <- <-]. eauto. Qed.

(** Decompose a successful run along its steps, the [classified] ones too. *)
Ltac minv_classified := repeat (minv_step || match goal with H : classified _ _ _ = (Ok _, _) |- _ => apply classified_ok in H end).

Lemma validated_ok {A} violations (a b : A) : validated violations a = Ok b -> violations = [] /\ b = a.
Proof. destruct violations; [intros [= <-]; auto | discriminate]. Qed.
Lemma violation_nil b field reason : violation b field reason = [] -> b = false.
Proof. by destruct b. Qed.
(** Decompose [validated (violation b1 ... ++ ...) a = Ok r]. *)
Ltac no_violations H :=
  let E := fresh "E" in
  apply validated_ok in H as [E H];
  repeat match type of E with _ ++ _ = [] => let V := fresh "V" in apply app_nil in E as [V E]; try apply violation_nil in V end;
  try apply violation_nil in E.

(** ** application/auth.go *)
Definition maximumSubjectLength : Z := 128.
Definition maximumRequestIDLength : Z := 128.
Definition maximumBearerTokenLength : Z := 4096.
Definition ActorTypeUser : string := "user".
Definition ActorTypeService : string := "service".
Definition PermissionOperationsRead : string := "operations.read".
Definition PermissionSubscriptionsManage : string := "subscriptions.manage".
Definition PermissionIngestionManage : string := "ingestion.manage".
Definition permission_Valid (permission : string) : bool :=
  contains_string [PermissionOperationsRead; PermissionSubscriptionsManage; PermissionIngestionManage] permission.

(** A [BearerToken] is its value. *)
Definition NewBearerToken (value : string) : result string :=
  failif (value =s EmptyString) || (maximumBearerTokenLength <? slen value), Sentinel ErrInvalidCredentials ;;
  failif existsb (fun c => (c <? 33) || (126 <? c)) (runes value), Sentinel ErrInvalidCredentials ;;
  Ok value.

Definition validAuditText (value : string) (maximumLength : Z) : bool :=
  negb ((value =s EmptyString) || (value <>s TrimSpace value) || (maximumLength <? RuneCountInString value))
  && negb (existsb IsControl (runes value)).

Definition validActor (actorType : string) : bool := (actorType =s ActorTypeUser) || (actorType =s ActorTypeService).

Record Principal := mkPrincipal { pr_subject : string; pr_actorType : string; pr_permissions : gset string }.

Fixpoint permission_set (seen : gset string) (permissions : list string) : result (gset string) :=
  match permissions with
  | [] => Ok seen
  | p :: rest =>
      failif negb (permission_Valid p), Plain "invalid principal permission" ;;
      failif bool_decide (p ∈ seen), Plain "duplicate principal permission" ;;
      permission_set ({[p]} ∪ seen) rest
  end.
Definition NewPrincipal (subject actorType : string) (permissions : list string) : result Principal :=
  failif negb (validAuditText subject maximumSubjectLength), Plain "invalid principal subject" ;;
  failif negb (validActor actorType), Plain "invalid principal actor type" ;;
  set <- permission_set ∅ permissions ;;
  Ok (mkPrincipal subject actorType set).

(** [Permissions] lists the set, in no particular order. *)
Definition Permissions (p : Principal) : list string := elements (pr_permissions p).
Definition principal_Validate (p : Principal) : result unit :=
  NewPrincipal (pr_subject p) (pr_actorType p) (Permissions p) ;;; Ok tt.
Definition HasPermission (p : Principal) (permission : string) : bool :=
  permission_Valid permission && bool_decide (permission ∈ pr_permissions p).

Record AuditContext := mkAuditContext { actx_requestedBy : string; actx_actorType : string; actx_requestID : string }.
Definition NewAuditContext (p : Principal) (requestID : string) : result AuditContext :=
  principal_Validate p ;;;
  failif negb (validAuditText requestID maximumRequestIDLength), Plain "invalid audit request ID" ;;
  Ok (mkAuditContext (pr_subject p) (pr_actorType p) requestID).

(** The values a request's context carries under this package's keys. *)
Record Context := mkContext { ctx_Principal : option Principal; ctx_Audit : option AuditContext }.
Definition WithPrincipal (ctx : Context) (p : Principal) : Context := mkContext (Some p) (ctx_Audit ctx).
Definition WithAuditContext (ctx : Context) (audit : AuditContext) : Context := mkContext (ctx_Principal ctx) (Some audit).
(** The principal and the audit context of a request, when they are valid. *)
Definition PrincipalFromContext (ctx : Context) : option Principal :=
  p ← ctx_Principal ctx;
  if is_ok (principal_Validate p) then Some p else None.
Definition AuditContextFromContext (ctx : Context) : option AuditContext :=
  a ← ctx_Audit ctx;
  if validActor (actx_actorType a) && validAuditText (actx_requestedBy a) maximumSubjectLength
     && validAuditText (actx_requestID a) maximumRequestIDLength then Some a else None.

(** ** auth/static.go *)
Record StaticCredential := mkStaticCredential { cred_Token : string; cred_Principal : Principal }.
Record staticEntry := mkStaticEntry { entry_digest : list Z; entry_principal : Principal }.

Fixpoint static_entries (seen : list (list Z)) (credentials : list StaticCredential) : result (list staticEntry) :=
  match credentials with
  | [] => Ok []
  | c :: rest =>
      failif is_err (NewBearerToken (cred_Token c)), Plain "invalid static bearer token" ;;
      failif is_err (principal_Validate (cred_Principal c)), Plain "invalid static bearer principal" ;;
      let digest := sha256 (cred_Token c) in
      failif existsb (fun d => bool_decide (d = digest)) seen, Plain "duplicate static bearer token" ;;
      entries <- static_entries (digest :: seen) rest ;;
      Ok (mkStaticEntry digest (cred_Principal c) :: entries)
  end.
Definition NewStaticBearerAuthenticator (credentials : list StaticCredential) : result (list staticEntry) :=
  match credentials with
  | [] => Err (Plain "at least one static credential is required")
  | _ => static_entries [] credentials
  end.
Definition Authenticate (entries : list staticEntry) (token : string) : result Principal :=
  match entries with
  | [] => Err (Sentinel ErrAuthenticationUnavailable)
  | _ =>
      match List.find (fun e => bool_decide (sha256 token = entry_digest e)) entries with
      | Some e => Ok (entry_principal e)
      | None => Err (Sentinel ErrInvalidCredentials)
      end
  end.
