(* ===== verification/Listing.v ===== *)
(** * Stable sorting and keyset pages

    [sort.SliceStable] with a less function, and the pages of the list
    operations: a reader is asked for one row more than the limit, and the
    position of the last row shown is where the next page starts. *)
From Stdlib Require Import Sorted.
From stdpp Require Import sorting.
From S2P Require Import Prelude Errors.

(** ** [sort.SliceStable] *)
Section Sorting.
Context {A : Type} (less : A -> A -> bool).

Fixpoint insert_stable (x : A) (l : list A) : list A :=
  match l with
  | [] => [x]
  | y :: rest => if less y x then y :: insert_stable x rest else x :: l
  end.
Definition sort_stable (l : list A) : list A := fold_right insert_stable [] l.

Lemma insert_stable_perm x l : Permutation (insert_stable x l) (x :: l).
Proof.
  induction l as [|y l IH]; simpl; [reflexivity |]. destruct (less y x); [| reflexivity].
  rewrite IH. apply Permutation_swap.
Qed.
Lemma sort_stable_perm l : Permutation (sort_stable l) l.
Proof. induction l as [|x l IH]; simpl; [reflexivity |]. by rewrite insert_stable_perm, IH. Qed.
Lemma sort_stable_In x l : In x (sort_stable l) <-> In x l.
Proof. split; apply Permutation_in; [| symmetry]; apply sort_stable_perm. Qed.

(** [less] is a strict weak order: what is not below is transitive. *)
Context (Hirr : forall x y, less x y = true -> less y x = false)
        (Htr : forall x y z, less y x = false -> less z y = false -> less z x = false).
Lemma insert_stable_sorted x l :
  StronglySorted (fun a b => less b a = false) l -> StronglySorted (fun a b => less b a = false) (insert_stable x l).
Proof.
  induction 1 as [|y l Hs IH Hy]; simpl; [repeat constructor |]. destruct (less y x) eqn:E.
  - constructor; [exact IH |]. apply List.Forall_forall. intros z Hz.
    apply (Permutation_in _ (insert_stable_perm x l)) in Hz as [<- | Hz]; [by apply Hirr |].
    by apply (proj1 (List.Forall_forall _ _) Hy).
  - constructor; [by constructor |]. constructor; [exact E |]. eapply List.Forall_impl; [| exact Hy].
    intros z Hz. by apply (Htr x y z).
Qed.
Lemma sort_stable_sorted l : StronglySorted (fun a b => less b a = false) (sort_stable l).
Proof. induction l as [|x l IH]; simpl; [constructor | by apply insert_stable_sorted]. Qed.

(** Equal elements keep their order. *)
Lemma insert_stable_filter (same : A -> bool) x l :
  (forall a b, same a = true -> same b = true -> less a b = false) ->
  List.filter same (insert_stable x l) = List.filter same (x :: l).
Proof.
  intros Hsame. induction l as [|y l IH]; simpl; [reflexivity |]. destruct (less y x) eqn:E; [| reflexivity]. simpl. rewrite IH. simpl.
  destruct (same x) eqn:Ex, (same y) eqn:Ey; try reflexivity. rewrite (Hsame y x Ey Ex) in E. discriminate.
Qed.
Lemma sort_stable_filter (same : A -> bool) l :
  (forall a b, same a = true -> same b = true -> less a b = false) -> List.filter same (sort_stable l) = List.filter same l.
Proof. intros Hsame. induction l as [|x l IH]; simpl; [reflexivity |]. rewrite insert_stable_filter by exact Hsame. simpl. by rewrite IH. Qed.
End Sorting.

(** ** Orders by texts *)
(** A strict weak order: what [sort_stable_sorted] needs. *)
Record weak_order {A} (less : A -> A -> bool) : Prop := mkWeakOrder {
  wo_asym : forall x y, less x y = true -> less y x = false;
  wo_trans : forall x y z, less y x = false -> less z y = false -> less z x = false }.

Lemma ascii_compare_eq x y : Ascii.compare x y = Eq -> x = y.
Proof. unfold Ascii.compare. intros E%N.compare_eq. rewrite <- (ascii_N_embedding x), <- (ascii_N_embedding y). by rewrite E. Qed.
Lemma compare_String x y a b :
  String.compare (String x a) (String y b) = match Ascii.compare x y with Eq => String.compare a b | c => c end.
Proof. reflexivity. Qed.
Lemma string_compare_trans a b c : String.compare a b <> Gt -> String.compare b c <> Gt ->
  String.compare a c <> Gt /\ (String.compare a c = Eq -> a = b /\ b = c).
Proof.
  revert b c. induction a as [|x a IH]; intros b c H1 H2.
  { destruct c as [|z c]; [| split; [discriminate | discriminate]]. destruct b as [|y b]; [split; [discriminate | auto] |].
    exfalso. by apply H2. }
  destruct b as [|y b]; [exfalso; by apply H1 |]. destruct c as [|z c]; [exfalso; by apply H2 |].
  rewrite compare_String in H1, H2 |- *.
  destruct (Ascii.compare x y) eqn:E1; [| | contradiction]; (destruct (Ascii.compare y z) eqn:E2; [| | contradiction]).
  - apply ascii_compare_eq in E1 as ->. apply ascii_compare_eq in E2 as E3. subst z. rewrite E2. destruct (IH b c H1 H2) as [H3 H4].
    split; [exact H3 |]. intros E. destruct (H4 E) as [-> ->]. by split.
  - apply ascii_compare_eq in E1 as ->. rewrite E2. split; discriminate.
  - apply ascii_compare_eq in E2 as ->. rewrite E1. split; discriminate.
  - assert (Ascii.compare x z = Lt) as ->; [| split; discriminate].
    unfold Ascii.compare in *. rewrite N.compare_lt_iff in *. by apply (N.lt_trans _ (N_of_ascii y)).
Qed.
Lemma string_compare_refl a : String.compare a a = Eq.
Proof. induction a as [|x a IH]; [reflexivity |]. rewrite compare_String. unfold Ascii.compare. rewrite N.compare_refl. exact IH. Qed.
Lemma ltb_false a b : String.ltb a b = false <-> String.compare b a <> Gt.
Proof. unfold String.ltb. rewrite (String.compare_antisym b a). destruct (String.compare a b); simpl; split; intros H; congruence. Qed.
Lemma string_weak_order : weak_order String.ltb.
Proof.
  split; [intros x y | intros x y z].
  - unfold String.ltb. rewrite (String.compare_antisym y x). by destruct (String.compare x y).
  - rewrite !ltb_false. intros H1 H2. by apply (string_compare_trans x y z).
Qed.
(** Texts first, another order for equal texts. *)
Lemma text_then_weak_order {A} (f : A -> string) less : weak_order less ->
  weak_order (fun a b => if f a <>s f b then String.ltb (f a) (f b) else less a b).
Proof.
  intros [Ha Ht]. destruct string_weak_order as [Sa St]. split; cbn.
  - intros x y. rewrite (String.eqb_sym (f y)). destruct (f x =s f y); cbn; [apply Ha | apply Sa].
  - intros x y z. rewrite (String.eqb_sym (f y)), (String.eqb_sym (f z) (f y)), (String.eqb_sym (f z)).
    destruct (String.eqb_spec (f x) (f y)) as [E1|E1], (String.eqb_spec (f y) (f z)) as [E2|E2]; cbn.
    + replace (f x =s f z) with true by (symmetry; apply String.eqb_eq; congruence). apply Ht.
    + replace (f x =s f z) with false by (symmetry; apply String.eqb_neq; congruence). cbn. intros _ H. by rewrite E1.
    + replace (f x =s f z) with false by (symmetry; apply String.eqb_neq; congruence). cbn. intros H _. by rewrite <- E2.
    + intros H1 H2. pose proof (St _ _ _ H1 H2) as H3. destruct (String.eqb_spec (f x) (f z)) as [E3|E3]; cbn; [| exact H3].
      exfalso. apply ltb_false in H1, H2. rewrite <- E3 in H2. destruct (string_compare_trans _ _ _ H1 H2) as [_ H4].
      destruct H4 as [? _]; [by apply string_compare_refl | contradiction].
Qed.
Lemma text_weak_order {A} (f : A -> string) : weak_order (fun a b => String.ltb (f a) (f b)).
Proof. destruct string_weak_order as [Sa St]. split; [intros x y; apply Sa | intros x y z; apply St]. Qed.
Lemma sort_stable_ordered {A} (less : A -> A -> bool) l : weak_order less -> StronglySorted (fun a b => less b a = false) (sort_stable less l).
Proof. intros [Ha Ht]. by apply sort_stable_sorted. Qed.

Lemma In_firstn {A} n (l : list A) x : In x (firstn n l) -> In x l.
Proof. intros H. rewrite <- (firstn_skipn n l). apply in_or_app. by left. Qed.

(** ** The keys of a table in order *)
Lemma merge_sort_filter (f : N -> bool) (l : list N) : List.filter f (merge_sort N.le l) = merge_sort N.le (List.filter f l).
Proof.
  apply (StronglySorted_unique N.le).
  - assert (StronglySorted N.le (merge_sort N.le l)) as H by apply (StronglySorted_merge_sort N.le).
    induction H as [|x k Hs IH Hx]; simpl; [constructor |]. destruct (f x); [| exact IH]. constructor; [exact IH |].
    apply List.Forall_forall. intros y Hy%filter_In. apply (proj1 (List.Forall_forall _ _) Hx). tauto.
  - apply (StronglySorted_merge_sort N.le).
  - rewrite (merge_sort_Permutation N.le (List.filter f l)). apply Permutation_filter_bool, merge_sort_Permutation.
Qed.

(** The keys of a table that pass a test, in ascending order. *)
Definition sorted_keys {V} (f : N -> bool) (m : gmap N V) : list N := merge_sort N.le (List.filter f (map fst (map_to_list m))).

Lemma sorted_keys_In {V} f (m : gmap N V) k : In k (sorted_keys f m) <-> is_Some (m !! k) /\ f k = true.
Proof.
  unfold sorted_keys. rewrite (merge_sort_Permutation N.le _), filter_In, in_map_iff. split; intros [H Hf]; (split; [| exact Hf]).
  - destruct H as ([k' v] & <- & H). exists v. by apply list_elem_of_In, elem_of_map_to_list in H.
  - destruct H as [v H]. exists (k, v). split; [reflexivity |]. by apply list_elem_of_In, elem_of_map_to_list.
Qed.
Lemma sorted_keys_sorted {V} f (m : gmap N V) : StronglySorted (fun a b => N.ltb a b = true) (sorted_keys f m).
Proof.
  unfold sorted_keys. set (l := List.filter _ _).
  assert (StronglySorted N.le (merge_sort N.le l)) as H by apply (StronglySorted_merge_sort N.le).
  assert (NoDup (merge_sort N.le l)) as Hn.
  { rewrite (merge_sort_Permutation N.le l). apply NoDup_ListNoDup, List.NoDup_filter, NoDup_ListNoDup, NoDup_fst_map_to_list. }
  revert H Hn. generalize (merge_sort N.le l) as k. intros k. induction 1 as [|x k Hs IH Hx]; [constructor |]. intros [Hi Hn]%NoDup_cons.
  constructor; [by apply IH |]. apply List.Forall_forall. intros y Hy. pose proof (proj1 (List.Forall_forall _ _) Hx y Hy).
  apply N.ltb_lt. assert (x <> y) by (intros ->; apply Hi; by apply list_elem_of_In). lia.
Qed.
(** A further condition on the keys. *)
Lemma sorted_keys_filter {V} f g (m : gmap N V) : sorted_keys (fun k => f k && g k) m = List.filter f (sorted_keys g m).
Proof.
  unfold sorted_keys. rewrite merge_sort_filter. f_equal. induction (map fst _) as [|k l IH]; [reflexivity |]. simpl.
  destruct (g k); simpl; [| by rewrite andb_false_r]. rewrite andb_true_r. by destruct (f k); rewrite IH.
Qed.
(** The keys in descending order. *)
Lemma StronglySorted_rev {A} (R : A -> A -> Prop) l : StronglySorted R l -> StronglySorted (fun a b => R b a) (rev l).
Proof.
  induction 1 as [|x l Hs IH Hx]; simpl; [constructor |]. revert IH. rewrite List.Forall_forall in Hx.
  assert (forall y, In y (rev l) -> R x y) as Hr by (intros y Hy; apply Hx; by apply in_rev). clear Hx Hs. revert Hr.
  induction (rev l) as [|y k IH]; simpl; [repeat constructor |]. intros Hr H. inversion H as [|? ? Hk Hy]; subst.
  constructor; [apply IH; auto |]. apply List.Forall_app. split; [exact Hy |]. repeat constructor. by apply Hr; left.
Qed.

(** ** Pages *)
Definition page_of {A K} (limit : Z) (position : A -> K) (records : list A) : list A * option K :=
  if limit <? llen records then let items := firstn (Z.to_nat limit) records in (items, position <$> last items) else (records, None).

(** What a page keeps of the records read for it. *)
Lemma page_of_prefix {A K} limit (position : A -> K) records items next : 0 < limit -> page_of limit position records = (items, next) ->
  (exists rest, records = items ++ rest) /\ llen items <= limit /\
  (forall k, next = Some k -> llen items = limit /\ last (map position items) = Some k).
Proof.
  intros Hl. unfold page_of. destruct (Z.ltb_spec limit (llen records)) as [Hlt|Hge]; intros [= <- <-].
  - split; [exists (skipn (Z.to_nat limit) records); by rewrite firstn_skipn |]. unfold llen in *. rewrite length_firstn.
    split; [lia |]. intros k Hk. split; [lia |]. by rewrite fmap_last.
  - split; [exists []; by rewrite app_nil_r |]. split; [lia | discriminate].
Qed.

Section Pages.
Context {A K : Type} (position : A -> K) (below : K -> K -> bool).
Context (Hirr : forall k, below k k = false) (Htr : forall j k l, below j k = true -> below k l = true -> below j l = true).

(** The rows after a position of a listing in order. *)
Definition after_position (after : option K) (rows : list A) : list A :=
  match after with None => rows | Some k => List.filter (fun x => below k (position x)) rows end.
Definition ordered (rows : list A) : Prop := StronglySorted (fun x y => below (position x) (position y) = true) rows.

Lemma ordered_filter f rows : ordered rows -> ordered (List.filter f rows).
Proof.
  induction 1 as [|x l Hs IH Hx]; simpl; [constructor |]. destruct (f x); [| exact IH]. constructor; [exact IH |].
  apply List.Forall_forall. intros y Hy%filter_In. apply (proj1 (List.Forall_forall _ _) Hx). tauto.
Qed.

(** Filtering by the position of an element leaves what follows it. *)
Lemma ordered_after l1 x l2 : ordered (l1 ++ x :: l2) -> List.filter (fun y => below (position x) (position y)) (l1 ++ x :: l2) = l2.
Proof.
  intros H. rewrite List.filter_app. simpl. rewrite Hirr.
  assert (List.filter (fun y => below (position x) (position y)) l1 = []) as ->.
  - induction l1 as [|y l1 IH]; [reflexivity |]. inversion H as [|? ? Hs Hy]; subst. simpl.
    destruct (below (position x) (position y)) eqn:E; [| by apply IH].
    pose proof (proj1 (List.Forall_forall _ _) Hy x ltac:(apply in_or_app; right; by left)) as Hyx. simpl in Hyx.
    pose proof (Hirr (position x)) as Hx. rewrite (Htr _ _ _ E Hyx) in Hx. discriminate.
  - simpl. assert (ordered (x :: l2)) as Hx.
    { induction l1 as [|y l1 IH]; [exact H |]. inversion H; subst. by apply IH. }
    inversion Hx as [|? ? Hs Hf]; subst. clear -Hf. induction Hf as [|y l2 Hy Hf IH]; [reflexivity |]. simpl. by rewrite Hy, IH.
Qed.

(** A page of the rows after a position, and what is left for the next one. *)
Lemma page_rest limit after rows items next : 0 < limit -> ordered rows ->
  page_of limit position (firstn (Z.to_nat (limit + 1)) (after_position after rows)) = (items, next) ->
  after_position after rows = items ++ match next with None => [] | Some _ => after_position next rows end /\
  (next <> None -> llen items = limit).
Proof.
  intros Hl Hrows. set (rest := after_position after rows). assert (ordered rest) as Hrest.
  { unfold rest, after_position. destruct after; [by apply ordered_filter | exact Hrows]. }
  assert (forall k, after_position (Some k) rest = List.filter (fun x => below k (position x)) rest) as Hk by reflexivity.
  unfold page_of. destruct (Z.ltb_spec limit (llen (firstn (Z.to_nat (limit + 1)) rest))) as [Hlt|Hge].
  - rewrite firstn_firstn, Nat.min_l by lia.
    assert (Z.to_nat limit < length rest)%nat as Hlen.
    { unfold llen in Hlt. rewrite length_firstn in Hlt. lia. }
    destruct (last (firstn (Z.to_nat limit) rest)) as [x|] eqn:Ex; cycle 1.
    { apply last_None in Ex. apply (f_equal length) in Ex. rewrite length_firstn in Ex. simpl in Ex. lia. }
    intros [= <- <-]. apply last_Some in Ex as [l1 Ex].
    assert (rest = l1 ++ x :: skipn (Z.to_nat limit) rest) as Esplit.
    { rewrite <- (firstn_skipn (Z.to_nat limit) rest) at 1. rewrite Ex, <- app_assoc. reflexivity. }
    split; [| intros _; unfold llen; rewrite length_firstn; lia].
    assert (after_position (Some (position x)) rows = after_position (Some (position x)) rest) as ->.
    { assert (In x rest) as Hx by (rewrite Esplit; apply in_or_app; right; by left).
      unfold rest, after_position in Hx |- *. destruct after as [k|]; [| reflexivity].
      apply filter_In in Hx as [_ Hx]. clear -Htr Hx. induction rows as [|y l IH]; simpl; [reflexivity |].
      destruct (below k (position y)) eqn:E; simpl; [by destruct (below (position x) (position y)); rewrite IH |].
      destruct (below (position x) (position y)) eqn:E'; [| exact IH]. rewrite (Htr _ _ _ Hx E') in E. discriminate. }
    rewrite Hk, Ex, <- app_assoc. simpl. pose proof (ordered_after l1 x (skipn (Z.to_nat limit) rest)) as Ho.
    rewrite <- Esplit in Ho. rewrite (Ho Hrest). exact Esplit.
  - intros [= <- <-]. split; [| congruence]. rewrite app_nil_r. unfold llen in Hge. rewrite length_firstn in Hge.
    symmetry. apply firstn_all2. lia.
Qed.
End Pages.

(** ** Rows read by key *)
Lemma Forall2_In_r {A B} (R : A -> B -> Prop) l k b : Forall2 R l k -> In b k -> exists a, In a l /\ R a b.
Proof. induction 1 as [|a c l k Hr _ IH]; [contradiction |]. intros [<- | Hb]; [exists a; split; [by left | exact Hr] |]. destruct (IH Hb) as (a' & Ha & Hr'). exists a'. split; [by right | exact Hr']. Qed.
Section Keyed.
Context {A K : Type} (position : A -> K) (below : K -> K -> bool) (reads : K -> A -> Prop).
Context (Hposition : forall k a, reads k a -> position a = k).

(** The keys after a position. *)
Definition after_key (after : option K) (k : K) : bool := match after with None => true | Some j => below j k end.

Lemma reads_positions ks rows : Forall2 reads ks rows -> map position rows = ks.
Proof. induction 1 as [|k a ks rows Hr _ IH]; [reflexivity |]. simpl. by rewrite (Hposition _ _ Hr), IH. Qed.
Lemma reads_ordered ks rows : Forall2 reads ks rows -> StronglySorted (fun j k => below j k = true) ks -> ordered position below rows.
Proof.
  intros <-%reads_positions. induction rows as [|a rows IH]; simpl; [constructor |]. intros H. inversion H as [|? ? Hs Ha]; subst.
  constructor; [by apply IH | by rewrite List.Forall_map in Ha].
Qed.
Lemma reads_after ks rows after : Forall2 reads ks rows ->
  Forall2 reads (List.filter (after_key after) ks) (after_position position below after rows).
Proof.
  destruct after as [j|]; simpl; [| by rewrite List.filter_true]. induction 1 as [|k a ks rows Hr _ IH]; simpl; [constructor |].
  rewrite (Hposition _ _ Hr). destruct (below j k); [by constructor | exact IH].
Qed.
Lemma after_position_In after rows a : In a (after_position position below after rows) -> In a rows.
Proof. destruct after; [by intros [H _]%filter_In | auto]. Qed.
End Keyed.

(** ** Following the pages of a listing *)
Section Walk.
Context {W A K I : Type} (list_page : I -> M W (list A * option K)) (from : I -> K -> I).
(** The pages from an input on, each one from the position the last one ended at. *)
Fixpoint walk (fuel : nat) (input : I) : M W (list (list A)) :=
  match fuel with
  | O => mlift Diverge
  | S fuel =>
      do* (items, next) := list_page input ;;
      match next with
      | None => mret [items]
      | Some k => rest <-- walk fuel (from input k) ;; mret (items :: rest)
      end
  end.

Context (position : A -> K) (below : K -> K -> bool).
Context (Hirr : forall k, below k k = false) (Htr : forall j k l, below j k = true -> below k l = true -> below j l = true).
Context (input_at : option K -> I) (limit : Z) (rows : list A) (w : W).
Context (Hlimit : 0 < limit) (Hrows : ordered position below rows).
Context (Hfrom : forall after k, from (input_at after) k = input_at (Some k)).
(** What a page of the listing is, at the start and at the position of a row. *)
Context (Hpage : forall after, (forall k, after = Some k -> In k (map position rows)) ->
  list_page (input_at after) w = (Ok (page_of limit position (firstn (Z.to_nat (limit + 1)) (after_position position below after rows))), w)).

Lemma page_position after items k :
  page_of limit position (firstn (Z.to_nat (limit + 1)) (after_position position below after rows)) = (items, Some k) -> In k (map position rows).
Proof.
  unfold page_of. destruct (_ <? _); [| discriminate]. intros [= <- E].
  destruct (last _) as [x|] eqn:Ex in E; [| discriminate E]. injection E as <-. apply in_map.
  apply last_Some in Ex as [l1 Ex]. assert (In x (firstn (Z.to_nat limit) (firstn (Z.to_nat (limit + 1)) (after_position position below after rows)))) as Hx
    by (rewrite Ex; apply in_or_app; right; by left).
  apply In_firstn, In_firstn in Hx. destruct after; [by apply filter_In in Hx as [Hx _] | exact Hx].
Qed.
Lemma page_items (l : list A) : llen (fst (page_of limit position l)) <= limit.
Proof. unfold page_of. destruct (Z.ltb_spec limit (llen l)); simpl; [| lia]. unfold llen in *. rewrite length_firstn. lia. Qed.

Lemma walk_rest fuel : forall after, (forall k, after = Some k -> In k (map position rows)) ->
  (length (after_position position below after rows) < fuel)%nat ->
  exists pages, walk fuel (input_at after) w = (Ok pages, w) /\ concat pages = after_position position below after rows /\
    Forall (fun items => llen items <= limit) pages.
Proof.
  induction fuel as [|fuel IH]; intros after Hk Hf; [lia |]. simpl. unfold mbind at 1. rewrite (Hpage _ Hk).
  destruct (page_of _ _ _) as [items next] eqn:E. pose proof (page_items (firstn (Z.to_nat (limit + 1)) (after_position position below after rows))) as Hn.
  rewrite E in Hn. simpl in Hn. destruct (page_rest position below Hirr Htr _ _ _ _ _ Hlimit Hrows E) as [Hsplit Hfull].
  destruct next as [k|].
  - specialize (Hfull ltac:(discriminate)). destruct (IH (Some k)) as (pages & Hw & Hc & Hp).
    + intros k' [= <-]. by eapply page_position.
    + rewrite Hsplit, length_app in Hf. unfold llen in Hfull. lia.
    + exists (items :: pages). unfold mbind. rewrite Hfrom, Hw. simpl. split_and!; [reflexivity | by rewrite Hc | by constructor].
  - exists [items]. rewrite app_nil_r in Hsplit. simpl. rewrite app_nil_r. split_and!; [reflexivity | by rewrite Hsplit | by constructor].
Qed.

Lemma walk_all : exists pages, walk (S (length rows)) (input_at None) w = (Ok pages, w) /\ concat pages = rows /\
  Forall (fun items => llen items <= limit) pages.
Proof. apply (walk_rest _ None); [discriminate | simpl; lia]. Qed.
End Walk.
