(* ===== verification/Subscriptions.v ===== *)
(** * internal/application/subscriptions.go: subscription management

    Listing, creating and updating collection subscriptions over the store and
    reader interfaces, with the input checks, the resolution of the source and
    the audit entry each change records. *)
From S2P Require Import Prelude Errors GoStrings GoTime GoJson External Domain Application Listing.
Open Scope go_scope.

Definition MaximumSubscriptionsPageSize : Z := 100.
Definition maximumInt16 : Z := 32767.

(** [SubscriptionListInput] and [SubscriptionReadFilter] have the same fields. *)
Record SubscriptionReadFilter := mkSubscriptionReadFilter {
  sf_ProviderCode : string; sf_InstrumentCode : string; sf_Interval : string; sf_Enabled : option bool; sf_AfterID : option ID; sf_Limit : Z }.
Abbreviation SubscriptionListInput := SubscriptionReadFilter (only parsing).

Record CreateSubscriptionInput := mkCreateSubscriptionInput {
  cs_ProviderCode : string; cs_InstrumentCode : string; cs_Interval : string; cs_Enabled : bool; cs_Priority : Z;
  cs_CloseDelaySeconds : Z; cs_RevisionDelaySeconds : option Z; cs_Reason : string }.
Record UpdateSubscriptionInput := mkUpdateSubscriptionInput {
  us_ID : ID; us_Enabled : option bool; us_Priority : option Z; us_CloseDelaySeconds : option Z;
  us_RevisionDelaySeconds : option Z; us_RevisionDelaySecondsSet : bool; us_Reason : string }.

Record SubscriptionRecord := mkSubscriptionRecord {
  sr_Subscription : CollectionSubscription; sr_ProviderCode : Code; sr_InstrumentCode : Code; sr_ProviderInstrumentCode : Code;
  sr_ProviderSymbol : string }.
Record SubscriptionSource := mkSubscriptionSource {
  ss_ProviderID : ID; ss_ProviderCode : Code; ss_ProviderStatus : string; ss_InstrumentID : ID; ss_InstrumentCode : Code;
  ss_InstrumentStatus : string; ss_ProviderInstrumentID : ID; ss_ProviderInstrumentCode : Code; ss_ProviderSymbol : string;
  ss_Capabilities : Capabilities; ss_Enabled : bool; ss_ValidFrom : option Time; ss_ValidTo : option Time }.
Record SubscriptionPage := mkSubscriptionPage { sp_Items : list SubscriptionRecord; sp_NextAfterID : option ID }.

(** [effectiveAtWithin] of latest_quotes.go and [supportsBarInterval] of bars.go. *)
Definition effectiveAtWithin (at_ : Time) (from to : option Time) : bool :=
  negb (IsZero at_) && negb (opt_test (fun f => Before at_ f) from) && negb (opt_test (fun u => negb (Before at_ u)) to).
Definition supportsBarInterval (intervals : list string) (target : string) : bool := contains_string intervals target.

(** ** Input checks *)
Definition invalid_code (value prefix : string) : bool := is_err (ParseCode value) || negb (HasPrefix value prefix).

Definition validateSubscriptionListInput (input : SubscriptionListInput) : result SubscriptionReadFilter :=
  validated
    (violation ((sf_ProviderCode input <>s EmptyString) && is_err (ParseCode (sf_ProviderCode input))) "provider" "must be a valid provider code"
     ++ violation ((sf_InstrumentCode input <>s EmptyString) && invalid_code (sf_InstrumentCode input) "instrument.") "instrument_code" "must be a valid instrument code"
     ++ violation ((sf_Interval input <>s EmptyString) && is_err (ParseBarInterval (sf_Interval input))) "interval" "must be a supported interval value"
     ++ violation (opt_test id_IsZero (sf_AfterID input)) "cursor" "contains an invalid subscription position"
     ++ violation ((sf_Limit input <=? 0) || (MaximumSubscriptionsPageSize <? sf_Limit input)) "limit" "must be an integer between 1 and 100")
    (mkSubscriptionReadFilter (sf_ProviderCode input) (sf_InstrumentCode input) (sf_Interval input) (sf_Enabled input) (sf_AfterID input)
       (sf_Limit input + 1)).

Definition validateSubscriptionSettings (priority closeDelay : Z) (revisionDelay : option Z) : list FieldViolation :=
  violation ((priority <? 0) || (maximumInt16 <? priority)) "priority" "must be between 0 and 32767"
  ++ violation ((closeDelay <? 0) || (int32_max <? closeDelay)) "close_delay_seconds" "must be between 0 and 2147483647"
  ++ violation (opt_test (fun d => (d <? 0) || (int32_max <? d)) revisionDelay) "revision_delay_seconds"
       "must be null or between 0 and 2147483647".

Definition validateSubscriptionReason (reason : string) : result unit :=
  failif (reason =s EmptyString) || (reason <>s TrimSpace reason) || (512 <? RuneCountInString reason), Sentinel ErrInvalidData ;;
  Ok tt.
Definition reason_violation (reason : string) : list FieldViolation :=
  violation (is_err (validateSubscriptionReason reason)) "reason" "must be non-empty, trimmed and at most 512 characters".

(** The codes and the interval of the result are the inputs, parsed. *)
Definition validateCreateSubscriptionInput (input : CreateSubscriptionInput) : result (Code * Code * string * SubscriptionSettings) :=
  validated
    (validateSubscriptionSettings (cs_Priority input) (cs_CloseDelaySeconds input) (cs_RevisionDelaySeconds input)
     ++ violation (is_err (ParseCode (cs_ProviderCode input))) "provider" "must be a valid provider code"
     ++ violation (invalid_code (cs_InstrumentCode input) "instrument.") "instrument_code" "must be a valid instrument code"
     ++ violation (is_err (ParseBarInterval (cs_Interval input))) "interval" "must be a supported interval value"
     ++ reason_violation (cs_Reason input))
    (cs_ProviderCode input, cs_InstrumentCode input, cs_Interval input,
     mkSubscriptionSettings (cs_Enabled input) (wrap16 (cs_Priority input)) (cs_CloseDelaySeconds input) (cs_RevisionDelaySeconds input)).

(** The violation of a setting that is absent from the patch is skipped. *)
Definition skipped (input : UpdateSubscriptionInput) (v : FieldViolation) : bool :=
  ((Field v =s "priority") && is_nil (us_Priority input)) || ((Field v =s "close_delay_seconds") && is_nil (us_CloseDelaySeconds input))
  || ((Field v =s "revision_delay_seconds") && negb (us_RevisionDelaySecondsSet input)).
Definition validateUpdateSubscriptionInput (input : UpdateSubscriptionInput) : result unit :=
  validated
    (violation (id_IsZero (us_ID input)) "subscription_id" "must be a valid UUID"
     ++ violation (is_nil (us_Enabled input) && is_nil (us_Priority input) && is_nil (us_CloseDelaySeconds input)
                   && negb (us_RevisionDelaySecondsSet input)) "body" "must include at least one mutable setting"
     ++ List.filter (fun v => negb (skipped input v))
          (validateSubscriptionSettings (default 0 (us_Priority input)) (default 0 (us_CloseDelaySeconds input)) (us_RevisionDelaySeconds input))
     ++ reason_violation (us_Reason input)) tt.

(** ** Audit entries *)
(** [json.Marshal] of a [time.Time] in UTC fails outside the years 0 to 9999. *)
Definition json_time (t : Time) : result string :=
  let '(year, _, _) := CivilDate_UTC t in
  failif (year <? 0) || (9999 <? year), Plain "Time.MarshalJSON: year outside of range [0,9999]" ;;
  Ok (quote ++ FormatRFC3339Nano t ++ quote)%string.
Definition json_field (name value : string) : string := (json_string name ++ ":" ++ value)%string.
(** [json.Marshal] of a slice of one audit entry. *)
Definition json_audit (entry : SubscriptionAuditEntry) : result string :=
  occurredAt <- json_time (audit_OccurredAt entry) ;;
  Ok ("[{" ++ String.concat "," [json_field "action" (json_string (audit_Action entry)); json_field "requested_by" (json_string (audit_RequestedBy entry));
        json_field "actor_type" (json_string (audit_ActorType entry)); json_field "request_id" (json_string (audit_RequestID entry));
        json_field "reason" (json_string (audit_Reason entry)); json_field "occurred_at" occurredAt] ++ "}]")%string.

Definition subscriptionAuditFromContext (ctx : Context) (action reason : string) (now : Time) : result SubscriptionAuditEntry :=
  let internal e := WrapError e ErrorCodeInternal "internal server error" false NoDetails in
  match AuditContextFromContext ctx with
  | None => Err (internal (Sentinel ErrInvalidData))
  | Some a =>
      let entry := {| audit_Action := action; audit_RequestedBy := actx_requestedBy a; audit_ActorType := actx_actorType a;
        audit_RequestID := actx_requestID a; audit_Reason := reason; audit_OccurredAt := now; audit_OccurredUTC := true |} in
      match audit_Validate entry with Err e => Err (internal e) | _ => Ok entry end
  end.

(** ** Records and sources *)
Definition validateSubscriptionSource (s : SubscriptionSource) (providerCode instrumentCode : Code) (now : Time) : result unit :=
  failif id_IsZero (ss_ProviderID s) || id_IsZero (ss_InstrumentID s) || id_IsZero (ss_ProviderInstrumentID s)
         || (ss_ProviderCode s <>s providerCode) || (ss_InstrumentCode s <>s instrumentCode) || code_IsZero (ss_ProviderInstrumentCode s)
         || (ss_ProviderSymbol s =s EmptyString)
         || ((ss_ProviderStatus s <>s ProviderStatusActive) && (ss_ProviderStatus s <>s ProviderStatusDegraded))
         || (ss_InstrumentStatus s <>s InstrumentStatusActive) || negb (ss_Enabled s)
         || negb (effectiveAtWithin now (ss_ValidFrom s) (ss_ValidTo s)), Sentinel ErrInvalidState ;;
  capabilities_Validate (ss_Capabilities s).

Definition validateSubscriptionRecord (r : SubscriptionRecord) : result unit :=
  let s := sr_Subscription r in
  failif id_IsZero (sub_ID s) || id_IsZero (sub_ProviderInstrumentID s) || code_IsZero (sr_ProviderCode r) || code_IsZero (sr_InstrumentCode r)
         || code_IsZero (sr_ProviderInstrumentCode r) || (sr_ProviderSymbol r =s EmptyString) || (sub_Priority s <? 0)
         || (sub_CloseDelaySeconds s <? 0) || opt_test (fun d => d <? 0) (sub_RevisionDelaySeconds s) || IsZero (sub_CreatedAt s)
         || IsZero (sub_UpdatedAt s), Sentinel ErrInvalidData ;;
  ParseBarInterval (sub_Interval s) ;;; Ok tt.
Fixpoint validate_records {A} (check : A -> result unit) (records : list A) : result unit :=
  match records with [] => Ok tt | r :: rest => check r ;;; validate_records check rest end.

Definition recordFromSubscription (subscription : CollectionSubscription) (source : SubscriptionSource) : SubscriptionRecord :=
  mkSubscriptionRecord subscription (ss_ProviderCode source) (ss_InstrumentCode source) (ss_ProviderInstrumentCode source) (ss_ProviderSymbol source).

(** The settings after the patch, and a subscription with them. *)
Definition patched (s : CollectionSubscription) (input : UpdateSubscriptionInput) : SubscriptionSettings := {|
  set_Enabled := default (sub_Enabled s) (us_Enabled input);
  set_Priority := default (sub_Priority s) (wrap16 <$> us_Priority input);
  set_CloseDelaySeconds := default (sub_CloseDelaySeconds s) (us_CloseDelaySeconds input);
  set_RevisionDelaySeconds := if us_RevisionDelaySecondsSet input then us_RevisionDelaySeconds input else sub_RevisionDelaySeconds s |}.
Definition with_settings (s : CollectionSubscription) (settings : SubscriptionSettings) (metadata : string) (updatedAt : Time) : CollectionSubscription := {|
  sub_ID := sub_ID s; sub_ProviderInstrumentID := sub_ProviderInstrumentID s; sub_Interval := sub_Interval s; sub_Enabled := set_Enabled settings;
  sub_Priority := set_Priority settings; sub_CloseDelaySeconds := set_CloseDelaySeconds settings;
  sub_RevisionDelaySeconds := set_RevisionDelaySeconds settings; sub_Metadata := metadata; sub_CreatedAt := sub_CreatedAt s;
  sub_UpdatedAt := updatedAt |}.

(** ** The service *)
Section Service.
Context {W : Type}.

(** [domain.SubscriptionRepository]'s writes and [SubscriptionReader] *)
Class SubscriptionStore := {
  CreateSubscription : CollectionSubscription -> M W unit;
  UpdateSubscriptionSettings : ID -> SubscriptionSettings -> SubscriptionAuditEntry -> M W unit;
  ListSubscriptionRecords : SubscriptionReadFilter -> M W (list SubscriptionRecord);
  FindSubscriptionSources : Code -> Code -> Time -> M W (list SubscriptionSource);
  GetSubscriptionRecord : ID -> M W SubscriptionRecord }.

Definition classifySubscriptionFailure : error -> error := classify_failure.

Context `{St : SubscriptionStore} (now : M W Time) (newID : M W ID).

Definition SubscriptionService_List (input : SubscriptionListInput) : M W SubscriptionPage :=
  filter <-- mlift (validateSubscriptionListInput input) ;;
  records <-- classified classifySubscriptionFailure (ListSubscriptionRecords filter) ;;
  _ <-- classified classifySubscriptionFailure (mlift (validate_records validateSubscriptionRecord records)) ;;
  let '(items, next) := page_of (sf_Limit input) (fun r => sub_ID (sr_Subscription r)) records in
  mret (mkSubscriptionPage items next).

Definition SubscriptionService_Create (ctx : Context) (input : CreateSubscriptionInput) : M W SubscriptionRecord :=
  do* (providerCode, instrumentCode, interval, settings) := mlift (validateCreateSubscriptionInput input) ;;
  now <-- now ;;
  audit <-- mlift (subscriptionAuditFromContext ctx "create" (cs_Reason input) now) ;;
  sources <-- classified classifySubscriptionFailure (FindSubscriptionSources providerCode instrumentCode now) ;;
  match sources with
  | [source] =>
      _ <-- classified (fun e => WrapError e ErrorCodeConflict "provider instrument is not available for subscription" false NoDetails)
              (mlift (validateSubscriptionSource source providerCode instrumentCode now)) ;;
      mfailif negb (cap_Historical (ss_Capabilities source)) || negb (supportsBarInterval (cap_Intervals (ss_Capabilities source)) interval),
              NewError ErrorCodeUnsupportedInterval "provider instrument does not support the requested interval" false (Detail "interval" interval) ;;
      id <-- classified classifySubscriptionFailure (mwrap "generate subscription ID" (
               id <-- newID ;; mfailif id_IsZero id, Sentinel ErrInvalidData ;; mret id)) ;;
      log <-- classified classifySubscriptionFailure (mlift (json_audit audit)) ;;
      let subscription := {|
        sub_ID := id; sub_ProviderInstrumentID := ss_ProviderInstrumentID source; sub_Interval := interval; sub_Enabled := set_Enabled settings;
        sub_Priority := set_Priority settings; sub_CloseDelaySeconds := set_CloseDelaySeconds settings;
        sub_RevisionDelaySeconds := set_RevisionDelaySeconds settings; sub_Metadata := ("{" ++ json_field "audit_log" log ++ "}")%string;
        sub_CreatedAt := now; sub_UpdatedAt := now |} in
      _ <-- classified (fun e => if errors_Is e ErrConflict
                        then WrapError e ErrorCodeSubscriptionAlreadyExists "collection subscription already exists" false NoDetails
                        else classifySubscriptionFailure e) (CreateSubscription subscription) ;;
      mret (recordFromSubscription subscription source)
  | _ => mthrow (ValidationError [mkFieldViolation "provider" "must resolve to exactly one provider instrument for instrument_code"])
  end.

Definition subscription_not_found (e : error) : error :=
  if errors_Is e ErrNotFound then WrapError e ErrorCodeSubscriptionNotFound "collection subscription not found" false NoDetails
  else classifySubscriptionFailure e.

Definition SubscriptionService_Update (ctx : Context) (input : UpdateSubscriptionInput) : M W SubscriptionRecord :=
  _ <-- mlift (validateUpdateSubscriptionInput input) ;;
  now <-- now ;;
  audit <-- mlift (subscriptionAuditFromContext ctx "update" (us_Reason input) now) ;;
  record <-- classified subscription_not_found (GetSubscriptionRecord (us_ID input)) ;;
  _ <-- classified classifySubscriptionFailure (mlift (validateSubscriptionRecord record)) ;;
  let s := sr_Subscription record in
  let settings := patched s input in
  _ <-- classified subscription_not_found (UpdateSubscriptionSettings (us_ID input) settings audit) ;;
  mret (mkSubscriptionRecord (with_settings s settings (sub_Metadata s) now) (sr_ProviderCode record) (sr_InstrumentCode record)
          (sr_ProviderInstrumentCode record) (sr_ProviderSymbol record)).
End Service.
#[global] Arguments SubscriptionStore W : clear implicits.
