(* ===== verification/IngestionQueries.v ===== *)
(** * internal/application/ingestion_queries.go: management reads of runs and tasks

    Filtered pages and single records, with the run state derived from the
    task counts and the public projection of contexts and task errors. *)
From S2P Require Import Prelude Errors GoStrings GoTime GoJson External Domain CatchUp Ingestion Statements Application Listing Subscriptions.
Open Scope go_scope.

Definition MaximumIngestionManagementPageSize : Z := 100.

(** [RunListInput], which is also [RunReadFilter], and [TaskListInput]. *)
Record RunListInput := mkRunListInput {
  rl_RunType : string; rl_TriggerType : string; rl_Status : string; rl_RequestedBy : string; rl_CreatedFrom : option Time;
  rl_CreatedTo : option Time; rl_AfterID : option ID; rl_Limit : Z }.
Record TaskListInput := mkTaskListInput {
  tl_RunID : option ID; tl_Status : string; tl_ProviderCode : string; tl_InstrumentCode : string; tl_Interval : string;
  tl_CreatedFrom : option Time; tl_CreatedTo : option Time; tl_AfterID : option ID; tl_Limit : Z }.

Record RunRecord := mkRunRecord {
  rec_Run : IngestionRun; rec_Snapshot : RunTaskSnapshot; rec_Summary : RunSummary; rec_Context : gmap string string }.
Record TaskRecord := mkTaskRecord {
  tr_Task : IngestionTask; tr_RunType : string; tr_TriggerType : string; tr_SubscriptionInterval : string; tr_ProviderID : ID;
  tr_ProviderCode : Code; tr_InstrumentID : ID; tr_InstrumentCode : Code; tr_ProviderInstrumentID : ID;
  tr_ProviderInstrumentCode : Code; tr_ProviderSymbol : string; tr_ErrorSummary : option string; tr_SafeErrorDetails : gmap string string }.
Record RunPage := mkRunPage { rp_Items : list RunRecord; rp_NextAfterID : option ID }.
Record TaskPage := mkTaskPage { tp_Items : list TaskRecord; tp_NextAfterID : option ID }.

(** ** Values *)
Definition oneOf (value : string) (allowed : list string) : bool := contains_string allowed value.
(** [utf8.ValidString]: no rune is the one-byte error. *)
Definition ValidString (s : string) : bool :=
  forallb (fun seg => negb ((fst seg =? RuneError) && (String.length (snd seg) =? 1)%nat)) (segments s).
Definition validOperationalText (value : string) (maximum : Z) : bool :=
  negb ((value =s EmptyString) || (value <>s TrimSpace value) || negb (ValidString value) || (maximum <? RuneCountInString value))
  && negb (existsb IsControl (runes value)).
Definition utcPointers (from to : option Time) : option Time * option Time := (from, to).

Definition run_types : list string := ["incremental"; "backfill"; "repair"; "revision"].
Definition trigger_types : list string := ["scheduler"; "manual"; "recovery"].
Definition run_statuses : list string := ["pending"; "running"; "partial"; "success"; "failed"; "canceled"].
Definition task_statuses : list string := ["pending"; "running"; "retry_wait"; "success"; "failed"; "canceled"].

(** ** Input checks *)
Definition validateManagementPage (from to : option Time) (after : option ID) (limit : Z) : list FieldViolation :=
  violation (opt_test IsZero from) "created_from" "must be a valid timestamp"
  ++ violation (opt_test IsZero to) "created_to" "must be a valid timestamp"
  ++ violation (opt_test (fun f => opt_test (fun t => negb (After t f)) to) from) "created_from" "must be earlier than created_to"
  ++ violation (opt_test id_IsZero after) "cursor" "contains an invalid position"
  ++ violation ((limit <? 1) || (MaximumIngestionManagementPageSize <? limit)) "limit" "must be between 1 and 100".

Definition unsupported_filter (value : string) (allowed : list string) : bool := (value <>s EmptyString) && negb (oneOf value allowed).

Definition validateRunListInput (input : RunListInput) : result RunListInput :=
  validated
    (violation (unsupported_filter (rl_RunType input) run_types) "run_type" "is not supported"
     ++ violation (unsupported_filter (rl_TriggerType input) trigger_types) "trigger_type" "is not supported"
     ++ violation (unsupported_filter (rl_Status input) run_statuses) "status" "is not supported"
     ++ violation ((rl_RequestedBy input <>s EmptyString) && negb (validOperationalText (rl_RequestedBy input) 128)) "requested_by"
          "must be trimmed and at most 128 characters"
     ++ validateManagementPage (rl_CreatedFrom input) (rl_CreatedTo input) (rl_AfterID input) (rl_Limit input))
    (let '(from, to) := utcPointers (rl_CreatedFrom input) (rl_CreatedTo input) in
     mkRunListInput (rl_RunType input) (rl_TriggerType input) (rl_Status input) (rl_RequestedBy input) from to (rl_AfterID input)
       (rl_Limit input + 1)).

Definition validateTaskListInput (input : TaskListInput) : result TaskListInput :=
  validated
    (violation (opt_test id_IsZero (tl_RunID input)) "run_id" "must be a valid UUID"
     ++ violation (unsupported_filter (tl_Status input) task_statuses) "status" "is not supported"
     ++ violation ((tl_ProviderCode input <>s EmptyString) && is_err (ParseCode (tl_ProviderCode input))) "provider" "must be a valid provider code"
     ++ violation ((tl_InstrumentCode input <>s EmptyString) && invalid_code (tl_InstrumentCode input) "instrument.") "instrument_code"
          "must be a valid instrument code"
     ++ violation ((tl_Interval input <>s EmptyString) && is_err (ParseBarInterval (tl_Interval input))) "interval" "must be one of 1h or 1d"
     ++ validateManagementPage (tl_CreatedFrom input) (tl_CreatedTo input) (tl_AfterID input) (tl_Limit input))
    (let '(from, to) := utcPointers (tl_CreatedFrom input) (tl_CreatedTo input) in
     mkTaskListInput (tl_RunID input) (tl_Status input) (tl_ProviderCode input) (tl_InstrumentCode input) (tl_Interval input) from to
       (tl_AfterID input) (tl_Limit input + 1)).

(** ** Projections *)
Definition sanitizeStringObject (raw : string) (allowed : list string) : gmap string string :=
  match unmarshal_strings raw with
  | None => ∅
  | Some object =>
      map_imap (fun key value => match value with
        | Some text => if contains_string allowed key && validOperationalText text 512 then Some text else None
        | None => None end) object
  end.

Definition context_keys : list string :=
  ["trigger"; "reason"; "actor_type"; "request_id"; "provider"; "instrument_code"; "interval"; "range_start"; "range_end"].

Definition enrichRunRecord (r : RunRecord) : result RunRecord :=
  let run := rec_Run r in
  failif id_IsZero (run_ID run) || (snap_RunID (rec_Snapshot r) <>id run_ID run) || IsZero (run_CreatedAt run)
         || negb (oneOf (run_RunType run) run_types) || negb (oneOf (run_TriggerType run) trigger_types), Sentinel ErrInvalidData ;;
  summary <- SummarizeRun (rec_Snapshot r) ;;
  Ok (mkRunRecord run (rec_Snapshot r) summary (sanitizeStringObject (run_Context run) context_keys)).

(** The public text of each error code. *)
Definition error_messages : list (string * string) :=
  [("rate_limited", "provider rate limit exceeded"); ("network", "provider network request failed");
   ("temporary_unavailable", "provider temporarily unavailable"); ("unauthorized", "provider authentication failed");
   ("invalid_instrument", "provider instrument is invalid"); ("unsupported_interval", "provider interval is unsupported");
   ("bad_request", "provider rejected the request"); ("invalid_response", "provider returned an invalid response");
   ("unknown", "provider request failed"); ("database_unavailable", "database temporarily unavailable");
   ("temporary_failure", "service temporarily unavailable"); ("adapter_not_registered", "provider adapter is not registered");
   ("provider_limit_exceeded", "provider pagination limit was exceeded");
   ("configuration_not_found", "ingestion configuration was not found");
   ("configuration_invalid", "ingestion configuration or data contract is invalid"); ("internal_error", "ingestion task failed");
   ("lease_expired", "worker lease expired before completion");
   ("lease_recovery_exhausted", "worker lease recovery limit was exhausted")]%string.

Definition normalizeTaskError (code : option string) : option string * option string :=
  match code with
  | None => (None, None)
  | Some code =>
      match List.find (fun m => fst m =s code) error_messages with
      | Some (_, message) => (Some code, Some message)
      | None => (Some "internal_error"%string, Some "ingestion task failed"%string)
      end
  end.

Definition enrichTaskRecord (r : TaskRecord) : result TaskRecord :=
  let t := tr_Task r in
  failif id_IsZero (task_ID t) || id_IsZero (task_RunID t) || id_IsZero (task_SubscriptionID t) || id_IsZero (tr_ProviderID r)
         || id_IsZero (tr_InstrumentID r) || id_IsZero (tr_ProviderInstrumentID r) || code_IsZero (tr_ProviderCode r)
         || code_IsZero (tr_InstrumentCode r) || code_IsZero (tr_ProviderInstrumentCode r) || (tr_ProviderSymbol r =s EmptyString)
         || negb (After (task_RangeEnd t) (task_RangeStart t)) || IsZero (task_CreatedAt t) || IsZero (task_UpdatedAt t)
         || negb (oneOf (task_Status t) task_statuses) || negb (oneOf (tr_RunType r) run_types)
         || negb (oneOf (tr_TriggerType r) trigger_types), Sentinel ErrInvalidData ;;
  failif is_err (ParseBarInterval (tr_SubscriptionInterval r)), Sentinel ErrInvalidData ;;
  let '(code, summary) := normalizeTaskError (task_ErrorCode t) in
  let details := sanitizeStringObject (task_ErrorDetails t) ["provider_code"%string] in
  let details := match details !! "provider_code"%string with
    | Some c => if is_err (ParseCode c) then delete "provider_code"%string details else details
    | None => details end in
  Ok (mkTaskRecord (with_error t code (task_ErrorMessage t) (task_ErrorDetails t)) (tr_RunType r) (tr_TriggerType r)
        (tr_SubscriptionInterval r) (tr_ProviderID r) (tr_ProviderCode r) (tr_InstrumentID r) (tr_InstrumentCode r)
        (tr_ProviderInstrumentID r) (tr_ProviderInstrumentCode r) (tr_ProviderSymbol r) summary details).
Fixpoint enrich_all {A} (enrich : A -> result A) (records : list A) : result (list A) :=
  match records with [] => Ok [] | r :: rest => r' <- enrich r ;; rest' <- enrich_all enrich rest ;; Ok (r' :: rest') end.

Definition classifyIngestionQueryFailure (task : bool) (e : error) : error :=
  if errors_Is e ErrNotFound then
    if task then WrapError e ErrorCodeTaskNotFound "ingestion task not found" false NoDetails
    else WrapError e ErrorCodeNotFound "ingestion run not found" false NoDetails
  else classify_failure e.

(** ** The service *)
Section Queries.
Context {W : Type}.

(** [IngestionQueryReader]; a record it returns has the zero summary, context
    and error projection. *)
Class IngestionQueryReader := {
  ListRunRecords : RunListInput -> M W (list RunRecord);
  GetRunRecord : ID -> M W RunRecord;
  ListTaskRecords : TaskListInput -> M W (list TaskRecord);
  GetTaskRecord : ID -> M W TaskRecord }.
Context `{R : IngestionQueryReader}.

Definition ListRuns (input : RunListInput) : M W RunPage :=
  filter <-- mlift (validateRunListInput input) ;;
  records <-- classified (classifyIngestionQueryFailure false) (ListRunRecords filter) ;;
  records <-- classified (classifyIngestionQueryFailure false) (mlift (enrich_all enrichRunRecord records)) ;;
  let '(items, next) := page_of (rl_Limit input) (fun r => run_ID (rec_Run r)) records in
  mret (mkRunPage items next).

Definition GetRun (id : ID) : M W RunRecord :=
  mfailif id_IsZero id, ValidationError [mkFieldViolation "run_id" "must be a valid UUID"] ;;
  record <-- classified (classifyIngestionQueryFailure false) (GetRunRecord id) ;;
  classified (classifyIngestionQueryFailure false) (mlift (enrichRunRecord record)).

Definition ListTasks (input : TaskListInput) : M W TaskPage :=
  filter <-- mlift (validateTaskListInput input) ;;
  records <-- classified (classifyIngestionQueryFailure true) (ListTaskRecords filter) ;;
  records <-- classified (classifyIngestionQueryFailure true) (mlift (enrich_all enrichTaskRecord records)) ;;
  let '(items, next) := page_of (tl_Limit input) (fun r => task_ID (tr_Task r)) records in
  mret (mkTaskPage items next).

Definition GetTask (id : ID) : M W TaskRecord :=
  mfailif id_IsZero id, ValidationError [mkFieldViolation "task_id" "must be a valid UUID"] ;;
  record <-- classified (classifyIngestionQueryFailure true) (GetTaskRecord id) ;;
  classified (classifyIngestionQueryFailure true) (mlift (enrichTaskRecord record)).
End Queries.
#[global] Arguments IngestionQueryReader W : clear implicits.
