(* ===== verification/SubscriptionStore.v ===== *)
(** * internal/repository/postgres/subscription.go and ingestion_queries.go

    The collection subscriptions over the tables of Database.v: the statements
    with the constraints of 00002_create_provider_catalog.sql, the repository's
    operations, and the instance of the interface the subscription service uses;
    and the joined read models of runs and tasks. *)
From stdpp Require Import sorting.
From S2P Require Import Prelude Errors GoStrings GoTime GoJson External Domain MarketData CatchUp Incremental Ports Ingestion Service Database Statements Repository Application Listing Subscriptions IngestionQueries.
Open Scope go_scope.

Section SubscriptionStore.
Context `{D : DecimalLib} `{T : TzLib} `{U : UUIDLib} `{P : !PgLib}.

(** ** Statements *)
Definition subscription_row (s : CollectionSubscription) : result CollectionSubscription :=
  interval <- pg_varchar 8 (sub_Interval s) ;;
  closeDelay <- pg_int4 (sub_CloseDelaySeconds s) ;;
  revisionDelay <- opt_map_result pg_int4 (sub_RevisionDelaySeconds s) ;;
  metadata <- pg_jsonb (jsonValue (sub_Metadata s)) ;;
  Ok {| sub_ID := sub_ID s; sub_ProviderInstrumentID := sub_ProviderInstrumentID s; sub_Interval := interval; sub_Enabled := sub_Enabled s;
        sub_Priority := sub_Priority s; sub_CloseDelaySeconds := closeDelay; sub_RevisionDelaySeconds := revisionDelay;
        sub_Metadata := metadata; sub_CreatedAt := pg_time (TimeToDatabase (sub_CreatedAt s));
        sub_UpdatedAt := pg_time (TimeToDatabase (sub_UpdatedAt s)) |}.

Definition subscription_checks (s : CollectionSubscription) : result unit :=
  failif negb (contains_string [BarInterval1Hour; BarInterval1Day] (sub_Interval s)), check_violation "ck_collection_interval" ;;
  failif sub_Priority s <? 0, check_violation "ck_collection_priority" ;;
  failif sub_CloseDelaySeconds s <? 0, check_violation "ck_collection_close_delay" ;;
  failif opt_test (fun d => d <? 0) (sub_RevisionDelaySeconds s), check_violation "ck_collection_revision_delay" ;;
  Ok tt.

Definition same_source (s t : CollectionSubscription) : bool :=
  (sub_ProviderInstrumentID s =id sub_ProviderInstrumentID t) && (sub_Interval s =s sub_Interval t).

(** [INSERT INTO collection_subscriptions ...] *)
Definition insert_subscription (s : CollectionSubscription) (d : DB) : result (unit * DB) :=
  row <- subscription_row s ;;
  subscription_checks row ;;;
  failif not_nil (db_subscriptions d !! sub_ID row), unique_violation "collection_subscriptions_pkey" ;;
  failif existsb (same_source row) (rows (db_subscriptions d)), unique_violation "uq_collection_subscription" ;;
  failif is_nil (db_mappings d !! sub_ProviderInstrumentID row),
         foreign_key_violation "collection_subscriptions_provider_instrument_id_fkey" ;;
  Ok (tt, set_subscriptions <[sub_ID row := row]> d).

(** [UPDATE collection_subscriptions SET ... WHERE id = $7]: the rows affected. *)
Definition update_subscription (id : ID) (settings : SubscriptionSettings) (auditJSON : string) (updatedAt : Time) (d : DB) : result (Z * DB) :=
  closeDelay <- pg_int4 (set_CloseDelaySeconds settings) ;;
  revisionDelay <- opt_map_result pg_int4 (set_RevisionDelaySeconds settings) ;;
  match db_subscriptions d !! id with
  | None => Ok (0, d)
  | Some s =>
      metadata <- pg_append_audit_log (sub_Metadata s) auditJSON ;;
      let row := with_settings s (mkSubscriptionSettings (set_Enabled settings) (set_Priority settings) closeDelay revisionDelay) metadata
                   (pg_time (TimeToDatabase updatedAt)) in
      subscription_checks row ;;;
      Ok (1, set_subscriptions <[id := row]> d)
  end.

(** The joined row of a subscription. *)
Definition subscription_join (d : DB) (id : ID) : option (CollectionSubscription * ProviderInstrument * Provider * Instrument) :=
  s ← db_subscriptions d !! id;
  m ← db_mappings d !! sub_ProviderInstrumentID s;
  p ← db_providers d !! pi_ProviderID m;
  i ← db_instruments d !! pi_InstrumentID m;
  Some (s, m, p, i).

(** The conditions a filter adds to the WHERE clause. *)
Definition filter_matches (f : SubscriptionReadFilter) (row : CollectionSubscription * ProviderInstrument * Provider * Instrument) : bool :=
  let '(s, m, p, i) := row in
  ((sf_ProviderCode f =s EmptyString) || (prov_Code p =s sf_ProviderCode f))
  && ((sf_InstrumentCode f =s EmptyString) || (inst_Code i =s sf_InstrumentCode f))
  && ((sf_Interval f =s EmptyString) || (sub_Interval s =s sf_Interval f))
  && negb (opt_test (fun e => negb (Bool.eqb (sub_Enabled s) e)) (sf_Enabled f)).
Definition after_id (after : option ID) (id : ID) : bool := negb (opt_test (fun a => N.leb id a) after).
(** [ORDER BY subscriptions.id ASC] *)
Definition filter_ids (f : SubscriptionReadFilter) (d : DB) : list ID :=
  merge_sort N.le (List.filter (fun id => after_id (sf_AfterID f) id && opt_test (filter_matches f) (subscription_join d id))
                     (map fst (map_to_list (db_subscriptions d)))).
Definition selected (f : SubscriptionReadFilter) (limit : Z) (d : DB) : list (CollectionSubscription * ProviderInstrument * Provider * Instrument) :=
  omap (subscription_join d) (firstn (Z.to_nat limit) (filter_ids f d)).

(** ** Scans *)
Definition scanSubscriptionRecord (row : CollectionSubscription * ProviderInstrument * Provider * Instrument) : result SubscriptionRecord :=
  let '(s, m, p, i) := row in
  providerCode <- ParseCode (prov_Code p) ;;
  instrumentCode <- ParseCode (inst_Code i) ;;
  mappingCode <- ParseCode (pi_Code m) ;;
  s <- scanSubscription s ;;
  Ok (mkSubscriptionRecord s providerCode instrumentCode mappingCode (pi_ExternalSymbol m)).

Definition scanSubscriptionSource (row : ProviderInstrument * Provider * Instrument) : result SubscriptionSource :=
  let '(m, p, i) := row in
  providerCode <- ParseCode (prov_Code p) ;;
  instrumentCode <- ParseCode (inst_Code i) ;;
  mappingCode <- ParseCode (pi_Code m) ;;
  providerStatus <- ParseProviderStatus (prov_Status p) ;;
  instrumentStatus <- ParseInstrumentStatus (inst_Status i) ;;
  capabilities_Validate (pi_Capabilities m) ;;;
  Ok {| ss_ProviderID := prov_ID p; ss_ProviderCode := providerCode; ss_ProviderStatus := providerStatus; ss_InstrumentID := inst_ID i;
        ss_InstrumentCode := instrumentCode; ss_InstrumentStatus := instrumentStatus; ss_ProviderInstrumentID := pi_ID m;
        ss_ProviderInstrumentCode := mappingCode; ss_ProviderSymbol := pi_ExternalSymbol m; ss_Capabilities := pi_Capabilities m;
        ss_Enabled := pi_Enabled m; ss_ValidFrom := TimeToDatabase <$> pi_ValidFrom m; ss_ValidTo := TimeToDatabase <$> pi_ValidTo m |}.

Definition defaultSubscriptionPageSize : Z := 50.
Definition maximumSubscriptionPageSize : Z := 100.
Definition subscriptionPageLimit (value : Z) : result Z :=
  if value =? 0 then Ok defaultSubscriptionPageSize
  else
    failif (value <? 0) || (maximumSubscriptionPageSize <? value), Wrap "subscription page limit" (Sentinel ErrInvalidData) ;;
    Ok value.

(** ** Operations *)
Definition repo_CreateSubscription (s : CollectionSubscription) : M PG unit :=
  mfailif id_IsZero (sub_ID s) || id_IsZero (sub_ProviderInstrumentID s), Wrap "create subscription" (Sentinel ErrInvalidData) ;;
  mwrap_db "create subscription" (exec_auto (insert_subscription s)).

Definition repo_GetSubscription (id : ID) : M PG CollectionSubscription :=
  mfailif id_IsZero id, Wrap "get subscription" (Sentinel ErrInvalidData) ;;
  mwrap_db "get subscription" (query (by_id db_subscriptions scanSubscription id)).

Definition repo_ListSubscriptions (f : SubscriptionReadFilter) : M PG (list CollectionSubscription * option ID) :=
  limit <-- mlift (subscriptionPageLimit (sf_Limit f)) ;;
  rows <-- mwrap_db "list subscriptions" (query (fun d => Ok (selected f (limit + 1) d))) ;;
  items <-- mwrap_db "scan subscription" (mlift (scan_all (fun '(s, _, _, _) => scanSubscription s) rows)) ;;
  mret (page_of limit sub_ID items).

Definition repo_UpdateSubscriptionSettings (id : ID) (settings : SubscriptionSettings) (audit : SubscriptionAuditEntry) : M PG unit :=
  mfailif id_IsZero id || (set_Priority settings <? 0) || (set_CloseDelaySeconds settings <? 0)
          || opt_test (fun d => d <? 0) (set_RevisionDelaySeconds settings), Wrap "update subscription settings" (Sentinel ErrInvalidData) ;;
  _ <-- mlift (wrap "update subscription settings" (audit_Validate audit)) ;;
  auditJSON <-- mlift (wrap "encode subscription audit" (json_audit audit)) ;;
  affected <-- mwrap_db "update subscription settings"
    (exec_auto (update_subscription id settings auditJSON (TimeToDatabase (audit_OccurredAt audit)))) ;;
  mfailif affected =? 0, Wrap "update subscription settings" (Sentinel ErrNotFound) ;;
  mret tt.

Definition repo_ListSubscriptionRecords (f : SubscriptionReadFilter) : M PG (list SubscriptionRecord) :=
  mfailif (sf_Limit f <=? 0) || (MaximumSubscriptionsPageSize + 1 <? sf_Limit f) || opt_test id_IsZero (sf_AfterID f),
          Wrap "list subscription records" (Sentinel ErrInvalidData) ;;
  rows <-- mwrap_db "list subscription records" (query (fun d => Ok (selected f (sf_Limit f) d))) ;;
  mwrap_db "scan subscription record" (mlift (scan_all scanSubscriptionRecord rows)).

Definition repo_GetSubscriptionRecord (id : ID) : M PG SubscriptionRecord :=
  mfailif id_IsZero id, Wrap "get subscription record" (Sentinel ErrInvalidData) ;;
  mwrap_db "get subscription record" (query (fun d =>
    match subscription_join d id with None => Err no_rows | Some row => scanSubscriptionRecord row end)).

(** The joined rows of an effective mapping of the provider and the instrument. *)
Definition source_join (providerCode instrumentCode : Code) (at_ : Time) (d : DB) (m : ProviderInstrument) :
    option (ProviderInstrument * Provider * Instrument) :=
  p ← db_providers d !! pi_ProviderID m;
  i ← db_instruments d !! pi_InstrumentID m;
  if (prov_Code p =s providerCode) && (inst_Code i =s instrumentCode) && provider_available p && (inst_Status i =s "active")
     && pi_Enabled m && effective (pi_ValidFrom m) (pi_ValidTo m) at_ then Some (m, p, i) else None.
(** [ORDER BY is_default DESC, priority ASC, code ASC] *)
Definition order_preferred {A} (mapping : A -> ID * ProviderInstrument) (l : list A) : list A :=
  sort_stable (fun x y => preferred (mapping x) (mapping y)) l.

Definition repo_FindSubscriptionSources (providerCode instrumentCode : Code) (effectiveAt : Time) : M PG (list SubscriptionSource) :=
  mfailif code_IsZero providerCode || code_IsZero instrumentCode || IsZero effectiveAt, Wrap "find subscription sources" (Sentinel ErrInvalidData) ;;
  rows <-- mwrap_db "find subscription sources" (query (fun d =>
    Ok (firstn 2 (order_preferred (fun '(m, _, _) => (pi_ID m, m))
         (omap (source_join providerCode instrumentCode (pg_time (TimeToDatabase effectiveAt)) d) (rows (db_mappings d))))))) ;;
  mwrap_db "scan subscription source" (mlift (scan_all scanSubscriptionSource rows)).

#[export] Instance repo_SubscriptionStore : SubscriptionStore PG := {|
  CreateSubscription := repo_CreateSubscription; UpdateSubscriptionSettings := repo_UpdateSubscriptionSettings;
  ListSubscriptionRecords := repo_ListSubscriptionRecords; FindSubscriptionSources := repo_FindSubscriptionSources;
  GetSubscriptionRecord := repo_GetSubscriptionRecord |}.
End SubscriptionStore.

(** * internal/repository/postgres/ingestion_queries.go

    The joined read models of runs and tasks over the tables of Database.v. *)
Section QueryStore.
Context `{D : DecimalLib} `{T : TzLib} `{U : UUIDLib} `{P : !PgLib}.

(** [runManagementCTE]: a run with the counts of its tasks. The status it
    derives from them is only compared with the filter. *)
Definition derived_status (tasks : list IngestionTask) : string :=
  let count status := count_status status tasks in
  let total := llen tasks in
  if count "pending"%string =? total then "pending"%string
  else if 0 <? count "pending"%string + count "running"%string + count "retry_wait"%string then "running"%string
  else if count "success"%string =? total then "success"%string
  else if count "failed"%string =? total then "failed"%string
  else if count "canceled"%string =? total then "canceled"%string
  else "partial"%string.

Definition zero_summary : RunSummary := mkRunSummary 0%N EmptyString 0 0 0 0 0 0 0 None None.

(** [scanRunManagementRecord] *)
Definition scanRunManagementRecord (run : IngestionRun) (tasks : list IngestionTask) : RunRecord :=
  let count status := count_status status tasks in
  mkRunRecord {|
    run_ID := run_ID run; run_RunKey := run_RunKey run; run_RunType := run_RunType run; run_TriggerType := run_TriggerType run;
    run_Status := run_Status run; run_ScheduledAt := TimeToDatabase <$> run_ScheduledAt run; run_StartedAt := TimeToDatabase <$> run_StartedAt run;
    run_FinishedAt := TimeToDatabase <$> run_FinishedAt run; run_RequestedBy := run_RequestedBy run; run_TaskCount := run_TaskCount run;
    run_SuccessCount := run_SuccessCount run; run_FailedCount := run_FailedCount run; run_Context := copyJSON (run_Context run);
    run_ErrorSummary := copyJSON (run_ErrorSummary run); run_CreatedAt := TimeToDatabase (run_CreatedAt run) |}
    (mkRunTaskSnapshot (run_ID run) (count "pending"%string) (count "running"%string) (count "retry_wait"%string) (count "success"%string)
       (count "failed"%string) (count "canceled"%string) (TimeToDatabase <$> min_started tasks) (TimeToDatabase <$> max_finished tasks))
    zero_summary ∅.

Definition text_filter (filter value : string) : bool := (filter =s EmptyString) || (value =s filter).
(** [created_at >= $1 AND created_at < $2], on the stored instants. *)
Definition created_within (from to : option Time) (createdAt : Time) : bool :=
  negb (opt_test (fun f => createdAt <? pg_time (TimeToDatabase f)) from)
  && negb (opt_test (fun u => pg_time (TimeToDatabase u) <=? createdAt) to).
Definition before_id (after : option ID) (id : ID) : bool := negb (opt_test (fun a => N.leb a id) after).

Definition run_matches (f : RunListInput) (d : DB) (run : IngestionRun) : bool :=
  text_filter (rl_RunType f) (run_RunType run) && text_filter (rl_TriggerType f) (run_TriggerType run)
  && text_filter (rl_Status f) (derived_status (run_tasks (run_ID run) d))
  && ((rl_RequestedBy f =s EmptyString) || opt_test (fun r => r =s rl_RequestedBy f) (run_RequestedBy run))
  && created_within (rl_CreatedFrom f) (rl_CreatedTo f) (run_CreatedAt run) && before_id (rl_AfterID f) (run_ID run).

(** [ORDER BY id DESC] *)
Definition newest_ids (ids : list ID) : list ID := rev (merge_sort N.le ids).
Definition select_runs (f : RunListInput) (d : DB) : list RunRecord :=
  omap (fun id => run ← db_runs d !! id; Some (scanRunManagementRecord run (run_tasks id d)))
    (firstn (Z.to_nat (rl_Limit f))
       (newest_ids (List.filter (fun id => opt_test (run_matches f d) (db_runs d !! id)) (map fst (map_to_list (db_runs d)))))).

Definition invalid_page (limit : Z) (after : option ID) : bool :=
  (limit <? 1) || (MaximumIngestionManagementPageSize + 1 <? limit) || opt_test id_IsZero after.

Definition repo_ListRunRecords (f : RunListInput) : M PG (list RunRecord) :=
  mfailif invalid_page (rl_Limit f) (rl_AfterID f), Wrap "list ingestion runs" (Sentinel ErrInvalidData) ;;
  mwrap_db "list ingestion runs" (query (fun d => Ok (select_runs f d))).

Definition repo_GetRunRecord (id : ID) : M PG RunRecord :=
  mfailif id_IsZero id, Wrap "get ingestion run" (Sentinel ErrInvalidData) ;;
  mwrap_db "get ingestion run" (query (fun d =>
    match db_runs d !! id with None => Err no_rows | Some run => Ok (scanRunManagementRecord run (run_tasks id d)) end)).

(** ** Tasks *)
(** The joined row of a task: its run, and its subscription's source. *)
Definition task_join (d : DB) (id : ID) : option (IngestionTask * IngestionRun * (CollectionSubscription * ProviderInstrument * Provider * Instrument)) :=
  t ← db_tasks d !! id;
  r ← db_runs d !! task_RunID t;
  source ← subscription_join d (task_SubscriptionID t);
  Some (t, r, source).

Definition task_matches (f : TaskListInput) (row : IngestionTask * IngestionRun * (CollectionSubscription * ProviderInstrument * Provider * Instrument)) : bool :=
  let '(t, r, (s, m, p, i)) := row in
  negb (opt_test (fun id => task_RunID t <>id id) (tl_RunID f)) && text_filter (tl_Status f) (task_Status t)
  && text_filter (tl_ProviderCode f) (prov_Code p) && text_filter (tl_InstrumentCode f) (inst_Code i)
  && text_filter (tl_Interval f) (sub_Interval s) && created_within (tl_CreatedFrom f) (tl_CreatedTo f) (task_CreatedAt t)
  && before_id (tl_AfterID f) (task_ID t).

Definition scanTaskManagementRecord (row : IngestionTask * IngestionRun * (CollectionSubscription * ProviderInstrument * Provider * Instrument)) :
    result TaskRecord :=
  let '(t, r, (s, m, p, i)) := row in
  providerCode <- ParseCode (prov_Code p) ;;
  instrumentCode <- ParseCode (inst_Code i) ;;
  mappingCode <- ParseCode (pi_Code m) ;;
  Ok (mkTaskRecord (scanTask t) (run_RunType r) (run_TriggerType r) (sub_Interval s) (prov_ID p) providerCode (inst_ID i) instrumentCode
        (pi_ID m) mappingCode (pi_ExternalSymbol m) None ∅).

Definition select_tasks (f : TaskListInput) (d : DB) : list (IngestionTask * IngestionRun * (CollectionSubscription * ProviderInstrument * Provider * Instrument)) :=
  omap (task_join d)
    (firstn (Z.to_nat (tl_Limit f))
       (newest_ids (List.filter (fun id => opt_test (task_matches f) (task_join d id)) (map fst (map_to_list (db_tasks d)))))).

Definition repo_ListTaskRecords (f : TaskListInput) : M PG (list TaskRecord) :=
  mfailif opt_test id_IsZero (tl_RunID f) || invalid_page (tl_Limit f) (tl_AfterID f), Wrap "list ingestion tasks" (Sentinel ErrInvalidData) ;;
  rows <-- mwrap_db "list ingestion tasks" (query (fun d => Ok (select_tasks f d))) ;;
  mwrap_db "scan ingestion task" (mlift (scan_all scanTaskManagementRecord rows)).

Definition repo_GetTaskRecord (id : ID) : M PG TaskRecord :=
  mfailif id_IsZero id, Wrap "get ingestion task" (Sentinel ErrInvalidData) ;;
  mwrap_db "get ingestion task" (query (fun d =>
    match task_join d id with None => Err no_rows | Some row => scanTaskManagementRecord row end)).

#[export] Instance repo_IngestionQueryReader : IngestionQueryReader PG := {|
  ListRunRecords := repo_ListRunRecords; GetRunRecord := repo_GetRunRecord;
  ListTaskRecords := repo_ListTaskRecords; GetTaskRecord := repo_GetTaskRecord |}.
End QueryStore.
