(* ===== verification/MarketQueries.v ===== *)
(** * internal/application/bars.go and latest_quotes.go

    The public reads of bars and of latest quotes: the resolution of readable
    codes, the selection of the source and the checks of what storage returns. *)
From S2P Require Import Prelude Errors GoStrings GoTime External Domain MarketData Application Listing Subscriptions.
Open Scope go_scope.

Definition MaximumBarsPageSize : Z := 1000.
Definition BarOrderAscending : string := "asc".
Definition BarOrderDescending : string := "desc".

Record BarsInput := mkBarsInput {
  bi_InstrumentCode : string; bi_ProviderCode : string; bi_Interval : string; bi_StartTime : option Time; bi_EndTime : option Time;
  bi_Order : string; bi_CursorOpenTime : option Time; bi_Limit : Z }.
Record BarSourceFilter := mkBarSourceFilter { bsf_InstrumentID : ID; bsf_ProviderID : ID; bsf_EffectiveAt : Time }.
Record BarSourceRecord := mkBarSourceRecord {
  bs_InstrumentID : ID; bs_BaseAssetCode : Code; bs_QuoteAssetCode : option Code; bs_QuoteCurrency : string; bs_ProviderID : ID;
  bs_ProviderInstrumentID : ID; bs_ProviderInstrumentCode : Code; bs_ProviderSymbol : string; bs_Capabilities : Capabilities }.
Record BarReadFilter := mkBarReadFilter {
  bf_InstrumentID : ID; bf_ProviderInstrumentID : ID; bf_Interval : string; bf_Range : TimeRange; bf_Order : string;
  bf_CursorOpenTime : option Time; bf_Limit : Z }.

Record LatestQuotesInput := mkLatestQuotesInput { lq_AssetCode : string; lq_InstrumentCode : string; lq_ProviderCode : string }.
Record LatestQuoteFilter := mkLatestQuoteFilter {
  lqf_AssetID : ID; lqf_InstrumentID : option ID; lqf_ProviderID : option ID; lqf_EffectiveAt : Time }.
Record parsedLatestQuotesInput := mkParsedLatestQuotesInput {
  pq_assetCode : option Code; pq_instrumentCode : option Code; pq_providerCode : option Code }.

(** ** Input checks *)
Record parsedBarsInput := mkParsedBarsInput {
  pb_instrumentCode : Code; pb_providerCode : Code; pb_interval : string; pb_timeRange : TimeRange; pb_order : string;
  pb_cursorOpenTime : option Time }.

Definition bars_order (order : string) : string := if order =s EmptyString then BarOrderDescending else order.
Definition parseBarsInput (input : BarsInput) : result parsedBarsInput :=
  let order := bars_order (bi_Order input) in
  _ <- validated
    (violation (invalid_code (bi_InstrumentCode input) "instrument.") "instrument_code" "must be a valid instrument code"
     ++ violation (is_err (ParseCode (bi_ProviderCode input))) "provider" "must be a valid provider code"
     ++ violation (is_err (ParseBarInterval (bi_Interval input))) "interval" "must be a supported interval value"
     ++ violation ((order <>s BarOrderAscending) && (order <>s BarOrderDescending)) "order" "must be asc or desc"
     ++ violation ((bi_Limit input <=? 0) || (MaximumBarsPageSize <? bi_Limit input)) "limit" "must be an integer between 1 and 1000") tt ;;
  match NewTimeRange (bi_StartTime input) (bi_EndTime input) with
  | Ok timeRange =>
      let parsed cursor := mkParsedBarsInput (bi_InstrumentCode input) (bi_ProviderCode input) (bi_Interval input) timeRange order cursor in
      match bi_CursorOpenTime input with
      | None => Ok (parsed None)
      | Some c =>
          failif is_err (NewUTCInstant c) || negb (Contains timeRange c),
                 ValidationError [mkFieldViolation "cursor" "contains a position outside the requested time range"] ;;
          Ok (parsed (Some c))
      end
  | Err e => Err (WrapError e ErrorCodeInvalidTimeRange "start_time must be before end_time" false NoDetails)
  | Diverge => Diverge
  end.

(** A code filter: absent, invalid, or parsed. *)
Definition code_filter (invalid : bool) (value : string) : option Code := if (value =s EmptyString) || invalid then None else Some value.
Definition parseLatestQuotesInput (input : LatestQuotesInput) : result parsedLatestQuotesInput :=
  let missing := (lq_AssetCode input =s EmptyString) && (lq_InstrumentCode input =s EmptyString) in
  let asset_invalid := invalid_code (lq_AssetCode input) "asset." in
  let instrument_invalid := invalid_code (lq_InstrumentCode input) "instrument." in
  let provider_invalid := is_err (ParseCode (lq_ProviderCode input)) in
  validated
    (violation missing "asset_code" "asset_code or instrument_code is required"
     ++ violation missing "instrument_code" "asset_code or instrument_code is required"
     ++ violation ((lq_AssetCode input <>s EmptyString) && asset_invalid) "asset_code" "must be a valid asset code"
     ++ violation ((lq_InstrumentCode input <>s EmptyString) && instrument_invalid) "instrument_code" "must be a valid instrument code"
     ++ violation ((lq_ProviderCode input <>s EmptyString) && provider_invalid) "provider" "must be a valid provider code")
    (mkParsedLatestQuotesInput (code_filter asset_invalid (lq_AssetCode input)) (code_filter instrument_invalid (lq_InstrumentCode input))
       (code_filter provider_invalid (lq_ProviderCode input))).

Definition validateBarSource (s : BarSourceRecord) (instrumentID providerID : ID) : result unit :=
  failif (bs_InstrumentID s <>id instrumentID) || (bs_ProviderID s <>id providerID) || id_IsZero (bs_ProviderInstrumentID s)
         || negb (HasPrefix (bs_BaseAssetCode s) "asset.") || negb (HasPrefix (bs_ProviderInstrumentCode s) "provider.")
         || (TrimSpace (bs_ProviderSymbol s) =s EmptyString) || (TrimSpace (bs_QuoteCurrency s) =s EmptyString),
         Wrap "invalid bar source projection" (Sentinel ErrInvalidData) ;;
  failif opt_test (fun c => negb (HasPrefix c "asset.")) (bs_QuoteAssetCode s), Wrap "invalid quote asset projection" (Sentinel ErrInvalidData) ;;
  capabilities_Validate (bs_Capabilities s).

Definition unavailableBarSource : error := ValidationError [mkFieldViolation "provider" "is not currently available for instrument_code"].
Definition classifyBarQueryFailure : error -> error := classify_failure.
Definition classifyLatestQuoteFailure : error -> error := classify_failure.
Definition mapCatalogQueryError (code message : string) (e : error) : error :=
  if errors_Is e ErrNotFound then WrapError e code message false NoDetails else classifyLatestQuoteFailure e.
Definition unknown_provider (classify : error -> error) (e : error) : error :=
  if errors_Is e ErrNotFound then ValidationError [mkFieldViolation "provider" "does not identify a known provider"] else classify e.

Section Queries.
Context `{D : DecimalLib} `{T : TzLib} {W : Type}.

(** The catalog ports of the query services. *)
Class QueryCatalog := {
  FindAssetByCode : Code -> M W Asset;
  FindAssetByID : ID -> M W Asset;
  FindInstrumentByCode : Code -> M W Instrument;
  FindProviderByCode : Code -> M W Provider;
  FindInstrumentsByIDs : list ID -> M W (list Instrument) }.
Class BarReader := {
  ResolveBarSource : BarSourceFilter -> M W BarSourceRecord;
  ListBars : BarReadFilter -> M W (list Bar) }.

(** ** Bars *)
Record BarsResult := mkBarsResult {
  br_Instrument : Instrument; br_Provider : Provider; br_Source : BarSourceRecord; br_Interval : string; br_Order : string;
  br_Bars : list Bar; br_NextCursorOpenTime : option Time }.

Definition order_breaks (order : string) (previous current : Time) : bool :=
  ((order =s BarOrderAscending) && negb (After current previous)) || ((order =s BarOrderDescending) && negb (Before current previous)).
(** [previous] is the open time of the bar before, if there is one. *)
Fixpoint validate_bars (f : BarReadFilter) (previous : option Time) (bars : list Bar) : result unit :=
  match bars with
  | [] => Ok tt
  | b :: rest =>
      NewStoredBar b ;;;
      failif (bar_InstrumentID b <>id bf_InstrumentID f) || (bar_ProviderInstrumentID b <>id bf_ProviderInstrumentID f)
             || (bar_Interval b <>s bf_Interval f) || negb (Contains (bf_Range f) (bar_OpenTime b)),
             Wrap "bar does not match query filter" (Sentinel ErrInvalidData) ;;
      failif opt_test (fun c => (bf_Order f =s BarOrderAscending) && negb (After (bar_OpenTime b) c)) (bf_CursorOpenTime f),
             Wrap "ascending bar cursor was not respected" (Sentinel ErrInvalidData) ;;
      failif opt_test (fun c => (bf_Order f =s BarOrderDescending) && negb (Before (bar_OpenTime b) c)) (bf_CursorOpenTime f),
             Wrap "descending bar cursor was not respected" (Sentinel ErrInvalidData) ;;
      failif opt_test (fun p => order_breaks (bf_Order f) p (bar_OpenTime b)) previous,
             Wrap "bar page order is unstable" (Sentinel ErrInvalidData) ;;
      validate_bars f (Some (bar_OpenTime b)) rest
  end.
Definition validateBarPage (bars : list Bar) (f : BarReadFilter) : result unit := validate_bars f None bars.

Definition BarsService_List `{C : QueryCatalog} `{R : BarReader} (now : M W Time) (input : BarsInput) : M W BarsResult :=
  parsed <-- mlift (parseBarsInput input) ;;
  instrument <-- classified (mapCatalogQueryError ErrorCodeInstrumentNotFound "instrument not found") (FindInstrumentByCode (pb_instrumentCode parsed)) ;;
  mfailif inst_Code instrument <>s pb_instrumentCode parsed, classifyBarQueryFailure (Sentinel ErrInvalidData) ;;
  provider <-- classified (unknown_provider classifyBarQueryFailure) (FindProviderByCode (pb_providerCode parsed)) ;;
  mfailif prov_Code provider <>s pb_providerCode parsed, classifyBarQueryFailure (Sentinel ErrInvalidData) ;;
  effectiveAt <-- now ;;
  mfailif (inst_Status instrument <>s InstrumentStatusActive)
          || negb (effectiveAtWithin effectiveAt (inst_ValidFrom instrument) (inst_ValidTo instrument))
          || (prov_Status provider =s ProviderStatusDisabled), unavailableBarSource ;;
  source <-- classified (fun e => if errors_Is e ErrNotFound then unavailableBarSource else classifyBarQueryFailure e)
               (ResolveBarSource (mkBarSourceFilter (inst_ID instrument) (prov_ID provider) effectiveAt)) ;;
  _ <-- classified classifyBarQueryFailure (mlift (validateBarSource source (inst_ID instrument) (prov_ID provider))) ;;
  mfailif negb (cap_Historical (bs_Capabilities source)) || negb (supportsBarInterval (cap_Intervals (bs_Capabilities source)) (pb_interval parsed)),
          NewError ErrorCodeUnsupportedInterval "provider does not support the requested interval" false (Detail "interval" (pb_interval parsed)) ;;
  let filter := mkBarReadFilter (inst_ID instrument) (bs_ProviderInstrumentID source) (pb_interval parsed) (pb_timeRange parsed) (pb_order parsed)
                  (pb_cursorOpenTime parsed) (bi_Limit input + 1) in
  bars <-- classified classifyBarQueryFailure (ListBars filter) ;;
  _ <-- classified classifyBarQueryFailure (mlift (validateBarPage bars filter)) ;;
  let '(bars, next) := page_of (bi_Limit input) bar_OpenTime bars in
  mret (mkBarsResult instrument provider source (pb_interval parsed) (pb_order parsed) bars next).

(** ** Latest quotes *)
Record LatestQuoteRecord := mkLatestQuoteRecord {
  qr_InstrumentCode : Code; qr_QuoteCurrency : string; qr_ProviderID : ID; qr_ProviderCode : Code; qr_ProviderInstrumentCode : Code;
  qr_ProviderSymbol : string; qr_Quote : Quote }.
Record LatestQuotesResult := mkLatestQuotesResult { qres_Asset : Asset; qres_Quotes : list LatestQuoteRecord }.
Class LatestQuoteReader := { ListLatestQuoteRecords : LatestQuoteFilter -> M W (list LatestQuoteRecord) }.

Definition validate_quote_record (f : LatestQuoteFilter) (r : LatestQuoteRecord) : result unit :=
  quote_Validate (qr_Quote r) ;;;
  failif negb (HasPrefix (qr_InstrumentCode r) "instrument.") || negb (HasPrefix (qr_ProviderInstrumentCode r) "provider.")
         || id_IsZero (qr_ProviderID r) || code_IsZero (qr_ProviderCode r) || (TrimSpace (qr_ProviderSymbol r) =s EmptyString)
         || (TrimSpace (qr_QuoteCurrency r) =s EmptyString), Wrap "invalid latest quote projection" (Sentinel ErrInvalidData) ;;
  failif opt_test (fun id => quote_InstrumentID (qr_Quote r) <>id id) (lqf_InstrumentID f),
         Wrap "latest quote instrument does not match filter" (Sentinel ErrInvalidData) ;;
  failif opt_test (fun id => qr_ProviderID r <>id id) (lqf_ProviderID f),
         Wrap "latest quote provider does not match filter" (Sentinel ErrInvalidData) ;;
  Ok tt.
Definition validateLatestQuoteRecords (records : list LatestQuoteRecord) (f : LatestQuoteFilter) : result unit :=
  validate_records (validate_quote_record f) records.

(** The order of the result: instrument, provider and mapping codes. *)
Definition quote_record_less (a b : LatestQuoteRecord) : bool :=
  if qr_InstrumentCode a <>s qr_InstrumentCode b then String.ltb (qr_InstrumentCode a) (qr_InstrumentCode b)
  else if qr_ProviderCode a <>s qr_ProviderCode b then String.ltb (qr_ProviderCode a) (qr_ProviderCode b)
  else String.ltb (qr_ProviderInstrumentCode a) (qr_ProviderInstrumentCode b).

Section Quotes.
Context `{C : QueryCatalog} `{R : LatestQuoteReader}.
Definition invalid_projection {A} : M W A := mthrow (classifyLatestQuoteFailure (Sentinel ErrInvalidData)).

Definition zero_asset : Asset := mkAsset 0%N EmptyString EmptyString EmptyString EmptyString EmptyString EmptyString 0 0.
Definition resolveMarketIdentity (input : parsedLatestQuotesInput) : M W (Asset * option Instrument) :=
  asset <-- match pq_assetCode input with
    | None => mret None
    | Some code =>
        loaded <-- classified (mapCatalogQueryError ErrorCodeAssetNotFound "asset not found") (FindAssetByCode code) ;;
        if asset_Code loaded <>s code then invalid_projection else mret (Some loaded)
    end ;;
  match pq_instrumentCode input with
  | None => mret (default zero_asset asset, None)
  | Some code =>
      loaded <-- classified (mapCatalogQueryError ErrorCodeInstrumentNotFound "instrument not found") (FindInstrumentByCode code) ;;
      if inst_Code loaded <>s code then invalid_projection
      else
        asset <-- match asset with
          | Some a => mret a
          | None =>
              a <-- classified classifyLatestQuoteFailure (FindAssetByID (inst_AssetID loaded)) ;;
              if asset_ID a <>id inst_AssetID loaded then invalid_projection else mret a
          end ;;
        mfailif inst_AssetID loaded <>id asset_ID asset, ValidationError [mkFieldViolation "instrument_code" "does not belong to asset_code"] ;;
        mret (asset, Some loaded)
  end.

Definition resolveProvider (code : option Code) : M W (option Provider) :=
  match code with
  | None => mret None
  | Some code =>
      provider <-- classified (unknown_provider classifyLatestQuoteFailure) (FindProviderByCode code) ;;
      if prov_Code provider <>s code then invalid_projection else mret (Some provider)
  end.

Definition LatestQuotesService_List (now : M W Time) (input : LatestQuotesInput) : M W LatestQuotesResult :=
  parsed <-- mlift (parseLatestQuotesInput input) ;;
  do* (asset, instrument) := resolveMarketIdentity parsed ;;
  provider <-- resolveProvider (pq_providerCode parsed) ;;
  effectiveAt <-- now ;;
  if (asset_Status asset <>s AssetStatusActive)
     || opt_test (fun i => (inst_Status i <>s InstrumentStatusActive) || negb (effectiveAtWithin effectiveAt (inst_ValidFrom i) (inst_ValidTo i))) instrument
     || opt_test (fun p => prov_Status p =s ProviderStatusDisabled) provider
  then mret (mkLatestQuotesResult asset [])
  else
    let filter := mkLatestQuoteFilter (asset_ID asset) (inst_ID <$> instrument) (prov_ID <$> provider) effectiveAt in
    records <-- classified classifyLatestQuoteFailure (ListLatestQuoteRecords filter) ;;
    _ <-- classified classifyLatestQuoteFailure (mlift (validateLatestQuoteRecords records filter)) ;;
    mret (mkLatestQuotesResult asset (sort_stable quote_record_less records)).
End Quotes.
End Queries.
#[global] Arguments QueryCatalog {D} W.
#[global] Arguments BarReader {D} W.
#[global] Arguments LatestQuoteReader {D} W.
