(* ===== verification/InstrumentOptions.v ===== *)
(** * internal/application/instrument_options.go and instrument_precision.go

    The selectable instruments of an asset with their providers, and the batch
    query of order precision. *)
From stdpp Require Import pretty.
From S2P Require Import Prelude Errors GoStrings GoTime External Domain MarketData Application Listing Subscriptions MarketQueries.
Open Scope go_scope.

(** ** Instrument options *)
Definition MaximumInstrumentOptionsPageSize : Z := 100.
Record InstrumentOptionsInput := mkInstrumentOptionsInput { io_AssetCode : string; io_AfterInstrumentCode : string; io_Limit : Z }.
Record InstrumentOptionsFilter := mkInstrumentOptionsFilter {
  iof_AssetID : ID; iof_AfterInstrumentCode : option Code; iof_EffectiveAt : Time; iof_InstrumentLimit : Z }.
Record InstrumentProviderOptionRecord := mkInstrumentProviderOptionRecord {
  or_InstrumentID : ID; or_InstrumentCode : Code; or_InstrumentDisplayName : string; or_ProviderInstrumentID : ID;
  or_ProviderInstrumentCode : Code; or_ProviderCode : Code; or_ProviderDisplayName : string; or_IsDefault : bool; or_Priority : Z;
  or_Capabilities : Capabilities }.
Record ProviderOption := mkProviderOption {
  po_Code : Code; po_DisplayName : string; po_IsDefault : bool; po_Priority : Z; po_SupportedIntervals : list string }.
Record InstrumentOption := mkInstrumentOption { opt_ID : ID; opt_Code : Code; opt_DisplayName : string; opt_Providers : list ProviderOption }.
Record InstrumentOptionsPage := mkInstrumentOptionsPage { iop_Items : list InstrumentOption; iop_NextAfterInstrumentCode : option Code }.

Definition validateInstrumentOptionsInput (input : InstrumentOptionsInput) : result (Code * option Code) :=
  let after := io_AfterInstrumentCode input in
  validated
    (violation (invalid_code (io_AssetCode input) "asset.") "asset_code" "must be a valid asset code"
     ++ violation ((io_Limit input <=? 0) || (MaximumInstrumentOptionsPageSize <? io_Limit input)) "limit" "must be an integer between 1 and 100"
     ++ violation ((after <>s EmptyString) && invalid_code after "instrument.") "cursor" "contains an invalid instrument position")
    (io_AssetCode input, code_filter (invalid_code after "instrument.") after).

Definition validateInstrumentProviderOptionRecord (r : InstrumentProviderOptionRecord) : result unit :=
  failif id_IsZero (or_InstrumentID r) || id_IsZero (or_ProviderInstrumentID r) || negb (HasPrefix (or_InstrumentCode r) "instrument.")
         || negb (HasPrefix (or_ProviderInstrumentCode r) "provider.") || code_IsZero (or_ProviderCode r)
         || (TrimSpace (or_InstrumentDisplayName r) =s EmptyString) || (TrimSpace (or_ProviderDisplayName r) =s EmptyString)
         || (or_Priority r <? 0), Wrap "invalid instrument option projection" (Sentinel ErrInvalidData) ;;
  wrap "invalid instrument option capabilities" (capabilities_Validate (or_Capabilities r)).

Definition option_less (a b : InstrumentProviderOptionRecord) : bool :=
  if or_InstrumentCode a <>s or_InstrumentCode b then String.ltb (or_InstrumentCode a) (or_InstrumentCode b)
  else if negb (Bool.eqb (or_IsDefault a) (or_IsDefault b)) then or_IsDefault a
  else if negb (or_Priority a =? or_Priority b) then or_Priority a <? or_Priority b
  else if or_ProviderCode a <>s or_ProviderCode b then String.ltb (or_ProviderCode a) (or_ProviderCode b)
  else String.ltb (or_ProviderInstrumentCode a) (or_ProviderInstrumentCode b).

Definition hasProviderOption (options : list ProviderOption) (code : Code) : bool := existsb (fun o => po_Code o =s code) options.
Definition provider_option (r : InstrumentProviderOptionRecord) : ProviderOption :=
  mkProviderOption (or_ProviderCode r) (or_ProviderDisplayName r) (or_IsDefault r) (or_Priority r) (cap_Intervals (or_Capabilities r)).

(** The loop over the sorted rows: the items before the last one, and the last. *)
Fixpoint group_rows (items : list InstrumentOption) (last : option InstrumentOption) (rows : list InstrumentProviderOptionRecord) :
    result (list InstrumentOption) :=
  match rows with
  | [] => Ok (items ++ match last with Some item => [item] | None => [] end)
  | r :: rest =>
      let fresh := mkInstrumentOption (or_InstrumentID r) (or_InstrumentCode r) (or_InstrumentDisplayName r) [] in
      let '(items, item) := match last with
        | Some item => if opt_Code item =s or_InstrumentCode r then (items, item) else (items ++ [item], fresh)
        | None => (items, fresh) end in
      failif (opt_ID item <>id or_InstrumentID r) || (opt_DisplayName item <>s or_InstrumentDisplayName r),
             Wrap "inconsistent instrument option projection" (Sentinel ErrInvalidData) ;;
      let providers := if hasProviderOption (opt_Providers item) (or_ProviderCode r) then opt_Providers item
                       else opt_Providers item ++ [provider_option r] in
      group_rows items (Some (mkInstrumentOption (opt_ID item) (opt_Code item) (opt_DisplayName item) providers)) rest
  end.
Definition groupInstrumentOptions (rows : list InstrumentProviderOptionRecord) : result (list InstrumentOption) :=
  validate_records validateInstrumentProviderOptionRecord rows ;;;
  group_rows [] None (sort_stable option_less rows).

Definition classifyInstrumentOptionsFailure : error -> error := classify_failure.
Definition classifyInstrumentPrecisionFailure : error -> error := classify_failure.

Section Options.
Context `{D : DecimalLib} `{T : TzLib} `{U : UUIDLib} {W : Type}.
Class InstrumentOptionsReader := { ListInstrumentProviderOptions : InstrumentOptionsFilter -> M W (list InstrumentProviderOptionRecord) }.

Definition InstrumentOptionsService_List `{C : !QueryCatalog W} `{R : InstrumentOptionsReader} (now : M W Time) (input : InstrumentOptionsInput) :
    M W InstrumentOptionsPage :=
  do* (assetCode, afterCode) := mlift (validateInstrumentOptionsInput input) ;;
  asset <-- classified (fun e => if errors_Is e ErrNotFound then WrapError e ErrorCodeAssetNotFound "asset not found" false NoDetails
                                 else classifyInstrumentOptionsFailure e) (FindAssetByCode assetCode) ;;
  mfailif asset_Code asset <>s assetCode, classifyInstrumentOptionsFailure (Sentinel ErrInvalidData) ;;
  if asset_Status asset <>s AssetStatusActive then mret (mkInstrumentOptionsPage [] None)
  else
    effectiveAt <-- now ;;
    rows <-- classified classifyInstrumentOptionsFailure
      (ListInstrumentProviderOptions (mkInstrumentOptionsFilter (asset_ID asset) afterCode effectiveAt (io_Limit input + 1))) ;;
    items <-- classified classifyInstrumentOptionsFailure (mlift (groupInstrumentOptions rows)) ;;
    let '(items, next) := page_of (io_Limit input) opt_Code items in
    mret (mkInstrumentOptionsPage items next).

(** ** Instrument precision *)
Definition MaximumInstrumentPrecisionBatchSize : Z := 100.
Record InstrumentPrecisionItem := mkInstrumentPrecisionItem {
  prec_InstrumentID : ID; prec_InstrumentCode : Code; prec_PriceScale : Z; prec_QuantityScale : Z; prec_LotSize : Decimal;
  prec_MinQuantity : Decimal; prec_AsOf : Time }.
Record InstrumentPrecisionResult := mkInstrumentPrecisionResult {
  prec_Items : list InstrumentPrecisionItem; prec_MissingInstrumentIDs : list ID }.

(** [domain.ParseID]: the canonical text only. *)
Definition ParseID (value : string) : result ID :=
  match uuid_Parse value with
  | None => Err (Wrap "parse ID" (Plain "invalid UUID"))
  | Some id => failif uuid_String id <>s value, Plain "parse ID: non-canonical UUID" ;; Ok id
  end.

(** The loop over the texts: the violations, and the distinct identifiers. *)
Fixpoint parse_ids (index : Z) (violations : list FieldViolation) (seen : gset ID) (ids : list ID) (values : list string) :
    list FieldViolation * list ID :=
  match values with
  | [] => (violations, ids)
  | value :: rest =>
      match ParseID value with
      | Ok id => if bool_decide (id ∈ seen) then parse_ids (index + 1) violations seen ids rest
                 else parse_ids (index + 1) violations ({[id]} ∪ seen) (ids ++ [id]) rest
      | _ => parse_ids (index + 1) (violations ++ [mkFieldViolation ("instrument_ids[" ++ pretty index ++ "]") "must be a canonical UUID"]) seen ids rest
      end
  end.
Definition parseInstrumentPrecisionInput (values : list string) : result (list ID) :=
  failif llen values =? 0, ValidationError [mkFieldViolation "instrument_ids" "must contain at least one instrument ID"] ;;
  failif MaximumInstrumentPrecisionBatchSize <? llen values,
         ValidationError [mkFieldViolation "instrument_ids" "must not contain more than 100 entries"] ;;
  let '(violations, ids) := parse_ids 0 [] ∅ [] values in
  validated violations ids.

Definition instrumentHasUsablePrecision (i : Instrument) (effectiveAt : Time) : bool :=
  (inst_Status i =s InstrumentStatusActive) && effectiveAtWithin effectiveAt (inst_ValidFrom i) (inst_ValidTo i) && not_nil (inst_PriceScale i)
  && not_nil (inst_QuantityScale i) && not_nil (inst_LotSize i) && not_nil (inst_MinQuantity i).

(** The item of a usable instrument; its four values are present. *)
Definition precision_item (i : Instrument) (asOf : Time) : option InstrumentPrecisionItem :=
  price ← inst_PriceScale i;
  quantity ← inst_QuantityScale i;
  lot ← inst_LotSize i;
  minimum ← inst_MinQuantity i;
  Some (mkInstrumentPrecisionItem (inst_ID i) (inst_Code i) price quantity lot minimum asOf).

Fixpoint index_instruments (byID : gmap ID Instrument) (instruments : list Instrument) : result (gmap ID Instrument) :=
  match instruments with
  | [] => Ok byID
  | i :: rest =>
      failif id_IsZero (inst_ID i) || negb (HasPrefix (inst_Code i) "instrument."), Wrap "invalid instrument projection" (Sentinel ErrInvalidData) ;;
      index_instruments (<[inst_ID i := i]> byID) rest
  end.

(** The loop over the requested identifiers, in their order. *)
Fixpoint resolve_precision (byID : gmap ID Instrument) (effectiveAt : Time) (items : list InstrumentPrecisionItem) (missing : list ID)
    (ids : list ID) : result InstrumentPrecisionResult :=
  match ids with
  | [] => Ok (mkInstrumentPrecisionResult items missing)
  | id :: rest =>
      match byID !! id with
      | Some i =>
          if instrumentHasUsablePrecision i effectiveAt then
            asOf <- NewUTCInstant (inst_UpdatedAt i) ;;
            resolve_precision byID effectiveAt (items ++ match precision_item i asOf with Some x => [x] | None => [] end) missing rest
          else resolve_precision byID effectiveAt items (missing ++ [id]) rest
      | None => resolve_precision byID effectiveAt items (missing ++ [id]) rest
      end
  end.

Definition Batch `{C : !QueryCatalog W} (now : M W Time) (values : list string) : M W InstrumentPrecisionResult :=
  ids <-- mlift (parseInstrumentPrecisionInput values) ;;
  instruments <-- classified classifyInstrumentPrecisionFailure (FindInstrumentsByIDs ids) ;;
  byID <-- classified classifyInstrumentPrecisionFailure (mlift (index_instruments ∅ instruments)) ;;
  effectiveAt <-- now ;;
  classified classifyInstrumentPrecisionFailure (mlift (resolve_precision byID effectiveAt [] [] ids)).
End Options.
#[global] Arguments InstrumentOptionsReader W : clear implicits.
