(* ===== verification/ProviderStatus.v ===== *)
(** * internal/application/provider_status.go: provider health

    Health and freshness of every provider, computed from the persisted
    observations of its subscriptions and the market calendar. *)
From S2P Require Import Prelude Errors GoStrings GoTime External Domain MarketData Calendar Window Freshness Application Listing Subscriptions.
Open Scope go_scope.

Definition providerUnhealthyFailureThreshold : Z := 3.
Definition ProviderHealthHealthy : string := "healthy".
Definition ProviderHealthDegraded : string := "degraded".
Definition ProviderHealthUnhealthy : string := "unhealthy".
Definition ProviderHealthUnknown : string := "unknown".

Record ProviderSubscriptionObservation := mkProviderSubscriptionObservation {
  ob_SubscriptionID : ID; ob_ProviderMarket : string; ob_AssetType : string; ob_Interval : string; ob_CloseDelaySeconds : Z;
  ob_LastClosedOpenTime : option Time; ob_LastSuccessAt : option Time; ob_LastFailureAt : option Time; ob_ConsecutiveFailures : Z }.
Record ProviderStatusSource := mkProviderStatusSource {
  pss_ProviderID : ID; pss_ProviderCode : Code; pss_DisplayName : string; pss_ProviderType : string; pss_ConfiguredStatus : string;
  pss_Subscriptions : list ProviderSubscriptionObservation }.

Record ProviderScopeStatus := mkProviderScopeStatus {
  scope_Market : string; scope_SessionType : string; scope_Interval : string; scope_MarketState : string; scope_HealthStatus : string;
  scope_FreshnessStatus : string; scope_DataDelaySeconds : option Z; scope_ActiveSubscriptions : Z; scope_DelayedSubscriptions : Z;
  scope_NextMarketOpenAt : option Time }.
Record ProviderStatus := mkProviderStatus {
  ps_ProviderID : ID; ps_ProviderCode : Code; ps_DisplayName : string; ps_ProviderType : string; ps_ConfiguredStatus : string;
  ps_HealthStatus : string; ps_LastSuccessAt : option Time; ps_LastFailureAt : option Time; ps_ConsecutiveFailures : Z;
  ps_CheckedAt : Time; ps_Scopes : list ProviderScopeStatus }.

(** ** Helpers *)
Definition hasFailureThreshold (values : list ProviderSubscriptionObservation) : bool :=
  existsb (fun v => providerUnhealthyFailureThreshold <=? ob_ConsecutiveFailures v) values.
Definition hasAnySuccess (values : list ProviderSubscriptionObservation) : bool := existsb (fun v => not_nil (ob_LastSuccessAt v)) values.
(** [latestTime], [earliestTime] and [maximumInt64]. *)
Definition better (replaces : Z -> Z -> bool) (current candidate : option Z) : option Z :=
  match candidate with
  | None => current
  | Some v => match current with None => Some v | Some c => if replaces v c then Some v else current end
  end.
Definition latestTime : option Time -> option Time -> option Time := better After.
Definition earliestTime : option Time -> option Time -> option Time := better Before.
Definition maximumInt64 : option Z -> option Z -> option Z := better (fun v c => c <? v).

(** ** Scopes *)
Record providerScopeKey := mkProviderScopeKey { key_market : string; key_sessionType : string; key_interval : string }.
#[export] Instance providerScopeKey_eq_dec : EqDecision providerScopeKey.
Proof. solve_decision. Defined.

Definition providerScopeFor (o : ProviderSubscriptionObservation) : result providerScopeKey :=
  failif id_IsZero (ob_SubscriptionID o) || (ob_ProviderMarket o =s EmptyString) || (ob_CloseDelaySeconds o <? 0)
         || (ob_ConsecutiveFailures o <? 0), Sentinel ErrInvalidData ;;
  ParseBarInterval (ob_Interval o) ;;;
  if ob_AssetType o =s AssetTypeCrypto then Ok (mkProviderScopeKey ("crypto_" ++ ob_ProviderMarket o) "continuous" (ob_Interval o))
  else if ob_AssetType o =s AssetTypeFX then Ok (mkProviderScopeKey ("fx_" ++ ob_ProviderMarket o) "continuous" (ob_Interval o))
  else if (ob_AssetType o =s AssetTypeStock) || (ob_AssetType o =s AssetTypeETF)
       then Ok (mkProviderScopeKey (ob_ProviderMarket o ++ "_equity") "regular" (ob_Interval o))
  else Err (Sentinel ErrInvalidData).

Record subscriptionFreshnessProjection := mkProjection {
  pj_MarketState : string; pj_FreshnessStatus : string; pj_DataDelaySeconds : option Z; pj_NextMarketOpenAt : option Time }.

Section WithCalendar.
Context (usCalendar : TradingCalendar).

(** The projection and whether the calendar does not reach the instant. *)
Definition subscriptionFreshness (key : providerScopeKey) (o : ProviderSubscriptionObservation) (checkedAt : Time) :
    result (subscriptionFreshnessProjection * bool) :=
  let delay := wrap64 (ob_CloseDelaySeconds o * Second) in
  if key_sessionType key =s "regular" then
    match CalculateUSFreshness usCalendar (mkUSFreshnessInput checkedAt (key_interval key) delay (ob_LastClosedOpenTime o)) with
    | Err e => failif negb (errors_Is e ErrCalendarOutOfRange), e ;; Ok (mkProjection EmptyString FreshnessStatusUnknown None None, true)
    | Ok r => Ok (mkProjection (fr_MarketState r) (fr_FreshnessStatus r) (fr_DataDelaySeconds r) (fr_NextMarketOpenAt r), false)
    | Diverge => Diverge
    end
  else
    window <- CalculateLatestContinuousWindow (key_interval key) WindowTriggerClose checkedAt delay ;;
    match window, ob_LastClosedOpenTime o with
    | Some w, Some last =>
        if negb (Before last (win_RangeStart w)) then Ok (mkProjection MarketStateOpen FreshnessStatusFresh (Some 0) None, false)
        else Ok (mkProjection MarketStateOpen FreshnessStatusDelayed (Some (Z.quot (Sub (win_RangeStart w) last) Second)) None, false)
    | _, _ => Ok (mkProjection MarketStateOpen FreshnessStatusUnknown None None, false)
    end.

(** What the loop over the observations of a scope accumulates. *)
Record Tally := mkTally {
  ta_MarketState : string; ta_NextMarketOpenAt : option Time; ta_DataDelaySeconds : option Z; ta_fresh : Z; ta_delayed : Z;
  ta_unknown : Z; ta_recentFailures : Z; ta_severe : Z; ta_allNotApplicable : bool }.
Definition no_tally : Tally := mkTally "open" None None 0 0 0 0 0 true.

Definition intervalSeconds (interval : string) : Z := if interval =s BarInterval1Day then 86400 else 3600.
Definition recent_failure (o : ProviderSubscriptionObservation) : bool :=
  (0 <? ob_ConsecutiveFailures o)
  || opt_test (fun f => is_nil (ob_LastSuccessAt o) || opt_test (fun s => After f s) (ob_LastSuccessAt o)) (ob_LastFailureAt o).
Definition observation_severe (key : providerScopeKey) (o : ProviderSubscriptionObservation) (p : subscriptionFreshnessProjection) (calendarFailure : bool) : bool :=
  calendarFailure
  || ((pj_FreshnessStatus p =s FreshnessStatusDelayed)
      && opt_test (fun d => 3 * intervalSeconds (key_interval key) <=? d) (pj_DataDelaySeconds p))
  || (providerUnhealthyFailureThreshold <=? ob_ConsecutiveFailures o).

Definition tally_one (key : providerScopeKey) (checkedAt : Time) (t : Tally) (o : ProviderSubscriptionObservation) : result Tally :=
  let* (p, calendarFailure) := subscriptionFreshness key o checkedAt ;;
  let state := if calendarFailure then "unknown"%string else ta_MarketState t in
  let state := if (pj_MarketState p =s MarketStateClosed) && (state <>s "unknown") then "closed"%string else state in
  let next := match pj_NextMarketOpenAt p with None => ta_NextMarketOpenAt t | Some n => earliestTime (ta_NextMarketOpenAt t) (Some n) end in
  let has status := pj_FreshnessStatus p =s status in
  Ok {| ta_MarketState := state; ta_NextMarketOpenAt := next;
        ta_DataDelaySeconds := if has FreshnessStatusDelayed then maximumInt64 (ta_DataDelaySeconds t) (pj_DataDelaySeconds p) else ta_DataDelaySeconds t;
        ta_fresh := ta_fresh t + Z.b2z (has FreshnessStatusFresh); ta_delayed := ta_delayed t + Z.b2z (has FreshnessStatusDelayed);
        ta_unknown := ta_unknown t + Z.b2z (has FreshnessStatusUnknown);
        ta_recentFailures := ta_recentFailures t + Z.b2z (recent_failure o);
        ta_severe := ta_severe t + Z.b2z (observation_severe key o p calendarFailure);
        ta_allNotApplicable := ta_allNotApplicable t && has FreshnessStatusNotApplicable |}.
Fixpoint tally (key : providerScopeKey) (checkedAt : Time) (t : Tally) (observations : list ProviderSubscriptionObservation) : result Tally :=
  match observations with [] => Ok t | o :: rest => t <- tally_one key checkedAt t o ;; tally key checkedAt t rest end.

(** The freshness and the delay of a scope. *)
Definition scope_freshness (t : Tally) : string * option Z :=
  if ta_allNotApplicable t then (FreshnessStatusNotApplicable, None)
  else if 0 <? ta_delayed t then (FreshnessStatusDelayed, ta_DataDelaySeconds t)
  else if 0 <? ta_unknown t then (FreshnessStatusUnknown, ta_DataDelaySeconds t)
  else (FreshnessStatusFresh, Some 0).
Definition scope_health (t : Tally) (observations : list ProviderSubscriptionObservation) : string :=
  let n := llen observations in
  if (0 <? ta_severe t) && ((n <=? ta_severe t) || hasFailureThreshold observations) then ProviderHealthUnhealthy
  else if (0 <? ta_delayed t) || (0 <? ta_recentFailures t) || (0 <? ta_severe t) || ((0 <? ta_unknown t) && (0 <? ta_fresh t))
       then ProviderHealthDegraded
  else if ta_unknown t =? n then ProviderHealthUnknown
  else if ta_allNotApplicable t && hasAnySuccess observations then ProviderHealthHealthy
  else if ta_fresh t =? n then ProviderHealthHealthy
  else ProviderHealthUnknown.

Definition projectScope (key : providerScopeKey) (observations : list ProviderSubscriptionObservation) (checkedAt : Time) : result ProviderScopeStatus :=
  failif llen observations =? 0, Sentinel ErrInvalidData ;;
  t <- tally key checkedAt no_tally observations ;;
  let '(freshness, delay) := scope_freshness t in
  Ok (mkProviderScopeStatus (key_market key) (key_sessionType key) (key_interval key) (ta_MarketState t) (scope_health t observations)
        freshness delay (llen observations) (ta_delayed t) (ta_NextMarketOpenAt t)).

(** The first scope that is unhealthy or degraded decides. *)
Fixpoint summarize_scopes (hasHealthy hasUnknown : bool) (scopes : list ProviderScopeStatus) : string :=
  match scopes with
  | [] => if hasUnknown && hasHealthy then ProviderHealthDegraded else if hasHealthy then ProviderHealthHealthy else ProviderHealthUnknown
  | s :: rest =>
      let h := scope_HealthStatus s in
      if h =s ProviderHealthUnhealthy then ProviderHealthUnhealthy
      else if h =s ProviderHealthDegraded then ProviderHealthDegraded
      else if h =s ProviderHealthHealthy then summarize_scopes true hasUnknown rest
      else if h =s ProviderHealthUnknown then summarize_scopes hasHealthy true rest
      else summarize_scopes hasHealthy hasUnknown rest
  end.
Definition summarizeProviderHealth (scopes : list ProviderScopeStatus) : string := summarize_scopes false false scopes.

(** ** Providers *)
(** The groups of the observations, in the order the keys first appear; and the
    latest times and the most failures in a row. *)
Record Observed := mkObserved {
  obs_groups : list (providerScopeKey * list ProviderSubscriptionObservation); obs_success : option Time; obs_failure : option Time; obs_failures : Z }.
Fixpoint add_group (key : providerScopeKey) (o : ProviderSubscriptionObservation) (groups : list (providerScopeKey * list ProviderSubscriptionObservation)) :
    list (providerScopeKey * list ProviderSubscriptionObservation) :=
  match groups with
  | [] => [(key, [o])]
  | (k, os) :: rest => if bool_decide (k = key) then (k, os ++ [o]) :: rest else (k, os) :: add_group key o rest
  end.
Fixpoint observe (g : Observed) (observations : list ProviderSubscriptionObservation) : result Observed :=
  match observations with
  | [] => Ok g
  | o :: rest =>
      key <- providerScopeFor o ;;
      observe (mkObserved (add_group key o (obs_groups g)) (latestTime (obs_success g) (ob_LastSuccessAt o))
                 (latestTime (obs_failure g) (ob_LastFailureAt o)) (Z.max (ob_ConsecutiveFailures o) (obs_failures g))) rest
  end.

Definition key_less (a b : providerScopeKey) : bool :=
  if key_market a <>s key_market b then String.ltb (key_market a) (key_market b)
  else if key_sessionType a <>s key_sessionType b then String.ltb (key_sessionType a) (key_sessionType b)
  else String.ltb (key_interval a) (key_interval b).

Definition with_health (s : ProviderScopeStatus) (health : string) : ProviderScopeStatus :=
  mkProviderScopeStatus (scope_Market s) (scope_SessionType s) (scope_Interval s) (scope_MarketState s) health (scope_FreshnessStatus s)
    (scope_DataDelaySeconds s) (scope_ActiveSubscriptions s) (scope_DelayedSubscriptions s) (scope_NextMarketOpenAt s).
Fixpoint project_scopes (disabled : bool) (checkedAt : Time) (groups : list (providerScopeKey * list ProviderSubscriptionObservation)) :
    result (list ProviderScopeStatus) :=
  match groups with
  | [] => Ok []
  | (key, observations) :: rest =>
      scope <- projectScope key observations checkedAt ;;
      scopes <- project_scopes disabled checkedAt rest ;;
      Ok ((if disabled then with_health scope ProviderHealthUnknown else scope) :: scopes)
  end.

Definition projectProvider (source : ProviderStatusSource) (checkedAt : Time) : result ProviderStatus :=
  failif id_IsZero (pss_ProviderID source) || code_IsZero (pss_ProviderCode source) || (pss_DisplayName source =s EmptyString),
         Sentinel ErrInvalidData ;;
  ParseProviderType (pss_ProviderType source) ;;;
  ParseProviderStatus (pss_ConfiguredStatus source) ;;;
  observed <- observe (mkObserved [] None None 0) (pss_Subscriptions source) ;;
  let disabled := pss_ConfiguredStatus source =s ProviderStatusDisabled in
  scopes <- project_scopes disabled checkedAt (sort_stable (fun a b => key_less (fst a) (fst b)) (obs_groups observed)) ;;
  let summary := summarizeProviderHealth scopes in
  let health := if disabled then ProviderHealthUnknown
    else if (pss_ConfiguredStatus source =s ProviderStatusDegraded) && (summary =s ProviderHealthHealthy) then ProviderHealthDegraded
    else summary in
  Ok (mkProviderStatus (pss_ProviderID source) (pss_ProviderCode source) (pss_DisplayName source) (pss_ProviderType source)
        (pss_ConfiguredStatus source) health (obs_success observed) (obs_failure observed) (obs_failures observed) checkedAt scopes).
Fixpoint project_all (sources : list ProviderStatusSource) (checkedAt : Time) : result (list ProviderStatus) :=
  match sources with
  | [] => Ok []
  | s :: rest => status <- projectProvider s checkedAt ;; statuses <- project_all rest checkedAt ;; Ok (status :: statuses)
  end.

Definition classifyProviderStatusFailure (e : error) : error :=
  if errors_Is e ErrDatabaseUnavailable then WrapError e ErrorCodeDatabaseUnavailable "database unavailable" true NoDetails
  else if errors_Is e ErrRetryable then WrapError e ErrorCodeServiceUnavailable "service temporarily unavailable" true NoDetails
  else WrapError e ErrorCodeInternal "provider status is unavailable" false NoDetails.

(** ** The service *)
Definition NewProviderStatusService : result TradingCalendar :=
  failif is_nil (cal_Location usCalendar), Plain "provider status service dependencies are required" ;; Ok usCalendar.

Definition ProviderStatusService_List {W} (ListProviderStatusSources : Time -> M W (list ProviderStatusSource)) (now : M W Time) :
    M W (list ProviderStatus) :=
  checkedAt <-- now ;;
  mfailif IsZero checkedAt, WrapError (Sentinel ErrInvalidData) ErrorCodeInternal "provider status clock is invalid" false NoDetails ;;
  sources <-- classified classifyProviderStatusFailure (ListProviderStatusSources checkedAt) ;;
  statuses <-- classified classifyProviderStatusFailure (mlift (project_all sources checkedAt)) ;;
  mret (sort_stable (fun a b => String.ltb (ps_ProviderCode a) (ps_ProviderCode b)) statuses).
End WithCalendar.
