(* ===== verification/CatalogStore.v ===== *)
(** * internal/repository/postgres: catalog.go, bar_query.go, latest_quote_query.go, provider_status.go

    The catalog reads and configuration writes and the read models of the
    public queries and of the provider status, over the tables of Database.v. *)
From stdpp Require Import sorting.
From S2P Require Import Prelude Errors GoStrings GoTime GoJson External Domain MarketData CatchUp Incremental Ports Ingestion Service Database Statements Repository Application Listing Subscriptions SubscriptionStore MarketQueries InstrumentOptions ProviderStatus.
Open Scope go_scope.

Section CatalogStore.
Context `{D : DecimalLib} `{T : TzLib} `{U : UUIDLib} `{P : !PgLib}.

(** ** catalog.go: finds *)
(** [WHERE code = $1]; the code is unique. *)
Definition by_code {A} (table : DB -> gmap ID A) (code_of : A -> Code) (scan : A -> result A) (code : Code) (d : DB) : result A :=
  match List.find (fun a => code_of a =s code) (rows (table d)) with None => Err no_rows | Some row => scan row end.

Definition repo_FindAssetByCode (code : Code) : M PG Asset :=
  mwrap_db "find asset by code" (query (by_code db_assets asset_Code scanAsset code)).
Definition repo_FindAssetByID (id : ID) : M PG Asset :=
  mfailif id_IsZero id, Wrap "find asset by ID" (Sentinel ErrInvalidData) ;;
  mwrap_db "find asset by ID" (query (by_id db_assets scanAsset id)).
Definition repo_FindInstrumentByCode (code : Code) : M PG Instrument :=
  mwrap_db "find instrument by code" (query (by_code db_instruments inst_Code scanInstrument code)).
Definition repo_FindProviderByCode (code : Code) : M PG Provider :=
  mwrap_db "find provider by code" (query (by_code db_providers prov_Code scanProvider code)).

Definition repo_FindInstrumentsByIDs (ids : list ID) : M PG (list Instrument) :=
  mfailif (llen ids =? 0) || existsb id_IsZero ids, Wrap "find instruments by IDs" (Sentinel ErrInvalidData) ;;
  found <-- mwrap_db "find instruments by IDs" (query (fun d =>
    Ok (List.filter (fun i => existsb (fun id => inst_ID i =id id) ids) (rows (db_instruments d))))) ;;
  mwrap_db "scan instrument" (mlift (scan_all scanInstrument found)).

(** ** catalog.go: configuration writes *)
(** [code = lower(code)] *)
Definition lower_code (code : string) : bool := negb (existsb (fun c => in_range 65 90 (byte_at c)) (list_ascii_of_string code)).

Definition insert_provider (p : Provider) (d : DB) : result (unit * DB) :=
  code <- pg_varchar 64 (prov_Code p) ;;
  name <- pg_varchar 128 (prov_Name p) ;;
  type <- pg_varchar 24 (prov_ProviderType p) ;;
  status <- pg_varchar 16 (prov_Status p) ;;
  metadata <- pg_jsonb (jsonValue (prov_Metadata p)) ;;
  failif negb (lower_code code), check_violation "ck_providers_code" ;;
  failif negb (contains_string ["BROKER"; "EXCHANGE"; "AGGREGATOR"]%string type), check_violation "ck_providers_type" ;;
  failif negb (contains_string ["active"; "disabled"; "degraded"]%string status), check_violation "ck_providers_status" ;;
  failif not_nil (db_providers d !! prov_ID p), unique_violation "providers_pkey" ;;
  failif existsb (fun q => prov_Code q =s code) (rows (db_providers d)), unique_violation "uq_providers_code" ;;
  Ok (tt, set_providers <[prov_ID p := mkProvider (prov_ID p) code name type status metadata (pg_time (TimeToDatabase (prov_CreatedAt p)))
                                         (pg_time (TimeToDatabase (prov_UpdatedAt p)))]> d).
Definition repo_CreateProvider (p : Provider) : M PG unit :=
  p <-- mlift (wrap "create provider" (NewProvider p)) ;;
  mwrap_db "create provider" (exec_auto (insert_provider p)).

(** The partial unique indexes of the mappings without an end. *)
Definition same_external (m n : ProviderInstrument) : bool :=
  is_nil (pi_ValidTo m) && is_nil (pi_ValidTo n) && (pi_ProviderID m =id pi_ProviderID n) && (pi_ProviderMarket m =s pi_ProviderMarket n)
  && (pi_ExternalSymbol m =s pi_ExternalSymbol n).
Definition enabled_default (m : ProviderInstrument) : bool := pi_Enabled m && pi_IsDefault m && is_nil (pi_ValidTo m).
Definition same_default (m n : ProviderInstrument) : bool := enabled_default m && enabled_default n && (pi_InstrumentID m =id pi_InstrumentID n).

Definition insert_mapping (m : ProviderInstrument) (d : DB) : result (unit * DB) :=
  code <- pg_varchar 192 (pi_Code m) ;;
  symbol <- pg_varchar 128 (pi_ExternalSymbol m) ;;
  market <- pg_varchar 32 (pi_ProviderMarket m) ;;
  metadata <- pg_jsonb (jsonValue (pi_Metadata m)) ;;
  let row := {|
    pi_ID := pi_ID m; pi_Code := code; pi_ProviderID := pi_ProviderID m; pi_InstrumentID := pi_InstrumentID m; pi_ExternalSymbol := symbol;
    pi_ProviderMarket := market; pi_Capabilities := pi_Capabilities m; pi_Priority := pi_Priority m; pi_IsDefault := pi_IsDefault m;
    pi_Enabled := pi_Enabled m; pi_ValidFrom := opt_time (pi_ValidFrom m); pi_ValidTo := opt_time (pi_ValidTo m); pi_Metadata := metadata;
    pi_CreatedAt := pg_time (TimeToDatabase (pi_CreatedAt m)); pi_UpdatedAt := pg_time (TimeToDatabase (pi_UpdatedAt m)) |} in
  failif negb (lower_code code), check_violation "ck_provider_instruments_code" ;;
  failif pi_Priority row <? 0, check_violation "ck_provider_instruments_priority" ;;
  failif opt_test (fun f => opt_test (fun t => negb (f <? t)) (pi_ValidTo row)) (pi_ValidFrom row),
         check_violation "ck_provider_instruments_valid_range" ;;
  failif not_nil (db_mappings d !! pi_ID row), unique_violation "provider_instruments_pkey" ;;
  failif existsb (fun n => pi_Code n =s code) (rows (db_mappings d)), unique_violation "uq_provider_instruments_code" ;;
  failif existsb (same_external row) (rows (db_mappings d)), unique_violation "uq_active_provider_external_symbol" ;;
  failif existsb (same_default row) (rows (db_mappings d)), unique_violation "uq_enabled_default_provider_instrument" ;;
  failif is_nil (db_providers d !! pi_ProviderID row), foreign_key_violation "provider_instruments_provider_id_fkey" ;;
  failif is_nil (db_instruments d !! pi_InstrumentID row), foreign_key_violation "provider_instruments_instrument_id_fkey" ;;
  Ok (tt, set_mappings <[pi_ID row := row]> d).
Definition repo_CreateProviderInstrument (m : ProviderInstrument) : M PG unit :=
  m <-- mlift (wrap "create provider instrument" (NewProviderInstrument m)) ;;
  mwrap_db "create provider instrument" (exec_auto (insert_mapping m)).

Definition repo_ListActiveProviderInstruments (instrumentID : ID) : M PG (list ProviderInstrument) :=
  mfailif id_IsZero instrumentID, Wrap "list active provider instruments" (Sentinel ErrInvalidData) ;;
  found <-- mwrap_db "list active provider instruments" (query (fun d =>
    Ok (order_preferred (fun m => (pi_ID m, m))
          (List.filter (fun m => (pi_InstrumentID m =id instrumentID) && pi_Enabled m && is_nil (pi_ValidTo m)) (rows (db_mappings d)))))) ;;
  mwrap_db "scan provider instrument" (mlift (scan_all scanProviderInstrument found)).

(** ** catalog.go: instrument options *)
(** The enabled mappings of an instrument that are effective, with their
    available providers. *)
Definition available_mappings (at_ : Time) (d : DB) (instrumentID : ID) : list (ProviderInstrument * Provider) :=
  omap (fun m =>
    p ← db_providers d !! pi_ProviderID m;
    if (pi_InstrumentID m =id instrumentID) && pi_Enabled m && effective (pi_ValidFrom m) (pi_ValidTo m) at_ && provider_available p
    then Some (m, p) else None) (rows (db_mappings d)).

(** [COALESCE(NULLIF(metadata ->> 'display_name', ''), symbol)]: the first
    operand is the server's, given the metadata. *)
Definition display_name (metadata_name : string -> option string) (i : Instrument) : string :=
  match metadata_name (inst_Metadata i) with
  | Some name => if name =s EmptyString then inst_Symbol i else name
  | None => inst_Symbol i
  end.

Definition selected_instruments (f : InstrumentOptionsFilter) (afterCode : string) (d : DB) : list Instrument :=
  let at_ := pg_time (TimeToDatabase (iof_EffectiveAt f)) in
  firstn (Z.to_nat (iof_InstrumentLimit f)) (sort_stable (fun a b => String.ltb (inst_Code a) (inst_Code b))
    (List.filter (fun i => (inst_AssetID i =id iof_AssetID f) && (inst_Status i =s "active") && effective (inst_ValidFrom i) (inst_ValidTo i) at_
        && ((afterCode =s EmptyString) || String.ltb afterCode (inst_Code i)) && negb (llen (available_mappings at_ d (inst_ID i)) =? 0))
       (rows (db_instruments d)))).

(** [scanInstrumentProviderOptionRecord] of a joined row. *)
Definition scanInstrumentProviderOptionRecord (name : string) (i : Instrument) (row : ProviderInstrument * Provider) : result InstrumentProviderOptionRecord :=
  let '(m, p) := row in
  instrumentCode <- ParseCode (inst_Code i) ;;
  mappingCode <- ParseCode (pi_Code m) ;;
  providerCode <- ParseCode (prov_Code p) ;;
  capabilities_Validate (pi_Capabilities m) ;;;
  Ok (mkInstrumentProviderOptionRecord (inst_ID i) instrumentCode name (pi_ID m) mappingCode providerCode (prov_Name p) (pi_IsDefault m)
        (pi_Priority m) (pi_Capabilities m)).

(** [is_default DESC, priority ASC, provider.code ASC, mapping.code ASC] *)
Definition option_row_less (a b : ProviderInstrument * Provider) : bool :=
  let '(m, p) := a in
  let '(n, q) := b in
  if negb (Bool.eqb (pi_IsDefault m) (pi_IsDefault n)) then pi_IsDefault m
  else if negb (pi_Priority m =? pi_Priority n) then pi_Priority m <? pi_Priority n
  else if prov_Code p <>s prov_Code q then String.ltb (prov_Code p) (prov_Code q)
  else String.ltb (pi_Code m) (pi_Code n).

Definition repo_ListInstrumentProviderOptions (metadata_name : string -> option string) (f : InstrumentOptionsFilter) :
    M PG (list InstrumentProviderOptionRecord) :=
  mfailif id_IsZero (iof_AssetID f) || IsZero (iof_EffectiveAt f) || (iof_InstrumentLimit f <=? 0)
          || (MaximumInstrumentOptionsPageSize + 1 <? iof_InstrumentLimit f) || opt_test (fun c => c =s EmptyString) (iof_AfterInstrumentCode f),
          Wrap "list instrument provider options" (Sentinel ErrInvalidData) ;;
  found <-- mwrap_db "list instrument provider options" (query (fun d =>
    let at_ := pg_time (TimeToDatabase (iof_EffectiveAt f)) in
    Ok (concat (map (fun i => map (fun row => (i, row)) (sort_stable option_row_less (available_mappings at_ d (inst_ID i))))
          (selected_instruments f (default EmptyString (iof_AfterInstrumentCode f)) d))))) ;;
  mwrap "scan instrument provider option" (mlift (scan_all (fun '(i, row) => scanInstrumentProviderOptionRecord (display_name metadata_name i) i row) found)).

(** ** bar_query.go *)
(** The joined rows of a source: the instrument's assets and the mapping. *)
Definition bar_sources (f : BarSourceFilter) (d : DB) : list (Instrument * Asset * option Asset * ProviderInstrument * Provider) :=
  let at_ := pg_time (TimeToDatabase (bsf_EffectiveAt f)) in
  match db_instruments d !! bsf_InstrumentID f with
  | None => []
  | Some i =>
      match db_assets d !! inst_AssetID i with
      | None => []
      | Some base =>
          if (inst_Status i =s "active") && (asset_Status base =s "active") && effective (inst_ValidFrom i) (inst_ValidTo i) at_ then
            map (fun '(m, p) => (i, base, (q ← inst_QuoteAssetID i; db_assets d !! q), m, p))
              (List.filter (fun '(m, p) => prov_ID p =id bsf_ProviderID f) (available_mappings at_ d (inst_ID i)))
          else []
      end
  end.

Definition scanBarSource (row : Instrument * Asset * option Asset * ProviderInstrument * Provider) : result BarSourceRecord :=
  let '(i, base, quote, m, p) := row in
  baseCode <- ParseCode (asset_Code base) ;;
  mappingCode <- ParseCode (pi_Code m) ;;
  capabilities_Validate (pi_Capabilities m) ;;;
  quoteCode <- opt_map_result (fun a => ParseCode (asset_Code a)) quote ;;
  Ok (mkBarSourceRecord (inst_ID i) baseCode quoteCode (inst_QuoteCurrency i) (prov_ID p) (pi_ID m) mappingCode (pi_ExternalSymbol m)
        (pi_Capabilities m)).

Definition repo_ResolveBarSource (f : BarSourceFilter) : M PG BarSourceRecord :=
  mfailif id_IsZero (bsf_InstrumentID f) || id_IsZero (bsf_ProviderID f) || IsZero (bsf_EffectiveAt f),
          Wrap "resolve bar source" (Sentinel ErrInvalidData) ;;
  mwrap_db "resolve bar source" (query (fun d =>
    match order_preferred (fun '(_, _, _, m, _) => (pi_ID m, m)) (bar_sources f d) with
    | [] => Err no_rows
    | row :: _ => scanBarSource row
    end)).

Definition validateBarReadFilter (f : BarReadFilter) : result unit :=
  failif id_IsZero (bf_InstrumentID f) || id_IsZero (bf_ProviderInstrumentID f) || (bf_Limit f <=? 0) || (MaximumBarsPageSize + 1 <? bf_Limit f),
         Sentinel ErrInvalidData ;;
  ParseBarInterval (bf_Interval f) ;;;
  range_Validate (bf_Range f) ;;;
  failif (bf_Order f <>s BarOrderAscending) && (bf_Order f <>s BarOrderDescending), Sentinel ErrInvalidData ;;
  failif opt_test IsZero (bf_CursorOpenTime f), Sentinel ErrInvalidData ;;
  Ok tt.

Definition bar_selected (f : BarReadFilter) (b : Bar) : bool :=
  let ascending := bf_Order f =s BarOrderAscending in
  (bar_InstrumentID b =id bf_InstrumentID f) && (bar_ProviderInstrumentID b =id bf_ProviderInstrumentID f)
  && (bar_Interval b =s bf_Interval f) && bar_IsCurrent b
  && negb (opt_test (fun s => bar_OpenTime b <? pg_time (TimeToDatabase s)) (range_Start (bf_Range f)))
  && negb (opt_test (fun e => pg_time (TimeToDatabase e) <=? bar_OpenTime b) (range_End (bf_Range f)))
  && negb (opt_test (fun c => if ascending then bar_OpenTime b <=? pg_time (TimeToDatabase c) else pg_time (TimeToDatabase c) <=? bar_OpenTime b)
             (bf_CursorOpenTime f)).
Definition repo_ListBars (f : BarReadFilter) : M PG (list Bar) :=
  _ <-- mlift (wrap "list bars" (validateBarReadFilter f)) ;;
  found <-- mwrap_db "list bars" (query (fun d =>
    Ok (firstn (Z.to_nat (bf_Limit f))
          (sort_stable (fun a b => if bf_Order f =s BarOrderAscending then bar_OpenTime a <? bar_OpenTime b else bar_OpenTime b <? bar_OpenTime a)
             (List.filter (bar_selected f) (concat (rows (db_bars d)))))))) ;;
  mwrap "scan bar" (mlift (scan_all scanMarketBar found)).

(** ** latest_quote_query.go *)
Definition validateLatestQuoteFilter (f : LatestQuoteFilter) : result unit :=
  failif id_IsZero (lqf_AssetID f) || IsZero (lqf_EffectiveAt f), Sentinel ErrInvalidData ;;
  failif opt_test id_IsZero (lqf_InstrumentID f), Sentinel ErrInvalidData ;;
  failif opt_test id_IsZero (lqf_ProviderID f), Sentinel ErrInvalidData ;;
  Ok tt.

Definition quote_join (f : LatestQuoteFilter) (d : DB) (q : Quote) : option (Quote * Instrument * ProviderInstrument * Provider) :=
  let at_ := pg_time (TimeToDatabase (lqf_EffectiveAt f)) in
  i ← db_instruments d !! quote_InstrumentID q;
  m ← db_mappings d !! quote_ProviderInstrumentID q;
  p ← db_providers d !! pi_ProviderID m;
  if (pi_InstrumentID m =id quote_InstrumentID q) && (inst_AssetID i =id lqf_AssetID f) && (inst_Status i =s "active")
     && effective (inst_ValidFrom i) (inst_ValidTo i) at_ && pi_Enabled m && effective (pi_ValidFrom m) (pi_ValidTo m) at_
     && cap_Quote (pi_Capabilities m) && provider_available p
     && negb (opt_test (fun id => quote_InstrumentID q <>id id) (lqf_InstrumentID f))
     && negb (opt_test (fun id => prov_ID p <>id id) (lqf_ProviderID f)) then Some (q, i, m, p) else None.

Definition scanLatestQuoteRecord (row : Quote * Instrument * ProviderInstrument * Provider) : result LatestQuoteRecord :=
  let '(q, i, m, p) := row in
  instrumentCode <- ParseCode (inst_Code i) ;;
  providerCode <- ParseCode (prov_Code p) ;;
  mappingCode <- ParseCode (pi_Code m) ;;
  quote <- scanLatestQuote q ;;
  Ok (mkLatestQuoteRecord instrumentCode (inst_QuoteCurrency i) (prov_ID p) providerCode mappingCode (pi_ExternalSymbol m) quote).

Definition quote_row_less (a b : Quote * Instrument * ProviderInstrument * Provider) : bool :=
  let '(_, i, m, p) := a in
  let '(_, j, n, q) := b in
  if inst_Code i <>s inst_Code j then String.ltb (inst_Code i) (inst_Code j)
  else if prov_Code p <>s prov_Code q then String.ltb (prov_Code p) (prov_Code q)
  else String.ltb (pi_Code m) (pi_Code n).
Definition repo_ListLatestQuoteRecords (f : LatestQuoteFilter) : M PG (list LatestQuoteRecord) :=
  _ <-- mlift (wrap "list latest quote records" (validateLatestQuoteFilter f)) ;;
  found <-- mwrap_db "list latest quote records" (query (fun d => Ok (sort_stable quote_row_less (omap (quote_join f d) (rows (db_quotes d)))))) ;;
  mwrap "scan latest quote record" (mlift (scan_all scanLatestQuoteRecord found)).

(** ** provider_status.go *)
Definition opt_latest (times : list (option Time)) : option Time := fold_right (opt_best Z.max) None times.

(** [active_sources]: the observation of a subscription that is collected. *)
Definition active_source (at_ : Time) (d : DB) (s : CollectionSubscription) : option (ID * ProviderSubscriptionObservation) :=
  '(m, p, i, a) ← joined d s;
  if sub_Enabled s && pi_Enabled m && effective (pi_ValidFrom m) (pi_ValidTo m) at_ && cap_Historical (pi_Capabilities m)
     && contains_string (cap_Intervals (pi_Capabilities m)) (sub_Interval s) && (inst_Status i =s "active")
     && effective (inst_ValidFrom i) (inst_ValidTo i) at_ && (asset_Status a =s "active")
  then
    let tasks := List.filter (fun t => task_SubscriptionID t =id sub_ID s) (rows (db_tasks d)) in
    let checkpoint := db_checkpoints d !! sub_ID s in
    Some (pi_ProviderID m, mkProviderSubscriptionObservation (sub_ID s) (pi_ProviderMarket m) (asset_AssetType a) (sub_Interval s) (sub_CloseDelaySeconds s)
      (c ← checkpoint; ckpt_LastClosedOpenTime c)
      (opt_best Z.max (c ← checkpoint; ckpt_LastSuccessAt c)
         (opt_latest (map task_FinishedAt (List.filter (fun t => task_Status t =s "success") tasks))))
      (opt_latest (map (fun t => Some (task_UpdatedAt t))
         (List.filter (fun t => contains_string ["failed"; "retry_wait"]%string (task_Status t) && not_nil (task_ErrorCode t)) tasks)))
      (default 0 (ckpt_ConsecutiveFailures <$> checkpoint)))
  else None.

(** [ORDER BY provider_market, interval, subscription_id] within a provider. *)
Definition observation_less (a b : ProviderSubscriptionObservation) : bool :=
  if ob_ProviderMarket a <>s ob_ProviderMarket b then String.ltb (ob_ProviderMarket a) (ob_ProviderMarket b)
  else if ob_Interval a <>s ob_Interval b then String.ltb (ob_Interval a) (ob_Interval b)
  else N.ltb (ob_SubscriptionID a) (ob_SubscriptionID b).

(** [scanProviderStatusSourceRow] over the rows of one provider. *)
Definition scanObservation (o : ProviderSubscriptionObservation) : result ProviderSubscriptionObservation :=
  ParseAssetType (ob_AssetType o) ;;;
  ParseBarInterval (ob_Interval o) ;;;
  Ok o.
Definition scanProviderStatusSource (row : Provider * list ProviderSubscriptionObservation) : result ProviderStatusSource :=
  let '(p, observations) := row in
  code <- ParseCode (prov_Code p) ;;
  type <- ParseProviderType (prov_ProviderType p) ;;
  status <- ParseProviderStatus (prov_Status p) ;;
  observations <- scan_all scanObservation observations ;;
  Ok (mkProviderStatusSource (prov_ID p) code (prov_Name p) type status observations).

Definition repo_ListProviderStatusSources (effectiveAt : Time) : M PG (list ProviderStatusSource) :=
  mfailif IsZero effectiveAt, Wrap "list provider status sources" (Sentinel ErrInvalidData) ;;
  found <-- mwrap_db "list provider status sources" (query (fun d =>
    let sources := omap (active_source (pg_time (TimeToDatabase effectiveAt)) d) (rows (db_subscriptions d)) in
    Ok (map (fun p => (p, sort_stable observation_less (map snd (List.filter (fun o => fst o =id prov_ID p) sources))))
          (sort_stable (fun p q => String.ltb (prov_Code p) (prov_Code q)) (rows (db_providers d)))))) ;;
  mwrap_db "scan provider status source" (mlift (scan_all scanProviderStatusSource found)).

(** ** The repositories as the ports of the services *)
#[export] Instance repo_QueryCatalog : QueryCatalog PG := {|
  FindAssetByCode := repo_FindAssetByCode; FindAssetByID := repo_FindAssetByID; FindInstrumentByCode := repo_FindInstrumentByCode;
  FindProviderByCode := repo_FindProviderByCode; FindInstrumentsByIDs := repo_FindInstrumentsByIDs |}.
#[export] Instance repo_BarReader : BarReader PG := {| ResolveBarSource := repo_ResolveBarSource; ListBars := repo_ListBars |}.
#[export] Instance repo_LatestQuoteReader : LatestQuoteReader PG := {| ListLatestQuoteRecords := repo_ListLatestQuoteRecords |}.
End CatalogStore.
