(* ===== verification/SubscriptionFacts.v ===== *)
(** * Facts about the collection subscriptions

    The subscription service over the repository: what a creation stores and
    what reading it back returns, what an update may change, and the pages of
    the listing. *)
From stdpp Require Import sorting.
From Stdlib Require Import Sorted.
From S2P Require Import Prelude Errors GoStrings GoTime GoJson External Domain MarketData CatchUp Incremental Ports Ingestion Service Fixtures Database Statements Repository RepositoryFacts Lifecycle RepositoryFixtures Application Listing Subscriptions SubscriptionStore.
Open Scope go_scope.

Section SubscriptionFacts.
Context `{D : DecimalLib} `{T : TzLib} `{U : UUIDLib} `{P : !PgLib} `{PL : !PgLaws P}.

(** ** What a row keeps of a subscription *)
Definition stored (s : CollectionSubscription) (metadata : string) : CollectionSubscription := {|
  sub_ID := sub_ID s; sub_ProviderInstrumentID := sub_ProviderInstrumentID s; sub_Interval := sub_Interval s; sub_Enabled := sub_Enabled s;
  sub_Priority := sub_Priority s; sub_CloseDelaySeconds := sub_CloseDelaySeconds s; sub_RevisionDelaySeconds := sub_RevisionDelaySeconds s;
  sub_Metadata := metadata; sub_CreatedAt := pg_time (sub_CreatedAt s); sub_UpdatedAt := pg_time (sub_UpdatedAt s) |}.

Lemma pg_int4_ok z r : pg_int4 z = Ok r -> r = z.
Proof. unfold pg_int4. intros H. by inv_ok. Qed.
Lemma pg_int4_opt_ok o r : opt_map_result pg_int4 o = Ok r -> r = o.
Proof. destruct o as [z|]; simpl; intros H; inv_ok; [| reflexivity]. by apply pg_int4_ok in R as ->. Qed.

Lemma interval_text s : is_err (ParseBarInterval s) = false -> RuneCountInString s <= 8.
Proof.
  unfold ParseBarInterval. destruct (s =s BarInterval1Hour) eqn:E1; [apply String.eqb_eq in E1 as -> |].
  - intros _. vm_compute. discriminate.
  - destruct (s =s BarInterval1Day) eqn:E2; [apply String.eqb_eq in E2 as -> |]; [| discriminate]. intros _. vm_compute. discriminate.
Qed.

Lemma subscription_row_ok s row : is_err (ParseBarInterval (sub_Interval s)) = false -> subscription_row s = Ok row ->
  exists metadata, pg_jsonb (jsonValue (sub_Metadata s)) = Ok metadata /\ row = stored s metadata.
Proof.
  intros Hi%interval_text. unfold subscription_row. intros H. inv_ok. apply pg_int4_ok in R0 as ->. apply pg_int4_opt_ok in R1 as ->.
  apply pg_varchar_exact in R as ->; [| exact Hi]. exists r2. split; [exact R2 |]. unfold stored. by rewrite !TimeToDatabase_id.
Qed.

Lemma insert_subscription_ok s d u d' : is_err (ParseBarInterval (sub_Interval s)) = false -> insert_subscription s d = Ok (u, d') ->
  exists metadata, pg_jsonb (jsonValue (sub_Metadata s)) = Ok metadata /\ d' = set_subscriptions <[sub_ID s := stored s metadata]> d /\
    db_subscriptions d !! sub_ID s = None /\ (forall id t, db_subscriptions d !! id = Some t -> same_source s t = false).
Proof.
  intros Hi H. unfold insert_subscription in H. inv_ok. destruct (subscription_row_ok s r Hi R) as (metadata & Em & ->).
  exists metadata. split; [exact Em |]. split; [match goal with E : _ = d' |- _ => exact (eq_sym E) end |]. split; [by apply not_nil_false in G |].
  intros id t Ht. exact (existsb_rows_false _ _ _ _ G0 Ht).
Qed.

Lemma create_subscription_ok s w u w' : repo_CreateSubscription s w = (Ok u, w') -> insert_subscription s (pg_db w) = Ok (u, pg_db w').
Proof. unfold repo_CreateSubscription. intros H. minv. by apply mwrap_db_ok, exec_auto_ok in H. Qed.

(** ** Creation *)
(** Every mapping is stored under its identifier. *)
Definition mappings_keyed (d : DB) : Prop := forall id m, db_mappings d !! id = Some m -> pi_ID m = id.
Lemma mappings_keyed_singleton d m : db_mappings d = {[pi_ID m := m]} -> mappings_keyed d.
Proof. intros E id m'. rewrite E. by intros [<- <-]%lookup_singleton_Some. Qed.

(** A source that the repository finds is joined again from its mapping. *)
Lemma source_found providerCode instrumentCode at_ w sources w' : mappings_keyed (pg_db w) ->
  repo_FindSubscriptionSources providerCode instrumentCode at_ w = (Ok sources, w') ->
  pg_db w' = pg_db w /\ Forall (fun s => exists m p i, db_mappings (pg_db w) !! ss_ProviderInstrumentID s = Some m /\
    db_providers (pg_db w) !! pi_ProviderID m = Some p /\ db_instruments (pg_db w) !! pi_InstrumentID m = Some i /\
    scanSubscriptionSource (m, p, i) = Ok s) sources.
Proof.
  intros Hk H. unfold repo_FindSubscriptionSources in H. minv. apply mwrap_db_ok in M, H. apply query_ok in M as [Ea Ew]. apply mlift_ok in H as [H ->].
  split; [exact Ew |]. injection Ea as <-.
  set (joined_rows := omap _ _) in H.
  assert (forall row, In row (firstn 2 (order_preferred (fun '(m, _, _) => (pi_ID m, m)) joined_rows)) -> In row joined_rows) as Hin.
  { intros row Hr%In_firstn. by apply sort_stable_In in Hr. }
  revert H Hin. generalize (firstn 2 (order_preferred (fun '(m, _, _) => (pi_ID m, m)) joined_rows)). intros l.
  revert sources. induction l as [|row l IH]; intros sources H Hin; cbn [scan_all] in H.
  { injection H as <-. constructor. }
  apply rbind_ok in H as (r & R & H). apply rbind_ok in H as (rs & R0 & H). injection H as <-.
  constructor; [| apply IH; [exact R0 | intros; apply Hin; by right]].
  specialize (Hin row (or_introl eq_refl)). unfold joined_rows in Hin. apply list_elem_of_In, list_elem_of_omap in Hin as (m & Hm & Hj).
  apply list_elem_of_In, rows_In in Hm as [k Hm]. unfold source_join in Hj.
  destruct (db_providers (pg_db w) !! pi_ProviderID m) as [p|] eqn:Ep; [| discriminate]. simpl in Hj.
  destruct (db_instruments (pg_db w) !! pi_InstrumentID m) as [i|] eqn:Ei; [| discriminate]. simpl in Hj.
  destruct (_ && _) in Hj; [| discriminate]. injection Hj as <-. exists m, p, i.
  assert (ss_ProviderInstrumentID r = pi_ID m) as ->. { unfold scanSubscriptionSource in R. inv_ok. reflexivity. }
  rewrite (Hk _ _ Hm). split_and!; assumption.
Qed.

Lemma codes_parsed m p i s : scanSubscriptionSource (m, p, i) = Ok s ->
  ParseCode (prov_Code p) = Ok (ss_ProviderCode s) /\ ParseCode (inst_Code i) = Ok (ss_InstrumentCode s) /\
  ParseCode (pi_Code m) = Ok (ss_ProviderInstrumentCode s) /\ pi_ExternalSymbol m = ss_ProviderSymbol s.
Proof. unfold scanSubscriptionSource. intros H. inv_ok. auto. Qed.

Lemma settings_valid priority closeDelay revisionDelay : validateSubscriptionSettings priority closeDelay revisionDelay = [] ->
  0 <= priority <= maximumInt16 /\ 0 <= closeDelay <= int32_max /\ (forall d, revisionDelay = Some d -> 0 <= d <= int32_max).
Proof.
  intros H. unfold validateSubscriptionSettings in H. apply app_nil in H as [V1%violation_nil H]. apply app_nil in H as [V2%violation_nil V3%violation_nil].
  bsimp. split_and!; try lia. intros d ->. apply opt_test_false with (a := d) in V3; [| reflexivity]. bsimp. lia.
Qed.
Lemma wrap16_valid z : 0 <= z <= maximumInt16 -> wrap16 z = z.
Proof. intros H. apply wrap16_id. unfold maximumInt16 in H. lia. Qed.

(** What a successful creation asked of its input, its source and the store. *)
Lemma subscription_create_run ctx input now id w record w' : mappings_keyed (pg_db w) ->
  SubscriptionService_Create (mret now) (mret id) ctx input w = (Ok record, w') ->
  exists source m p i log, db_mappings (pg_db w) !! ss_ProviderInstrumentID source = Some m /\
    db_providers (pg_db w) !! pi_ProviderID m = Some p /\ db_instruments (pg_db w) !! pi_InstrumentID m = Some i /\
    scanSubscriptionSource (m, p, i) = Ok source /\ ss_ProviderCode source = cs_ProviderCode input /\
    ss_InstrumentCode source = cs_InstrumentCode input /\ is_err (ParseBarInterval (cs_Interval input)) = false /\ id <> 0%N /\
    record = recordFromSubscription {|
        sub_ID := id; sub_ProviderInstrumentID := ss_ProviderInstrumentID source; sub_Interval := cs_Interval input; sub_Enabled := cs_Enabled input;
        sub_Priority := cs_Priority input; sub_CloseDelaySeconds := cs_CloseDelaySeconds input;
        sub_RevisionDelaySeconds := cs_RevisionDelaySeconds input; sub_Metadata := ("{" ++ json_field "audit_log" log ++ "}")%string;
        sub_CreatedAt := now; sub_UpdatedAt := now |} source /\
    insert_subscription (sr_Subscription record) (pg_db w) = Ok (tt, pg_db w').
Proof.
  intros Hk H. unfold SubscriptionService_Create in H. minv_classified. destruct a as [[[providerCode instrumentCode] interval] settings].
  minv_classified. subst. destruct a1 as [|source [|]]; [discriminate H | | discriminate H]. minv_classified.
  no_violations M. injection M as -> -> -> ->. destruct (source_found _ _ _ _ _ _ Hk M2) as [Ew Hf].
  destruct (settings_valid _ _ _ V) as [Hp _]. apply List.Forall_inv in Hf as (m & p & i & Hm & Hpr & Hi & Hs). exists source, m, p, i, a2.
  apply create_subscription_ok in M5. rewrite Ew in M5. cbn [set_Enabled set_Priority set_CloseDelaySeconds set_RevisionDelaySeconds] in M5 |- *.
  rewrite (wrap16_valid _ Hp) in M5 |- *. unfold validateSubscriptionSource in M0.
  destruct (_ || _) eqn:G1 in M0; [discriminate |]. split_guard G1. split_and!; try assumption; try reflexivity.
  - by apply negb_false_iff, String.eqb_eq in N6.
  - by apply negb_false_iff, String.eqb_eq in N5.
  - by apply N.eqb_neq in G0.
  - destruct a3. exact M5.
Qed.

(** C34. A created subscription round trips: a successful creation stores one
    new row with the settings of the input, unchanged by any conversion to the
    widths of its columns, for the single available source of its codes, under
    an identifier and a (mapping, interval) pair no stored subscription has,
    and changes nothing else; reading the subscription then returns the record
    the creation returned, its times and audit log as the server stores them. *)
Theorem subscription_created ctx input now id w record w' : mappings_keyed (pg_db w) ->
  SubscriptionService_Create (mret now) (mret id) ctx input w = (Ok record, w') ->
  let s := sr_Subscription record in
  (sub_ID s = id /\ sub_Interval s = cs_Interval input /\ sub_Enabled s = cs_Enabled input /\ sub_Priority s = cs_Priority input /\
   sub_CloseDelaySeconds s = cs_CloseDelaySeconds input /\ sub_RevisionDelaySeconds s = cs_RevisionDelaySeconds input /\
   sub_CreatedAt s = now /\ sub_UpdatedAt s = now) /\
  (sr_ProviderCode record = cs_ProviderCode input /\ sr_InstrumentCode record = cs_InstrumentCode input) /\
  db_subscriptions (pg_db w) !! id = None /\
  (forall other t, db_subscriptions (pg_db w) !! other = Some t -> same_source s t = false) /\
  exists metadata, pg_jsonb (sub_Metadata s) = Ok metadata /\
    pg_db w' = set_subscriptions <[id := stored s metadata]> (pg_db w) /\
    repo_GetSubscriptionRecord id (calm w') =
      (Ok (mkSubscriptionRecord (stored s (copyJSON metadata)) (sr_ProviderCode record) (sr_InstrumentCode record)
             (sr_ProviderInstrumentCode record) (sr_ProviderSymbol record)), calm w').
Proof.
  intros Hk H. destruct (subscription_create_run _ _ _ _ _ _ _ Hk H) as (source & m & p & i & log & Hm & Hp & Hi & Hs & Ep & Ei & Hv & Hid & -> & Hins).
  simpl in Hins |- *. split; [by split_and! |]. split; [by split |].
  apply insert_subscription_ok in Hins as (metadata & Em & Ed & Hnone & Hother); [| exact Hv]. simpl in Em, Ed, Hnone, Hother.
  split; [exact Hnone |]. split; [exact Hother |]. exists metadata. split; [exact Em |]. split; [exact Ed |].
  unfold repo_GetSubscriptionRecord. rewrite (proj2 (N.eqb_neq id 0) Hid : id_IsZero id = false).
  unfold mwrap_db, query, exec_tx, next_fault, run_sql, calm. simpl. rewrite Ed.
  set (s := {| sub_ID := id |}). assert (subscription_join (set_subscriptions <[id:=stored s metadata]> (pg_db w)) id =
    Some (stored s metadata, m, p, i)) as ->.
  { unfold subscription_join. simpl. rewrite lookup_insert_eq. simpl. rewrite Hm. simpl. rewrite Hp. simpl. rewrite Hi. reflexivity. }
  destruct (codes_parsed _ _ _ _ Hs) as (Cp & Ci & Cm & Es). unfold scanSubscriptionRecord. rewrite Cp, Ci, Cm, Es. simpl.
  rewrite !TimeToDatabase_id. reflexivity.
Qed.
(** ** Updates *)
(** The settings of a patched subscription, in the terms of the patch. *)
Definition patched_settings (s : CollectionSubscription) (input : UpdateSubscriptionInput) : SubscriptionSettings := {|
  set_Enabled := default (sub_Enabled s) (us_Enabled input);
  set_Priority := default (sub_Priority s) (us_Priority input);
  set_CloseDelaySeconds := default (sub_CloseDelaySeconds s) (us_CloseDelaySeconds input);
  set_RevisionDelaySeconds := if us_RevisionDelaySecondsSet input then us_RevisionDelaySeconds input else sub_RevisionDelaySeconds s |}.

Lemma kept_violation {A} f (a : A) l : In a l -> f a = true -> List.filter f l = [] -> False.
Proof. intros Hin Hf E. assert (In a (List.filter f l)) as H by (by apply filter_In). by rewrite E in H. Qed.

(** A priority the update accepts is one of the column's width. *)
Lemma update_priority input p : validateUpdateSubscriptionInput input = Ok tt -> us_Priority input = Some p -> 0 <= p <= maximumInt16.
Proof.
  intros H Ep. unfold validateUpdateSubscriptionInput in H. no_violations H. clear V V0 E.
  destruct ((p <? 0) || (maximumInt16 <? p)) eqn:Hp; [exfalso | bsimp; lia].
  refine (kept_violation _ (mkFieldViolation "priority" "must be between 0 and 32767") _ _ _ V1).
  - unfold validateSubscriptionSettings. rewrite Ep. simpl. rewrite Hp. by left.
  - unfold skipped. rewrite Ep. reflexivity.
Qed.
Lemma patched_valid s input : validateUpdateSubscriptionInput input = Ok tt -> patched s input = patched_settings s input.
Proof.
  intros H. unfold patched, patched_settings. f_equal. destruct (us_Priority input) as [p|] eqn:Ep; [| reflexivity].
  simpl. by apply wrap16_valid, (update_priority input).
Qed.

Lemma update_subscription_ok id settings audit at_ d n d' : update_subscription id settings audit at_ d = Ok (n, d') -> n <> 0 ->
  exists s metadata, db_subscriptions d !! id = Some s /\ pg_append_audit_log (sub_Metadata s) audit = Ok metadata /\
    d' = set_subscriptions <[id := with_settings s settings metadata (pg_time at_)]> d /\
    subscription_checks (with_settings s settings metadata (pg_time at_)) = Ok tt.
Proof.
  intros H Hn. unfold update_subscription in H. apply rbind_ok in H as (c & ->%pg_int4_ok & H).
  apply rbind_ok in H as (r & ->%pg_int4_opt_ok & H). destruct (db_subscriptions d !! id) as [s|] eqn:Es; [| injection H as <- _; congruence].
  apply rbind_ok in H as (metadata & Em & H). apply rbind_ok in H as ([] & Hc & H). rewrite TimeToDatabase_id in Hc, H. destruct settings.
  injection H as _ <-. exists s, metadata. by split_and!.
Qed.

Lemma GetSubscriptionRecord_ok id w r w' : repo_GetSubscriptionRecord id w = (Ok r, w') ->
  pg_db w' = pg_db w /\ exists s, db_subscriptions (pg_db w) !! id = Some s /\ scanSubscription s = Ok (sr_Subscription r).
Proof.
  intros H. unfold repo_GetSubscriptionRecord in H. minv. apply mwrap_db_ok, query_ok in H as [H Ew]. split; [exact Ew |].
  unfold subscription_join in H. destruct (db_subscriptions (pg_db w) !! id) as [s|]; [| discriminate]. simpl in H. exists s. split; [reflexivity |].
  destruct (db_mappings (pg_db w) !! _) as [m|]; [| discriminate]. simpl in H. destruct (db_providers (pg_db w) !! _) as [p|]; [| discriminate].
  simpl in H. destruct (db_instruments (pg_db w) !! _) as [i|]; [| discriminate]. unfold scanSubscriptionRecord in H.
  apply rbind_ok in H as (? & _ & H). apply rbind_ok in H as (? & _ & H). apply rbind_ok in H as (? & _ & H).
  apply rbind_ok in H as (t & E & H). rewrite E. by injection H as <-.
Qed.

(** An update is the patch of the mutable settings: when it succeeds, the
    subscription was stored, and its row now has the patched settings (a value
    of the patch where it has one, unconverted, and the stored value elsewhere),
    the audit entry of the change appended to its metadata and the time of the
    change; its identity, mapping, interval and creation time, every other
    subscription and every other table are as before, and the record returned
    has the settings and the times of the new row. *)
Theorem subscription_updated ctx input now w record w' :
  SubscriptionService_Update (mret now) ctx input w = (Ok record, w') ->
  exists s metadata log audit, db_subscriptions (pg_db w) !! us_ID input = Some s /\
    subscriptionAuditFromContext ctx "update" (us_Reason input) now = Ok audit /\ json_audit audit = Ok log /\
    pg_append_audit_log (sub_Metadata s) log = Ok metadata /\
    pg_db w' = set_subscriptions <[us_ID input := with_settings s (patched_settings s input) metadata (pg_time now)]> (pg_db w) /\
    sr_Subscription record = with_settings s (patched_settings s input) (copyJSON (sub_Metadata s)) now /\
    (forall p, us_Priority input = Some p -> 0 <= p <= maximumInt16).
Proof.
  intros H. unfold SubscriptionService_Update in H. minv_classified. destruct a.
  apply GetSubscriptionRecord_ok in M2 as (Ew & s & Hs & Hr). injection Hr as Hr. rewrite !TimeToDatabase_id in Hr.
  cbn [UpdateSubscriptionSettings repo_SubscriptionStore] in M4. unfold repo_UpdateSubscriptionSettings in M4. minv. rename a0 into log, a5 into n.
  apply mwrap_db_ok, exec_auto_ok in M5. apply Z.eqb_neq in G0. rewrite Ew in M5.
  destruct (update_subscription_ok _ _ _ _ _ _ _ M5 G0) as (s' & metadata & Hs' & Em & Ed & _). rewrite Hs in Hs'. injection Hs' as <-.
  rewrite <- Hr, patched_valid in Ed |- * by exact M. exists s, metadata, log, a1. rewrite TimeToDatabase_id in Ed.
  assert (audit_OccurredAt a1 = now) as Ea.
  { unfold subscriptionAuditFromContext in M1. destruct (AuditContextFromContext ctx); [| discriminate]. destruct (audit_Validate _) in M1; first [discriminate M1 | by injection M1 as <-]. }
  rewrite Ea in Ed. split_and!; try assumption; [reflexivity |]. intros p. by apply update_priority.
Qed.
End SubscriptionFacts.

(** ** Concrete runs *)
Definition no_subscriptions : PG := mkPG (set_subscriptions (fun _ => ∅) tables) [].
Definition admin_context : Context := mkContext None (Some (mkAuditContext "operator-1" ActorTypeUser "req-1")).
Definition hourly_input : CreateSubscriptionInput :=
  mkCreateSubscriptionInput "bybit" "instrument.crypto.btc-usdt" BarInterval1Hour true 3 45 None "start collecting".
Definition created_run := SubscriptionService_Create (mret noon) (mret (uuid7 6)) admin_context hourly_input no_subscriptions.
Definition created_store : PG := snd created_run.
Definition created_record : SubscriptionRecord :=
  match fst created_run with Ok r => r | _ => mkSubscriptionRecord hourly EmptyString EmptyString EmptyString EmptyString end.
Example created_ok : created_run = (Ok created_record, created_store).
Proof. vm_compute. reflexivity. Qed.

Lemma subscription_created_witness : sub_Priority (sr_Subscription created_record) = 3 /\
  exists metadata, pg_db created_store = set_subscriptions <[uuid7 6 := stored (sr_Subscription created_record) metadata]> (pg_db no_subscriptions).
Proof.
  destruct (subscription_created admin_context hourly_input noon (uuid7 6) no_subscriptions created_record created_store)
    as ((_ & _ & _ & Hp & _) & _ & _ & _ & metadata & _ & Hs & _).
  - apply (mappings_keyed_singleton _ listing). reflexivity.
  - exact created_ok.
  - split; [exact Hp | exists metadata; exact Hs].
Defined.

(** A patch that raises the priority and clears the revision delay. *)
Definition raise_priority : UpdateSubscriptionInput := mkUpdateSubscriptionInput (uuid7 5) None (Some 9) None None true "raise priority".
Definition updated_run := SubscriptionService_Update (mret noon) admin_context raise_priority fresh_store.
Definition updated_store : PG := snd updated_run.
Definition updated_record : SubscriptionRecord := match fst updated_run with Ok r => r | _ => created_record end.
Example updated_ok : updated_run = (Ok updated_record, updated_store).
Proof. vm_compute. reflexivity. Qed.

Lemma subscription_updated_witness : exists metadata,
  pg_db updated_store = set_subscriptions <[uuid7 5 := with_settings hourly (mkSubscriptionSettings true 9 30 None) metadata (pg_time noon)]> (pg_db fresh_store).
Proof.
  destruct (subscription_updated admin_context raise_priority noon fresh_store updated_record updated_store)
    as (s & metadata & _ & _ & Hs & _ & _ & _ & Hd & _); [exact updated_ok |].
  exists metadata. assert (db_subscriptions (pg_db fresh_store) !! us_ID raise_priority = Some hourly) as E by (vm_compute; reflexivity).
  pose proof (Some_inj _ _ (eq_trans (eq_sym Hs) E)) as ->. exact Hd.
Defined.

(** * The pages of the subscription listing

    Following the next-page position of [SubscriptionService.List] from the
    first page, over the repository, lists every matching subscription once. *)
Definition record_position (r : SubscriptionRecord) : ID := sub_ID (sr_Subscription r).
Definition with_position (input : SubscriptionListInput) (after : ID) : SubscriptionListInput :=
  mkSubscriptionReadFilter (sf_ProviderCode input) (sf_InstrumentCode input) (sf_Interval input) (sf_Enabled input) (Some after) (sf_Limit input).

Lemma validate_records_ok {A} (check : A -> result unit) l : validate_records check l = Ok tt <-> (forall r, In r l -> check r = Ok tt).
Proof.
  induction l as [|a l IH]; simpl; [split; [contradiction | reflexivity] |]. split.
  - intros H. apply rbind_ok in H as ([] & Ha & H). intros r [<- | Hr]; [exact Ha |]. by apply IH.
  - intros H. rewrite (H a) by (by left). simpl. apply IH. intros r Hr. apply H. by right.
Qed.

Section SubscriptionPages.
Context `{D : DecimalLib} `{T : TzLib} `{U : UUIDLib} `{P : !PgLib}.

(** Every subscription is stored under its identifier. *)
Definition subscriptions_keyed (d : DB) : Prop := forall id s, db_subscriptions d !! id = Some s -> sub_ID s = id.

(** The identifiers of the matching subscriptions, in order. *)
Definition matching (f : SubscriptionReadFilter) (d : DB) : list ID :=
  sorted_keys (fun id => opt_test (filter_matches f) (subscription_join d id)) (db_subscriptions d).

Lemma filter_ids_after f d : filter_ids f d = List.filter (after_id (sf_AfterID f)) (matching f d).
Proof. apply sorted_keys_filter. Qed.

Lemma after_id_key after id : after_id after id = after_key N.ltb after id.
Proof. destruct after as [k|]; [| reflexivity]. unfold after_id. simpl. by rewrite N.ltb_antisym. Qed.

Lemma matching_spec f d id : In id (matching f d) <-> exists row, subscription_join d id = Some row /\ filter_matches f row = true.
Proof.
  unfold matching. rewrite sorted_keys_In. split.
  - intros [_ H]. destruct (subscription_join d id) as [row|]; [| discriminate]. exists row. auto.
  - intros (row & Hj & Hf). rewrite Hj. split; [| exact Hf]. unfold subscription_join in Hj.
    by destruct (db_subscriptions d !! id) as [s|] eqn:Es.
Qed.
Lemma matching_sorted f d : StronglySorted (fun a b => N.ltb a b = true) (matching f d).
Proof. apply sorted_keys_sorted. Qed.

(** The record of a matching subscription, read from its joined row. *)
Definition reads (d : DB) (id : ID) (r : SubscriptionRecord) : Prop :=
  exists row, subscription_join d id = Some row /\ scanSubscriptionRecord row = Ok r.
Lemma reads_position d id r : subscriptions_keyed d -> reads d id r -> record_position r = id.
Proof.
  intros Hk (row & Hj & Hs). unfold subscription_join in Hj. destruct (db_subscriptions d !! id) as [s|] eqn:Es; [| discriminate]. simpl in Hj.
  destruct (db_mappings d !! _) as [m|]; [| discriminate]. simpl in Hj. destruct (db_providers d !! _) as [p|]; [| discriminate].
  simpl in Hj. destruct (db_instruments d !! _) as [i|]; [| discriminate]. injection Hj as <-. unfold scanSubscriptionRecord in Hs.
  inv_ok. exact (Hk _ _ Es).
Qed.
Lemma reads_scanned d ids rs : Forall2 (reads d) ids rs -> scan_all scanSubscriptionRecord (omap (subscription_join d) ids) = Ok rs.
Proof.
  induction 1 as [|id r ids rs (row & Hj & Hs) _ IH]; [reflexivity |]. simpl. rewrite Hj. simpl. rewrite Hs. simpl. change (list_omap _ _ _ ids) with (omap (subscription_join d) ids). by rewrite IH.
Qed.
Lemma scanned_reads d ids rs : Forall (fun id => is_Some (subscription_join d id)) ids ->
  scan_all scanSubscriptionRecord (omap (subscription_join d) ids) = Ok rs -> Forall2 (reads d) ids rs.
Proof.
  intros H. revert rs. induction H as [|id ids [row Hj] _ IH]; intros rs; simpl; [intros [= <-]; constructor |].
  rewrite Hj. simpl. intros Hs. apply rbind_ok in Hs as (r & Hr & Hs). apply rbind_ok in Hs as (rs' & Hrs & Hs). injection Hs as <-.
  change (list_omap _ _ _ ids) with (omap (subscription_join d) ids) in Hrs.
  constructor; [by exists row | by apply IH].
Qed.
Context (input : SubscriptionListInput) (f : SubscriptionReadFilter) (w : PG) (all : list SubscriptionRecord).
Context (Hk : subscriptions_keyed (pg_db w)) (Hv : validateSubscriptionListInput input = Ok f) (Hstart : sf_AfterID input = None).
Context (Hall : Forall2 (reads (pg_db w)) (matching input (pg_db w)) all) (Hvalid : validate_records validateSubscriptionRecord all = Ok tt).

Definition input_at (after : option ID) : SubscriptionListInput :=
  mkSubscriptionReadFilter (sf_ProviderCode input) (sf_InstrumentCode input) (sf_Interval input) (sf_Enabled input) after (sf_Limit input).
Definition list_page (i : SubscriptionListInput) : M PG (list SubscriptionRecord * option ID) :=
  page <-- SubscriptionService_List i ;; mret (sp_Items page, sp_NextAfterID page).

Lemma record_keyed id r : reads (pg_db w) id r -> record_position r = id.
Proof. by apply reads_position. Qed.
Lemma all_positions : map record_position all = matching input (pg_db w).
Proof. exact (reads_positions _ _ record_keyed _ _ Hall). Qed.

Lemma position_nonzero k : In k (map record_position all) -> id_IsZero k = false.
Proof.
  intros (r & <- & Hr)%in_map_iff. apply (proj1 (validate_records_ok _ _) Hvalid) in Hr. unfold validateSubscriptionRecord in Hr.
  destruct (_ || _) eqn:G in Hr; [discriminate |]. by split_guard G.
Qed.
Lemma records_listed after n rs : 0 < n <= MaximumSubscriptionsPageSize + 1 -> opt_test id_IsZero after = false ->
  Forall2 (reads (pg_db w)) (firstn (Z.to_nat n) (List.filter (after_id after) (matching input (pg_db w)))) rs ->
  repo_ListSubscriptionRecords (mkSubscriptionReadFilter (sf_ProviderCode input) (sf_InstrumentCode input) (sf_Interval input) (sf_Enabled input) after n)
    (calm w) = (Ok rs, calm w).
Proof.
  intros Hn Ha Hrs. unfold repo_ListSubscriptionRecords. simpl. rewrite Ha, (proj2 (Z.leb_gt n 0)), (proj2 (Z.ltb_ge _ n)) by lia. simpl.
  unfold mwrap_db, mmap_db, query, exec_tx, next_fault, run_sql, calm, mbind. simpl. unfold selected. rewrite filter_ids_after. simpl.
  change (matching _ (pg_db w)) with (matching input (pg_db w)). rewrite (reads_scanned _ _ _ Hrs). reflexivity.
Qed.
Lemma page_ok after : (forall k, after = Some k -> In k (map record_position all)) ->
  list_page (input_at after) (calm w) = (Ok (page_of (sf_Limit input) record_position
    (firstn (Z.to_nat (sf_Limit input + 1)) (after_position record_position N.ltb after all))), calm w).
Proof.
  intros Ha.
  assert (opt_test id_IsZero after = false) as Hafter by (destruct after as [k|]; [by apply position_nonzero, Ha | reflexivity]).
  pose proof Hv as Hin. unfold validateSubscriptionListInput in Hin. no_violations Hin.
  set (rs := firstn _ _). assert (Forall2 (reads (pg_db w)) (firstn (Z.to_nat (sf_Limit input + 1)) (List.filter (after_id after) (matching input (pg_db w)))) rs) as Hrs
    by (apply Forall2_take; rewrite (List.filter_ext _ _ (after_id_key after)); by apply (reads_after _ _ _ record_keyed)).
  assert (validate_records validateSubscriptionRecord rs = Ok tt) as Hrv.
  { apply validate_records_ok. intros r Hr. apply In_firstn in Hr. apply (proj1 (validate_records_ok _ _) Hvalid).
    by apply (after_position_In record_position N.ltb after). }
  unfold list_page, SubscriptionService_List.
  assert (validateSubscriptionListInput (input_at after) = Ok (mkSubscriptionReadFilter (sf_ProviderCode input) (sf_InstrumentCode input)
    (sf_Interval input) (sf_Enabled input) after (sf_Limit input + 1))) as ->.
  { unfold validateSubscriptionListInput, input_at. simpl. by rewrite V, V0, V1, E, Hafter. }
  bsimp. unfold mbind, classified, mcatch, mlift. cbn [ListSubscriptionRecords repo_SubscriptionStore]. cbv beta iota.
  rewrite (records_listed after (sf_Limit input + 1) rs ltac:(lia) Hafter Hrs), Hrv. simpl.
  change (fun r => sub_ID (sr_Subscription r)) with record_position. destruct (page_of _ _ rs). reflexivity.
Qed.

(** C22. Following the pages lists every match once: from the first page of an
    accepted listing, over a store whose matching subscriptions can be read, each
    page starting after the last subscription of the one before, the walk ends
    after at most one page more than there are matches; its pages hold at most
    the limit and put together are the matching subscriptions, each once, in
    the order of their identifiers. *)
Theorem subscription_pages : exists pages,
  walk list_page with_position (S (length all)) input (calm w) = (Ok pages, calm w) /\ concat pages = all /\
  Forall (fun items => llen items <= sf_Limit input) pages /\
  StronglySorted (fun a b => N.ltb a b = true) (map record_position all) /\
  (forall id, In id (map record_position all) <-> exists row, subscription_join (pg_db w) id = Some row /\ filter_matches input row = true).
Proof.
  assert (0 < sf_Limit input) as Hl.
  { pose proof Hv as H. unfold validateSubscriptionListInput in H. no_violations H. bsimp. lia. }
  destruct (walk_all list_page with_position record_position N.ltb N.ltb_irrefl
    ltac:(intros j k l; rewrite !N.ltb_lt; lia) input_at (sf_Limit input) all (calm w) Hl
    (reads_ordered _ _ _ record_keyed _ _ Hall (matching_sorted _ _)) ltac:(reflexivity) page_ok) as (pages & Hw & Hc & Hp).
  exists pages. replace input with (input_at None) at 1 by (unfold input_at; rewrite <- Hstart; by destruct input).
  rewrite all_positions. split_and!; [exact Hw | exact Hc | exact Hp | apply matching_sorted | apply matching_spec].
Qed.
End SubscriptionPages.

(** ** A concrete walk: two subscriptions, one to a page *)
Definition daily : CollectionSubscription := mkCollectionSubscription (uuid7 6) (uuid7 4) BarInterval1Day false 4 60 None "{}" created created.
Definition two_subscriptions : PG := mkPG (set_subscriptions <[uuid7 6 := daily]> tables) [].
Definition one_to_a_page : SubscriptionListInput := mkSubscriptionReadFilter "bybit" EmptyString EmptyString None None 1.
Definition listed_record (s : CollectionSubscription) : SubscriptionRecord :=
  mkSubscriptionRecord s "bybit" "instrument.crypto.btc-usdt" "provider.bybit.btc-usdt" "BTCUSDT".

Lemma two_subscriptions_keyed : subscriptions_keyed (pg_db two_subscriptions).
Proof.
  intros id s H. change (<[uuid7 6 := daily]> ({[uuid7 5 := hourly]} : gmap ID CollectionSubscription) !! id = Some s) in H.
  apply lookup_insert_Some in H as [[<- <-] | [_ [<- <-]%lookup_singleton_Some]]; reflexivity.
Qed.

Lemma subscription_pages_witness : exists pages,
  walk list_page with_position 3 one_to_a_page (calm two_subscriptions) = (Ok pages, calm two_subscriptions) /\
  concat pages = [listed_record hourly; listed_record daily] /\ Forall (fun items => llen items <= 1) pages.
Proof.
  destruct (subscription_pages one_to_a_page (mkSubscriptionReadFilter "bybit" EmptyString EmptyString None None 2) two_subscriptions
    [listed_record hourly; listed_record daily] two_subscriptions_keyed) as (pages & Hw & Hc & Hp & _).
  - vm_compute. reflexivity.
  - reflexivity.
  - assert (matching one_to_a_page (pg_db two_subscriptions) = [uuid7 5; uuid7 6]) as -> by (vm_compute; reflexivity).
    constructor; [| constructor; [| constructor]]; eexists; split; [vm_compute | | vm_compute |]; reflexivity.
  - vm_compute. reflexivity.
  - exists pages. split_and!; [exact Hw | exact Hc | exact Hp].
Defined.
