(* ===== verification/QueryFacts.v ===== *)
(** * Facts about the management reads of runs and tasks

    The pages of the run listing over the repository, the agreement of the
    status a run is selected by with the one it is shown with, and what of a
    task's failure is made public. *)
From Stdlib Require Import Sorted.
From S2P Require Import Prelude Errors GoStrings GoTime GoJson External Domain MarketData CatchUp Incremental Ports Ingestion Service Fixtures IngestionFacts Database Statements Repository RepositoryFacts Lifecycle RepositoryFixtures History HistoryFacts Application Listing Subscriptions IngestionQueries SubscriptionStore.
Open Scope go_scope.

(** ** The status of a run *)
Definition known_status (s : string) : Prop := terminal_status s = true \/ waiting_status s = true \/ s = "running"%string.

Lemma count_status_cons s t tasks : count_status s (t :: tasks) = (if task_Status t =s s then 1 else 0) + count_status s tasks.
Proof. unfold count_status, llen. simpl. destruct (task_Status t =s s); simpl length; lia. Qed.
Lemma count_status_nonneg s tasks : 0 <= count_status s tasks.
Proof. unfold count_status, llen. lia. Qed.
(** The six counts of tasks with known states are all of them. *)
Lemma counts_total tasks : (forall t, In t tasks -> known_status (task_Status t)) ->
  count_status "pending" tasks + count_status "running" tasks + count_status "retry_wait" tasks + count_status "success" tasks
  + count_status "failed" tasks + count_status "canceled" tasks = llen tasks.
Proof.
  induction tasks as [|t tasks IH]; intros H; [reflexivity |]. rewrite !count_status_cons.
  assert (llen (t :: tasks) = 1 + llen tasks) as -> by (unfold llen; simpl length; lia). rewrite <- IH by (intros; apply H; by right).
  destruct (H t (or_introl eq_refl)) as [Hs | [Hs | ->]].
  - unfold terminal_status in Hs. apply contains_string_In in Hs as [<- | [<- | [<- | []]]]; simpl; lia.
  - unfold waiting_status in Hs. apply contains_string_In in Hs as [<- | [<- | []]]; simpl; lia.
  - simpl. lia.
Qed.

(** The status the selection derives is the one of the summary. *)
Lemma enriched_status run tasks r : (forall t, In t tasks -> known_status (task_Status t)) -> llen tasks <= int64_max ->
  enrichRunRecord (scanRunManagementRecord run tasks) = Ok r ->
  sum_Status (rec_Summary r) = derived_status tasks /\ run_ID (rec_Run r) = run_ID run.
Proof.
  intros Hk Hn H. unfold enrichRunRecord in H. simpl in H. destruct (_ || _) in H; [discriminate |]. apply rbind_ok in H as (s & Hs & H).
  injection H as <-. split; [| reflexivity]. simpl. unfold SummarizeRun in Hs. apply rbind_ok in Hs as (? & _ & Hs). injection Hs as <-. simpl.
  pose proof (counts_total tasks Hk) as Hc. pose proof (fun s => count_status_nonneg s tasks) as H0.
  pose proof (H0 "pending"%string). pose proof (H0 "running"%string). pose proof (H0 "retry_wait"%string). pose proof (H0 "success"%string).
  pose proof (H0 "failed"%string). pose proof (H0 "canceled"%string).
  unfold summary_status, TaskCount, derived_status. simpl. rewrite !wrap64_id by (unfold int64_range, int64_min, int64_max in *; lia).
  by rewrite Hc.
Qed.

Section RunPages.
Context `{D : DecimalLib} `{T : TzLib} `{U : UUIDLib} `{P : !PgLib}.

Definition run_position (r : RunRecord) : ID := run_ID (rec_Run r).
Definition runs_from (input : RunListInput) (after : option ID) : RunListInput :=
  mkRunListInput (rl_RunType input) (rl_TriggerType input) (rl_Status input) (rl_RequestedBy input) (rl_CreatedFrom input)
    (rl_CreatedTo input) after (rl_Limit input).
(** The runs that match, newest first. *)
Definition matching_runs (f : RunListInput) (d : DB) : list ID :=
  rev (sorted_keys (fun id => opt_test (run_matches (runs_from f None) d) (db_runs d !! id)) (db_runs d)).
(** What a run of the tables is shown as. *)
Definition run_reads (d : DB) (id : ID) (r : RunRecord) : Prop :=
  exists run, db_runs d !! id = Some run /\ enrichRunRecord (scanRunManagementRecord run (run_tasks id d)) = Ok r.

Lemma before_id_key after id : before_id after id = after_key (fun j k => N.ltb k j) after id.
Proof. destruct after as [k|]; [| reflexivity]. unfold before_id. simpl. by rewrite N.ltb_antisym. Qed.
Lemma selected_ids f d : runs_inv d ->
  newest_ids (List.filter (fun id => opt_test (run_matches f d) (db_runs d !! id)) (map fst (map_to_list (db_runs d)))) =
  List.filter (before_id (rl_AfterID f)) (matching_runs f d).
Proof.
  intros [Hk _]. unfold newest_ids, matching_runs. rewrite List.filter_rev, <- sorted_keys_filter. f_equal. unfold sorted_keys. f_equal.
  apply List.filter_ext_in. intros id _. destruct (db_runs d !! id) as [run|] eqn:E; simpl; [| by rewrite andb_false_r].
  unfold run_matches. simpl. rewrite (Hk _ _ E), andb_true_r. apply andb_comm.
Qed.

Lemma scanned_runs d ids rs : Forall2 (run_reads d) ids rs ->
  enrich_all enrichRunRecord (omap (fun id => run ← db_runs d !! id; Some (scanRunManagementRecord run (run_tasks id d))) ids) = Ok rs.
Proof.
  induction 1 as [|id r ids rs (run & Hr & He) _ IH]; [reflexivity |]. cbn [omap list_omap]. rewrite Hr.
  change (Some run ≫= _) with (Some (scanRunManagementRecord run (run_tasks id d))). cbn [enrich_all]. rewrite He. cbn [rbind]. by rewrite IH.
Qed.

Lemma run_reads_position d id r : runs_inv d -> run_reads d id r -> run_position r = id.
Proof.
  intros [Hk _] (run & Hr & He). unfold enrichRunRecord in He. destruct (_ || _) in He; [discriminate |].
  apply rbind_ok in He as (? & _ & He). injection He as <-. exact (Hk _ _ Hr).
Qed.

Context (input f : RunListInput) (w : PG) (all : list RunRecord).
Context (Hinv : inv (pg_db w)) (Hv : validateRunListInput input = Ok f) (Hstart : rl_AfterID input = None).
Context (Hsize : forall id, llen (run_tasks id (pg_db w)) <= int64_max).
Context (Hall : Forall2 (run_reads (pg_db w)) (matching_runs input (pg_db w)) all).

Definition run_page (i : RunListInput) : M PG (list RunRecord * option ID) :=
  page <-- ListRuns i ;; mret (rp_Items page, rp_NextAfterID page).

Lemma all_runs_keyed id r : run_reads (pg_db w) id r -> run_position r = id.
Proof. apply run_reads_position, Hinv. Qed.

Lemma run_nonzero k : In k (map run_position all) -> id_IsZero k = false.
Proof.
  intros (r & <- & Hr)%in_map_iff. destruct (Forall2_In_r _ _ _ _ Hall Hr) as (id & _ & run & _ & He).
  unfold enrichRunRecord in He. destruct (_ || _) eqn:G in He; [discriminate |]. apply rbind_ok in He as (? & _ & He). injection He as <-.
  by split_guard G.
Qed.

Lemma runs_listed after n rs : 0 < n <= MaximumIngestionManagementPageSize + 1 -> opt_test id_IsZero after = false ->
  Forall2 (run_reads (pg_db w)) (firstn (Z.to_nat n) (List.filter (before_id after) (matching_runs input (pg_db w)))) rs ->
  exists scanned, repo_ListRunRecords (mkRunListInput (rl_RunType input) (rl_TriggerType input) (rl_Status input) (rl_RequestedBy input)
      (rl_CreatedFrom input) (rl_CreatedTo input) after n) (calm w) = (Ok scanned, calm w) /\ enrich_all enrichRunRecord scanned = Ok rs.
Proof.
  intros Hn Ha Hrs. unfold repo_ListRunRecords, invalid_page. simpl. rewrite Ha, (proj2 (Z.ltb_ge n 1)), (proj2 (Z.ltb_ge _ n)) by lia. simpl.
  unfold mwrap_db, mmap_db, query, exec_tx, next_fault, run_sql, calm. simpl. eexists. split; [reflexivity |]. unfold select_runs. simpl.
  rewrite selected_ids by apply Hinv. simpl. change (matching_runs _ (pg_db w)) with (matching_runs input (pg_db w)). by apply scanned_runs.
Qed.

Lemma run_page_ok after : (forall k, after = Some k -> In k (map run_position all)) ->
  run_page (runs_from input after) (calm w) = (Ok (page_of (rl_Limit input) run_position
    (firstn (Z.to_nat (rl_Limit input + 1)) (after_position run_position (fun j k => N.ltb k j) after all))), calm w).
Proof.
  intros Ha.
  assert (opt_test id_IsZero after = false) as Hafter by (destruct after as [k|]; [by apply run_nonzero, Ha | reflexivity]).
  pose proof Hv as Hin. unfold validateRunListInput, validateManagementPage in Hin. no_violations Hin.
  set (rs := firstn _ _).
  destruct (runs_listed after (rl_Limit input + 1) rs) as (scanned & Hl & He); [bsimp; lia | exact Hafter | |].
  { apply Forall2_take. rewrite (List.filter_ext _ _ (before_id_key after)). by apply (reads_after _ _ _ all_runs_keyed). }
  unfold run_page, ListRuns.
  assert (validateRunListInput (runs_from input after) = Ok (mkRunListInput (rl_RunType input) (rl_TriggerType input) (rl_Status input)
    (rl_RequestedBy input) (rl_CreatedFrom input) (rl_CreatedTo input) after (rl_Limit input + 1))) as ->.
  { unfold validateRunListInput, validateManagementPage, runs_from. simpl. by rewrite V, V0, V1, V2, V3, V4, V5, E, Hafter. }
  unfold mbind, classified, mcatch, mlift. cbn [ListRunRecords repo_IngestionQueryReader]. cbv beta iota.
  rewrite Hl, He. change (fun r => run_ID (rec_Run r)) with run_position. simpl. destruct (page_of _ _ rs). reflexivity.
Qed.

Lemma tasks_known d id : tasks_inv d -> forall t, In t (run_tasks id d) -> known_status (task_Status t).
Proof.
  intros Ht t Hin. unfold run_tasks in Hin. apply filter_In in Hin as [[i Hi]%rows_In _]. destruct (Ht _ _ Hi) as (_ & Hok & _).
  apply (ok_status _ Hok).
Qed.

(** The run listing shows what it selects: over a store with well-formed
    tables whose matching runs can be shown, following the pages from the first
    one ends after at most one page more than there are runs; its pages hold at
    most the limit and put together are the stored runs that match the filter,
    each once, newest first; and the status each is shown with, computed from
    its task counts by [SummarizeRun], is the one the query derived when it
    selected the run, so a listing filtered by a status shows only that status. *)
Theorem run_pages : exists pages,
  walk run_page (fun i k => runs_from i (Some k)) (S (length all)) input (calm w) = (Ok pages, calm w) /\ concat pages = all /\
  Forall (fun items => llen items <= rl_Limit input) pages /\
  StronglySorted (fun a b => N.ltb b a = true) (map run_position all) /\
  (forall id, In id (map run_position all) <-> exists run, db_runs (pg_db w) !! id = Some run /\ run_matches input (pg_db w) run = true) /\
  (forall r, In r all -> sum_Status (rec_Summary r) = derived_status (run_tasks (run_position r) (pg_db w)) /\
     (rl_Status input = EmptyString \/ sum_Status (rec_Summary r) = rl_Status input)).
Proof.
  assert (0 < rl_Limit input) as Hl.
  { pose proof Hv as H. unfold validateRunListInput, validateManagementPage in H. no_violations H. bsimp. lia. }
  assert (input = runs_from input None) as Ei by (unfold runs_from; rewrite <- Hstart; by destruct input).
  assert (StronglySorted (fun a b => N.ltb b a = true) (matching_runs input (pg_db w))) as Hs by apply StronglySorted_rev, sorted_keys_sorted.
  assert (forall id, In id (matching_runs input (pg_db w)) <-> exists run, db_runs (pg_db w) !! id = Some run /\ run_matches input (pg_db w) run = true) as Hm.
  { intros id. unfold matching_runs. rewrite <- in_rev, sorted_keys_In, <- Ei. split.
    - intros [[run Hr] Ho]. rewrite Hr in Ho. by exists run.
    - intros (run & Hr & Ho). rewrite Hr. split; [by exists run | exact Ho]. }
  destruct (walk_all run_page (fun i k => runs_from i (Some k)) run_position (fun j k => N.ltb k j) N.ltb_irrefl
    ltac:(intros j k l; rewrite !N.ltb_lt; lia) (runs_from input) (rl_Limit input) all (calm w) Hl
    (reads_ordered _ _ _ all_runs_keyed _ _ Hall Hs) ltac:(reflexivity) run_page_ok) as (pages & Hw & Hc & Hp).
  rewrite <- Ei in Hw. exists pages. rewrite (reads_positions _ _ all_runs_keyed _ _ Hall). split_and!; try assumption.
  intros r Hr. destruct (Forall2_In_r _ _ _ _ Hall Hr) as (id & Hid & run & Hrun & He).
  destruct (enriched_status _ _ _ (tasks_known _ id (proj1 Hinv)) (Hsize id) He) as [Est _].
  assert (run_position r = id) as -> by (apply all_runs_keyed; by exists run). split; [exact Est |].
  apply Hm in Hid as (run' & Hrun' & Hmatch). rewrite Hrun in Hrun'. injection Hrun' as <-. unfold run_matches in Hmatch.
  rewrite !andb_true_iff in Hmatch. destruct Hmatch as (((((_ & _) & Hst) & _) & _) & _). unfold text_filter in Hst.
  apply orb_true_iff in Hst as [Hst | Hst]; apply String.eqb_eq in Hst; [by left | right]. rewrite Est.
  destruct (proj1 (proj2 Hinv)) as [Hk _]. by rewrite (Hk _ _ Hrun) in Hst.
Qed.
End RunPages.

(** ** The failures of tasks *)
Definition listed_code (code : string) : Prop := exists message, In (code, message) error_messages.

Lemma normalize_cases stored : exists code message, normalizeTaskError (Some stored) = (Some code, Some message) /\
  In (code, message) error_messages /\ (code = stored \/ code = "internal_error"%string /\ ~ listed_code stored).
Proof.
  unfold normalizeTaskError. destruct (List.find _ error_messages) as [[k m]|] eqn:E.
  - exists stored, m. apply List.find_some in E as [Hin Hk]. apply String.eqb_eq in Hk. simpl in Hk. subst k. auto.
  - exists "internal_error"%string, "ingestion task failed"%string. split; [reflexivity |]. split; [repeat (by left) || right |].
    right. split; [reflexivity |]. intros [m Hm]. apply (List.find_none _ _ E) in Hm. simpl in Hm. by rewrite String.eqb_refl in Hm.
Qed.

(** A code of a list is listed. *)
Lemma listed_all codes : forallb (fun c => existsb (fun m => fst m =s c) error_messages) codes = true -> forall c, In c codes -> listed_code c.
Proof.
  intros H c Hc. apply (proj1 (forallb_forall _ _) H) in Hc. apply existsb_exists in Hc as ([k m] & Hm & E).
  apply String.eqb_eq in E. simpl in E. subst k. by exists m.
Qed.
Lemma classified_listed e : listed_code (fc_code (classifyFailure e)).
Proof.
  unfold classifyFailure. destruct (AsProviderError e) as [p|] eqn:E.
  - unfold AsProviderError in E. destruct (errors_AsProvider e) as [[]|]; try discriminate E. destruct (providerError_Validate _ _ _ _) as [[]| |] eqn:V; try discriminate E.
    injection E as <-. unfold providerError_Validate in V. destruct (code_IsZero _); [discriminate |]. apply rbind_ok in V as (code & V & _).
    unfold ParseProviderErrorCode, parse_enum in V. destruct (contains_string _ _) eqn:C in V; [| discriminate]. apply contains_string_In in C.
    revert C. apply listed_all. reflexivity.
  - apply (listed_all ["database_unavailable"; "temporary_failure"; "adapter_not_registered"; "provider_limit_exceeded"; "configuration_not_found";
      "configuration_invalid"; "internal_error"]%string); [reflexivity |].
    repeat match goal with |- context [if ?b then _ else _] => destruct b end; simpl; tauto.
Qed.
Lemma failure_listed c claim failure finishedAt : listed_code (fail_ErrorCode (failureCommit c claim failure finishedAt)).
Proof. unfold failureCommit. destruct (_ || _); apply classified_listed. Qed.

Lemma sanitized raw allowed key v : sanitizeStringObject raw allowed !! key = Some v ->
  exists object, unmarshal_strings raw = Some object /\ object !! key = Some (Some v) /\ In key allowed /\ validOperationalText v 512 = true.
Proof.
  unfold sanitizeStringObject. destruct (unmarshal_strings raw) as [object|]; [| by rewrite lookup_empty].
  rewrite map_lookup_imap. destruct (object !! key) as [[text|]|] eqn:E; simpl; try discriminate.
  destruct (_ && _) eqn:G; [| discriminate]. intros [= ->]. apply andb_true_iff in G as [G1%contains_string_In G2]. by exists object.
Qed.

Lemma enriched_failure r r' : enrichTaskRecord r = Ok r' ->
  (task_ErrorCode (tr_Task r'), tr_ErrorSummary r') = normalizeTaskError (task_ErrorCode (tr_Task r)) /\
  (forall key v, tr_SafeErrorDetails r' !! key = Some v -> is_err (ParseCode v) = false /\
     sanitizeStringObject (task_ErrorDetails (tr_Task r)) ["provider_code"%string] !! key = Some v).
Proof.
  unfold enrichTaskRecord. set (details := sanitizeStringObject _ _). destruct (_ || _); [discriminate |]. destruct (is_err _); [discriminate |].
  destruct (normalizeTaskError _) as [code summary]. intros [= <-]. split; [reflexivity |]. cbn [tr_SafeErrorDetails]. intros key v Hv.
  assert (details !! key = Some v) as Hd.
  { destruct (details !! "provider_code"%string) as [c|]; [| exact Hv]. destruct (is_err (ParseCode c)); [| exact Hv]. by apply lookup_delete_Some in Hv as [_ Hv]. }
  split; [| exact Hd]. pose proof (sanitized _ _ _ _ Hd) as (_ & _ & _ & [<- | []] & _). rewrite Hd in Hv.
  destruct (is_err (ParseCode v)); [| reflexivity]. by rewrite lookup_delete_eq in Hv.
Qed.
Lemma ParseCode_same v : is_err (ParseCode v) = false -> ParseCode v = Ok v.
Proof. unfold ParseCode. by destruct (_ || _). Qed.

(** C35. What is shown of a task's failure is public: the code is one of the
    listed ones, with the text of that code, and it is the stored code, or
    "internal_error" for a code that is not listed; the only detail is a
    provider code, which parses and is the trimmed text the stored details give
    it. No failure the ingestion service commits, and no recovery of an expired
    lease, stores a code that is not listed, so these are shown as they are. *)
Theorem task_failures_shown r r' : enrichTaskRecord r = Ok r' ->
  match task_ErrorCode (tr_Task r) with
  | None => task_ErrorCode (tr_Task r') = None /\ tr_ErrorSummary r' = None
  | Some stored => exists code message, In (code, message) error_messages /\ task_ErrorCode (tr_Task r') = Some code /\
      tr_ErrorSummary r' = Some message /\ (code = stored \/ code = "internal_error"%string /\ ~ listed_code stored)
  end /\
  (forall key v, tr_SafeErrorDetails r' !! key = Some v -> key = "provider_code"%string /\ ParseCode v = Ok v /\
     validOperationalText v 512 = true /\
     exists object, unmarshal_strings (task_ErrorDetails (tr_Task r)) = Some object /\ object !! key = Some (Some v)) /\
  (forall c claim failure finishedAt, listed_code (fail_ErrorCode (failureCommit c claim failure finishedAt))) /\
  (forall now t, exists code, task_ErrorCode (recover_task now t) = Some code /\ listed_code code).
Proof.
  intros [Hn Hd]%enriched_failure. split_and!.
  - destruct (task_ErrorCode (tr_Task r)) as [stored|]; [| by injection Hn as -> ->].
    destruct (normalize_cases stored) as (code & message & En & Hin & Hc). rewrite En in Hn. injection Hn as -> ->. by exists code, message.
  - intros key v [Hp Hs]%Hd. destruct (sanitized _ _ _ _ Hs) as (object & Ho & Hv & [<- | []] & Ht).
    split_and!; [reflexivity | by apply ParseCode_same | exact Ht | by exists object].
  - exact failure_listed.
  - intros now t. eexists. split; [reflexivity |]. apply (listed_all ["lease_expired"%string]); [reflexivity | by left].
Qed.

(** ** Concrete reads *)
Lemma run_tasks_bound `{D : DecimalLib} d id : llen (run_tasks id d) <= llen (rows (db_tasks d)).
Proof. unfold run_tasks, llen. pose proof (List.filter_length_le (fun t => task_RunID t =id id) (rows (db_tasks d))). lia. Qed.

Definition pending_runs : RunListInput := mkRunListInput EmptyString "scheduler" "pending" EmptyString (Some created) None None 1.
Definition shown_run : RunRecord := match enrichRunRecord (scanRunManagementRecord morning_run [morning_task]) with
  | Ok r => r | _ => scanRunManagementRecord morning_run [] end.

Lemma run_pages_witness : exists pages,
  walk run_page (fun i k => runs_from i (Some k)) 2 pending_runs (calm scheduled_store) = (Ok pages, calm scheduled_store) /\
  concat pages = [shown_run] /\ sum_Status (rec_Summary shown_run) = "pending"%string.
Proof.
  destruct (run_pages pending_runs (mkRunListInput EmptyString "scheduler" "pending" EmptyString (Some created) None None 2) scheduled_store [shown_run] scheduled_inv) as (pages & Hw & Hc & _).
  - vm_compute. reflexivity.
  - reflexivity.
  - intros id. pose proof (run_tasks_bound (pg_db scheduled_store) id) as H.
    assert (llen (rows (db_tasks (pg_db scheduled_store))) = 1) as E by (vm_compute; reflexivity). rewrite E in H. unfold int64_max. lia.
  - assert (matching_runs pending_runs (pg_db scheduled_store) = [uuid7 21]) as -> by (vm_compute; reflexivity).
    constructor; [| constructor]. exists morning_run. split; [vm_compute; reflexivity |]. vm_compute. reflexivity.
  - exists pages. split_and!; [exact Hw | exact Hc | vm_compute; reflexivity].
Defined.

(** A task that failed with a code nobody lists, and details with more than the
    provider's code. *)
Definition failed_record : TaskRecord :=
  mkTaskRecord (with_error morning_task (Some "driver_panic"%string) (Some "secret text"%string) (dq "{'provider_code':'bybit','dsn':'postgres://'}"))
    "incremental" "scheduler" BarInterval1Hour (uuid7 3) "bybit" (uuid7 2) "instrument.crypto.btc-usdt" (uuid7 4) "provider.bybit.btc-usdt" "BTCUSDT" None ∅.
Definition shown_failure : TaskRecord := match enrichTaskRecord failed_record with Ok r => r | _ => failed_record end.

Lemma task_failures_shown_witness : task_ErrorCode (tr_Task shown_failure) = Some "internal_error"%string /\
  (forall key v, tr_SafeErrorDetails shown_failure !! key = Some v -> key = "provider_code"%string) /\
  tr_SafeErrorDetails shown_failure !! "provider_code"%string = Some "bybit"%string.
Proof.
  destruct (task_failures_shown failed_record shown_failure) as (Hc & Hd & _); [vm_compute; reflexivity |]. split_and!.
  - destruct Hc as (code & message & _ & Hc & _ & [-> | [-> _]]); [| exact Hc]. vm_compute in Hc. discriminate Hc.
  - intros key v Hv. apply (Hd key v Hv).
  - vm_compute. reflexivity.
Defined.
