(* ===== verification/ReadFacts.v ===== *)
(** * Facts about the public reads

    The bars a page shows, the precision of a batch of instruments, and the
    health of a provider, over any catalog and readers. *)
From Stdlib Require Import Sorted.
From stdpp Require Import pretty.
From S2P Require Import Prelude Errors GoStrings GoTime External Domain MarketData Calendar Application Listing Subscriptions MarketQueries InstrumentOptions ProviderStatus Database Repository CatalogStore Fixtures RepositoryFixtures.
Open Scope go_scope.

Section Bars.
Context `{D : DecimalLib} `{T : TzLib}.

(** What a page asks of each bar, and of two that follow each other. *)
Record bar_matches (f : BarReadFilter) (b : Bar) : Prop := {
  bm_instrument : bar_InstrumentID b = bf_InstrumentID f; bm_mapping : bar_ProviderInstrumentID b = bf_ProviderInstrumentID f;
  bm_interval : bar_Interval b = bf_Interval f; bm_range : Contains (bf_Range f) (bar_OpenTime b) = true;
  bm_valid : is_ok (NewStoredBar b) = true }.
Definition follows (order : string) (a b : Time) : Prop :=
  (order = BarOrderAscending -> a < b) /\ (order = BarOrderDescending -> b < a).

Lemma validate_bars_ok f previous bars : validate_bars f previous bars = Ok tt ->
  Forall (bar_matches f) bars /\ Forall (fun b => forall c, bf_CursorOpenTime f = Some c -> follows (bf_Order f) c (bar_OpenTime b)) bars /\
  Sorted (follows (bf_Order f)) (match previous with Some p => [p] | None => [] end ++ map bar_OpenTime bars).
Proof.
  revert previous. induction bars as [|b bars IH]; intros previous; simpl.
  - intros _. split_and!; [constructor | constructor | destruct previous; repeat constructor].
  - intros H. apply rbind_ok in H as (b' & Hb & H).
    destruct (_ || _) eqn:G1 in H; [discriminate |]. split_guard G1. destruct (opt_test _ _) eqn:G2 in H; [discriminate |].
    destruct (opt_test _ _) eqn:G3 in H; [discriminate |]. destruct (opt_test _ _) eqn:G4 in H; [discriminate |].
    destruct (IH _ H) as (Hm & Hc & Hs). split_and!.
    + constructor; [| exact Hm]. bsimp. split; try assumption. by rewrite Hb.
    + constructor; [| exact Hc]. intros c Ec. rewrite Ec in G2, G3. simpl in G2, G3. unfold After, Before in G2, G3.
      split; intros E; rewrite E in G2, G3; simpl in G2, G3; bsimp; lia.
    + destruct previous as [p|]; [| exact Hs]. simpl in G4 |- *. constructor; [exact Hs |]. constructor. unfold order_breaks, After, Before in G4.
      split; intros E; rewrite E in G4; simpl in G4; bsimp; lia.
Qed.

Lemma follows_trans order : Relations_1.Transitive (follows order).
Proof. intros a b c [H1 H2] [H3 H4]. split; intros E; [specialize (H1 E); specialize (H3 E) | specialize (H2 E); specialize (H4 E)]; lia. Qed.

Lemma StronglySorted_prefix {A} (R : A -> A -> Prop) l1 l2 : StronglySorted R (l1 ++ l2) -> StronglySorted R l1.
Proof.
  induction l1 as [|x l1 IH]; simpl; [constructor |]. intros H. inversion H as [|? ? Hs Hx]; subst.
  constructor; [by apply IH | by apply List.Forall_app in Hx as [Hx _]].
Qed.
Lemma validateBarPage_ok f bars items rest : validateBarPage bars f = Ok tt -> bars = items ++ rest ->
  Forall (bar_matches f) items /\ (forall b c, In b items -> bf_CursorOpenTime f = Some c -> follows (bf_Order f) c (bar_OpenTime b)) /\
  StronglySorted (follows (bf_Order f)) (map bar_OpenTime items).
Proof.
  intros H ->. apply validate_bars_ok in H as (Hm & Hc & Hs). simpl in Hs. apply List.Forall_app in Hm as [Hm _], Hc as [Hc _].
  rewrite map_app in Hs. apply Sorted_StronglySorted in Hs; [| apply follows_trans]. apply StronglySorted_prefix in Hs.
  split_and!; [exact Hm | | exact Hs]. intros b c Hb. by apply (proj1 (List.Forall_forall _ _) Hc).
Qed.

Lemma parseBarsInput_ok input a : parseBarsInput input = Ok a ->
  pb_instrumentCode a = bi_InstrumentCode input /\ pb_providerCode a = bi_ProviderCode input /\ pb_interval a = bi_Interval input /\
  pb_order a = bars_order (bi_Order input) /\ pb_cursorOpenTime a = bi_CursorOpenTime input /\
  NewTimeRange (bi_StartTime input) (bi_EndTime input) = Ok (pb_timeRange a) /\ 0 < bi_Limit input <= MaximumBarsPageSize /\
  (pb_order a = BarOrderAscending \/ pb_order a = BarOrderDescending).
Proof.
  unfold parseBarsInput. intros H. apply rbind_ok in H as ([] & Hv & H). no_violations Hv.
  assert (bars_order (bi_Order input) = BarOrderAscending \/ bars_order (bi_Order input) = BarOrderDescending) as Ho
    by (apply andb_false_iff in V2 as [V2|V2]; apply negb_false_iff, String.eqb_eq in V2; auto).
  clear V2. bsimp.
  destruct (NewTimeRange _ _) as [range|e|]; [| discriminate..]. destruct (bi_CursorOpenTime input) as [c|].
  - destruct (is_err _ || _) in H; [discriminate |]. injection H as <-. split_and!; first [reflexivity | exact Ho | lia].
  - injection H as <-. split_and!; first [reflexivity | exact Ho | lia].
Qed.

Context {W : Type} `{C : !QueryCatalog W} `{R : !BarReader W}.

(** C37. A page of bars is what was asked for, whatever the catalog and the
    reader return: it names the instrument and the provider of the requested
    codes and a source of the two that has history at the interval; its bars, at
    most the limit, are stored bars of that instrument, source and interval,
    opening in the requested range and after the cursor in the requested order,
    each strictly after the one before; and there is a next cursor only after a
    full page, which is the open time of its last bar. *)
Theorem bars_page now input w r w' : BarsService_List now input w = (Ok r, w') ->
  let order := bars_order (bi_Order input) in
  inst_Code (br_Instrument r) = bi_InstrumentCode input /\ prov_Code (br_Provider r) = bi_ProviderCode input /\
  bs_InstrumentID (br_Source r) = inst_ID (br_Instrument r) /\ bs_ProviderID (br_Source r) = prov_ID (br_Provider r) /\
  cap_Historical (bs_Capabilities (br_Source r)) = true /\ In (bi_Interval input) (cap_Intervals (bs_Capabilities (br_Source r))) /\
  llen (br_Bars r) <= bi_Limit input <= MaximumBarsPageSize /\ (order = BarOrderAscending \/ order = BarOrderDescending) /\
  StronglySorted (follows order) (map bar_OpenTime (br_Bars r)) /\
  (exists range, NewTimeRange (bi_StartTime input) (bi_EndTime input) = Ok range /\ forall b, In b (br_Bars r) ->
     bar_InstrumentID b = inst_ID (br_Instrument r) /\ bar_ProviderInstrumentID b = bs_ProviderInstrumentID (br_Source r) /\
     bar_Interval b = bi_Interval input /\ Contains range (bar_OpenTime b) = true /\ is_ok (NewStoredBar b) = true /\
     forall c, bi_CursorOpenTime input = Some c -> follows order c (bar_OpenTime b)) /\
  (forall c, br_NextCursorOpenTime r = Some c -> llen (br_Bars r) = bi_Limit input /\ last (map bar_OpenTime (br_Bars r)) = Some c).
Proof.
  intros H. unfold BarsService_List in H. minv_classified. apply parseBarsInput_ok in M as (Ei & Ep & Et & Eo & Ec & Er & Hl & Ho).
  destruct (page_of _ _ a5) as [items next] eqn:E. injection H as <- <-. destruct a6.
  destruct (page_of_prefix _ _ _ _ _ (proj1 Hl) E) as ([rest Hrest] & Hn & Hnext).
  destruct (validateBarPage_ok _ _ _ _ M6 Hrest) as (Hm & Hc & Hs). simpl in *.
  unfold validateBarSource in M4. destruct (_ || _) eqn:GS in M4; [discriminate |]. split_guard GS.
  apply orb_false_iff in G2 as [G2 G3]. apply negb_false_iff in G2, G3. apply contains_string_In in G3. rewrite Et in G3.
  rewrite Eo in Hc, Hs, Ho. bsimp. split_and!; try assumption; try congruence; try lia.
  exists (pb_timeRange a). split; [exact Er |]. intros b Hb. pose proof (proj1 (List.Forall_forall _ _) Hm b Hb) as [Hb1 Hb2 Hb3 Hb4 Hb5].
  simpl in *. rewrite Et in Hb3. split_and!; try assumption. intros c. rewrite <- Ec. by apply Hc.
Qed.
End Bars.

(** ** Instrument precision *)
Section Precision.
Context `{D : DecimalLib} `{T : TzLib} `{U : UUIDLib}.

(** The distinct identifiers of the texts, in the order they first appear. *)
Lemma parse_ids_spec values : forall index violations seen ids violations' ids',
  parse_ids index violations seen ids values = (violations', ids') -> violations' = [] ->
  (forall id, id ∈ seen <-> In id ids) -> List.NoDup ids ->
  List.NoDup ids' /\ (forall id, In id ids' <-> In id ids \/ exists v, In v values /\ ParseID v = Ok id) /\
  (forall v, In v values -> is_ok (ParseID v) = true) /\ violations = [].
Proof.
  induction values as [|v values IH]; intros index violations seen ids violations' ids'; simpl.
  - intros [= <- <-] Hv Hs Hn. split_and!; [exact Hn | | contradiction | exact Hv]. intros id. split; [auto |]. intros [H | (v & [] & _)]. exact H.
  - destruct (ParseID v) as [id|e|] eqn:E.
    + destruct (bool_decide (id ∈ seen)) eqn:B; intros H Hv Hs Hn.
      * apply bool_decide_eq_true, Hs in B. destruct (IH _ _ _ _ _ _ H Hv Hs Hn) as (Hn' & Hin & Hall & He). split_and!; [exact Hn' | | | exact He].
        -- intros id'. rewrite Hin. split; [intros [H1 | (u & Hu & Eu)]; [by left | right; exists u; auto] |].
           intros [H1 | (u & [<- | Hu] & Eu)]; [by left | left; rewrite E in Eu; by injection Eu as <- | right; by exists u].
        -- intros u [<- | Hu]; [by rewrite E | by apply Hall].
      * apply bool_decide_eq_false in B. rewrite Hs in B.
        destruct (IH _ _ _ _ _ _ H Hv) as (Hn' & Hin & Hall & He).
        -- intros id'. rewrite elem_of_union, elem_of_singleton, Hs, in_app_iff. simpl. intuition auto.
        -- apply List.NoDup_app; [exact Hn | repeat constructor; by intros [] |]. intros x Hx [<- | []]. by apply B.
        -- split_and!; [exact Hn' | | | exact He].
           ++ intros id'. rewrite Hin, in_app_iff. simpl. split.
              ** intros [[H1 | [<- | []]] | (u & Hu & Eu)]; [by left | right; exists v; auto | right; exists u; auto].
              ** intros [H1 | (u & [<- | Hu] & Eu)]; [by left; left | left; right; left; rewrite E in Eu; by injection Eu | right; by exists u].
           ++ intros u [<- | Hu]; [by rewrite E | by apply Hall].
    + intros H Hv Hs Hn. destruct (IH _ _ _ _ _ _ H Hv Hs Hn) as (_ & _ & _ & He). by destruct violations.
    + intros H Hv Hs Hn. destruct (IH _ _ _ _ _ _ H Hv Hs Hn) as (_ & _ & _ & He). by destruct violations.
Qed.

Lemma index_keeps instruments : forall byID byID', index_instruments byID instruments = Ok byID' -> forall id, byID !! id <> None -> byID' !! id <> None.
Proof.
  induction instruments as [|i instruments IH]; intros byID byID'; simpl; [by intros [= <-] |]. destruct (_ || _); [discriminate |].
  intros H id Hid. apply (IH _ _ H). destruct (decide (inst_ID i = id)) as [<-|Ne]; [by rewrite lookup_insert_eq | by rewrite lookup_insert_ne].
Qed.
Lemma index_instruments_ok instruments : forall byID byID', index_instruments byID instruments = Ok byID' ->
  (forall id i, byID' !! id = Some i -> byID !! id = Some i \/ In i instruments /\ inst_ID i = id) /\
  (forall i, In i instruments -> byID' !! inst_ID i <> None).
Proof.
  induction instruments as [|i instruments IH]; intros byID byID'; simpl; [intros [= <-]; split; [auto | contradiction] |].
  destruct (_ || _); [discriminate |]. intros H. pose proof (index_keeps _ _ _ H) as Hkeep. destruct (IH _ _ H) as [Hin Hall]. split.
  - intros id j [Hj | [Hj E]]%Hin; [| right; auto]. apply lookup_insert_Some in Hj as [[<- <-] | [_ Hj]]; auto.
  - intros j [<- | Hj]; [| by apply Hall]. apply Hkeep. by rewrite lookup_insert_eq.
Qed.

(** Whether an identifier has an instrument that can be ordered. *)
Definition usable (byID : gmap ID Instrument) (at_ : Time) (id : ID) : bool :=
  match byID !! id with Some i => instrumentHasUsablePrecision i at_ | None => false end.
Definition item_of (i : Instrument) (x : InstrumentPrecisionItem) : Prop :=
  prec_InstrumentID x = inst_ID i /\ prec_InstrumentCode x = inst_Code i /\ inst_PriceScale i = Some (prec_PriceScale x) /\
  inst_QuantityScale i = Some (prec_QuantityScale x) /\ inst_LotSize i = Some (prec_LotSize x) /\ inst_MinQuantity i = Some (prec_MinQuantity x).

Lemma usable_item i at_ asOf : instrumentHasUsablePrecision i at_ = true -> exists x, precision_item i asOf = Some x /\ item_of i x.
Proof.
  unfold instrumentHasUsablePrecision. rewrite !andb_true_iff. intros [[[[_ H1] H2] H3] H4]. unfold precision_item, item_of.
  destruct (inst_PriceScale i); [| discriminate]. destruct (inst_QuantityScale i); [| discriminate]. destruct (inst_LotSize i); [| discriminate].
  destruct (inst_MinQuantity i); [| discriminate]. eexists. split; [reflexivity |]. simpl. auto 10.
Qed.
Lemma resolve_precision_ok byID at_ ids : forall items missing r, resolve_precision byID at_ items missing ids = Ok r ->
  exists more, prec_Items r = items ++ more /\ prec_MissingInstrumentIDs r = missing ++ List.filter (fun id => negb (usable byID at_ id)) ids /\
    Forall2 (fun id x => exists i, byID !! id = Some i /\ instrumentHasUsablePrecision i at_ = true /\ item_of i x) (List.filter (usable byID at_) ids) more.
Proof.
  induction ids as [|id ids IH]; intros items missing r; simpl.
  - intros [= <-]. exists []. rewrite !app_nil_r. split_and!; [reflexivity.. | constructor].
  - assert (usable byID at_ id = match byID !! id with Some i => instrumentHasUsablePrecision i at_ | None => false end) as Eu by reflexivity.
    destruct (byID !! id) as [i|] eqn:E; [destruct (instrumentHasUsablePrecision i at_) eqn:G |]; rewrite Eu; simpl.
    + intros H. apply rbind_ok in H as (asOf & _ & H). destruct (usable_item i at_ asOf G) as (x & Hx & Hi). rewrite Hx in H.
      destruct (IH _ _ _ H) as (more & -> & -> & Hm). exists (x :: more). rewrite <- app_assoc. split_and!; [reflexivity.. |].
      constructor; [by exists i | exact Hm].
    + intros H. destruct (IH _ _ _ H) as (more & -> & -> & Hm). exists more. rewrite <- app_assoc. by split_and!.
    + intros H. destruct (IH _ _ _ H) as (more & -> & -> & Hm). exists more. rewrite <- app_assoc. by split_and!.
Qed.

Context {W : Type} `{C : !QueryCatalog W}.
(** A batch query of precision answers every identifier once: over any
    catalog, the distinct identifiers of the texts split into the ones answered
    with an item, which have a usable instrument among those the catalog
    returned, and the missing ones, all the others; items and missing
    identifiers keep the order of the query, and an item carries the code and
    the four values of its instrument. *)
Theorem precision_batch now values w r w' : Batch (mret now) values w = (Ok r, w') ->
  exists ids instruments w1 found, List.NoDup ids /\ (forall id, In id ids <-> exists v, In v values /\ ParseID v = Ok id) /\
    (forall v, In v values -> is_ok (ParseID v) = true) /\ FindInstrumentsByIDs ids w = (Ok instruments, w1) /\
    (forall id i, found !! id = Some i -> In i instruments /\ inst_ID i = id) /\ (forall i, In i instruments -> found !! inst_ID i <> None) /\
    prec_MissingInstrumentIDs r = List.filter (fun id => negb (usable found now id)) ids /\
    Forall2 (fun id x => exists i, found !! id = Some i /\ instrumentHasUsablePrecision i now = true /\ item_of i x)
      (List.filter (usable found now) ids) (prec_Items r).
Proof.
  intros H. unfold Batch in H. minv_classified. rename a into ids, a0 into instruments, a1 into found. exists ids, instruments, w1, found.
  unfold parseInstrumentPrecisionInput in M. destruct (_ =? _); [discriminate |]. destruct (_ <? _); [discriminate |].
  destruct (parse_ids _ _ _ _ _) as [violations ids'] eqn:E. apply validated_ok in M as [Ev ->].
  destruct (parse_ids_spec _ _ _ _ _ _ _ E Ev) as (Hn & Hin & Hall & _); [intros id; set_solver | constructor |].
  destruct (index_instruments_ok _ _ _ M1) as [Hf Hg]. destruct (resolve_precision_ok _ _ _ _ _ _ H) as (more & -> & -> & Hm).
  split_and!; try assumption; [intros id; rewrite Hin; simpl; intuition auto | | reflexivity].
  intros id i Hi. destruct (Hf id i Hi) as [Hi' | Hi']; [by rewrite lookup_empty in Hi' | exact Hi'].
Qed.
End Precision.

(** ** Concrete reads *)
Definition hours_input : BarsInput :=
  mkBarsInput "instrument.crypto.btc-usdt" "bybit" BarInterval1Hour (Some morning) (Some noon) "asc" None 1.
Definition hours_run := BarsService_List (mret noon) hours_input committed_store.
Definition hours_page : BarsResult := match fst hours_run with
  | Ok r => r
  | _ => mkBarsResult btc_usdt exchange (mkBarSourceRecord 0%N EmptyString None EmptyString 0%N 0%N EmptyString EmptyString (mkCapabilities false false []))
           EmptyString EmptyString [] None end.
Example hours_ok : hours_run = (Ok hours_page, snd hours_run).
Proof. apply ran. vm_compute. reflexivity. Qed.

Lemma bars_page_witness : map bar_OpenTime (br_Bars hours_page) = [morning] /\ br_NextCursorOpenTime hours_page = Some morning /\
  StronglySorted (follows BarOrderAscending) (map bar_OpenTime (br_Bars hours_page)).
Proof.
  destruct (bars_page (mret noon) hours_input committed_store hours_page (snd hours_run)) as (_ & _ & _ & _ & _ & _ & _ & _ & Hs & _).
  - exact hours_ok.
  - split; [vm_compute; reflexivity |]. split; [vm_compute; reflexivity | exact Hs].
Defined.

(** An instrument whose orders have a known precision, and an unknown one. *)
Definition priced : Instrument := {|
  inst_ID := uuid7 2; inst_Code := "instrument.crypto.btc-usdt"; inst_AssetID := uuid7 1; inst_Venue := "SPOT";
  inst_InstrumentType := InstrumentTypeSpot; inst_Symbol := "BTCUSDT"; inst_QuoteAssetID := None; inst_QuoteCurrency := "USDT";
  inst_MarketTimezone := "America/New_York"; inst_PriceScale := Some 2; inst_QuantityScale := Some 6; inst_LotSize := Some 1;
  inst_MinQuantity := Some 1; inst_Status := InstrumentStatusActive; inst_ValidFrom := None; inst_ValidTo := None;
  inst_Metadata := "{}"; inst_CreatedAt := created; inst_UpdatedAt := created |}.
Definition priced_store : PG := mkPG {|
  db_assets := {[uuid7 1 := btc]}; db_instruments := {[uuid7 2 := priced]}; db_providers := ∅; db_mappings := ∅; db_subscriptions := ∅;
  db_runs := ∅; db_tasks := ∅; db_checkpoints := ∅; db_bars := ∅; db_issues := ∅; db_quotes := ∅ |} [].
Definition batch_values : list string := [uuid_String (uuid7 9); uuid_String (uuid7 2); uuid_String (uuid7 9)].
Definition batch_run := Batch (mret noon) batch_values priced_store.
Definition batch_result : InstrumentPrecisionResult := match fst batch_run with Ok r => r | _ => mkInstrumentPrecisionResult [] [] end.
Example batch_ok : batch_run = (Ok batch_result, snd batch_run).
Proof. apply ran. vm_compute. reflexivity. Qed.

Lemma precision_batch_witness : prec_MissingInstrumentIDs batch_result = [uuid7 9] /\
  exists ids, List.NoDup ids /\ (forall id, In id ids <-> exists v, In v batch_values /\ ParseID v = Ok id).
Proof.
  destruct (precision_batch noon batch_values priced_store batch_result (snd batch_run)) as (ids & _ & _ & _ & Hn & Hin & _).
  - exact batch_ok.
  - split; [vm_compute; reflexivity |]. exists ids. split; [exact Hn | exact Hin].
Defined.

(** The canonical text of the nil UUID is accepted, and then fails the whole
    batch as an internal error instead of being answered as missing. *)
Lemma nil_instrument_id_fails : exists cause w,
  Batch (mret noon) [uuid_String 0%N; uuid_String (uuid7 2)] priced_store = (Err (AppErr ErrorCodeInternal "internal server error" false NoDetails (Some cause)), w).
Proof. eexists. eexists. vm_compute. reflexivity. Qed.
