(* ===== verification/ProviderFacts.v ===== *)
(** * Facts about the status of providers

    How the subscriptions of a provider are grouped into scopes, and what the
    health of a provider says of its scopes. *)
From Stdlib Require Import Sorted.
From S2P Require Import Prelude Errors GoStrings GoTime External Domain MarketData Calendar Window Freshness Application Listing Subscriptions ProviderStatus Fixtures RepositoryFixtures.
Open Scope go_scope.

(** ** Groups *)
Definition group_size (groups : list (providerScopeKey * list ProviderSubscriptionObservation)) : Z :=
  fold_right (fun g n => llen (snd g) + n) 0 groups.

Lemma group_size_perm g g' : Permutation g g' -> group_size g = group_size g'.
Proof. induction 1; simpl; lia. Qed.
Lemma add_group_size key o groups : group_size (add_group key o groups) = group_size groups + 1.
Proof.
  induction groups as [|[k os] groups IH]; simpl; [reflexivity |]. destruct (bool_decide (k = key)); simpl; [| lia].
  unfold llen. rewrite length_app. simpl length. lia.
Qed.
Lemma add_group_keys key o groups k : In k (map fst (add_group key o groups)) <-> k = key \/ In k (map fst groups).
Proof.
  induction groups as [|[k' os] groups IH]; simpl; [intuition auto |]. destruct (bool_decide (k' = key)) eqn:E; simpl.
  - apply bool_decide_eq_true in E as ->. intuition auto.
  - rewrite IH. intuition auto.
Qed.
Lemma add_group_nodup key o groups : List.NoDup (map fst groups) -> List.NoDup (map fst (add_group key o groups)).
Proof.
  induction groups as [|[k os] groups IH]; simpl; [repeat constructor; by intros [] |]. intros H. inversion H as [|? ? Hk Hn]; subst.
  destruct (bool_decide (k = key)) eqn:E; simpl; [exact H |]. apply bool_decide_eq_false in E. constructor; [| by apply IH].
  rewrite add_group_keys. intuition auto.
Qed.

(** The observations of a group have its key. *)
Definition groups_ok (groups : list (providerScopeKey * list ProviderSubscriptionObservation)) : Prop :=
  List.NoDup (map fst groups) /\ Forall (fun g => snd g <> [] /\ Forall (fun o => providerScopeFor o = Ok (fst g)) (snd g)) groups.
Lemma add_group_ok key o groups : providerScopeFor o = Ok key -> groups_ok groups -> groups_ok (add_group key o groups).
Proof.
  intros Ho [Hn Hg]. split; [by apply add_group_nodup |]. clear Hn. induction Hg as [|[k os] groups [Hne Hos] Hg IH]; simpl.
  - constructor; [split; [discriminate |] |]; constructor; [exact Ho | constructor].
  - destruct (bool_decide (k = key)) eqn:E; [| by constructor]. apply bool_decide_eq_true in E as ->. constructor; [| exact Hg]. simpl in *.
    split; [intros E; apply app_eq_nil in E as [_ E]; discriminate E |]. apply List.Forall_app. split; [exact Hos | constructor; [exact Ho | constructor]].
Qed.
Lemma observe_ok observations : forall g g', observe g observations = Ok g' -> groups_ok (obs_groups g) ->
  groups_ok (obs_groups g') /\ group_size (obs_groups g') = group_size (obs_groups g) + llen observations /\
  obs_failures g <= obs_failures g' /\ (forall o, In o observations -> ob_ConsecutiveFailures o <= obs_failures g').
Proof.
  induction observations as [|o observations IH]; intros g g'; simpl.
  - intros [= <-] Hg. split_and!; [exact Hg | unfold llen; simpl; lia | lia | contradiction].
  - intros H Hg. apply rbind_ok in H as (key & Hk & H). destruct (IH _ _ H) as (Hg' & Hs & Hf & Ho); [by apply add_group_ok |].
    simpl in Hs, Hf. rewrite add_group_size in Hs. split_and!; [exact Hg' | unfold llen in *; simpl length; lia | lia |].
    intros o' [<- | Hin]; [lia | by apply Ho].
Qed.

(** ** Scopes *)
Definition scope_key (s : ProviderScopeStatus) : providerScopeKey := mkProviderScopeKey (scope_Market s) (scope_SessionType s) (scope_Interval s).
Section Scopes.
Context (calendar : TradingCalendar).

Lemma projectScope_ok key observations at_ s : projectScope calendar key observations at_ = Ok s ->
  scope_key s = key /\ scope_ActiveSubscriptions s = llen observations /\ observations <> [].
Proof.
  unfold projectScope. destruct (llen observations =? 0) eqn:E; [discriminate |]. intros H. apply rbind_ok in H as (t & _ & H).
  destruct (scope_freshness t). injection H as <-. destruct key. split_and!; try reflexivity. intros ->. discriminate E.
Qed.
Definition active_total (scopes : list ProviderScopeStatus) : Z := fold_right (fun s n => scope_ActiveSubscriptions s + n) 0 scopes.
Lemma project_scopes_ok disabled at_ groups scopes : project_scopes calendar disabled at_ groups = Ok scopes ->
  map scope_key scopes = map fst groups /\ active_total scopes = group_size groups /\
  (disabled = true -> Forall (fun s => scope_HealthStatus s = ProviderHealthUnknown) scopes).
Proof.
  revert scopes. induction groups as [|[key os] groups IH]; intros scopes; simpl; [intros [= <-]; split_and!; [reflexivity.. | constructor] |].
  intros H. apply rbind_ok in H as (s & Hs & H). apply rbind_ok in H as (rest & Hr & H). injection H as <-.
  destruct (IH _ Hr) as (Hk & Ht & Hd). apply projectScope_ok in Hs as (Es & En & _). destruct disabled; simpl.
  - split_and!; [by rewrite Hk, <- Es | rewrite Ht, En; reflexivity | intros _; constructor; [reflexivity | by apply Hd]].
  - split_and!; [by rewrite Hk, <- Es | rewrite Ht, En; reflexivity | discriminate].
Qed.
End Scopes.

(** ** Health *)
Definition bad (s : ProviderScopeStatus) : bool :=
  (scope_HealthStatus s =s ProviderHealthUnhealthy) || (scope_HealthStatus s =s ProviderHealthDegraded).
Definition has_health (h : string) (s : ProviderScopeStatus) : bool := scope_HealthStatus s =s h.
(** The health of the first scope that is unhealthy or degraded; without one,
    by the healthy and the unknown scopes. *)
Definition first_bad_health (hasHealthy hasUnknown : bool) (scopes : list ProviderScopeStatus) : string :=
  match List.find bad scopes with
  | Some s => scope_HealthStatus s
  | None =>
      match hasHealthy || existsb (has_health ProviderHealthHealthy) scopes, hasUnknown || existsb (has_health ProviderHealthUnknown) scopes with
      | true, true => ProviderHealthDegraded
      | true, false => ProviderHealthHealthy
      | false, _ => ProviderHealthUnknown
      end
  end.
Lemma summarize_scopes_spec scopes : forall hh hu, summarize_scopes hh hu scopes = first_bad_health hh hu scopes.
Proof.
  unfold first_bad_health. induction scopes as [|s scopes IH]; intros hh hu; simpl; [by destruct hh, hu |].
  unfold bad, has_health. destruct (String.eqb_spec (scope_HealthStatus s) ProviderHealthUnhealthy) as [E|_]; [by rewrite E |].
  destruct (String.eqb_spec (scope_HealthStatus s) ProviderHealthDegraded) as [E|_]; [by rewrite E |]. cbn [orb].
  destruct (String.eqb_spec (scope_HealthStatus s) ProviderHealthHealthy) as [E|_].
  - rewrite IH, E. change (ProviderHealthHealthy =s ProviderHealthUnknown) with false. by rewrite orb_true_r, orb_true_l, orb_false_l.
  - destruct (scope_HealthStatus s =s ProviderHealthUnknown); rewrite IH; [| by rewrite !orb_false_l]. by rewrite orb_true_r, orb_true_l, orb_false_l.
Qed.

Lemma add_group_covers key o groups : exists os, In (key, os) (add_group key o groups).
Proof.
  induction groups as [|[k os] groups [os' IH]]; simpl; [exists [o]; by left |]. destruct (bool_decide (k = key)) eqn:E.
  - apply bool_decide_eq_true in E as ->. eexists. by left.
  - exists os'. by right.
Qed.
Lemma observe_keys observations : forall g g', observe g observations = Ok g' ->
  (forall k, In k (map fst (obs_groups g)) -> In k (map fst (obs_groups g'))) /\
  (forall o, In o observations -> exists k, providerScopeFor o = Ok k /\ In k (map fst (obs_groups g'))).
Proof.
  induction observations as [|o observations IH]; intros g g'; simpl; [intros [= <-]; split; [auto | contradiction] |].
  intros H. apply rbind_ok in H as (key & Hk & H). destruct (IH _ _ H) as [Hkeep Ho]. simpl in Hkeep. split.
  - intros k Hin. apply Hkeep, add_group_keys. by right.
  - intros o' [<- | Hin]; [| by apply Ho]. exists key. split; [exact Hk |]. apply Hkeep, add_group_keys. by left.
Qed.

Lemma healthy_summary scopes : summarizeProviderHealth scopes = ProviderHealthHealthy ->
  (exists s, In s scopes /\ scope_HealthStatus s = ProviderHealthHealthy) /\
  forall s, In s scopes -> bad s = false /\ scope_HealthStatus s <> ProviderHealthUnknown.
Proof.
  unfold summarizeProviderHealth. rewrite summarize_scopes_spec. unfold first_bad_health. destruct (List.find bad scopes) as [s|] eqn:Ef.
  - intros E. apply List.find_some in Ef as [_ Hb]. unfold bad in Hb. rewrite E in Hb. discriminate Hb.
  - cbn [orb]. destruct (existsb (has_health ProviderHealthHealthy) scopes) eqn:Eh; [| discriminate].
    destruct (existsb (has_health ProviderHealthUnknown) scopes) eqn:Eu; [discriminate |]. intros _. split.
    + apply existsb_exists in Eh as (s & Hin & E). apply String.eqb_eq in E. by exists s.
    + intros s Hin. split; [by apply (List.find_none _ _ Ef) |]. intros E. assert (existsb (has_health ProviderHealthUnknown) scopes = true); [| congruence].
      apply existsb_exists. exists s. split; [exact Hin |]. by apply String.eqb_eq.
Qed.
Lemma active_status s t : ParseProviderStatus s = Ok t -> s <> ProviderStatusDisabled -> s <> ProviderStatusDegraded -> s = ProviderStatusActive.
Proof.
  unfold ParseProviderStatus, parse_enum. destruct (contains_string _ s) eqn:C; [| discriminate]. apply contains_string_In in C.
  simpl in C. intuition congruence.
Qed.

(** ** The documented summary *)
(** The health of a provider by the documented priority: unhealthy, degraded,
    a mixture of healthy and unknown (degraded too), healthy, unknown; a provider
    configured as degraded is never healthy, a disabled one is unknown. *)
Definition documented_health (configured : string) (scopes : list ProviderScopeStatus) : string :=
  let some h := existsb (has_health h) scopes in
  if configured =s ProviderStatusDisabled then ProviderHealthUnknown
  else if some ProviderHealthUnhealthy then ProviderHealthUnhealthy
  else if some ProviderHealthDegraded || some ProviderHealthHealthy && some ProviderHealthUnknown then ProviderHealthDegraded
  else if some ProviderHealthHealthy then (if configured =s ProviderStatusDegraded then ProviderHealthDegraded else ProviderHealthHealthy)
  else ProviderHealthUnknown.
(** Some scope is unhealthy, but a degraded one comes before it and every other. *)
Definition unhealthy_hidden (scopes : list ProviderScopeStatus) : bool :=
  existsb (has_health ProviderHealthUnhealthy) scopes && opt_test (has_health ProviderHealthDegraded) (List.find bad scopes).

Lemma find_bad_none scopes : List.find bad scopes = None ->
  existsb (has_health ProviderHealthUnhealthy) scopes = false /\ existsb (has_health ProviderHealthDegraded) scopes = false.
Proof.
  induction scopes as [|s scopes IH]; simpl; [by split |]. unfold bad, has_health at 1 3. destruct (_ =s ProviderHealthUnhealthy); [discriminate |].
  destruct (_ =s ProviderHealthDegraded); [discriminate | exact IH].
Qed.
Lemma find_bad_some scopes s : List.find bad scopes = Some s ->
  has_health ProviderHealthUnhealthy s = true /\ existsb (has_health ProviderHealthUnhealthy) scopes = true \/
  has_health ProviderHealthUnhealthy s = false /\ has_health ProviderHealthDegraded s = true /\ existsb (has_health ProviderHealthDegraded) scopes = true.
Proof.
  intros [Hin Hb]%List.find_some. unfold bad in Hb. fold (has_health ProviderHealthUnhealthy s) in Hb. fold (has_health ProviderHealthDegraded s) in Hb.
  destruct (has_health ProviderHealthUnhealthy s) eqn:Eu; [left | right]; (split; [reflexivity |]).
  - apply existsb_exists. by exists s.
  - split; [exact Hb |]. apply existsb_exists. by exists s.
Qed.
(** What the loop computes, against the documented priority. *)
Lemma summary_documented configured scopes :
  (if configured =s ProviderStatusDisabled then ProviderHealthUnknown
   else if (configured =s ProviderStatusDegraded) && (summarizeProviderHealth scopes =s ProviderHealthHealthy) then ProviderHealthDegraded
   else summarizeProviderHealth scopes)
  = if negb (configured =s ProviderStatusDisabled) && unhealthy_hidden scopes then ProviderHealthDegraded else documented_health configured scopes.
Proof.
  unfold documented_health, unhealthy_hidden, summarizeProviderHealth. rewrite summarize_scopes_spec. unfold first_bad_health. cbv zeta.
  destruct (configured =s ProviderStatusDisabled); [reflexivity |]. cbn [negb andb]. destruct (List.find bad scopes) as [s|] eqn:Ef.
  - destruct (find_bad_some _ _ Ef) as [[Es Ee] | (Es & Ed & Ee)]; rewrite ?Ee; cbn [opt_test].
    + apply String.eqb_eq in Es. unfold has_health. rewrite Es. rewrite andb_comm. reflexivity.
    + rewrite Ed. apply String.eqb_eq in Ed. rewrite Ed. rewrite andb_comm. cbn [andb orb].
      by destruct (existsb (has_health ProviderHealthUnhealthy) scopes).
  - destruct (find_bad_none _ Ef) as [-> ->]. cbn [orb andb].
    destruct (existsb (has_health ProviderHealthHealthy) scopes), (existsb (has_health ProviderHealthUnknown) scopes), (configured =s ProviderStatusDegraded); reflexivity.
Qed.

Lemma key_weak_order : weak_order key_less.
Proof. apply (text_then_weak_order key_market), (text_then_weak_order key_sessionType), text_weak_order. Qed.
Lemma sorted_keys {A B K} (less : K -> K -> bool) (f : A -> K) (g : B -> K) l l' : map f l = map g l' ->
  StronglySorted (fun a b => less (g b) (g a) = false) l' -> StronglySorted (fun a b => less (f b) (f a) = false) l.
Proof.
  revert l'. induction l as [|x l IH]; intros [|y l'] E; try discriminate E; intros Hs; [constructor |]. cbn [map] in E. injection E as Exy E.
  inversion Hs as [|? ? Hs' Hy]; subst. constructor; [by apply (IH l') |]. rewrite List.Forall_forall in *. intros z Hz.
  apply (in_map f) in Hz. rewrite E in Hz. apply in_map_iff in Hz as (z' & Ez & Hz'). rewrite <- Ez, Exy. by apply Hy.
Qed.


(** ** Concrete providers *)
Definition observation (id : ID) (market : string) (failures : Z) (lastOpen : Time) : ProviderSubscriptionObservation :=
  mkProviderSubscriptionObservation id market AssetTypeCrypto BarInterval1Hour 0 (Some lastOpen) (Some lastOpen) None failures.
Definition offline_calendar : TradingCalendar :=
  mkTradingCalendar None (fun _ => Err (Sentinel ErrCalendarOutOfRange)) (fun _ => Err (Sentinel ErrCalendarOutOfRange))
    (fun _ => Err (Sentinel ErrCalendarOutOfRange)) (fun _ => Err (Sentinel ErrCalendarOutOfRange)).
(** A spot market with one failure and a swap market that keeps failing. *)
Definition failing_provider : ProviderStatusSource :=
  mkProviderStatusSource (uuid7 3) "bybit" "Bybit" "EXCHANGE" ProviderStatusActive
    [observation (uuid7 5) "spot" 1 morning; observation (uuid7 6) "swap" 3 morning].
Definition failing_status : ProviderStatus :=
  match projectProvider offline_calendar failing_provider noon with
  | Ok st => st
  | _ => mkProviderStatus 0%N EmptyString EmptyString EmptyString EmptyString EmptyString None None 0 0 []
  end.
Example failing_ok : projectProvider offline_calendar failing_provider noon = Ok failing_status.
Proof. vm_compute. reflexivity. Qed.

