(* ===== verification/GoText.v ===== *)
(** * Packages strconv, encoding/base64, net/url and time: parsing of text

    [strconv.Atoi], [base64.RawURLEncoding], [url.ParseQuery],
    [strings.Fields] and [EqualFold] for ASCII, and [time.Parse] of RFC 3339. *)
From stdpp Require Import pretty.
From S2P Require Import Prelude Errors GoStrings GoTime GoJson.
Open Scope go_scope.

(** ** strconv *)
Fixpoint all_digits (s : string) : bool := match s with EmptyString => true | String c s' => is_digit c && all_digits s' end.
(** [ParseInt(s, 10, 64)] and [Atoi]: a sign, and at least one digit. *)
Definition ParseInt64 (s : string) : option Z :=
  let '(neg, digits) := match s with
    | String c s' => if is_byte 45 c then (true, s') else if is_byte 43 c then (false, s') else (false, s)
    | EmptyString => (false, s) end in
  if (digits =s EmptyString) || negb (all_digits digits) then None
  else
    let v := digits_value 0 digits in
    let v := if neg then - v else v in
    if (v <? int64_min) || (int64_max <? v) then None else Some v.
Definition Itoa (z : Z) : string := pretty z.
Definition FormatBool (b : bool) : string := if b then "true" else "false".

(** ** encoding/base64: [RawURLEncoding] *)
Definition base64_char (v : Z) : ascii :=
  chr (if v <? 26 then 65 + v else if v <? 52 then 71 + v else if v <? 62 then v - 4 else if v =? 62 then 45 else 95).
Definition base64_value (c : ascii) : option Z :=
  let b := byte_at c in
  if in_range 65 90 b then Some (b - 65) else if in_range 97 122 b then Some (b - 71)
  else if in_range 48 57 b then Some (b + 4) else if b =? 45 then Some 62 else if b =? 95 then Some 63 else None.

Fixpoint base64_encode (s : string) : string :=
  match s with
  | EmptyString => EmptyString
  | String a EmptyString =>
      let x := byte_at a in
      String (base64_char (x / 4)) (String (base64_char (x mod 4 * 16)) EmptyString)
  | String a (String b EmptyString) =>
      let x := byte_at a in let y := byte_at b in
      String (base64_char (x / 4)) (String (base64_char (x mod 4 * 16 + y / 16)) (String (base64_char (y mod 16 * 4)) EmptyString))
  | String a (String b (String c rest)) =>
      let x := byte_at a in let y := byte_at b in let z := byte_at c in
      String (base64_char (x / 4)) (String (base64_char (x mod 4 * 16 + y / 16))
        (String (base64_char (y mod 16 * 4 + z / 64)) (String (base64_char (z mod 64)) (base64_encode rest))))
  end.
Definition EncodeToString : string -> string := base64_encode.

(** The values of the characters; line breaks are skipped. *)
Fixpoint base64_values (s : string) : option (list Z) :=
  match s with
  | EmptyString => Some []
  | String c s' =>
      if is_byte 10 c || is_byte 13 c then base64_values s'
      else match base64_value c, base64_values s' with Some v, Some l => Some (v :: l) | _, _ => None end
  end.
(** The bytes of the values: trailing bits are not checked, a single character
    is left over. *)
Fixpoint base64_bytes (l : list Z) : option string :=
  match l with
  | [] => Some EmptyString
  | [_] => None
  | [a; b] => Some (String (chr (a * 4 + b / 16)) EmptyString)
  | [a; b; c] => Some (String (chr (a * 4 + b / 16)) (String (chr (b mod 16 * 16 + c / 4)) EmptyString))
  | a :: b :: c :: d :: rest =>
      match base64_bytes rest with
      | Some s => Some (String (chr (a * 4 + b / 16)) (String (chr (b mod 16 * 16 + c / 4)) (String (chr (c mod 4 * 64 + d)) s)))
      | None => None
      end
  end.
Definition DecodeString (s : string) : option string := match base64_values s with Some l => base64_bytes l | None => None end.

(** *** Decoding what was encoded *)
Lemma base64_value_char v : 0 <= v < 64 -> base64_value (base64_char v) = Some v /\ is_byte 10 (base64_char v) = false /\ is_byte 13 (base64_char v) = false.
Proof.
  intros H. assert (In v (map Z.of_nat (seq 0 64))) as Hin.
  { apply in_map_iff. exists (Z.to_nat v). split; [lia |]. apply in_seq. lia. }
  revert Hin. apply (List.Forall_forall (fun v => base64_value (base64_char v) = Some v /\ is_byte 10 (base64_char v) = false /\ is_byte 13 (base64_char v) = false)).
  repeat constructor.
Qed.
Lemma byte_at_range c : 0 <= byte_at c < 256.
Proof. unfold byte_at. pose proof (N_ascii_bounded c). lia. Qed.
Lemma chr_byte_at c z : z = byte_at c -> chr z = c.
Proof. intros ->. unfold chr, byte_at. by rewrite N2Z.id, ascii_N_embedding. Qed.

(** Blocks of three bytes. *)
Lemma string_triples (P : string -> Prop) :
  P EmptyString -> (forall a, P (String a EmptyString)) -> (forall a b, P (String a (String b EmptyString))) ->
  (forall a b c s, P s -> P (String a (String b (String c s)))) -> forall s, P s.
Proof.
  intros H0 H1 H2 H3 s. assert (P s /\ (forall a, P (String a s)) /\ (forall a b, P (String a (String b s)))) as [H _]; [| exact H].
  induction s as [|c s (IH & IH1 & IH2)]; [auto |]. split; [apply IH1 |]. split; [intros a; apply IH2 |].
  intros a b. apply H3, IH.
Qed.

Lemma base64_values_char v rest : 0 <= v < 64 ->
  base64_values (String (base64_char v) rest) = option_map (cons v) (base64_values rest).
Proof.
  intros Hv. destruct (base64_value_char v Hv) as (E & E1 & E2). cbn [base64_values]. rewrite E1, E2, E. cbn [orb].
  by destruct (base64_values rest).
Qed.

Lemma base64_decode_encode s : DecodeString (EncodeToString s) = Some s.
Proof.
  unfold DecodeString, EncodeToString. induction s as [|a|a b|a b c s IH] using string_triples; [reflexivity | ..];
    pose proof (byte_at_range a) as Ha; cbn [base64_encode]; cbv zeta.
  - rewrite !base64_values_char by (Z.div_mod_to_equations; lia). cbn [base64_values option_map base64_bytes].
    do 2 f_equal. apply chr_byte_at. Z.div_mod_to_equations; lia.
  - pose proof (byte_at_range b) as Hb. rewrite !base64_values_char by (Z.div_mod_to_equations; lia).
    cbn [base64_values option_map base64_bytes].
    do 2 f_equal; [| f_equal]; apply chr_byte_at; Z.div_mod_to_equations; lia.
  - pose proof (byte_at_range b) as Hb. pose proof (byte_at_range c) as Hc. rewrite !base64_values_char by (Z.div_mod_to_equations; lia).
    destruct (base64_values (base64_encode s)) as [l|]; [| discriminate IH]. cbn [option_map base64_bytes] in *. rewrite IH.
    do 2 f_equal; [| f_equal; [| f_equal]]; apply chr_byte_at; Z.div_mod_to_equations; lia.
Qed.

(** ** strings *)
(** [strings.Cut(s, sep)] for a separator of one byte. *)
Fixpoint Cut (sep : Z) (s : string) : string * string :=
  match s with
  | EmptyString => (EmptyString, EmptyString)
  | String c s' => if is_byte sep c then (EmptyString, s') else let '(before, after) := Cut sep s' in (String c before, after)
  end.
Fixpoint Split (sep : Z) (s : string) : list string :=
  match s with
  | EmptyString => [EmptyString]
  | String c s' =>
      if is_byte sep c then EmptyString :: Split sep s'
      else match Split sep s' with part :: rest => String c part :: rest | [] => [String c EmptyString] end
  end.
Fixpoint has_byte (b : Z) (s : string) : bool := match s with EmptyString => false | String c s' => is_byte b c || has_byte b s' end.

(** [strings.Fields]: the runs of runes that are not white space. *)
Fixpoint fields_of (current : string) (segs : list (Z * string)) : list string :=
  match segs with
  | [] => if current =s EmptyString then [] else [current]
  | (r, bytes) :: rest =>
      if IsSpace r then (if current =s EmptyString then fields_of EmptyString rest else current :: fields_of EmptyString rest)
      else fields_of (current ++ bytes)%string rest
  end.
Definition strings_Fields (s : string) : list string := fields_of EmptyString (segments s).

(** [strings.TrimPrefix] *)
Definition TrimPrefix (s prefix : string) : string :=
  if HasPrefix s prefix then String.substring (String.length prefix) (String.length s - String.length prefix) s else s.

Definition lower (c : ascii) : ascii := if in_range 65 90 (byte_at c) then chr (byte_at c + 32) else c.
Fixpoint ToLower (s : string) : string := match s with EmptyString => EmptyString | String c s' => String (lower c) (ToLower s') end.
(** [strings.EqualFold] against an ASCII text without [k] and [s], the only
    letters that fold with a rune outside ASCII. *)
Definition EqualFold_ascii (s t : string) : bool := ToLower s =s ToLower t.

(** [strconv.ParseBool] *)
Definition ParseBool (s : string) : option bool :=
  if contains_string ["1"; "t"; "T"; "true"; "TRUE"; "True"]%string s then Some true
  else if contains_string ["0"; "f"; "F"; "false"; "FALSE"; "False"]%string s then Some false else None.

(** ** net/url: [ParseQuery] *)
Definition hex_byte (c : ascii) : Z :=
  let b := byte_at c in if is_digit c then b - 48 else if in_range 97 102 b then b - 87 else b - 55.
Fixpoint QueryUnescape (s : string) : option string :=
  match s with
  | EmptyString => Some EmptyString
  | String c s' =>
      if is_byte 37 c then
        match s' with
        | String h (String l rest) =>
            if is_hex h && is_hex l then option_map (String (chr (hex_byte h * 16 + hex_byte l))) (QueryUnescape rest) else None
        | _ => None
        end
      else option_map (String (if is_byte 43 c then chr 32 else c)) (QueryUnescape s')
  end.

(** [url.Values] *)
Abbreviation Values := (gmap string (list string)) (only parsing).
Definition add_value (values : Values) (key value : string) : Values := <[key := default [] (values !! key) ++ [value]]> values.
Definition parse_pair (values : option Values) (pair : string) : option Values :=
  if has_byte 59 pair then None
  else if pair =s EmptyString then values
  else
    let '(key, value) := Cut 61 pair in
    match values, QueryUnescape key, QueryUnescape value with
    | Some values, Some key, Some value => Some (add_value values key value)
    | _, _, _ => None
    end.
(** An error of a pair is an error of the query; at most 10000 pairs. *)
Definition urlMaxQueryParams : Z := 10000.
Definition ParseQuery (query : string) : option Values :=
  let pairs := Split 38 query in
  if urlMaxQueryParams <? llen pairs then None else fold_left parse_pair pairs (Some ∅).

Example parse_query_1 :
  (map_to_list <$> ParseQuery "a=1&b=x+y%2F&a=2&&c")%string = Some [("c", [EmptyString]); ("a", ["1"; "2"]); ("b", ["x y/"])]%string.
Proof. vm_compute. reflexivity. Qed.
Example parse_query_2 : (ParseQuery "a=%2", ParseQuery "a;b=1")%string = (None, None).
Proof. vm_compute. reflexivity. Qed.

(** ** time: [Parse(RFC3339Nano, s)] *)
Section TimeParse.
Local Open Scope string_scope.
Definition digit_value (c : ascii) : Z := byte_at c - 48.
(** [getnum]: two digits, or one when [fixed] is not set. *)
Definition getnum (fixed : bool) (s : string) : option (Z * string) :=
  match s with
  | String a s1 =>
      if negb (is_digit a) then None
      else match s1 with
        | String b s2 => if is_digit b then Some ((digit_value a * 10 + digit_value b)%Z, s2) else if fixed then None else Some (digit_value a, s1)
        | EmptyString => if fixed then None else Some (digit_value a, s1)
        end
  | EmptyString => None
  end.
Definition getyear (s : string) : option (Z * string) :=
  match s with
  | String a (String b (String c (String d rest))) =>
      let digits := String a (String b (String c (String d EmptyString))) in
      if all_digits digits then Some (digits_value 0 digits, rest) else None
  | _ => None
  end.
Definition skip_byte (b : Z) (s : string) : option string :=
  match s with String c s' => if is_byte b c then Some s' else None | EmptyString => None end.
(** A fraction after a period or a comma, truncated to nanoseconds. *)
Definition getfraction (s : string) : Z * string :=
  match s with
  | String c s' =>
      if is_byte 46 c || is_byte 44 c then
        match span_digits s' with
        | (EmptyString, _) => (0%Z, s)
        | (digits, rest) =>
            let digits := String.substring 0 9 digits in
            ((digits_value 0 digits * 10 ^ (9 - slen digits))%Z, rest)
        end
      else (0%Z, s)
  | EmptyString => (0%Z, s)
  end.
(** [Z] or an offset, in minutes, of at most 24:60. *)
Definition getzone (s : string) : option (Z * string) :=
  match s with
  | String c s' =>
      if is_byte 90 c then Some (0%Z, s')
      else
        let sign := if is_byte 43 c then Some 1%Z else if is_byte 45 c then Some (-1)%Z else None in
        match sign, getnum true s' with
        | Some sign, Some (hr, s2) =>
            match skip_byte 58 s2 with
            | Some s3 => match getnum true s3 with
                | Some (mm, rest) => if (24 <? hr)%Z || (60 <? mm)%Z then None else Some ((sign * (hr * 60 + mm))%Z, rest)
                | None => None end
            | None => None
            end
        | _, _ => None
        end
  | EmptyString => None
  end.
Definition is_leap (y : Z) : bool := ((y mod 4 =? 0) && (negb (y mod 100 =? 0) || (y mod 400 =? 0)))%Z.
Definition daysIn (m y : Z) : Z :=
  (if m =? 2 then (if is_leap y then 29 else 28) else if (m =? 4) || (m =? 6) || (m =? 9) || (m =? 11) then 30 else 31)%Z.

Notation "'let?' p := c 'in' k" := (match c with Some p => k | None => None end) (at level 10, p pattern, c at level 100, k at level 200).
Definition ParseRFC3339Nano (s : string) : option Time :=
  let? (year, s) := getyear s in
  let? s := skip_byte 45 s in
  let? (month, s) := getnum true s in
  if ((month <=? 0) || (12 <? month))%Z then None else
  let? s := skip_byte 45 s in
  let? (day, s) := getnum true s in
  let? s := skip_byte 84 s in
  let? (hour, s) := getnum false s in
  if (24 <=? hour)%Z then None else
  let? s := skip_byte 58 s in
  let? (minute, s) := getnum true s in
  if (60 <=? minute)%Z then None else
  let? s := skip_byte 58 s in
  let? (second, s) := getnum true s in
  if (60 <=? second)%Z then None else
  let '(nanoseconds, s) := getfraction s in
  let? (offset, s) := getzone s in
  if negb (s =s EmptyString) then None
  else if ((day <? 1) || (daysIn month year <? day))%Z then None
  else Some ((date_seconds year month day hour minute + second - offset * 60) * Second + nanoseconds)%Z.
End TimeParse.

Example parse_time_1 :
  option_map FormatRFC3339Nano (ParseRFC3339Nano "2024-02-29T9:05:06,1234567891+01:30"%string) = Some "2024-02-29T07:35:06.123456789Z"%string.
Proof. vm_compute. reflexivity. Qed.
Example parse_time_2 :
  map ParseRFC3339Nano ["2023-02-29T09:05:06Z"; "2023-02-28T24:05:06Z"; "2023-02-28t09:05:06Z"; "2023-02-28T09:05:06"; "2023-02-28T09:05:06Zx"]%string
  = [None; None; None; None; None].
Proof. vm_compute. reflexivity. Qed.

(** * Packages net/http and net/url: what the clients and the handlers use

    Headers under canonical keys, [url.Values.Encode], and the transport of a
    client. Parsing a URL, parsing a date header and exchanging a request for a
    response are the transport's. *)
(** ** Headers: [http.Header] under the constants the code uses as keys *)
Abbreviation Header := (gmap string (list string)) (only parsing).
Definition Header_Values (h : Header) (key : string) : list string := default [] (h !! key).
Definition Header_Get (h : Header) (key : string) : string := List.hd EmptyString (Header_Values h key).
Definition Header_Set (h : Header) (key value : string) : Header := <[key := [value]]> h.
Definition Header_Del (h : Header) (key : string) : Header := base.delete key h.

(** ** [url.QueryEscape] and [Values.Encode] *)
Definition unreserved (c : ascii) : bool :=
  in_range 65 90 (byte_at c) || is_alnum c || existsb (fun n => is_byte n c) [45; 95; 46; 126].
Definition upper_hex (n : Z) : ascii := if n <? 10 then chr (48 + n) else chr (55 + n).
Fixpoint QueryEscape (s : string) : string :=
  match s with
  | EmptyString => EmptyString
  | String c s' =>
      if unreserved c then String c (QueryEscape s')
      else if is_byte 32 c then String (chr 43) (QueryEscape s')
      else String (chr 37) (String (upper_hex (byte_at c / 16)) (String (upper_hex (byte_at c mod 16)) (QueryEscape s')))
  end.
Definition encode_pair (kv : string * string) : string := (QueryEscape (fst kv) ++ "=" ++ QueryEscape (snd kv))%string.
(** The pairs of a [url.Values] with one value under each key, sorted by key. *)
Definition Values_Encode (query : list (string * string)) : string := String.concat "&" (map encode_pair (sort_keys query)).
Example encode_1 : Values_Encode [("symbol", "BTC USDT"); ("category", "a&b"); ("end", "1-2")]%string = "category=a%26b&end=1-2&symbol=BTC+USDT".
Proof. vm_compute. reflexivity. Qed.

(** [strings.TrimRight(s, cutset)] of one byte. *)
Fixpoint TrimRight (b : Z) (s : string) : string :=
  match s with
  | EmptyString => EmptyString
  | String c s' => match TrimRight b s' with
      | EmptyString => if is_byte b c then EmptyString else String c EmptyString
      | trimmed => String c trimmed end
  end.

(** ** The client's transport *)
Record URL := mkURL { url_Scheme : string; url_Host : string; url_HasUser : bool; url_Path : string; url_RawQuery : string; url_Fragment : string }.
(** A response: its body is what can be read of it, and the error that ends it
    early. *)
Record Response := mkResponse { resp_StatusCode : Z; resp_Header : Header; resp_Text : string; resp_Broken : option error }.
Class HttpLib := {
  url_Parse : string -> option URL;                (* url.Parse *)
  http_ParseTime : string -> option Time }.        (* http.ParseTime *)
Class HttpClient (W : Type) := {
  http_NewRequest : URL -> option error;           (* http.NewRequestWithContext: GET *)
  http_Do : URL -> Header -> M W Response }.       (* Client.Do *)

(** [io.ReadAll(io.LimitReader(body, n))] *)
Definition ReadLimited (r : Response) (n : Z) : result string :=
  if n <=? 0 then Ok EmptyString
  else if n <=? slen (resp_Text r) then Ok (String.substring 0 (Z.to_nat n) (resp_Text r))
  else match resp_Broken r with Some e => Err e | None => Ok (resp_Text r) end.

(** [time.UnixMilli], [time.Unix(s, 0)] and their inverses. *)
Definition Millisecond : Duration := 1000000.
Definition FromUnixMilli (milliseconds : Z) : Time := (unixToInternal * 1000 + milliseconds) * Millisecond.
Definition FromUnix (seconds : Z) : Time := (unixToInternal + seconds) * Second.
Definition UnixMilli (t : Time) : Z := t / Millisecond - unixToInternal * 1000.
(** [t.Nanosecond()] *)
Definition Nanosecond_of (t : Time) : Z := t mod Second.
Lemma UnixMilli_FromUnixMilli ms : UnixMilli (FromUnixMilli ms) = ms.
Proof. unfold UnixMilli, FromUnixMilli. rewrite Z.div_mul by (unfold Millisecond; lia). lia. Qed.
Lemma Unix_FromUnix s : Unix (FromUnix s) = s.
Proof. unfold Unix, FromUnix. rewrite Z.div_mul by (unfold Second; lia). lia. Qed.
Lemma FromUnixMilli_lt a b : FromUnixMilli a < FromUnixMilli b <-> a < b.
Proof. unfold FromUnixMilli, Millisecond. lia. Qed.

(** * Decimal texts of integers

    [strconv.ParseInt] reads back what [strconv.FormatInt] writes, and the
    prefix of a cursor is cut off again. *)
Lemma pretty_char_digit d : (d < 10)%N -> byte_at (pretty_N_char d) = 48 + Z.of_N d /\ is_digit (pretty_N_char d) = true.
Proof.
  intros H. assert (In d [0; 1; 2; 3; 4; 5; 6; 7; 8; 9]%N) as Hin by (cbn; lia).
  cbn in Hin. repeat destruct Hin as [<-|Hin]; [split; reflexivity.. | done].
Qed.
Lemma pretty_go_digits n s :
  all_digits (pretty_N_go n s) = all_digits s /\ exists k, 0 <= k /\ forall a, digits_value a (pretty_N_go n s) = digits_value (a * 10 ^ k + Z.of_N n) s.
Proof.
  revert s. induction (N.lt_wf_0 n) as [n _ IH]. intros s. destruct (N.eq_dec n 0%N) as [->|Hn].
  - rewrite pretty_N_go_0. split; [reflexivity |]. exists 0. split; [lia |]. intros a. f_equal. lia.
  - rewrite pretty_N_go_step by lia. destruct (IH (n / 10)%N (N.div_lt n 10 ltac:(lia) ltac:(done)) (String (pretty_N_char (n mod 10)%N) s)) as (Hd & k & Hk & Hv).
    destruct (pretty_char_digit (n mod 10)%N) as [Hb Hdig]; [by apply N.mod_lt |]. split.
    + rewrite Hd. cbn [all_digits]. by rewrite Hdig.
    + exists (k + 1). split; [lia |]. intros a. rewrite Hv. cbn [digits_value]. rewrite Hb. f_equal.
      rewrite Z.pow_add_r by lia. pose proof (N.div_mod n 10 ltac:(done)). lia.
Qed.
Lemma pretty_go_length n s k : Z.of_N n < 10 ^ Z.of_nat k -> (String.length (pretty_N_go n s) <= k + String.length s)%nat.
Proof.
  revert n s. induction k as [|k IH]; intros n s H.
  - change (10 ^ Z.of_nat 0) with 1 in H. assert (n = 0)%N as -> by lia. by rewrite pretty_N_go_0.
  - destruct (N.eq_dec n 0%N) as [->|Hn]; [rewrite pretty_N_go_0; lia |]. rewrite pretty_N_go_step by lia.
    rewrite Nat2Z.inj_succ, Z.pow_succ_r in H by lia. specialize (IH (n / 10)%N (String (pretty_N_char (n mod 10)%N) s)). cbn [String.length] in IH.
    enough (Z.of_N (n / 10) < 10 ^ Z.of_nat k) by (specialize (IH ltac:(assumption)); lia).
    rewrite N2Z.inj_div. apply Z.div_lt_upper_bound; lia.
Qed.
Lemma pretty_go_nonempty n s : (0 < n)%N -> exists c t, pretty_N_go n s = String c t /\ is_digit c = true.
Proof.
  revert s. induction (N.lt_wf_0 n) as [n _ IH]. intros s Hn. rewrite pretty_N_go_step by lia.
  destruct (N.eq_dec (n / 10)%N 0%N) as [->|H].
  - rewrite pretty_N_go_0. do 2 eexists. split; [reflexivity |]. apply pretty_char_digit. by apply N.mod_lt.
  - apply IH; [apply N.div_lt; [exact Hn | reflexivity] | by apply N.neq_0_lt_0].
Qed.

Lemma Itoa_nonneg z : 0 <= z -> Itoa z = if z =? 0 then "0"%string else pretty_N_go (Z.to_N z) EmptyString.
Proof.
  intros H. unfold Itoa, pretty, pretty_Z. destruct z as [|p|p]; [reflexivity | | lia].
  cbn [Z.eqb]. change (pretty p) with (pretty_N (N.pos p)). unfold pretty_N. by rewrite decide_False.
Qed.
Lemma ParseInt64_Itoa z : 0 <= z <= int64_max -> ParseInt64 (Itoa z) = Some z.
Proof.
  intros H. rewrite Itoa_nonneg by lia. destruct (Z.eqb_spec z 0) as [->|Hz]; [reflexivity |].
  destruct (pretty_go_digits (Z.to_N z) EmptyString) as (Hd & k & _ & Hv). specialize (Hv 0).
  destruct (pretty_go_nonempty (Z.to_N z) EmptyString) as (c & t & E & Hc); [lia |]. unfold ParseInt64. rewrite E in *.
  assert (is_byte 45 c = false /\ is_byte 43 c = false) as [E1 E2].
  { unfold is_digit, in_range in Hc. unfold is_byte. apply andb_true_iff in Hc as [Hc1%Z.leb_le Hc2%Z.leb_le].
    split; apply Z.eqb_neq; lia. }
  rewrite E1, E2, Hd, Hv. cbn [all_digits String.eqb negb orb digits_value].
  rewrite Z.mul_0_l, Z.add_0_l, Z2N.id by lia.
  replace (z <? int64_min) with false by (symmetry; apply Z.ltb_ge; transitivity 0; [discriminate | lia]).
  replace (int64_max <? z) with false by (symmetry; apply Z.ltb_ge; lia). reflexivity.
Qed.
Lemma ParseInt64_range s v : ParseInt64 s = Some v -> int64_range v.
Proof.
  unfold ParseInt64. destruct (match s with EmptyString => _ | String _ _ => _ end) as [neg digits]. destruct (_ || _); [discriminate |].
  cbv zeta. set (z := if neg then _ else _). destruct (_ || _) eqn:G; [discriminate |]. intros [= <-]. apply orb_false_iff in G as [G1%Z.ltb_ge G2%Z.ltb_ge].
  split; assumption.
Qed.
Lemma Itoa_length z : 0 <= z <= int64_max -> 0 < slen (Itoa z) <= 20.
Proof.
  intros H. rewrite Itoa_nonneg by lia. destruct (Z.eqb_spec z 0) as [->|Hz]; [vm_compute; split; [reflexivity | discriminate] |].
  pose proof (pretty_go_length (Z.to_N z) EmptyString 20) as Hl. destruct (pretty_go_nonempty (Z.to_N z) EmptyString) as (c & t & E & _); [lia |].
  rewrite Z2N.id in Hl by lia. unfold slen. rewrite E in *. cbn [String.length] in *.
  enough (z < 10 ^ Z.of_nat 20) by (specialize (Hl ltac:(assumption)); lia). apply Z.le_lt_trans with int64_max; [lia | reflexivity].
Qed.
Lemma Itoa_inj a b : Itoa a = Itoa b -> a = b.
Proof. apply (inj pretty). Qed.

(** A prefix that was put before a text. *)
Lemma prefix_app p s : String.prefix p (p ++ s) = true.
Proof. induction p as [|c p IH]; cbn; [by destruct s |]. rewrite IH. by destruct (ascii_dec c c). Qed.
Lemma substring_skip p s n : String.substring (String.length p) n (p ++ s) = String.substring 0 n s.
Proof. induction p as [|c p IH]; cbn; [reflexivity | exact IH]. Qed.
Lemma substring_whole s : String.substring 0 (String.length s) s = s.
Proof. induction s as [|c s IH]; cbn; [reflexivity |]. by rewrite IH. Qed.
Lemma TrimPrefix_app p s : TrimPrefix (p ++ s) p = s.
Proof.
  unfold TrimPrefix, HasPrefix. rewrite prefix_app, substring_skip, string_length_app.
  replace (String.length p + String.length s - String.length p)%nat with (String.length s) by lia. apply substring_whole.
Qed.
