(* ===== verification/GoJsonTree.v ===== *)
(** * Package encoding/json: documents, the streaming decoder and structs

    [json.Marshal] of the trees the responses build, [Decoder.Decode] of the
    next value of a stream, and its assignment to the fields of a struct with
    [DisallowUnknownFields]. *)
From S2P Require Import Prelude Errors GoStrings GoJson GoText.
Open Scope go_scope.

(** Numbers keep their literal; the members of an object keep their order. *)
Inductive json :=
  | JNull | JBool (b : bool) | JNumber (literal : string) | JString (s : string)
  | JArray (elements : list json) | JObject (members : list (string * json)).

(** ** Encoding *)
Fixpoint json_text (j : json) : string :=
  match j with
  | JNull => "null"
  | JBool b => FormatBool b
  | JNumber literal => literal
  | JString s => json_string s
  | JArray elements => ("[" ++ String.concat "," (map json_text elements) ++ "]")%string
  | JObject members => ("{" ++ String.concat "," (map (fun m => (json_string (fst m) ++ ":" ++ json_text (snd m))%string) members) ++ "}")%string
  end.
Definition JInt (z : Z) : json := JNumber (Itoa z).
Definition JStrings (values : list string) : json := JArray (map JString values).
Definition JOption {A} (encode : A -> json) (o : option A) : json := match o with Some a => encode a | None => JNull end.
(** [json.Marshal] of a [map[string]string] that is not nil. *)
Definition JStringMap (m : gmap string string) : json := JObject (map (fun kv => (fst kv, JString (snd kv))) (sort_keys (map_to_list m))).

(** ** Reading the next value

    [Got a rest] is a value and what follows it; [Bad] a syntax error; [More]
    an input that ends before the value does. *)
Inductive read (A : Type) := Got (a : A) (rest : string) | Bad | More.
Arguments Got {A} a rest.
Arguments Bad {A}.
Arguments More {A}.
Definition read_bind {A B} (r : read A) (k : A -> string -> read B) : read B :=
  match r with Got a rest => k a rest | Bad => Bad | More => More end.
Notation "'got' a rest <- r ;; k" := (read_bind r (fun a rest => k))
  (at level 100, a name, rest name, r at next level, right associativity) : go_scope.

(** A string literal, after its opening quote, cut off or not. *)
Fixpoint string_incomplete (s : string) : bool :=
  match s with
  | EmptyString => true
  | String c s1 =>
      let b := byte_at c in
      if (b =? 34) || (b <? 32) then false
      else if b =? 92 then
        match s1 with
        | EmptyString => true
        | String e s2 =>
            if existsb (fun n => is_byte n e) [34; 92; 47; 98; 102; 110; 114; 116] then string_incomplete s2
            else if is_byte 117 e then
              match s2 with
              | EmptyString => true
              | String h1 EmptyString => is_hex h1
              | String h1 (String h2 EmptyString) => is_hex h1 && is_hex h2
              | String h1 (String h2 (String h3 EmptyString)) => is_hex h1 && is_hex h2 && is_hex h3
              | String h1 (String h2 (String h3 (String h4 s3))) => is_hex h1 && is_hex h2 && is_hex h3 && is_hex h4 && string_incomplete s3
              end
            else false
        end
      else string_incomplete s1
  end.
Definition lex_string (s : string) : read string :=
  match read_string s with
  | Some (text, rest) => Got text rest
  | None => if string_incomplete s then More else Bad
  end.

(** A literal word; [rest] follows its first letter. *)
Fixpoint lex_word (word : string) (s : string) : read unit :=
  match word with
  | EmptyString => Got tt s
  | String w word' =>
      match s with
      | EmptyString => More
      | String c s' => if is_byte (byte_at w) c then lex_word word' s' else Bad
      end
  end.

(** The digits that a number needs at a place. *)
Definition lex_digits (s : string) : read string :=
  match span_digits s with
  | (EmptyString, EmptyString) => More
  | (EmptyString, _) => Bad
  | (digits, rest) => Got digits rest
  end.
Definition lex_int (s : string) : read string :=
  match s with
  | String c s' => if is_byte 48 c then Got (String c EmptyString) s' else lex_digits s
  | EmptyString => More
  end.
(** A number: its literal. *)
Definition lex_number (s : string) : read string :=
  let '(sign, s) := match s with String c s' => if is_byte 45 c then ("-"%string, s') else (EmptyString, s) | EmptyString => (EmptyString, s) end in
  got int s <- lex_int s ;;
  got frac s <- match s with
    | String c s' => if is_byte 46 c then got digits r <- lex_digits s' ;; Got ("." ++ digits)%string r else Got EmptyString s
    | EmptyString => Got EmptyString s end ;;
  got exp s <- match s with
    | String c s' =>
        if is_byte 101 c || is_byte 69 c then
          let '(mark, s'') := match s' with
            | String c' r => if is_byte 43 c' || is_byte 45 c' then (String c (String c' EmptyString), r) else (String c EmptyString, s')
            | EmptyString => (String c EmptyString, s') end in
          got digits r <- lex_digits s'' ;; Got (mark ++ digits)%string r
        else Got EmptyString s
    | EmptyString => Got EmptyString s end ;;
  Got (sign ++ int ++ frac ++ exp)%string s.

Definition lex_scalar (c : ascii) (r : string) : read json :=
  let b := byte_at c in
  if b =? 34 then got text rest <- lex_string r ;; Got (JString text) rest
  else if (b =? 45) || is_digit c then got literal rest <- lex_number (String c r) ;; Got (JNumber literal) rest
  else if b =? 116 then got _w rest <- lex_word "rue" r ;; Got (JBool true) rest
  else if b =? 102 then got _w rest <- lex_word "alse" r ;; Got (JBool false) rest
  else if b =? 110 then got _w rest <- lex_word "ull" r ;; Got JNull rest
  else Bad.

(** [fuel] bounds the nested calls: each value and each separator consumes a
    byte. *)
Fixpoint read_value (fuel : nat) (depth : Z) (s : string) {struct fuel} : read json :=
  match fuel with
  | O => Bad
  | S fuel =>
      match skip_ws s with
      | EmptyString => More
      | String c r =>
          if is_byte 123 c then
            if maxNestingDepth <? depth + 1 then Bad
            else match skip_ws r with
              | EmptyString => More
              | String c' r' => if is_byte 125 c' then Got (JObject []) r'
                                else got members rest <- read_members fuel (depth + 1) r ;; Got (JObject members) rest
              end
          else if is_byte 91 c then
            if maxNestingDepth <? depth + 1 then Bad
            else match skip_ws r with
              | EmptyString => More
              | String c' r' => if is_byte 93 c' then Got (JArray []) r'
                                else got elements rest <- read_elements fuel (depth + 1) r ;; Got (JArray elements) rest
              end
          else lex_scalar c r
      end
  end
with read_members (fuel : nat) (depth : Z) (s : string) {struct fuel} : read (list (string * json)) :=
  match fuel with
  | O => Bad
  | S fuel =>
      match skip_ws s with
      | EmptyString => More
      | String c r =>
          if negb (is_byte 34 c) then Bad
          else
            got key r1 <- lex_string r ;;
            match skip_ws r1 with
            | EmptyString => More
            | String c1 r2 =>
                if negb (is_byte 58 c1) then Bad
                else
                  got value r3 <- read_value fuel depth r2 ;;
                  match skip_ws r3 with
                  | EmptyString => More
                  | String c3 r4 =>
                      if is_byte 44 c3 then got members r5 <- read_members fuel depth r4 ;; Got ((key, value) :: members) r5
                      else if is_byte 125 c3 then Got [(key, value)] r4 else Bad
                  end
            end
      end
  end
with read_elements (fuel : nat) (depth : Z) (s : string) {struct fuel} : read (list json) :=
  match fuel with
  | O => Bad
  | S fuel =>
      got value r1 <- read_value fuel depth s ;;
      match skip_ws r1 with
      | EmptyString => More
      | String c1 r2 =>
          if is_byte 44 c1 then got elements r3 <- read_elements fuel depth r2 ;; Got (value :: elements) r3
          else if is_byte 93 c1 then Got [value] r2 else Bad
      end
  end.
Definition next_value (s : string) : read json := read_value (json_fuel s) 0 s.

(** The rest of the input holds no other value: [decoder.Decode(&trailing) == io.EOF]. *)
Definition only_space (s : string) : bool := skip_ws s =s EmptyString.

Example next_value_1 :
  next_value (dq " {'a':[1,-2.5e+3,null],'b':'x\n'} 1") = Got (JObject [("a", JArray [JNumber "1"; JNumber "-2.5e+3"; JNull]);
    ("b", JString (String "x" (String (chr 10) EmptyString)))]%string) " 1".
Proof. vm_compute. reflexivity. Qed.
Example next_value_2 :
  map next_value [EmptyString; " "; dq "{'a"; "[1,"; "{a}"; "[1 2]"; "-"; "tru"; "trux"; dq "'\u12"; dq "'\q'"]%string
  = [More; More; More; More; Bad; Bad; More; More; Bad; More; Bad].
Proof. vm_compute. reflexivity. Qed.

(** ** Structs

    A field's decoder is given the value and the struct so far. [Saved] is an
    error that lets decoding go on, the first of them being returned at the
    end; [Fatal] stops it. *)
Inductive decode_error :=
  | TypeError (field : string)   (* [*json.UnmarshalTypeError] with its field path *)
  | OtherDecodeError.
Inductive assigned (A : Type) := Assigned (a : A) | Saved (a : A) (e : decode_error) | Fatal (e : decode_error).
Arguments Assigned {A} a.
Arguments Saved {A} a e.
Arguments Fatal {A} e.
Definition StructFields (A : Type) : Type := list (string * (json -> A -> assigned A)).

(** The folding of names: letters to upper case, and the two runes outside
    ASCII that fold with ASCII letters, U+017F and U+212A. *)
Definition fold_rune (seg : Z * string) : string :=
  let '(r, bytes) := seg in
  if in_range 97 122 r then String (chr (r - 32)) EmptyString
  else if r =? 383 then "S" else if r =? 8490 then "K" else bytes.
Definition foldName (s : string) : string := String.concat EmptyString (map fold_rune (segments s)).
Definition find_field {B} (fields : list (string * B)) (key : string) : option B :=
  match List.find (fun f => fst f =s key) fields with
  | Some f => Some (snd f)
  | None => snd <$> List.find (fun f => foldName (fst f) =s foldName key) fields
  end.
Definition first_decode_error (saved : option decode_error) (e : decode_error) : option decode_error := match saved with Some _ => saved | None => Some e end.

Inductive decoded (A : Type) := Decoded (a : A) | Undecoded (e : decode_error).
Arguments Decoded {A} a.
Arguments Undecoded {A} e.
Fixpoint assign_members {A} (fields : StructFields A) (a : A) (saved : option decode_error) (members : list (string * json)) : decoded A :=
  match members with
  | [] => match saved with Some e => Undecoded e | None => Decoded a end
  | (key, value) :: rest =>
      match find_field fields key with
      | None => assign_members fields a (first_decode_error saved OtherDecodeError) rest
      | Some assign =>
          match assign value a with
          | Assigned a => assign_members fields a saved rest
          | Saved a e => assign_members fields a (first_decode_error saved e) rest
          | Fatal e => Undecoded e
          end
      end
  end.
Definition unmarshal_struct {A} (fields : StructFields A) (a : A) (j : json) : decoded A :=
  match j with
  | JObject members => assign_members fields a None members
  | JNull => Decoded a
  | _ => Undecoded (TypeError EmptyString)
  end.

(** Fields of type [string], [int], [*bool], [*int]: null leaves a string or
    an integer unchanged and clears a pointer. *)
Definition string_field {A} (name : string) (set : string -> A -> A) : string * (json -> A -> assigned A) :=
  (name, fun j a => match j with JString s => Assigned (set s a) | JNull => Assigned a | _ => Saved a (TypeError name) end).
Definition int_field {A} (name : string) (set : Z -> A -> A) : string * (json -> A -> assigned A) :=
  (name, fun j a => match j with
    | JNumber literal => match ParseInt64 literal with Some z => Assigned (set z a) | None => Saved a (TypeError name) end
    | JNull => Assigned a
    | _ => Saved a (TypeError name) end).
Definition bool_pointer_field {A} (name : string) (set : option bool -> A -> A) : string * (json -> A -> assigned A) :=
  (name, fun j a => match j with JBool b => Assigned (set (Some b) a) | JNull => Assigned (set None a) | _ => Saved a (TypeError name) end).
Definition int_pointer_field {A} (name : string) (set : option Z -> A -> A) : string * (json -> A -> assigned A) :=
  (name, fun j a => match j with
    | JNumber literal => match ParseInt64 literal with Some z => Assigned (set (Some z) a) | None => Saved a (TypeError name) end
    | JNull => Assigned (set None a)
    | _ => Saved a (TypeError name) end).

(** A [[]string]: its elements, and the array behind it, which a repeated
    member writes over; a null element leaves the old one. *)
Record Slice := mkSlice { slice_backing : list string; slice_len : nat }.
Definition slice_nil : Slice := mkSlice [] 0.
Definition slice_values (s : Slice) : list string := firstn (slice_len s) (slice_backing s).
Definition set_index (i : nat) (v : string) (l : list string) : list string := firstn i l ++ v :: skipn (S i) l.
(** The elements from index [i] on: the backing array and the first error. *)
Fixpoint assign_elements (name : string) (backing : list string) (i : nat) (saved : option decode_error) (elements : list json) :
    list string * nat * option decode_error :=
  match elements with
  | [] => (backing, i, saved)
  | j :: rest =>
      let old := nth i backing EmptyString in
      let '(v, saved) := match j with
        | JString s => (s, saved) | JNull => (old, saved) | _ => (old, first_decode_error saved (TypeError name)) end in
      assign_elements name (set_index i v backing) (S i) saved rest
  end.
Definition strings_field {A} (name : string) (get : A -> Slice) (set : Slice -> A -> A) : string * (json -> A -> assigned A) :=
  (name, fun j a => match j with
    | JArray [] => Assigned (set slice_nil a)
    | JArray elements =>
        let '(backing, n, saved) := assign_elements name (slice_backing (get a)) 0 None elements in
        let a := set (mkSlice backing n) a in
        match saved with Some e => Saved a e | None => Assigned a end
    | JNull => Assigned (set slice_nil a)
    | _ => Saved a (TypeError name) end).

(** * Package encoding/json: decoding that keeps texts

    [json.Unmarshal] of a document into structs whose fields may be
    [json.RawMessage], [json.Number], nested structs and slices, without
    [DisallowUnknownFields]: a field's decoder is given the text of its value.
    An error that lets decoding go on is only remembered, so a decoder returns
    the value so far and whether an error was met. *)
(** ** The texts inside a document *)
Definition raw_value (s : string) : option (string * string) :=
  let s := skip_ws s in
  match next_value s with Got _ rest => Some (before_rest s rest, rest) | _ => None end.

(** The elements of a valid array, after its bracket, and the members of a
    valid object, after its brace. *)
Fixpoint raw_elements (fuel : nat) (s : string) : list string :=
  match fuel with
  | O => []
  | S fuel =>
      match raw_value s with
      | None => []
      | Some (raw, rest) =>
          raw :: match skip_ws rest with String c r => if is_byte 44 c then raw_elements fuel r else [] | EmptyString => [] end
      end
  end.
Fixpoint raw_members (fuel : nat) (s : string) : list (string * string) :=
  match fuel with
  | O => []
  | S fuel =>
      match skip_ws s with
      | String q s1 =>
          if negb (is_byte 34 q) then []
          else match read_string s1 with
          | None => []
          | Some (key, s2) =>
              match skip_ws s2 with
              | EmptyString => []
              | String _ s3 =>
                  match raw_value s3 with
                  | None => []
                  | Some (raw, rest) =>
                      (key, raw) :: match skip_ws rest with String c r => if is_byte 44 c then raw_members fuel r else [] | EmptyString => [] end
                  end
              end
          end
      | EmptyString => []
      end
  end.
(** The kind of a value, by its first byte. *)
Inductive raw_kind := RawObject (members : list (string * string)) | RawArray (elements : list string) | RawNull | RawScalar.
Definition kind_of (raw : string) : raw_kind :=
  match skip_ws raw with
  | String c r =>
      if is_byte 123 c then RawObject (raw_members (json_fuel r) r)
      else if is_byte 91 c then RawArray (raw_elements (json_fuel r) r)
      else if is_byte 110 c then RawNull else RawScalar
  | EmptyString => RawScalar
  end.

(** ** Structs *)
Definition RawDecoder (A : Type) : Type := string -> A -> A * bool.
Definition RawFields (A : Type) : Type := list (string * RawDecoder A).
Fixpoint decode_members {A} (fields : RawFields A) (a : A) (failed : bool) (members : list (string * string)) : A * bool :=
  match members with
  | [] => (a, failed)
  | (key, raw) :: rest =>
      match find_field fields key with
      | None => decode_members fields a failed rest
      | Some decode => let '(a, f) := decode raw a in decode_members fields a (failed || f) rest
      end
  end.
Definition decode_struct {A} (fields : RawFields A) : RawDecoder A := fun raw a =>
  match kind_of raw with
  | RawObject members => decode_members fields a false members
  | RawNull => (a, false)
  | _ => (a, true)
  end.

(** A field decoded from the tree of its value. *)
Definition tree_field {A} (field : string * (json -> A -> assigned A)) : string * RawDecoder A :=
  (fst field, fun raw a =>
    match next_value raw with
    | Got j _ => match snd field j a with Assigned a => (a, false) | Saved a _ => (a, true) | Fatal _ => (a, true) end
    | _ => (a, true)
    end).
Definition struct_field {A B} (name : string) (fields : RawFields B) (get : A -> B) (set : B -> A -> A) : string * RawDecoder A :=
  (name, fun raw a => let '(b, failed) := decode_struct fields raw (get a) in (set b a, failed)).
(** A [[]json.RawMessage]; null clears it. *)
Definition raws_field {A} (name : string) (set : list string -> A -> A) : string * RawDecoder A :=
  (name, fun raw a => match kind_of raw with
    | RawArray elements => (set elements a, false)
    | RawNull => (set [] a, false)
    | _ => (a, true) end).

(** [json.Unmarshal(data, &a)] *)
Definition Unmarshal {A} (decode : RawDecoder A) (zero : A) (data : string) : option A :=
  match next_value data with
  | Got _ rest => if only_space rest then match decode data zero with (a, false) => Some a | (_, true) => None end else None
  | _ => None
  end.
(** [Decoder.Decode(&a)] of the first value of a text: the rest, or an error. *)
Definition Decode {A} (decode : RawDecoder A) (zero : A) (data : string) : option (A * string) :=
  match raw_value data with
  | Some (raw, rest) => match decode raw zero with (a, false) => Some (a, rest) | (_, true) => None end
  | None => None
  end.

(** ** [json.Number] *)
(** [isValidNumber] *)
Definition valid_number (s : string) : bool := match lex_number s with Got _ EmptyString => true | _ => false end.
(** The value of a number read over [old]. *)
Definition number_of (j : json) (old : string) : option string :=
  match j with
  | JNumber literal => Some literal
  | JString s => if valid_number s then Some s else None
  | JNull => Some old
  | _ => None
  end.
(** [json.Marshal] of a number. *)
Definition JNumeral (n : string) : json := JNumber (if n =s EmptyString then "0"%string else n).

(** A [[]string] of its own. *)
Definition decode_strings : RawDecoder (list string) := fun raw _ =>
  match next_value raw with
  | Got (JArray elements) _ =>
      let '(values, _, saved) := assign_elements EmptyString [] 0 None elements in
      (values, match saved with Some _ => true | None => false end)
  | Got JNull _ => ([], false)
  | _ => ([], true)
  end.

Example raw_1 :
  kind_of (dq " { 'a' : [ 1 , {} ] , 'b': null }") = RawObject [("a", "[ 1 , {} ]"); ("b", "null")]%string
  /\ kind_of (dq "['x,',[],  7 ]") = RawArray [dq "'x,'"; "[]"; "7"]%string.
Proof. vm_compute. auto. Qed.
