(* ===== verification/DomainJson.v ===== *)
(** * internal/domain: the JSON and text forms of the values

    [MarshalJSON] and [UnmarshalJSON] of identities, codes, instants, decimals
    and enumerations: a JSON string, refused for the zero value, and parsed
    back by the type's parser. *)
From S2P Require Import Prelude Errors GoStrings GoTime GoJson External Domain InstrumentOptions GoText GoJsonTree.
Open Scope go_scope.

(** ** instant.go *)
Definition ParseUTCInstant (value : string) : result Time :=
  match ParseRFC3339Nano value with
  | None => Err (Wrap "parse UTC instant" (Plain "parsing time"))
  | Some parsed => NewUTCInstant parsed
  end.
Definition instant_String (instant : Time) : string := if IsZero instant then EmptyString else FormatRFC3339Nano instant.
Definition instant_MarshalJSON (instant : Time) : result json :=
  failif IsZero instant, Plain "marshal UTC instant: zero instant" ;; Ok (JString (instant_String instant)).

(** [json.Unmarshal(data, &text)] of a [string]: null leaves it empty. *)
Definition unmarshal_text (data : string) : result string :=
  match next_value data with
  | Got j rest =>
      failif negb (skip_ws rest =s EmptyString), Plain "invalid character after top-level value" ;;
      match j with JString s => Ok s | JNull => Ok EmptyString | _ => Err (Plain "cannot unmarshal into Go value of type string") end
  | _ => Err (Plain "invalid JSON")
  end.
Definition instant_UnmarshalJSON (data : string) : result Time :=
  text <- wrap "unmarshal UTC instant JSON" (unmarshal_text data) ;;
  ParseUTCInstant text.

(** ** code.go *)
Definition code_MarshalText (code : Code) : result string := failif code_IsZero code, Plain "marshal code: zero code" ;; Ok code.
Definition code_MarshalJSON (code : Code) : result json := text <- code_MarshalText code ;; Ok (JString text).
Definition code_UnmarshalText (data : string) : result Code := ParseCode data.
Definition code_UnmarshalJSON (data : string) : result Code :=
  text <- wrap "unmarshal code JSON" (unmarshal_text data) ;;
  code_UnmarshalText text.

(** ** classification.go, catalog_classification.go and market_data.go *)
Definition marshalStringEnum (value kind : string) : result json :=
  failif value =s EmptyString, Plain ("marshal " ++ kind ++ ": zero value") ;; Ok (JString value).
Definition interval_MarshalJSON (value : string) : result json := marshalStringEnum value "bar interval".
Definition interval_UnmarshalJSON (data : string) : result string :=
  text <- wrap "unmarshal bar interval JSON" (unmarshal_text data) ;; ParseBarInterval text.
Definition assetType_MarshalJSON (value : string) : result json := marshalStringEnum value "asset type".
Definition assetType_UnmarshalJSON (data : string) : result string :=
  text <- wrap "unmarshal asset type JSON" (unmarshal_text data) ;; ParseAssetType text.
Definition instrumentType_MarshalJSON (value : string) : result json := marshalStringEnum value "instrument type".
Definition instrumentType_UnmarshalJSON (data : string) : result string :=
  text <- wrap "unmarshal instrument type JSON" (unmarshal_text data) ;; ParseInstrumentType text.

Definition marshalCatalogEnum (value kind : string) : result json :=
  failif value =s EmptyString, Plain ("marshal " ++ kind ++ ": zero value") ;; Ok (JString value).
Definition unmarshalCatalogEnum (parse : string -> result string) (data : string) : result string :=
  text <- wrap "unmarshal catalog enum JSON" (unmarshal_text data) ;; parse text.
Definition assetStatus_MarshalJSON (value : string) : result json := marshalCatalogEnum value "asset status".
Definition assetStatus_UnmarshalJSON : string -> result string := unmarshalCatalogEnum ParseAssetStatus.
Definition instrumentStatus_MarshalJSON (value : string) : result json := marshalCatalogEnum value "instrument status".
Definition instrumentStatus_UnmarshalJSON : string -> result string := unmarshalCatalogEnum ParseInstrumentStatus.
Definition providerType_MarshalJSON (value : string) : result json := marshalCatalogEnum value "provider type".
Definition providerType_UnmarshalJSON : string -> result string := unmarshalCatalogEnum ParseProviderType.
Definition providerStatus_MarshalJSON (value : string) : result json := marshalCatalogEnum value "provider status".
Definition providerStatus_UnmarshalJSON : string -> result string := unmarshalCatalogEnum ParseProviderStatus.
Definition qualityStatus_MarshalJSON (value : string) : result json := marshalCatalogEnum value "quality status".
Definition qualityStatus_UnmarshalJSON : string -> result string := unmarshalCatalogEnum ParseQualityStatus.

Section Libraries.
Context `{D : DecimalLib} `{U : UUIDLib}.

(** ** values.go *)
Definition ParseDecimal (value : string) : result Decimal :=
  match dec_NewFromString value with None => Err (Wrap "parse decimal" (Plain "can't convert to decimal")) | Some d => Ok d end.
Definition decimal_MarshalJSON (value : Decimal) : result json := Ok (JString (dec_String value)).
Definition decimal_UnmarshalJSON (data : string) : result Decimal :=
  text <- wrap "unmarshal decimal JSON string" (unmarshal_text data) ;;
  ParseDecimal text.

(** ** id.go *)
Definition id_MarshalText (id : ID) : result string := failif id_IsZero id, Plain "marshal ID: zero ID" ;; Ok (uuid_String id).
Definition id_MarshalJSON (id : ID) : result json := text <- id_MarshalText id ;; Ok (JString text).
Definition id_UnmarshalText (value : string) : result ID := ParseID value.
Definition id_UnmarshalJSON (data : string) : result ID :=
  text <- wrap "unmarshal ID JSON" (unmarshal_text data) ;;
  id_UnmarshalText text.
End Libraries.

(** ** The members of the responses *)
(** [json.Marshal] of a struct, from its members in order: the first member
    that cannot be encoded is the error. *)
Fixpoint encode_members (members : list (string * result json)) : result (list (string * json)) :=
  match members with
  | [] => Ok []
  | (name, value) :: rest => v <- value ;; vs <- encode_members rest ;; Ok ((name, v) :: vs)
  end.
Definition encode_struct (members : list (string * result json)) : result json := vs <- encode_members members ;; Ok (JObject vs).
Fixpoint encode_list {A} (encode : A -> result json) (l : list A) : result (list json) :=
  match l with [] => Ok [] | a :: rest => v <- encode a ;; vs <- encode_list encode rest ;; Ok (v :: vs) end.
Definition encode_array {A} (encode : A -> result json) (l : list A) : result json := vs <- encode_list encode l ;; Ok (JArray vs).
Definition encode_option {A} (encode : A -> result json) (o : option A) : result json := match o with Some a => encode a | None => Ok JNull end.
Definition encode_string (s : string) : result json := Ok (JString s).
Definition encode_int (z : Z) : result json := Ok (JInt z).
Definition encode_bool (b : bool) : result json := Ok (JBool b).
