(* ===== verification/HttpCore.v ===== *)
(** * internal/api/httpapi: the protocol components the handlers share

    pagination.go, errors.go, json.go, request_id.go and auth.go: page sizes
    and cursors, the public error envelope, request bodies, request identities,
    and the authentication and permission middlewares. *)
From stdpp Require Import pretty.
From S2P Require Import Prelude Errors GoStrings GoJson External Domain Application Listing InstrumentOptions GoText GoJsonTree.
Open Scope go_scope.

(** ** pagination.go *)
Definition cursorVersion : Z := 1.
Definition maximumEncodedCursorLength : Z := 2048.
Definition maximumCursorValues : Z := 8.
Definition maximumCursorValueLength : Z := 256.

(** [^[a-z0-9][a-z0-9._-]{0,127}$] *)
Definition scope_char (c : ascii) : bool := is_alnum c || existsb (fun n => is_byte n c) [45; 46; 95].
Fixpoint all_scope_chars (s : string) : bool := match s with EmptyString => true | String c s' => scope_char c && all_scope_chars s' end.
Definition cursorScopePattern (s : string) : bool :=
  match s with EmptyString => false | String c s' => is_alnum c && all_scope_chars s' && (slen s' <=? 127) end.

Record PageLimits := mkPageLimits { Default : Z; Maximum : Z }.
Definition limits_Validate (limits : PageLimits) : result unit :=
  failif (Default limits <=? 0) || (Maximum limits <=? 0) || (Maximum limits <? Default limits), Plain "invalid page limits" ;;
  Ok tt.

Definition ParsePageSize (raw : string) (limits : PageLimits) : result Z :=
  limits_Validate limits ;;;
  if raw =s EmptyString then Ok (Default limits)
  else
    let invalid := ValidationError [mkFieldViolation "limit" ("must be an integer between 1 and " ++ Itoa (Maximum limits))%string] in
    match ParseInt64 raw with
    | None => Err invalid
    | Some value => failif (value <=? 0) || (Maximum limits <? value), invalid ;; Ok value
    end.

Record cursorPayload := mkCursorPayload { cur_Version : Z; cur_Scope : string; cur_Values : Slice }.
Definition zeroCursorPayload : cursorPayload := mkCursorPayload 0 EmptyString slice_nil.
Definition cursorPayload_fields : StructFields cursorPayload :=
  [int_field "v" (fun v p => mkCursorPayload v (cur_Scope p) (cur_Values p));
   string_field "scope" (fun s p => mkCursorPayload (cur_Version p) s (cur_Values p));
   strings_field "values" cur_Values (fun vs p => mkCursorPayload (cur_Version p) (cur_Scope p) vs)].
Definition cursorPayload_json (p : cursorPayload) : json :=
  JObject [("v", JInt (cur_Version p)); ("scope", JString (cur_Scope p)); ("values", JStrings (slice_values (cur_Values p)))]%string.

Definition validateCursorPayload (p : cursorPayload) (expectedScope : string) : result unit :=
  let values := slice_values (cur_Values p) in
  failif negb (cur_Version p =? cursorVersion) || negb (cursorScopePattern (cur_Scope p)) || (cur_Scope p <>s expectedScope),
         Plain "invalid cursor version or scope" ;;
  failif (llen values =? 0) || (maximumCursorValues <? llen values), Plain "invalid cursor value count" ;;
  failif existsb (fun v => (v =s EmptyString) || (maximumCursorValueLength <? slen v)) values, Plain "invalid cursor value" ;;
  Ok tt.
Definition invalidCursor : error := ValidationError [mkFieldViolation "cursor" "is invalid or does not match this query"].

Definition EncodeCursor (scope : string) (values : list string) : result string :=
  let payload := mkCursorPayload cursorVersion scope (mkSlice values (length values)) in
  validateCursorPayload payload scope ;;;
  Ok (EncodeToString (json_text (cursorPayload_json payload))).

Definition DecodeCursor (encoded expectedScope : string) (expectedValues : Z) : result (list string) :=
  failif (encoded =s EmptyString) || (maximumEncodedCursorLength <? slen encoded) || (expectedValues <=? 0)
         || (maximumCursorValues <? expectedValues), invalidCursor ;;
  match DecodeString encoded with
  | None => Err invalidCursor
  | Some raw =>
      match next_value raw with
      | Got j rest =>
          match unmarshal_struct cursorPayload_fields zeroCursorPayload j with
          | Undecoded _ => Err invalidCursor
          | Decoded payload =>
              failif negb (only_space rest), invalidCursor ;;
              failif is_err (validateCursorPayload payload expectedScope)
                     || negb (llen (slice_values (cur_Values payload)) =? expectedValues), invalidCursor ;;
              Ok (slice_values (cur_Values payload))
          end
      | _ => Err invalidCursor
      end
  end.

(** ** errors.go *)
Record ErrorBody := mkErrorBody { eb_Code : string; eb_Message : string; eb_Retryable : bool; eb_Details : Details; eb_RequestID : string }.

Definition violation_json (v : FieldViolation) : json := JObject [("field", JString (Field v)); ("reason", JString (Reason v))]%string.
(** The [details] member is omitted when the map is empty. *)
Definition details_member (d : Details) : list (string * json) :=
  match d with
  | NoDetails => []
  | Fields violations => [("details", JObject [("fields", JArray (map violation_json violations))])]%string
  | Detail key value => [("details", JObject [(key, JString value)])]%string
  end.
Definition ErrorEnvelope_json (b : ErrorBody) : json :=
  JObject [("error", JObject ([("code", JString (eb_Code b)); ("message", JString (eb_Message b)); ("retryable", JBool (eb_Retryable b))]
                               ++ details_member (eb_Details b) ++ [("request_id", JString (eb_RequestID b))]))]%string.

Definition statusForCode (code : string) : Z :=
  let is_one := contains_string in
  if is_one [ErrorCodeInvalidArgument; ErrorCodeInvalidTimeRange; ErrorCodeUnsupportedInterval] code then 400
  else if code =s ErrorCodeUnauthenticated then 401
  else if code =s ErrorCodePermissionDenied then 403
  else if is_one [ErrorCodeNotFound; ErrorCodeAssetNotFound; ErrorCodeInstrumentNotFound; ErrorCodeSubscriptionNotFound; ErrorCodeTaskNotFound] code then 404
  else if is_one [ErrorCodeConflict; ErrorCodeSubscriptionAlreadyExists; ErrorCodeTaskStateConflict; ErrorCodeBackfillAlreadyRunning;
                  ErrorCodeManualRetryAlreadyRunning] code then 409
  else if code =s ErrorCodeRateLimited then 429
  else if is_one [ErrorCodeServiceUnavailable; ErrorCodeDatabaseUnavailable] code then 503
  else 500.

(** [errors.As(err, &appError)]: the first application error of the tree. *)
Fixpoint errors_AsApplication (e : error) : option (string * string * bool * Details) :=
  match e with
  | AppErr code message retryable details _ => Some (code, message, retryable, details)
  | Wrap _ e' => errors_AsApplication e'
  | Join e1 e2 => match errors_AsApplication e1 with Some a => Some a | None => errors_AsApplication e2 end
  | ProviderErr _ _ _ _ (Some e') => errors_AsApplication e'
  | _ => None
  end.

Definition internal_body : ErrorBody := mkErrorBody ErrorCodeInternal "internal server error" false NoDetails EmptyString.
Definition classifyError (err : error) : Z * ErrorBody :=
  match errors_AsApplication err with
  | Some (code, message, retryable, details) =>
      if is_err (appError_Validate code message) then (500, internal_body)
      else (statusForCode code, mkErrorBody code message retryable details EmptyString)
  | None =>
      let body code message retryable := mkErrorBody code message retryable NoDetails EmptyString in
      if errors_Is err ErrInvalidData then (400, body ErrorCodeInvalidArgument "invalid request"%string false)
      else if errors_Is err ErrNotFound then (404, body ErrorCodeNotFound "resource not found"%string false)
      else if errors_Is err ErrConflict || errors_Is err ErrReferenceViolation || errors_Is err ErrInvalidState
           then (409, body ErrorCodeConflict "request conflicts with current state"%string false)
      else if errors_Is err ErrDatabaseUnavailable then (503, body ErrorCodeDatabaseUnavailable "database unavailable"%string true)
      else if errors_Is err ErrRetryable then (503, body ErrorCodeServiceUnavailable "service temporarily unavailable"%string true)
      else (500, internal_body)
  end.

(** ** Requests and responses

    A response is committed by its status. Writing to the connection does not fail here. *)
Record ResponseWriter := mkResponseWriter { rw_Header : Header; rw_Status : option Z; rw_Body : string }.
Definition new_response : ResponseWriter := mkResponseWriter ∅ None EmptyString.
Definition SetHeader (w : ResponseWriter) (key value : string) : ResponseWriter :=
  mkResponseWriter (Header_Set (rw_Header w) key value) (rw_Status w) (rw_Body w).
Definition WriteHeader (w : ResponseWriter) (status : Z) : ResponseWriter :=
  mkResponseWriter (rw_Header w) (match rw_Status w with None => Some status | s => s end) (rw_Body w).
Definition Write (w : ResponseWriter) (body : string) : ResponseWriter :=
  mkResponseWriter (rw_Header w) (match rw_Status w with None => Some 200 | s => s end) (rw_Body w ++ body)%string.

Definition newline : string := String (chr 10) EmptyString.
(** [payload] is [json.Marshal]'s outcome. *)
Definition WriteJSON (w : ResponseWriter) (status : Z) (payload : result json) : result ResponseWriter :=
  encoded <- payload ;;
  let w := SetHeader (SetHeader w "Content-Type" "application/json; charset=utf-8") "X-Content-Type-Options" "nosniff" in
  Ok (Write (WriteHeader w status) (json_text encoded ++ newline)%string).

(** What the values of a request's context are, beside the application's. *)
Record HttpContext := mkHttpContext { hc_RequestID : option string; hc_Application : Context }.
Record Request := mkRequest {
  req_Method : string; req_RawQuery : string; req_Header : Header; req_PathValues : gmap string string; req_Body : string;
  req_Context : HttpContext }.
Definition WithContext (r : Request) (ctx : HttpContext) : Request :=
  mkRequest (req_Method r) (req_RawQuery r) (req_Header r) (req_PathValues r) (req_Body r) ctx.
Definition WithHeader (r : Request) (h : Header) : Request :=
  mkRequest (req_Method r) (req_RawQuery r) h (req_PathValues r) (req_Body r) (req_Context r).
Definition PathValue (r : Request) (name : string) : string := default EmptyString (req_PathValues r !! name).

(** ** json.go *)
Definition DefaultMaximumRequestBodyBytes : Z := 1048576.
Inductive body_error := BodyTooLarge | BodyEmpty | BodyType (field : string) | BodyInvalid.
Definition classifyJSONDecodeError (e : body_error) : error :=
  match e with
  | BodyTooLarge => NewError ErrorCodeInvalidArgument "request body exceeds the size limit" false NoDetails
  | BodyEmpty => NewError ErrorCodeInvalidArgument "request body is required" false NoDetails
  | BodyType field =>
      if field <>s EmptyString then ValidationError [mkFieldViolation field "has an invalid JSON type"]
      else WrapError (Plain "decode JSON") ErrorCodeInvalidArgument "request body contains invalid JSON" false NoDetails
  | BodyInvalid => WrapError (Plain "decode JSON") ErrorCodeInvalidArgument "request body contains invalid JSON" false NoDetails
  end.
Definition is_scalar (j : json) : bool := match j with JArray _ | JObject _ => false | _ => true end.

(** The body's first [maximumBytes] bytes are read; asking for more of a longer
    body is an error, and the end of a scalar is only seen at the next byte. *)
Definition DecodeJSON {A} (fields : StructFields A) (zero : A) (body : string) (maximumBytes : Z) : result A :=
  failif maximumBytes <=? 0, Plain "maximum JSON request size must be positive" ;;
  let exceeded := maximumBytes <? slen body in
  let readable := String.substring 0 (Z.to_nat maximumBytes) body in
  let failed e := Err (classifyJSONDecodeError e) in
  match next_value readable with
  | More => failed (if exceeded then BodyTooLarge else if only_space readable then BodyEmpty else BodyInvalid)
  | Bad => failed BodyInvalid
  | Got j rest =>
      if exceeded && is_scalar j && (rest =s EmptyString) then failed BodyTooLarge
      else match unmarshal_struct fields zero j with
        | Undecoded (TypeError field) => failed (BodyType field)
        | Undecoded OtherDecodeError => failed BodyInvalid
        | Decoded a =>
            failif exceeded || negb (only_space rest),
                   NewError ErrorCodeInvalidArgument "request body must contain exactly one JSON value" false NoDetails ;;
            Ok a
        end
  end.

(** ** request_id.go *)
Definition RequestIDHeader : string := "X-Request-ID".
Definition requestIDPrefix : string := "req_".
Definition fallbackRequestID : string := "req_00000000-0000-7000-8000-000000000000".
Definition RequestIDFromContext (ctx : HttpContext) : string := default EmptyString (hc_RequestID ctx).
Section Http.
Context `{U : UUIDLib} {W : Type} (newID : M W ID).

Definition ValidRequestID (value : string) : bool :=
  HasPrefix value requestIDPrefix
  && match ParseID (TrimPrefix value requestIDPrefix) with Ok id => uuid_Version id =? 7 | _ => false end.

Definition defaultRequestID : M W string :=
  id <-- mwrap "generate request ID" (mwrap "generate UUIDv7" newID) ;;
  mret (requestIDPrefix ++ uuid_String id)%string.

Definition requestIDForResponse (request : Request) : M W string :=
  let requestID := RequestIDFromContext (req_Context request) in
  if ValidRequestID requestID then mret requestID
  else mcatch defaultRequestID (fun _ => mret fallbackRequestID).

(** A handler answers every request: its errors are responses. *)
Definition Handler : Type := ResponseWriter -> Request -> M W ResponseWriter.

Definition WriteError (writer : ResponseWriter) (request : Request) (err : error) : M W ResponseWriter :=
  requestID <-- requestIDForResponse request ;;
  let '(status, body) := classifyError err in
  let with_id b := mkErrorBody (eb_Code b) (eb_Message b) (eb_Retryable b) (eb_Details b) requestID in
  let writer := SetHeader writer RequestIDHeader requestID in
  match WriteJSON writer status (Ok (ErrorEnvelope_json (with_id body))) with
  | Ok writer => mret writer
  | _ => mlift (WriteJSON writer 500 (Ok (ErrorEnvelope_json (with_id internal_body))))
  end.

Definition NewRequestIDMiddleware (generator : M W string) (next : Handler) : Handler := fun writer request =>
  let serve requestID :=
    next (SetHeader writer RequestIDHeader requestID)
      (WithContext request (mkHttpContext (Some requestID) (hc_Application (req_Context request)))) in
  let requestID := Header_Get (req_Header request) RequestIDHeader in
  if ValidRequestID requestID then serve requestID
  else
    generated <-- mtry generator ;;
    let failed cause :=
      WriteError writer (WithContext request (mkHttpContext (Some fallbackRequestID) (hc_Application (req_Context request))))
        (WrapError cause ErrorCodeInternal "internal server error" false NoDetails) in
    match generated with
    | Ok requestID => if ValidRequestID requestID then serve requestID else failed (Plain "request ID generator returned invalid value")
    | Err e => failed e
    | Diverge => mlift Diverge
    end.
Definition WithRequestID : Handler -> Handler := NewRequestIDMiddleware defaultRequestID.

(** ** auth.go *)
Class Authenticator := { Authenticator_Authenticate : string -> M W Principal }.
Definition authorizationHeader : string := "Authorization".

Definition writeUnauthenticated (writer : ResponseWriter) (request : Request) : M W ResponseWriter :=
  WriteError (SetHeader writer "WWW-Authenticate" "Bearer") request
    (NewError ErrorCodeUnauthenticated "authentication required" false NoDetails).

Definition bearerToken (request : Request) : result string :=
  match Header_Values (req_Header request) authorizationHeader with
  | [value] =>
      match strings_Fields value with
      | [scheme; token] => failif negb (EqualFold_ascii scheme "Bearer"), Sentinel ErrInvalidCredentials ;; NewBearerToken token
      | _ => Err (Sentinel ErrInvalidCredentials)
      end
  | _ => Err (Sentinel ErrInvalidCredentials)
  end.

Definition NewAuthenticationMiddleware `{A : Authenticator} (next : Handler) : Handler := fun writer request =>
  match bearerToken request with
  | Err _ | Diverge => writeUnauthenticated writer request
  | Ok token =>
      authenticated <-- mtry (Authenticator_Authenticate token) ;;
      match authenticated with
      | Diverge => mlift Diverge
      | Err e =>
          if errors_Is e ErrAuthenticationUnavailable
          then WriteError writer request (NewError ErrorCodeServiceUnavailable "authentication service unavailable" true NoDetails)
          else writeUnauthenticated writer request
      | Ok principal =>
          if is_err (principal_Validate principal) then WriteError writer request (Plain "authenticator returned invalid principal")
          else
            requestID <-- requestIDForResponse request ;;
            match NewAuditContext principal requestID with
            | Ok audit =>
                let ctx := mkHttpContext (Some requestID)
                             (WithAuditContext (WithPrincipal (hc_Application (req_Context request)) principal) audit) in
                next (SetHeader writer RequestIDHeader requestID)
                  (WithContext (WithHeader request (Header_Del (req_Header request) authorizationHeader)) ctx)
            | _ => WriteError writer request (Plain "construct audit context")
            end
      end
  end.

Fixpoint required_permissions (seen : gset string) (permissions : list string) : result unit :=
  match permissions with
  | [] => Ok tt
  | p :: rest =>
      failif negb (permission_Valid p), Plain "invalid required permission" ;;
      failif bool_decide (p ∈ seen), Plain "duplicate required permission" ;;
      required_permissions ({[p]} ∪ seen) rest
  end.
Definition NewPermissionMiddleware (permissions : list string) : result (Handler -> Handler) :=
  match permissions with
  | [] => Err (Plain "at least one permission is required")
  | _ =>
      required_permissions ∅ permissions ;;;
      Ok (fun next writer request =>
        match PrincipalFromContext (hc_Application (req_Context request)) with
        | None => writeUnauthenticated writer request
        | Some principal =>
            if forallb (HasPermission principal) permissions then next writer request
            else WriteError writer request (NewError ErrorCodePermissionDenied "permission denied" false NoDetails)
        end)
  end.

(** [if err != nil { WriteError(writer, request, err); return }] *)
Definition or_error {A} (writer : ResponseWriter) (request : Request) (c : M W A) (k : A -> M W ResponseWriter) : M W ResponseWriter :=
  outcome <-- mtry c ;;
  match outcome with Ok a => k a | Err e => WriteError writer request e | Diverge => mlift Diverge end.
(** [if err := WriteJSON(...); err != nil { WriteError(writer, request, err) }] *)
Definition respond (writer : ResponseWriter) (request : Request) (status : Z) (payload : result json) : M W ResponseWriter :=
  or_error writer request (mlift (WriteJSON writer status payload)) mret.

(** The routes of a [http.ServeMux]: patterns and handlers. *)
Definition Routes : Type := list (string * Handler).
End Http.
#[global] Arguments Handler W : clear implicits.
#[global] Arguments Routes W : clear implicits.
#[global] Arguments Authenticator W : clear implicits.
