(* ===== verification/HttpQueries.v ===== *)
(** * internal/api/httpapi: the public market queries

    bars.go, instrument_options.go, instrument_precision.go, latest_quotes.go
    and public_queries.go: query parameters with their cursors, the use case,
    and the response; the routes that carry no authentication. *)
From S2P Require Import Prelude Errors GoStrings GoTime GoJson External Domain MarketData Application Listing MarketQueries InstrumentOptions GoText GoJsonTree DomainJson HttpCore.
Open Scope go_scope.

(** ** Query parameters *)
Definition malformed_query : error := ValidationError [mkFieldViolation "query" "is malformed"].
Definition parse_query (request : Request) : result Values :=
  match ParseQuery (req_RawQuery request) with None => Err malformed_query | Some values => Ok values end.

(** The keys that are not allowed, sorted. *)
Definition unknown_keys (allowed : list string) (values : Values) : list string :=
  sort_stable String.ltb (List.filter (fun k => negb (contains_string allowed k)) (map fst (map_to_list values))).
Definition validate_query_keys (allowed : list string) (values : Values) : result unit :=
  validated (map (fun k => mkFieldViolation k "is not supported") (unknown_keys allowed values)) tt.
Definition validateBarsQueryKeys : Values -> result unit :=
  validate_query_keys ["instrument_code"; "provider"; "interval"; "start_time"; "end_time"; "limit"; "order"; "cursor"]%string.
Definition validateInstrumentOptionsQueryKeys : Values -> result unit := validate_query_keys ["asset_code"; "enabled"; "limit"; "cursor"]%string.
Definition validateLatestQuotesQueryKeys : Values -> result unit := validate_query_keys ["asset_code"; "instrument_code"; "provider"]%string.

Definition singleQueryValue (values : Values) (field : string) (required : bool) : result string :=
  match values !! field with
  | None => if required then Err (ValidationError [mkFieldViolation field "is required"]) else Ok EmptyString
  | Some [item] => failif item =s EmptyString, ValidationError [mkFieldViolation field "must be provided exactly once with a non-empty value"] ;; Ok item
  | Some _ => Err (ValidationError [mkFieldViolation field "must be provided exactly once with a non-empty value"])
  end.
Definition parseOptionalQueryTime (values : Values) (field : string) : result (option Time) :=
  raw <- singleQueryValue values field false ;;
  if raw =s EmptyString then Ok None
  else match ParseUTCInstant raw with
    | Ok instant => Ok (Some instant)
    | _ => Err (ValidationError [mkFieldViolation field "must be an RFC3339 timestamp"])
    end.

(** ** bars.go *)
Definition barsPath : string := "/api/market-info/v1/bars".
Definition barsCursorScope : string := "bars".
Definition barsPageLimits : PageLimits := mkPageLimits 200 MaximumBarsPageSize.

Definition optionalCursorTime (value : option Time) : string := match value with None => "-" | Some t => FormatRFC3339Nano (UTC t) end.
Definition barsCursorBindings (input : BarsInput) : list string :=
  [bi_InstrumentCode input; bi_ProviderCode input; bi_Interval input; bi_Order input; optionalCursorTime (bi_StartTime input);
   optionalCursorTime (bi_EndTime input)].
(** The bindings against the positions at the same indices. *)
Definition bound_to (bindings positions : list string) : bool := forallb (fun p => fst p =s snd p) (combine bindings positions).
(** [positions[i]] of a list that is long enough. *)
Definition position (i : nat) (positions : list string) : string := nth i positions EmptyString.

Definition with_bars_cursor (input : BarsInput) (cursor : option Time) : BarsInput :=
  mkBarsInput (bi_InstrumentCode input) (bi_ProviderCode input) (bi_Interval input) (bi_StartTime input) (bi_EndTime input) (bi_Order input)
    cursor (bi_Limit input).
Definition parseBarsRequest (request : Request) : result BarsInput :=
  values <- parse_query request ;;
  validateBarsQueryKeys values ;;;
  instrumentCode <- singleQueryValue values "instrument_code" true ;;
  providerCode <- singleQueryValue values "provider" true ;;
  interval <- singleQueryValue values "interval" true ;;
  startTime <- parseOptionalQueryTime values "start_time" ;;
  endTime <- parseOptionalQueryTime values "end_time" ;;
  orderValue <- singleQueryValue values "order" false ;;
  let order := if orderValue =s EmptyString then BarOrderDescending else orderValue in
  limitValue <- singleQueryValue values "limit" false ;;
  limit <- ParsePageSize limitValue barsPageLimits ;;
  let input := mkBarsInput instrumentCode providerCode interval startTime endTime order None limit in
  cursor <- singleQueryValue values "cursor" false ;;
  if cursor =s EmptyString then Ok input
  else
    positions <- DecodeCursor cursor barsCursorScope 7 ;;
    failif negb (bound_to (barsCursorBindings input) positions), invalidCursor ;;
    match ParseUTCInstant (position 6 positions) with
    | Ok instant => Ok (with_bars_cursor input (Some instant))
    | _ => Err invalidCursor
    end.

(** ** instrument_options.go *)
Definition instrumentOptionsPath : string := "/api/market-info/v1/instruments".
Definition instrumentOptionsCursorScope : string := "instruments.enabled".
Definition instrumentOptionsPageLimits : PageLimits := mkPageLimits 50 MaximumInstrumentOptionsPageSize.

Definition parseInstrumentOptionsRequest (request : Request) : result InstrumentOptionsInput :=
  values <- parse_query request ;;
  validateInstrumentOptionsQueryKeys values ;;;
  assetCode <- singleQueryValue values "asset_code" true ;;
  enabled <- singleQueryValue values "enabled" false ;;
  failif (enabled <>s EmptyString) && (enabled <>s "true"), ValidationError [mkFieldViolation "enabled" "only true is supported"] ;;
  limitValue <- singleQueryValue values "limit" false ;;
  limit <- ParsePageSize limitValue instrumentOptionsPageLimits ;;
  cursor <- singleQueryValue values "cursor" false ;;
  if cursor =s EmptyString then Ok (mkInstrumentOptionsInput assetCode EmptyString limit)
  else
    positions <- DecodeCursor cursor instrumentOptionsCursorScope 2 ;;
    failif position 0 positions <>s assetCode, invalidCursor ;;
    Ok (mkInstrumentOptionsInput assetCode (position 1 positions) limit).

(** ** latest_quotes.go *)
Definition latestQuotesPath : string := "/api/market-info/v1/quotes/latest".
Definition parseLatestQuotesRequest (request : Request) : result LatestQuotesInput :=
  values <- parse_query request ;;
  validateLatestQuotesQueryKeys values ;;;
  assetCode <- singleQueryValue values "asset_code" false ;;
  instrumentCode <- singleQueryValue values "instrument_code" false ;;
  providerCode <- singleQueryValue values "provider" false ;;
  Ok (mkLatestQuotesInput assetCode instrumentCode providerCode).

(** ** instrument_precision.go *)
Definition instrumentPrecisionBatchPath : string := "/api/market-info/v1/instruments/precision:batch".
Record instrumentPrecisionBatchRequest := mkInstrumentPrecisionBatchRequest { InstrumentIDs : Slice }.
Definition instrumentPrecisionBatchRequest_fields : StructFields instrumentPrecisionBatchRequest :=
  [strings_field "instrument_ids" InstrumentIDs (fun ids _ => mkInstrumentPrecisionBatchRequest ids)].

(** [next_cursor], null on the last page. *)
Definition cursor_member (cursor : option string) : string * result json := ("next_cursor"%string, encode_option encode_string cursor).
Definition lower_case : string -> string := ToLower.

Section Handlers.
Context `{D : DecimalLib} `{U : UUIDLib} {W : Type}.

(** ** Responses *)
Definition encode_time : Time -> result json := instant_MarshalJSON.
Definition encode_decimal : Decimal -> result json := decimal_MarshalJSON.

Definition barResponse (b : Bar) : result json :=
  encode_struct [("open_time", encode_time (bar_OpenTime b)); ("close_time", encode_time (bar_CloseTime b)); ("open", encode_decimal (bar_OpenPrice b));
    ("high", encode_decimal (bar_HighPrice b)); ("low", encode_decimal (bar_LowPrice b)); ("close", encode_decimal (bar_ClosePrice b));
    ("volume", encode_option encode_decimal (bar_BaseVolume b)); ("quote_volume", encode_option encode_decimal (bar_QuoteVolume b));
    ("trade_count", encode_option encode_int (bar_TradeCount b)); ("revision", encode_int (bar_Revision b)); ("is_closed", encode_bool (bar_IsClosed b));
    ("quality_status", qualityStatus_MarshalJSON (bar_QualityStatus b)); ("provider_updated_at", encode_option encode_time (bar_ProviderUpdatedAt b));
    ("collected_at", encode_time (bar_CollectedAt b))]%string.
Definition barsInstrumentResponse (r : BarsResult) : result json :=
  encode_struct [("instrument_id", id_MarshalJSON (inst_ID (br_Instrument r))); ("instrument_code", code_MarshalJSON (inst_Code (br_Instrument r)));
    ("base_asset_code", code_MarshalJSON (bs_BaseAssetCode (br_Source r)));
    ("quote_asset_code", encode_option code_MarshalJSON (bs_QuoteAssetCode (br_Source r)));
    ("quote_currency", encode_string (bs_QuoteCurrency (br_Source r)))]%string.
Definition barsProviderResponse (r : BarsResult) : result json :=
  encode_struct [("provider_code", code_MarshalJSON (prov_Code (br_Provider r)));
    ("provider_instrument_id", id_MarshalJSON (bs_ProviderInstrumentID (br_Source r)));
    ("provider_instrument_code", code_MarshalJSON (bs_ProviderInstrumentCode (br_Source r)));
    ("provider_symbol", encode_string (bs_ProviderSymbol (br_Source r)))]%string.

(** The cursor of the next page; an error of [EncodeCursor] fails the response. *)
Definition next_cursor (scope : string) (values : list string) (next : option string) : result (option string) :=
  match next with None => Ok None | Some position => cursor <- EncodeCursor scope (values ++ [position]) ;; Ok (Some cursor) end.

Definition barsResponseFromResult (input : BarsInput) (r : BarsResult) : result (result json) :=
  cursor <- next_cursor barsCursorScope (barsCursorBindings input) (instant_String <$> br_NextCursorOpenTime r) ;;
  Ok (encode_struct [("instrument", barsInstrumentResponse r); ("provider", barsProviderResponse r); ("interval", interval_MarshalJSON (br_Interval r));
        ("order", encode_string (br_Order r)); ("bars", encode_array barResponse (br_Bars r)); cursor_member cursor]%string).

Definition providerOptionResponse (p : ProviderOption) : result json :=
  encode_struct [("provider_code", code_MarshalJSON (po_Code p)); ("display_name", encode_string (po_DisplayName p)); ("is_default", encode_bool (po_IsDefault p));
    ("priority", encode_int (po_Priority p)); ("supported_intervals", match po_SupportedIntervals p with [] => Ok JNull | l => encode_array interval_MarshalJSON l end)]%string.
Definition instrumentOptionResponse (o : InstrumentOption) : result json :=
  encode_struct [("instrument_id", id_MarshalJSON (opt_ID o)); ("instrument_code", code_MarshalJSON (opt_Code o)); ("display_name", encode_string (opt_DisplayName o));
    ("providers", encode_array providerOptionResponse (opt_Providers o))]%string.
Definition instrumentOptionsResponseFromPage (assetCode : string) (page : InstrumentOptionsPage) : result (result json) :=
  cursor <- next_cursor instrumentOptionsCursorScope [assetCode] (iop_NextAfterInstrumentCode page) ;;
  Ok (encode_struct [("items", encode_array instrumentOptionResponse (iop_Items page)); cursor_member cursor]%string).

Definition latestQuoteResponse (r : LatestQuoteRecord) : result json :=
  let q := qr_Quote r in
  let decimal := encode_option encode_decimal in
  encode_struct [("instrument_id", id_MarshalJSON (quote_InstrumentID q)); ("instrument_code", code_MarshalJSON (qr_InstrumentCode r));
    ("provider", code_MarshalJSON (qr_ProviderCode r)); ("provider_instrument_id", id_MarshalJSON (quote_ProviderInstrumentID q));
    ("provider_instrument_code", code_MarshalJSON (qr_ProviderInstrumentCode r)); ("provider_symbol", encode_string (qr_ProviderSymbol r));
    ("price", encode_decimal (quote_LastPrice q)); ("bid_price", decimal (quote_BidPrice q)); ("bid_size", decimal (quote_BidSize q));
    ("ask_price", decimal (quote_AskPrice q)); ("ask_size", decimal (quote_AskSize q)); ("open_24h", decimal (quote_Open24H q));
    ("high_24h", decimal (quote_High24H q)); ("low_24h", decimal (quote_Low24H q)); ("base_volume_24h", decimal (quote_BaseVolume24H q));
    ("quote_volume_24h", decimal (quote_QuoteVolume24H q)); ("quote_currency", encode_string (qr_QuoteCurrency r));
    ("market_time", encode_time (quote_MarketTime q)); ("received_at", encode_time (quote_CollectedAt q));
    ("quality_status", qualityStatus_MarshalJSON (quote_QualityStatus q))]%string.
Definition latestQuotesResponseFromResult (r : LatestQuotesResult) : result json :=
  let a := qres_Asset r in
  encode_struct [("asset", encode_struct [("asset_id", id_MarshalJSON (asset_ID a)); ("asset_code", code_MarshalJSON (asset_Code a));
                             ("asset_type", encode_string (lower_case (asset_AssetType a)))]);
    ("quotes", encode_array latestQuoteResponse (qres_Quotes r))]%string.

Definition instrumentPrecisionItemResponse (i : InstrumentPrecisionItem) : result json :=
  encode_struct [("instrument_id", id_MarshalJSON (prec_InstrumentID i)); ("instrument_code", code_MarshalJSON (prec_InstrumentCode i));
    ("price_scale", encode_int (prec_PriceScale i)); ("quantity_scale", encode_int (prec_QuantityScale i)); ("lot_size", encode_decimal (prec_LotSize i));
    ("min_quantity", encode_decimal (prec_MinQuantity i)); ("as_of", encode_time (prec_AsOf i))]%string.
Definition instrumentPrecisionBatchResponseFromResult (r : InstrumentPrecisionResult) : result json :=
  encode_struct [("items", encode_array instrumentPrecisionItemResponse (prec_Items r));
    ("missing_instrument_ids", encode_array id_MarshalJSON (prec_MissingInstrumentIDs r))]%string.

(** ** Handlers over the use cases *)
Class BarsQuery := { BarsQuery_List : BarsInput -> M W BarsResult }.
Class InstrumentOptionsQuery := { InstrumentOptionsQuery_List : InstrumentOptionsInput -> M W InstrumentOptionsPage }.
Class InstrumentPrecisionQuery := { InstrumentPrecisionQuery_Batch : list string -> M W InstrumentPrecisionResult }.
Class LatestQuotesQuery := { LatestQuotesQuery_List : LatestQuotesInput -> M W LatestQuotesResult }.

Context (newID : M W ID).

Definition BarsHandler_ServeHTTP `{Q : BarsQuery} : Handler W := fun writer request =>
  or_error newID writer request (mlift (parseBarsRequest request)) (fun input =>
  or_error newID writer request (BarsQuery_List input) (fun r =>
  or_error newID writer request (mlift (barsResponseFromResult input r)) (fun response =>
  respond newID writer request 200 response))).

Definition InstrumentOptionsHandler_ServeHTTP `{Q : InstrumentOptionsQuery} : Handler W := fun writer request =>
  or_error newID writer request (mlift (parseInstrumentOptionsRequest request)) (fun input =>
  or_error newID writer request (InstrumentOptionsQuery_List input) (fun page =>
  or_error newID writer request (mlift (instrumentOptionsResponseFromPage (io_AssetCode input) page)) (fun response =>
  respond newID writer request 200 response))).

Definition LatestQuotesHandler_ServeHTTP `{Q : LatestQuotesQuery} : Handler W := fun writer request =>
  or_error newID writer request (mlift (parseLatestQuotesRequest request)) (fun input =>
  or_error newID writer request (LatestQuotesQuery_List input) (fun r =>
  respond newID writer request 200 (latestQuotesResponseFromResult r))).

Definition InstrumentPrecisionHandler_ServeHTTP `{Q : InstrumentPrecisionQuery} : Handler W := fun writer request =>
  or_error newID writer request
    (mlift (DecodeJSON instrumentPrecisionBatchRequest_fields (mkInstrumentPrecisionBatchRequest slice_nil) (req_Body request)
              DefaultMaximumRequestBodyBytes)) (fun body =>
  or_error newID writer request (InstrumentPrecisionQuery_Batch (slice_values (InstrumentIDs body))) (fun r =>
  respond newID writer request 200 (instrumentPrecisionBatchResponseFromResult r))).

(** ** public_queries.go *)
Definition RegisterPublicQueryRoutes `{InstrumentOptionsQuery} `{InstrumentPrecisionQuery} `{LatestQuotesQuery} `{BarsQuery} : Routes W :=
  [("GET " ++ instrumentOptionsPath, InstrumentOptionsHandler_ServeHTTP); ("POST " ++ instrumentPrecisionBatchPath, InstrumentPrecisionHandler_ServeHTTP);
   ("GET " ++ latestQuotesPath, LatestQuotesHandler_ServeHTTP); ("GET " ++ barsPath, BarsHandler_ServeHTTP)]%string.
End Handlers.
#[global] Arguments BarsQuery {D} W.
#[global] Arguments InstrumentOptionsQuery W : clear implicits.
#[global] Arguments InstrumentPrecisionQuery {D} W.
#[global] Arguments LatestQuotesQuery {D} W.

(** The use cases of package application behind the handlers. *)
Section Services.
Context `{D : DecimalLib} `{T : TzLib} `{U : UUIDLib} {W : Type} (now : M W Time).
Definition bars_service `{C : !QueryCatalog W} `{R : !BarReader W} : BarsQuery W := {| BarsQuery_List := BarsService_List now |}.
Definition instrument_options_service `{C : !QueryCatalog W} `{R : !InstrumentOptionsReader W} : InstrumentOptionsQuery W :=
  {| InstrumentOptionsQuery_List := InstrumentOptionsService_List now |}.
Definition instrument_precision_service `{C : !QueryCatalog W} : InstrumentPrecisionQuery W := {| InstrumentPrecisionQuery_Batch := Batch now |}.
Definition latest_quotes_service `{C : !QueryCatalog W} `{R : !LatestQuoteReader W} : LatestQuotesQuery W :=
  {| LatestQuotesQuery_List := LatestQuotesService_List now |}.
End Services.
