(* ===== verification/JsonFacts.v ===== *)
(** * Reading back what was encoded: JSON strings and cursors

    The decoder on the text of [json_string], the members of a cursor's
    payload, and the round trips built on them, for texts of ASCII bytes. *)
From S2P Require Import Prelude Errors GoStrings GoTime GoJson GoText GoJsonTree HttpCore.
Open Scope go_scope.

Fixpoint ascii_text (s : string) : bool := match s with EmptyString => true | String c s' => (byte_at c <? 128) && ascii_text s' end.

(** ** String literals *)
Definition escape_char (c : ascii) : string := escape_rune (byte_at c, String c EmptyString).
Fixpoint escape_text (s : string) : string := match s with EmptyString => EmptyString | String c s' => (escape_char c ++ escape_text s')%string end.

Lemma append_nil_r s : (s ++ EmptyString)%string = s.
Proof. induction s; simpl; congruence. Qed.
Lemma concat_empty_cons s l : String.concat EmptyString (s :: l) = (s ++ String.concat EmptyString l)%string.
Proof. destruct l; simpl; [by rewrite append_nil_r | reflexivity]. Qed.

Lemma segments_ascii c s : (byte_at c <? 128) = true -> segments (String c s) = (byte_at c, String c EmptyString) :: segments s.
Proof.
  intros H. unfold segments. cbn [segments_from DecodeRune]. rewrite H. cbn [String.substring]. by destruct s.
Qed.
Lemma json_string_ascii s : ascii_text s = true -> json_string s = (quote ++ escape_text s ++ quote)%string.
Proof.
  intros H. unfold json_string. f_equal. f_equal.
  induction s as [|c s IH]; [reflexivity |]. cbn [ascii_text] in H. apply andb_true_iff in H as [Hc Hs].
  rewrite segments_ascii by exact Hc. cbn [map]. rewrite concat_empty_cons, IH by exact Hs. reflexivity.
Qed.

(** One character, by cases on its bits. *)
Lemma scan_escape_char c rest : (byte_at c <? 128) = true -> scan_string (escape_char c ++ rest) = scan_string rest.
Proof. destruct c as [[] [] [] [] [] [] [] []]; first [discriminate | reflexivity]. Qed.
Lemma unquote_escape_char c rest : (byte_at c <? 128) = true -> unquote 0 (escape_char c ++ rest) = String c (unquote 0 rest).
Proof. destruct c as [[] [] [] [] [] [] [] []]; first [discriminate | reflexivity]. Qed.

Lemma scan_escape_text s tail : ascii_text s = true -> scan_string (escape_text s ++ quote ++ tail) = Some tail.
Proof.
  induction s as [|c s IH]; intros H; [reflexivity |]. cbn [ascii_text escape_text] in *. apply andb_true_iff in H as [Hc Hs].
  rewrite string_app_assoc, scan_escape_char by exact Hc. by apply IH.
Qed.
Lemma unquote_escape_text s : ascii_text s = true -> unquote 0 (escape_text s) = s.
Proof.
  induction s as [|c s IH]; intros H; [reflexivity |]. cbn [ascii_text escape_text] in *. apply andb_true_iff in H as [Hc Hs].
  rewrite unquote_escape_char by exact Hc. by rewrite IH.
Qed.

Lemma substring_prefix a b : String.substring 0 (String.length a) (a ++ b) = a.
Proof. induction a as [|c a IH]; [by destruct b |]. cbn. by rewrite IH. Qed.

Lemma lex_escaped s tail : ascii_text s = true -> lex_string (escape_text s ++ quote ++ tail) = Got s tail.
Proof.
  intros H. unfold lex_string, read_string. rewrite scan_escape_text by exact H. cbv zeta.
  replace (before_rest _ tail) with (escape_text s ++ quote)%string.
  - rewrite string_length_app, Nat.add_sub, substring_prefix, unquote_escape_text by exact H. reflexivity.
  - unfold before_rest. rewrite <- string_app_assoc, (string_length_app _ tail), Nat.add_sub. by rewrite substring_prefix.
Qed.

Lemma json_string_app s tail : ascii_text s = true -> (json_string s ++ tail)%string = String (chr 34) (escape_text s ++ quote ++ tail).
Proof. intros H. rewrite json_string_ascii by exact H. cbn. by rewrite string_app_assoc. Qed.

Lemma read_value_quote fuel depth r :
  read_value (S fuel) depth (String (chr 34) r) = read_bind (lex_string r) (fun text rest => Got (JString text) rest).
Proof. reflexivity. Qed.
(** A string is read back wherever a value is expected. *)
Lemma read_json_string fuel depth s tail : ascii_text s = true -> read_value (S fuel) depth (json_string s ++ tail) = Got (JString s) tail.
Proof.
  intros H. rewrite json_string_app by exact H. rewrite read_value_quote, lex_escaped by exact H. reflexivity.
Qed.

Lemma skip_ws_comma s : skip_ws ("," ++ s) = String (chr 44) s.
Proof. reflexivity. Qed.
Lemma read_elements_S fuel depth s :
  read_elements (S fuel) depth s =
    read_bind (read_value fuel depth s) (fun value r1 =>
      match skip_ws r1 with
      | EmptyString => More
      | String c1 r2 =>
          if is_byte 44 c1 then read_bind (read_elements fuel depth r2) (fun elements r3 => Got (value :: elements) r3)
          else if is_byte 93 c1 then Got [value] r2 else Bad
      end).
Proof. reflexivity. Qed.
Lemma read_json_strings fuel depth values rest :
  values <> [] -> forallb ascii_text values = true -> (length values < fuel)%nat ->
  read_elements fuel depth (String.concat "," (map (fun v => json_text (JString v)) values) ++ "]" ++ rest) = Got (map JString values) rest.
Proof.
  revert fuel. induction values as [|v values IH]; intros fuel Hne Ha Hf; [done |]. cbn [forallb length] in *.
  apply andb_true_iff in Ha as [Hv Ha]. destruct fuel as [|[|fuel]]; [lia | lia |]. destruct values as [|v' values].
  - cbn [map String.concat json_text]. rewrite read_elements_S, read_json_string by exact Hv. reflexivity.
  - change (String.concat "," (map (fun v => json_text (JString v)) (v :: v' :: values)))
      with (json_string v ++ "," ++ String.concat "," (map (fun v => json_text (JString v)) (v' :: values)))%string.
    rewrite !string_app_assoc, read_elements_S, read_json_string by exact Hv. cbn [read_bind].
    rewrite skip_ws_comma. change (is_byte 44 (chr 44)) with true. cbv iota.
    rewrite IH; [reflexivity | done | exact Ha | cbn in *; lia].
Qed.

(** ** Members and the payload of a cursor *)
Lemma read_member fuel depth key rest : ascii_text key = true ->
  read_members (S fuel) depth (json_string key ++ ":" ++ rest) =
    read_bind (read_value fuel depth rest) (fun value r3 =>
      match skip_ws r3 with
      | EmptyString => More
      | String c3 r4 =>
          if is_byte 44 c3 then read_bind (read_members fuel depth r4) (fun members r5 => Got ((key, value) :: members) r5)
          else if is_byte 125 c3 then Got [(key, value)] r4 else Bad
      end).
Proof.
  intros H. rewrite json_string_app by exact H.
  transitivity (read_bind (lex_string (escape_text key ++ quote ++ ":" ++ rest)) (fun key r1 =>
    match skip_ws r1 with
    | EmptyString => More
    | String c1 r2 =>
        if negb (is_byte 58 c1) then Bad
        else read_bind (read_value fuel depth r2) (fun value r3 =>
          match skip_ws r3 with
          | EmptyString => More
          | String c3 r4 =>
              if is_byte 44 c3 then read_bind (read_members fuel depth r4) (fun members r5 => Got ((key, value) :: members) r5)
              else if is_byte 125 c3 then Got [(key, value)] r4 else Bad
          end)
    end)); [reflexivity |].
  rewrite lex_escaped by exact H. reflexivity.
Qed.
Lemma skip_ws_brace s : skip_ws ("}" ++ s) = String (chr 125) s.
Proof. reflexivity. Qed.
Lemma read_one fuel depth s : read_value (S fuel) depth ("1" ++ "," ++ s) = Got (JNumber "1") ("," ++ s).
Proof. reflexivity. Qed.
Lemma read_array_elements fuel depth values rest :
  values <> [] -> forallb ascii_text values = true -> (depth < maxNestingDepth) -> (length values < fuel)%nat ->
  read_value (S fuel) depth ("[" ++ String.concat "," (map (fun v => json_text (JString v)) values) ++ "]" ++ rest)
    = Got (JArray (map JString values)) rest.
Proof.
  intros Hne Ha Hd Hf.
  assert (exists t, (String.concat "," (map (fun v => json_text (JString v)) values) ++ "]" ++ rest)%string = String (chr 34) t) as [t Et].
  { destruct values as [|v [|v' values]]; [done | |]; cbn [forallb] in Ha; apply andb_true_iff in Ha as [Hv _]; cbn [map String.concat json_text].
    - rewrite json_string_app by exact Hv. eauto.
    - rewrite string_app_assoc, json_string_app by exact Hv. eauto. }
  transitivity (if maxNestingDepth <? depth + 1 then Bad else
    read_bind (read_elements fuel (depth + 1) (String (chr 34) t)) (fun elements rest => Got (JArray elements) rest)).
  { rewrite Et. reflexivity. }
  assert ((maxNestingDepth <? depth + 1) = false) as -> by (apply Z.ltb_ge; lia).
  rewrite <- Et, read_json_strings by assumption. reflexivity.
Qed.

Definition payload_tree (scope : string) (values : list string) : json :=
  JObject [("v", JNumber "1"); ("scope", JString scope); ("values", JArray (map JString values))]%string.
Lemma payload_text scope values :
  json_text (payload_tree scope values) =
    ("{" ++ json_string "v" ++ ":" ++ "1" ++ "," ++ json_string "scope" ++ ":" ++ json_string scope ++ "," ++ json_string "values" ++ ":"
     ++ "[" ++ String.concat "," (map (fun v => json_text (JString v)) values) ++ "]" ++ "}")%string.
Proof.
  unfold payload_tree. cbn [json_text map fst snd String.concat]. rewrite !string_app_assoc, map_map. reflexivity.
Qed.
Lemma read_object fuel depth s : (depth < maxNestingDepth) ->
  read_value (S fuel) depth ("{" ++ json_string "v" ++ s)
    = read_bind (read_members fuel (depth + 1) (json_string "v" ++ s)) (fun members rest => Got (JObject members) rest).
Proof.
  intros H. transitivity (if maxNestingDepth <? depth + 1 then Bad else
    read_bind (read_members fuel (depth + 1) (json_string "v" ++ s)) (fun members rest => Got (JObject members) rest)); [reflexivity |].
  by assert ((maxNestingDepth <? depth + 1) = false) as -> by (apply Z.ltb_ge; lia).
Qed.
Lemma read_payload fuel scope values :
  values <> [] -> ascii_text scope = true -> forallb ascii_text values = true -> (length values + 5 < fuel)%nat ->
  read_value fuel 0 (json_text (payload_tree scope values)) = Got (payload_tree scope values) EmptyString.
Proof.
  intros Hne Hs Ha Hf. destruct fuel as [|[|[|[|[|fuel]]]]]; [lia.. |]. rewrite payload_text.
  rewrite read_object by reflexivity. rewrite read_member by reflexivity. rewrite read_one. cbn [read_bind]. rewrite skip_ws_comma.
  change (is_byte 44 (chr 44)) with true. cbv iota.
  rewrite read_member by reflexivity. rewrite read_json_string by exact Hs. cbn [read_bind]. rewrite skip_ws_comma.
  change (is_byte 44 (chr 44)) with true. cbv iota.
  rewrite read_member by reflexivity. rewrite read_array_elements by (first [assumption | reflexivity | lia]). reflexivity.
Qed.

(** * RFC 3339: parsing what was formatted

    [time.Parse(RFC3339Nano, t.Format(RFC3339Nano))] is [t] for the instants of
    the years 0 to 9999. *)
(** ** The last day of a month *)
Lemma is_leap_era y era : is_leap (y + era * 400) = is_leap y.
Proof.
  unfold is_leap. replace (y + era * 400) with (y + era * 100 * 4) at 1 by lia. rewrite Z_mod_plus_full.
  replace (y + era * 400) with (y + era * 4 * 100) at 1 by lia. by rewrite !Z_mod_plus_full.
Qed.
Lemma doy_max doe : 0 <= doe < 146097 -> doe - year_start (yoe_of doe) <= 365.
Proof. intros H. pose proof (yoe_of_range _ H). unfold yoe_of, year_start in *. Z.div_mod_to_equations. lia. Qed.
Definition leap_checked (yoe : Z) : bool := implb (yoe_of (year_start yoe + 365) =? yoe) (is_leap (yoe + 1)).
Lemma leap_day yoe : 0 <= yoe < 400 -> yoe_of (year_start yoe + 365) = yoe -> is_leap (yoe + 1) = true.
Proof.
  intros H E. assert (forallb leap_checked (map Z.of_nat (seq 0 400)) = true) as Hall by (vm_compute; reflexivity).
  rewrite forallb_forall in Hall. specialize (Hall yoe). unfold leap_checked in Hall. apply Z.eqb_eq in E. rewrite E in Hall. apply Hall.
  apply in_map_iff. exists (Z.to_nat yoe). split; [lia |]. apply in_seq. lia.
Qed.

#[local] Transparent civil_from_days.
Lemma civil_day_in_month z : let '(y, m, d) := civil_from_days z in 1 <= m <= 12 /\ 1 <= d <= daysIn m y.
Proof.
  pose proof (civil_from_days_range z) as Hr. destruct (civil_from_days z) as [[y m] d] eqn:E. destruct Hr as (Hm & Hd & _).
  split; [exact Hm |]. split; [lia |]. unfold civil_from_days in E. cbv zeta in E.
  pose proof (Z.mod_pos_bound (z + 306) 146097 ltac:(lia)) as Hdoe. set (doe := (z + 306) mod 146097) in *.
  pose proof (yoe_of_range doe Hdoe) as Hyoe. pose proof (doy_max doe Hdoe) as Hdoy. pose proof (doy_range doe Hdoe) as [Hdoy0 _].
  fold (yoe_of doe) in E. fold (year_start (yoe_of doe)) in E.
  assert (doe = year_start (yoe_of doe) + (doe - year_start (yoe_of doe))) as Edoe by lia.
  set (yoe := yoe_of doe) in *. set (doy := doe - year_start yoe) in *. set (mp := (5 * doy + 2) / 153) in *.
  assert (0 <= mp <= 11) as Hmp by (subst mp; Z.div_mod_to_equations; lia).
  injection E as Ey Em Ed. rewrite <- Ed. clear Ed Hd.
  destruct (Z.eq_dec mp 11) as [E11|N11].
  - rewrite E11 in Em, Ey |- *. cbn in Em, Ey. change (if 11 - 9 <=? 2 then 1 else 0) with 1 in Ey. assert (y = (yoe + 1) + (z + 306) / 146097 * 400) as -> by lia. rewrite <- Em.
    change (11 - 9) with 2.
    change (daysIn 2 ?y) with (if is_leap y then 29 else 28). rewrite is_leap_era.
    change ((153 * 11 + 2) / 5) with 337. destruct (is_leap (yoe + 1)) eqn:El; [lia |].
    destruct (Z.eq_dec doy 365) as [E365|]; [| lia]. exfalso.
    rewrite (leap_day yoe) in El; [discriminate | lia |]. rewrite <- E365, <- Edoe. reflexivity.
  - assert (doy < (153 * (mp + 1) + 2) / 5) as Hlt by (clear -Hdoy0; subst mp; Z.div_mod_to_equations; lia).
    clear - Em Hlt Hmp N11. clearbody mp doy.
    assert (mp = 0 \/ mp = 1 \/ mp = 2 \/ mp = 3 \/ mp = 4 \/ mp = 5 \/ mp = 6 \/ mp = 7 \/ mp = 8 \/ mp = 9 \/ mp = 10) as Hc by lia.
    decompose [or] Hc; subst mp; cbn in Em; rewrite <- Em;
      match type of Hlt with _ < ?x => let v := eval vm_compute in x in change x with v in Hlt end;
      match goal with |- _ - ?a + 1 <= ?b => let va := eval vm_compute in a in change a with va; let vb := eval vm_compute in b in change b with vb end;
      lia.
Qed.
#[local] Opaque civil_from_days.

(** ** Digits *)
Definition digit_char (n : Z) : ascii := ascii_of_N (Z.to_N (48 + n mod 10)).
Lemma digit_string n : digit n = String (digit_char n) EmptyString.
Proof. reflexivity. Qed.
Lemma byte_digit_char n : byte_at (digit_char n) = 48 + n mod 10.
Proof.
  unfold byte_at, digit_char. pose proof (Z.mod_pos_bound n 10 ltac:(lia)). rewrite N_ascii_embedding by lia. lia.
Qed.
Lemma is_digit_char n : is_digit (digit_char n) = true.
Proof. unfold is_digit, in_range. rewrite byte_digit_char. pose proof (Z.mod_pos_bound n 10 ltac:(lia)). apply andb_true_iff. split; apply Z.leb_le; lia. Qed.
Lemma digit_value_char n : digit_value (digit_char n) = n mod 10.
Proof. unfold digit_value. rewrite byte_digit_char. lia. Qed.

Lemma getnum_pad2 fixed n rest : 0 <= n < 100 -> getnum fixed (pad2 n ++ rest) = Some (n, rest).
Proof.
  intros H. change (pad2 n ++ rest)%string with (String (digit_char (n / 10)) (String (digit_char n) rest)).
  cbn [getnum]. rewrite !is_digit_char. cbn [negb]. rewrite !digit_value_char. do 2 f_equal. Z.div_mod_to_equations. lia.
Qed.
Lemma getyear_pad4 n rest : 0 <= n < 10000 -> getyear (pad4 n ++ rest) = Some (n, rest).
Proof.
  intros H. change (pad4 n ++ rest)%string
    with (String (digit_char (n / 100 / 10)) (String (digit_char (n / 100)) (String (digit_char (n / 10)) (String (digit_char n) rest)))).
  cbn [getyear]. cbv zeta. cbn [all_digits]. rewrite !is_digit_char. cbn [andb digits_value]. rewrite !byte_digit_char.
  do 2 f_equal. Z.div_mod_to_equations. lia.
Qed.

(** ** The fraction *)
Fixpoint string_of_digits (l : list ascii) : string := match l with [] => EmptyString | c :: l' => String c (string_of_digits l') end.
Lemma trim_zeros_app l : exists k, l = repeat (digit_char 0) k ++ trim_zeros_rev l.
Proof.
  induction l as [|c l [k IH]]; [by exists 0%nat |]. cbn [trim_zeros_rev]. destruct (byte_at c =? 48) eqn:E.
  - exists (S k). cbn [repeat app]. f_equal; [| exact IH]. apply Z.eqb_eq in E. rewrite <- (chr_byte_at c 48) by (symmetry; exact E). reflexivity.
  - by exists 0%nat.
Qed.
Lemma digits_value_app s t acc : digits_value acc (s ++ t) = digits_value (digits_value acc s) t.
Proof. revert acc. induction s as [|c s IH]; intros acc; [reflexivity | apply IH]. Qed.
Lemma digits_value_zeros k acc : digits_value acc (string_of_list_ascii (repeat (digit_char 0) k)) = acc * 10 ^ Z.of_nat k.
Proof.
  revert acc. induction k as [|k IH]; intros acc; cbn [repeat string_of_list_ascii digits_value]; [lia |]. rewrite IH.
  rewrite Nat2Z.inj_succ, Z.pow_succ_r by lia. change (byte_at (digit_char 0)) with 48. lia.
Qed.
Lemma string_of_list_app l1 l2 : string_of_list_ascii (l1 ++ l2) = (string_of_list_ascii l1 ++ string_of_list_ascii l2)%string.
Proof. induction l1; simpl; congruence. Qed.
Lemma string_of_list_length l : String.length (string_of_list_ascii l) = length l.
Proof. induction l; simpl; congruence. Qed.
Lemma span_digits_app s c rest : all_digits s = true -> is_digit c = false -> span_digits (s ++ String c rest) = (s, String c rest).
Proof.
  intros H Hc. induction s as [|d s IH]; cbn [append span_digits]; [by rewrite Hc |]. cbn [all_digits] in H. apply andb_true_iff in H as [Hd Hs].
  by rewrite Hd, IH.
Qed.
Lemma all_digits_app s t : all_digits (s ++ t) = all_digits s && all_digits t.
Proof. induction s as [|c s IH]; cbn; [reflexivity |]. by rewrite IH, andb_assoc. Qed.
Lemma substring_all n s : (String.length s <= n)%nat -> String.substring 0 n s = s.
Proof. revert n. induction s as [|c s IH]; intros [|n] H; cbn in *; [reflexivity.. | lia |]. by rewrite IH by lia. Qed.

Lemma pad9_digits ns : 0 <= ns < 1000000000 -> all_digits (pad9 ns) = true /\ digits_value 0 (pad9 ns) = ns /\ String.length (pad9 ns) = 9%nat.
Proof.
  intros H. unfold pad9, pad3, pad2. rewrite !digit_string. cbn [append all_digits digits_value String.length].
  rewrite !is_digit_char, !byte_digit_char. split; [reflexivity |]. split; [| reflexivity]. Z.div_mod_to_equations. lia.
Qed.
Lemma getfraction_nano ns : 0 <= ns < 1000000000 -> getfraction (nano_fraction ns ++ "Z") = (ns, "Z"%string).
Proof.
  intros H. unfold nano_fraction. destruct (ns =? 0) eqn:E; [apply Z.eqb_eq in E; subst; reflexivity |]. apply Z.eqb_neq in E.
  destruct (pad9_digits ns H) as (Hd & Hv & Hl). set (p := list_ascii_of_string (pad9 ns)) in *.
  destruct (trim_zeros_app (rev p)) as [k Hk]. set (trimmed := rev (trim_zeros_rev (rev p))) in *.
  assert (p = trimmed ++ repeat (digit_char 0) k) as Ep.
  { rewrite <- (rev_involutive p), Hk, rev_app_distr. fold trimmed. f_equal. clear. induction k as [|k IH]; [reflexivity |]. cbn. rewrite IH.
    clear. induction k as [|k IH]; [reflexivity |]. cbn. by rewrite <- IH. }
  assert (pad9 ns = string_of_list_ascii trimmed ++ string_of_list_ascii (repeat (digit_char 0) k))%string as E9.
  { rewrite <- string_of_list_app, <- Ep. subst p. by rewrite string_of_list_ascii_of_string. }
  rewrite E9 in Hd, Hv, Hl. rewrite all_digits_app in Hd. apply andb_true_iff in Hd as [Hd _]. rewrite digits_value_app, digits_value_zeros in Hv.
  rewrite string_length_app, (string_of_list_length (repeat _ _)), repeat_length in Hl.
  set (t := string_of_list_ascii trimmed) in *. rewrite string_app_assoc. cbn [append getfraction is_byte]. change (is_byte 46 "." || is_byte 44 ".") with true. cbv iota.
  rewrite span_digits_app by (exact Hd || reflexivity). destruct t as [|c t'] eqn:Et; [cbn in Hv; lia |]. rewrite <- Et in *. clearbody t.
  rewrite (substring_all 9 t) by lia. do 2 f_equal. replace (9 - slen t) with (Z.of_nat k); [exact Hv |]. unfold slen. lia.
Qed.

(** ** The whole text *)
Definition four_digit_year (t : Time) : Prop := let '(y, _, _) := CivilDate_UTC t in 0 <= y <= 9999.
Lemma daysIn_le m y : daysIn m y <= 31.
Proof. unfold daysIn. repeat match goal with |- context [if ?b then _ else _] => destruct b end; lia. Qed.
Lemma parse_formatted t : four_digit_year t -> ParseRFC3339Nano (FormatRFC3339Nano t) = Some t.
Proof.
  unfold four_digit_year, CivilDate_UTC, FormatRFC3339Nano. cbv zeta. set (s := t / Second). set (day := s / seconds_per_day).
  pose proof (civil_day_in_month day) as Hd. pose proof (days_from_civil_from_days day) as Hday.
  destruct (civil_from_days day) as [[y m] d]. intros Hy. destruct Hd as [Hm Hd].
  pose proof (Z.mod_pos_bound s seconds_per_day ltac:(reflexivity)) as Hsod. pose proof (Z.mod_pos_bound t Second ltac:(reflexivity)) as Hns.
  pose proof (Z_div_mod_eq_full s seconds_per_day) as Es. pose proof (Z_div_mod_eq_full t Second) as Et. fold s in Et. fold day in Es.
  set (sod := s mod seconds_per_day) in *. set (ns := t mod Second) in *. clearbody sod ns day s. unfold seconds_per_day, Second in *.
  assert (d < 100) as Hd100 by (pose proof (daysIn_le m y); lia).
  unfold ParseRFC3339Nano. rewrite getyear_pad4 by lia. change (skip_byte 45 ("-" ++ ?r)) with (Some r). cbv iota beta.
  rewrite getnum_pad2 by lia. cbv iota beta. replace ((m <=? 0) || (12 <? m)) with false by (symmetry; apply orb_false_iff; split; lia).
  change (skip_byte 45 ("-" ++ ?r)) with (Some r). cbv iota beta. rewrite getnum_pad2 by lia. cbv iota beta.
  change (skip_byte 84 ("T" ++ ?r)) with (Some r). cbv iota beta. rewrite getnum_pad2 by (Z.div_mod_to_equations; lia). cbv iota beta.
  replace (24 <=? sod / 3600) with false by (symmetry; apply Z.leb_gt; Z.div_mod_to_equations; lia).
  change (skip_byte 58 (":" ++ ?r)) with (Some r). cbv iota beta. rewrite getnum_pad2 by (Z.div_mod_to_equations; lia). cbv iota beta.
  replace (60 <=? sod / 60 mod 60) with false by (symmetry; apply Z.leb_gt; Z.div_mod_to_equations; lia).
  change (skip_byte 58 (":" ++ ?r)) with (Some r). cbv iota beta. rewrite getnum_pad2 by (Z.div_mod_to_equations; lia). cbv iota beta.
  replace (60 <=? sod mod 60) with false by (symmetry; apply Z.leb_gt; Z.div_mod_to_equations; lia).
  rewrite getfraction_nano by lia. change (getzone "Z") with (Some (0, EmptyString)). cbv iota beta. cbn [negb String.eqb].
  replace ((d <? 1) || (daysIn m y <? d)) with false by (symmetry; apply orb_false_iff; split; lia).
  f_equal. unfold date_seconds. rewrite norm_month_id by lia. rewrite Hday. unfold seconds_per_day, Second. Z.div_mod_to_equations. lia.
Qed.
