(* ===== verification/HttpManagement.v ===== *)
(** * internal/api/httpapi: the authenticated management interface

    subscriptions.go, ingestion_queries.go, ingestion_commands.go, backfills.go
    and provider_status.go: the requests, the use cases behind them and their
    responses, on routes that require an authenticated principal with a
    permission. *)
From S2P Require Import Prelude Errors GoStrings GoTime GoJson External Domain MarketData CatchUp Ingestion ManualTasks Application Listing Subscriptions IngestionQueries InstrumentOptions ProviderStatus GoText GoJsonTree DomainJson HttpCore HttpQueries.
Open Scope go_scope.

(** [timeValue]: a [UTCInstant] under its JSON contract. *)
Definition requiredTimeValue (value : Time) : result Time := NewUTCInstant value.
Definition optionalTimeValue (value : option Time) : option Time :=
  match value with Some t => if is_ok (requiredTimeValue t) then Some t else None | None => None end.
Definition timeScopeValue (value : option Time) : string := match value with None => EmptyString | Some t => FormatRFC3339Nano t end.
Definition not_supported_query : error := ValidationError [mkFieldViolation "query" "is not supported"].

(** [managementQuery] *)
Definition managementQuery (request : Request) (allowed : list string) : result Values :=
  values <- parse_query request ;;
  validate_query_keys allowed values ;;;
  Ok values.

(** ** subscriptions.go *)
Definition collectionSubscriptionsPath : string := "/api/market-info/v1/collection-subscriptions".
Definition collectionSubscriptionsCursorScope : string := "collection-subscriptions".
Definition collectionSubscriptionsPageLimits : PageLimits := mkPageLimits 50 MaximumSubscriptionsPageSize.

Record createSubscriptionRequest := mkCreateSubscriptionRequest {
  csr_Provider : string; csr_InstrumentCode : string; csr_Interval : string; csr_Enabled : option bool; csr_Priority : option Z;
  csr_CloseDelaySeconds : option Z; csr_RevisionDelaySeconds : option Z; csr_Reason : string }.
Definition zeroCreateSubscriptionRequest : createSubscriptionRequest :=
  mkCreateSubscriptionRequest EmptyString EmptyString EmptyString None None None None EmptyString.
Definition createSubscriptionRequest_fields : StructFields createSubscriptionRequest :=
  let with_ '(mkCreateSubscriptionRequest p i n e y c r s) f := f p i n e y c r s in
  [string_field "provider" (fun v b => with_ b (fun _ i n e y c r s => mkCreateSubscriptionRequest v i n e y c r s));
   string_field "instrument_code" (fun v b => with_ b (fun p _ n e y c r s => mkCreateSubscriptionRequest p v n e y c r s));
   string_field "interval" (fun v b => with_ b (fun p i _ e y c r s => mkCreateSubscriptionRequest p i v e y c r s));
   bool_pointer_field "enabled" (fun v b => with_ b (fun p i n _ y c r s => mkCreateSubscriptionRequest p i n v y c r s));
   int_pointer_field "priority" (fun v b => with_ b (fun p i n e _ c r s => mkCreateSubscriptionRequest p i n e v c r s));
   int_pointer_field "close_delay_seconds" (fun v b => with_ b (fun p i n e y _ r s => mkCreateSubscriptionRequest p i n e y v r s));
   int_pointer_field "revision_delay_seconds" (fun v b => with_ b (fun p i n e y c _ s => mkCreateSubscriptionRequest p i n e y c v s));
   string_field "reason" (fun v b => with_ b (fun p i n e y c r _ => mkCreateSubscriptionRequest p i n e y c r v))].

(** PATCH's absent, null and integer values; [UnmarshalJSON]'s error stops the
    decoder, which adds the field to its path. *)
Record nullablePatchInt := mkNullablePatchInt { np_Set : bool; np_Value : option Z }.
Definition nullablePatchInt_UnmarshalJSON (j : json) : option nullablePatchInt :=
  match j with
  | JNull => Some (mkNullablePatchInt true None)
  | JNumber literal => z ← ParseInt64 literal; Some (mkNullablePatchInt true (Some z))
  | _ => None
  end.
Record updateSubscriptionRequest := mkUpdateSubscriptionRequest {
  usr_Enabled : option bool; usr_Priority : option Z; usr_CloseDelaySeconds : option Z; usr_RevisionDelaySeconds : nullablePatchInt;
  usr_Reason : string }.
Definition zeroUpdateSubscriptionRequest : updateSubscriptionRequest :=
  mkUpdateSubscriptionRequest None None None (mkNullablePatchInt false None) EmptyString.
Definition updateSubscriptionRequest_fields : StructFields updateSubscriptionRequest :=
  let with_ '(mkUpdateSubscriptionRequest e y c r s) f := f e y c r s in
  [bool_pointer_field "enabled" (fun v b => with_ b (fun _ y c r s => mkUpdateSubscriptionRequest v y c r s));
   int_pointer_field "priority" (fun v b => with_ b (fun e _ c r s => mkUpdateSubscriptionRequest e v c r s));
   int_pointer_field "close_delay_seconds" (fun v b => with_ b (fun e y _ r s => mkUpdateSubscriptionRequest e y v r s));
   ("revision_delay_seconds"%string, fun j b => match nullablePatchInt_UnmarshalJSON j with
      | Some v => Assigned (with_ b (fun e y c _ s => mkUpdateSubscriptionRequest e y c v s))
      | None => Fatal (TypeError "revision_delay_seconds") end);
   string_field "reason" (fun v b => with_ b (fun e y c r _ => mkUpdateSubscriptionRequest e y c r v))].

Definition createSubscriptionInputFromRequest (b : createSubscriptionRequest) : result CreateSubscriptionInput :=
  validated
    (violation (is_nil (csr_Enabled b)) "enabled" "is required" ++ violation (is_nil (csr_Priority b)) "priority" "is required"
     ++ violation (is_nil (csr_CloseDelaySeconds b)) "close_delay_seconds" "is required")
    (mkCreateSubscriptionInput (csr_Provider b) (csr_InstrumentCode b) (csr_Interval b) (default false (csr_Enabled b)) (default 0 (csr_Priority b))
       (default 0 (csr_CloseDelaySeconds b)) (csr_RevisionDelaySeconds b) (csr_Reason b)).

Definition enabledScopeValue (enabled : option bool) : string := match enabled with None => EmptyString | Some b => FormatBool b end.
Definition validateSubscriptionQueryKeys : Values -> result unit :=
  validate_query_keys ["provider"; "instrument_code"; "interval"; "enabled"; "limit"; "cursor"]%string.
Definition parse_enabled (value : string) : result (option bool) :=
  if value =s EmptyString then Ok None
  else
    let invalid := ValidationError [mkFieldViolation "enabled" "must be true or false"] in
    match ParseBool value with
    | None => Err invalid
    | Some parsed => failif (value <>s "true") && (value <>s "false"), invalid ;; Ok (Some parsed)
    end.

Section Management.
Context `{D : DecimalLib} `{U : UUIDLib} {W : Type}.

Definition idScopeValue (value : option ID) : string := match value with None => EmptyString | Some id => uuid_String id end.

(** A cursor of [count] values that begins with the filters and ends with an
    identity: the position after which the page starts. *)
Definition cursor_position (cursor scope : string) (filters : list string) : result (option ID) :=
  if cursor =s EmptyString then Ok None
  else
    let count := length filters in
    match DecodeCursor cursor scope (Z.of_nat count + 1) with
    | Ok positions =>
        failif negb (bound_to filters positions), invalidCursor ;;
        match ParseID (position count positions) with Ok id => Ok (Some id) | _ => Err invalidCursor end
    | _ => Err invalidCursor
    end.

Definition subscription_filters (input : SubscriptionListInput) : list string :=
  [sf_ProviderCode input; sf_InstrumentCode input; sf_Interval input; enabledScopeValue (sf_Enabled input)].
Definition parseSubscriptionListRequest (request : Request) : result SubscriptionListInput :=
  values <- parse_query request ;;
  validateSubscriptionQueryKeys values ;;;
  provider <- singleQueryValue values "provider" false ;;
  instrumentCode <- singleQueryValue values "instrument_code" false ;;
  interval <- singleQueryValue values "interval" false ;;
  enabledValue <- singleQueryValue values "enabled" false ;;
  enabled <- parse_enabled enabledValue ;;
  limitValue <- singleQueryValue values "limit" false ;;
  limit <- ParsePageSize limitValue collectionSubscriptionsPageLimits ;;
  let input after := mkSubscriptionReadFilter provider instrumentCode interval enabled after limit in
  cursor <- singleQueryValue values "cursor" false ;;
  after <- cursor_position cursor collectionSubscriptionsCursorScope (subscription_filters (input None)) ;;
  Ok (input after).

Definition subscriptionResponse (r : SubscriptionRecord) (createdAt updatedAt : Time) : result json :=
  let s := sr_Subscription r in
  encode_struct [("subscription_id", id_MarshalJSON (sub_ID s)); ("provider", code_MarshalJSON (sr_ProviderCode r));
    ("instrument_code", code_MarshalJSON (sr_InstrumentCode r)); ("provider_instrument_id", id_MarshalJSON (sub_ProviderInstrumentID s));
    ("provider_instrument_code", code_MarshalJSON (sr_ProviderInstrumentCode r)); ("provider_symbol", encode_string (sr_ProviderSymbol r));
    ("interval", encode_string (sub_Interval s)); ("enabled", encode_bool (sub_Enabled s)); ("priority", encode_int (sub_Priority s));
    ("close_delay_seconds", encode_int (sub_CloseDelaySeconds s)); ("revision_delay_seconds", encode_option encode_int (sub_RevisionDelaySeconds s));
    ("created_at", encode_time createdAt); ("updated_at", encode_time updatedAt)]%string.
Definition subscriptionResponseFromRecord (r : SubscriptionRecord) : result (result json) :=
  createdAt <- NewUTCInstant (sub_CreatedAt (sr_Subscription r)) ;;
  updatedAt <- NewUTCInstant (sub_UpdatedAt (sr_Subscription r)) ;;
  Ok (subscriptionResponse r createdAt updatedAt).

(** The items of a page: the first that cannot be projected is the error. *)
Fixpoint project_items {A} (project : A -> result (result json)) (items : list A) : result (list (result json)) :=
  match items with [] => Ok [] | a :: rest => item <- project a ;; items <- project_items project rest ;; Ok (item :: items) end.
Definition page_body (items : list (result json)) (cursor : option string) : result json :=
  encode_struct [("items"%string, encode_array (fun item => item) items); cursor_member cursor].

Definition subscriptionPageResponse (input : SubscriptionListInput) (page : SubscriptionPage) : result (result json) :=
  items <- project_items subscriptionResponseFromRecord (sp_Items page) ;;
  cursor <- next_cursor collectionSubscriptionsCursorScope (subscription_filters input) (uuid_String <$> sp_NextAfterID page) ;;
  Ok (page_body items cursor).
Definition subscriptionMutationResponse (subscription : result json) : result json := encode_struct [("subscription"%string, subscription)].

(** ** ingestion_queries.go *)
Definition ingestionRunsPath : string := "/api/market-info/v1/ingestion-runs".
Definition ingestionTasksPath : string := "/api/market-info/v1/ingestion-tasks".
Definition ingestionRunsCursorScope : string := "ingestion-runs".
Definition ingestionTasksCursorScope : string := "ingestion-tasks".
Definition ingestionManagementPageLimits : PageLimits := mkPageLimits 50 MaximumIngestionManagementPageSize.

Definition run_filters (input : RunListInput) : list string :=
  [rl_RunType input; rl_TriggerType input; rl_Status input; rl_RequestedBy input; timeScopeValue (rl_CreatedFrom input);
   timeScopeValue (rl_CreatedTo input)].
Definition parseRunListRequest (request : Request) : result RunListInput :=
  values <- managementQuery request ["run_type"; "trigger_type"; "status"; "requested_by"; "created_from"; "created_to"; "limit"; "cursor"]%string ;;
  runType <- singleQueryValue values "run_type" false ;;
  trigger <- singleQueryValue values "trigger_type" false ;;
  status <- singleQueryValue values "status" false ;;
  requestedBy <- singleQueryValue values "requested_by" false ;;
  from <- parseOptionalQueryTime values "created_from" ;;
  to <- parseOptionalQueryTime values "created_to" ;;
  limitRaw <- singleQueryValue values "limit" false ;;
  limit <- ParsePageSize limitRaw ingestionManagementPageLimits ;;
  let input after := mkRunListInput runType trigger status requestedBy from to after limit in
  cursor <- singleQueryValue values "cursor" false ;;
  after <- cursor_position cursor ingestionRunsCursorScope (run_filters (input None)) ;;
  Ok (input after).

Definition task_filters (runID : string) (input : TaskListInput) : list string :=
  [runID; tl_Status input; tl_ProviderCode input; tl_InstrumentCode input; tl_Interval input; timeScopeValue (tl_CreatedFrom input);
   timeScopeValue (tl_CreatedTo input)].
Definition parse_run_id (raw : string) : result (option ID) :=
  if raw =s EmptyString then Ok None
  else match ParseID raw with Ok id => Ok (Some id) | _ => Err (ValidationError [mkFieldViolation "run_id" "must be a canonical UUID"]) end.
Definition parseTaskListRequest (request : Request) : result TaskListInput :=
  values <- managementQuery request ["run_id"; "status"; "provider"; "instrument_code"; "interval"; "created_from"; "created_to"; "limit"; "cursor"]%string ;;
  runIDRaw <- singleQueryValue values "run_id" false ;;
  status <- singleQueryValue values "status" false ;;
  provider <- singleQueryValue values "provider" false ;;
  instrumentCode <- singleQueryValue values "instrument_code" false ;;
  interval <- singleQueryValue values "interval" false ;;
  from <- parseOptionalQueryTime values "created_from" ;;
  to <- parseOptionalQueryTime values "created_to" ;;
  limitRaw <- singleQueryValue values "limit" false ;;
  limit <- ParsePageSize limitRaw ingestionManagementPageLimits ;;
  runID <- parse_run_id runIDRaw ;;
  let input after := mkTaskListInput runID status provider instrumentCode interval from to after limit in
  cursor <- singleQueryValue values "cursor" false ;;
  after <- cursor_position cursor ingestionTasksCursorScope (task_filters runIDRaw (input None)) ;;
  Ok (input after).

Definition string_map (m : gmap string string) : result json := Ok (JStringMap m).
Definition runResponse (r : RunRecord) (createdAt : Time) : result json :=
  let run := rec_Run r in
  let s := rec_Summary r in
  let time t := encode_option encode_time (optionalTimeValue t) in
  encode_struct [("run_id", id_MarshalJSON (run_ID run)); ("run_key", encode_string (run_RunKey run)); ("run_type", encode_string (run_RunType run));
        ("trigger_type", encode_string (run_TriggerType run)); ("status", encode_string (sum_Status s)); ("scheduled_at", time (run_ScheduledAt run));
        ("started_at", time (sum_EarliestStartedAt s)); ("finished_at", time (sum_LatestFinishedAt s));
        ("requested_by", encode_option encode_string (run_RequestedBy run)); ("task_count", encode_int (sum_TaskCount s));
        ("pending_count", encode_int (sum_PendingCount s)); ("running_count", encode_int (sum_RunningCount s));
        ("retry_wait_count", encode_int (sum_RetryWaitCount s)); ("success_count", encode_int (sum_SuccessCount s));
        ("failed_count", encode_int (sum_FailedCount s)); ("canceled_count", encode_int (sum_CanceledCount s)); ("context", string_map (rec_Context r));
        ("created_at", encode_time createdAt)]%string.
Definition runResponseFromRecord (r : RunRecord) : result (result json) :=
  createdAt <- requiredTimeValue (run_CreatedAt (rec_Run r)) ;;
  Ok (runResponse r createdAt).
Definition runPageResponse (input : RunListInput) (page : RunPage) : result (result json) :=
  items <- project_items runResponseFromRecord (rp_Items page) ;;
  cursor <- next_cursor ingestionRunsCursorScope (run_filters input) (uuid_String <$> rp_NextAfterID page) ;;
  Ok (page_body items cursor).

Definition taskRunIdentity (r : TaskRecord) : result json :=
  encode_struct [("run_id", id_MarshalJSON (task_RunID (tr_Task r))); ("run_type", encode_string (tr_RunType r));
    ("trigger_type", encode_string (tr_TriggerType r))]%string.
Definition taskSubscription (r : TaskRecord) : result json :=
  encode_struct [("subscription_id", id_MarshalJSON (task_SubscriptionID (tr_Task r))); ("interval", encode_string (tr_SubscriptionInterval r))]%string.
Definition taskProviderIdentity (r : TaskRecord) : result json :=
  encode_struct [("provider_id", id_MarshalJSON (tr_ProviderID r)); ("provider_code", code_MarshalJSON (tr_ProviderCode r))]%string.
Definition taskInstrumentIdentity (r : TaskRecord) : result json :=
  encode_struct [("instrument_id", id_MarshalJSON (tr_InstrumentID r)); ("instrument_code", code_MarshalJSON (tr_InstrumentCode r))]%string.
Definition providerInstrumentIdentity (r : TaskRecord) : result json :=
  encode_struct [("provider_instrument_id", id_MarshalJSON (tr_ProviderInstrumentID r));
    ("provider_instrument_code", code_MarshalJSON (tr_ProviderInstrumentCode r)); ("provider_symbol", encode_string (tr_ProviderSymbol r))]%string.
Definition taskResponse (r : TaskRecord) (start end_ created updated : Time) : result json :=
  let t := tr_Task r in
  let time t := encode_option encode_time (optionalTimeValue t) in
  let text := encode_option encode_string in
  encode_struct [("task_id", id_MarshalJSON (task_ID t));
        ("run", taskRunIdentity r); ("subscription", taskSubscription r); ("provider", taskProviderIdentity r); ("instrument", taskInstrumentIdentity r);
        ("provider_instrument", providerInstrumentIdentity r);
        ("retry_of_task_id", encode_option id_MarshalJSON (task_RetryOfTaskID t)); ("range_start", encode_time start); ("range_end", encode_time end_);
        ("status", encode_string (task_Status t)); ("attempt_count", encode_int (task_AttemptCount t)); ("max_attempts", encode_int (task_MaxAttempts t));
        ("next_attempt_at", time (task_NextAttemptAt t)); ("locked_by", text (task_LockedBy t)); ("locked_until", time (task_LockedUntil t));
        ("started_at", time (task_StartedAt t)); ("finished_at", time (task_FinishedAt t)); ("provider_request_id", text (task_ProviderRequestID t));
        ("error_code", text (task_ErrorCode t)); ("error_summary", text (tr_ErrorSummary r)); ("error_details", string_map (tr_SafeErrorDetails r));
        ("canceled_by", text (task_CanceledBy t)); ("cancel_reason", text (task_CancelReason t)); ("created_at", encode_time created);
        ("updated_at", encode_time updated)]%string.
Definition taskResponseFromRecord (r : TaskRecord) : result (result json) :=
  start <- requiredTimeValue (task_RangeStart (tr_Task r)) ;;
  end_ <- requiredTimeValue (task_RangeEnd (tr_Task r)) ;;
  created <- requiredTimeValue (task_CreatedAt (tr_Task r)) ;;
  updated <- requiredTimeValue (task_UpdatedAt (tr_Task r)) ;;
  Ok (taskResponse r start end_ created updated).
Definition taskPageResponse (input : TaskListInput) (page : TaskPage) : result (result json) :=
  items <- project_items taskResponseFromRecord (tp_Items page) ;;
  cursor <- next_cursor ingestionTasksCursorScope (task_filters (idScopeValue (tl_RunID input)) input) (uuid_String <$> tp_NextAfterID page) ;;
  Ok (page_body items cursor).

(** ** provider_status.go *)
Definition providerStatusPath : string := "/api/market-info/v1/providers/status".
Definition providerScopeStatusResponse (s : ProviderScopeStatus) : result json :=
  encode_struct [("market", encode_string (scope_Market s)); ("session_type", encode_string (scope_SessionType s));
    ("interval", interval_MarshalJSON (scope_Interval s)); ("market_state", encode_string (scope_MarketState s));
    ("health_status", encode_string (scope_HealthStatus s)); ("freshness_status", encode_string (scope_FreshnessStatus s));
    ("data_delay_seconds", encode_option encode_int (scope_DataDelaySeconds s)); ("active_subscriptions", encode_int (scope_ActiveSubscriptions s));
    ("delayed_subscriptions", encode_int (scope_DelayedSubscriptions s));
    ("next_market_open_at", encode_option encode_time (optionalTimeValue (scope_NextMarketOpenAt s)))]%string.
Definition providerStatusResponse (s : ProviderStatus) (checkedAt : Time) : result json :=
  encode_struct [("provider_id", id_MarshalJSON (ps_ProviderID s)); ("provider_code", code_MarshalJSON (ps_ProviderCode s));
            ("display_name", encode_string (ps_DisplayName s)); ("provider_type", encode_string (lower_case (ps_ProviderType s)));
            ("configured_status", providerStatus_MarshalJSON (ps_ConfiguredStatus s)); ("health_status", encode_string (ps_HealthStatus s));
            ("last_success_at", encode_option encode_time (optionalTimeValue (ps_LastSuccessAt s)));
            ("last_failure_at", encode_option encode_time (optionalTimeValue (ps_LastFailureAt s)));
            ("consecutive_failures", encode_int (ps_ConsecutiveFailures s)); ("checked_at", encode_time checkedAt);
            ("scopes", encode_array providerScopeStatusResponse (ps_Scopes s))]%string.
Definition providerStatusResponseFromApplication (s : ProviderStatus) : result (result json) :=
  let invalid := Plain "provider status service returned invalid data" in
  match NewUTCInstant (ps_CheckedAt s) with
  | Ok checkedAt =>
      failif id_IsZero (ps_ProviderID s) || code_IsZero (ps_ProviderCode s) || (ps_DisplayName s =s EmptyString), invalid ;;
      Ok (providerStatusResponse s checkedAt)
  | _ => Err invalid
  end.
Definition providerStatusListResponse (items : list (result json)) : result json :=
  encode_struct [("items"%string, encode_array (fun item => item) items)].

(** ** ingestion_commands.go and backfills.go *)
Definition ingestionTaskCommandPath : string := "/api/market-info/v1/ingestion-tasks/{task_id}".
Definition ingestionBackfillPath : string := "/api/market-info/v1/ingestion-runs/backfill".

Record taskCommandRequest := mkTaskCommandRequest { tcr_Reason : string }.
Definition taskCommandRequest_fields : StructFields taskCommandRequest := [string_field "reason" (fun v _ => mkTaskCommandRequest v)].

Definition invalid_reason (reason : string) : bool :=
  (reason =s EmptyString) || (reason <>s TrimSpace reason) || (512 <? RuneCountInString reason).
Definition taskCommandInput (request : Request) : result (ID * TaskOperationAudit) :=
  failif req_RawQuery request <>s EmptyString, not_supported_query ;;
  match ParseID (PathValue request "task_id") with
  | Ok taskID =>
      body <- DecodeJSON taskCommandRequest_fields (mkTaskCommandRequest EmptyString) (req_Body request) DefaultMaximumRequestBodyBytes ;;
      failif invalid_reason (tcr_Reason body), ValidationError [mkFieldViolation "reason" "must be non-empty, trimmed and at most 512 characters"] ;;
      match AuditContextFromContext (hc_Application (req_Context request)) with
      | None => Err (Plain "task operation audit context is required")
      | Some audit => Ok (taskID, mkTaskOperationAudit (actx_requestedBy audit) (actx_actorType audit) (actx_requestID audit) (tcr_Reason body))
      end
  | _ => Err (ValidationError [mkFieldViolation "task_id" "must be a canonical UUID"])
  end.

Definition classifyTaskCommandFailure (retry : bool) (err : error) : error :=
  let wrapped code message := WrapError err code message false NoDetails in
  if retry && errors_Is err ErrManualRetryAlreadyRunning then wrapped ErrorCodeManualRetryAlreadyRunning "a manual retry is already active"
  else if retry && errors_Is err ErrManualRetrySourceUnavailable then wrapped ErrorCodeConflict "the task collection source is no longer available"
  else if errors_Is err ErrNotFound then wrapped ErrorCodeTaskNotFound "ingestion task not found"
  else if errors_Is err ErrConflict then wrapped ErrorCodeTaskStateConflict "task state does not allow this operation"
  else if errors_Is err ErrInvalidData then wrapped ErrorCodeInvalidArgument "invalid task operation"
  else err.

Definition manualRetryResponse (r : ManualRetryResult) : result (result json) :=
  match NewUTCInstant (mrr_CreatedAt r) with
  | Ok createdAt =>
      failif id_IsZero (mrr_RunID r) || id_IsZero (mrr_TaskID r) || (mrr_Status r <>s "pending"), Plain "manual retry service returned an invalid result" ;;
      Ok (encode_struct [("run_id", id_MarshalJSON (mrr_RunID r)); ("task_id", id_MarshalJSON (mrr_TaskID r)); ("status", encode_string (mrr_Status r));
            ("created_at", encode_time createdAt)]%string)
  | _ => Err (Plain "manual retry service returned an invalid result")
  end.
Definition taskCancellationResponse (taskID : ID) (r : TaskCancellationResult) : result (result json) :=
  match NewUTCInstant (tc_CanceledAt r) with
  | Ok canceledAt =>
      failif (tc_TaskID r <>id taskID) || id_IsZero (tc_RunID r) || (tc_Status r <>s "canceled"), Plain "task cancellation service returned an invalid result" ;;
      Ok (encode_struct [("task_id", id_MarshalJSON (tc_TaskID r)); ("run_id", id_MarshalJSON (tc_RunID r)); ("status", encode_string (tc_Status r));
            ("canceled_at", encode_time canceledAt)]%string)
  | _ => Err (Plain "task cancellation service returned an invalid result")
  end.

Record createBackfillRequest := mkCreateBackfillRequest {
  cbr_Provider : string; cbr_InstrumentCode : string; cbr_Interval : string; cbr_StartTime : string; cbr_EndTime : string; cbr_Reason : string }.
Definition zeroCreateBackfillRequest : createBackfillRequest :=
  mkCreateBackfillRequest EmptyString EmptyString EmptyString EmptyString EmptyString EmptyString.
Definition createBackfillRequest_fields : StructFields createBackfillRequest :=
  let with_ '(mkCreateBackfillRequest p i n s e r) f := f p i n s e r in
  [string_field "provider" (fun v b => with_ b (fun _ i n s e r => mkCreateBackfillRequest v i n s e r));
   string_field "instrument_code" (fun v b => with_ b (fun p _ n s e r => mkCreateBackfillRequest p v n s e r));
   string_field "interval" (fun v b => with_ b (fun p i _ s e r => mkCreateBackfillRequest p i v s e r));
   string_field "start_time" (fun v b => with_ b (fun p i n _ e r => mkCreateBackfillRequest p i n v e r));
   string_field "end_time" (fun v b => with_ b (fun p i n s _ r => mkCreateBackfillRequest p i n s v r));
   string_field "reason" (fun v b => with_ b (fun p i n s e _ => mkCreateBackfillRequest p i n s e v))].

(** The times are present when there is no violation. *)
Definition backfillInputFromRequest (request : Request) (b : createBackfillRequest) : result BackfillInput :=
  let start := ParseUTCInstant (cbr_StartTime b) in
  let end_ := ParseUTCInstant (cbr_EndTime b) in
  let ordered := match start, end_ with Ok s, Ok e => After e s | _, _ => true end in
  let time c := match c with Ok t => t | _ => 0 end in
  validated
    (violation (is_err (ParseCode (cbr_Provider b))) "provider" "must be a valid provider code"
     ++ violation (is_err (ParseCode (cbr_InstrumentCode b))) "instrument_code" "must be a valid instrument code"
     ++ violation (is_err (ParseBarInterval (cbr_Interval b))) "interval" "must be one of 1h or 1d"
     ++ violation (is_err start) "start_time" "must be an RFC3339 timestamp"
     ++ violation (is_err end_) "end_time" "must be an RFC3339 timestamp"
     ++ violation (negb ordered) "start_time" "must be earlier than end_time"
     ++ violation (invalid_reason (cbr_Reason b)) "reason" "must be non-empty, trimmed and at most 512 characters") tt ;;;
  match AuditContextFromContext (hc_Application (req_Context request)) with
  | None => Err (Plain "backfill audit context is required")
  | Some audit =>
      Ok (mkBackfillInput (cbr_Provider b) (cbr_InstrumentCode b) (cbr_Interval b) (time start) (time end_) (cbr_Reason b)
            (actx_requestedBy audit) (actx_actorType audit) (actx_requestID audit))
  end.
Definition classifyBackfillFailure (err : error) : error :=
  let wrapped code message := WrapError err code message false NoDetails in
  if errors_Is err ErrBackfillAlreadyRunning then wrapped ErrorCodeBackfillAlreadyRunning "an equivalent backfill is already active"
  else if errors_Is err ErrNotFound then wrapped ErrorCodeSubscriptionNotFound "enabled collection subscription not found"
  else if errors_Is err ErrInvalidData then wrapped ErrorCodeInvalidArgument "invalid backfill request"
  else err.
Definition createBackfillResponse (r : BackfillResult) : result (result json) :=
  match NewUTCInstant (bf_CreatedAt r) with
  | Ok createdAt =>
      failif id_IsZero (bf_RunID r) || id_IsZero (bf_TaskID r) || (bf_Status r <>s "pending"), Plain "backfill service returned an invalid result" ;;
      Ok (encode_struct [("run_id", id_MarshalJSON (bf_RunID r)); ("task_id", id_MarshalJSON (bf_TaskID r)); ("status", encode_string (bf_Status r));
            ("created_at", encode_time createdAt)]%string)
  | _ => Err (Plain "backfill service returned an invalid result")
  end.

(** ** Handlers over the use cases *)
Class SubscriptionManagement := {
  Management_List : SubscriptionListInput -> M W SubscriptionPage;
  Management_Create : Context -> CreateSubscriptionInput -> M W SubscriptionRecord;
  Management_Update : Context -> UpdateSubscriptionInput -> M W SubscriptionRecord }.
Class IngestionQueries := {
  Queries_ListRuns : RunListInput -> M W RunPage;
  Queries_GetRun : ID -> M W RunRecord;
  Queries_ListTasks : TaskListInput -> M W TaskPage;
  Queries_GetTask : ID -> M W TaskRecord }.
Class IngestionTaskCommands := {
  Commands_Retry : ID -> TaskOperationAudit -> M W ManualRetryResult;
  Commands_Cancel : ID -> TaskOperationAudit -> M W TaskCancellationResult }.
Class BackfillCreation := { Backfill_Create : BackfillInput -> M W BackfillResult }.
Class ProviderStatusQuery := { ProviderStatusQuery_List : M W (list ProviderStatus) }.

Context (newID : M W ID).

Definition SubscriptionHandler_list `{S : SubscriptionManagement} : Handler W := fun writer request =>
  or_error newID writer request (mlift (parseSubscriptionListRequest request)) (fun input =>
  or_error newID writer request (Management_List input) (fun page =>
  or_error newID writer request (mlift (subscriptionPageResponse input page)) (fun response =>
  respond newID writer request 200 response))).

Definition SubscriptionHandler_create `{S : SubscriptionManagement} : Handler W := fun writer request =>
  or_error newID writer request
    (mlift (DecodeJSON createSubscriptionRequest_fields zeroCreateSubscriptionRequest (req_Body request) DefaultMaximumRequestBodyBytes)) (fun body =>
  or_error newID writer request (mlift (createSubscriptionInputFromRequest body)) (fun input =>
  or_error newID writer request (Management_Create (hc_Application (req_Context request)) input) (fun record =>
  or_error newID writer request (mlift (subscriptionResponseFromRecord record)) (fun response =>
  respond newID writer request 201 (subscriptionMutationResponse response))))).

Definition SubscriptionHandler_update `{S : SubscriptionManagement} : Handler W := fun writer request =>
  match ParseID (PathValue request "subscription_id") with
  | Ok id =>
      or_error newID writer request
        (mlift (DecodeJSON updateSubscriptionRequest_fields zeroUpdateSubscriptionRequest (req_Body request) DefaultMaximumRequestBodyBytes)) (fun body =>
      let revision := usr_RevisionDelaySeconds body in
      let input := mkUpdateSubscriptionInput id (usr_Enabled body) (usr_Priority body) (usr_CloseDelaySeconds body) (np_Value revision) (np_Set revision)
                     (usr_Reason body) in
      or_error newID writer request (Management_Update (hc_Application (req_Context request)) input) (fun record =>
      or_error newID writer request (mlift (subscriptionResponseFromRecord record)) (fun response =>
      respond newID writer request 200 (subscriptionMutationResponse response))))
  | _ => WriteError newID writer request (ValidationError [mkFieldViolation "subscription_id" "must be a canonical UUID"])
  end.

Definition IngestionQueryHandler_listRuns `{S : IngestionQueries} : Handler W := fun writer request =>
  or_error newID writer request (mlift (parseRunListRequest request)) (fun input =>
  or_error newID writer request (Queries_ListRuns input) (fun page =>
  or_error newID writer request (mlift (runPageResponse input page)) (fun response =>
  respond newID writer request 200 response))).
Definition IngestionQueryHandler_listTasks `{S : IngestionQueries} : Handler W := fun writer request =>
  or_error newID writer request (mlift (parseTaskListRequest request)) (fun input =>
  or_error newID writer request (Queries_ListTasks input) (fun page =>
  or_error newID writer request (mlift (taskPageResponse input page)) (fun response =>
  respond newID writer request 200 response))).
Definition IngestionQueryHandler_getRun `{S : IngestionQueries} : Handler W := fun writer request =>
  if req_RawQuery request <>s EmptyString then WriteError newID writer request not_supported_query
  else match ParseID (PathValue request "run_id") with
  | Ok id =>
      or_error newID writer request (Queries_GetRun id) (fun record =>
      or_error newID writer request (mlift (runResponseFromRecord record)) (fun response =>
      respond newID writer request 200 (encode_struct [("run"%string, response)])))
  | _ => WriteError newID writer request (ValidationError [mkFieldViolation "run_id" "must be a canonical UUID"])
  end.
Definition IngestionQueryHandler_getTask `{S : IngestionQueries} : Handler W := fun writer request =>
  if req_RawQuery request <>s EmptyString then WriteError newID writer request not_supported_query
  else match ParseID (PathValue request "task_id") with
  | Ok id =>
      or_error newID writer request (Queries_GetTask id) (fun record =>
      or_error newID writer request (mlift (taskResponseFromRecord record)) (fun response =>
      respond newID writer request 200 (encode_struct [("task"%string, response)])))
  | _ => WriteError newID writer request (ValidationError [mkFieldViolation "task_id" "must be a canonical UUID"])
  end.

(** [if err != nil { WriteError(writer, request, classify(err)) }] *)
Definition IngestionTaskCommandHandler_retry `{S : IngestionTaskCommands} : Handler W := fun writer request =>
  or_error newID writer request (mlift (taskCommandInput request)) (fun '(taskID, audit) =>
  or_error newID writer request (classified (classifyTaskCommandFailure true) (Commands_Retry taskID audit)) (fun r =>
  or_error newID writer request (mlift (manualRetryResponse r)) (fun response =>
  respond newID writer request 202 response))).
Definition IngestionTaskCommandHandler_cancel `{S : IngestionTaskCommands} : Handler W := fun writer request =>
  or_error newID writer request (mlift (taskCommandInput request)) (fun '(taskID, audit) =>
  or_error newID writer request (classified (classifyTaskCommandFailure false) (Commands_Cancel taskID audit)) (fun r =>
  or_error newID writer request (mlift (taskCancellationResponse taskID r)) (fun response =>
  respond newID writer request 200 response))).

Definition BackfillHandler_create `{S : BackfillCreation} : Handler W := fun writer request =>
  or_error newID writer request
    (mlift (DecodeJSON createBackfillRequest_fields zeroCreateBackfillRequest (req_Body request) DefaultMaximumRequestBodyBytes)) (fun body =>
  or_error newID writer request (mlift (backfillInputFromRequest request body)) (fun input =>
  or_error newID writer request (classified classifyBackfillFailure (Backfill_Create input)) (fun r =>
  or_error newID writer request (mlift (createBackfillResponse r)) (fun response =>
  respond newID writer request 202 response)))).

Definition ProviderStatusHandler_list `{S : ProviderStatusQuery} : Handler W := fun writer request =>
  if req_RawQuery request <>s EmptyString then WriteError newID writer request not_supported_query
  else
    or_error newID writer request ProviderStatusQuery_List (fun items =>
    or_error newID writer request (mlift (project_items providerStatusResponseFromApplication items)) (fun responses =>
    respond newID writer request 200 (providerStatusListResponse responses))).

(** ** The routes

    [protect permission]: [authenticate(NewPermissionMiddleware(permission)(handler))]. *)
Section WithAuthenticator.
Context `{A : !Authenticator W}.
Definition protect (permission : string) (handler : Handler W) : result (Handler W) :=
  middleware <- NewPermissionMiddleware newID [permission] ;;
  Ok (NewAuthenticationMiddleware newID (middleware handler)).
Fixpoint protected_routes (routes : list (string * string * Handler W)) : result (Routes W) :=
  match routes with
  | [] => Ok []
  | (pattern, permission, handler) :: rest =>
      handler <- protect permission handler ;;
      rest <- protected_routes rest ;;
      Ok ((pattern, handler) :: rest)
  end.

Definition subscription_routes `{S : SubscriptionManagement} : list (string * string * Handler W) :=
  [("GET " ++ collectionSubscriptionsPath, PermissionOperationsRead, SubscriptionHandler_list);
   ("POST " ++ collectionSubscriptionsPath, PermissionSubscriptionsManage, SubscriptionHandler_create);
   ("PATCH " ++ collectionSubscriptionsPath ++ "/{subscription_id}", PermissionSubscriptionsManage, SubscriptionHandler_update)]%string.
Definition RegisterSubscriptionRoutes `{S : SubscriptionManagement} : result (Routes W) := protected_routes subscription_routes.
Definition ingestion_query_routes `{S : IngestionQueries} : list (string * string * Handler W) :=
  [("GET " ++ ingestionRunsPath, PermissionOperationsRead, IngestionQueryHandler_listRuns);
   ("GET " ++ ingestionRunsPath ++ "/{run_id}", PermissionOperationsRead, IngestionQueryHandler_getRun);
   ("GET " ++ ingestionTasksPath, PermissionOperationsRead, IngestionQueryHandler_listTasks);
   ("GET " ++ ingestionTasksPath ++ "/{task_id}", PermissionOperationsRead, IngestionQueryHandler_getTask)]%string.
Definition RegisterIngestionQueryRoutes `{S : IngestionQueries} : result (Routes W) := protected_routes ingestion_query_routes.
Definition task_command_routes `{S : IngestionTaskCommands} : list (string * string * Handler W) :=
  [("POST " ++ ingestionTaskCommandPath ++ "/retry", PermissionIngestionManage, IngestionTaskCommandHandler_retry);
   ("POST " ++ ingestionTaskCommandPath ++ "/cancel", PermissionIngestionManage, IngestionTaskCommandHandler_cancel)]%string.
Definition RegisterIngestionTaskCommandRoutes `{S : IngestionTaskCommands} : result (Routes W) := protected_routes task_command_routes.
Definition backfill_routes `{S : BackfillCreation} : list (string * string * Handler W) :=
  [("POST " ++ ingestionBackfillPath, PermissionIngestionManage, BackfillHandler_create)]%string.
Definition RegisterBackfillRoutes `{S : BackfillCreation} : result (Routes W) := protected_routes backfill_routes.
Definition provider_status_routes `{S : ProviderStatusQuery} : list (string * string * Handler W) :=
  [("GET " ++ providerStatusPath, PermissionOperationsRead, ProviderStatusHandler_list)]%string.
Definition RegisterProviderStatusRoutes `{S : ProviderStatusQuery} : result (Routes W) := protected_routes provider_status_routes.
End WithAuthenticator.
End Management.
#[global] Arguments SubscriptionManagement W : clear implicits.
#[global] Arguments IngestionQueries W : clear implicits.
#[global] Arguments IngestionTaskCommands W : clear implicits.
#[global] Arguments BackfillCreation W : clear implicits.
#[global] Arguments ProviderStatusQuery W : clear implicits.

(** The use cases of packages application and ingestion behind the handlers. *)
Section Services.
Context `{D : DecimalLib} `{T : TzLib} `{U : UUIDLib} {W : Type} (now : M W Time) (newID : M W ID).
Definition subscription_service `{St : !SubscriptionStore W} : SubscriptionManagement W :=
  {| Management_List := SubscriptionService_List; Management_Create := SubscriptionService_Create now newID;
     Management_Update := SubscriptionService_Update now |}.
Definition ingestion_query_service `{R : !IngestionQueryReader W} : IngestionQueries W :=
  {| Queries_ListRuns := ListRuns; Queries_GetRun := GetRun; Queries_ListTasks := ListTasks; Queries_GetTask := GetTask |}.
Definition manual_task_service `{St : !ManualTaskStore W} (refresh : ID -> M W RunSummary) (maximumAttempts : Z) : IngestionTaskCommands W :=
  {| Commands_Retry := Retry maximumAttempts now newID; Commands_Cancel := Cancel refresh now |}.
Definition backfill_service `{St : !BackfillStore W} (maximumAttempts : Z) : BackfillCreation W :=
  {| Backfill_Create := Create maximumAttempts now newID |}.
Definition provider_status_service (usCalendar : Calendar.TradingCalendar) (sources : Time -> M W (list ProviderStatusSource)) : ProviderStatusQuery W :=
  {| ProviderStatusQuery_List := ProviderStatusService_List usCalendar sources now |}.
Definition static_authenticator_of (entries : list staticEntry) : Authenticator W :=
  {| Authenticator_Authenticate := fun token => mlift (Authenticate entries token) |}.
End Services.
