(* ===== verification/PublicErrors.v ===== *)
(** * The errors of the application services

    Every error of a query, subscription or status service is one the public
    interface can map: an application error with a known code and a message,
    or a storage failure that is reported as temporary. The backfill, retry and
    cancel services leave that to their handlers: what the handlers report is
    such an error too, or a failure of the service's store or ID generator that
    no code of the interface names. *)
From S2P Require Import Prelude Errors GoStrings GoTime GoJson External Domain MarketData Calendar CatchUp Ports Ingestion ManualTasks Fixtures Database Repository RepositoryFixtures Application Listing Subscriptions IngestionQueries SubscriptionStore MarketQueries InstrumentOptions ProviderStatus CatalogStore HttpManagement.
Open Scope go_scope.

Definition public_error (e : error) : Prop :=
  errors_Is e ErrDatabaseUnavailable = true \/ errors_Is e ErrRetryable = true \/
  exists code message retryable details cause, e = AppErr code message retryable details cause /\ appError_Validate code message = Ok tt.

(** ** Errors of a computation *)
Lemma throws_classified {W A} (P : error -> Prop) classify (c : M W A) : (forall e, P (classify e)) -> throws P (classified classify c).
Proof. intros H w e w' E. apply classified_err in E as (e' & _ & ->). apply H. Qed.

(** ** Errors that are public *)
Lemma public_app code message retryable details cause : appError_Validate code message = Ok tt -> public_error (AppErr code message retryable details cause).
Proof. intros H. right. right. by exists code, message, retryable, details, cause. Qed.
Lemma public_wrap code message retryable details cause : appError_Validate code message = Ok tt -> public_error (WrapError cause code message retryable details).
Proof. apply public_app. Qed.
Lemma public_new code message retryable details : appError_Validate code message = Ok tt -> public_error (NewError code message retryable details).
Proof. apply public_app. Qed.
Lemma public_validation violations : public_error (ValidationError violations).
Proof. by apply public_app. Qed.
Lemma public_failure e : public_error (classify_failure e).
Proof.
  unfold classify_failure. destruct (errors_Is e ErrDatabaseUnavailable) eqn:E1; [by left |]. destruct (errors_Is e ErrRetryable) eqn:E2; [by right; left |].
  by apply public_wrap.
Qed.
Lemma public_if (b : bool) e e' : public_error e -> public_error e' -> public_error (if b then e else e').
Proof. by destruct b. Qed.
Lemma public_validated {A} violations (a : A) e : validated violations a = Err e -> public_error e.
Proof. destruct violations; [discriminate |]. intros [= <-]. apply public_validation. Qed.

(** Decompose a service into its steps and classify their errors. *)
Ltac public_step :=
  match goal with
  | |- forall e, public_error _ => intros ?
  | |- public_error (if _ then _ else _) => apply public_if
  | |- public_error (ValidationError _) => apply public_validation
  | |- public_error (WrapError _ _ _ _ _) => apply public_wrap; reflexivity
  | |- public_error (NewError _ _ _ _) => apply public_new; reflexivity
  | |- public_error (classify_failure _) => apply public_failure
  | |- throws _ (mbind _ _) => apply throws_bind; [| intros ?]
  | |- throws _ (if _ then _ else _) => apply throws_if
  | |- throws _ (mret _) => apply throws_ret
  | |- throws _ (mthrow _) => apply throws_throw
  | |- throws _ (classified _ _) => apply throws_classified
  | |- throws _ (let '(_, _) := ?x in _) => destruct x
  | |- throws _ (match ?x with _ => _ end) => destruct x
  | H : never_fails ?c |- throws _ ?c => apply throws_never, H
  | |- throws _ (mlift (validated _ _)) => apply throws_lift, public_validated
  end.
Ltac public := repeat public_step.

Section Services.
Context `{D : DecimalLib} `{T : TzLib} `{U : UUIDLib} {W : Type} (now : M W Time) (newID : M W ID) (Hnow : never_fails now).

Section Subscriptions.
Context `{St : !SubscriptionStore W}.
Lemma public_audit ctx action reason t : throws (W := W) public_error (mlift (subscriptionAuditFromContext ctx action reason t)).
Proof.
  apply throws_lift. intros e. unfold subscriptionAuditFromContext. destruct (AuditContextFromContext ctx); [| intros [= <-]; by apply public_wrap].
  destruct (audit_Validate _); intros [= <-]. by apply public_wrap.
Qed.
Lemma public_SubscriptionService_List input : throws public_error (SubscriptionService_List input).
Proof. unfold SubscriptionService_List, validateSubscriptionListInput, classifySubscriptionFailure. public. Qed.
Lemma public_SubscriptionService_Create ctx input : throws public_error (SubscriptionService_Create now newID ctx input).
Proof. unfold SubscriptionService_Create, validateCreateSubscriptionInput, classifySubscriptionFailure. public. all: apply public_audit. Qed.
Lemma public_SubscriptionService_Update ctx input : throws public_error (SubscriptionService_Update now ctx input).
Proof. unfold SubscriptionService_Update, validateUpdateSubscriptionInput, subscription_not_found, classifySubscriptionFailure. public. all: apply public_audit. Qed.
End Subscriptions.

Lemma public_query task e : public_error (classifyIngestionQueryFailure task e).
Proof. unfold classifyIngestionQueryFailure. public. Qed.
Section IngestionReads.
Context `{R : !IngestionQueryReader W}.
Lemma public_ListRuns input : throws public_error (ListRuns input).
Proof. unfold ListRuns, validateRunListInput. public. all: apply public_query. Qed.
Lemma public_GetRun id : throws public_error (GetRun id).
Proof. unfold GetRun. public. all: apply public_query. Qed.
Lemma public_ListTasks input : throws public_error (ListTasks input).
Proof. unfold ListTasks, validateTaskListInput. public. all: apply public_query. Qed.
Lemma public_GetTask id : throws public_error (GetTask id).
Proof. unfold GetTask. public. all: apply public_query. Qed.
End IngestionReads.

Section MarketReads.
Context `{C : !QueryCatalog W}.
Lemma public_bars_input input : throws (W := W) public_error (mlift (parseBarsInput input)).
Proof.
  apply throws_lift. intros e H. unfold parseBarsInput in H. apply rbind_err in H as [H | (_ & _ & H)]; [by apply public_validated in H |].
  destruct (NewTimeRange _ _) as [r|e'|]; [| injection H as <-; by apply public_wrap | discriminate].
  destruct (bi_CursorOpenTime input); [| discriminate]. destruct (_ || _); [| discriminate]. injection H as <-. apply public_validation.
Qed.
Lemma public_BarsService_List `{R : !BarReader W} input : throws public_error (BarsService_List now input).
Proof.
  unfold BarsService_List, mapCatalogQueryError, unknown_provider, classifyBarQueryFailure, classifyLatestQuoteFailure, unavailableBarSource.
  public. all: apply public_bars_input.
Qed.
Lemma public_LatestQuotesService_List `{R : !LatestQuoteReader W} input : throws public_error (LatestQuotesService_List now input).
Proof.
  unfold LatestQuotesService_List, parseLatestQuotesInput, resolveMarketIdentity, resolveProvider, mapCatalogQueryError, unknown_provider,
    invalid_projection, classifyLatestQuoteFailure. cbv zeta. public.
Qed.
Lemma public_InstrumentOptionsService_List `{R : !InstrumentOptionsReader W} input : throws public_error (InstrumentOptionsService_List now input).
Proof. unfold InstrumentOptionsService_List, validateInstrumentOptionsInput, classifyInstrumentOptionsFailure. public. Qed.
Lemma public_Batch values : throws public_error (Batch now values).
Proof.
  unfold Batch, classifyInstrumentPrecisionFailure. public. apply throws_lift. intros e. unfold parseInstrumentPrecisionInput.
  destruct (_ =? _); [intros [= <-]; apply public_validation |]. destruct (_ <? _); [intros [= <-]; apply public_validation |].
  destruct (parse_ids _ _ _ _ _). apply public_validated.
Qed.
End MarketReads.
Lemma public_ProviderStatusService_List calendar sources : throws public_error (ProviderStatusService_List (W := W) calendar sources now).
Proof. unfold ProviderStatusService_List, classifyProviderStatusFailure. public. Qed.

(** ** The commands *)
(** The errors of a command before its handler has classified them: invalid
    data, or what a collaborator failed with. *)
Definition command_error (own : error -> Prop) (e : error) : Prop :=
  errors_Is e ErrInvalidData = true \/ exists text e', e = Wrap text e' /\ own e'.
(** And what its handler reports. *)
Definition reported (own : error -> Prop) (e : error) : Prop := public_error e \/ exists text e', e = Wrap text e' /\ own e'.

Lemma throws_bind_from {A B} (P : error -> Prop) (c : M W B) (k : B -> M W A) : throws P c ->
  (forall w b w', c w = (Ok b, w') -> throws P (k b)) -> throws P (mbind c k).
Proof.
  intros Hc Hk w e w'. unfold mbind. destruct (c w) as [[b|e'|] w1] eqn:E; [by apply (Hk _ _ _ E) | | discriminate].
  intros [= <- <-]. by apply (Hc _ _ _ E).
Qed.
Lemma throws_own {A} (own : error -> Prop) text (c : M W A) : throws own c -> throws (command_error own) (mwrap text c).
Proof.
  intros Hc w e w'. unfold mwrap. destruct (c w) as [[b|e'|] w1] eqn:E; intros [= <- <-]. right. exists text, e'. split; [reflexivity |]. by apply (Hc _ _ _ E).
Qed.
Lemma throws_reported {A} own classify (c : M W A) : throws (command_error own) c ->
  (forall e, errors_Is e ErrInvalidData = true -> public_error (classify e)) -> (forall e, public_error (classify e) \/ classify e = e) ->
  throws (reported own) (classified classify c).
Proof.
  intros Hc Hi Hs w e w' E. apply classified_err in E as (e' & E & ->). destruct (Hc _ _ _ E) as [H | H]; [left; by apply Hi |].
  destruct (Hs e') as [Hp | ->]; [by left | by right].
Qed.
Lemma backfill_classified e : (errors_Is e ErrInvalidData = true -> public_error (classifyBackfillFailure e))
  /\ (public_error (classifyBackfillFailure e) \/ classifyBackfillFailure e = e).
Proof.
  unfold classifyBackfillFailure. cbv zeta. destruct (errors_Is e ErrBackfillAlreadyRunning); [split; [intros _ | left]; by apply public_wrap |].
  destruct (errors_Is e ErrNotFound); [split; [intros _ | left]; by apply public_wrap |].
  destruct (errors_Is e ErrInvalidData); [split; [intros _ | left]; by apply public_wrap | by split; [| right]].
Qed.
Lemma command_classified retry e : (errors_Is e ErrInvalidData = true -> public_error (classifyTaskCommandFailure retry e))
  /\ (public_error (classifyTaskCommandFailure retry e) \/ classifyTaskCommandFailure retry e = e).
Proof.
  unfold classifyTaskCommandFailure. cbv zeta. destruct (retry && _); [split; [intros _ | left]; by apply public_wrap |].
  destruct (retry && _); [split; [intros _ | left]; by apply public_wrap |].
  destruct (errors_Is e ErrNotFound); [split; [intros _ | left]; by apply public_wrap |].
  destruct (errors_Is e ErrConflict); [split; [intros _ | left]; by apply public_wrap |].
  destruct (errors_Is e ErrInvalidData); [split; [intros _ | left]; by apply public_wrap | by split; [| right]].
Qed.

Definition fails_with {A} (c : M W A) (e : error) : Prop := exists w w', c w = (Err e, w').
Lemma throws_fails {A} (own : error -> Prop) (c : M W A) : (forall e, fails_with c e -> own e) -> throws own c.
Proof. intros H w e w' E. apply H. by exists w, w'. Qed.
Lemma generate_id_errors own text taken : (forall e, fails_with newID e -> own e) -> throws (command_error own) (generate_id newID text taken).
Proof.
  intros Hn w e w'. unfold generate_id, mwrap, mbind. destruct (newID w) as [[id|e'|] w1] eqn:E.
  - destruct (_ || _); intros [= <- <-]. by left.
  - intros [= <- <-]. right. exists text, e'. split; [reflexivity |]. apply Hn. by exists w, w1.
  - discriminate.
Qed.

(** What a backfill depends on: the store, the generator, and a target that the
    store resolved and that is not active any more. *)
Definition backfill_failure `{BackfillStore W} (e : error) : Prop :=
  (exists provider instrument interval at_, fails_with (ResolveBackfillTarget provider instrument interval at_) e) \/
  (exists provider instrument interval at_ w target w' request, ResolveBackfillTarget provider instrument interval at_ w = (Ok target, w')
     /\ validateBackfillTarget target request = Err e /\ errors_Is e ErrInvalidData = false) \/
  (exists run task, fails_with (CreateBackfillRunWithTask run task) e) \/ fails_with newID e.
Lemma parse_backfill_error input at_ e : parseBackfillInput input at_ = Err e -> e = Sentinel ErrInvalidData.
Proof.
  unfold parseBackfillInput. cbv zeta. destruct (ParseCode _); [| by intros [= <-]..]. destruct (ParseCode _); [| by intros [= <-]..].
  destruct (ParseBarInterval _); [| by intros [= <-]..]. destruct (NewBoundedTimeRange _ _); [| by intros [= <-]..].
  destruct (_ || _); [by intros [= <-] |]. destruct (After _ _); [by intros [= <-] | discriminate].
Qed.
Lemma Create_errors `{St : BackfillStore W} attempts input : throws (command_error backfill_failure) (Create attempts now newID input).
Proof.
  assert (forall e, fails_with newID e -> backfill_failure e) as Hid by (intros e H; do 3 right; exact H).
  unfold Create. apply throws_bind; [apply throws_never, Hnow |]. intros at_. apply throws_bind.
  { apply throws_lift. intros e. destruct (parseBackfillInput input at_) as [r|e'|] eqn:E; intros [= <-]. apply parse_backfill_error in E as ->. by left. }
  intros request. apply throws_bind_from.
  { apply throws_own, throws_fails. intros e H. left. by do 4 eexists. }
  intros w target w' Ht. apply mwrap_ok in Ht. apply throws_bind.
  { apply throws_lift. intros e. destruct (validateBackfillTarget target request) as [u|e'|] eqn:E; intros [= <-].
    destruct (errors_Is e' ErrInvalidData) eqn:Ei; [left; exact Ei |]. right. exists "validate backfill target"%string, e'. split; [reflexivity |].
    right. left. do 8 eexists. split; [exact Ht |]. split; [exact E | exact Ei]. }
  intros _. apply throws_bind; [by apply generate_id_errors |]. intros runID. apply throws_bind; [by apply generate_id_errors |]. intros taskID.
  cbv zeta. apply throws_bind; [| intros _; apply throws_ret]. apply throws_own, throws_fails. intros e H. right. right. left. by do 2 eexists.
Qed.

Definition retry_failure `{ManualTaskStore W} (e : error) : Prop := (exists creation, fails_with (CreateManualRetry creation) e) \/ fails_with newID e.
Lemma Retry_errors `{St : ManualTaskStore W} attempts id audit : throws (command_error retry_failure) (Retry attempts now newID id audit).
Proof.
  assert (forall e, fails_with newID e -> retry_failure e) as Hid by (intros e H; right; exact H).
  unfold Retry. apply throws_if; [apply throws_throw; by left |]. apply throws_bind; [apply throws_never, Hnow |]. intros at_.
  apply throws_if; [apply throws_throw; by left |]. apply throws_bind; [by apply generate_id_errors |]. intros runID.
  apply throws_bind; [by apply generate_id_errors |]. intros taskID. cbv zeta.
  apply throws_bind; [| intros _; apply throws_ret]. apply throws_own, throws_fails. intros e H. left. by eexists.
Qed.
Definition cancel_failure `{ManualTaskStore W} (e : error) : Prop := exists id audit at_, fails_with (CancelTaskWithAudit id audit at_) e.
Lemma Cancel_errors `{St : ManualTaskStore W} refresh id audit : throws (command_error cancel_failure) (Cancel refresh now id audit).
Proof.
  unfold Cancel. apply throws_if; [apply throws_throw; by left |]. apply throws_bind; [apply throws_never, Hnow |]. intros at_.
  apply throws_if; [apply throws_throw; by left |]. apply throws_bind; [| intros runID; apply throws_bind; [apply throws_try | intros; apply throws_ret]].
  apply throws_own, throws_fails. intros e H. by do 3 eexists.
Qed.

(** C36. The services report public errors only: whatever their stores, readers
    and inputs do, an error that the subscription, run, task, bar, quote, option,
    precision or provider status service returns is an application error with
    one of the known codes and a message, or a temporary failure of storage. The
    backfill, retry and cancel services return invalid data or the failure of a
    collaborator, and what their handlers report after classifying it is public
    as well, or is a failure of the store or the ID generator (for a backfill,
    also of a resolved target that may not be collected) under the name of the
    step that met it. *)
Theorem service_errors_public (St : SubscriptionStore W) (IR : IngestionQueryReader W) (C : QueryCatalog W) (BR : BarReader W)
    (QR : LatestQuoteReader W) (OR : InstrumentOptionsReader W) (BS : BackfillStore W) (MS : ManualTaskStore W) calendar sources :
  (forall input, throws public_error (SubscriptionService_List input)) /\
  (forall ctx input, throws public_error (SubscriptionService_Create now newID ctx input)) /\
  (forall ctx input, throws public_error (SubscriptionService_Update now ctx input)) /\
  (forall input, throws public_error (ListRuns input)) /\ (forall id, throws public_error (GetRun id)) /\
  (forall input, throws public_error (ListTasks input)) /\ (forall id, throws public_error (GetTask id)) /\
  (forall input, throws public_error (BarsService_List now input)) /\
  (forall input, throws public_error (LatestQuotesService_List now input)) /\
  (forall input, throws public_error (InstrumentOptionsService_List now input)) /\
  (forall values, throws public_error (Batch now values)) /\
  throws public_error (ProviderStatusService_List (W := W) calendar sources now) /\
  (forall attempts input, throws (command_error backfill_failure) (Create attempts now newID input) /\
     throws (reported backfill_failure) (classified classifyBackfillFailure (Create attempts now newID input))) /\
  (forall attempts id audit, throws (command_error retry_failure) (Retry attempts now newID id audit) /\
     throws (reported retry_failure) (classified (classifyTaskCommandFailure true) (Retry attempts now newID id audit))) /\
  (forall refresh id audit, throws (command_error cancel_failure) (Cancel refresh now id audit) /\
     throws (reported cancel_failure) (classified (classifyTaskCommandFailure false) (Cancel refresh now id audit))).
Proof.
  split_and!.
  - exact public_SubscriptionService_List.
  - exact public_SubscriptionService_Create.
  - exact public_SubscriptionService_Update.
  - exact public_ListRuns.
  - exact public_GetRun.
  - exact public_ListTasks.
  - exact public_GetTask.
  - exact public_BarsService_List.
  - exact public_LatestQuotesService_List.
  - exact public_InstrumentOptionsService_List.
  - exact public_Batch.
  - apply public_ProviderStatusService_List.
  - intros attempts input. split; [apply Create_errors |]. apply (throws_reported _ _ _ (Create_errors attempts input)); intros e; apply backfill_classified.
  - intros attempts id audit. split; [apply Retry_errors |]. apply (throws_reported _ _ _ (Retry_errors attempts id audit)); intros e; apply command_classified.
  - intros refresh id audit. split; [apply Cancel_errors |]. apply (throws_reported _ _ _ (Cancel_errors refresh id audit)); intros e; apply command_classified.
Qed.
End Services.

(** A page of no subscriptions is refused with the violation of its limit. *)
Definition no_options : InstrumentOptionsReader PG := {| ListInstrumentProviderOptions := fun f => repo_ListInstrumentProviderOptions (fun _ => None) f |}.
Definition no_calendar : TradingCalendar :=
  mkTradingCalendar None (fun _ => Err (Sentinel ErrCalendarOutOfRange)) (fun _ => Err (Sentinel ErrCalendarOutOfRange))
    (fun _ => Err (Sentinel ErrCalendarOutOfRange)) (fun _ => Err (Sentinel ErrCalendarOutOfRange)).
Definition empty_page : SubscriptionListInput := mkSubscriptionReadFilter EmptyString EmptyString EmptyString None None 0.

(** A retry of no task is invalid data, which its handler reports as an invalid argument. *)
Definition no_audit : TaskOperationAudit := mkTaskOperationAudit EmptyString EmptyString EmptyString EmptyString.
Definition refused_retry : M PG ManualRetryResult :=
  classified (classifyTaskCommandFailure true) (Retry (St := repo_ManualTaskStore) 5 (mret noon) (mret (uuid7 6)) 0%N no_audit).

Lemma service_errors_public_witness :
  (exists e, fst (SubscriptionService_List empty_page fresh_store) = Err e /\ public_error e) /\
  (exists e, fst (refused_retry fresh_store) = Err e /\ public_error e).
Proof.
  assert (never_fails (W := PG) (mret noon)) as Hnow by (intros w e w' H; discriminate H).
  destruct (service_errors_public (W := PG) (mret noon) (mret (uuid7 6)) Hnow repo_SubscriptionStore repo_IngestionQueryReader repo_QueryCatalog
    repo_BarReader repo_LatestQuoteReader no_options repo_BackfillStore repo_ManualTaskStore no_calendar (fun _ => mret []))
    as (H & _ & _ & _ & _ & _ & _ & _ & _ & _ & _ & _ & _ & Hr & _).
  split; eexists; (split; [reflexivity |]).
  - apply (H empty_page fresh_store _ fresh_store). reflexivity.
  - destruct (Hr 5 0%N no_audit) as [_ Hc]. destruct (Hc fresh_store _ fresh_store eq_refl) as [Hp | (text & e' & [=] & _)]. exact Hp.
Defined.
