(* ===== verification/HttpFacts.v ===== *)
(** * Theorems of internal/api/httpapi: cursors, errors and access

    Cursors read back what they encode and bind it to their scope; listings
    whose filters are not all given cannot encode one; the status of every
    error; what a protected handler has checked before it runs. *)
From S2P Require Import Prelude Errors GoStrings GoTime GoJson External Domain MarketData Application Listing Subscriptions IngestionQueries MarketQueries InstrumentOptions GoText GoJsonTree DomainJson HttpCore HttpQueries JsonFacts HttpManagement.
Open Scope go_scope.

(** ** The values of a cursor *)
Lemma length_concat_le l : Forall (fun s => s <> EmptyString) l -> (length l <= String.length (String.concat "," l))%nat.
Proof.
  induction 1 as [|s l Hs Hl IH]; [reflexivity |]. destruct s as [|c s]; [done |]. destruct l as [|s' l]; [cbn; lia |].
  change (String.concat "," (String c s :: s' :: l)) with (String c s ++ "," ++ String.concat "," (s' :: l))%string.
  rewrite !string_length_app. cbn [String.length length] in *. lia.
Qed.
Lemma payload_fuel scope values : (length values + 5 < json_fuel (json_text (payload_tree scope values)))%nat.
Proof.
  unfold json_fuel. rewrite payload_text. rewrite !string_length_app.
  pose proof (length_concat_le (map (fun v => json_text (JString v)) values)) as H. rewrite length_map in H.
  assert (length values <= String.length (String.concat "," (map (fun v => json_text (JString v)) values)))%nat as Hl.
  { apply H, List.Forall_map, List.Forall_forall. discriminate. }
  change (String.length (json_string "values")) with 8%nat. lia.
Qed.

Lemma cursor_payload_tree scope values :
  cursorPayload_json (mkCursorPayload cursorVersion scope (mkSlice values (length values))) = payload_tree scope values.
Proof. unfold cursorPayload_json, payload_tree, slice_values, JStrings. cbn [cur_Version cur_Scope cur_Values slice_len slice_backing]. by rewrite firstn_all. Qed.

Lemma assign_strings name values : forall backing i,
  length backing = i -> assign_elements name backing i None (map JString values) = ((backing ++ values)%list, (i + length values)%nat, None).
Proof.
  induction values as [|v values IH]; intros backing i Hi; cbn [map assign_elements length]; [by rewrite app_nil_r, Nat.add_0_r |].
  assert (set_index i v backing = (backing ++ [v])%list) as ->.
  { unfold set_index. rewrite firstn_all2 by lia. rewrite skipn_all2 by lia. reflexivity. }
  rewrite IH by (rewrite length_app; cbn; lia). rewrite <- app_assoc. do 2 f_equal. lia.
Qed.
Lemma strings_field_fresh {A} name (get : A -> Slice) set a values : values <> [] -> slice_backing (get a) = [] ->
  snd (strings_field name get set) (JArray (map JString values)) a = Assigned (set (mkSlice values (length values)) a).
Proof.
  intros Hne Hb. pose proof (assign_strings name values [] 0 eq_refl) as E. destruct values as [|v values]; [done |].
  transitivity (let '(backing, n, saved) := assign_elements name (slice_backing (get a)) 0 None (map JString (v :: values)) in
    match saved with Some e => Saved (set (mkSlice backing n) a) e | None => Assigned (set (mkSlice backing n) a) end).
  { reflexivity. }
  rewrite Hb, E. reflexivity.
Qed.
Lemma unmarshal_payload scope values : values <> [] ->
  unmarshal_struct cursorPayload_fields zeroCursorPayload (payload_tree scope values)
    = Decoded (mkCursorPayload cursorVersion scope (mkSlice values (length values))).
Proof.
  intros Hne.
  transitivity (match snd (strings_field "values" cur_Values (fun vs p => mkCursorPayload (cur_Version p) (cur_Scope p) vs)) (JArray (map JString values))
                        (mkCursorPayload cursorVersion scope slice_nil) with
    | Assigned a => Decoded a | Saved _ e | Fatal e => Undecoded e end).
  { unfold unmarshal_struct, payload_tree. reflexivity. }
  rewrite strings_field_fresh by (exact Hne || reflexivity). reflexivity.
Qed.

Lemma scope_pattern_ascii s : cursorScopePattern s = true -> ascii_text s = true.
Proof.
  destruct s as [|c s]; [done |]. cbn [cursorScopePattern ascii_text]. intros H. apply andb_true_iff in H as [H _]. apply andb_true_iff in H as [H Hs].
  apply andb_true_iff. split.
  - unfold is_alnum, in_range in H. bsimp; lia.
  - clear H. revert Hs. induction s as [|d s IH]; cbn; [done |]. intros [Hd Hs]%andb_true_iff. apply andb_true_iff. split; [| auto].
    unfold scope_char, is_alnum, in_range, is_byte in Hd. cbn [existsb] in Hd. bsimp; lia.
Qed.
Lemma base64_not_empty s : s <> EmptyString -> EncodeToString s <> EmptyString.
Proof. destruct s as [|a [|b [|c s]]]; done. Qed.

Lemma slice_values_full values : slice_values (mkSlice values (length values)) = values.
Proof. apply firstn_all. Qed.
(** Which payloads are valid. *)
Lemma valid_payload scope values r :
  validateCursorPayload (mkCursorPayload cursorVersion scope (mkSlice values (length values))) scope = Ok r ->
  cursorScopePattern scope = true /\ 0 < llen values <= maximumCursorValues
  /\ existsb (fun v => (v =s EmptyString) || (maximumCursorValueLength <? slen v)) values = false.
Proof.
  unfold validateCursorPayload. cbn [cur_Version cur_Scope cur_Values]. rewrite slice_values_full. cbv zeta. intros H.
  destruct (negb (cursorVersion =? cursorVersion) || negb (cursorScopePattern scope) || (scope <>s scope)) eqn:G; [discriminate H |].
  destruct ((llen values =? 0) || (maximumCursorValues <? llen values)) eqn:G0; [discriminate H |].
  destruct (existsb _ values) eqn:G1; [discriminate H |].
  repeat (apply orb_false_iff in G as [G ?]). apply orb_false_iff in G0 as [Hn Hm]. apply Z.eqb_neq in Hn. apply Z.ltb_ge in Hm.
  split; [by apply negb_false_iff |]. split; [| reflexivity]. unfold llen in *. lia.
Qed.
Lemma other_scope scope scope' values :
  cursorScopePattern scope = true -> existsb (fun v => (v =s EmptyString) || (maximumCursorValueLength <? slen v)) values = false ->
  0 < llen values <= maximumCursorValues ->
  is_err (validateCursorPayload (mkCursorPayload cursorVersion scope (mkSlice values (length values))) scope') = (scope' <>s scope).
Proof.
  intros Hs Hv Hn. unfold validateCursorPayload. cbn [cur_Version cur_Scope cur_Values]. rewrite slice_values_full, Hs, Hv, Z.eqb_refl.
  replace (llen values =? 0) with false by (symmetry; apply Z.eqb_neq; lia).
  replace (maximumCursorValues <? llen values) with false by (symmetry; apply Z.ltb_ge; lia). cbn [negb orb].
  rewrite (String.eqb_sym scope scope'). by destruct (scope' =s scope).
Qed.

Lemma cursor_round_trip_values scope values encoded :
  EncodeCursor scope values = Ok encoded -> forallb ascii_text values = true -> slen encoded <= maximumEncodedCursorLength ->
  DecodeCursor encoded scope (llen values) = Ok values
  /\ (forall scope' count, scope' <> scope \/ count <> llen values -> DecodeCursor encoded scope' count = Err invalidCursor).
Proof.
  intros He Ha Hl. unfold EncodeCursor in He. cbv zeta in He. rewrite cursor_payload_tree in He. apply rbind_ok in He as ([] & Hv & He).
  apply Ok_inj in He.
  apply valid_payload in Hv as (Hs & Hn & Hv). assert (values <> []) as Hne by (intros ->; unfold llen in Hn; cbn [length] in Hn; lia).
  assert (encoded <> EmptyString) as Hnot by (rewrite <- He; apply base64_not_empty; rewrite payload_text; discriminate).
  assert (forall scope' count, DecodeCursor encoded scope' count =
    if (count <=? 0) || (maximumCursorValues <? count) || (scope' <>s scope) || negb (count =? llen values) then Err invalidCursor else Ok values) as Hd.
  { intros scope' count. unfold DecodeCursor. apply String.eqb_neq in Hnot. rewrite Hnot.
    replace (maximumEncodedCursorLength <? slen encoded) with false by (symmetry; apply Z.ltb_ge; exact Hl). cbn [orb].
    destruct ((count <=? 0) || (maximumCursorValues <? count)); [reflexivity |]. cbn [orb].
    rewrite <- He, base64_decode_encode. unfold next_value.
    rewrite read_payload by (first [assumption | apply scope_pattern_ascii; assumption | apply payload_fuel]).
    rewrite unmarshal_payload by exact Hne. change (only_space EmptyString) with true. cbn [negb].
    rewrite (other_scope scope scope' values Hs Hv Hn). cbn [cur_Values]. rewrite slice_values_full.
    destruct (scope' <>s scope); cbn [orb]; [reflexivity |]. by rewrite Z.eqb_sym. }
  split.
  - rewrite Hd, Z.eqb_refl, String.eqb_refl. cbn. replace (llen values <=? 0) with false by (symmetry; apply Z.leb_gt; lia).
    by replace (maximumCursorValues <? llen values) with false by (symmetry; apply Z.ltb_ge; lia).
  - intros scope' count Hdiff. rewrite Hd. destruct Hdiff as [Hdiff | Hdiff].
    + apply String.eqb_neq in Hdiff. rewrite Hdiff. cbn [negb]. by rewrite orb_true_r.
    + apply Z.eqb_neq in Hdiff. rewrite Hdiff. cbn [negb]. by rewrite orb_true_r.
Qed.

(** What [EncodeCursor] accepts, for texts of ASCII bytes, [DecodeCursor] returns for the same scope and count as long as the cursor is
    within its length limit; for another scope, or another count of values, it is refused as invalid. *)
Theorem cursor_round_trip scope values encoded :
  EncodeCursor scope values = Ok encoded -> forallb ascii_text values = true -> slen encoded <= maximumEncodedCursorLength ->
  DecodeCursor encoded scope (llen values) = Ok values
  /\ (forall scope' count, scope' <> scope \/ count <> llen values -> DecodeCursor encoded scope' count = Err invalidCursor).
Proof. apply cursor_round_trip_values. Qed.

(** ** Errors *)
(** A body with a code and a message of the source. *)
Ltac known_body := split; [reflexivity |]; split; [reflexivity |]; split; [discriminate |]; split; [cbn; tauto |]; intros ? ?; first [reflexivity | discriminate].
(** Every error has a public form: the status is the one of the public code, whichever way the code was found, the code is a known
    one with a message, and an error that is no application error is retryable only as an unavailable service. *)
Theorem public_form_of_errors err :
  let '(status, body) := classifyError err in
  status = statusForCode (eb_Code body) /\ errorCode_Valid (eb_Code body) = true /\ eb_Message body <> EmptyString
  /\ In status [400; 401; 403; 404; 409; 429; 500; 503]
  /\ (eb_Retryable body = true -> errors_AsApplication err = None -> status = 503).
Proof.
  assert (forall code, In (statusForCode code) [400; 401; 403; 404; 409; 429; 500; 503]) as Hin.
  { intros code. unfold statusForCode. cbv zeta. repeat match goal with |- context [if ?b then _ else _] => destruct b end; cbn; tauto. }
  unfold classifyError. destruct (errors_AsApplication err) as [[[[code message] retryable] details]|].
  - destruct (appError_Validate code message) as [[]|e|] eqn:E; cbn [is_err].
    + unfold appError_Validate in E. cbn [eb_Code eb_Message eb_Retryable]. destruct (errorCode_Valid code); [| discriminate E]. cbn [negb] in E.
      destruct (message =s EmptyString) eqn:Em; [discriminate E |]. apply String.eqb_neq in Em. repeat split; auto. discriminate.
    + known_body.
    + unfold appError_Validate in E. destruct (negb _), (message =s EmptyString); discriminate E.
  - cbv zeta. repeat match goal with |- context [if ?b then _ else _] => destruct b end; known_body.
Qed.

(** ** Pages *)
Definition good_value (v : string) : Prop := v <> EmptyString /\ slen v <= maximumCursorValueLength.
Lemma values_good values : existsb (fun v => (v =s EmptyString) || (maximumCursorValueLength <? slen v)) values = false <-> Forall good_value values.
Proof.
  induction values as [|v values IH]; [split; [constructor | reflexivity] |]. cbn [existsb]. rewrite orb_false_iff, orb_false_iff, IH, List.Forall_cons_iff.
  unfold good_value. rewrite String.eqb_neq, Z.ltb_ge. tauto.
Qed.
(** When [EncodeCursor] succeeds, and its error. *)
Lemma encode_cursor_ok scope values : cursorScopePattern scope = true -> 0 < llen values <= maximumCursorValues ->
  (is_ok (EncodeCursor scope values) = true <-> Forall good_value values)
  /\ (forall e, EncodeCursor scope values = Err e -> classifyError e = (500, internal_body)).
Proof.
  intros Hs Hn. unfold EncodeCursor. cbv zeta. set (text := json_text _). clearbody text. unfold validateCursorPayload.
  cbn [cur_Version cur_Scope cur_Values]. rewrite slice_values_full, Hs, !Z.eqb_refl, String.eqb_refl. cbn [negb orb].
  replace (llen values =? 0) with false by (symmetry; apply Z.eqb_neq; lia).
  replace (maximumCursorValues <? llen values) with false by (symmetry; apply Z.ltb_ge; lia). cbn [orb]. rewrite <- values_good.
  destruct (existsb _ values); cbn [rbind is_ok]; split; try (split; [reflexivity || discriminate | reflexivity || discriminate]);
    try (split; discriminate); intros e H; [by injection H as <- | discriminate H].
Qed.

Lemma next_cursor_none scope filters : next_cursor scope filters None = Ok None.
Proof. reflexivity. Qed.
Lemma next_cursor_some scope filters p : next_cursor scope filters (Some p) = (c <- EncodeCursor scope (filters ++ [p]) ;; Ok (Some c)).
Proof. reflexivity. Qed.

Section Pages.
Context `{D : DecimalLib} `{U : UUIDLib} `{L : !UUIDLaws U} {W : Type}.
Context (Hascii : forall id, ascii_text (uuid_String id) = true).

Lemma id_is_good id : good_value (uuid_String id).
Proof.
  pose proof (uuid_String_length id) as H. split; [intros E; rewrite E in H; discriminate |]. unfold slen, maximumCursorValueLength. rewrite H. lia.
Qed.
Lemma bound_to_app filters rest : bound_to filters (filters ++ rest) = true.
Proof. unfold bound_to. induction filters as [|f l IH]; [reflexivity |]. cbn. by rewrite String.eqb_refl. Qed.
Lemma ParseID_String id : (id < 2 ^ 128)%N -> ParseID (uuid_String id) = Ok id.
Proof. intros H. unfold ParseID. rewrite uuid_Parse_String by exact H. by rewrite String.eqb_refl. Qed.

(** A listing that has a next page can point to it exactly when every filter of the request is given, with at most 256 bytes; otherwise
    the response is an internal error. A cursor it gives, sent back with the same filters, is the position after which the next page starts. *)
Theorem page_cursors scope filters id :
  cursorScopePattern scope = true -> (length filters <= 7)%nat -> (id < 2 ^ 128)%N ->
  (is_ok (next_cursor scope filters (Some (uuid_String id))) = true <-> Forall good_value filters)
  /\ (forall e, next_cursor scope filters (Some (uuid_String id)) = Err e -> classifyError e = (500, internal_body))
  /\ (forall cursor, next_cursor scope filters (Some (uuid_String id)) = Ok (Some cursor) ->
        forallb ascii_text filters = true -> slen cursor <= maximumEncodedCursorLength ->
        cursor_position cursor scope filters = Ok (Some id)).
Proof.
  intros Hs Hn Hid. rewrite next_cursor_some. set (values := filters ++ [uuid_String id]).
  assert (llen values = Z.of_nat (length filters) + 1) as Hlen by (unfold values, llen; rewrite length_app; cbn; lia).
  destruct (encode_cursor_ok scope values Hs) as [Hok Herr]; [unfold maximumCursorValues; lia |].
  assert (Forall good_value values <-> Forall good_value filters) as Hvalues.
  { unfold values. rewrite List.Forall_app. split; [tauto |]. intros H. split; [exact H |]. repeat constructor; apply id_is_good. }
  split; [| split].
  - rewrite <- Hvalues, <- Hok. by destruct (EncodeCursor scope values).
  - intros e He. destruct (EncodeCursor scope values) as [c|e'|]; cbn in He; [discriminate | | discriminate]. injection He as <-. by apply Herr.
  - intros cursor Hc Ha Hl. apply rbind_ok in Hc as (c & Hc & Heq). apply Ok_inj, Some_inj in Heq. subst c.
    destruct (cursor_round_trip_values scope values cursor Hc) as [Hd _]; [| exact Hl |].
    { unfold values. rewrite forallb_app, Ha. cbn. by rewrite Hascii. }
    unfold cursor_position. assert (cursor <> EmptyString) as Hne%String.eqb_neq.
    { intros ->. unfold DecodeCursor in Hd. discriminate Hd. }
    rewrite Hne. rewrite <- Hlen, Hd. unfold values. rewrite bound_to_app. cbn [negb]. unfold position.
    rewrite app_nth2 by lia. rewrite Nat.sub_diag. cbn [nth]. rewrite ParseID_String by exact Hid. reflexivity.
Qed.
End Pages.

(** * Theorems of internal/api/httpapi and internal/domain: what requests and values carry

    The bodies a handler accepts and the limits of the pages it asks for, and
    the JSON round trips of identities, codes, instants and enumerations. *)
(** ** Bodies *)
Lemma body_error_400 e : fst (classifyError (classifyJSONDecodeError e)) = 400.
Proof. destruct e as [| |field |]; cbn; try reflexivity. by destruct (field =s EmptyString). Qed.

(** A body is accepted only when it is within the limit and is one JSON value followed by white space, decoded into the fields of the
    request without an unknown member; every other body is a bad request. *)
Theorem request_bodies {A} (fields : StructFields A) zero body maximumBytes : 0 < maximumBytes ->
  match DecodeJSON fields zero body maximumBytes with
  | Ok a => slen body <= maximumBytes
      /\ exists j rest, next_value body = Got j rest /\ only_space rest = true /\ unmarshal_struct fields zero j = Decoded a
  | Err e => fst (classifyError e) = 400
  | Diverge => False
  end.
Proof.
  intros H. unfold DecodeJSON. replace (maximumBytes <=? 0) with false by (symmetry; apply Z.leb_gt; exact H). cbv zeta.
  destruct (next_value (String.substring 0 (Z.to_nat maximumBytes) body)) as [j rest| |] eqn:E; [| apply body_error_400..].
  destruct (_ && _ && _); [apply body_error_400 |].
  destruct (unmarshal_struct fields zero j) as [a|[field|]] eqn:Eu; [| apply body_error_400..].
  destruct (maximumBytes <? slen body) eqn:El; [reflexivity |]. apply Z.ltb_ge in El. cbn [orb].
  destruct (only_space rest) eqn:Es; [| reflexivity]. split; [exact El |]. exists j, rest.
  rewrite substring_all in E by (unfold slen in El; lia). auto.
Qed.

(** ** Limits *)
Lemma ParsePageSize_range raw limits n : ParsePageSize raw limits = Ok n -> 0 < n <= Maximum limits.
Proof.
  unfold ParsePageSize. cbv zeta. intros H. apply rbind_ok in H as (r & Hl & H). unfold limits_Validate in Hl.
  destruct (_ || _) eqn:G in Hl; [discriminate Hl |]. bsimp. destruct (raw =s EmptyString); [apply Ok_inj in H; lia |].
  destruct (ParseInt64 raw) as [v|]; [| discriminate H]. destruct (_ || _) eqn:G in H; [discriminate H |]. apply Ok_inj in H. bsimp. lia.
Qed.
(** Decompose the steps of a request parser. *)
Ltac parsed H := repeat (let r := fresh "r" in let R := fresh "R" in apply rbind_ok in H as (r & R & H)).
Ltac size := match goal with H : ParsePageSize _ _ = Ok _ |- _ => apply ParsePageSize_range in H; exact H end.

Section Requests.
Context `{D : DecimalLib} `{U : UUIDLib}.

(** No request makes a listing ask for less than one row or for more than the endpoint's maximum. *)
Theorem page_sizes request :
  (forall input, parseBarsRequest request = Ok input -> 0 < bi_Limit input <= 1000)
  /\ (forall input, parseInstrumentOptionsRequest request = Ok input -> 0 < io_Limit input <= 100)
  /\ (forall input, parseSubscriptionListRequest request = Ok input -> 0 < sf_Limit input <= 100)
  /\ (forall input, parseRunListRequest request = Ok input -> 0 < rl_Limit input <= 100)
  /\ (forall input, parseTaskListRequest request = Ok input -> 0 < tl_Limit input <= 100).
Proof.
  split; [| split; [| split; [| split]]]; intros input H.
  - unfold parseBarsRequest in H. parsed H. cbv zeta in H. destruct (_ =s EmptyString) in H; [apply Ok_inj in H; subst input; size |].
    parsed H. destruct (negb _) in H; [discriminate H |]. destruct (ParseUTCInstant _) in H; [| discriminate H..]. apply Ok_inj in H. subst input. size.
  - unfold parseInstrumentOptionsRequest in H. parsed H. destruct (_ && _) in H; [discriminate H |]. parsed H.
    destruct (_ =s EmptyString) in H; [apply Ok_inj in H; subst input; size |]. parsed H. destruct (negb _) in H; [discriminate H |].
    apply Ok_inj in H. subst input. size.
  - unfold parseSubscriptionListRequest in H. parsed H. apply Ok_inj in H. subst input. size.
  - unfold parseRunListRequest in H. parsed H. apply Ok_inj in H. subst input. size.
  - unfold parseTaskListRequest in H. parsed H. apply Ok_inj in H. subst input. size.
Qed.
End Requests.

(** ** JSON values *)
Lemma unmarshal_text_string s : ascii_text s = true -> unmarshal_text (json_text (JString s)) = Ok s.
Proof.
  intros H. unfold unmarshal_text, next_value. cbn [json_text]. rewrite <- (append_nil_r (json_string s)).
  unfold json_fuel. rewrite Nat.add_comm. change (2 + ?n)%nat with (S (S n)). rewrite read_json_string by exact H. reflexivity.
Qed.
Lemma ascii_text_app a b : ascii_text (a ++ b) = ascii_text a && ascii_text b.
Proof. induction a as [|c a IH]; cbn; [reflexivity |]. by rewrite IH, andb_assoc. Qed.
Lemma all_alnum_ascii s : all_alnum s = true -> ascii_text s = true.
Proof.
  induction s as [|c s IH]; cbn; [done |]. intros [Hc Hs]%andb_true_iff. rewrite IH by exact Hs. rewrite andb_true_r.
  unfold is_alnum, in_range in Hc. bsimp; lia.
Qed.
Lemma code_ascii code c : ParseCode code = Ok c -> ascii_text code = true.
Proof.
  unfold ParseCode. destruct (_ || _) eqn:G; [discriminate |]. intros _. apply orb_false_iff in G as [_ G]. apply negb_false_iff in G.
  apply match_segments_iff in G; [| apply code_sep_not_alnum].
  induction G as [s _ Hs | s d t _ Hs Hd _ IH]; [by apply all_alnum_ascii |]. rewrite ascii_text_app. cbn [ascii_text]. rewrite all_alnum_ascii, IH by exact Hs.
  cbn. rewrite andb_true_r. unfold is_code_sep in Hd. bsimp; lia.
Qed.
Lemma digits_ascii s : all_digits s = true -> ascii_text s = true.
Proof.
  induction s as [|c s IH]; cbn; [done |]. intros [Hc Hs]%andb_true_iff. rewrite IH by exact Hs. rewrite andb_true_r.
  unfold is_digit, in_range in Hc. bsimp; lia.
Qed.
Lemma ascii_of_list l : ascii_text (string_of_list_ascii l) = forallb (fun c => byte_at c <? 128) l.
Proof. induction l as [|c l IH]; cbn; [reflexivity |]. by rewrite IH. Qed.
Lemma forallb_rev {A} (f : A -> bool) l : forallb f (rev l) = forallb f l.
Proof. induction l as [|a l IH]; cbn; [reflexivity |]. rewrite forallb_app, IH. cbn. rewrite andb_true_r. apply andb_comm. Qed.
Lemma pad2_ascii n : ascii_text (pad2 n) = true.
Proof. apply digits_ascii. unfold pad2. rewrite !digit_string. cbn [append all_digits]. by rewrite !is_digit_char. Qed.
Lemma nano_fraction_ascii ns : 0 <= ns < 1000000000 -> ascii_text (nano_fraction ns) = true.
Proof.
  intros H. unfold nano_fraction. destruct (ns =? 0); [reflexivity |]. cbn [append ascii_text]. change (byte_at "." <? 128) with true. cbn [andb].
  rewrite ascii_of_list, forallb_rev. destruct (pad9_digits ns H) as [Hd _]. apply digits_ascii in Hd.
  rewrite <- (string_of_list_ascii_of_string (pad9 ns)), ascii_of_list, <- forallb_rev in Hd.
  destruct (trim_zeros_app (rev (list_ascii_of_string (pad9 ns)))) as [k Hk]. rewrite Hk, forallb_app in Hd. by apply andb_true_iff in Hd as [_ Hd].
Qed.
Lemma FormatRFC3339Nano_ascii t : ascii_text (FormatRFC3339Nano t) = true.
Proof.
  unfold FormatRFC3339Nano. cbv zeta. destruct (civil_from_days _) as [[y m] d]. unfold pad4.
  rewrite !ascii_text_app, !pad2_ascii. rewrite nano_fraction_ascii by (apply Z.mod_pos_bound; reflexivity). reflexivity.
Qed.
Lemma parse_enum_ok accepted e v r : parse_enum accepted e v = Ok r -> r = v /\ contains_string accepted v = true.
Proof. unfold parse_enum. destruct (contains_string accepted v); [intros [= <-]; auto | discriminate]. Qed.
Lemma ParseBarInterval_ok v r : ParseBarInterval v = Ok r -> r = v /\ (v = BarInterval1Hour \/ v = BarInterval1Day).
Proof.
  unfold ParseBarInterval. destruct (v =s BarInterval1Hour) eqn:E1; [apply String.eqb_eq in E1 as ->; intros [= <-]; auto |].
  destruct (v =s BarInterval1Day) eqn:E2; [apply String.eqb_eq in E2 as ->; intros [= <-]; auto | discriminate].
Qed.

(** [parse] reads back from the JSON text of a value it accepts. *)
Definition reads_back {A} (marshal : A -> result json) (unmarshal : string -> result A) (a : A) : Prop :=
  exists j, marshal a = Ok j /\ unmarshal (json_text j) = Ok a.
Lemma text_reads_back (kind message : string) (parse : string -> result string) v :
  ascii_text v = true -> v <> EmptyString -> parse v = Ok v ->
  reads_back (fun v => marshalStringEnum v kind) (fun data => text <- wrap message (unmarshal_text data) ;; parse text) v.
Proof.
  intros Ha Hne Hp. exists (JString v). unfold marshalStringEnum. apply String.eqb_neq in Hne. rewrite Hne. split; [reflexivity |].
  rewrite unmarshal_text_string by exact Ha. exact Hp.
Qed.

Section RoundTrips.
Context `{D : DecimalLib} `{U : UUIDLib} `{L : !UUIDLaws U}.

(** C40. The values of the public interface survive their JSON form: an identity, a code that parses, an instant of the years 0 to 9999, an
    interval and a provider's status are read back from what they are written as. *)
Theorem json_round_trips (Hascii : forall id, ascii_text (uuid_String id) = true) :
  (forall id, id <> 0%N -> (id < 2 ^ 128)%N -> reads_back id_MarshalJSON id_UnmarshalJSON id)
  /\ (forall code, ParseCode code = Ok code -> reads_back code_MarshalJSON code_UnmarshalJSON code)
  /\ (forall t, t <> 0 -> four_digit_year t -> reads_back instant_MarshalJSON instant_UnmarshalJSON t)
  /\ (forall v, ParseBarInterval v = Ok v -> reads_back interval_MarshalJSON interval_UnmarshalJSON v)
  /\ (forall v, ParseProviderStatus v = Ok v -> reads_back providerStatus_MarshalJSON providerStatus_UnmarshalJSON v).
Proof.
  split; [| split; [| split; [| split]]].
  - intros id H0 Hid. exists (JString (uuid_String id)). unfold id_MarshalJSON, id_MarshalText, id_IsZero. apply N.eqb_neq in H0. rewrite H0.
    split; [reflexivity |]. unfold id_UnmarshalJSON. rewrite unmarshal_text_string by apply Hascii. cbn [wrap rbind]. unfold id_UnmarshalText. by apply ParseID_String.
  - intros code H. exists (JString code). unfold code_MarshalJSON, code_MarshalText, code_IsZero.
    destruct (code =s EmptyString) eqn:E; [apply String.eqb_eq in E; subst; discriminate H |]. split; [reflexivity |].
    unfold code_UnmarshalJSON. rewrite unmarshal_text_string by (by eapply code_ascii). exact H.
  - intros t H0 Hy. exists (JString (FormatRFC3339Nano t)). unfold instant_MarshalJSON, instant_String, IsZero. apply Z.eqb_neq in H0. rewrite H0.
    split; [reflexivity |]. unfold instant_UnmarshalJSON. rewrite unmarshal_text_string by apply FormatRFC3339Nano_ascii. cbn [wrap rbind].
    unfold ParseUTCInstant. rewrite parse_formatted by exact Hy. unfold NewUTCInstant, IsZero. by rewrite H0.
  - intros v H. destruct (ParseBarInterval_ok v v H) as [_ Hv]. apply text_reads_back; [destruct Hv as [-> | ->]; reflexivity | destruct Hv as [-> | ->]; discriminate | exact H].
  - intros v H. destruct (parse_enum_ok _ _ _ _ H) as [_ Hv]. apply contains_string_In in Hv.
    apply (text_reads_back "provider status"); [| | exact H]; destruct Hv as [<- | [<- | [<- | []]]]; first [reflexivity | discriminate].
Qed.
End RoundTrips.
