(* ===== verification/AccessFacts.v ===== *)
(** * Theorems of internal/api/httpapi: responses, access control and request bodies

    What an error response carries; what a protected route has checked before
    its handler runs; which bodies are accepted; and the listings that cannot
    show their first page. *)
From S2P Require Import Prelude Errors GoStrings GoTime GoJson External Domain MarketData GoSha256 Application Listing Subscriptions IngestionQueries InstrumentOptions GoText GoJsonTree DomainJson HttpCore HttpQueries JsonFacts HttpManagement HttpFacts.
Open Scope go_scope.

Section Responses.
Context `{D : DecimalLib} `{U : UUIDLib} {W : Type} (newID : M W ID).

(** A computation that only fails to finish. *)
Definition no_error {A} (c : M W A) : Prop := forall w e, fst (c w) <> Err e.
Lemma requestIDForResponse_no_error request : no_error (requestIDForResponse newID request).
Proof.
  intros w e. unfold requestIDForResponse. destruct (ValidRequestID _); [discriminate |]. unfold mcatch.
  destruct (defaultRequestID newID w) as [[]]; discriminate.
Qed.

(** The outcome of [WriteError]. *)
Definition error_response (writer writer' : ResponseWriter) (err : error) (requestID : string) : Prop :=
  let '(status, body) := classifyError err in
  rw_Status writer' = (match rw_Status writer with None => Some status | s => s end)
  /\ rw_Header writer' = <["X-Content-Type-Options" := ["nosniff"]]> (<["Content-Type" := ["application/json; charset=utf-8"]]>
       (<[RequestIDHeader := [requestID]]> (rw_Header writer)))%string
  /\ rw_Body writer' = (rw_Body writer ++ (json_text (ErrorEnvelope_json
       (mkErrorBody (eb_Code body) (eb_Message body) (eb_Retryable body) (eb_Details body) requestID)) ++ newline))%string.
Lemma WriteError_outcome writer request err w :
  (exists writer' requestID w', WriteError newID writer request err w = (Ok writer', w') /\ error_response writer writer' err requestID)
  \/ fst (WriteError newID writer request err w) = Diverge.
Proof.
  unfold WriteError, mbind. pose proof (requestIDForResponse_no_error request w) as Hn.
  destruct (requestIDForResponse newID request w) as [[requestID|e|] w1]; [left | by destruct (Hn e) | by right].
  unfold error_response. destruct (classifyError err) as [status body]. do 3 eexists. split; [reflexivity |].
  unfold WriteHeader, SetHeader, Header_Set. cbn. by destruct (rw_Status writer).
Qed.
Lemma WriteError_ok writer request err w writer' w' :
  WriteError newID writer request err w = (Ok writer', w') -> exists requestID, error_response writer writer' err requestID.
Proof.
  intros H. destruct (WriteError_outcome writer request err w) as [(writer1 & requestID & w1 & H1 & He) | Hd].
  - rewrite H1 in H. injection H as <- <-. eauto.
  - rewrite H in Hd. discriminate Hd.
Qed.

(** Running the first part of a bind. *)
Lemma bind_try_ok {A B} (c : M W A) (k : result A -> M W B) w r w1 : c w = (r, w1) -> r <> Diverge -> mbind (mtry c) k w = k r w1.
Proof. intros H Hr. unfold mbind, mtry. rewrite H. by destruct r. Qed.
Lemma bind_try_diverge {A B} (c : M W A) (k : result A -> M W B) w w1 : c w = (Diverge, w1) -> fst (mbind (mtry c) k w) = Diverge.
Proof. intros H. unfold mbind, mtry. by rewrite H. Qed.
Lemma bind_ok {A B} (c : M W A) (k : A -> M W B) w a w1 : c w = (Ok a, w1) -> mbind c k w = k a w1.
Proof. intros H. unfold mbind. by rewrite H. Qed.
Lemma bind_diverge {A B} (c : M W A) (k : A -> M W B) w w1 : c w = (Diverge, w1) -> fst (mbind c k w) = Diverge.
Proof. intros H. unfold mbind. by rewrite H. Qed.

(** One step of a handler. *)
Lemma or_error_ok {A} writer request (c : M W A) k w a w1 :
  c w = (Ok a, w1) -> or_error newID writer request c k w = k a w1.
Proof. intros H. unfold or_error, mbind, mtry. by rewrite H. Qed.
Lemma or_error_err {A} writer request (c : M W A) k w e w1 :
  c w = (Err e, w1) -> or_error newID writer request c k w = WriteError newID writer request e w1.
Proof. intros H. unfold or_error, mbind, mtry. by rewrite H. Qed.
Lemma or_error_diverge {A} writer request (c : M W A) k w :
  fst (c w) = Diverge -> fst (or_error newID writer request c k w) = Diverge.
Proof. intros H. unfold or_error, mbind, mtry. destruct (c w) as [[]]; try discriminate H. reflexivity. Qed.

(** ** Listings without their filters *)
Lemma next_cursor_refused scope filters id : cursorScopePattern scope = true -> (length filters <= 7)%nat -> In EmptyString filters ->
  exists e, next_cursor scope filters (Some (uuid_String id)) = Err e /\ classifyError e = (500, internal_body).
Proof.
  intros Hs Hn Hin. rewrite next_cursor_some.
  assert (0 < llen (filters ++ [uuid_String id]) <= maximumCursorValues) as Hlen.
  { unfold maximumCursorValues, llen. rewrite length_app. cbn [length]. lia. }
  destruct (encode_cursor_ok scope _ Hs Hlen) as [Hok Herr].
  destruct (EncodeCursor scope (filters ++ [uuid_String id])) as [c|e|] eqn:E; cbn [rbind].
  - exfalso. destruct Hok as [Hok _]. specialize (Hok eq_refl). rewrite List.Forall_forall in Hok.
    destruct (Hok EmptyString) as [Hne _]; [apply in_app_iff; by left | by apply Hne].
  - eexists. split; [reflexivity | by apply Herr].
  - unfold EncodeCursor in E. cbv zeta in E. apply rbind_diverge in E as [E | (x & _ & E)]; [| discriminate E].
    unfold validateCursorPayload in E. cbv zeta in E. repeat destruct (_ || _) in E; try destruct (existsb _ _) in E; discriminate E.
Qed.

(** C39. A listing of subscriptions, runs or tasks that has a next page is answered by an internal error as soon as one of its optional filters
    is not given: no cursor can be made for the next page, and the items of the page are not shown. *)
Theorem unfiltered_listings_fail :
  (forall input page id items, sp_NextAfterID page = Some id -> project_items subscriptionResponseFromRecord (sp_Items page) = Ok items ->
     In EmptyString (subscription_filters input) ->
     exists e, subscriptionPageResponse input page = Err e /\ classifyError e = (500, internal_body))
  /\ (forall input page id items, rp_NextAfterID page = Some id -> project_items runResponseFromRecord (rp_Items page) = Ok items ->
     In EmptyString (run_filters input) ->
     exists e, runPageResponse input page = Err e /\ classifyError e = (500, internal_body))
  /\ (forall input page id items, tp_NextAfterID page = Some id -> project_items taskResponseFromRecord (tp_Items page) = Ok items ->
     In EmptyString (task_filters (idScopeValue (tl_RunID input)) input) ->
     exists e, taskPageResponse input page = Err e /\ classifyError e = (500, internal_body)).
Proof.
  assert (forall scope filters id (items : list (result json)), cursorScopePattern scope = true -> (length filters <= 7)%nat -> In EmptyString filters ->
    exists e, (cursor <- next_cursor scope filters (Some (uuid_String id)) ;; Ok (page_body items cursor)) = Err e /\ classifyError e = (500, internal_body)) as H.
  { intros scope filters id items Hs Hn Hin. destruct (next_cursor_refused scope filters id Hs Hn Hin) as (e & He & Hc). rewrite He. eauto. }
  split; [| split]; intros input page id items Hnext Hitems Hin.
  - unfold subscriptionPageResponse. rewrite Hitems, Hnext. apply H; [reflexivity | cbn; lia | exact Hin].
  - unfold runPageResponse. rewrite Hitems, Hnext. apply H; [reflexivity | cbn; lia | exact Hin].
  - unfold taskPageResponse. rewrite Hitems, Hnext. apply H; [reflexivity | cbn; lia | exact Hin].
Qed.

(** ** Access control *)
Section Protected.
Context `{A : !Authenticator W}.

(** An answer that refuses the request: 401, 403, or a failure of the authenticator, without running the handler. *)
Definition refused (run : result ResponseWriter * W) : Prop :=
  exists writer request err w, run = WriteError newID writer request err w /\ In (fst (classifyError err)) [401; 403; 500; 503].
(** What [handler] is run on: the request of an authenticated principal that has the permission. *)
Definition admitted_run (permission : string) (handler : Handler W) (writer : ResponseWriter) (request : Request) (w : W)
    (run : result ResponseWriter * W) : Prop :=
  exists token principal requestID w1 w2 request',
    bearerToken request = Ok token /\ Authenticator_Authenticate token w = (Ok principal, w1)
    /\ requestIDForResponse newID request w1 = (Ok requestID, w2)
    /\ run = handler (SetHeader writer RequestIDHeader requestID) request' w2
    /\ principal_Validate principal = Ok tt /\ HasPermission principal permission = true
    /\ Header_Values (req_Header request') authorizationHeader = [] /\ hc_RequestID (req_Context request') = Some requestID
    /\ PrincipalFromContext (hc_Application (req_Context request')) = Some principal
    /\ AuditContextFromContext (hc_Application (req_Context request'))
         = Some (mkAuditContext (pr_subject principal) (pr_actorType principal) requestID).

Lemma refused_WriteError writer request err w :
  In (fst (classifyError err)) [401; 403; 500; 503] -> refused (WriteError newID writer request err w).
Proof. intros H. exists writer, request, err, w. auto. Qed.

Lemma principal_Validate_fields p r : principal_Validate p = Ok r ->
  validAuditText (pr_subject p) maximumSubjectLength = true /\ validActor (pr_actorType p) = true.
Proof.
  unfold principal_Validate, NewPrincipal. intros H. apply rbind_ok in H as (p' & H & _).
  destruct (validAuditText _ _); [| discriminate H]. destruct (validActor _); [auto | discriminate H].
Qed.
Lemma NewAuditContext_ok p requestID audit : NewAuditContext p requestID = Ok audit ->
  audit = mkAuditContext (pr_subject p) (pr_actorType p) requestID /\ validAuditText requestID maximumRequestIDLength = true.
Proof.
  unfold NewAuditContext. intros H. apply rbind_ok in H as (r & _ & H). destruct (validAuditText _ _); [| discriminate H].
  apply Ok_inj in H. auto.
Qed.

Lemma permission_set_no_diverge seen permissions : permission_set seen permissions <> Diverge.
Proof.
  revert seen. induction permissions as [|p l IH]; intros seen; [discriminate |]. cbn [permission_set].
  destruct (negb _); [discriminate |]. destruct (bool_decide _); [discriminate | apply IH].
Qed.
Lemma principal_Validate_no_diverge p : principal_Validate p <> Diverge.
Proof.
  unfold principal_Validate, NewPrincipal. destruct (negb _); [discriminate |]. destruct (negb _); [discriminate |].
  pose proof (permission_set_no_diverge ∅ (Permissions p)). destruct (permission_set _ _); [discriminate | discriminate | done].
Qed.

(** C18. A protected route either refuses the request, or fails to finish because the authenticator does, or runs its handler for the
    principal that the authenticator found for the request's only bearer token and that has the route's permission; the handler then sees
    that principal, the audit context naming it and the request's identity, and no longer the token. *)
Theorem protected_handler permission handler protected writer request w :
  protect newID permission handler = Ok protected ->
  refused (protected writer request w) \/ fst (protected writer request w) = Diverge
  \/ admitted_run permission handler writer request w (protected writer request w).
Proof.
  unfold protect. intros H. apply rbind_ok in H as (middleware & Hm & H). apply Ok_inj in H. subst protected.
  unfold NewAuthenticationMiddleware. destruct (bearerToken request) as [token|e|] eqn:Et.
  2, 3: left; apply refused_WriteError; cbn; tauto.
  destruct (Authenticator_Authenticate token w) as [[principal|e|] w1] eqn:Ea.
  2: { left. rewrite (bind_try_ok _ _ _ _ _ Ea) by discriminate.
       destruct (errors_Is e ErrAuthenticationUnavailable); apply refused_WriteError; cbn; tauto. }
  2: { right. left. exact (bind_try_diverge _ _ _ _ Ea). }
  rewrite (bind_try_ok _ _ _ _ _ Ea) by discriminate.
  destruct (principal_Validate principal) as [[]|e|] eqn:Ev; cbn [is_err].
  2: { left. apply refused_WriteError. cbn. tauto. }
  2: { exfalso. revert Ev. apply principal_Validate_no_diverge. }
  pose proof (requestIDForResponse_no_error request w1) as Hn.
  destruct (requestIDForResponse newID request w1) as [[requestID|e|] w2] eqn:Er; [| by destruct (Hn e) |].
  2: { right. left. exact (bind_diverge _ _ _ _ Er). }
  rewrite (bind_ok _ _ _ _ _ Er).
  destruct (NewAuditContext principal requestID) as [audit|e|] eqn:Eaudit.
  2, 3: left; apply refused_WriteError; cbn; tauto.
  apply NewAuditContext_ok in Eaudit as [-> Hid]. destruct (principal_Validate_fields _ _ Ev) as [Hsub Hact].
  set (request' := WithContext _ _). unfold NewPermissionMiddleware in Hm. apply rbind_ok in Hm as (r & _ & Hm). apply Ok_inj in Hm. subst middleware.
  assert (PrincipalFromContext (hc_Application (req_Context request')) = Some principal) as Hp.
  { unfold PrincipalFromContext. cbn. by rewrite Ev. }
  rewrite Hp. cbn [forallb]. rewrite andb_true_r. destruct (HasPermission principal permission) eqn:Eh; [right; right | left; apply refused_WriteError; cbn; tauto].
  exists token, principal, requestID, w1, w2, request'. repeat (split; [first [eassumption | reflexivity] |]).
  split; [unfold Header_Values; cbn; unfold Header_Del; by rewrite lookup_delete_eq |]. split; [reflexivity |]. split; [exact Hp |].
  unfold AuditContextFromContext. cbn. by rewrite Hact, Hsub, Hid.
Qed.
End Protected.
End Responses.

(** * Facts about the static bearer authenticator

    A token opens exactly the principal it is configured for. *)
Definition entry_of (c : StaticCredential) : staticEntry := mkStaticEntry (sha256 (cred_Token c)) (cred_Principal c).
Definition credential_ok (c : StaticCredential) : Prop :=
  is_err (NewBearerToken (cred_Token c)) = false /\ is_err (principal_Validate (cred_Principal c)) = false.

Lemma static_entries_ok credentials : forall seen entries, static_entries seen credentials = Ok entries ->
  entries = map entry_of credentials /\ List.NoDup (map entry_digest entries) /\
  (forall d, In d seen -> ~ In d (map entry_digest entries)) /\ Forall credential_ok credentials.
Proof.
  induction credentials as [|c credentials IH]; intros seen entries; cbn [static_entries].
  - intros [= <-]. split_and!; [reflexivity | constructor | intros d _ [] | constructor].
  - destruct (is_err (NewBearerToken _)) eqn:E1; [discriminate |]. destruct (is_err (principal_Validate _)) eqn:E2; [discriminate |].
    destruct (existsb _ seen) eqn:E3; [discriminate |]. intros H. apply rbind_ok in H as (rest & Hr & H). injection H as <-.
    destruct (IH _ _ Hr) as (Hd & Hn & Hs & Hv). cbn [map entry_digest]. split_and!.
    + by rewrite Hd.
    + constructor; [apply Hs; by left | exact Hn].
    + intros d Hin [<- | Hin']; [| by apply (Hs d); [right |]].
      assert (existsb (fun d => bool_decide (d = sha256 (cred_Token c))) seen = true) as E; [| congruence].
      apply existsb_exists. exists (sha256 (cred_Token c)). split; [exact Hin | by apply bool_decide_eq_true].
    + by constructor.
Qed.

(** The entry of a digest, when digests are distinct. *)
Lemma find_entry entries e : List.NoDup (map entry_digest entries) -> In e entries ->
  List.find (fun x => bool_decide (entry_digest e = entry_digest x)) entries = Some e.
Proof.
  induction entries as [|x entries IH]; [contradiction |]. cbn [map]. intros Hn Hin. inversion Hn as [|? ? Hx Hn']; subst. cbn [List.find].
  destruct Hin as [-> | Hin]; [by rewrite bool_decide_eq_true_2 |]. rewrite bool_decide_eq_false_2; [by apply IH |].
  intros E. apply Hx. rewrite <- E. by apply in_map.
Qed.
Lemma Authenticate_find entries token : entries <> [] -> Authenticate entries token =
  match List.find (fun e => bool_decide (sha256 token = entry_digest e)) entries with
  | Some e => Ok (entry_principal e)
  | None => Err (Sentinel ErrInvalidCredentials)
  end.
Proof. by destruct entries. Qed.

(** The static authenticator is faithful to its configuration: a list of
    credentials it accepts is not empty, and each has a well-formed token and a
    valid principal; each configured token is authenticated as its own
    principal; a token is authenticated only with the digest of a configured
    one, as that one's principal; and any other token is refused as invalid
    credentials. *)
Theorem static_authenticator credentials entries : NewStaticBearerAuthenticator credentials = Ok entries ->
  credentials <> [] /\
  (forall c, In c credentials -> credential_ok c /\ Authenticate entries (cred_Token c) = Ok (cred_Principal c)) /\
  (forall token p, Authenticate entries token = Ok p -> exists c, In c credentials /\ sha256 token = sha256 (cred_Token c) /\ p = cred_Principal c) /\
  (forall token, (forall c, In c credentials -> sha256 token <> sha256 (cred_Token c)) -> Authenticate entries token = Err (Sentinel ErrInvalidCredentials)).
Proof.
  intros H. assert (credentials <> []) as Hne by (by intros ->). assert (static_entries [] credentials = Ok entries) as He by (by destruct credentials).
  destruct (static_entries_ok _ _ _ He) as (-> & Hn & _ & Hv). assert (map entry_of credentials <> []) as Hne' by (by destruct credentials).
  split_and!; [exact Hne | | |].
  - intros c Hc. split; [exact (proj1 (List.Forall_forall _ _) Hv c Hc) |]. rewrite Authenticate_find by exact Hne'.
    pose proof (find_entry _ (entry_of c) Hn (in_map entry_of _ _ Hc)) as Hf. cbn [entry_of entry_digest] in Hf. by rewrite Hf.
  - intros token p. rewrite Authenticate_find by exact Hne'. destruct (List.find _ _) as [e|] eqn:Ef; [| discriminate]. intros [= <-].
    apply List.find_some in Ef as [Hin Hd]. apply bool_decide_eq_true in Hd. apply in_map_iff in Hin as (c & <- & Hc). by exists c.
  - intros token Hno. rewrite Authenticate_find by exact Hne'. destruct (List.find _ _) as [e|] eqn:Ef; [| reflexivity]. exfalso.
    apply List.find_some in Ef as [Hin Hd]. apply bool_decide_eq_true in Hd. apply in_map_iff in Hin as (c & <- & Hc). by apply (Hno c Hc).
Qed.

(** ** Two configured tokens *)
Definition reader : Principal := mkPrincipal "reader" ActorTypeService {[PermissionOperationsRead]}.
Definition operator : Principal := mkPrincipal "operator" ActorTypeUser {[PermissionSubscriptionsManage]}.
Definition two_credentials : list StaticCredential := [mkStaticCredential "token-1" reader; mkStaticCredential "token-2" operator].
Definition two_entries : list staticEntry := match NewStaticBearerAuthenticator two_credentials with Ok entries => entries | _ => [] end.

Lemma static_authenticator_witness : Authenticate two_entries "token-2" = Ok operator.
Proof.
  destruct (static_authenticator two_credentials two_entries) as (_ & Ht & _); [vm_compute; reflexivity |].
  apply (Ht (mkStaticCredential "token-2" operator)). right. by left.
Defined.
