(* ===== verification/HttpFixtures.v ===== *)
(** * Concrete requests and services of the HTTP witnesses

    A static credential with the read permission, a service that always has
    one more page of subscriptions, and the witnesses of the theorems about
    package httpapi. Nothing here models code. *)
From S2P Require Import Prelude Errors GoStrings GoTime GoJson External Domain MarketData Fixtures Application Listing Subscriptions IngestionQueries InstrumentOptions GoText GoJsonTree DomainJson HttpCore HttpQueries JsonFacts HttpManagement HttpFacts AccessFacts.
Open Scope go_scope.

(** The canonical text of the concrete identities is ASCII. *)
Lemma ascii_layout groups ds : forallb (fun c => byte_at c <? 128) ds = true ->
  forallb (fun c => byte_at c <? 128) (Concrete.layout groups ds) = true.
Proof.
  revert ds. induction groups as [|g [|g' gs] IH]; intros ds H; [reflexivity | |].
  - cbn. rewrite <- (firstn_skipn g ds), forallb_app in H. by apply andb_true_iff in H as [H _].
  - change (Concrete.layout (g :: g' :: gs) ds) with (firstn g ds ++ ("-"%char :: Concrete.layout (g' :: gs) (skipn g ds))).
    rewrite <- (firstn_skipn g ds), forallb_app in H. apply andb_true_iff in H as [H1 H2]. rewrite forallb_app, H1. cbn [andb forallb].
    change (byte_at "-" <? 128) with true. apply IH, H2.
Qed.
Lemma hex_char_ascii d : (d < 16)%N -> (byte_at (Concrete.hex_char d) <? 128) = true.
Proof.
  intros H. assert (In d [0;1;2;3;4;5;6;7;8;9;10;11;12;13;14;15]%N) as Hin by (simpl; lia).
  simpl in Hin. repeat destruct Hin as [<-|Hin]; [reflexivity.. | done].
Qed.
Lemma hex_uuid_ascii id : ascii_text (uuid_String id) = true.
Proof.
  cbn [uuid_String Concrete.hex_uuid]. unfold Concrete.hex_string. rewrite ascii_of_list. apply ascii_layout.
  apply forallb_forall. intros c Hc. apply in_map_iff in Hc as (d & <- & Hd). apply hex_char_ascii.
  pose proof (Concrete.hex_digits_bound 32 id) as Hb. rewrite List.Forall_forall in Hb. by apply Hb.
Qed.

(** ** A request for the subscriptions, without filters *)
Definition reader_principal : Principal := mkPrincipal "ops" ActorTypeUser {[PermissionOperationsRead]}.
#[export] Instance reader_authenticator : Authenticator unit := {| Authenticator_Authenticate := fun token =>
  if token =s "secret" then mret reader_principal else mthrow (Sentinel ErrInvalidCredentials) |}.
Definition one_subscription : SubscriptionRecord :=
  mkSubscriptionRecord hourly "bybit" "instrument.crypto.btc-usdt" "provider.bybit.btc-usdt" "BTCUSDT".
#[export] Instance endless_subscriptions : SubscriptionManagement unit := {|
  Management_List := fun _ => mret (mkSubscriptionPage [one_subscription] (Some (uuid7 5)));
  Management_Create := fun _ _ => mthrow (Plain "read only"); Management_Update := fun _ _ => mthrow (Plain "read only") |}.
Definition new_id : M unit ID := mret (uuid7 99).
Definition get_subscriptions (query : string) : Request :=
  mkRequest "GET" query (<["Authorization" := ["bearer  secret"]]> ∅)%string ∅ EmptyString (mkHttpContext None (mkContext None None)).
Definition read_route : result (Handler unit) := protect new_id PermissionOperationsRead (SubscriptionHandler_list new_id).
Definition served (request : Request) : option Z :=
  match read_route with
  | Ok handler => match fst (handler new_response request tt) with Ok response => rw_Status response | _ => None end
  | _ => None
  end.

Example unfiltered_listing_is_500 : served (get_subscriptions EmptyString) = Some 500.
Proof. vm_compute. reflexivity. Qed.
Example filtered_listing_is_200 :
  served (get_subscriptions "provider=bybit&instrument_code=instrument.crypto.btc-usdt&interval=1h&enabled=true") = Some 200.
Proof. vm_compute. reflexivity. Qed.
Example unknown_key_is_400 : served (get_subscriptions "offset=1") = Some 400.
Proof. vm_compute. reflexivity. Qed.

(** ** Witnesses *)
Definition bars_positions : list string := ["instrument.aapl"; "provider.x"; "1h"; "desc"; "-"; "-"; "2024-01-02T03:04:05Z"]%string.
Definition bars_cursor : string :=
  "eyJ2IjoxLCJzY29wZSI6ImJhcnMiLCJ2YWx1ZXMiOlsiaW5zdHJ1bWVudC5hYXBsIiwicHJvdmlkZXIueCIsIjFoIiwiZGVzYyIsIi0iLCItIiwiMjAyNC0wMS0wMlQwMzowNDowNVoiXX0".
Lemma cursor_round_trip_witness :
  DecodeCursor bars_cursor "bars" 7 = Ok bars_positions /\ DecodeCursor bars_cursor "instruments.enabled" 7 = Err invalidCursor.
Proof.
  destruct (cursor_round_trip "bars" bars_positions bars_cursor) as [H1 H2]; [vm_compute; reflexivity | reflexivity | vm_compute; discriminate |].
  split; [exact H1 | apply H2; left; discriminate].
Defined.

Definition given_filters : list string := ["bybit"; "instrument.crypto.btc-usdt"; "1h"; "true"]%string.
Lemma page_cursors_witness :
  exists cursor, next_cursor collectionSubscriptionsCursorScope given_filters (Some (uuid_String (uuid7 5))) = Ok (Some cursor)
    /\ cursor_position cursor collectionSubscriptionsCursorScope given_filters = Ok (Some (uuid7 5)).
Proof.
  destruct (page_cursors hex_uuid_ascii collectionSubscriptionsCursorScope given_filters (uuid7 5)) as (_ & _ & H);
    [reflexivity | cbn; lia | reflexivity |].
  eexists. split; [vm_compute; reflexivity |]. apply H; [vm_compute; reflexivity | reflexivity | vm_compute; discriminate].
Defined.

Lemma protected_handler_witness :
  match read_route with
  | Ok protected =>
      let run := protected new_response (get_subscriptions "limit=1") tt in
      (refused new_id run \/ fst run = Diverge
       \/ admitted_run new_id PermissionOperationsRead (SubscriptionHandler_list new_id) new_response (get_subscriptions "limit=1") tt run)
  | _ => False
  end.
Proof.
  destruct read_route as [protected|e|] eqn:E; [| discriminate E | discriminate E].
  exact (protected_handler new_id PermissionOperationsRead (SubscriptionHandler_list new_id) protected new_response
           (get_subscriptions "limit=1") tt E).
Defined.

Definition retry_body : string := dq " {'reason':'provider is back'} ".
Lemma request_bodies_witness :
  DecodeJSON taskCommandRequest_fields (mkTaskCommandRequest EmptyString) retry_body DefaultMaximumRequestBodyBytes
    = Ok (mkTaskCommandRequest "provider is back") /\ slen retry_body <= DefaultMaximumRequestBodyBytes.
Proof.
  assert (DecodeJSON taskCommandRequest_fields (mkTaskCommandRequest EmptyString) retry_body DefaultMaximumRequestBodyBytes
    = Ok (mkTaskCommandRequest "provider is back")) as E by (vm_compute; reflexivity).
  split; [exact E |].
  pose proof (request_bodies taskCommandRequest_fields (mkTaskCommandRequest EmptyString) retry_body DefaultMaximumRequestBodyBytes eq_refl) as H.
  rewrite E in H. exact (proj1 H).
Defined.

Lemma json_round_trips_witness :
  reads_back id_MarshalJSON id_UnmarshalJSON (uuid7 5) /\ reads_back instant_MarshalJSON instant_UnmarshalJSON (morning + 1200000).
Proof.
  destruct (json_round_trips hex_uuid_ascii) as (Hid & _ & Ht & _).
  split; [apply Hid; [discriminate | reflexivity] | apply Ht; [discriminate | vm_compute; split; discriminate]].
Defined.
