(* ===== verification/ProviderClient.v ===== *)
(** * internal/providers: what the packages of the HTTP adapters repeat

    errors.go, client.go and adapter.go of the packages bybit and coingecko say
    the same up to the name of the package: the classified errors, the base
    URL, the bounded response body and the delay a response asks for. The
    definitions here are given that name. *)
From S2P Require Import Prelude Errors GoStrings GoTime GoJson External Domain Ports GoText.
Open Scope go_scope.

(** ** errors.go *)
Section ProviderErrors.
Context (package : string).

Definition providerError (providerCode code message : string) (retryAfter : option Duration) (cause : option error) : error :=
  match NewProviderError providerCode code message retryAfter cause with
  | Ok classified => classified
  | Err e => Wrap ("construct " ++ package ++ " provider error") e
  | Diverge => Wrap ("construct " ++ package ++ " provider error") (Sentinel ErrInvalidData)
  end.
Definition badRequestError (providerCode message : string) (cause : option error) : error :=
  providerError providerCode ProviderErrorBadRequest message None cause.
Definition invalidInstrumentError (providerCode message : string) (cause : option error) : error :=
  providerError providerCode ProviderErrorInvalidInstrument message None cause.
Definition unsupportedIntervalError (providerCode : string) (cause : option error) : error :=
  providerError providerCode ProviderErrorUnsupportedInterval "provider interval is unsupported" None cause.
Definition invalidResponseError (providerCode message : string) (cause : option error) : error :=
  providerError providerCode ProviderErrorInvalidResponse message None cause.
End ProviderErrors.

(** A failure of [c] is the error [fail] makes of it. *)
Definition or_fail {A} (fail : option error -> error) (c : result A) : result A :=
  match c with Ok a => Ok a | Err e => Err (fail (Some e)) | Diverge => Diverge end.
Definition some_or_fail {A} (fail : option error -> error) (o : option A) : result A :=
  match o with Some a => Ok a | None => Err (fail (Some (Plain "decode JSON"))) end.

(** ** adapter.go

    The client and the clock are the world's; a configuration without them uses
    the defaults of package net/http and [time.Now]. *)
Record HttpConfig := mkHttpConfig { cfg_BaseURL : string; cfg_UserAgent : string; cfg_MaxResponseBytes : Z }.
Record HttpAdapter := mkHttpAdapter {
  ad_providerCode : Code; ad_baseURL : URL; ad_userAgent : string; ad_maxResponseBytes : Z }.

Definition with_path (u : URL) (path : string) : URL :=
  mkURL (url_Scheme u) (url_Host u) (url_HasUser u) path (url_RawQuery u) (url_Fragment u).
Definition with_query (u : URL) (query : string) : URL :=
  mkURL (url_Scheme u) (url_Host u) (url_HasUser u) (url_Path u) query (url_Fragment u).

Definition defaultUserAgent : string := "xr-trading-market-info/1".
Definition usable_base (u : URL) : bool :=
  ((url_Scheme u =s "http") || (url_Scheme u =s "https")) && (url_Host u <>s EmptyString) && negb (url_HasUser u)
  && (url_RawQuery u =s EmptyString) && (url_Fragment u =s EmptyString).

Definition new_adapter `{HttpLib} (package name defaultURL : string) (defaultLimit : Z) (config : HttpConfig) : result HttpAdapter :=
  let invalid what := Wrap ("construct " ++ package ++ " adapter: " ++ what) (Sentinel ErrInvalidData) in
  let baseURL := if TrimSpace (cfg_BaseURL config) =s EmptyString then defaultURL else TrimSpace (cfg_BaseURL config) in
  match url_Parse baseURL with
  | None => Err (invalid "invalid base URL"%string)
  | Some parsedURL =>
      failif negb (usable_base parsedURL), invalid "invalid base URL"%string ;;
      providerCode <- wrap ("construct " ++ package ++ " provider code") (ParseCode name) ;;
      let responseLimit := if cfg_MaxResponseBytes config =? 0 then defaultLimit else cfg_MaxResponseBytes config in
      failif responseLimit <? 0, invalid "response limit must be positive"%string ;;
      let userAgent := if TrimSpace (cfg_UserAgent config) =s EmptyString then defaultUserAgent else TrimSpace (cfg_UserAgent config) in
      failif has_byte 13 userAgent || has_byte 10 userAgent, invalid "invalid user agent"%string ;;
      Ok (mkHttpAdapter providerCode (with_path parsedURL (TrimRight 47 (url_Path parsedURL))) userAgent responseLimit)
  end.

(** ** client.go *)
Section Client.
Context {W : Type} `{L : HttpLib} `{C : HttpClient W} (package : string) (ctxErr : M W (option error)) (adapter : HttpAdapter).

Definition success_status (status : Z) : bool := (200 <=? status) && (status <? 300).

(** The exchange up to a successful response: the response and its body.
    [classify] is the package's [classifyHTTPError]. *)
Definition exchange (classify : Response -> string -> M W error) (path : string) (query : list (string * string)) : M W (Response * string) :=
  let code := ad_providerCode adapter in
  let requestURL := with_query (with_path (ad_baseURL adapter) (TrimRight 47 (url_Path (ad_baseURL adapter)) ++ path)%string) (Values_Encode query) in
  match http_NewRequest requestURL with
  | Some e => mthrow (badRequestError package code "market request could not be constructed" (Some e))
  | None =>
      let header := Header_Set (Header_Set ∅ "Accept" "application/json") "User-Agent" (ad_userAgent adapter) in
      sent <-- mtry (http_Do requestURL header) ;;
      match sent with
      | Diverge => mlift Diverge
      | Err e =>
          canceled <-- ctxErr ;;
          match canceled with
          | Some ctxErr => mthrow ctxErr
          | None => mthrow (providerError package code ProviderErrorNetwork "provider network request failed" None (Some e))
          end
      | Ok response =>
          let limit := ad_maxResponseBytes adapter in
          body <-- mlift (or_fail (providerError package code ProviderErrorNetwork "provider response could not be read" None)
                                  (ReadLimited response (wrap64 (limit + 1)))) ;;
          mfailif limit <? slen body, invalidResponseError package code "provider response exceeded size limit" None ;;
          if success_status (resp_StatusCode response) then mret (response, body)
          else e <-- classify response body ;; mthrow e
      end
  end.

(** [Retry-After]: seconds, whose number of nanoseconds may overflow, or a date
    after [now]. *)
Definition retry_after (header : Header) (now : Time) : option Duration :=
  let value := TrimSpace (Header_Get header "Retry-After") in
  if value =s EmptyString then None
  else
    let date := match http_ParseTime value with
      | Some instant => if After instant now then Some (Sub instant now) else None
      | None => None end in
    match ParseInt64 value with
    | Some seconds => if 0 <? seconds then Some (wrap64 (seconds * Second)) else date
    | None => date
    end.
End Client.

(** ** mapping.go *)
Definition instantFromMilliseconds (milliseconds : Z) : result Time :=
  failif milliseconds <=? 0, Plain "timestamp milliseconds must be positive" ;;
  NewUTCInstant (FromUnixMilli milliseconds).
Definition instantFromSeconds (seconds : Z) : result Time :=
  failif seconds <=? 0, Plain "timestamp seconds must be positive" ;;
  NewUTCInstant (FromUnix seconds).

Section Payloads.
Context `{D : DecimalLib}.

(** A quote or a bar of the instrument [r]. *)
Definition quote_of (r : ProviderInstrumentRef) (lastPrice : Decimal) (marketTime receivedAt : Time) (raw : string) : ProviderQuote := {|
  pq_ProviderInstrumentID := ref_ProviderInstrumentID r; pq_InstrumentID := ref_InstrumentID r; pq_AssetID := ref_AssetID r;
  pq_ProviderCode := ref_ProviderCode r; pq_LastPrice := lastPrice; pq_BidPrice := None; pq_BidSize := None; pq_AskPrice := None;
  pq_AskSize := None; pq_Open24H := None; pq_High24H := None; pq_Low24H := None; pq_BaseVolume24H := None; pq_QuoteVolume24H := None;
  pq_MarketTime := marketTime; pq_ReceivedAt := receivedAt; pq_RawPayload := raw |}.
End Payloads.
