(* ===== verification/Bybit.v ===== *)
(** * internal/providers/bybit: the Bybit V5 Spot adapter

    Latest quotes and pages of bars of the public REST interface, decoded and
    checked against the adapter contract. The client is the world's
    [HttpClient]; [ctxErr] is [ctx.Err()], and contexts and adapters are not
    nil. *)
From S2P Require Import Prelude Errors GoStrings GoTime GoJson External Domain MarketData Ports Registry Service GoText GoJsonTree DomainJson ProviderClient.
Open Scope go_scope.

(** ** errors.go *)
Definition providerError := ProviderClient.providerError "bybit".
Definition badRequestError := ProviderClient.badRequestError "bybit".
Definition invalidInstrumentError := ProviderClient.invalidInstrumentError "bybit".
Definition unsupportedIntervalError := ProviderClient.unsupportedIntervalError "bybit".
Definition invalidResponseError := ProviderClient.invalidResponseError "bybit".

(** ** adapter.go *)
Definition DefaultBaseURL : string := "https://api.bybit.com".
Definition defaultResponseLimit : Z := 4194304.
Definition maxQuoteBatchSize : Z := 100.
Definition maxBarsPerRequest : Z := 1000.
Definition spotMarket : string := "spot".
Definition New `{HttpLib} (config : HttpConfig) : result HttpAdapter := new_adapter "bybit" "bybit" DefaultBaseURL defaultResponseLimit config.

(** ** client.go *)
Definition tickersPath : string := "/v5/market/tickers".
Definition klinePath : string := "/v5/market/kline".
Record responseEnvelope (T : Type) := mkEnvelope { env_RetCode : Z; env_RetMsg : string; env_Result : T; env_Time : Z }.
Arguments mkEnvelope {T}.
Arguments env_RetCode {T}.
Arguments env_RetMsg {T}.
Arguments env_Result {T}.
Arguments env_Time {T}.
(** [retExtInfo] is decoded and not read. *)
Definition envelope_fields {T} (fields : RawFields T) : RawFields (responseEnvelope T) :=
  [tree_field (int_field "retCode" (fun v e => mkEnvelope v (env_RetMsg e) (env_Result e) (env_Time e)));
   tree_field (string_field "retMsg" (fun v e => mkEnvelope (env_RetCode e) v (env_Result e) (env_Time e)));
   struct_field "result" fields env_Result (fun v e => mkEnvelope (env_RetCode e) (env_RetMsg e) v (env_Time e));
   tree_field (int_field "time" (fun v e => mkEnvelope (env_RetCode e) (env_RetMsg e) (env_Result e) v));
   ("retExtInfo"%string, fun _ e => (e, false))].

(** ** quotes.go *)
Record tickerResult := mkTickerResult { tr_Category : string; tr_List : list string }.
Definition tickerResult_fields : RawFields tickerResult :=
  [tree_field (string_field "category" (fun v r => mkTickerResult v (tr_List r)));
   raws_field "list" (fun v r => mkTickerResult (tr_Category r) v)].
Record spotTicker := mkSpotTicker {
  tk_Symbol : string; tk_BidPrice : string; tk_BidSize : string; tk_AskPrice : string; tk_AskSize : string; 
  tk_LastPrice : string; tk_Previous24H : string; tk_High24H : string; tk_Low24H : string; tk_Turnover24H : string; tk_BaseVolume24H : string }.
Definition zeroTicker : spotTicker := mkSpotTicker EmptyString EmptyString EmptyString EmptyString EmptyString EmptyString EmptyString EmptyString EmptyString EmptyString EmptyString.
Definition spotTicker_fields : RawFields spotTicker :=
  [tree_field (string_field "symbol" (fun v t => mkSpotTicker v (tk_BidPrice t) (tk_BidSize t) (tk_AskPrice t) (tk_AskSize t) (tk_LastPrice t) (tk_Previous24H t) (tk_High24H t) (tk_Low24H t) (tk_Turnover24H t) (tk_BaseVolume24H t)));
   tree_field (string_field "bid1Price" (fun v t => mkSpotTicker (tk_Symbol t) v (tk_BidSize t) (tk_AskPrice t) (tk_AskSize t) (tk_LastPrice t) (tk_Previous24H t) (tk_High24H t) (tk_Low24H t) (tk_Turnover24H t) (tk_BaseVolume24H t)));
   tree_field (string_field "bid1Size" (fun v t => mkSpotTicker (tk_Symbol t) (tk_BidPrice t) v (tk_AskPrice t) (tk_AskSize t) (tk_LastPrice t) (tk_Previous24H t) (tk_High24H t) (tk_Low24H t) (tk_Turnover24H t) (tk_BaseVolume24H t)));
   tree_field (string_field "ask1Price" (fun v t => mkSpotTicker (tk_Symbol t) (tk_BidPrice t) (tk_BidSize t) v (tk_AskSize t) (tk_LastPrice t) (tk_Previous24H t) (tk_High24H t) (tk_Low24H t) (tk_Turnover24H t) (tk_BaseVolume24H t)));
   tree_field (string_field "ask1Size" (fun v t => mkSpotTicker (tk_Symbol t) (tk_BidPrice t) (tk_BidSize t) (tk_AskPrice t) v (tk_LastPrice t) (tk_Previous24H t) (tk_High24H t) (tk_Low24H t) (tk_Turnover24H t) (tk_BaseVolume24H t)));
   tree_field (string_field "lastPrice" (fun v t => mkSpotTicker (tk_Symbol t) (tk_BidPrice t) (tk_BidSize t) (tk_AskPrice t) (tk_AskSize t) v (tk_Previous24H t) (tk_High24H t) (tk_Low24H t) (tk_Turnover24H t) (tk_BaseVolume24H t)));
   tree_field (string_field "prevPrice24h" (fun v t => mkSpotTicker (tk_Symbol t) (tk_BidPrice t) (tk_BidSize t) (tk_AskPrice t) (tk_AskSize t) (tk_LastPrice t) v (tk_High24H t) (tk_Low24H t) (tk_Turnover24H t) (tk_BaseVolume24H t)));
   tree_field (string_field "highPrice24h" (fun v t => mkSpotTicker (tk_Symbol t) (tk_BidPrice t) (tk_BidSize t) (tk_AskPrice t) (tk_AskSize t) (tk_LastPrice t) (tk_Previous24H t) v (tk_Low24H t) (tk_Turnover24H t) (tk_BaseVolume24H t)));
   tree_field (string_field "lowPrice24h" (fun v t => mkSpotTicker (tk_Symbol t) (tk_BidPrice t) (tk_BidSize t) (tk_AskPrice t) (tk_AskSize t) (tk_LastPrice t) (tk_Previous24H t) (tk_High24H t) v (tk_Turnover24H t) (tk_BaseVolume24H t)));
   tree_field (string_field "turnover24h" (fun v t => mkSpotTicker (tk_Symbol t) (tk_BidPrice t) (tk_BidSize t) (tk_AskPrice t) (tk_AskSize t) (tk_LastPrice t) (tk_Previous24H t) (tk_High24H t) (tk_Low24H t) v (tk_BaseVolume24H t)));
   tree_field (string_field "volume24h" (fun v t => mkSpotTicker (tk_Symbol t) (tk_BidPrice t) (tk_BidSize t) (tk_AskPrice t) (tk_AskSize t) (tk_LastPrice t) (tk_Previous24H t) (tk_High24H t) (tk_Low24H t) (tk_Turnover24H t) v))].

(** ** bars.go *)
Definition cursorPrefix : string := "v1:end-ms:".
Record klineResult := mkKlineResult { kr_Category : string; kr_Symbol : string; kr_List : list string }.
Definition klineResult_fields : RawFields klineResult :=
  [tree_field (string_field "category" (fun v r => mkKlineResult v (kr_Symbol r) (kr_List r)));
   tree_field (string_field "symbol" (fun v r => mkKlineResult (kr_Category r) v (kr_List r)));
   raws_field "list" (fun v r => mkKlineResult (kr_Category r) (kr_Symbol r) v)].

Section Adapter.
Context `{D : DecimalLib} {W : Type} `{L : HttpLib} `{C : HttpClient W} (now : M W Time) (ctxErr : M W (option error)) (adapter : HttpAdapter).
Notation code := (ad_providerCode adapter).

Definition retryDelay (header : Header) (now : Time) (fallback : Duration) : Duration :=
  match retry_after header now with
  | Some delay => delay
  | None =>
      let value := TrimSpace (Header_Get header "X-Bapi-Limit-Reset-Timestamp") in
      if value =s EmptyString then fallback
      else match ParseInt64 value with
        | Some milliseconds => let reset := FromUnixMilli milliseconds in if After reset now then Sub reset now else fallback
        | None => fallback
        end
  end.

Definition classifyHTTPError (response : Response) (body : string) : M W error :=
  let cause := Some (Plain "bybit HTTP status") in
  let limited fallback message :=
    now <-- now ;;
    mret (providerError code ProviderErrorRateLimited message (Some (retryDelay (resp_Header response) now fallback)) cause) in
  let status := resp_StatusCode response in
  if status =? 401 then mret (providerError code ProviderErrorUnauthorized "provider rejected authorization" None cause)
  else if status =? 403 then limited (10 * Minute) "provider access is temporarily forbidden"%string
  else if status =? 429 then limited Second "provider rate limit reached"%string
  else if (status =? 400) || (status =? 404) || (status =? 405) then mret (badRequestError code "provider rejected market request" cause)
  else if 500 <=? status then mret (providerError code ProviderErrorTemporaryUnavailable "provider service is unavailable" None cause)
  else mret (providerError code ProviderErrorUnknown "provider returned an unexpected HTTP status" None cause).

Definition one_of (z : Z) (l : list Z) : bool := existsb (Z.eqb z) l.
Definition classifyRetCode (header : Header) (retCode : Z) (retMessage : string) : M W error :=
  let cause := Some (Plain "bybit retCode") in
  if one_of retCode [10006; 429] then
    now <-- now ;;
    mret (providerError code ProviderErrorRateLimited "provider rate limit reached" (Some (retryDelay header now Second)) cause)
  else if one_of retCode [10000; 10016; 500000; 170001; 170007; 170032] then
    mret (providerError code ProviderErrorTemporaryUnavailable "provider service is temporarily unavailable" None cause)
  else if one_of retCode [-2015; 33004; 10003; 10004; 10005; 10007; 10008; 10009; 10010; 10024; 10027] then
    mret (providerError code ProviderErrorUnauthorized "provider authorization or access was rejected" None cause)
  else if one_of retCode [10029; 170121; 181012] then mret (invalidInstrumentError code "provider instrument is invalid" cause)
  else if one_of retCode [10001; 10002; 10017] then mret (badRequestError code "provider rejected market request parameters" cause)
  else mret (providerError code ProviderErrorUnknown "provider returned an unclassified error" None cause).

Definition getJSON {T} (fields : RawFields T) (zero : T) (path : string) (query : list (string * string)) : M W (responseEnvelope T) :=
  do* (response, body) := exchange "bybit" ctxErr adapter classifyHTTPError path query ;;
  do* (envelope, rest) := mlift (some_or_fail (invalidResponseError code "provider returned malformed JSON")
    (Decode (decode_struct (envelope_fields fields)) (mkEnvelope 0 EmptyString zero 0) body)) ;;
  mfailif negb (only_space rest), invalidResponseError code "provider returned trailing JSON" None ;;
  if negb (env_RetCode envelope =? 0) then
    e <-- classifyRetCode (resp_Header response) (env_RetCode envelope) (env_RetMsg envelope) ;; mthrow e
  else
    mfailif env_Time envelope <=? 0, invalidResponseError code "provider response time is missing" None ;;
    mret envelope.

Definition Capabilities : M W ProviderCapabilities :=
  canceled <-- ctxErr ;;
  match canceled with
  | Some e => mthrow e
  | None => mret (mkProviderCapabilities code [mkProviderMarketCapability spotMarket [AssetTypeCrypto] [InstrumentTypeSpot] true true
                    [BarInterval1Hour; BarInterval1Day] maxQuoteBatchSize maxBarsPerRequest])
  end.

(** ** mapping.go *)
(** [^[A-Z0-9]+$] *)
Definition upper_alnum (c : ascii) : bool := in_range 65 90 (byte_at c) || is_digit c.
Fixpoint all_upper_alnum (s : string) : bool := match s with EmptyString => true | String c s' => upper_alnum c && all_upper_alnum s' end.
Definition spotSymbolPattern (s : string) : bool := negb (s =s EmptyString) && all_upper_alnum s.

Definition validateSpotReference (r : ProviderInstrumentRef) : result unit :=
  or_fail (badRequestError code "provider instrument reference is invalid") (reference_Validate r) ;;;
  failif (ref_ProviderCode r <>s code) || (ref_ProviderMarket r <>s spotMarket) || (ref_AssetType r <>s AssetTypeCrypto)
         || (ref_InstrumentType r <>s InstrumentTypeSpot) || negb (spotSymbolPattern (ref_ExternalSymbol r)),
         invalidInstrumentError code "provider instrument is not a Bybit Spot mapping" None ;;
  Ok tt.

Definition bybitInterval (interval : string) : result (string * Duration) :=
  if interval =s BarInterval1Hour then Ok ("60"%string, Hour)
  else if interval =s BarInterval1Day then Ok ("D"%string, 24 * Hour)
  else Err (Plain "unsupported Bybit interval").

Definition parseRequiredDecimal (value : string) : result Decimal :=
  failif value =s EmptyString, Plain "required decimal is empty" ;; ParseDecimal value.
Definition parseOptionalDecimal (value : string) : result (option Decimal) :=
  if value =s EmptyString then Ok None else (parsed <- ParseDecimal value ;; Ok (Some parsed)).
Fixpoint requested_symbols (requested : gmap string ProviderInstrumentRef) (references : list ProviderInstrumentRef) :
    result (gmap string ProviderInstrumentRef) :=
  match references with
  | [] => Ok requested
  | r :: rest =>
      validateSpotReference r ;;;
      failif not_nil (requested !! ref_ExternalSymbol r), invalidInstrumentError code "provider symbol is mapped more than once" None ;;
      requested_symbols (<[ref_ExternalSymbol r := r]> requested) rest
  end.
Definition validateSpotReferences (references : list ProviderInstrumentRef) (maximum : Z) : result (gmap string ProviderInstrumentRef) :=
  or_fail (badRequestError code "provider instrument references are invalid") (ValidateLatestQuoteBatch code references []) ;;;
  failif maximum <? llen references, badRequestError code "provider quote batch exceeds adapter limit" None ;;
  requested_symbols ∅ references.

Definition mapTicker (reference : ProviderInstrumentRef) (ticker : spotTicker) (marketTime receivedAt : Time) (raw : string) : result ProviderQuote :=
  lastPrice <- parseRequiredDecimal (tk_LastPrice ticker) ;;
  bidPrice <- parseOptionalDecimal (tk_BidPrice ticker) ;;
  bidSize <- parseOptionalDecimal (tk_BidSize ticker) ;;
  askPrice <- parseOptionalDecimal (tk_AskPrice ticker) ;;
  askSize <- parseOptionalDecimal (tk_AskSize ticker) ;;
  open24H <- parseOptionalDecimal (tk_Previous24H ticker) ;;
  high24H <- parseOptionalDecimal (tk_High24H ticker) ;;
  low24H <- parseOptionalDecimal (tk_Low24H ticker) ;;
  baseVolume24H <- parseOptionalDecimal (tk_BaseVolume24H ticker) ;;
  quoteVolume24H <- parseOptionalDecimal (tk_Turnover24H ticker) ;;
  let quote := {|
    pq_ProviderInstrumentID := ref_ProviderInstrumentID reference; pq_InstrumentID := ref_InstrumentID reference;
    pq_AssetID := ref_AssetID reference; pq_ProviderCode := ref_ProviderCode reference; pq_LastPrice := lastPrice;
    pq_BidPrice := bidPrice; pq_BidSize := bidSize; pq_AskPrice := askPrice; pq_AskSize := askSize; pq_Open24H := open24H;
    pq_High24H := high24H; pq_Low24H := low24H; pq_BaseVolume24H := baseVolume24H; pq_QuoteVolume24H := quoteVolume24H;
    pq_MarketTime := marketTime; pq_ReceivedAt := receivedAt; pq_RawPayload := raw |} in
  quote_ValidateFor quote reference ;;;
  Ok quote.

(** The loop over the tickers, with the symbols seen; [single] says that one
    symbol was asked for. *)
Fixpoint map_tickers (requested : gmap string ProviderInstrumentRef) (single : bool) (marketTime receivedAt : Time) (seen : gset string)
    (quotes : list ProviderQuote) (raws : list string) : result (list ProviderQuote) :=
  match raws with
  | [] => Ok quotes
  | raw :: rest =>
      ticker <- some_or_fail (invalidResponseError code "provider returned a malformed ticker")
                  (Unmarshal (decode_struct spotTicker_fields) zeroTicker raw) ;;
      failif tk_Symbol ticker =s EmptyString, invalidResponseError code "provider ticker symbol is missing" None ;;
      failif bool_decide (tk_Symbol ticker ∈ seen), invalidResponseError code "provider returned a duplicate ticker" None ;;
      let seen := {[tk_Symbol ticker]} ∪ seen in
      match requested !! tk_Symbol ticker with
      | None =>
          failif single, invalidResponseError code "provider returned an unrequested ticker" None ;;
          map_tickers requested single marketTime receivedAt seen quotes rest
      | Some reference =>
          quote <- or_fail (invalidResponseError code "provider ticker fields are invalid") (mapTicker reference ticker marketTime receivedAt raw) ;;
          map_tickers requested single marketTime receivedAt seen (quotes ++ [quote]) rest
      end
  end.

Definition ticker_query (references : list ProviderInstrumentRef) : list (string * string) :=
  ("category", spotMarket)%string :: match references with [r] => [("symbol"%string, ref_ExternalSymbol r)] | _ => [] end.
Definition FetchLatestQuotes (references : list ProviderInstrumentRef) : M W (list ProviderQuote) :=
  requested <-- mlift (validateSpotReferences references maxQuoteBatchSize) ;;
  envelope <-- getJSON tickerResult_fields (mkTickerResult EmptyString []) tickersPath (ticker_query references) ;;
  mfailif tr_Category (env_Result envelope) <>s spotMarket, invalidResponseError code "provider returned an unexpected market category" None ;;
  marketTime <-- mlift (or_fail (invalidResponseError code "provider returned an invalid market time") (instantFromMilliseconds (env_Time envelope))) ;;
  time <-- now ;;
  receivedAt <-- mlift (or_fail (invalidResponseError code "collection clock returned an invalid time") (NewUTCInstant time)) ;;
  quotes <-- mlift (map_tickers requested (llen references =? 1) marketTime receivedAt ∅ [] (tr_List (env_Result envelope))) ;;
  _ <-- mlift (or_fail (invalidResponseError code "provider ticker batch violated adapter contract") (ValidateLatestQuoteBatch code references quotes)) ;;
  mret quotes.

(** ** bars.go *)
Definition ceilUnixMilliseconds (value : Time) : Z :=
  UnixMilli value + (if Nanosecond_of value mod Millisecond =? 0 then 0 else 1).
Definition exclusiveEndMilliseconds (value : Time) : Z := ceilUnixMilliseconds value.
Definition effectiveEndMilliseconds (request : FetchBarsRequest) : result Z :=
  let stop := exclusiveEndMilliseconds (fbr_EndTime request) in
  if fbr_Cursor request =s EmptyString then Ok stop
  else
    failif negb (HasPrefix (fbr_Cursor request) cursorPrefix), Plain "unexpected cursor version" ;;
    match ParseInt64 (TrimPrefix (fbr_Cursor request) cursorPrefix) with
    | None => Err (Plain "cursor is outside request range")
    | Some parsed =>
        failif (parsed <=? ceilUnixMilliseconds (fbr_StartTime request)) || (stop <=? parsed), Plain "cursor is outside request range" ;;
        Ok parsed
    end.

Definition mapKline (reference : ProviderInstrumentRef) (interval : string) (duration : Duration) (providerTime receivedAt : Time) (raw : string) :
    result (ProviderBar * Z) :=
  match Unmarshal decode_strings [] raw with
  | Some [start; open; high; low; close; baseVolume; quoteVolume] =>
      match ParseInt64 start with
      | None => Err (Plain "parse Bybit kline start")
      | Some openMilliseconds =>
          failif openMilliseconds <=? 0, Plain "parse Bybit kline start" ;;
          openTime <- instantFromMilliseconds openMilliseconds ;;
          closeTime <- NewUTCInstant (Add openTime duration) ;;
          open <- parseRequiredDecimal open ;;
          high <- parseRequiredDecimal high ;;
          low <- parseRequiredDecimal low ;;
          close <- parseRequiredDecimal close ;;
          baseVolume <- parseRequiredDecimal baseVolume ;;
          quoteVolume <- parseRequiredDecimal quoteVolume ;;
          let bar := {|
            pb_ProviderInstrumentID := ref_ProviderInstrumentID reference; pb_InstrumentID := ref_InstrumentID reference;
            pb_AssetID := ref_AssetID reference; pb_ProviderCode := ref_ProviderCode reference; pb_Interval := interval;
            pb_OpenTime := openTime; pb_CloseTime := closeTime; pb_Open := open; pb_High := high; pb_Low := low; pb_Close := close;
            pb_BaseVolume := Some baseVolume; pb_QuoteVolume := Some quoteVolume; pb_TradeCount := None;
            pb_IsClosed := negb (After closeTime providerTime) && negb (After closeTime receivedAt);
            pb_ProviderUpdatedAt := None; pb_ReceivedAt := receivedAt; pb_RawPayload := raw |} in
          bar_ValidateFor bar reference ;;;
          Ok (bar, openMilliseconds)
      end
  | _ => Err (Plain "decode Bybit kline tuple")
  end.

Fixpoint map_klines (request : FetchBarsRequest) (duration : Duration) (providerTime receivedAt : Time) (seen : gset Z)
    (bars : list ProviderBar) (raws : list string) : result (list ProviderBar) :=
  match raws with
  | [] => Ok bars
  | raw :: rest =>
      match mapKline (fbr_Instrument request) (fbr_Interval request) duration providerTime receivedAt raw with
      | Ok (bar, openMilliseconds) =>
          failif bool_decide (openMilliseconds ∈ seen), invalidResponseError code "provider returned a duplicate bar" None ;;
          map_klines request duration providerTime receivedAt ({[openMilliseconds]} ∪ seen) (bars ++ [bar]) rest
      | Err e => Err (invalidResponseError code "provider bar fields are invalid" (Some e))
      | Diverge => Diverge
      end
  end.

Definition kline_query (request : FetchBarsRequest) (interval : string) (start stop : Z) : list (string * string) :=
  [("category", spotMarket); ("symbol", ref_ExternalSymbol (fbr_Instrument request)); ("interval", interval); ("start", Itoa start);
   ("end", Itoa (stop - 1)); ("limit", Itoa (fbr_Limit request))]%string.

(** The page of the sorted bars: there is more when it is full and does not
    start at the start of the range. *)
Definition page_of_bars (request : FetchBarsRequest) (bars : list ProviderBar) : FetchBarsResult :=
  match bars with
  | oldest :: _ =>
      if (llen bars =? fbr_Limit request) && After (pb_OpenTime oldest) (fbr_StartTime request)
      then mkFetchBarsResult bars (cursorPrefix ++ Itoa (UnixMilli (pb_OpenTime oldest)))%string true
      else mkFetchBarsResult bars EmptyString false
  | [] => mkFetchBarsResult bars EmptyString false
  end.

Definition FetchBars (request : FetchBarsRequest) : M W FetchBarsResult :=
  _ <-- mlift (or_fail (badRequestError code "provider bar request is invalid") (request_Validate request)) ;;
  _ <-- mlift (validateSpotReference (fbr_Instrument request)) ;;
  do* (interval, duration) := mlift (or_fail (unsupportedIntervalError code) (bybitInterval (fbr_Interval request))) ;;
  mfailif maxBarsPerRequest <? fbr_Limit request, badRequestError code "provider bar request exceeds adapter limit" None ;;
  let startMilliseconds := ceilUnixMilliseconds (fbr_StartTime request) in
  effectiveEnd <-- mlift (or_fail (badRequestError code "provider bar cursor is invalid") (effectiveEndMilliseconds request)) ;;
  mfailif (startMilliseconds <=? 0) || (effectiveEnd <=? startMilliseconds), badRequestError code "provider bar cursor is invalid" None ;;
  envelope <-- getJSON klineResult_fields (mkKlineResult EmptyString EmptyString []) klinePath (kline_query request interval startMilliseconds effectiveEnd) ;;
  mfailif (kr_Category (env_Result envelope) <>s spotMarket) || (kr_Symbol (env_Result envelope) <>s ref_ExternalSymbol (fbr_Instrument request)),
          invalidResponseError code "provider returned an unexpected bar source" None ;;
  providerTime <-- mlift (or_fail (invalidResponseError code "provider returned an invalid response time") (instantFromMilliseconds (env_Time envelope))) ;;
  time <-- now ;;
  receivedAt <-- mlift (or_fail (invalidResponseError code "collection clock returned an invalid time") (NewUTCInstant time)) ;;
  bars <-- mlift (map_klines request duration providerTime receivedAt ∅ [] (kr_List (env_Result envelope))) ;;
  let page := page_of_bars request (sort_bars bars) in
  _ <-- mlift (or_fail (invalidResponseError code "provider bar page violated adapter contract") (page_Validate page request)) ;;
  mret page.

(** [ports.MarketDataAdapter] *)
Definition market_data_adapter : MarketDataAdapter W := {|
  adapter_ProviderCode := code; adapter_Capabilities := Capabilities;
  adapter_FetchLatestQuotes := FetchLatestQuotes; adapter_FetchBars := FetchBars |}.
End Adapter.
