(* ===== verification/CoinGecko.v ===== *)
(** * internal/providers/coingecko: the CoinGecko reference-rate adapter

    Latest rates and daily bars made of one observed price each, decoded and
    checked against the adapter contract. The client is the world's
    [HttpClient]; contexts and adapters are not nil. *)
From S2P Require Import Prelude Errors GoStrings GoTime GoJson External Domain MarketData Ports Registry GoText GoJsonTree DomainJson ProviderClient.
Open Scope go_scope.

(** ** errors.go *)
Definition providerError := ProviderClient.providerError "coingecko".
Definition badRequestError := ProviderClient.badRequestError "coingecko".
Definition invalidInstrumentError := ProviderClient.invalidInstrumentError "coingecko".
Definition unsupportedIntervalError := ProviderClient.unsupportedIntervalError "coingecko".
Definition invalidResponseError := ProviderClient.invalidResponseError "coingecko".

(** ** adapter.go *)
Definition DefaultBaseURL : string := "https://api.coingecko.com".
Definition defaultResponseLimit : Z := 1048576.
Definition maxQuoteBatchSize : Z := 50.
Definition maxBarsPerRequest : Z := 366.
Definition fxMarket : string := "fx".
Definition New `{HttpLib} (config : HttpConfig) : result HttpAdapter := new_adapter "coingecko" "coingecko" DefaultBaseURL defaultResponseLimit config.

(** ** client.go *)
Definition simplePricePath : string := "/api/v3/simple/price".
Definition marketChartRangePath (coin : string) : string := ("/api/v3/coins/" ++ coin ++ "/market_chart/range")%string.
Definition defaultRateLimitDelay : Duration := Minute.

(** ** mapping.go: UTC calendar days, a year, a month and a day *)
Abbreviation civilDay := (Z * Z * Z)%type (only parsing).
Definition civilDayOf (instant : Time) : civilDay := CivilDate_UTC instant.
Definition midnightUTC (day : civilDay) : Time := let '(year, month, d) := day in Date_UTC year month d 0 0.
Definition civilDay_before (day other : civilDay) : bool := Before (midnightUTC day) (midnightUTC other).

(** ** quotes.go *)
Definition lastUpdatedSuffix : string := "_last_updated_at".
(** A [map[string]json.Number] and a map of them: [None] is an error. *)
Fixpoint decode_numbers (m : gmap string string) (members : list (string * json)) : option (gmap string string) :=
  match members with
  | [] => Some m
  | (key, j) :: rest => match number_of j EmptyString with Some n => decode_numbers (<[key := n]> m) rest | None => None end
  end.
Definition decode_number_map (j : json) : option (gmap string string) :=
  match j with JObject members => decode_numbers ∅ members | JNull => Some ∅ | _ => None end.
Fixpoint decode_rates (m : gmap string (gmap string string)) (members : list (string * json)) : option (gmap string (gmap string string)) :=
  match members with
  | [] => Some m
  | (key, j) :: rest => match decode_number_map j with Some rates => decode_rates (<[key := rates]> m) rest | None => None end
  end.
Definition unmarshal_rates (body : string) : option (gmap string (gmap string string)) :=
  match next_value body with
  | Got j rest =>
      if negb (only_space rest) then None
      else match j with JObject members => decode_rates ∅ members | JNull => Some ∅ | _ => None end
  | _ => None
  end.
(** [json.Marshal] of a decoded [map[string]json.Number]. *)
Definition marshal_numbers (m : gmap string string) : string :=
  json_text (JObject (map (fun kv => (fst kv, JNumeral (snd kv))) (sort_keys (map_to_list m)))).

Definition sortedKeys (values : gset string) : list string := map fst (sort_keys (map (fun v => (v, v)) (elements values))).

(** ** bars.go *)
Definition barsCursorPrefix : string := "v1:next-open-ms:".
Definition parseBarsCursor (cursor : string) : result Time :=
  failif negb (HasPrefix cursor barsCursorPrefix), Plain "unexpected cursor version" ;;
  match ParseInt64 (TrimPrefix cursor barsCursorPrefix) with
  | None => Err (Plain "parse cursor")
  | Some milliseconds => Ok (FromUnixMilli milliseconds)
  end.

(** [prices] is a [[][2]json.Number]: a repeated member writes over the array
    of the one before, a null element leaves what was there, and elements
    after the second are skipped. *)
Record Points := mkPoints { points_backing : list (string * string); points_len : nat }.
Definition points_values (p : Points) : list (string * string) := firstn (points_len p) (points_backing p).
Definition assign_pair (elements : list json) (old : string * string) : option (string * string) :=
  match elements with
  | [] => Some (EmptyString, EmptyString)
  | [a] => match number_of a (fst old) with Some a => Some (a, EmptyString) | None => None end
  | a :: b :: _ => match number_of a (fst old), number_of b (snd old) with Some a, Some b => Some (a, b) | _, _ => None end
  end.
Definition set_point (i : nat) (v : string * string) (l : list (string * string)) : list (string * string) := firstn i l ++ v :: skipn (S i) l.
Fixpoint assign_points (backing : list (string * string)) (i : nat) (elements : list json) : option Points :=
  match elements with
  | [] => Some (mkPoints backing i)
  | j :: rest =>
      let old := nth i backing (EmptyString, EmptyString) in
      let v := match j with JArray values => assign_pair values old | JNull => Some old | _ => None end in
      match v with Some v => assign_points (set_point i v backing) (S i) rest | None => None end
  end.
Definition prices_fields : RawFields Points :=
  [("prices"%string, fun raw p =>
      match next_value raw with
      | Got (JArray []) _ => (mkPoints [] 0, false)
      | Got (JArray elements) _ => match assign_points (points_backing p) 0 elements with Some p => (p, false) | None => (p, true) end
      | Got JNull _ => (mkPoints [] 0, false)
      | _ => (p, true)
      end)].
(** [json.Marshal] of a point. *)
Definition marshal_point (point : string * string) : json := JArray [JNumeral (fst point); JNumeral (snd point)].

Definition synthesizedNote : string :=
  "CoinGecko's free tier gives one price per day, not real OHLC; open=high=low=close=that single observed price and volume=0 (RM0 DEC-006).".
Definition syntheticDailyBarPayload (point : string * string) : json :=
  JObject [("ohlc_synthesized_from_single_price", JBool true); ("note", JString synthesizedNote); ("raw_price_point", marshal_point point)]%string.

Section Adapter.
Context `{D : DecimalLib} {W : Type} `{L : HttpLib} `{C : HttpClient W} (now : M W Time) (ctxErr : M W (option error)) (adapter : HttpAdapter).
Notation code := (ad_providerCode adapter).

(** ** client.go *)
Definition retryDelay (header : Header) (now : Time) (fallback : Duration) : Duration := default fallback (retry_after header now).
Definition classifyHTTPError (response : Response) (body : string) : M W error :=
  let cause := Some (Plain "coingecko HTTP status") in
  let status := resp_StatusCode response in
  if (status =? 401) || (status =? 403) then mret (providerError code ProviderErrorUnauthorized "provider rejected authorization" None cause)
  else if status =? 429 then
    now <-- now ;;
    mret (providerError code ProviderErrorRateLimited "provider rate limit reached"
            (Some (retryDelay (resp_Header response) now defaultRateLimitDelay)) cause)
  else if (status =? 400) || (status =? 404) || (status =? 405) then mret (badRequestError code "provider rejected market request" cause)
  else if 500 <=? status then mret (providerError code ProviderErrorTemporaryUnavailable "provider service is unavailable" None cause)
  else mret (providerError code ProviderErrorUnknown "provider returned an unexpected HTTP status" None cause).

Definition doGet (path : string) (query : list (string * string)) : M W string :=
  do* (_, body) := exchange "coingecko" ctxErr adapter classifyHTTPError path query ;;
  mfailif negb (json_Valid body), invalidResponseError code "provider returned malformed JSON" None ;;
  mret body.

Definition Capabilities : M W ProviderCapabilities :=
  canceled <-- ctxErr ;;
  match canceled with
  | Some e => mthrow e
  | None => mret (mkProviderCapabilities code [mkProviderMarketCapability fxMarket [AssetTypeFX] [InstrumentTypeFX] true true
                    [BarInterval1Day] maxQuoteBatchSize maxBarsPerRequest])
  end.

(** ** mapping.go *)
Definition is_dash (c : ascii) : bool := is_byte 45 c.
(** [^[a-z0-9]+(-[a-z0-9]+)*$] and [^[A-Z]{2,10}$] *)
Definition coinGeckoIDPattern (s : string) : bool := match_segments is_dash false s.
Fixpoint all_upper (s : string) : bool := match s with EmptyString => true | String c s' => in_range 65 90 (byte_at c) && all_upper s' end.
Definition currencyPattern (s : string) : bool := all_upper s && (2 <=? slen s) && (slen s <=? 10).

Definition validateFXReference (r : ProviderInstrumentRef) : result unit :=
  or_fail (badRequestError code "provider instrument reference is invalid") (reference_Validate r) ;;;
  failif (ref_ProviderCode r <>s code) || (ref_ProviderMarket r <>s fxMarket) || (ref_AssetType r <>s AssetTypeFX)
         || (ref_InstrumentType r <>s InstrumentTypeFX) || negb (coinGeckoIDPattern (ref_ExternalSymbol r))
         || negb (currencyPattern (ref_QuoteCurrency r)),
         invalidInstrumentError code "provider instrument is not a CoinGecko FX mapping" None ;;
  Ok tt.

Definition parseDecimalFromNumber (value : string) : result Decimal :=
  failif value =s EmptyString, Plain "required decimal is empty" ;; ParseDecimal value.

(** ** quotes.go *)
Definition pair_key (r : ProviderInstrumentRef) : string := (ToLower (ref_ExternalSymbol r) ++ "|" ++ ToLower (ref_QuoteCurrency r))%string.
Fixpoint distinct_pairs (pairs : gset string) (references : list ProviderInstrumentRef) : result unit :=
  match references with
  | [] => Ok tt
  | r :: rest =>
      validateFXReference r ;;;
      failif bool_decide (pair_key r ∈ pairs), invalidInstrumentError code "provider coin id and currency pair is mapped more than once" None ;;
      distinct_pairs ({[pair_key r]} ∪ pairs) rest
  end.
Definition validateFXReferences (references : list ProviderInstrumentRef) (maximum : Z) : result unit :=
  or_fail (badRequestError code "provider instrument references are invalid") (ValidateLatestQuoteBatch code references []) ;;;
  failif maximum <? llen references, badRequestError code "provider quote batch exceeds adapter limit" None ;;
  distinct_pairs ∅ references.

(** The quote of one reference; [None] when the coin is not in the snapshot. *)
Definition map_rate (payload : gmap string (gmap string string)) (receivedAt : Time) (reference : ProviderInstrumentRef) : result (option ProviderQuote) :=
  let currency := ToLower (ref_QuoteCurrency reference) in
  match payload !! ref_ExternalSymbol reference with
  | None => Ok None
  | Some submap =>
      match submap !! currency, submap !! (currency ++ lastUpdatedSuffix)%string with
      | Some priceNumber, Some updatedNumber =>
          price <- or_fail (invalidResponseError code "provider price is not a valid decimal") (parseDecimalFromNumber priceNumber) ;;
          match ParseInt64 updatedNumber with
          | None => Err (invalidResponseError code "provider last_updated_at is not a valid integer" (Some (Plain "parse integer")))
          | Some updatedSeconds =>
              marketTime <- or_fail (invalidResponseError code "provider returned an invalid last_updated_at") (instantFromSeconds updatedSeconds) ;;
              let quote := quote_of reference price marketTime receivedAt (marshal_numbers submap) in
              or_fail (invalidResponseError code "provider quote fields are invalid") (quote_ValidateFor quote reference) ;;;
              Ok (Some quote)
          end
      | _, _ => Err (invalidResponseError code "provider omitted requested currency fields for a known coin id" None)
      end
  end.
Fixpoint map_rates (payload : gmap string (gmap string string)) (receivedAt : Time) (references : list ProviderInstrumentRef) : result (list ProviderQuote) :=
  match references with
  | [] => Ok []
  | r :: rest =>
      quote <- map_rate payload receivedAt r ;;
      quotes <- map_rates payload receivedAt rest ;;
      Ok (match quote with Some q => q :: quotes | None => quotes end)
  end.

Definition rates_query (references : list ProviderInstrumentRef) : list (string * string) :=
  [("ids", String.concat "," (sortedKeys (list_to_set (map ref_ExternalSymbol references))));
   ("vs_currencies", String.concat "," (sortedKeys (list_to_set (map (fun r => ToLower (ref_QuoteCurrency r)) references))));
   ("include_last_updated_at", "true")]%string.
Definition FetchLatestQuotes (references : list ProviderInstrumentRef) : M W (list ProviderQuote) :=
  _ <-- mlift (validateFXReferences references maxQuoteBatchSize) ;;
  body <-- doGet simplePricePath (rates_query references) ;;
  payload <-- mlift (some_or_fail (invalidResponseError code "provider returned a malformed simple/price response") (unmarshal_rates body)) ;;
  time <-- now ;;
  receivedAt <-- mlift (or_fail (invalidResponseError code "collection clock returned an invalid time") (NewUTCInstant time)) ;;
  quotes <-- mlift (map_rates payload receivedAt references) ;;
  _ <-- mlift (or_fail (invalidResponseError code "provider quote batch violated adapter contract") (ValidateLatestQuoteBatch code references quotes)) ;;
  mret quotes.

(** ** bars.go *)
Record dayPoint := mkDayPoint { day_price : Decimal; day_at : Time; day_raw : string * string }.
(** The points by day, the last one of each day, and the days in the order they
    were first met. *)
Fixpoint collect_days (days : gmap civilDay dayPoint) (order : list civilDay) (points : list (string * string)) : result (gmap civilDay dayPoint * list civilDay) :=
  match points with
  | [] => Ok (days, order)
  | point :: rest =>
      match ParseInt64 (fst point) with
      | None => Err (invalidResponseError code "provider price timestamp is not a valid integer" (Some (Plain "parse integer")))
      | Some milliseconds =>
          pointTime <- or_fail (invalidResponseError code "provider returned an invalid price timestamp") (instantFromMilliseconds milliseconds) ;;
          price <- or_fail (invalidResponseError code "provider price is not a valid decimal") (parseDecimalFromNumber (snd point)) ;;
          let day := civilDayOf pointTime in
          let order := if not_nil (days !! day) then order else order ++ [day] in
          collect_days (<[day := mkDayPoint price pointTime point]> days) order rest
      end
  end.
(** [sort.Slice] by day; the days are distinct. *)
Fixpoint insert_day (d : civilDay) (l : list civilDay) : list civilDay :=
  match l with
  | [] => [d]
  | e :: rest => if civilDay_before e d then e :: insert_day d rest else d :: l
  end.
Definition sort_days (l : list civilDay) : list civilDay := fold_right insert_day [] l.

Definition bar_of_day (reference : ProviderInstrumentRef) (zeroVolume : Decimal) (receivedAt : Time) (day : civilDay) (point : dayPoint) : result ProviderBar :=
  openInstant <- or_fail (invalidResponseError code "computed bar open time is invalid") (NewUTCInstant (midnightUTC day)) ;;
  let closeTime := Add (midnightUTC day) (24 * Hour) in
  closeInstant <- or_fail (invalidResponseError code "computed bar close time is invalid") (NewUTCInstant closeTime) ;;
  let price := day_price point in
  let bar := {|
    pb_ProviderInstrumentID := ref_ProviderInstrumentID reference; pb_InstrumentID := ref_InstrumentID reference;
    pb_AssetID := ref_AssetID reference; pb_ProviderCode := ref_ProviderCode reference; pb_Interval := BarInterval1Day;
    pb_OpenTime := openInstant; pb_CloseTime := closeInstant; pb_Open := price; pb_High := price; pb_Low := price; pb_Close := price;
    pb_BaseVolume := Some zeroVolume; pb_QuoteVolume := Some zeroVolume; pb_TradeCount := None; pb_IsClosed := negb (After closeTime receivedAt);
    pb_ProviderUpdatedAt := Some (day_at point); pb_ReceivedAt := receivedAt;
    pb_RawPayload := json_text (syntheticDailyBarPayload (day_raw point)) |} in
  or_fail (invalidResponseError code "provider bar fields are invalid") (bar_ValidateFor bar reference) ;;;
  Ok bar.
(** Every selected day has a point. *)
Fixpoint bars_of_days (reference : ProviderInstrumentRef) (zeroVolume : Decimal) (receivedAt : Time) (days : gmap civilDay dayPoint) (selected : list civilDay) :
    result (list ProviderBar) :=
  match selected with
  | [] => Ok []
  | day :: rest =>
      match days !! day with
      | None => bars_of_days reference zeroVolume receivedAt days rest
      | Some point =>
          bar <- bar_of_day reference zeroVolume receivedAt day point ;;
          bars <- bars_of_days reference zeroVolume receivedAt days rest ;;
          Ok (bar :: bars)
      end
  end.

Definition effective_start (request : FetchBarsRequest) : result Time :=
  if fbr_Cursor request =s EmptyString then Ok (fbr_StartTime request)
  else
    cursorStart <- or_fail (badRequestError code "provider bar cursor is invalid") (parseBarsCursor (fbr_Cursor request)) ;;
    failif Before cursorStart (fbr_StartTime request) || negb (Before cursorStart (fbr_EndTime request)),
           badRequestError code "provider bar cursor is invalid" None ;;
    Ok cursorStart.
Definition day_eligible (start stop : Time) (day : civilDay) : bool := negb (Before (midnightUTC day) start) && Before (midnightUTC day) stop.
(** The days of the page, and the cursor when more are eligible. *)
Definition select_days (limit : Z) (eligible : list civilDay) : list civilDay * option string :=
  if limit <? llen eligible
  then (firstn (Z.to_nat limit) eligible,
        Some (barsCursorPrefix ++ Itoa (UnixMilli (midnightUTC (nth (Z.to_nat limit) eligible (0, 0, 0)))))%string)
  else (eligible, None).

Definition range_query (request : FetchBarsRequest) (start : Time) : list (string * string) :=
  [("vs_currency", ToLower (ref_QuoteCurrency (fbr_Instrument request))); ("from", Itoa (Unix start)); ("to", Itoa (Unix (fbr_EndTime request)))]%string.
Definition FetchBars (request : FetchBarsRequest) : M W FetchBarsResult :=
  _ <-- mlift (or_fail (badRequestError code "provider bar request is invalid") (request_Validate request)) ;;
  _ <-- mlift (validateFXReference (fbr_Instrument request)) ;;
  mfailif fbr_Interval request <>s BarInterval1Day, unsupportedIntervalError code (Some (Plain "unsupported CoinGecko interval")) ;;
  mfailif maxBarsPerRequest <? fbr_Limit request, badRequestError code "provider bar request exceeds adapter limit" None ;;
  effectiveStart <-- mlift (effective_start request) ;;
  body <-- doGet (marketChartRangePath (ref_ExternalSymbol (fbr_Instrument request))) (range_query request effectiveStart) ;;
  payload <-- mlift (some_or_fail (invalidResponseError code "provider returned a malformed market_chart response")
                       (Unmarshal (decode_struct prices_fields) (mkPoints [] 0) body)) ;;
  time <-- now ;;
  receivedAt <-- mlift (or_fail (invalidResponseError code "collection clock returned an invalid time") (NewUTCInstant time)) ;;
  do* (days, order) := mlift (collect_days ∅ [] (points_values payload)) ;;
  let eligible := List.filter (day_eligible effectiveStart (fbr_EndTime request)) (sort_days order) in
  let '(selected, cursor) := select_days (fbr_Limit request) eligible in
  zeroVolume <-- mlift (or_fail (invalidResponseError code "internal zero volume decimal is invalid") (ParseDecimal "0")) ;;
  bars <-- mlift (bars_of_days (fbr_Instrument request) zeroVolume receivedAt days selected) ;;
  let page := mkFetchBarsResult bars (default EmptyString cursor) (not_nil cursor) in
  _ <-- mlift (or_fail (invalidResponseError code "provider bar page violated adapter contract") (page_Validate page request)) ;;
  mret page.

(** [ports.MarketDataAdapter] *)
Definition market_data_adapter : MarketDataAdapter W := {|
  adapter_ProviderCode := code; adapter_Capabilities := Capabilities;
  adapter_FetchLatestQuotes := FetchLatestQuotes; adapter_FetchBars := FetchBars |}.
End Adapter.
