(* ===== verification/Longbridge.v ===== *)
(** * internal/providers/longbridge: the Longbridge US adapter

    Latest quotes and pages of regular-session bars of the Longbridge SDK. The
    SDK client, the recognition of its protocol errors and of network errors
    are interfaces; a decimal of the SDK is one of the service. Contexts and
    adapters are not nil. *)
From S2P Require Import Prelude Errors GoStrings GoTime GoJson External Domain MarketData Calendar Ports Registry Service GoText GoJsonTree DomainJson ProviderClient.
Open Scope go_scope.

(** ** errors.go *)
Inductive operation := quoteOperation | barOperation.
Definition providerError := ProviderClient.providerError "Longbridge".
Definition badRequestError := ProviderClient.badRequestError "Longbridge".
Definition invalidInstrumentError := ProviderClient.invalidInstrumentError "Longbridge".
Definition unsupportedIntervalError := ProviderClient.unsupportedIntervalError "Longbridge".
Definition invalidResponseError := ProviderClient.invalidResponseError "Longbridge".

(** ** adapter.go *)
Definition providerName : string := "longbridge".
Definition usMarket : string := "us".
Definition maxQuoteBatchSize : Z := 500.
Definition maxBarsPerRequest : Z := 1000.

(** What the SDK's values hold. *)
Inductive Period := PeriodSixtyMinute | PeriodDay.
Section Sdk.
Context `{D : DecimalLib}.
Record PrePostQuote := mkPrePostQuote {
  pp_LastDone : option Decimal; pp_Timestamp : Z; pp_Volume : Z; pp_Turnover : option Decimal; pp_High : option Decimal;
  pp_Low : option Decimal; pp_PrevClose : option Decimal }.
Record SecurityQuote := mkSecurityQuote {
  sq_Symbol : string; sq_LastDone : option Decimal; sq_PrevClose : option Decimal; sq_Open : option Decimal; sq_High : option Decimal;
  sq_Low : option Decimal; sq_Timestamp : Z; sq_Volume : Z; sq_Turnover : option Decimal; sq_TradeStatus : Z;
  sq_PreMarketQuote : option PrePostQuote; sq_PostMarketQuote : option PrePostQuote; sq_OverNightQuote : option PrePostQuote }.
Record Candlestick := mkCandlestick {
  cs_Open : option Decimal; cs_High : option Decimal; cs_Low : option Decimal; cs_Close : option Decimal; cs_Volume : Z;
  cs_Turnover : option Decimal; cs_Timestamp : Z }.
(** The historical candlesticks of the regular session, not adjusted, of at
    most a count and up to an instant in a location. *)
Class Client (W : Type) := {
  client_Quote : list string -> M W (list (option SecurityQuote));
  client_HistoryCandlesticksByOffset : string -> Period -> Time * Location -> Z -> M W (list (option Candlestick));
  client_Close : M W unit }.
End Sdk.
(** The SDK's configuration and the connection it opens for one. *)
Class Sdk (W : Type) := { sdk_Config : Type; lbconfig_New : M W sdk_Config; lbquote_NewFromCfg : sdk_Config -> M W unit }.
(** [errors.As] with the SDK's [*protocol.LBError], giving its code, and with
    [net.Error]. *)
Class SdkErrors := { as_LBError : error -> option Z; as_netError : error -> bool }.

Definition wrap32 (z : Z) : Z := (z + 2 ^ 31) mod 2 ^ 32 - 2 ^ 31.
Definition UTC_location : Location := mkLocation (fun _ => (0, int64_min, int64_max)).

Record Adapter := mkAdapter { ad_providerCode : Code; ad_marketLocation : Location; ad_marketCalendar : TradingCalendar }.
(** A configuration's location and calendar; the client and the clock are the
    world's. *)
Definition New `{TzLib} (location : option Location) (calendar : option TradingCalendar) : result Adapter :=
  providerCode <- wrap "construct Longbridge provider code" (ParseCode providerName) ;;
  location <- match location with
    | Some l => Ok l
    | None => match load_location "America/New_York" with Some l => Ok l | None => Err (Plain "load US market location") end end ;;
  calendar <- match calendar with
    | Some c => Ok c
    | None => nyse <- wrap "construct Longbridge US market calendar" (NewNYSECalendar []) ;; Ok (nyse_TradingCalendar nyse) end ;;
  failif is_nil (cal_Location calendar), Wrap "construct Longbridge adapter: market calendar location is required" (Sentinel ErrInvalidData) ;;
  Ok (mkAdapter providerCode location calendar).

(** The connection of an adapter that is not built is closed, whatever closing
    it answers. *)
Definition NewFromSDKConfig `{DecimalLib} {W : Type} `{!Client W} `{K : !Sdk W} `{TzLib} (sdkConfig : option sdk_Config)
    (location : option Location) (calendar : option TradingCalendar) : M W Adapter :=
  match sdkConfig with
  | None => mthrow (Wrap "construct Longbridge SDK client: config is required" (Sentinel ErrInvalidData))
  | Some sdkConfig =>
      _ <-- mwrap "construct Longbridge SDK client" (lbquote_NewFromCfg sdkConfig) ;;
      match New location calendar with
      | Err e => _ <-- mtry client_Close ;; mthrow e
      | built => mlift built
      end
  end.
Definition NewFromEnvironment `{DecimalLib} {W : Type} `{!Client W} `{K : !Sdk W} `{TzLib} (location : option Location)
    (calendar : option TradingCalendar) : M W Adapter :=
  sdkConfig <-- mwrap "load Longbridge SDK configuration" lbconfig_New ;;
  NewFromSDKConfig (Some sdkConfig) location calendar.
Definition Close `{DecimalLib} {W : Type} `{!Client W} : M W unit := client_Close.

(** ** quotes.go: the raw payloads *)
Section Payloads.
Context `{D : DecimalLib}.
Definition decimalText (value : option Decimal) : option string := dec_String <$> value.
(** A member that [omitempty] leaves out. *)
Definition omit_nil (name : string) (value : option json) : list (string * json) := match value with Some j => [(name, j)] | None => [] end.
Definition omit_zero (name : string) (value : Z) : list (string * json) := if value =? 0 then [] else [(name, JInt value)].
Definition text_member (name : string) (value : option Decimal) : list (string * json) := omit_nil name (JString <$> decimalText value).

Definition detachSessionQuote (snapshot : PrePostQuote) : json :=
  JObject (text_member "last_done" (pp_LastDone snapshot) ++ omit_zero "timestamp" (pp_Timestamp snapshot)
           ++ [("volume"%string, JInt (pp_Volume snapshot))] ++ text_member "turnover" (pp_Turnover snapshot)
           ++ text_member "high" (pp_High snapshot) ++ text_member "low" (pp_Low snapshot) ++ text_member "prev_close" (pp_PrevClose snapshot)).
Definition detachQuote (snapshot : SecurityQuote) : json :=
  JObject ([("symbol"%string, JString (sq_Symbol snapshot))] ++ text_member "last_done" (sq_LastDone snapshot)
           ++ text_member "prev_close" (sq_PrevClose snapshot) ++ text_member "open" (sq_Open snapshot) ++ text_member "high" (sq_High snapshot)
           ++ text_member "low" (sq_Low snapshot) ++ [("timestamp"%string, JInt (sq_Timestamp snapshot)); ("volume"%string, JInt (sq_Volume snapshot))]
           ++ text_member "turnover" (sq_Turnover snapshot) ++ [("trade_status"%string, JInt (wrap32 (sq_TradeStatus snapshot)))]
           ++ omit_nil "pre_market" (detachSessionQuote <$> sq_PreMarketQuote snapshot)
           ++ omit_nil "post_market" (detachSessionQuote <$> sq_PostMarketQuote snapshot)
           ++ omit_nil "overnight" (detachSessionQuote <$> sq_OverNightQuote snapshot)).
Definition rawCandlestick (stick : Candlestick) : json :=
  JObject (text_member "open" (cs_Open stick) ++ text_member "high" (cs_High stick) ++ text_member "low" (cs_Low stick)
           ++ text_member "close" (cs_Close stick) ++ [("volume"%string, JInt (cs_Volume stick))] ++ text_member "turnover" (cs_Turnover stick)
           ++ [("timestamp"%string, JInt (cs_Timestamp stick))]).
End Payloads.

(** ** bars.go *)
Definition cursorPrefix : string := "v1:end-sec:".
Definition effectiveEnd (request : FetchBarsRequest) : result Time :=
  let stop := fbr_EndTime request in
  if fbr_Cursor request =s EmptyString then Ok stop
  else
    failif negb (HasPrefix (fbr_Cursor request) cursorPrefix), Plain "unexpected cursor version" ;;
    match ParseInt64 (TrimPrefix (fbr_Cursor request) cursorPrefix) with
    | None => Err (Plain "invalid cursor timestamp")
    | Some seconds =>
        failif seconds <=? 0, Plain "invalid cursor timestamp" ;;
        let parsed := FromUnix seconds in
        failif negb (After parsed (fbr_StartTime request)) || negb (Before parsed stop), Plain "cursor is outside request range" ;;
        Ok parsed
    end.

Section Adapter.
Context `{D : DecimalLib} {W : Type} `{C : !Client W} `{E : SdkErrors} (now : M W Time) (ctxErr : M W (option error)) (adapter : Adapter).
Notation code := (ad_providerCode adapter).

(** ** errors.go *)
Definition classifyClientError (op : operation) (cause : error) : M W error :=
  canceled <-- ctxErr ;;
  match canceled with
  | Some e => mret e
  | None =>
      mret match as_LBError cause with
      | Some protocolCode =>
          if protocolCode =? 301606
          then providerError code ProviderErrorRateLimited "provider rate limit reached" (Some Second) (Some cause)
          else if protocolCode =? 301602
          then providerError code ProviderErrorTemporaryUnavailable "provider service is temporarily unavailable" None (Some cause)
          else if (protocolCode =? 301604) || (protocolCode =? 301607)
          then match op with
               | quoteOperation =>
                   if protocolCode =? 301607 then badRequestError code "provider rejected quote request size" (Some cause)
                   else providerError code ProviderErrorUnauthorized "provider quote permission was rejected" None (Some cause)
               | barOperation => providerError code ProviderErrorUnauthorized "provider quote permission was rejected" None (Some cause)
               end
          else if protocolCode =? 301603 then invalidInstrumentError code "provider has no quote for instrument" (Some cause)
          else if protocolCode =? 301600 then badRequestError code "provider rejected market request parameters" (Some cause)
          else providerError code ProviderErrorUnknown "provider returned an unclassified protocol error" None (Some cause)
      | None =>
          if as_netError cause then providerError code ProviderErrorNetwork "provider network request failed" None (Some cause)
          else providerError code ProviderErrorUnknown "provider client returned an unclassified error" None (Some cause)
      end
  end.
(** A call of the SDK whose error is classified. *)
Definition client_call {A} (op : operation) (call : M W A) : M W A :=
  called <-- mtry call ;;
  match called with
  | Ok a => mret a
  | Err cause => e <-- classifyClientError op cause ;; mthrow e
  | Diverge => mlift Diverge
  end.

(** ** adapter.go *)
Definition Capabilities : M W ProviderCapabilities :=
  canceled <-- ctxErr ;;
  match canceled with
  | Some e => mthrow e
  | None => mret (mkProviderCapabilities code [mkProviderMarketCapability usMarket [AssetTypeStock; AssetTypeETF]
                    [InstrumentTypeEquity; InstrumentTypeETF] true true [BarInterval1Hour; BarInterval1Day] maxQuoteBatchSize maxBarsPerRequest])
  end.

(** ** mapping.go *)
(** [^[A-Z0-9][A-Z0-9.-]{0,123}\.US$] *)
Definition symbol_char (c : ascii) : bool := in_range 65 90 (byte_at c) || is_digit c.
Fixpoint symbol_tail (s : string) : bool :=
  (s =s ".US") || match s with
    | EmptyString => false
    | String c s' => (symbol_char c || is_byte 46 c || is_byte 45 c) && symbol_tail s' end.
Definition usSymbolPattern (s : string) : bool :=
  match s with EmptyString => false | String c s' => symbol_char c && symbol_tail s' && (slen s' <=? 126) end.
Fixpoint double_dot (s : string) : bool :=
  match s with
  | String a ((String b _) as s') => (is_byte 46 a && is_byte 46 b) || double_dot s'
  | _ => false
  end.

Definition validateUSReference (r : ProviderInstrumentRef) : result unit :=
  or_fail (badRequestError code "provider instrument reference is invalid") (reference_Validate r) ;;;
  let compatibleType := ((ref_AssetType r =s AssetTypeStock) && (ref_InstrumentType r =s InstrumentTypeEquity))
                        || ((ref_AssetType r =s AssetTypeETF) && (ref_InstrumentType r =s InstrumentTypeETF)) in
  failif (ref_ProviderCode r <>s code) || (ref_ProviderMarket r <>s usMarket) || negb compatibleType
         || negb (usSymbolPattern (ref_ExternalSymbol r)) || double_dot (ref_ExternalSymbol r),
         invalidInstrumentError code "provider instrument is not a Longbridge US stock or ETF mapping" None ;;
  Ok tt.

Definition longbridgePeriod (interval : string) : result Period :=
  if interval =s BarInterval1Hour then Ok PeriodSixtyMinute
  else if interval =s BarInterval1Day then Ok PeriodDay
  else Err (Plain "unsupported Longbridge interval").

Definition requiredDecimal (value : option Decimal) : result Decimal :=
  match value with Some d => Ok d | None => Err (Plain "required decimal is missing") end.
Definition optionalDecimal (value : option Decimal) : option Decimal := value.
Definition volumeDecimal (value : Z) : result Decimal :=
  failif value <? 0, Plain "volume cannot be negative" ;; ParseDecimal (Itoa value).

Definition regularSessionClose (opened : Time) (interval : string) : result Time :=
  date <- (if interval =s BarInterval1Day then UTCDate opened else DateInLocation opened (cal_Location (ad_marketCalendar adapter))) ;;
  found <- cal_SessionForDate (ad_marketCalendar adapter) date ;;
  match found with
  | None => Err (Plain "bar belongs to a closed US market date")
  | Some session =>
      closeAt <-
        (if interval =s BarInterval1Hour then
           failif Before opened (session_Open session) || negb (Before opened (session_Close session))
                  || negb (Z.rem (Sub opened (session_Open session)) Hour =? 0),
                  Plain "hourly bar open is outside the regular US session" ;;
           let closeAt := Add opened Hour in
           Ok (if After closeAt (session_Close session) then session_Close session else closeAt)
         else
           failif interval <>s BarInterval1Day, Plain "unsupported regular-session interval" ;;
           Ok (session_Close session)) ;;
      failif negb (After closeAt opened), Plain "derived regular-session close does not follow open" ;;
      NewUTCInstant closeAt
  end.

Definition sdkOffset (effectiveEnd : Time) (interval : string) : Time * Location :=
  let offset := Add effectiveEnd (- Nanosecond) in
  (offset, if interval =s BarInterval1Hour then ad_marketLocation adapter else UTC_location).

(** ** quotes.go *)
Fixpoint requested_symbols (requested : gmap string ProviderInstrumentRef) (references : list ProviderInstrumentRef) :
    result (gmap string ProviderInstrumentRef) :=
  match references with
  | [] => Ok requested
  | r :: rest =>
      validateUSReference r ;;;
      failif not_nil (requested !! ref_ExternalSymbol r), invalidInstrumentError code "provider symbol is mapped more than once" None ;;
      requested_symbols (<[ref_ExternalSymbol r := r]> requested) rest
  end.
Definition validateUSReferences (references : list ProviderInstrumentRef) : result (gmap string ProviderInstrumentRef) :=
  or_fail (badRequestError code "provider instrument references are invalid") (ValidateLatestQuoteBatch code references []) ;;;
  failif maxQuoteBatchSize <? llen references, badRequestError code "provider quote batch exceeds adapter limit" None ;;
  requested_symbols ∅ references.

Definition mapSecurityQuote (reference : ProviderInstrumentRef) (snapshot : SecurityQuote) (receivedAt : Time) : result ProviderQuote :=
  lastPrice <- requiredDecimal (sq_LastDone snapshot) ;;
  marketTime <- instantFromSeconds (sq_Timestamp snapshot) ;;
  let quote := quote_of reference lastPrice marketTime receivedAt (json_text (detachQuote snapshot)) in
  quote_ValidateFor quote reference ;;;
  Ok quote.

(** The loop over the snapshots: the quotes by symbol. *)
Fixpoint map_snapshots (requested : gmap string ProviderInstrumentRef) (receivedAt : Time) (mapped : gmap string ProviderQuote)
    (snapshots : list (option SecurityQuote)) : result (gmap string ProviderQuote) :=
  match snapshots with
  | [] => Ok mapped
  | None :: _ => Err (invalidResponseError code "provider returned a quote without a symbol" None)
  | Some snapshot :: rest =>
      failif sq_Symbol snapshot =s EmptyString, invalidResponseError code "provider returned a quote without a symbol" None ;;
      match requested !! sq_Symbol snapshot with
      | None => Err (invalidResponseError code "provider returned an unrequested quote" None)
      | Some reference =>
          failif not_nil (mapped !! sq_Symbol snapshot), invalidResponseError code "provider returned a duplicate quote" None ;;
          quote <- or_fail (invalidResponseError code "provider quote fields are invalid") (mapSecurityQuote reference snapshot receivedAt) ;;
          map_snapshots requested receivedAt (<[sq_Symbol snapshot := quote]> mapped) rest
      end
  end.

Definition FetchLatestQuotes (references : list ProviderInstrumentRef) : M W (list ProviderQuote) :=
  requested <-- mlift (validateUSReferences references) ;;
  snapshots <-- client_call quoteOperation (client_Quote (map ref_ExternalSymbol references)) ;;
  time <-- now ;;
  receivedAt <-- mlift (or_fail (invalidResponseError code "collection clock returned an invalid time") (NewUTCInstant time)) ;;
  mapped <-- mlift (map_snapshots requested receivedAt ∅ snapshots) ;;
  let quotes := omap (fun r => mapped !! ref_ExternalSymbol r) references in
  _ <-- mlift (or_fail (invalidResponseError code "provider quote batch violated adapter contract") (ValidateLatestQuoteBatch code references quotes)) ;;
  mret quotes.

(** ** bars.go *)
Definition mapCandlestick (reference : ProviderInstrumentRef) (interval : string) (stick : Candlestick) (receivedAt : Time) : result ProviderBar :=
  openPrice <- requiredDecimal (cs_Open stick) ;;
  highPrice <- requiredDecimal (cs_High stick) ;;
  lowPrice <- requiredDecimal (cs_Low stick) ;;
  closePrice <- requiredDecimal (cs_Close stick) ;;
  openTime <- instantFromSeconds (cs_Timestamp stick) ;;
  closeTime <- regularSessionClose openTime interval ;;
  volume <- volumeDecimal (cs_Volume stick) ;;
  let bar := {|
    pb_ProviderInstrumentID := ref_ProviderInstrumentID reference; pb_InstrumentID := ref_InstrumentID reference;
    pb_AssetID := ref_AssetID reference; pb_ProviderCode := ref_ProviderCode reference; pb_Interval := interval;
    pb_OpenTime := openTime; pb_CloseTime := closeTime; pb_Open := openPrice; pb_High := highPrice; pb_Low := lowPrice;
    pb_Close := closePrice; pb_BaseVolume := Some volume; pb_QuoteVolume := optionalDecimal (cs_Turnover stick); pb_TradeCount := None;
    pb_IsClosed := negb (Before receivedAt closeTime); pb_ProviderUpdatedAt := None; pb_ReceivedAt := receivedAt;
    pb_RawPayload := json_text (rawCandlestick stick) |} in
  bar_ValidateFor bar reference ;;;
  Ok bar.

(** The loop over the candlesticks: the bars of the range before [stop], and
    the oldest open of all of them. *)
Fixpoint map_candlesticks (request : FetchBarsRequest) (stop receivedAt : Time) (seen : gset Z) (oldest : Time) (bars : list ProviderBar)
    (sticks : list (option Candlestick)) : result (Time * list ProviderBar) :=
  match sticks with
  | [] => Ok (oldest, bars)
  | None :: _ => Err (invalidResponseError code "provider returned a nil candlestick" None)
  | Some stick :: rest =>
      failif cs_Timestamp stick <=? 0, invalidResponseError code "provider returned an invalid bar timestamp" None ;;
      failif bool_decide (cs_Timestamp stick ∈ seen), invalidResponseError code "provider returned a duplicate bar" None ;;
      let seen := {[cs_Timestamp stick]} ∪ seen in
      let opened := FromUnix (cs_Timestamp stick) in
      let oldest := if IsZero oldest || Before opened oldest then opened else oldest in
      if Before opened (fbr_StartTime request) || negb (Before opened (fbr_EndTime request)) || negb (Before opened stop)
      then map_candlesticks request stop receivedAt seen oldest bars rest
      else
        bar <- or_fail (invalidResponseError code "provider bar fields are invalid")
                 (mapCandlestick (fbr_Instrument request) (fbr_Interval request) stick receivedAt) ;;
        map_candlesticks request stop receivedAt seen oldest (bars ++ [bar]) rest
  end.

Definition candlestick_page (request : FetchBarsRequest) (count : Z) (oldest : Time) (bars : list ProviderBar) : FetchBarsResult :=
  if (count =? fbr_Limit request) && (0 <? llen bars) && After oldest (fbr_StartTime request)
  then mkFetchBarsResult bars (cursorPrefix ++ Itoa (Unix oldest))%string true
  else mkFetchBarsResult bars EmptyString false.

Definition FetchBars (request : FetchBarsRequest) : M W FetchBarsResult :=
  _ <-- mlift (or_fail (badRequestError code "provider bar request is invalid") (request_Validate request)) ;;
  _ <-- mlift (validateUSReference (fbr_Instrument request)) ;;
  period <-- mlift (or_fail (unsupportedIntervalError code) (longbridgePeriod (fbr_Interval request))) ;;
  mfailif maxBarsPerRequest <? fbr_Limit request, badRequestError code "provider bar request exceeds adapter limit" None ;;
  stop <-- mlift (or_fail (badRequestError code "provider bar cursor is invalid") (effectiveEnd request)) ;;
  sticks <-- client_call barOperation
    (client_HistoryCandlesticksByOffset (ref_ExternalSymbol (fbr_Instrument request)) period (sdkOffset stop (fbr_Interval request))
       (wrap32 (fbr_Limit request))) ;;
  mfailif fbr_Limit request <? llen sticks, invalidResponseError code "provider bar page exceeded requested limit" None ;;
  time <-- now ;;
  receivedAt <-- mlift (or_fail (invalidResponseError code "collection clock returned an invalid time") (NewUTCInstant time)) ;;
  do* (oldest, bars) := mlift (map_candlesticks request stop receivedAt ∅ 0 [] sticks) ;;
  let page := candlestick_page request (llen sticks) oldest (sort_bars bars) in
  _ <-- mlift (or_fail (invalidResponseError code "provider bar page violated adapter contract") (page_Validate page request)) ;;
  mret page.

(** [ports.MarketDataAdapter] *)
Definition market_data_adapter : MarketDataAdapter W := {|
  adapter_ProviderCode := code; adapter_Capabilities := Capabilities;
  adapter_FetchLatestQuotes := FetchLatestQuotes; adapter_FetchBars := FetchBars |}.
End Adapter.
