(* ===== verification/AdapterFacts.v ===== *)
(** * What the provider adapters return

    Pages and quotes keep the adapter contract, a bar's close follows from its
    open, and no bar is marked closed before its close time; every error is
    the context's or a classified one of the provider. *)
From stdpp Require Import sorting.
From S2P Require Import Prelude Errors GoStrings GoTime GoJson External Domain MarketData Calendar Ports Registry Service ServiceFacts GoText GoJsonTree DomainJson ProviderClient.
From S2P Require Bybit CoinGecko Longbridge.
Open Scope go_scope.

Lemma or_fail_ok {A} fail (c : result A) a : or_fail fail c = Ok a <-> c = Ok a.
Proof. destruct c; cbn; naive_solver. Qed.
Lemma some_or_fail_ok {A} fail (o : option A) a : some_or_fail fail o = Ok a <-> o = Some a.
Proof. destruct o; cbn; naive_solver. Qed.
Lemma NewUTCInstant_ok t u : NewUTCInstant t = Ok u -> u = t /\ t <> 0.
Proof. unfold NewUTCInstant, IsZero. intros H. inv_ok. bsimp. auto. Qed.
Lemma instantFromMilliseconds_ok ms t : instantFromMilliseconds ms = Ok t -> t = FromUnixMilli ms /\ 0 < ms.
Proof.
  unfold instantFromMilliseconds. intros H. destruct (ms <=? 0) eqn:G; [discriminate H |]. apply NewUTCInstant_ok in H as [-> _].
  apply Z.leb_gt in G. auto.
Qed.
Lemma instantFromSeconds_ok s t : instantFromSeconds s = Ok t -> t = FromUnix s /\ 0 < s.
Proof.
  unfold instantFromSeconds. intros H. destruct (s <=? 0) eqn:G; [discriminate H |]. apply NewUTCInstant_ok in H as [-> _].
  apply Z.leb_gt in G. auto.
Qed.

(** Decompose the run of an adapter's operation. *)
Ltac run_step :=
  first [progress minv_step | match goal with
  | H : (let '(_, _) := ?x in _) _ = (Ok _, _) |- _ => let Q := fresh "Q" in destruct x eqn:Q
  | H : or_fail _ _ = Ok _ |- _ => apply or_fail_ok in H
  | H : some_or_fail _ _ = Ok _ |- _ => apply some_or_fail_ok in H
  end].
Ltac run_ok := repeat (run_step; cbv beta zeta in *); repeat match goal with u : unit |- _ => destruct u end.

Section Adapters.
Context `{D : DecimalLib} {W : Type} (now : M W Time) (ctxErr : M W (option error)).

(** ** Bybit *)
(** A bar as [mapKline] makes it: its close is one interval after its open and
    it is closed when that has passed for the provider and for the collector. *)
Definition bybit_bar (request : FetchBarsRequest) (duration : Duration) (providerTime receivedAt : Time) (b : ProviderBar) : Prop :=
  (exists ms, pb_OpenTime b = FromUnixMilli ms /\ 0 < ms) /\ pb_CloseTime b = Add (pb_OpenTime b) duration /\ pb_ReceivedAt b = receivedAt
  /\ (pb_IsClosed b = true <-> pb_CloseTime b <= providerTime /\ pb_CloseTime b <= receivedAt).

Lemma mapKline_ok reference interval duration providerTime receivedAt raw b ms :
  Bybit.mapKline reference interval duration providerTime receivedAt raw = Ok (b, ms) ->
  0 < ms /\ pb_OpenTime b = FromUnixMilli ms /\ pb_CloseTime b = Add (pb_OpenTime b) duration /\ pb_ReceivedAt b = receivedAt
  /\ pb_Interval b = interval /\ bar_ValidateFor b reference = Ok tt
  /\ (pb_IsClosed b = true <-> pb_CloseTime b <= providerTime /\ pb_CloseTime b <= receivedAt).
Proof.
  unfold Bybit.mapKline. destruct (Unmarshal _ _ raw) as [[|f0 [|f1 [|f2 [|f3 [|f4 [|f5 [|f6 [|? ?]]]]]]]]|]; try discriminate.
  destruct (ParseInt64 f0) as [openMs|]; [| discriminate]. destruct (openMs <=? 0) eqn:G; [discriminate |]. intros H.
  apply rbind_ok in H as (opened & Ho & H). apply instantFromMilliseconds_ok in Ho as [-> Hpos].
  apply rbind_ok in H as (closed & Hc & H). apply NewUTCInstant_ok in Hc as [-> _].
  do 6 (apply rbind_ok in H as (? & _ & H)). cbv zeta in H. apply rbind_ok in H as ([] & Hv & H). apply Ok_inj in H.
  injection H as <- <-. split; [exact Hpos |]. do 4 (split; [reflexivity |]). split; [exact Hv |].
  cbn. unfold After. rewrite andb_true_iff, !negb_true_iff, !Z.ltb_ge. tauto.
Qed.

Lemma map_klines_ok adapter request duration providerTime receivedAt seen bars raws out :
  Bybit.map_klines adapter request duration providerTime receivedAt seen bars raws = Ok out ->
  Forall (bybit_bar request duration providerTime receivedAt) bars -> Forall (bybit_bar request duration providerTime receivedAt) out.
Proof.
  revert seen bars. induction raws as [|raw raws IH]; intros seen bars H Hf; cbn [Bybit.map_klines] in H; [by apply Ok_inj in H as <- |].
  destruct (Bybit.mapKline _ _ _ _ _ _) as [[b ms]|e|] eqn:E; try discriminate. destruct (bool_decide _); [discriminate |].
  apply (IH _ _ H). apply Forall_app. split; [exact Hf |]. constructor; [| constructor].
  apply mapKline_ok in E as (Hm & Ho & Hc & Hr & _ & _ & Hi). unfold bybit_bar. eauto 10.
Qed.

Lemma page_of_bars_bars request bars : fbs_Bars (Bybit.page_of_bars request bars) = bars.
Proof. unfold Bybit.page_of_bars. destruct bars as [|b bars]; [reflexivity |]. by destruct (_ && _). Qed.

Section Http.
Context `{L : HttpLib} `{C : !HttpClient W} (adapter : HttpAdapter).

Lemma bybit_page request w page w' : Bybit.FetchBars now ctxErr adapter request w = (Ok page, w') ->
  page_Validate page request = Ok tt
  /\ exists symbol duration providerTime receivedAt, Bybit.bybitInterval (fbr_Interval request) = Ok (symbol, duration)
     /\ Forall (bybit_bar request duration providerTime receivedAt) (fbs_Bars page).
Proof.
  unfold Bybit.FetchBars. intros H. run_ok.
  split; [assumption |]. do 4 eexists. split; [eassumption |].
  rewrite page_of_bars_bars. rewrite sort_bars_Permutation. eapply map_klines_ok; [eassumption | constructor].
Qed.

(** ** CoinGecko *)
(** The day of a price point. *)
Definition point_day (p : string * string) : Z * Z * Z :=
  match ParseInt64 (fst p) with Some ms => CoinGecko.civilDayOf (FromUnixMilli ms) | None => (0, 0, 0) end.
(** What is kept of a day: its last point. *)
Definition kept_points (points : list (string * string)) (days : gmap (Z * Z * Z) CoinGecko.dayPoint) : Prop :=
  forall d point, days !! d = Some point ->
    exists ms, List.last (List.filter (fun p => bool_decide (point_day p = d)) points) (EmptyString, EmptyString) = CoinGecko.day_raw point
      /\ In (CoinGecko.day_raw point) points /\ point_day (CoinGecko.day_raw point) = d
      /\ ParseInt64 (fst (CoinGecko.day_raw point)) = Some ms /\ CoinGecko.day_at point = FromUnixMilli ms /\ 0 < ms
      /\ CoinGecko.parseDecimalFromNumber (snd (CoinGecko.day_raw point)) = Ok (CoinGecko.day_price point).
Definition known_days (points : list (string * string)) (days : gmap (Z * Z * Z) CoinGecko.dayPoint) (order : list (Z * Z * Z)) : Prop :=
  List.NoDup order /\ (forall d, In d order <-> exists p, In p points /\ point_day p = d) /\ (forall d, In d order <-> is_Some (days !! d)).

Lemma last_filter_snoc (f : string * string -> bool) l p d : List.last (List.filter f (l ++ [p])) d = if f p then p else List.last (List.filter f l) d.
Proof. rewrite List.filter_app. cbn. destruct (f p); [by rewrite List.last_last | by rewrite app_nil_r]. Qed.

Lemma collect_days_ok seen days order points days' order' :
  CoinGecko.collect_days adapter days order points = Ok (days', order') ->
  kept_points seen days -> known_days seen days order -> kept_points (seen ++ points) days' /\ known_days (seen ++ points) days' order'.
Proof.
  revert seen days order. induction points as [|p points IH]; intros seen days order H Hk Ho; cbn [CoinGecko.collect_days] in H.
  { apply Ok_inj in H as [= <- <-]. rewrite app_nil_r. auto. }
  destruct (ParseInt64 (fst p)) as [ms|] eqn:Ems; [| discriminate H].
  apply rbind_ok in H as (t & Ht & H). apply or_fail_ok, instantFromMilliseconds_ok in Ht as [-> Hms].
  apply rbind_ok in H as (price & Hp & H). apply or_fail_ok in Hp. cbv zeta in H.
  replace (seen ++ p :: points) with ((seen ++ [p]) ++ points) by (by rewrite <- app_assoc).
  assert (point_day p = CoinGecko.civilDayOf (FromUnixMilli ms)) as Hd by (unfold point_day; by rewrite Ems). rewrite <- Hd in H.
  apply (IH (seen ++ [p]) _ _ H).
  - intros d point Hpoint. rewrite last_filter_snoc. destruct (decide (point_day p = d)) as [<-|Hne].
    + rewrite lookup_insert_eq in Hpoint. apply Some_inj in Hpoint as <-. exists ms. rewrite bool_decide_eq_true_2 by reflexivity.
      split; [reflexivity |]. split; [apply in_app_iff; right; by left |]. auto.
    + rewrite lookup_insert_ne in Hpoint by done. destruct (Hk d point Hpoint) as (ms' & H1 & H2 & H3). exists ms'.
      rewrite bool_decide_eq_false_2 by done. split; [exact H1 |]. split; [apply in_app_iff; by left | exact H3].
  - destruct Ho as (Hn & Hin & Hs). unfold not_nil. destruct (days !! point_day p) as [point|] eqn:El; cbn [is_nil negb].
    + assert (In (point_day p) order) as Hold by (apply Hs; rewrite El; eauto).
      split; [exact Hn |]. split; intros d.
      * rewrite Hin. split; [intros (q & Hq & E); exists q; rewrite in_app_iff; auto |].
        intros (q & [Hq|[<-|[]]]%in_app_iff & <-); [eauto |]. apply Hin, Hold.
      * rewrite Hs. destruct (decide (point_day p = d)) as [<-|Hne]; [rewrite lookup_insert_eq, El; split; eauto | by rewrite lookup_insert_ne].
    + assert (~ In (point_day p) order) as Hnew by (intros Hc%Hs; rewrite El in Hc; by destruct Hc).
      split; [| split; intros d].
      * apply NoDup_ListNoDup, NoDup_app. split; [by apply NoDup_ListNoDup |]. split; [| apply NoDup_singleton].
        intros d Hd1%list_elem_of_In Hd2%list_elem_of_singleton. by subst d.
      * rewrite in_app_iff, Hin. split.
        -- intros [(q & Hq & E)|[<-|[]]]; [exists q | exists p]; rewrite in_app_iff; cbn; auto.
        -- intros (q & [Hq|[<-|[]]]%in_app_iff & <-); [left; eauto | right; by left].
      * rewrite in_app_iff, Hs. destruct (decide (point_day p = d)) as [<-|Hne].
        -- rewrite lookup_insert_eq. cbn. split; eauto.
        -- rewrite lookup_insert_ne by done. cbn. tauto.
Qed.

(** Days sorted by their midnights. *)
Definition day_lt (d e : Z * Z * Z) : Prop := CoinGecko.midnightUTC d < CoinGecko.midnightUTC e.
Lemma insert_day_Permutation d l : Permutation (CoinGecko.insert_day d l) (d :: l).
Proof. induction l as [|e l IH]; cbn; [reflexivity |]. destruct (CoinGecko.civilDay_before e d); [| reflexivity]. rewrite IH. constructor. Qed.
Lemma sort_days_Permutation l : Permutation (CoinGecko.sort_days l) l.
Proof. induction l as [|d l IH]; cbn; [reflexivity |]. by rewrite insert_day_Permutation, IH. Qed.
Lemma insert_day_sorted d l : (forall e, In e l -> CoinGecko.midnightUTC e <> CoinGecko.midnightUTC d) ->
  StronglySorted day_lt l -> StronglySorted day_lt (CoinGecko.insert_day d l).
Proof.
  intros Hne Hs. induction l as [|e l IH]; cbn; [repeat constructor |]. inversion Hs as [|? ? Hs' He]; subst.
  unfold CoinGecko.civilDay_before, Before. destruct (Z.ltb_spec (CoinGecko.midnightUTC e) (CoinGecko.midnightUTC d)) as [E|E].
  - constructor; [apply IH; [intros; apply Hne; by right | exact Hs'] |]. rewrite insert_day_Permutation. constructor; [exact E | exact He].
  - assert (day_lt d e) as Hde by (specialize (Hne e (or_introl eq_refl)); unfold day_lt; lia).
    constructor; [exact Hs |]. constructor; [exact Hde |]. eapply List.Forall_impl; [| exact He]. unfold day_lt in *. intros; lia.
Qed.

Lemma midnight_of_instant t : CoinGecko.midnightUTC (CoinGecko.civilDayOf t) = t / Day24 * Day24.
Proof.
  unfold CoinGecko.midnightUTC, CoinGecko.civilDayOf, CivilDate_UTC. pose proof (days_from_civil_from_days (t / Second / seconds_per_day)) as E.
  pose proof (civil_from_days_range (t / Second / seconds_per_day)) as Hr.
  destruct (civil_from_days (t / Second / seconds_per_day)) as [[y m] d]. unfold Date_UTC, date_seconds. rewrite norm_month_id by lia. rewrite E.
  rewrite Z.div_div by (unfold Second, seconds_per_day; lia). change (Second * seconds_per_day) with Day24. generalize (t / Day24). intros z. unfold seconds_per_day, Day24, Hour, Minute, Second. lia.
Qed.
(** Days of instants are the same when their midnights are. *)
Definition real_day (d : Z * Z * Z) : Prop := exists t, d = CoinGecko.civilDayOf t.
Lemma real_day_inj d e : real_day d -> real_day e -> CoinGecko.midnightUTC d = CoinGecko.midnightUTC e -> d = e.
Proof.
  intros [t ->] [u ->]. rewrite !midnight_of_instant. intros H. unfold CoinGecko.civilDayOf, CivilDate_UTC.
  rewrite !Z.div_div by (unfold Second, seconds_per_day; lia). change (Second * seconds_per_day) with Day24. f_equal.
  apply Z.mul_reg_r in H; [exact H | discriminate].
Qed.
Lemma sort_days_sorted l : List.NoDup l -> Forall real_day l -> StronglySorted day_lt (CoinGecko.sort_days l).
Proof.
  induction l as [|d l IH]; intros Hn Hf; [constructor |]. inversion Hn as [|? ? Hd Hn']; subst. inversion Hf as [|? ? Hr Hf']; subst.
  apply insert_day_sorted; [| by apply IH]. intros e He E. apply Hd.
  assert (In e l) as Hin by (eapply Permutation_in; [apply sort_days_Permutation | exact He]).
  rewrite List.Forall_forall in Hf'. by rewrite <- (real_day_inj e d (Hf' e Hin) Hr E).
Qed.
Lemma filter_sorted {A} (R : A -> A -> Prop) f l : StronglySorted R l -> StronglySorted R (List.filter f l).
Proof.
  induction 1 as [|a l Hs IH Ha]; cbn; [constructor |]. destruct (f a); [| exact IH]. constructor; [exact IH |].
  rewrite List.Forall_forall in *. intros b [Hb _]%List.filter_In. by apply Ha.
Qed.

(** *** The bars of a page *)
(** The bar of the day of [p], the last point of that day. *)
Definition daily_bar (points : list (string * string)) (receivedAt : Time) (b : ProviderBar) : Prop :=
  exists p ms price, In p points /\ ParseInt64 (fst p) = Some ms /\ 0 < ms /\ CoinGecko.parseDecimalFromNumber (snd p) = Ok price
    /\ List.last (List.filter (fun q => bool_decide (point_day q = point_day p)) points) (EmptyString, EmptyString) = p
    /\ pb_OpenTime b = FromUnixMilli ms / Day24 * Day24 /\ pb_CloseTime b = pb_OpenTime b + Day24
    /\ pb_Open b = price /\ pb_High b = price /\ pb_Low b = price /\ pb_Close b = price
    /\ pb_ProviderUpdatedAt b = Some (FromUnixMilli ms) /\ (pb_IsClosed b = true <-> pb_CloseTime b <= receivedAt).

Lemma bar_of_day_ok reference zero receivedAt day point b : CoinGecko.bar_of_day adapter reference zero receivedAt day point = Ok b ->
  pb_OpenTime b = CoinGecko.midnightUTC day /\ pb_CloseTime b = pb_OpenTime b + Day24
  /\ pb_Open b = CoinGecko.day_price point /\ pb_High b = CoinGecko.day_price point /\ pb_Low b = CoinGecko.day_price point
  /\ pb_Close b = CoinGecko.day_price point /\ pb_ProviderUpdatedAt b = Some (CoinGecko.day_at point)
  /\ (pb_IsClosed b = true <-> pb_CloseTime b <= receivedAt).
Proof.
  unfold CoinGecko.bar_of_day. intros H. apply rbind_ok in H as (o & Ho & H). apply or_fail_ok, NewUTCInstant_ok in Ho as [-> _]. cbv zeta in H.
  apply rbind_ok in H as (c & Hc & H). apply or_fail_ok, NewUTCInstant_ok in Hc as [-> _]. apply rbind_ok in H as ([] & _ & H). apply Ok_inj in H as <-.
  do 7 (split; [reflexivity |]). cbn [pb_IsClosed pb_CloseTime]. unfold After. by rewrite negb_true_iff, Z.ltb_ge.
Qed.

Lemma bars_of_days_ok points reference zero receivedAt days selected bars :
  kept_points points days -> (forall d, In d selected -> is_Some (days !! d)) ->
  CoinGecko.bars_of_days adapter reference zero receivedAt days selected = Ok bars ->
  map pb_OpenTime bars = map CoinGecko.midnightUTC selected /\ Forall (daily_bar points receivedAt) bars.
Proof.
  intros Hk. revert bars. induction selected as [|day selected IH]; intros bars Hs H; cbn [CoinGecko.bars_of_days] in H.
  { apply Ok_inj in H as <-. split; [reflexivity | constructor]. }
  destruct (days !! day) as [point|] eqn:El; [| destruct (Hs day (or_introl eq_refl)) as [? Hc]; by rewrite El in Hc].
  apply rbind_ok in H as (b & Hb & H). apply rbind_ok in H as (bars' & H' & H). apply Ok_inj in H as <-.
  destruct (IH bars' (fun d Hd => Hs d (or_intror Hd)) H') as [Hm Hf]. apply bar_of_day_ok in Hb as (H1 & H2 & H3 & H4 & H5 & H6 & H7 & H8).
  destruct (Hk day point El) as (ms & Hlast & Hin & Hday & Hms & Hat & Hpos & Hprice). split; [cbn [map]; by rewrite H1, Hm |].
  constructor; [| exact Hf]. exists (CoinGecko.day_raw point), ms, (CoinGecko.day_price point).
  split; [exact Hin |]. split; [exact Hms |]. split; [exact Hpos |]. split; [exact Hprice |]. split; [by rewrite Hday |].
  split; [| rewrite <- Hat; auto 10]. rewrite H1, <- Hday. unfold point_day. rewrite Hms. apply midnight_of_instant.
Qed.

(** The cursor of a page is the midnight the next one starts from. *)
Lemma day_cursor request ms : 0 < ms <= int64_max ->
  let midnight := CoinGecko.midnightUTC (CoinGecko.civilDayOf (FromUnixMilli ms)) in
  fbr_StartTime request <= midnight < fbr_EndTime request ->
  CoinGecko.effective_start adapter (with_cursor request (CoinGecko.barsCursorPrefix ++ Itoa (UnixMilli midnight))) = Ok midnight.
Proof.
  intros Hms midnight Hr. assert (midnight = FromUnixMilli (UnixMilli midnight) /\ 0 <= UnixMilli midnight <= int64_max) as [Hm Hrange].
  { subst midnight. rewrite midnight_of_instant. unfold UnixMilli, FromUnixMilli, Day24, Hour, Minute, Second, Millisecond, unixToInternal, int64_max in *.
    Z.div_mod_to_equations. lia. }
  clearbody midnight. unfold CoinGecko.effective_start. cbn [fbr_Cursor with_cursor fbr_StartTime fbr_EndTime].
  change ((CoinGecko.barsCursorPrefix ++ Itoa (UnixMilli midnight))%string =s EmptyString) with false. cbv iota.
  unfold CoinGecko.parseBarsCursor, HasPrefix. rewrite prefix_app, TrimPrefix_app, ParseInt64_Itoa by exact Hrange. cbn [negb or_fail rbind].
  rewrite <- Hm. unfold Before. replace (midnight <? fbr_StartTime request) with false by (symmetry; apply Z.ltb_ge; lia).
  replace (midnight <? fbr_EndTime request) with true by (symmetry; apply Z.ltb_lt; lia). reflexivity.
Qed.

Lemma known_days_real points days order : known_days points days order -> kept_points points days ->
  forall d, In d order -> exists ms, d = CoinGecko.civilDayOf (FromUnixMilli ms) /\ 0 < ms <= int64_max.
Proof.
  intros (_ & _ & Hs) Hk d Hd. apply Hs in Hd as [point El]. destruct (Hk d point El) as (ms & _ & _ & Hday & Hms & _ & Hpos & _). exists ms.
  unfold point_day in Hday. rewrite Hms in Hday. apply ParseInt64_range in Hms as [_ Hms]. auto.
Qed.
Lemma effective_start_ge request start : CoinGecko.effective_start adapter request = Ok start -> fbr_StartTime request <= start.
Proof.
  unfold CoinGecko.effective_start. destruct (_ =s _); intros H; [apply Ok_inj in H; lia |].
  apply rbind_ok in H as (t & _ & H). destruct (_ || _) eqn:G; [discriminate |]. apply Ok_inj in H as <-.
  apply orb_false_iff in G as [G%Z.ltb_ge _]. exact G.
Qed.
(** The eligible days of a page. *)
Lemma eligible_days points days order start stop : known_days points days order -> kept_points points days ->
  let eligible := List.filter (CoinGecko.day_eligible start stop) (CoinGecko.sort_days order) in
  StronglySorted day_lt eligible
  /\ (forall d, In d eligible <-> (exists p, In p points /\ point_day p = d) /\ start <= CoinGecko.midnightUTC d < stop)
  /\ (forall d, In d eligible -> In d order).
Proof.
  intros Hn Hk eligible. assert (forall d, In d eligible <-> In d order /\ start <= CoinGecko.midnightUTC d < stop) as Hin.
  { intros d. unfold eligible. rewrite List.filter_In. unfold CoinGecko.day_eligible, Before. rewrite andb_true_iff, negb_true_iff, Z.ltb_ge, Z.ltb_lt.
    enough (In d (CoinGecko.sort_days order) <-> In d order) by tauto.
    split; apply Permutation_in; [| symmetry]; apply sort_days_Permutation. }
  split; [| split].
  - apply filter_sorted, sort_days_sorted; [apply Hn |]. apply List.Forall_forall. intros d Hd.
    destruct (known_days_real _ _ _ Hn Hk d Hd) as (ms & -> & _). by exists (FromUnixMilli ms).
  - intros d. rewrite Hin. destruct Hn as (_ & Ho & _). by rewrite Ho.
  - intros d Hd. by apply Hin.
Qed.

Lemma in_firstn {A} n (l : list A) a : In a (firstn n l) -> In a l.
Proof. intros H. rewrite <- (firstn_skipn n l). apply in_app_iff. by left. Qed.
Lemma request_limit request : request_Validate request = Ok tt -> 0 < fbr_Limit request /\ fbr_StartTime request < fbr_EndTime request.
Proof.
  unfold request_Validate. intros H. apply rbind_ok in H as ([] & _ & H).
  destruct (negb (is_ok _)); [discriminate |]. destruct (_ || _) eqn:G in H; [discriminate |]. destruct (_ <=? 0) eqn:E in H; [discriminate |].
  apply Z.leb_gt in E. unfold Before in G. apply orb_false_iff in G as [_ G%negb_false_iff%Z.ltb_lt]. auto.
Qed.
Lemma select_days_ok limit eligible selected cursor : CoinGecko.select_days limit eligible = (selected, cursor) ->
  selected = firstn (Z.to_nat limit) eligible /\ not_nil cursor = (limit <? llen eligible)
  /\ (forall c, cursor = Some c -> c = (CoinGecko.barsCursorPrefix
         ++ Itoa (UnixMilli (CoinGecko.midnightUTC (nth (Z.to_nat limit) eligible (0, 0, 0)))))%string).
Proof.
  unfold CoinGecko.select_days. destruct (Z.ltb_spec limit (llen eligible)) as [E|E]; intros [= <- <-].
  - split; [reflexivity |]. split; [reflexivity |]. by intros c [= <-].
  - split; [symmetry; apply firstn_all2; unfold llen in E; lia |]. by split.
Qed.

(** C31. A page of the daily adapter is made of the price points it was sent: it has one bar for each UTC day of the range with a point, in
    order and up to the limit, made of the day's last point; when days are left, the cursor is the midnight of the first of them. *)
Theorem coingecko_daily_bars request w page w' : CoinGecko.FetchBars now ctxErr adapter request w = (Ok page, w') ->
  exists start body w1 payload receivedAt eligible,
    CoinGecko.effective_start adapter request = Ok start
    /\ CoinGecko.doGet now ctxErr adapter (CoinGecko.marketChartRangePath (ref_ExternalSymbol (fbr_Instrument request)))
         (CoinGecko.range_query request start) w = (Ok body, w1)
    /\ Unmarshal (decode_struct CoinGecko.prices_fields) (CoinGecko.mkPoints [] 0) body = Some payload
    /\ page_Validate page request = Ok tt
    /\ Forall (daily_bar (CoinGecko.points_values payload) receivedAt) (fbs_Bars page)
    /\ StronglySorted day_lt eligible
    /\ (forall d, In d eligible <-> (exists p, In p (CoinGecko.points_values payload) /\ point_day p = d)
         /\ start <= CoinGecko.midnightUTC d < fbr_EndTime request)
    /\ map pb_OpenTime (fbs_Bars page) = map CoinGecko.midnightUTC (firstn (Z.to_nat (fbr_Limit request)) eligible)
    /\ fbs_HasMore page = (fbr_Limit request <? llen eligible)
    /\ (fbs_HasMore page = true ->
         CoinGecko.effective_start adapter (with_cursor request (fbs_NextCursor page))
           = Ok (CoinGecko.midnightUTC (nth (Z.to_nat (fbr_Limit request)) eligible (0, 0, 0)))).
Proof.
  unfold CoinGecko.FetchBars. intros H. run_ok.
  destruct (collect_days_ok [] ∅ [] _ _ _ M6) as [Hk Hn].
  { intros d point Hc. by rewrite lookup_empty in Hc. }
  { split; [constructor |]. split; intros d; [split; [intros [] | intros (p & [] & _)] |].
    rewrite lookup_empty. split; [intros [] | intros Hc; by destruct Hc]. }
  cbn [app] in Hk, Hn. destruct (eligible_days _ _ _ a1 (fbr_EndTime request) Hn Hk) as (Hsorted & Hin & Hord).
  set (eligible := List.filter _ _) in *. do 3 eexists. exists a3, a5, eligible. do 4 (split; [eassumption |]).
  apply select_days_ok in Q0 as (-> & Hmore & Hcursor). cbn [fbs_Bars fbs_HasMore fbs_NextCursor] in *.
  destruct (bars_of_days_ok _ _ _ _ _ _ _ Hk (fun d Hd => proj1 (proj2 (proj2 Hn) d) (Hord d (in_firstn _ _ _ Hd))) M8) as [Hopen Hbars].
  do 3 (split; [assumption |]). split; [exact Hopen |]. split; [exact Hmore |].
  intros E. rewrite E in Hmore. destruct o as [c|]; [| discriminate E]. cbn [default]. rewrite (Hcursor c eq_refl).
  assert (In (nth (Z.to_nat (fbr_Limit request)) eligible (0, 0, 0)) eligible) as Hnext.
  { apply nth_In. symmetry in Hmore. apply Z.ltb_lt in Hmore. destruct (request_limit _ M). unfold llen in Hmore. lia. }
  destruct (known_days_real _ _ _ Hn Hk _ (Hord _ Hnext)) as (ms & Hreal & Hms). apply Hin in Hnext as [_ Hrange]. rewrite Hreal in *.
  apply day_cursor; [exact Hms |]. pose proof (effective_start_ge _ _ M1). lia.
Qed.
End Http.

(** ** Longbridge *)
Section Longbridge.
Context `{C : !Longbridge.Client W} `{E : Longbridge.SdkErrors} (adapter : Longbridge.Adapter).

(** The close of a bar that opens at [opened], by the calendar. *)
Definition session_close (opened : Time) (interval : string) (closed : Time) : Prop :=
  exists date session, cal_SessionForDate (Longbridge.ad_marketCalendar adapter) date = Ok (Some session) /\ opened < closed
    /\ ((interval = BarInterval1Day /\ UTCDate opened = Ok date /\ closed = session_Close session)
        \/ (interval = BarInterval1Hour /\ DateInLocation opened (cal_Location (Longbridge.ad_marketCalendar adapter)) = Ok date
            /\ session_Open session <= opened < session_Close session /\ (opened - session_Open session) mod Hour = 0
            /\ closed = Z.min (opened + Hour) (session_Close session))).

Lemma whole_hours a b : b <= a -> Z.rem (Sub a b) Hour = 0 -> (a - b) mod Hour = 0.
Proof.
  intros Hab. unfold Sub. rewrite Z.max_r by (apply Z.min_glb; [discriminate | transitivity 0; [discriminate | lia]]). intros H.
  destruct (Z.min_spec int64_max (a - b)) as [[_ E1]|[_ E1]]; rewrite E1 in H; [vm_compute in H; discriminate H |].
  rewrite <- Z.rem_mod_nonneg; [exact H | lia | reflexivity].
Qed.
Lemma regularSessionClose_ok opened interval closed :
  Longbridge.regularSessionClose adapter opened interval = Ok closed -> session_close opened interval closed.
Proof.
  unfold Longbridge.regularSessionClose. intros H. apply rbind_ok in H as (date & Hd & H). apply rbind_ok in H as (found & Hf & H).
  destruct found as [session|]; [| discriminate H]. apply rbind_ok in H as (closeAt & Hc & H). destruct (negb (After closeAt opened)) eqn:G; [discriminate H |].
  apply NewUTCInstant_ok in H as [-> _]. apply negb_false_iff in G. unfold After in G. apply Z.ltb_lt in G.
  exists date, session. split; [exact Hf |]. split; [exact G |].
  destruct (interval =s BarInterval1Hour) eqn:Eh.
  - apply String.eqb_eq in Eh. subst interval. right. split; [reflexivity |]. split; [exact Hd |].
    destruct (_ || _) eqn:G1 in Hc; [discriminate Hc |]. apply Ok_inj in Hc. unfold Before, After, Add in *.
    apply orb_false_iff in G1 as [G1 G3%negb_false_iff%Z.eqb_eq]. apply orb_false_iff in G1 as [G1%Z.ltb_ge G2%negb_false_iff%Z.ltb_lt].
    split; [lia |]. split; [by apply whole_hours |]. subst closeAt.
    destruct (Z.ltb_spec (session_Close session) (opened + Hour)); [rewrite Z.min_r by lia | rewrite Z.min_l by lia]; reflexivity.
  - destruct (interval <>s BarInterval1Day) eqn:Ed in Hc; [discriminate Hc |]. apply Ok_inj in Hc as <-. apply negb_false_iff, String.eqb_eq in Ed. subst interval.
    left. split; [reflexivity |]. split; [exact Hd | reflexivity].
Qed.

Definition session_bar (interval : string) (receivedAt : Time) (b : ProviderBar) : Prop :=
  session_close (pb_OpenTime b) interval (pb_CloseTime b) /\ pb_ReceivedAt b = receivedAt
  /\ (pb_IsClosed b = true <-> pb_CloseTime b <= receivedAt).
Lemma mapCandlestick_ok reference interval stick receivedAt b :
  Longbridge.mapCandlestick adapter reference interval stick receivedAt = Ok b ->
  session_bar interval receivedAt b /\ pb_OpenTime b = FromUnix (Longbridge.cs_Timestamp stick).
Proof.
  unfold Longbridge.mapCandlestick. intros H. do 4 (apply rbind_ok in H as (? & _ & H)).
  apply rbind_ok in H as (opened & Ho & H). apply instantFromSeconds_ok in Ho as [-> _]. apply rbind_ok in H as (closed & Hc & H).
  apply rbind_ok in H as (volume & _ & H). cbv zeta in H. apply rbind_ok in H as ([] & _ & H). apply Ok_inj in H as <-.
  split; [| reflexivity]. split; [exact (regularSessionClose_ok _ _ _ Hc) |]. split; [reflexivity |].
  cbn [pb_IsClosed pb_CloseTime]. unfold Before. by rewrite negb_true_iff, Z.ltb_ge.
Qed.
Lemma map_candlesticks_ok request stop receivedAt seen oldest bars sticks oldest' bars' :
  Longbridge.map_candlesticks adapter request stop receivedAt seen oldest bars sticks = Ok (oldest', bars') ->
  Forall (session_bar (fbr_Interval request) receivedAt) bars -> Forall (session_bar (fbr_Interval request) receivedAt) bars'.
Proof.
  revert seen oldest bars. induction sticks as [|[stick|] sticks IH]; intros seen oldest bars H Hf; cbn [Longbridge.map_candlesticks] in H;
    [by apply Ok_inj in H as [= <- <-] | | discriminate H].
  destruct (_ <=? 0); [discriminate H |]. destruct (bool_decide _); [discriminate H |]. cbv zeta in H.
  destruct (_ || _) in H; [by apply (IH _ _ _ H) |]. apply rbind_ok in H as (b & Hb & H). apply or_fail_ok, mapCandlestick_ok in Hb as [Hb _].
  apply (IH _ _ _ H). apply Forall_app. split; [exact Hf |]. constructor; [exact Hb | constructor].
Qed.

(** C30. A bar of the US adapter belongs to a regular session of the calendar: a daily bar closes with the session of its date, an hourly
    bar opens on a whole hour of the session and closes an hour later or with the session, after it opened; it is marked closed exactly
    when that instant has passed for the collector. *)
Theorem longbridge_session_bars request w page w' : Longbridge.FetchBars now ctxErr adapter request w = (Ok page, w') ->
  page_Validate page request = Ok tt
  /\ exists receivedAt, Forall (session_bar (fbr_Interval request) receivedAt) (fbs_Bars page).
Proof.
  unfold Longbridge.FetchBars. intros H. run_ok. split; [assumption |]. eexists. unfold Longbridge.candlestick_page.
  match goal with |- Forall _ (fbs_Bars (if ?b then _ else _)) => destruct b; cbn [fbs_Bars] end;
    rewrite sort_bars_Permutation; (eapply map_candlesticks_ok; [eassumption | constructor]).
Qed.
End Longbridge.
End Adapters.
