(* ===== verification/AdapterErrors.v ===== *)
(** * The errors of the provider adapters

    Every error is the context's or a classified error of the provider; the
    delay a throttled answer asks for is the delay of the retry, unless its
    number of nanoseconds overflows. *)
From S2P Require Import Prelude Errors GoStrings GoTime GoJson External Domain MarketData Calendar CatchUp Ports Registry Ingestion Service GoText GoJsonTree DomainJson ProviderClient.
From S2P Require Bybit CoinGecko Longbridge.
Open Scope go_scope.

Definition classified (code : Code) (e : error) : Prop := exists p, AsProviderError e = Some p /\ pe_ProviderCode p = code.
Definition unconstructed (package : string) (e : error) : Prop :=
  e = Wrap ("construct " ++ package ++ " provider error") (invalidContract "retry-after requires a positive retryable provider error").

(** The classes and the messages the packages use. *)
Definition proper_class (class message : string) : bool :=
  is_ok (ParseProviderErrorCode class) && negb (message =s EmptyString) && (TrimSpace message =s message) && (RuneCountInString message <=? 512).
Lemma provider_error_valid code class message retryAfter : code <> EmptyString -> proper_class class message = true ->
  providerError_Validate code class message retryAfter
  = if opt_test (fun d => (d <=? 0) || negb (Retryable class)) retryAfter
    then Err (invalidContract "retry-after requires a positive retryable provider error") else Ok tt.
Proof.
  intros Hc%String.eqb_neq Hp. unfold proper_class in Hp. apply andb_true_iff in Hp as [Hp H4]. apply andb_true_iff in Hp as [Hp H3].
  apply andb_true_iff in Hp as [H1 H2]. unfold providerError_Validate, code_IsZero. rewrite Hc. destruct (ParseProviderErrorCode class); [| discriminate H1..].
  cbn [rbind]. apply negb_true_iff in H2. rewrite H2, H3. apply Z.leb_le in H4. replace (512 <? RuneCountInString message) with false by (symmetry; by apply Z.ltb_ge).
  reflexivity.
Qed.
Lemma providerError_new package code class message retryAfter cause : code <> EmptyString -> proper_class class message = true ->
  opt_test (fun d => (d <=? 0) || negb (Retryable class)) retryAfter = false ->
  AsProviderError (providerError package code class message retryAfter cause) = Some (mkProviderError code class message retryAfter).
Proof.
  intros Hc Hp Hr. pose proof (provider_error_valid code class message retryAfter Hc Hp) as E. rewrite Hr in E. unfold providerError, NewProviderError.
  rewrite E. cbn [rbind]. unfold AsProviderError. cbn [errors_AsProvider]. by rewrite E.
Qed.
Lemma providerError_overflow package code class message retryAfter cause : code <> EmptyString -> proper_class class message = true ->
  opt_test (fun d => (d <=? 0) || negb (Retryable class)) retryAfter = true ->
  unconstructed package (providerError package code class message retryAfter cause).
Proof.
  intros Hc Hp Hr. pose proof (provider_error_valid code class message retryAfter Hc Hp) as E. rewrite Hr in E. unfold providerError, NewProviderError.
  by rewrite E.
Qed.

(** ** Errors of an adapter *)
Section Adapters.
Context `{D : DecimalLib} {W : Type} (now : M W Time) (ctxErr : M W (option error)) (Hnow : never_fails now) (Hctx : never_fails ctxErr).

(** [ctx.Err()] *)
Definition canceled (e : error) : Prop := exists w w', ctxErr w = (Ok (Some e), w').
Definition adapter_error (package : string) (code : Code) (e : error) : Prop := canceled e \/ classified code e \/ unconstructed package e.

Section Package.
Context (package : string) (code : Code) (Hcode : code <> EmptyString).
Abbreviation P := (adapter_error package code).
Lemma adapter_error_class class message cause : proper_class class message = true -> P (providerError package code class message None cause).
Proof. intros H. right. left. eexists. split; [apply providerError_new; [exact Hcode | exact H | reflexivity] | reflexivity]. Qed.
Lemma adapter_error_delay class message d cause : proper_class class message = true -> Retryable class = true ->
  P (providerError package code class message (Some d) cause).
Proof.
  intros H Hr. right. destruct (opt_test (fun d => (d <=? 0) || negb (Retryable class)) (Some d)) eqn:E.
  - right. by apply providerError_overflow.
  - left. eexists. split; [by apply providerError_new | reflexivity].
Qed.
Lemma fails_or_fail {A} fail (c : result A) : (forall e, P (fail e)) -> fails P (or_fail fail c).
Proof. intros H e. destruct c; cbn; intros [= <-]. apply H. Qed.
Lemma fails_some_or_fail {A} fail (o : option A) : (forall e, P (fail e)) -> fails P (some_or_fail fail o).
Proof. intros H e. destruct o; cbn; intros [= <-]. apply H. Qed.
Lemma throws_result {A} (r : result A) : fails P r -> throws (W := W) P (mlift r).
Proof. apply throws_lift. Qed.
Lemma throws_ctx {A} (k : M W A) : throws P k -> throws P (e <-- ctxErr ;; match e with Some e => mthrow e | None => k end).
Proof.
  intros Hk w e w'. unfold mbind. destruct (ctxErr w) as [[[c|]|c|] w1] eqn:E; [intros [= <- <-]; left; by exists w, w1 | apply Hk | | discriminate].
  intros [= <- <-]. destruct (Hctx w c w1 E).
Qed.
End Package.
End Adapters.

(** Decompose a result or a computation into its steps and classify their errors. *)
Ltac error_step :=
  match goal with
  | |- fails _ (Ok _) => apply fails_ok
  | |- fails _ (Err _) => apply fails_err
  | |- fails _ Diverge => apply fails_diverge
  | |- fails _ (rbind _ _) => apply fails_bind; [| intros ?]
  | |- fails _ (or_fail _ _) => apply fails_or_fail; intros ?
  | |- fails _ (some_or_fail _ _) => apply fails_some_or_fail; intros ?
  | |- fails _ (match ?x with _ => _ end) => destruct x
  | |- fails _ (let _ := _ in _) => cbv zeta
  | |- adapter_error _ _ _ (providerError _ _ _ _ None _) => apply adapter_error_class; [assumption | reflexivity]
  | |- adapter_error _ _ _ (providerError _ _ _ _ (Some _) _) => apply adapter_error_delay; [assumption | reflexivity | reflexivity]
  | |- throws _ (mbind (mtry _) _) => apply throws_bind; [apply throws_try | intros ?]
  | |- throws _ (mbind _ _) => apply throws_bind; [| intros ?]
  | |- throws _ (mret _) => apply throws_ret
  | |- throws _ (mthrow _) => apply throws_throw
  | |- throws _ (mlift _) => apply throws_result
  | |- throws _ (match ?x with _ => _ end) => destruct x
  | |- throws _ (let _ := _ in _) => cbv zeta
  | H : never_fails ?c |- throws _ ?c => apply throws_never, H
  end.
(** [yields P c]: an error that [c] computes or throws satisfies [P]. *)
Definition yields {W} (P : error -> Prop) (c : M W error) : Prop := throws P c /\ forall w e w', c w = (Ok e, w') -> P e.
Section Yields.
Context {W : Type} (P : error -> Prop).
Lemma yields_ret e : P e -> yields (W := W) P (mret e).
Proof. intros H. split; [apply throws_ret |]. by intros w e' w' [= <- <-]. Qed.
Lemma yields_bind {A} (c : M W A) k : never_fails c -> (forall a, yields P (k a)) -> yields P (mbind c k).
Proof.
  intros Hc Hk. split; [apply throws_bind; [by apply throws_never | intros a; apply Hk] |].
  intros w e w'. unfold mbind. destruct (c w) as [[a|e'|] w1]; [apply Hk | discriminate..].
Qed.
Lemma throws_yield (c : M W error) {A} : yields P c -> throws P (e <-- c ;; @mthrow W A e).
Proof.
  intros [Ht Hy] w e w'. unfold mbind. destruct (c w) as [[e'|e'|] w1] eqn:E; [| intros [= <- <-]; by apply (Ht w e' w1) | discriminate].
  intros [= <- <-]. by apply (Hy w e' w1).
Qed.
End Yields.
Ltac package_errors :=
  progress unfold Bybit.providerError, Bybit.badRequestError, Bybit.invalidInstrumentError, Bybit.unsupportedIntervalError, Bybit.invalidResponseError,
    CoinGecko.providerError, CoinGecko.badRequestError, CoinGecko.invalidInstrumentError, CoinGecko.unsupportedIntervalError, CoinGecko.invalidResponseError,
    Longbridge.providerError, Longbridge.badRequestError, Longbridge.invalidInstrumentError, Longbridge.unsupportedIntervalError,
    Longbridge.invalidResponseError, badRequestError, invalidInstrumentError, unsupportedIntervalError, invalidResponseError; cbv beta.
Ltac adapter_step :=
  match goal with
  | H : throws ?P ?c |- throws ?P ?c => exact H
  | H : fails ?P ?c |- fails ?P ?c => exact H
  | H : forall _, fails ?P _ |- fails ?P _ => apply H
  | H : forall _, throws ?P _ |- throws ?P _ => apply H
  | H : forall _ _, yields ?P _ |- yields ?P _ => apply H
  | |- throws _ (e <-- _ ;; mthrow e) => apply throws_yield
  | |- throws _ (x <-- ?c ;; match x with Some e => mthrow e | None => _ end) => apply throws_ctx; [assumption |]
  | |- yields _ (mret _) => apply yields_ret
  | |- yields _ (mbind _ _) => apply yields_bind; [assumption | intros ?]
  | |- yields _ (match ?x with _ => _ end) => destruct x
  | |- yields _ (let _ := _ in _) => cbv zeta
  | |- adapter_error _ _ _ (match ?x with _ => _ end) => destruct x
  | |- adapter_error _ _ _ _ => package_errors
  | |- _ => error_step
  end.
Ltac adapter_errors := repeat adapter_step.

Section Facts.
Context `{D : DecimalLib} {W : Type} (now : M W Time) (ctxErr : M W (option error)) (Hnow : never_fails now) (Hctx : never_fails ctxErr).

Section Http.
Context `{L : HttpLib} `{C : !HttpClient W} (adapter : HttpAdapter) (Hcode : ad_providerCode adapter <> EmptyString).

Lemma exchange_errors package classify path query :
  (forall response body, yields (adapter_error ctxErr package (ad_providerCode adapter)) (classify response body)) ->
  throws (adapter_error ctxErr package (ad_providerCode adapter)) (exchange package ctxErr adapter classify path query).
Proof. intros Hc. unfold exchange. adapter_errors. Qed.

Abbreviation bybit_error := (adapter_error ctxErr "bybit" (ad_providerCode adapter)).
Lemma bybit_getJSON_errors {T} (fields : RawFields T) zero path query :
  throws bybit_error (Bybit.getJSON now ctxErr adapter fields zero path query).
Proof.
  unfold Bybit.getJSON. assert (forall response body, yields bybit_error (Bybit.classifyHTTPError now adapter response body)) as H.
  { intros response body. unfold Bybit.classifyHTTPError. adapter_errors. }
  assert (forall header retCode message, yields bybit_error (Bybit.classifyRetCode now adapter header retCode message)) as H'.
  { intros header retCode message. unfold Bybit.classifyRetCode. adapter_errors. }
  adapter_errors; [apply exchange_errors; exact H | apply H'].
Qed.

Lemma bybit_reference_errors r : fails bybit_error (Bybit.validateSpotReference adapter r).
Proof. unfold Bybit.validateSpotReference. adapter_errors. Qed.
Lemma bybit_references_errors references maximum : fails bybit_error (Bybit.validateSpotReferences adapter references maximum).
Proof.
  assert (forall l requested, fails bybit_error (Bybit.requested_symbols adapter requested l)) as H.
  { induction l as [|r l IH]; intros requested; cbn [Bybit.requested_symbols]; [apply fails_ok | pose proof (bybit_reference_errors r); adapter_errors]. }
  unfold Bybit.validateSpotReferences. adapter_errors. apply H.
Qed.
Lemma bybit_tickers_errors requested single marketTime receivedAt seen quotes raws :
  fails bybit_error (Bybit.map_tickers adapter requested single marketTime receivedAt seen quotes raws).
Proof. revert seen quotes. induction raws as [|raw raws IH]; intros seen quotes; cbn [Bybit.map_tickers]; adapter_errors; apply IH. Qed.
Lemma bybit_klines_errors request duration providerTime receivedAt seen bars raws :
  fails bybit_error (Bybit.map_klines adapter request duration providerTime receivedAt seen bars raws).
Proof. revert seen bars. induction raws as [|raw raws IH]; intros seen bars; cbn [Bybit.map_klines]; adapter_errors; apply IH. Qed.
Lemma bybit_errors : throws bybit_error (Bybit.Capabilities ctxErr adapter)
  /\ (forall references, throws bybit_error (Bybit.FetchLatestQuotes now ctxErr adapter references))
  /\ (forall request, throws bybit_error (Bybit.FetchBars now ctxErr adapter request)).
Proof.
  split; [| split; intros].
  - unfold Bybit.Capabilities. adapter_errors.
  - unfold Bybit.FetchLatestQuotes. adapter_errors; [apply bybit_references_errors | apply bybit_getJSON_errors | apply bybit_tickers_errors].
  - unfold Bybit.FetchBars. adapter_errors; [apply bybit_reference_errors | apply bybit_getJSON_errors | apply bybit_klines_errors].
Qed.

Abbreviation coingecko_error := (adapter_error ctxErr "coingecko" (ad_providerCode adapter)).
Lemma coingecko_doGet_errors path query : throws coingecko_error (CoinGecko.doGet now ctxErr adapter path query).
Proof.
  unfold CoinGecko.doGet. adapter_errors. apply exchange_errors. intros response body. unfold CoinGecko.classifyHTTPError. adapter_errors.
Qed.
Lemma coingecko_reference_errors r : fails coingecko_error (CoinGecko.validateFXReference adapter r).
Proof. unfold CoinGecko.validateFXReference. adapter_errors. Qed.
Lemma coingecko_references_errors references maximum : fails coingecko_error (CoinGecko.validateFXReferences adapter references maximum).
Proof.
  assert (forall l pairs, fails coingecko_error (CoinGecko.distinct_pairs adapter pairs l)) as H.
  { induction l as [|r l IH]; intros pairs; cbn [CoinGecko.distinct_pairs]; [apply fails_ok | pose proof (coingecko_reference_errors r); adapter_errors]. }
  unfold CoinGecko.validateFXReferences. adapter_errors. apply H.
Qed.
Lemma coingecko_rates_errors payload receivedAt references : fails coingecko_error (CoinGecko.map_rates adapter payload receivedAt references).
Proof.
  induction references as [|r references IH]; cbn [CoinGecko.map_rates]; [apply fails_ok |]. apply fails_bind; [| intros ?; adapter_errors; exact IH].
  unfold CoinGecko.map_rate. adapter_errors.
Qed.
Lemma coingecko_days_errors days order points : fails coingecko_error (CoinGecko.collect_days adapter days order points).
Proof. revert days order. induction points as [|p points IH]; intros days order; cbn [CoinGecko.collect_days]; adapter_errors; apply IH. Qed.
Lemma coingecko_bars_errors reference zero receivedAt days selected : fails coingecko_error (CoinGecko.bars_of_days adapter reference zero receivedAt days selected).
Proof.
  induction selected as [|d selected IH]; cbn [CoinGecko.bars_of_days]; [apply fails_ok |]. destruct (days !! d); [| exact IH].
  apply fails_bind; [unfold CoinGecko.bar_of_day; adapter_errors | intros ?; adapter_errors; exact IH].
Qed.
Lemma coingecko_errors : throws coingecko_error (CoinGecko.Capabilities ctxErr adapter)
  /\ (forall references, throws coingecko_error (CoinGecko.FetchLatestQuotes now ctxErr adapter references))
  /\ (forall request, throws coingecko_error (CoinGecko.FetchBars now ctxErr adapter request)).
Proof.
  split; [| split; intros].
  - unfold CoinGecko.Capabilities. adapter_errors.
  - unfold CoinGecko.FetchLatestQuotes. adapter_errors; [apply coingecko_references_errors | apply coingecko_doGet_errors | apply coingecko_rates_errors].
  - unfold CoinGecko.FetchBars, CoinGecko.effective_start. adapter_errors;
      [apply coingecko_reference_errors | apply coingecko_doGet_errors | apply coingecko_days_errors | apply coingecko_bars_errors].
Qed.
End Http.

Section Longbridge.
Context `{C : !Longbridge.Client W} `{E : Longbridge.SdkErrors} (adapter : Longbridge.Adapter) (Hcode : Longbridge.ad_providerCode adapter <> EmptyString).
Abbreviation longbridge_error := (adapter_error ctxErr "Longbridge" (Longbridge.ad_providerCode adapter)).

Lemma longbridge_call_errors {A} op (call : M W A) : throws longbridge_error (Longbridge.client_call ctxErr adapter op call).
Proof.
  unfold Longbridge.client_call. adapter_errors. split; [| unfold Longbridge.classifyClientError; intros w thrown w'].
  - unfold Longbridge.classifyClientError. adapter_errors.
  - unfold mbind. destruct (ctxErr w) as [[[c|]|c|] w1] eqn:Ec; [intros [= <- <-]; left; by exists w, w1 | | discriminate..].
    intros [= <- <-]. adapter_errors.
Qed.
Lemma longbridge_reference_errors r : fails longbridge_error (Longbridge.validateUSReference adapter r).
Proof. unfold Longbridge.validateUSReference. adapter_errors. Qed.
Lemma longbridge_references_errors references : fails longbridge_error (Longbridge.validateUSReferences adapter references).
Proof.
  assert (forall l requested, fails longbridge_error (Longbridge.requested_symbols adapter requested l)) as H.
  { induction l as [|r l IH]; intros requested; cbn [Longbridge.requested_symbols]; [apply fails_ok | pose proof (longbridge_reference_errors r); adapter_errors]. }
  unfold Longbridge.validateUSReferences. adapter_errors. apply H.
Qed.
Lemma longbridge_snapshots_errors requested receivedAt mapped snapshots :
  fails longbridge_error (Longbridge.map_snapshots adapter requested receivedAt mapped snapshots).
Proof. revert mapped. induction snapshots as [|[s|] snapshots IH]; intros mapped; cbn [Longbridge.map_snapshots]; adapter_errors; apply IH. Qed.
Lemma longbridge_sticks_errors request stop receivedAt seen oldest bars sticks :
  fails longbridge_error (Longbridge.map_candlesticks adapter request stop receivedAt seen oldest bars sticks).
Proof.
  revert seen oldest bars. induction sticks as [|[s|] sticks IH]; intros seen oldest bars; cbn [Longbridge.map_candlesticks]; cbv zeta;
    adapter_errors; apply IH.
Qed.
Lemma longbridge_errors : throws longbridge_error (Longbridge.Capabilities ctxErr adapter)
  /\ (forall references, throws longbridge_error (Longbridge.FetchLatestQuotes now ctxErr adapter references))
  /\ (forall request, throws longbridge_error (Longbridge.FetchBars now ctxErr adapter request)).
Proof.
  split; [| split; intros].
  - unfold Longbridge.Capabilities. adapter_errors.
  - unfold Longbridge.FetchLatestQuotes. adapter_errors; [apply longbridge_references_errors | apply longbridge_call_errors | apply longbridge_snapshots_errors].
  - unfold Longbridge.FetchBars. adapter_errors; [apply longbridge_reference_errors | apply longbridge_call_errors | apply longbridge_sticks_errors].
Qed.
End Longbridge.

(** C29. Whatever the client and the SDK answer, an error of an adapter is the context's, or a classified error of that provider, or the
    refusal to build such an error with a retry delay that is not positive. *)
Theorem provider_errors `{L : HttpLib} `{C : !HttpClient W} `{K : !Longbridge.Client W} `{E : Longbridge.SdkErrors} bybit coingecko longbridge :
  ad_providerCode bybit <> EmptyString -> ad_providerCode coingecko <> EmptyString -> Longbridge.ad_providerCode longbridge <> EmptyString ->
  (forall references request,
     throws (adapter_error ctxErr "bybit" (ad_providerCode bybit)) (Bybit.FetchLatestQuotes now ctxErr bybit references)
     /\ throws (adapter_error ctxErr "bybit" (ad_providerCode bybit)) (Bybit.FetchBars now ctxErr bybit request)
     /\ throws (adapter_error ctxErr "coingecko" (ad_providerCode coingecko)) (CoinGecko.FetchLatestQuotes now ctxErr coingecko references)
     /\ throws (adapter_error ctxErr "coingecko" (ad_providerCode coingecko)) (CoinGecko.FetchBars now ctxErr coingecko request)
     /\ throws (adapter_error ctxErr "Longbridge" (Longbridge.ad_providerCode longbridge)) (Longbridge.FetchLatestQuotes now ctxErr longbridge references)
     /\ throws (adapter_error ctxErr "Longbridge" (Longbridge.ad_providerCode longbridge)) (Longbridge.FetchBars now ctxErr longbridge request)).
Proof.
  intros Hb Hc Hl references request. destruct (bybit_errors bybit Hb) as (_ & Hb1 & Hb2). destruct (coingecko_errors coingecko Hc) as (_ & Hc1 & Hc2).
  destruct (longbridge_errors longbridge Hl) as (_ & Hl1 & Hl2). auto 10.
Qed.
End Facts.

(** ** The delay of a throttled answer *)
Section Delays.
Context `{L : HttpLib}.
Definition retry_seconds (header : gmap string (list string)) : option Z := ParseInt64 (TrimSpace (Header_Get header "Retry-After")).
(** The largest number of seconds that is a [time.Duration]. *)
Definition maximum_seconds : Z := 9223372036.

Lemma Sub_positive a b : b < a -> 0 < Sub a b.
Proof. intros H. unfold Sub. apply Z.lt_le_trans with 1; [lia |]. etransitivity; [| apply Z.le_max_r]. apply Z.min_glb; [discriminate | lia]. Qed.
Lemma retry_after_sign header now d : retry_after header now = Some d ->
  0 < d \/ exists s, retry_seconds header = Some s /\ maximum_seconds < s.
Proof.
  unfold retry_after, retry_seconds. cbv zeta. set (value := TrimSpace _). clearbody value. destruct (value =s EmptyString); [discriminate |].
  assert (forall d, match http_ParseTime value with Some i => if After i now then Some (Sub i now) else None | None => None end = Some d -> 0 < d) as Hdate.
  { intros d'. destruct (http_ParseTime value) as [i|]; [| discriminate]. unfold After. destruct (Z.ltb_spec now i); [| discriminate].
    intros [= <-]. by apply Sub_positive. }
  destruct (ParseInt64 value) as [s|]; [| intros H; left; by apply Hdate]. destruct (Z.ltb_spec 0 s); [| intros H'; left; by apply Hdate].
  intros [= <-]. destruct (Z.le_gt_cases s maximum_seconds) as [Hs|Hs]; [left | right; by exists s].
  rewrite wrap64_id; unfold int64_range, maximum_seconds, Second, int64_min, int64_max in *; lia.
Qed.
Lemma retry_after_seconds header now s : retry_seconds header = Some s -> 0 < s <= maximum_seconds -> retry_after header now = Some (s * Second).
Proof.
  unfold retry_after, retry_seconds. cbv zeta. set (value := TrimSpace _). clearbody value. intros Hv Hs.
  destruct (value =s EmptyString) eqn:E; [apply String.eqb_eq in E; by rewrite E in Hv |]. rewrite Hv.
  replace (0 <? s) with true by (symmetry; apply Z.ltb_lt; lia).
  rewrite wrap64_id; [reflexivity |]. unfold int64_range, maximum_seconds, Second, int64_min, int64_max in *. lia.
Qed.

(** What becomes of a throttled request whose answer has the headers [header] and is given the delay [d]. *)
Definition throttled (header : gmap string (list string)) (d : Duration) (code : Code) (e : error) : Prop :=
  (forall s, retry_seconds header = Some s -> 0 < s <= maximum_seconds -> d = s * Second)
  /\ (0 < d -> AsProviderError e = Some (mkProviderError code ProviderErrorRateLimited "provider rate limit reached" (Some d))
       /\ forall c claim finishedAt text, task_AttemptCount (claim_Task claim) < task_MaxAttempts (claim_Task claim) ->
            fail_Status (failureCommit c claim (Wrap text e) finishedAt) = taskStatusRetryWait
            /\ fail_NextAttemptAt (failureCommit c claim (Wrap text e) finishedAt) = Some (finishedAt + Z.min d (conf_MaximumRetryDelay c)))
  /\ (d <= 0 -> (exists s, retry_seconds header = Some s /\ maximum_seconds < s)
       /\ forall c claim finishedAt text,
            fail_Status (failureCommit c claim (Wrap text e) finishedAt) = taskStatusFailed
            /\ fail_ErrorCode (failureCommit c claim (Wrap text e) finishedAt) = "configuration_invalid"%string).

Lemma throttled_error package header d code cause : code <> EmptyString ->
  (forall s, retry_seconds header = Some s -> 0 < s <= maximum_seconds -> d = s * Second) ->
  0 < d \/ (exists s, retry_seconds header = Some s /\ maximum_seconds < s) ->
  throttled header d code (providerError package code ProviderErrorRateLimited "provider rate limit reached" (Some d) cause).
Proof.
  intros Hcode Hs Hd. split; [exact Hs |]. split; intros Hsign.
  - assert (AsProviderError (providerError package code ProviderErrorRateLimited "provider rate limit reached" (Some d) cause)
      = Some (mkProviderError code ProviderErrorRateLimited "provider rate limit reached" (Some d))) as E.
    { apply providerError_new; [exact Hcode | reflexivity |]. cbn. apply orb_false_iff. split; [by apply Z.leb_gt | reflexivity]. }
    split; [exact E |]. intros c claim finishedAt text Ha. unfold failureCommit, classifyFailure.
    change (AsProviderError (Wrap text ?e)) with (AsProviderError e). rewrite E. cbn [pe_Code fc_retryable fc_retryAfter pe_RetryAfter]. cbv zeta.
    replace (task_MaxAttempts (claim_Task claim) <=? task_AttemptCount (claim_Task claim)) with false by (symmetry; by apply Z.leb_gt).
    split; reflexivity.
  - split; [destruct Hd; [lia | assumption] |]. intros c claim finishedAt text.
    assert (unconstructed package (providerError package code ProviderErrorRateLimited "provider rate limit reached" (Some d) cause)) as ->.
    { apply providerError_overflow; [exact Hcode | reflexivity |]. cbn. apply orb_true_iff. left. by apply Z.leb_le. }
    split; reflexivity.
Qed.

(** C28. A request that is answered 429 is tried again after the number of seconds the answer asks for, bounded by the configured maximum.
    When that number overflows to a delay that is not positive, the task fails for good as if its configuration were invalid. *)
Theorem throttled_requests {W} (now : M W Time) (bybit coingecko : HttpAdapter) response body w t w1 :
  ad_providerCode bybit <> EmptyString -> ad_providerCode coingecko <> EmptyString -> now w = (Ok t, w1) -> resp_StatusCode response = 429 ->
  (exists e, Bybit.classifyHTTPError now bybit response body w = (Ok e, w1)
     /\ throttled (resp_Header response) (Bybit.retryDelay (resp_Header response) t Second) (ad_providerCode bybit) e)
  /\ (exists e, CoinGecko.classifyHTTPError now coingecko response body w = (Ok e, w1)
     /\ throttled (resp_Header response) (CoinGecko.retryDelay (resp_Header response) t CoinGecko.defaultRateLimitDelay) (ad_providerCode coingecko) e).
Proof.
  intros Hb Hc Hn Hs. split.
  - unfold Bybit.classifyHTTPError. rewrite Hs. cbn [Z.eqb Pos.eqb]. cbv zeta. unfold mbind. rewrite Hn. eexists. split; [reflexivity |].
    apply throttled_error; [exact Hb | |]; unfold Bybit.retryDelay.
    + intros s E1 E2. by rewrite (retry_after_seconds _ _ _ E1 E2).
    + destruct (retry_after _ _) as [d|] eqn:E; [by apply (retry_after_sign _ _ _ E) |]. left. cbv zeta.
      destruct (_ =s _); [reflexivity |]. destruct (ParseInt64 _) as [ms|]; [| reflexivity]. unfold After.
      destruct (Z.ltb_spec t (FromUnixMilli ms)); [by apply Sub_positive | reflexivity].
  - unfold CoinGecko.classifyHTTPError. rewrite Hs. cbn [Z.eqb Pos.eqb orb]. cbv zeta. unfold mbind. rewrite Hn. eexists. split; [reflexivity |].
    apply throttled_error; [exact Hc | |]; unfold CoinGecko.retryDelay.
    + intros s E1 E2. by rewrite (retry_after_seconds _ _ _ E1 E2).
    + destruct (retry_after _ _) as [d|] eqn:E; [by apply (retry_after_sign _ _ _ E) | by left].
Qed.
End Delays.
