(* ===== verification/BybitPaging.v ===== *)
(** * Collecting bars from Bybit

    The ingestion service over the Bybit adapter: when the exchange answers a
    query with its latest rows of the range, the backward pages are put
    together to every row of the request, once and in ascending order. *)
From stdpp Require Import sorting.
From S2P Require Import Prelude Errors GoStrings GoTime GoJson External Domain MarketData Ports Registry Ingestion Service IngestionFacts ServiceFacts GoText GoJsonTree DomainJson ProviderClient AdapterFacts.
From S2P Require Bybit.
Open Scope go_scope.

(** ** Times in milliseconds *)
Lemma ceil_aligned s : Bybit.ceilUnixMilliseconds (FromUnixMilli s) = s.
Proof.
  unfold Bybit.ceilUnixMilliseconds, Nanosecond_of. rewrite UnixMilli_FromUnixMilli.
  assert (FromUnixMilli s mod Second mod Millisecond = 0) as ->; [| cbn; lia].
  unfold FromUnixMilli, Second, Millisecond. Z.div_mod_to_equations. lia.
Qed.
Lemma before_ceil ms t : ms < Bybit.exclusiveEndMilliseconds t <-> FromUnixMilli ms < t.
Proof.
  unfold Bybit.exclusiveEndMilliseconds, Bybit.ceilUnixMilliseconds, Nanosecond_of, UnixMilli, FromUnixMilli.
  assert (t mod Second mod Millisecond = t mod Millisecond) as ->.
  { unfold Second, Millisecond. Z.div_mod_to_equations. lia. }
  destruct (Z.eqb_spec (t mod Millisecond) 0) as [E|E]; unfold Millisecond, unixToInternal in *; Z.div_mod_to_equations; lia.
Qed.

(** ** Rows of the exchange: opens in milliseconds with their texts, the newest first *)
Definition newer (a b : Z * string) : Prop := fst b < fst a.
Definition rows_before (start stop : Z) (rows : list (Z * string)) : list (Z * string) :=
  List.filter (fun r => (start <=? fst r) && (fst r <? stop)) rows.
(** The answer of the exchange: the latest rows of a range. *)
Definition latest_rows (limit start stop : Z) (rows : list (Z * string)) : list (Z * string) :=
  firstn (Z.to_nat limit) (rows_before start stop rows).

Lemma rows_before_sorted start stop rows : StronglySorted newer rows -> StronglySorted newer (rows_before start stop rows).
Proof. apply filter_sorted. Qed.
Lemma rows_before_In start stop rows r : In r (rows_before start stop rows) <-> In r rows /\ start <= fst r < stop.
Proof. unfold rows_before. rewrite List.filter_In, andb_true_iff, Z.leb_le, Z.ltb_lt. tauto. Qed.
(** What is before the last row already seen. *)
Lemma rows_before_rest start stop rows seen last rest : StronglySorted newer rows ->
  rows_before start stop rows = seen ++ last :: rest -> rows_before start (fst last) rows = rest.
Proof.
  revert seen. induction rows as [|r rows IH]; intros seen Hs E; [by destruct seen |]. inversion Hs as [|? ? Hs' Hr]; subst.
  rewrite List.Forall_forall in Hr. unfold rows_before in *. cbn [List.filter] in *.
  destruct ((start <=? fst r) && (fst r <? stop)) eqn:Er.
  - destruct seen as [|r' seen]; injection E as <- E.
    + rewrite Z.ltb_irrefl, andb_false_r. rewrite <- E. apply List.filter_ext_in. intros x Hx. specialize (Hr x Hx). unfold newer in Hr.
      apply andb_true_iff in Er as [_ Er%Z.ltb_lt]. destruct (start <=? fst x); cbn; [| reflexivity].
      replace (fst x <? stop) with true by (symmetry; apply Z.ltb_lt; lia). apply Z.ltb_lt. lia.
    + assert (newer r last) as Hn.
      { apply Hr. assert (In last (List.filter (fun r => (start <=? fst r) && (fst r <? stop)) rows)) as Hin by (rewrite E; apply in_app_iff; right; by left).
        by apply List.filter_In in Hin as [Hin _]. }
      unfold newer in Hn. replace (fst r <? fst last) with false by (symmetry; apply Z.ltb_ge; lia). rewrite andb_false_r. exact (IH seen Hs' E).
  - assert (newer r last) as Hn.
    { apply Hr. assert (In last (List.filter (fun r => (start <=? fst r) && (fst r <? stop)) rows)) as Hin by (rewrite E; apply in_app_iff; right; by left).
      by apply List.filter_In in Hin as [Hin _]. }
    unfold newer in Hn. replace (fst r <? fst last) with false by (symmetry; apply Z.ltb_ge; lia). rewrite andb_false_r. exact (IH seen Hs' E).
Qed.

(** ** Pages *)
Section Paging.
Context `{D : DecimalLib} {W : Type} `{L : HttpLib} `{C : !HttpClient W} (now : M W Time) (ctxErr : M W (option error)) (adapter : HttpAdapter).

(** The address of the kline interface for the rows of a range with its last millisecond, as the exchange documents it. *)
Definition kline_url (request : FetchBarsRequest) (symbol : string) (start last : Z) : URL :=
  let base := ad_baseURL adapter in
  mkURL (url_Scheme base) (url_Host base) (url_HasUser base) (TrimRight 47 (url_Path base) ++ "/v5/market/kline")
    (Values_Encode [("category", "spot"); ("symbol", ref_ExternalSymbol (fbr_Instrument request)); ("interval", symbol); ("start", Itoa start);
                    ("end", Itoa last); ("limit", Itoa (fbr_Limit request))]) (url_Fragment base).
(** A successful response, within the limit, that is the envelope of the rows [page]. *)
Definition kline_response (request : FetchBarsRequest) (page : list (Z * string)) (providerTime : Z) (response : Response) : Prop :=
  resp_StatusCode response = 200 /\ resp_Broken response = None /\ slen (resp_Text response) <= ad_maxResponseBytes adapter < int64_max
  /\ exists message rest,
       Decode (decode_struct (Bybit.envelope_fields Bybit.klineResult_fields))
         (Bybit.mkEnvelope 0 EmptyString (Bybit.mkKlineResult EmptyString EmptyString []) 0) (resp_Text response)
       = Some (Bybit.mkEnvelope 0 message (Bybit.mkKlineResult "spot" (ref_ExternalSymbol (fbr_Instrument request)) (map snd page)) providerTime, rest)
       /\ only_space rest = true.

(** The exchange answers every query of the request for the bars up to the end, or up to one of its rows, with its latest rows of that range;
    each row is the text of a bar; the clock and the context do not change. *)
Record exchange_answers (request : FetchBarsRequest) (symbol : string) (duration : Duration) (start : Z) (rows : list (Z * string))
    (bar_of : Z * string -> ProviderBar) (providerTime : Z) (receivedAt : Time) : Prop := mkExchangeAnswers {
  ex_interval : Bybit.bybitInterval (fbr_Interval request) = Ok (symbol, duration);
  ex_start : fbr_StartTime request = FromUnixMilli start /\ 0 < start;
  ex_sorted : StronglySorted newer rows;
  ex_times : 0 < providerTime /\ receivedAt <> 0;
  ex_rows : forall r, In r rows -> Bybit.mapKline (fbr_Instrument request) (fbr_Interval request) duration (FromUnixMilli providerTime) receivedAt (snd r)
              = Ok (bar_of r, fst r);
  ex_now : forall w, now w = (Ok receivedAt, w);
  ex_context : forall w, ctxErr w = (Ok None, w);
  ex_answers : forall last header w, last + 1 = Bybit.exclusiveEndMilliseconds (fbr_EndTime request) \/ In (last + 1) (map fst rows) ->
    http_NewRequest (kline_url request symbol start last) = None
    /\ exists response, http_Do (kline_url request symbol start last) header w = (Ok response, w)
         /\ kline_response request (latest_rows (fbr_Limit request) start (last + 1) rows) providerTime response }.

Context (request : FetchBarsRequest) (symbol : string) (duration : Duration) (start : Z) (rows : list (Z * string))
  (bar_of : Z * string -> ProviderBar) (providerTime : Z) (receivedAt : Time)
  (Hex : exchange_answers request symbol duration start rows bar_of providerTime receivedAt).

Lemma row_bar r : In r rows -> 0 < fst r <= int64_max /\ pb_OpenTime (bar_of r) = FromUnixMilli (fst r)
  /\ pb_Interval (bar_of r) = fbr_Interval request /\ bar_ValidateFor (bar_of r) (fbr_Instrument request) = Ok tt.
Proof.
  intros Hr. pose proof (ex_rows _ _ _ _ _ _ _ _ Hex r Hr) as H. pose proof (mapKline_ok _ _ _ _ _ _ _ _ H) as (Hpos & Ho & _ & _ & Hi & Hv & _).
  split; [| auto]. split; [exact Hpos |]. unfold Bybit.mapKline in H.
  destruct (Unmarshal _ _ (snd r)) as [[|f0 [|f1 [|f2 [|f3 [|f4 [|f5 [|f6 [|? ?]]]]]]]]|]; try discriminate.
  destruct (ParseInt64 f0) as [ms|] eqn:E; [| discriminate]. apply ParseInt64_range in E as [_ E]. destruct (ms <=? 0); [discriminate |].
  do 8 (apply rbind_ok in H as (? & _ & H)). cbv zeta in H. apply rbind_ok in H as (? & _ & H). apply Ok_inj in H. injection H as _ <-. exact E.
Qed.

(** The rows of a page become its bars. *)
Lemma map_klines_rows q seen bars page : fbr_Instrument q = fbr_Instrument request -> fbr_Interval q = fbr_Interval request ->
  (forall r, In r page -> In r rows /\ fst r ∉ seen) -> StronglySorted newer page ->
  Bybit.map_klines adapter q duration (FromUnixMilli providerTime) receivedAt seen bars (map snd page) = Ok (bars ++ map bar_of page).
Proof.
  intros Hq Hq'. revert seen bars. induction page as [|r page IH]; intros seen bars Hin Hs; cbn [Bybit.map_klines map]; [by rewrite app_nil_r |].
  destruct (Hin r (or_introl eq_refl)) as [Hr Hseen]. rewrite Hq, Hq', (ex_rows _ _ _ _ _ _ _ _ Hex r Hr).
  rewrite bool_decide_eq_false_2 by exact Hseen. inversion Hs as [|? ? Hs' Hf]; subst. rewrite IH; [by rewrite <- app_assoc | | exact Hs'].
  intros r' Hr'. destruct (Hin r' (or_intror Hr')) as [H1 H2]. split; [exact H1 |]. rewrite List.Forall_forall in Hf. specialize (Hf r' Hr'). unfold newer in Hf.
  rewrite elem_of_union, elem_of_singleton. intros [E|E]; [lia | done].
Qed.

Lemma sorted_snoc {A} (R : A -> A -> Prop) l a : StronglySorted R l -> Forall (fun b => R b a) l -> StronglySorted R (l ++ [a]).
Proof.
  induction 1 as [|b l Hs IH Hb]; intros Hf; cbn; [repeat constructor |]. inversion Hf as [|? ? Hba Hf']; subst.
  constructor; [by apply IH |]. apply Forall_app. split; [exact Hb |]. by repeat constructor.
Qed.
Lemma ascending page : (forall r, In r page -> In r rows) -> StronglySorted newer page -> StronglySorted bar_before (map bar_of (rev page)).
Proof.
  intros Hin. induction page as [|r page IH]; intros Hs; cbn [rev]; [constructor |]. inversion Hs as [|? ? Hs' Hf]; subst. rewrite map_app. apply sorted_snoc.
  - apply IH; [intros; apply Hin; by right | exact Hs'].
  - apply List.Forall_forall. intros b Hb. apply in_map_iff in Hb as (r' & <- & Hr'). apply in_rev in Hr'. rewrite List.Forall_forall in Hf.
    specialize (Hf r' Hr'). unfold newer in Hf. unfold bar_before. destruct (row_bar r (Hin r (or_introl eq_refl))) as (_ & -> & _).
    destruct (row_bar r' (Hin r' (or_intror Hr'))) as (_ & -> & _). by apply FromUnixMilli_lt.
Qed.
Lemma bar_before_unique l1 l2 : StronglySorted bar_before l1 -> StronglySorted bar_before l2 -> Permutation l1 l2 -> l1 = l2.
Proof. apply StronglySorted_unique. intros a b Ha Hb. unfold bar_before in *. lia. Qed.
Lemma sorted_NoDup l : StronglySorted bar_before l -> List.NoDup (map pb_OpenTime l).
Proof.
  induction 1 as [|b l Hs IH Hb]; cbn; constructor; [| exact IH]. intros Hin. apply in_map_iff in Hin as (c & E & Hc).
  rewrite List.Forall_forall in Hb. specialize (Hb c Hc). unfold bar_before in Hb. lia.
Qed.
(** Sorting bars that are a rearrangement of an ascending list. *)
Lemma sort_bars_ascending l sorted : Permutation l sorted -> StronglySorted bar_before sorted -> sort_bars l = sorted.
Proof.
  intros Hp Hs. apply bar_before_unique; [| exact Hs | by rewrite sort_bars_Permutation]. apply sort_bars_sorted.
  apply (Permutation_NoDup (Permutation_map pb_OpenTime (Permutation_sym Hp))). by apply sorted_NoDup.
Qed.

(** *** One page *)
Lemma validate_page_bars_intro q previous bars :
  Forall (in_request (fbr_Instrument q) (fbr_Interval q) (fbr_StartTime q) (fbr_EndTime q)) bars -> StronglySorted bar_before bars ->
  (forall p b, previous = Some p -> In b bars -> p < pb_OpenTime b) -> validate_page_bars q previous bars = Ok tt.
Proof.
  revert previous. induction bars as [|b bars IH]; intros previous Hf Hs Hp; [reflexivity |]. cbn [validate_page_bars].
  inversion Hf as [|? ? (Hv & Hi & Hr) Hf']; subst. inversion Hs as [|? ? Hs' Hb]; subst. rewrite Hv. cbn [rbind]. rewrite Hi, String.eqb_refl.
  unfold Before. replace (pb_OpenTime b <? fbr_StartTime q) with false by (symmetry; apply Z.ltb_ge; lia).
  replace (pb_OpenTime b <? fbr_EndTime q) with true by (symmetry; apply Z.ltb_lt; lia). cbn [negb orb].
  assert (opt_test (fun p => negb (After (pb_OpenTime b) p)) previous = false) as ->.
  { destruct previous as [p|]; [| reflexivity]. cbn. unfold After. specialize (Hp p b eq_refl (or_introl eq_refl)).
    apply negb_false_iff, Z.ltb_lt. exact Hp. }
  apply (IH _ Hf' Hs'). intros p c [= <-] Hc. rewrite List.Forall_forall in Hb. by apply Hb.
Qed.

Context (Hlimit : fbr_Limit request <= Bybit.maxBarsPerRequest) (Hrequest : request_Validate request = Ok tt)
  (Hreference : Bybit.validateSpotReference adapter (fbr_Instrument request) = Ok tt).
Abbreviation limit := (Z.to_nat (fbr_Limit request)).
Abbreviation at_cursor c := (with_cursor request c).
Abbreviation page_at c page := (Bybit.page_of_bars (at_cursor c) (map bar_of (rev page))).

Lemma request_at_cursor c : slen c <= maximumAdapterCursorLength -> request_Validate (at_cursor c) = Ok tt.
Proof.
  intros Hc. revert Hrequest. unfold request_Validate. cbn [with_cursor fbr_Instrument fbr_Interval fbr_StartTime fbr_EndTime fbr_Limit fbr_Cursor].
  destruct (reference_Validate _); cbn [rbind]; [| discriminate..]. repeat (match goal with |- (if ?b then Err _ else _) = _ -> _ => destruct b; [discriminate |] end).
  intros _. by replace (maximumAdapterCursorLength <? slen c) with false by (symmetry; by apply Z.ltb_ge).
Qed.
Lemma page_in_request c stop page : (forall r, In r page -> In r rows /\ start <= fst r < stop) -> stop <= Bybit.exclusiveEndMilliseconds (fbr_EndTime request) ->
  Forall (in_request (fbr_Instrument (at_cursor c)) (fbr_Interval (at_cursor c)) (fbr_StartTime (at_cursor c)) (fbr_EndTime (at_cursor c))) (map bar_of page).
Proof.
  intros Hin Hstop. apply List.Forall_forall. intros b Hb. apply in_map_iff in Hb as (r & <- & Hr). destruct (Hin r Hr) as [Hrow Hrange].
  destruct (row_bar r Hrow) as (_ & Ho & Hi & Hv). split; [exact Hv |]. split; [exact Hi |]. rewrite Ho. destruct (ex_start _ _ _ _ _ _ _ _ Hex) as [Hs _].
  cbn [with_cursor fbr_StartTime fbr_EndTime]. rewrite Hs. split; [unfold FromUnixMilli, Millisecond; lia |]. apply before_ceil. lia.
Qed.

(** The cursor after a page whose oldest row opens at [ms]. *)
Definition cursor_of (ms : Z) : string := (Bybit.cursorPrefix ++ Itoa ms)%string.
Lemma cursor_of_length ms : 0 < ms <= int64_max -> slen (cursor_of ms) <= maximumAdapterCursorLength.
Proof.
  intros H. pose proof (Itoa_length ms). unfold cursor_of, slen in *. rewrite string_length_app. change (String.length Bybit.cursorPrefix) with 10%nat.
  unfold maximumAdapterCursorLength. lia.
Qed.
Lemma cursor_of_inj a b : cursor_of a = cursor_of b -> a = b.
Proof. intros H. apply (f_equal (fun s => TrimPrefix s Bybit.cursorPrefix)) in H. unfold cursor_of in H. rewrite !TrimPrefix_app in H. by apply Itoa_inj. Qed.
Lemma cursor_of_nonempty ms : (cursor_of ms =s EmptyString) = false.
Proof. reflexivity. Qed.
Lemma stop_of_cursor ms : start < ms < Bybit.exclusiveEndMilliseconds (fbr_EndTime request) -> 0 < ms <= int64_max ->
  Bybit.effectiveEndMilliseconds (at_cursor (cursor_of ms)) = Ok ms.
Proof.
  intros Hr Hms. unfold Bybit.effectiveEndMilliseconds. cbn [with_cursor fbr_Cursor fbr_EndTime fbr_StartTime]. rewrite cursor_of_nonempty.
  unfold cursor_of, HasPrefix. rewrite prefix_app, TrimPrefix_app, ParseInt64_Itoa by lia. cbn [negb].
  destruct (ex_start _ _ _ _ _ _ _ _ Hex) as [-> _]. rewrite ceil_aligned.
  replace (ms <=? start) with false by (symmetry; apply Z.leb_gt; lia).
  replace (Bybit.exclusiveEndMilliseconds (fbr_EndTime request) <=? ms) with false by (symmetry; apply Z.leb_gt; lia). reflexivity.
Qed.

Lemma bind_result {A B} (a : A) (k : A -> M W B) (c : result A) w : c = Ok a -> mbind (mlift c) k w = k a w.
Proof. by intros ->. Qed.
Lemma bind_run {A B} (a : A) (k : A -> M W B) c (w w' : W) : c w = (Ok a, w') -> mbind c k w = k a w'.
Proof. intros H. unfold mbind. by rewrite H. Qed.

Lemma latest_rows_In stop r : In r (latest_rows (fbr_Limit request) start stop rows) -> In r rows /\ start <= fst r < stop.
Proof. intros H%in_firstn. by apply rows_before_In. Qed.
Lemma firstn_sorted {A} (R : A -> A -> Prop) n l : StronglySorted R l -> StronglySorted R (firstn n l).
Proof. rewrite <- (firstn_skipn n l) at 1. apply StronglySorted_app_1_l. Qed.
Lemma latest_rows_sorted stop : StronglySorted newer (latest_rows (fbr_Limit request) start stop rows).
Proof. apply firstn_sorted, rows_before_sorted. apply Hex. Qed.

Lemma ReadLimited_all response n : resp_Broken response = None -> slen (resp_Text response) <= n < int64_max ->
  ReadLimited response (wrap64 (n + 1)) = Ok (resp_Text response).
Proof.
  intros Hb Hn. assert (0 <= slen (resp_Text response)) by (unfold slen; lia). rewrite wrap64_id by (unfold int64_range, int64_min; lia).
  unfold ReadLimited. replace (n + 1 <=? 0) with false by (symmetry; apply Z.leb_gt; lia).
  replace (n + 1 <=? slen (resp_Text response)) with false by (symmetry; apply Z.leb_gt; lia). by rewrite Hb.
Qed.
(** What the adapter decodes of an answer. *)
Lemma answer_envelope stop w : stop = Bybit.exclusiveEndMilliseconds (fbr_EndTime request) \/ In stop (map fst rows) -> exists message,
  Bybit.getJSON now ctxErr adapter Bybit.klineResult_fields (Bybit.mkKlineResult EmptyString EmptyString []) Bybit.klinePath
    (Bybit.kline_query request symbol start stop) w
  = (Ok (Bybit.mkEnvelope 0 message (Bybit.mkKlineResult Bybit.spotMarket (ref_ExternalSymbol (fbr_Instrument request))
           (map snd (latest_rows (fbr_Limit request) start stop rows))) providerTime), w).
Proof.
  intros Hstop. set (header := Header_Set (Header_Set ∅ "Accept" "application/json") "User-Agent" (ad_userAgent adapter)).
  destruct (ex_answers _ _ _ _ _ _ _ _ Hex (stop - 1) header w) as (Hn & response & Hd & Hs & Hb & Hl & message & rest & Hj & Hr);
    rewrite Z.sub_add in *; [exact Hstop |]. exists message.
  assert (exchange "bybit" ctxErr adapter (Bybit.classifyHTTPError now adapter) Bybit.klinePath (Bybit.kline_query request symbol start stop) w
          = (Ok (response, resp_Text response), w)) as He.
  { unfold exchange. change (with_query _ _) with (kline_url request symbol start (stop - 1)). rewrite Hn. cbv zeta. fold header.
    rewrite (bind_run (Ok response) _ _ w w) by (unfold mtry; by rewrite Hd).
    rewrite (bind_result (resp_Text response)) by (apply or_fail_ok; by apply ReadLimited_all).
    replace (ad_maxResponseBytes adapter <? slen (resp_Text response)) with false by (symmetry; apply Z.ltb_ge; lia). by rewrite Hs. }
  unfold Bybit.getJSON. rewrite (bind_run _ _ _ _ _ He). cbv beta iota. erewrite bind_result by (rewrite Hj; reflexivity). cbv beta iota.
  rewrite Hr. cbn [negb Bybit.env_RetCode Bybit.env_Time]. destruct (ex_times _ _ _ _ _ _ _ _ Hex) as [Hpt _].
  replace (providerTime <=? 0) with false by (symmetry; apply Z.leb_gt; lia). reflexivity.
Qed.
Lemma fetch_page c stop w : Bybit.effectiveEndMilliseconds (at_cursor c) = Ok stop -> start < stop ->
  stop = Bybit.exclusiveEndMilliseconds (fbr_EndTime request) \/ In stop (map fst rows) -> slen c <= maximumAdapterCursorLength ->
  let page := latest_rows (fbr_Limit request) start stop rows in
  page_Validate (page_at c page) (at_cursor c) = Ok tt ->
  Bybit.FetchBars now ctxErr adapter (at_cursor c) w = (Ok (page_at c page), w).
Proof.
  intros Hstop Hlt Hknown Hc page Hv. destruct (ex_start _ _ _ _ _ _ _ _ Hex) as [Hst Hpos]. destruct (ex_times _ _ _ _ _ _ _ _ Hex) as [Hpt Hra].
  assert (sort_bars (map bar_of page) = map bar_of (rev page)) as Hsort.
  { apply sort_bars_ascending; [by rewrite map_rev, <- Permutation_rev |]. apply ascending; [| apply latest_rows_sorted].
    intros r Hr. by apply latest_rows_In in Hr as [Hr _]. }
  unfold Bybit.FetchBars. rewrite (bind_result tt) by (apply or_fail_ok; by apply request_at_cursor).
  rewrite (bind_result tt) by exact Hreference. rewrite (bind_result (symbol, duration)) by (apply or_fail_ok; apply Hex).
  cbn [with_cursor fbr_Limit fbr_StartTime]. replace (Bybit.maxBarsPerRequest <? fbr_Limit request) with false by (symmetry; by apply Z.ltb_ge).
  cbv zeta. rewrite (bind_result stop) by (apply or_fail_ok; exact Hstop). rewrite Hst, ceil_aligned.
  replace (start <=? 0) with false by (symmetry; apply Z.leb_gt; lia). replace (stop <=? start) with false by (symmetry; apply Z.leb_gt; lia). cbn [orb].
  destruct (answer_envelope stop w Hknown) as [message Hanswer]. rewrite (bind_run _ _ _ _ _ Hanswer).
  cbn [Bybit.env_Result Bybit.kr_Category Bybit.kr_Symbol Bybit.env_Time Bybit.kr_List with_cursor fbr_Instrument]. rewrite !String.eqb_refl. cbn [negb orb].
  rewrite (bind_result (FromUnixMilli providerTime)).
  2: { unfold instantFromMilliseconds. replace (providerTime <=? 0) with false by (symmetry; apply Z.leb_gt; lia). unfold NewUTCInstant, IsZero.
       replace (FromUnixMilli providerTime =? 0) with false; [reflexivity |]. symmetry. apply Z.eqb_neq. unfold FromUnixMilli, Millisecond, unixToInternal. lia. }
  rewrite (bind_run _ _ _ _ _ (ex_now _ _ _ _ _ _ _ _ Hex w)). rewrite (bind_result receivedAt).
  2: { apply or_fail_ok. unfold NewUTCInstant, IsZero. apply Z.eqb_neq in Hra. by rewrite Hra. }
  rewrite (bind_result (map bar_of page)).
  2: { apply (map_klines_rows (at_cursor c) ∅ []); [reflexivity | reflexivity | | apply latest_rows_sorted].
       intros r Hr. apply latest_rows_In in Hr as [Hr _]. split; [exact Hr | apply not_elem_of_empty]. }
  rewrite Hsort. rewrite (bind_result tt) by (apply or_fail_ok; exact Hv). reflexivity.
Qed.

(** *** All pages *)
Abbreviation last_open := (Bybit.exclusiveEndMilliseconds (fbr_EndTime request)).
Definition wanted : list (Z * string) := rows_before start last_open rows.
(** The cursor after the rows [seen]. *)
Definition cursor_after (c : string) (seen : list (Z * string)) : Prop :=
  (seen = [] /\ c = EmptyString) \/ exists seen' oldest, seen = seen' ++ [oldest] /\ c = cursor_of (fst oldest) /\ start < fst oldest.

Lemma wanted_row r : In r wanted -> In r rows /\ start <= fst r < last_open /\ 0 < fst r <= int64_max.
Proof. intros H. apply rows_before_In in H as [H1 H2]. split; [exact H1 |]. split; [exact H2 |]. by apply row_bar. Qed.
Lemma cursor_stop c seen rest : wanted = seen ++ rest -> cursor_after c seen ->
  exists stop, Bybit.effectiveEndMilliseconds (at_cursor c) = Ok stop /\ start < stop <= last_open /\ (stop = last_open \/ In stop (map fst rows))
    /\ slen c <= maximumAdapterCursorLength /\ latest_rows (fbr_Limit request) start stop rows = firstn limit rest
    /\ (forall r, In r rest -> c <> cursor_of (fst r)).
Proof.
  intros Hw Hc. destruct (ex_start _ _ _ _ _ _ _ _ Hex) as [Hst _]. destruct Hc as [[-> ->]|(seen' & oldest & -> & -> & Hlt)].
  - exists last_open. split; [reflexivity |]. split; [| split; [by left |]].
    + split; [| lia]. apply before_ceil. rewrite <- Hst. by destruct (request_limit _ Hrequest).
    + split; [vm_compute; discriminate |]. split; [unfold latest_rows; fold wanted; by rewrite Hw |]. intros r _. discriminate.
  - assert (In oldest wanted) as Hin by (rewrite Hw; apply in_app_iff; left; apply in_app_iff; right; by left).
    destruct (wanted_row oldest Hin) as (Hrow & Hrange & Hms). exists (fst oldest). split; [apply stop_of_cursor; lia |]. split; [lia |].
    split; [right; by apply in_map |]. split; [by apply cursor_of_length |]. rewrite <- app_assoc in Hw. cbn [app] in Hw.
    assert (StronglySorted newer rows) as Hsorted by apply Hex. split.
    + unfold latest_rows. by rewrite (rows_before_rest start last_open rows seen' oldest rest Hsorted Hw).
    + intros r Hr E%cursor_of_inj. pose proof (rows_before_sorted start last_open rows Hsorted) as Hs. fold wanted in Hs. rewrite Hw in Hs.
      apply StronglySorted_app_1_r, StronglySorted_inv in Hs as [_ Hs]. rewrite List.Forall_forall in Hs. specialize (Hs r Hr). unfold newer in Hs. lia.
Qed.

(** The page made of the first rows of what is left, and whether it says there is more. *)
Lemma page_shape c page : page <> [] -> (forall r, In r page -> In r rows) -> exists page' oldest, page = page' ++ [oldest] /\
  page_at c page = (if (llen page =? fbr_Limit request) && (start <? fst oldest)
                    then mkFetchBarsResult (map bar_of (rev page)) (cursor_of (fst oldest)) true
                    else mkFetchBarsResult (map bar_of (rev page)) EmptyString false).
Proof.
  intros Hne Hin. destruct (exists_last Hne) as (page' & oldest & ->). exists page', oldest. split; [reflexivity |].
  assert (In oldest rows) as Hold by (apply Hin, in_app_iff; right; by left).
  unfold Bybit.page_of_bars. rewrite rev_app_distr. cbn [rev app map]. destruct (row_bar oldest Hold) as (_ & -> & _).
  cbn [with_cursor fbr_Limit fbr_StartTime]. destruct (ex_start _ _ _ _ _ _ _ _ Hex) as [-> _].
  assert (llen (bar_of oldest :: map bar_of (rev page')) = llen (page' ++ [oldest])) as ->.
  { unfold llen. cbn [length]. rewrite length_map, length_rev, length_app. cbn. lia. }
  assert (After (FromUnixMilli (fst oldest)) (FromUnixMilli start) = (start <? fst oldest)) as ->.
  { unfold After. apply eq_true_iff_eq. rewrite !Z.ltb_lt. apply FromUnixMilli_lt. }
  rewrite UnixMilli_FromUnixMilli. reflexivity.
Qed.

(** No wanted row follows one that is not after the start. *)
Lemma nothing_before_start seen oldest r rest : wanted = seen ++ [oldest] ++ r :: rest -> fst oldest <= start -> False.
Proof.
  intros Hw Hle. assert (In r wanted) as Hr by (rewrite Hw; apply in_app_iff; right; right; by left). destruct (wanted_row r Hr) as (_ & Hr' & _).
  pose proof (rows_before_sorted start last_open rows (ex_sorted _ _ _ _ _ _ _ _ Hex)) as Hs. fold wanted in Hs. rewrite Hw in Hs.
  apply StronglySorted_app_1_r, StronglySorted_inv in Hs as [_ Hs]. rewrite List.Forall_forall in Hs. specialize (Hs r (or_introl eq_refl)).
  unfold newer in Hs. lia.
Qed.

(** A page of what is left is valid; when it says there is more, its rows end after the start of the range, and otherwise nothing is left. *)
Lemma next_page c seen rest : wanted = seen ++ rest -> cursor_after c seen ->
  let page := firstn limit rest in
  page_Validate (page_at c page) (at_cursor c) = Ok tt /\ fbs_Bars (page_at c page) = map bar_of (rev page)
  /\ (fbs_HasMore (page_at c page) = true -> length page = limit /\ cursor_after (fbs_NextCursor (page_at c page)) (seen ++ page))
  /\ (fbs_HasMore (page_at c page) = false -> page = rest).
Proof.
  intros Hw Hc page. destruct (cursor_stop c seen rest Hw Hc) as (stop & _ & Hstop & _ & Hlen & Hlatest & Hfresh). fold page in Hlatest.
  destruct (request_limit _ Hrequest) as [Hlim _]. assert (forall r, In r page -> In r rows /\ start <= fst r < stop) as Hin by (rewrite <- Hlatest; apply latest_rows_In).
  assert (StronglySorted newer page) as Hsorted by (rewrite <- Hlatest; apply latest_rows_sorted).
  assert (forall r, In r page -> In r rows) as Hrows by (intros r Hr; by apply Hin).
  assert (validate_page_bars (at_cursor c) None (map bar_of (rev page)) = Ok tt) as Hbars.
  { apply validate_page_bars_intro; [| by apply ascending | discriminate]. apply (page_in_request c stop); [| lia]. intros r Hr. by apply Hin, in_rev. }
  assert (llen page <= fbr_Limit request) as Hle by (unfold llen, page; rewrite length_firstn; lia).
  assert (llen (map bar_of (rev page)) = llen page) as Hl by (unfold llen; by rewrite length_map, length_rev).
  unfold page_Validate. rewrite request_at_cursor by exact Hlen. cbn [rbind].
  destruct (decide (page = [])) as [Hnil|Hne].
  - rewrite Hnil in *. cbn [rev map Bybit.page_of_bars fbs_Bars fbs_HasMore fbs_NextCursor andb negb String.eqb].
    replace (fbr_Limit (at_cursor c) <? llen []) with false by (symmetry; apply Z.ltb_ge; exact Hle). split; [exact Hbars |]. split; [reflexivity |].
    split; [discriminate |]. intros _. unfold page in Hnil. destruct rest; [reflexivity |]. assert (limit <> 0%nat) by lia. by destruct limit.
  - destruct (page_shape c page Hne Hrows) as (page' & oldest & Hpage & ->).
    assert (In oldest page) as Hold by (rewrite Hpage; apply in_app_iff; right; by left).
    assert (In oldest rest) as Hrest by (unfold page in Hold; by apply in_firstn in Hold).
    assert (0 < llen page) as Hpos by (rewrite Hpage; unfold llen; rewrite length_app; cbn; lia).
    destruct ((llen page =? fbr_Limit request) && (start <? fst oldest)) eqn:G; cbn [fbs_Bars fbs_HasMore fbs_NextCursor andb negb]; rewrite Hl;
      replace (fbr_Limit (at_cursor c) <? llen page) with false by (symmetry; apply Z.ltb_ge; exact Hle).
    + apply andb_true_iff in G as [G1%Z.eqb_eq G2%Z.ltb_lt]. rewrite cursor_of_nonempty. cbn [with_cursor fbr_Cursor orb].
      replace (cursor_of (fst oldest) =s c) with false by (symmetry; apply String.eqb_neq; intros Ec; by apply (Hfresh oldest Hrest)).
      replace (llen page =? 0) with false by (symmetry; apply Z.eqb_neq; lia). cbn [orb].
      replace (maximumAdapterCursorLength <? slen (cursor_of (fst oldest))) with false
        by (symmetry; apply Z.ltb_ge, cursor_of_length; by apply row_bar, Hrows).
      split; [exact Hbars |]. split; [reflexivity |]. split; [| discriminate]. intros _. split; [unfold llen in G1; lia |].
      right. exists (seen ++ page'), oldest. rewrite Hpage at 1. by rewrite app_assoc.
    + split; [exact Hbars |]. split; [reflexivity |]. split; [discriminate |]. intros _. apply andb_false_iff in G as [G%Z.eqb_neq|G%Z.ltb_ge].
      * unfold page in *. apply firstn_all2. unfold llen in G. rewrite length_firstn in *. lia.
      * rewrite <- (firstn_skipn limit rest) in Hw. fold page in Hw. unfold page. rewrite <- (firstn_skipn limit rest) at 2. fold page.
        destruct (skipn limit rest) as [|r l]; [by rewrite app_nil_r |]. exfalso. rewrite Hpage, <- app_assoc, app_assoc in Hw.
        by apply (nothing_before_start (seen ++ page') oldest r l).
Qed.

Lemma collect_fresh seen bars page : (forall b, In b page -> pb_OpenTime b ∉ seen) -> List.NoDup (map pb_OpenTime page) ->
  exists seen', collect_bars seen bars page = Ok (seen', bars ++ page) /\ forall t, t ∈ seen' <-> t ∈ seen \/ In t (map pb_OpenTime page).
Proof.
  revert seen bars. induction page as [|b page IH]; intros seen bars Hf Hn; cbn [collect_bars].
  { exists seen. rewrite app_nil_r. split; [reflexivity |]. intros t. cbn. tauto. }
  inversion Hn as [|? ? Hb Hn']; subst. rewrite bool_decide_eq_false_2 by (apply Hf; by left).
  destruct (IH ({[pb_OpenTime b]} ∪ seen) (bars ++ [b])) as (seen' & -> & Hs); [| exact Hn' |].
  - intros b' Hb'. rewrite elem_of_union, elem_of_singleton. intros [E|E]; [apply Hb; rewrite <- E; by apply in_map | by apply (Hf b'); [right |]].
  - exists seen'. rewrite <- app_assoc. split; [reflexivity |]. intros t. rewrite Hs, elem_of_union, elem_of_singleton. cbn. intuition.
Qed.

Context (registry : Registry W) (Hregistry : ValidateBarsRequest registry request = Ok tt).
Lemma registry_at_cursor c : slen c <= maximumAdapterCursorLength -> ValidateBarsRequest registry (at_cursor c) = Ok tt.
Proof.
  intros Hc. revert Hregistry. unfold ValidateBarsRequest. rewrite Hrequest, request_at_cursor by exact Hc. done.
Qed.

(** The bars collected are those of the rows seen. *)
Definition collected_rows (seen : list (Z * string)) (times : gset Z) (bars : list ProviderBar) : Prop :=
  Permutation bars (map bar_of seen) /\ (forall t, t ∈ times <-> In t (map pb_OpenTime bars)).
Lemma wanted_sorted seen rest : wanted = seen ++ rest -> StronglySorted newer (seen ++ rest).
Proof. intros <-. apply rows_before_sorted, Hex. Qed.
Lemma page_is_fresh seen page rest times bars : wanted = seen ++ page ++ rest -> collected_rows seen times bars ->
  (forall b, In b (map bar_of (rev page)) -> pb_OpenTime b ∉ times) /\ List.NoDup (map pb_OpenTime (map bar_of (rev page))).
Proof.
  intros Hw [Hp Ht]. pose proof (wanted_sorted _ _ Hw) as Hs. assert (forall r, In r (seen ++ page) -> In r rows) as Hin.
  { intros r Hr. apply wanted_row. rewrite Hw, app_assoc. apply in_app_iff. by left. }
  split.
  - intros b Hb. apply in_map_iff in Hb as (r & <- & Hr). apply in_rev in Hr. rewrite Ht. intros Hc. apply in_map_iff in Hc as (b' & E & Hb').
    apply (Permutation_in _ Hp) in Hb'. apply in_map_iff in Hb' as (r' & <- & Hr').
    destruct (row_bar r (Hin r (in_or_app _ _ _ (or_intror Hr)))) as (_ & Eo & _). destruct (row_bar r' (Hin r' (in_or_app _ _ _ (or_introl Hr')))) as (_ & Eo' & _).
    rewrite Eo, Eo' in E. assert (fst r' = fst r) as E' by (pose proof (FromUnixMilli_lt (fst r) (fst r')); pose proof (FromUnixMilli_lt (fst r') (fst r)); lia).
    assert (newer r' r) as Hn. { eapply StronglySorted_app_1_elem_of; [exact Hs | by apply list_elem_of_In | apply list_elem_of_In, in_app_iff; by left]. }
    unfold newer in Hn. lia.
  - apply sorted_NoDup, ascending; [intros r Hr; apply Hin, in_app_iff; by right |]. apply StronglySorted_app_1_r in Hs. by apply StronglySorted_app_1_l in Hs.
Qed.

Lemma fetch_rows pages c seen rest times bars w : wanted = seen ++ rest -> cursor_after c seen -> collected_rows seen times bars ->
  (length rest < pages * limit)%nat ->
  fetch_pages registry ctxErr pages (Bybit.market_data_adapter now ctxErr adapter) (at_cursor c) times bars w = (Ok (map bar_of (rev wanted)), w).
Proof.
  revert c seen rest times bars. induction pages as [|pages IH]; intros c seen rest times bars Hw Hc Hcol Hlt; [lia |].
  destruct (cursor_stop c seen rest Hw Hc) as (stop & Hend & Hstop & Hknown & Hlen & Hlatest & _).
  destruct (next_page c seen rest Hw Hc) as (Hv & Hb & Hmore & Hdone). pose proof (fetch_page c stop w Hend ltac:(lia) Hknown Hlen) as Hf.
  cbv zeta in Hf. rewrite Hlatest in Hf. specialize (Hf Hv). set (page := firstn limit rest) in *.
  cbn [fetch_pages]. rewrite (bind_run _ _ _ _ _ (ex_context _ _ _ _ _ _ _ _ Hex w)). rewrite (bind_result tt) by (by rewrite registry_at_cursor).
  rewrite (bind_run (page_at c page) _ _ w w) by (unfold mwrap; cbn [Bybit.market_data_adapter adapter_FetchBars]; by rewrite Hf).
  rewrite (bind_result tt) by (by rewrite Hv). rewrite Hb.
  assert (wanted = seen ++ page ++ skipn limit rest) as Hw' by (unfold page; by rewrite firstn_skipn).
  destruct (page_is_fresh _ _ _ _ _ Hw' Hcol) as [Hfresh Hnodup]. destruct (collect_fresh times bars _ Hfresh Hnodup) as (times' & Hcollect & Htimes).
  rewrite (bind_result (times', bars ++ map bar_of (rev page))) by exact Hcollect.
  assert (collected_rows (seen ++ page) times' (bars ++ map bar_of (rev page))) as Hcol'.
  { destruct Hcol as [Hp Ht]. split; [rewrite map_app, Hp, map_rev; apply Permutation_app_head; symmetry; apply Permutation_rev |]. intros t. by rewrite Htimes, Ht, map_app, in_app_iff. }
  destruct (fbs_HasMore (page_at c page)) eqn:Emore; cbn [negb].
  - destruct (Hmore eq_refl) as [Hfull Hc']. change (with_cursor (at_cursor c) ?n) with (at_cursor n).
    apply (IH _ (seen ++ page) (skipn limit rest)); [by rewrite <- app_assoc | exact Hc' | exact Hcol' |].
    rewrite length_skipn. unfold page in Hfull. rewrite length_firstn in Hfull. lia.
  - rewrite (Hdone eq_refl) in *. rewrite <- Hw in Hcol'. unfold mret. do 2 f_equal. apply sort_bars_ascending.
    + destruct Hcol' as [-> _]. by rewrite map_rev, <- Permutation_rev.
    + apply ascending; [intros r Hr; by apply wanted_row | apply rows_before_sorted, Hex].
Qed.
End Paging.

(** C11. The ingestion service over the Bybit adapter collects the range: when the exchange answers each query with its latest rows of the
    range, up to the limit and newest first, and the page limit times the number of pages exceeds the rows of the range, [fetchAllBars]
    returns exactly the bars of those rows, once each and ascending. *)
Theorem bybit_collects_the_range `{D : DecimalLib} {W : Type} `{L : HttpLib} `{C : !HttpClient W} (now : M W Time) (ctxErr : M W (option error))
    (adapter : HttpAdapter) config registry request symbol duration start rows bar_of providerTime receivedAt w :
  exchange_answers now ctxErr adapter request symbol duration start rows bar_of providerTime receivedAt ->
  fbr_Cursor request = EmptyString -> ValidateBarsRequest registry request = Ok tt ->
  Bybit.validateSpotReference adapter (fbr_Instrument request) = Ok tt -> fbr_Limit request <= Bybit.maxBarsPerRequest ->
  let inside := rows_before start (Bybit.exclusiveEndMilliseconds (fbr_EndTime request)) rows in
  llen inside < conf_MaximumPages config * fbr_Limit request ->
  fetchAllBars config registry ctxErr (Bybit.market_data_adapter now ctxErr adapter) request w = (Ok (map bar_of (rev inside)), w).
Proof.
  intros Hex Hcursor Hregistry Hreference Hlimit inside Hpages.
  assert (request_Validate request = Ok tt) as Hrequest.
  { revert Hregistry. unfold ValidateBarsRequest. destruct (request_Validate request) as [[]|e|]; [reflexivity | discriminate..]. }
  destruct (request_limit _ Hrequest) as [Hlim _].
  assert (with_cursor request EmptyString = request) as Heq by (destruct request; cbn in Hcursor; by subst).
  pose proof (fetch_rows now ctxErr adapter _ _ _ _ _ _ _ _ Hex Hlimit Hrequest Hreference registry Hregistry
    (Z.to_nat (conf_MaximumPages config)) EmptyString [] inside ∅ [] w) as H.
  rewrite Heq in H. apply H; [reflexivity | by left | | unfold llen in Hpages; nia].
  split; [reflexivity |]. intros t. split; [intros Ht; by apply not_elem_of_empty in Ht | intros []].
Qed.
