(* ===== verification/AdapterFixtures.v ===== *)
(** * Concrete providers of the adapter witnesses

    An exchange that answers kline queries from three rows, a price service,
    a session calendar's candlesticks, and the witnesses of the theorems about
    the adapters. Nothing here models code. *)
From S2P Require Import Prelude Errors GoStrings GoTime GoJson External Domain MarketData Calendar CatchUp Ports Registry Ingestion Service Fixtures IngestionFacts ServiceFacts GoText GoJsonTree DomainJson ProviderClient AdapterFacts AdapterErrors BybitPaging.
From S2P Require Bybit CoinGecko Longbridge.
Open Scope go_scope.

(** Whole numbers as decimals that are read from their texts. *)
#[local] Instance whole_decimal : DecimalLib := {|
  Decimal := Z;
  dec_IsNegative d := d <? 0; dec_IsPositive d := 0 <? d;
  dec_GreaterThan d e := e <? d; dec_LessThan d e := d <? e;
  dec_String := digit; dec_NewFromString := ParseInt64 |}.
#[local] Instance no_dates : HttpLib := {|
  url_Parse text := if text =s Bybit.DefaultBaseURL then Some (mkURL "https" "api.bybit.com" false EmptyString EmptyString EmptyString) else None;
  http_ParseTime _ := None |}.
Definition collected_at : Time := morning + 5 * Hour.
Definition clock : M unit Time := mret collected_at.
Definition not_canceled : M unit (option error) := mret None.
Definition http_adapter (code : string) : HttpAdapter := mkHttpAdapter code (mkURL "https" "api.test" false EmptyString EmptyString EmptyString) "test" 4096.

(** ** The exchange *)
Definition opens (hours : Z) : Z := UnixMilli (morning + hours * Hour).
Definition kline (ms : Z) : Z * string := (ms, dq ("['" ++ Itoa ms ++ "','5','7','4','6','3','9']")%string).
Definition klines : list (Z * string) := map kline [opens 2; opens 1; opens 0].
Definition query_number (values : gmap string (list string)) (key : string) : Z := default 0 (ParseInt64 (List.hd EmptyString (default [] (values !! key)))).
Definition kline_body (rows : list (Z * string)) : string :=
  (dq "{'retCode':0,'retMsg':'OK','result':{'category':'spot','symbol':'BTCUSDT','list':[" ++ String.concat "," (map snd rows)
   ++ dq "]},'retExtInfo':{},'time':" ++ Itoa (opens 4) ++ "}")%string.
#[local] Instance exchange_client : HttpClient unit := {|
  http_NewRequest _ := None;
  http_Do url _ := match ParseQuery (url_RawQuery url) with
    | Some values =>
        mret (mkResponse 200 ∅ (kline_body (latest_rows (query_number values "limit") (query_number values "start") (query_number values "end" + 1) klines)) None)
    | None => mret (mkResponse 400 ∅ EmptyString None)
    end |}.
Definition bybit : HttpAdapter := http_adapter "bybit".
Definition three_hours : FetchBarsRequest := mkFetchBarsRequest btc_reference BarInterval1Hour morning (morning + 3 * Hour) 2 EmptyString.
Definition bybit_registry : Registry unit :=
  match fst (NewRegistry [Some (Bybit.market_data_adapter clock not_canceled bybit)] tt) with Ok r => r | _ => mkRegistry ∅ [] end.
Definition bar_of_row (r : Z * string) : ProviderBar :=
  match Bybit.mapKline btc_reference BarInterval1Hour Hour (FromUnixMilli (opens 4)) collected_at (snd r) with
  | Ok (b, _) => b
  | _ => mkProviderBar 0 0 0 EmptyString EmptyString 0 0 0 0 0 0 None None None false None 0 EmptyString
  end.
Lemma exchange_ok : exchange_answers clock not_canceled bybit three_hours "60" Hour (opens 0) klines bar_of_row (opens 4) collected_at.
Proof.
  split; [reflexivity | split; reflexivity | | split; [reflexivity | discriminate] | | reflexivity | reflexivity |].
  - repeat constructor.
  - intros r [<-|[<-|[<-|[]]]]; reflexivity.
  - intros last header [] Hlast.
    assert (In last [opens 3 - 1; opens 2 - 1; opens 1 - 1; opens 0 - 1]) as Hin.
    { replace last with (last + 1 - 1) by lia. destruct Hlast as [->|[<-|[<-|[<-|[]]]]]; [by left | by right; left | by right; right; left |].
      by right; right; right; left. }
    split; [reflexivity |]. destruct Hin as [<-|[<-|[<-|[<-|[]]]]]; (eexists; split; [reflexivity |]); (split; [reflexivity |]); (split; [reflexivity |]);
      (split; [split; [vm_compute; discriminate | vm_compute; reflexivity] |]); exists "OK"%string, EmptyString; (split; [vm_compute; reflexivity | reflexivity]).
Qed.
Definition two_pages : Config := mkConfig 2 2 defaultRetryBackoffs Hour.
Lemma bybit_collects_the_range_witness :
  fetchAllBars two_pages bybit_registry not_canceled (Bybit.market_data_adapter clock not_canceled bybit) three_hours tt
  = (Ok (map bar_of_row (rev klines)), tt).
Proof.
  apply (bybit_collects_the_range clock not_canceled bybit two_pages bybit_registry three_hours "60" Hour (opens 0) klines bar_of_row (opens 4)
           collected_at tt exchange_ok); [reflexivity.. | vm_compute; discriminate | vm_compute; reflexivity].
Defined.

(** ** A throttled answer *)
Definition too_many (retryAfter : string) : Response := mkResponse 429 (<["Retry-After" := [retryAfter]]> ∅)%string EmptyString None.
Definition rate_limited_error (retryAfter : string) : error :=
  match fst (Bybit.classifyHTTPError clock bybit (too_many retryAfter) EmptyString tt) with Ok e => e | _ => Plain EmptyString end.
Example thirty_seconds : AsProviderError (rate_limited_error "30")
  = Some (mkProviderError "bybit" ProviderErrorRateLimited "provider rate limit reached" (Some (30 * Second))).
Proof. vm_compute. reflexivity. Qed.
Example too_many_seconds : AsProviderError (rate_limited_error "9223372037") = None.
Proof. vm_compute. reflexivity. Qed.
Lemma throttled_requests_witness :
  fail_Status (failureCommit service_config claim (Wrap "fetch ingestion bars" (rate_limited_error "30")) collected_at) = taskStatusRetryWait
  /\ fail_Status (failureCommit service_config claim (Wrap "fetch ingestion bars" (rate_limited_error "9223372037")) collected_at) = taskStatusFailed.
Proof.
  split.
  - destruct (throttled_requests clock bybit (http_adapter "coingecko") (too_many "30") EmptyString tt collected_at tt) as [(e & He & H) _];
      [discriminate | discriminate | reflexivity | reflexivity |].
    replace (rate_limited_error "30") with e by (unfold rate_limited_error; by rewrite He).
    destruct H as (_ & H & _). destruct H as [_ H]; [vm_compute; reflexivity |]. apply H. vm_compute. reflexivity.
  - destruct (throttled_requests clock bybit (http_adapter "coingecko") (too_many "9223372037") EmptyString tt collected_at tt) as [(e & He & H) _];
      [discriminate | discriminate | reflexivity | reflexivity |].
    replace (rate_limited_error "9223372037") with e by (unfold rate_limited_error; by rewrite He).
    destruct H as (_ & _ & H). destruct H as [_ H]; [vm_compute; discriminate |]. apply H.
Defined.

(** ** The price service: two points on one day, one on the next *)
Definition coingecko : HttpAdapter := http_adapter "coingecko".
Definition midnight : Time := Date_UTC 2026 7 27 0 0.
Definition point (t : Time) (price : string) : string := ("[" ++ Itoa (UnixMilli t) ++ "," ++ price ++ "]")%string.
Definition prices_body : string :=
  (dq "{'prices':[" ++ String.concat "," [point (midnight + Hour) "3"; point (midnight + 20 * Hour) "4"; point (midnight + 30 * Hour) "5"] ++ "]}")%string.
Definition prices_client : HttpClient unit := {| http_NewRequest _ := None; http_Do _ _ := mret (mkResponse 200 ∅ prices_body None) |}.
Definition usdt_reference : ProviderInstrumentRef := {|
  ref_ProviderInstrumentID := uuid7 4; ref_ProviderInstrumentCode := "provider.coingecko.usdt-usd"; ref_InstrumentID := uuid7 2;
  ref_AssetID := uuid7 1; ref_ProviderCode := "coingecko"; ref_ProviderMarket := "fx"; ref_AssetType := AssetTypeFX;
  ref_InstrumentType := InstrumentTypeFX; ref_ExternalSymbol := "tether"; ref_InstrumentCode := "instrument.fx.usdt-usd";
  ref_InstrumentSymbol := "USDTUSD"; ref_QuoteCurrency := "USD"; ref_Metadata := "{}" |}.
Definition two_days : FetchBarsRequest := mkFetchBarsRequest usdt_reference BarInterval1Day midnight (midnight + 2 * Day24) 1 EmptyString.
Definition first_day : FetchBarsResult :=
  match fst (CoinGecko.FetchBars (C := prices_client) clock not_canceled coingecko two_days tt) with Ok page => page | _ => mkFetchBarsResult [] EmptyString false end.
Lemma first_day_fetched : CoinGecko.FetchBars (C := prices_client) clock not_canceled coingecko two_days tt = (Ok first_day, tt).
Proof. reflexivity. Qed.
Lemma coingecko_daily_bars_witness :
  map pb_OpenTime (fbs_Bars first_day) = [midnight] /\ map pb_Close (fbs_Bars first_day) = [4] /\ fbs_HasMore first_day = true
  /\ page_Validate first_day two_days = Ok tt
  /\ exists d, CoinGecko.effective_start coingecko (with_cursor two_days (fbs_NextCursor first_day)) = Ok (CoinGecko.midnightUTC d).
Proof.
  split; [reflexivity |]. split; [reflexivity |]. split; [reflexivity |].
  destruct (coingecko_daily_bars clock not_canceled coingecko two_days tt first_day tt first_day_fetched)
    as (? & ? & ? & ? & ? & ? & _ & _ & _ & Hv & _ & _ & _ & _ & _ & Hc).
  split; [exact Hv |]. eexists. apply Hc. reflexivity.
Defined.

(** ** The candlesticks of a session *)
Definition session_open : Time := Date_UTC 2026 7 27 13 30.
Definition stick (t : Time) : option Longbridge.Candlestick :=
  Some (Longbridge.mkCandlestick (Some 5) (Some 7) (Some 4) (Some 6) 3 None (Unix t)).
Definition sticks_client : Longbridge.Client unit :=
  {| Longbridge.client_Quote _ := mret []; Longbridge.client_HistoryCandlesticksByOffset _ _ _ _ := mret [stick (session_open + Hour); stick session_open];
     Longbridge.client_Close := mret tt |}.
Definition no_sdk_errors : Longbridge.SdkErrors := {| Longbridge.as_LBError _ := None; Longbridge.as_netError _ := false |}.
Definition longbridge : Longbridge.Adapter :=
  match Longbridge.New None None with
  | Ok a => a
  | _ => Longbridge.mkAdapter EmptyString Concrete.new_york (mkTradingCalendar None (fun _ => Diverge) (fun _ => Diverge) (fun _ => Diverge) (fun _ => Diverge))
  end.
Definition apple_reference : ProviderInstrumentRef := {|
  ref_ProviderInstrumentID := uuid7 4; ref_ProviderInstrumentCode := "provider.longbridge.aapl"; ref_InstrumentID := uuid7 2;
  ref_AssetID := uuid7 1; ref_ProviderCode := "longbridge"; ref_ProviderMarket := "us"; ref_AssetType := AssetTypeStock;
  ref_InstrumentType := InstrumentTypeEquity; ref_ExternalSymbol := "AAPL.US"; ref_InstrumentCode := "instrument.us.aapl";
  ref_InstrumentSymbol := "AAPL"; ref_QuoteCurrency := "USD"; ref_Metadata := "{}" |}.
Definition session_hours : FetchBarsRequest := mkFetchBarsRequest apple_reference BarInterval1Hour session_open (session_open + 2 * Hour) 10 EmptyString.
Definition fetch_session : result FetchBarsResult :=
  fst (Longbridge.FetchBars (C := sticks_client) (E := no_sdk_errors) clock not_canceled longbridge session_hours tt).
Definition session_page : FetchBarsResult := match fetch_session with Ok page => page | _ => mkFetchBarsResult [] EmptyString false end.
Lemma session_page_opens : map pb_OpenTime (fbs_Bars session_page) = [session_open; session_open + Hour].
Proof. vm_compute. reflexivity. Qed.
Lemma session_page_fetched :
  Longbridge.FetchBars (C := sticks_client) (E := no_sdk_errors) clock not_canceled longbridge session_hours tt = (Ok session_page, tt).
Proof. reflexivity. Qed.
Lemma longbridge_session_bars_witness :
  map pb_OpenTime (fbs_Bars session_page) = [session_open; session_open + Hour] /\ page_Validate session_page session_hours = Ok tt
  /\ exists receivedAt, Forall (session_bar longbridge BarInterval1Hour receivedAt) (fbs_Bars session_page).
Proof.
  split; [exact session_page_opens |].
  exact (longbridge_session_bars (C := sticks_client) (E := no_sdk_errors) clock not_canceled longbridge session_hours tt session_page tt session_page_fetched).
Defined.

(** ** A provider that is not available *)
Definition busy_client : HttpClient unit := {| http_NewRequest _ := None; http_Do _ _ := mret (mkResponse 503 ∅ EmptyString None) |}.
Definition busy_error : error :=
  match fst (Bybit.FetchBars (C := busy_client) clock not_canceled bybit three_hours tt) with Err e => e | _ => Plain EmptyString end.
Lemma busy_answer : Bybit.FetchBars (C := busy_client) clock not_canceled bybit three_hours tt = (Err busy_error, tt).
Proof. reflexivity. Qed.
Lemma provider_errors_witness :
  adapter_error not_canceled "bybit" "bybit" busy_error
  /\ option_map pe_Code (AsProviderError busy_error) = Some ProviderErrorTemporaryUnavailable.
Proof.
  split; [| reflexivity].
  destruct (provider_errors (C := busy_client) (K := sticks_client) (E := no_sdk_errors) clock not_canceled
              (fun w e w' H => eq_ind (Ok collected_at, w) (fun r => match fst r with Err _ => False | _ => True end) I _ H)
              (fun w e w' H => eq_ind (Ok None, w) (fun r => match fst r with Err _ => False | _ => True end) I _ H)
              bybit coingecko longbridge) with (references := @nil ProviderInstrumentRef) (request := three_hours) as (_ & H & _);
    [discriminate | discriminate | discriminate |].
  exact (H tt busy_error tt busy_answer).
Defined.
