(* ===== verification/GoFloat.v ===== *)
(** * float64, package time's durations and package net's addresses

    IEEE 754 binary64 numbers and their conversions, [time.ParseDuration],
    [Duration.Seconds], [strconv.FormatFloat(x, 'g', -1, 64)] and
    [net.SplitHostPort]. *)
From Stdlib Require Import SpecFloat.
From S2P Require Import Prelude Errors GoStrings GoTime GoJson GoText.
Open Scope go_scope.

(** ** float64 *)
Abbreviation float64 := spec_float.
Definition f64_prec : Z := 53.
Definition f64_emax : Z := 1024.
Definition f64_of_Z (z : Z) : float64 := binary_normalize f64_prec f64_emax z 0 false.
Definition f64_add : float64 -> float64 -> float64 := SFadd f64_prec f64_emax.
Definition f64_mul : float64 -> float64 -> float64 := SFmul f64_prec f64_emax.
Definition f64_div : float64 -> float64 -> float64 := SFdiv f64_prec f64_emax.
Definition f64_leb : float64 -> float64 -> bool := SFleb.
Definition f64_ltb : float64 -> float64 -> bool := SFltb.
(** The conversion of a finite number to an integer, toward zero. *)
Definition f64_trunc (x : float64) : Z :=
  match x with
  | S754_finite s m e => let a := if 0 <=? e then Zpos m * 2 ^ e else Zpos m / 2 ^ (- e) in if s then - a else a
  | _ => 0
  end.
(** The number nearest to [n * 10 ^ e]. *)
Definition f64_decimal (n e : Z) : float64 :=
  if 0 <=? e then f64_of_Z (n * 10 ^ e)
  else match n with
    | Zpos p => let '(m, e', l) := SFdiv_core_binary f64_prec f64_emax (Zpos p) 0 (10 ^ (- e)) 0 in
                binary_round_aux f64_prec f64_emax false m e' l
    | Zneg p => let '(m, e', l) := SFdiv_core_binary f64_prec f64_emax (Zpos p) 0 (10 ^ (- e)) 0 in
                binary_round_aux f64_prec f64_emax true m e' l
    | Z0 => S754_zero false
    end.

(** [Duration.Seconds] *)
Definition Seconds (d : Duration) : float64 :=
  f64_add (f64_of_Z (Z.quot d Second)) (f64_div (f64_of_Z (Z.rem d Second)) (f64_of_Z 1000000000)).

Definition from_index (n : nat) (s : string) : string := String.substring n (String.length s - n) s.

(** ** [strconv.FormatFloat(x, 'g', -1, 64)] *)
(** A positive number as a quotient, and the number of its digits before the
    decimal point. *)
Definition f64_quotient (m : positive) (e : Z) : Z * Z := if 0 <=? e then (Zpos m * 2 ^ e, 1) else (Zpos m, 2 ^ (- e)).
Definition times_pow10 (num den k : Z) : Z * Z := if 0 <=? k then (num * 10 ^ k, den) else (num, den * 10 ^ (- k)).
(** Whether [10 ^ p] is above the quotient. *)
Definition below_pow10 (num den p : Z) : bool := let '(n, d) := times_pow10 num den (- p) in n <? d.
Fixpoint raise_point (fuel : nat) (num den p : Z) : Z :=
  match fuel with O => p | S fuel => if below_pow10 num den p then p else raise_point fuel num den (p + 1) end.
Definition decimal_point (num den : Z) : Z := raise_point 4 num den ((Z.log2 num - Z.log2 den - 1) * 30103 / 100000 - 1).
(** The [n] digits nearest to the number that are read back as it, of the two
    on its sides. *)
Definition digits_of (x : float64) (num den p n : Z) : option Z :=
  let '(a, b) := times_pow10 num den (n - p) in
  let low := a / b in
  let r := 2 * (a - low * b) in
  let near := if (b <? r) || ((r =? b) && Z.odd low) then low + 1 else low in
  let reads d := SFeqb (f64_decimal d (p - n)) x in
  if reads near then Some near else if reads (2 * low + 1 - near) then Some (2 * low + 1 - near) else None.
Fixpoint shortest (fuel : nat) (x : float64) (num den p n : Z) : Z * Z :=
  match fuel with
  | O => (0, p)
  | S fuel => match digits_of x num den p n with Some d => (d, p - n) | None => shortest fuel x num den p (n + 1) end
  end.
Fixpoint trim_zeros (fuel : nat) (d e : Z) : Z * Z :=
  match fuel with O => (d, e) | S fuel => if (d mod 10 =? 0) && negb (d =? 0) then trim_zeros fuel (d / 10) (e + 1) else (d, e) end.
(** The shortest decimal: its digits, and how many stand before the point.
    Seventeen digits identify a number. *)
Definition shortest_decimal (m : positive) (e : Z) : string * Z :=
  let '(num, den) := f64_quotient m e in
  let '(d, k) := shortest 17 (S754_finite false m e) num den (decimal_point num den) 1 in
  let '(d, k) := trim_zeros 18 d k in
  (Itoa d, slen (Itoa d) + k).
Fixpoint zeros (n : nat) : string := match n with O => EmptyString | S n => String (chr 48) (zeros n) end.
Definition format_exponent (e : Z) : string := ((if (e <? 0)%Z then "e-" else "e+") ++ (if (Z.abs e <? 10)%Z then "0" else EmptyString) ++ Itoa (Z.abs e))%string.
Definition format_digits (digits : string) (dp : Z) : string :=
  let nd := slen digits in
  if (dp - 1 <? -4) || (6 <=? dp - 1) then
    (String.substring 0 1 digits ++ (if (1 <? nd)%Z then "." ++ from_index 1 digits else EmptyString) ++ format_exponent (dp - 1)%Z)%string
  else
    ((if (0 <? dp)%Z then String.substring 0 (Z.to_nat (Z.min nd dp)) digits ++ zeros (Z.to_nat (dp - nd)) else "0")
     ++ (if (dp <? nd)%Z then "." ++ zeros (Z.to_nat (- dp)) ++ from_index (Z.to_nat (Z.max 0 dp)) digits else EmptyString))%string.
Definition FormatFloat (x : float64) : string :=
  match x with
  | S754_nan => "NaN"
  | S754_infinity s => if s then "-Inf" else "+Inf"
  | S754_zero s => if s then "-0" else "0"
  | S754_finite s m e => let '(digits, dp) := shortest_decimal m e in ((if s then "-" else EmptyString) ++ format_digits digits dp)%string
  end.

(** ** [time.ParseDuration] *)
Definition pow63 : Z := 2 ^ 63.
(** [leadingInt]: [None] is an overflow. *)
Fixpoint leadingInt (x : Z) (s : string) : option (Z * string) :=
  match s with
  | String c s' =>
      if is_digit c then
        if pow63 / 10 <? x then None
        else let x := x * 10 + digit_value c in if pow63 <? x then None else leadingInt x s'
      else Some (x, s)
  | EmptyString => Some (x, s)
  end.
(** [leadingFraction]: the digits up to an overflow, the power of ten they are
    divided by, and the rest. *)
Fixpoint leadingFraction (x scale : Z) (overflow : bool) (s : string) : Z * Z * string :=
  match s with
  | String c s' =>
      if is_digit c then
        if overflow || ((pow63 - 1) / 10 <? x) || (pow63 <? x * 10 + digit_value c) then leadingFraction x scale true s'
        else leadingFraction (x * 10 + digit_value c) (scale * 10) false s'
      else (x, scale, s)
  | EmptyString => (x, scale, s)
  end.
Fixpoint span_unit (s : string) : string * string :=
  match s with
  | String c s' => if is_byte 46 c || is_digit c then (EmptyString, s) else let '(u, rest) := span_unit s' in (String c u, rest)
  | EmptyString => (EmptyString, EmptyString)
  end.
(** [unitMap]: microseconds may be written with U+00B5 or U+03BC. *)
Definition micro (b1 b2 : Z) : string := String (chr b1) (String (chr b2) "s").
Definition unitMap (u : string) : option Z :=
  if u =s "ns" then Some 1
  else if (u =s "us") || (u =s micro 194 181) || (u =s micro 206 188) then Some 1000
  else if u =s "ms" then Some 1000000
  else if u =s "s" then Some Second
  else if u =s "m" then Some Minute
  else if u =s "h" then Some Hour
  else None.
(** One number with its unit, in nanoseconds, and what follows it. *)
Definition parse_term (s : string) : option (Z * string) :=
  match leadingInt 0 s with
  | None => None
  | Some (v, s1) =>
      let pre := negb (slen s1 =? slen s) in
      let '(f, scale, s2, post) := match s1 with
        | String c s' => if is_byte 46 c then let '(f, scale, s2) := leadingFraction 0 1 false s' in (f, scale, s2, negb (slen s2 =? slen s'))
                         else (0, 1, s1, false)
        | EmptyString => (0, 1, s1, false) end in
      if negb pre && negb post then None
      else
        let '(u, rest) := span_unit s2 in
        match unitMap u with
        | None => None
        | Some unit =>
            if pow63 / unit <? v then None
            else
              let v := v * unit in
              let v := if 0 <? f then v + f64_trunc (f64_mul (f64_of_Z f) (f64_div (f64_of_Z unit) (f64_of_Z scale))) else v in
              if pow63 <? v then None else Some (v, rest)
        end
  end.
Fixpoint parse_terms (fuel : nat) (d : Z) (s : string) : option Z :=
  match fuel with
  | O => None
  | S fuel =>
      match s with
      | EmptyString => Some d
      | _ => match parse_term s with
             | Some (v, rest) => if pow63 <? d + v then None else parse_terms fuel (d + v) rest
             | None => None
             end
      end
  end.
(** Every term takes a character, so the length is fuel enough. *)
Definition ParseDuration (s : string) : option Duration :=
  let '(neg, s) := match s with
    | String c s' => if is_byte 45 c then (true, s') else if is_byte 43 c then (false, s') else (false, s)
    | EmptyString => (false, s) end in
  if s =s "0" then Some 0
  else if s =s EmptyString then None
  else match parse_terms (S (String.length s)) 0 s with
    | None => None
    | Some d => if neg then Some (- d) else if pow63 - 1 <? d then None else Some d
    end.

(** ** [net.SplitHostPort]: the host and the port *)
Fixpoint index_byte (b : Z) (s : string) : option nat :=
  match s with
  | EmptyString => None
  | String c s' => if is_byte b c then Some O else S <$> index_byte b s'
  end.
Fixpoint last_index_byte (b : Z) (s : string) : option nat :=
  match s with
  | EmptyString => None
  | String c s' => match last_index_byte b s' with Some i => Some (S i) | None => if is_byte b c then Some O else None end
  end.
Definition SplitHostPort (hostport : string) : option (string * string) :=
  match last_index_byte 58 hostport with
  | None => None
  | Some i =>
      let port := from_index (S i) hostport in
      match hostport with
      | String c _ =>
          if is_byte 91 c then
            match index_byte 93 hostport with
            | Some e =>
                if Nat.eqb (S e) i then
                  if has_byte 91 (from_index 1 hostport) || has_byte 93 (from_index (S e) hostport) then None
                  else Some (String.substring 1 (e - 1) hostport, port)
                else None
            | None => None
            end
          else
            let host := String.substring 0 i hostport in
            if has_byte 58 host || has_byte 91 hostport || has_byte 93 hostport then None else Some (host, port)
      | EmptyString => None
      end
  end.
