(* ===== verification/Config.v ===== *)
(** * internal/config: the configuration of the process

    The environment is a function to optional values; a setting that is absent
    or empty keeps its default. *)
From S2P Require Import Prelude Errors GoStrings GoTime GoJson GoText GoFloat.
Open Scope go_scope.

Definition defaultHTTPAddress : string := ":8080".
Definition defaultReadTimeout : Duration := 5 * Second.
Definition defaultWriteTimeout : Duration := 10 * Second.
Definition defaultIdleTimeout : Duration := 60 * Second.
Definition defaultShutdownTimeout : Duration := 10 * Second.
Definition defaultReadinessTimeout : Duration := 2 * Second.
Definition defaultDBMaxConns : Z := 8.
Definition defaultDBMinConns : Z := 1.
Definition defaultDBMaxConnLife : Duration := 30 * Minute.
Definition defaultDBHealthPeriod : Duration := 30 * Second.
Definition defaultAdminSubject : string := "market-info-admin".
Definition defaultWorkerConcurrency : Z := 4.
Definition defaultWorkerLease : Duration := 15 * Minute.
Definition defaultWorkerPoll : Duration := Second.
Definition defaultWorkerBackoff : Duration := 5 * Second.
Definition defaultIngestionPageSize : Z := 500.
Definition defaultIngestionMaxPages : Z := 20.
Definition defaultSchedulerInterval : Duration := Minute.

(** [RuntimeMode] *)
Definition RuntimeModeServe : string := "serve".
Definition RuntimeModeWorker : string := "worker".
Definition RuntimeModeAll : string := "all".

Record Config := mkConfig {
  HTTPAddress : string; ReadTimeout : Duration; WriteTimeout : Duration; IdleTimeout : Duration; ShutdownTimeout : Duration;
  ReadinessTimeout : Duration; DatabaseURL : string; DBMaxConns : Z; DBMinConns : Z; DBMaxConnLife : Duration;
  DBHealthPeriod : Duration; AdminBearerToken : string; AdminSubject : string; EnabledProviders : list string;
  BybitBaseURL : string; CoinGeckoBaseURL : string; WorkerID : string; WorkerConcurrency : Z; WorkerLeaseDuration : Duration;
  WorkerPollInterval : Duration; WorkerClaimErrorBackoff : Duration; IngestionBarsPerPage : Z; IngestionMaximumPages : Z;
  SchedulerInterval : Duration }.
Definition LookupEnv : Type := string -> option string.

(** A pointer to a field of the configuration. *)
Definition set_ReadTimeout (v : Duration) (c : Config) : Config :=
  mkConfig (HTTPAddress c) v (WriteTimeout c) (IdleTimeout c) (ShutdownTimeout c) (ReadinessTimeout c) (DatabaseURL c)
  (DBMaxConns c) (DBMinConns c) (DBMaxConnLife c) (DBHealthPeriod c) (AdminBearerToken c) (AdminSubject c) (EnabledProviders c)
  (BybitBaseURL c) (CoinGeckoBaseURL c) (WorkerID c) (WorkerConcurrency c) (WorkerLeaseDuration c) (WorkerPollInterval c)
  (WorkerClaimErrorBackoff c) (IngestionBarsPerPage c) (IngestionMaximumPages c) (SchedulerInterval c).
Definition set_WriteTimeout (v : Duration) (c : Config) : Config :=
  mkConfig (HTTPAddress c) (ReadTimeout c) v (IdleTimeout c) (ShutdownTimeout c) (ReadinessTimeout c) (DatabaseURL c)
  (DBMaxConns c) (DBMinConns c) (DBMaxConnLife c) (DBHealthPeriod c) (AdminBearerToken c) (AdminSubject c) (EnabledProviders c)
  (BybitBaseURL c) (CoinGeckoBaseURL c) (WorkerID c) (WorkerConcurrency c) (WorkerLeaseDuration c) (WorkerPollInterval c)
  (WorkerClaimErrorBackoff c) (IngestionBarsPerPage c) (IngestionMaximumPages c) (SchedulerInterval c).
Definition set_IdleTimeout (v : Duration) (c : Config) : Config :=
  mkConfig (HTTPAddress c) (ReadTimeout c) (WriteTimeout c) v (ShutdownTimeout c) (ReadinessTimeout c) (DatabaseURL c)
  (DBMaxConns c) (DBMinConns c) (DBMaxConnLife c) (DBHealthPeriod c) (AdminBearerToken c) (AdminSubject c) (EnabledProviders c)
  (BybitBaseURL c) (CoinGeckoBaseURL c) (WorkerID c) (WorkerConcurrency c) (WorkerLeaseDuration c) (WorkerPollInterval c)
  (WorkerClaimErrorBackoff c) (IngestionBarsPerPage c) (IngestionMaximumPages c) (SchedulerInterval c).
Definition set_ShutdownTimeout (v : Duration) (c : Config) : Config :=
  mkConfig (HTTPAddress c) (ReadTimeout c) (WriteTimeout c) (IdleTimeout c) v (ReadinessTimeout c) (DatabaseURL c) (DBMaxConns c)
  (DBMinConns c) (DBMaxConnLife c) (DBHealthPeriod c) (AdminBearerToken c) (AdminSubject c) (EnabledProviders c) (BybitBaseURL c)
  (CoinGeckoBaseURL c) (WorkerID c) (WorkerConcurrency c) (WorkerLeaseDuration c) (WorkerPollInterval c)
  (WorkerClaimErrorBackoff c) (IngestionBarsPerPage c) (IngestionMaximumPages c) (SchedulerInterval c).
Definition set_ReadinessTimeout (v : Duration) (c : Config) : Config :=
  mkConfig (HTTPAddress c) (ReadTimeout c) (WriteTimeout c) (IdleTimeout c) (ShutdownTimeout c) v (DatabaseURL c) (DBMaxConns c)
  (DBMinConns c) (DBMaxConnLife c) (DBHealthPeriod c) (AdminBearerToken c) (AdminSubject c) (EnabledProviders c) (BybitBaseURL c)
  (CoinGeckoBaseURL c) (WorkerID c) (WorkerConcurrency c) (WorkerLeaseDuration c) (WorkerPollInterval c)
  (WorkerClaimErrorBackoff c) (IngestionBarsPerPage c) (IngestionMaximumPages c) (SchedulerInterval c).
Definition set_DBMaxConnLife (v : Duration) (c : Config) : Config :=
  mkConfig (HTTPAddress c) (ReadTimeout c) (WriteTimeout c) (IdleTimeout c) (ShutdownTimeout c) (ReadinessTimeout c)
  (DatabaseURL c) (DBMaxConns c) (DBMinConns c) v (DBHealthPeriod c) (AdminBearerToken c) (AdminSubject c) (EnabledProviders c)
  (BybitBaseURL c) (CoinGeckoBaseURL c) (WorkerID c) (WorkerConcurrency c) (WorkerLeaseDuration c) (WorkerPollInterval c)
  (WorkerClaimErrorBackoff c) (IngestionBarsPerPage c) (IngestionMaximumPages c) (SchedulerInterval c).
Definition set_DBHealthPeriod (v : Duration) (c : Config) : Config :=
  mkConfig (HTTPAddress c) (ReadTimeout c) (WriteTimeout c) (IdleTimeout c) (ShutdownTimeout c) (ReadinessTimeout c)
  (DatabaseURL c) (DBMaxConns c) (DBMinConns c) (DBMaxConnLife c) v (AdminBearerToken c) (AdminSubject c) (EnabledProviders c)
  (BybitBaseURL c) (CoinGeckoBaseURL c) (WorkerID c) (WorkerConcurrency c) (WorkerLeaseDuration c) (WorkerPollInterval c)
  (WorkerClaimErrorBackoff c) (IngestionBarsPerPage c) (IngestionMaximumPages c) (SchedulerInterval c).
Definition set_WorkerLeaseDuration (v : Duration) (c : Config) : Config :=
  mkConfig (HTTPAddress c) (ReadTimeout c) (WriteTimeout c) (IdleTimeout c) (ShutdownTimeout c) (ReadinessTimeout c)
  (DatabaseURL c) (DBMaxConns c) (DBMinConns c) (DBMaxConnLife c) (DBHealthPeriod c) (AdminBearerToken c) (AdminSubject c)
  (EnabledProviders c) (BybitBaseURL c) (CoinGeckoBaseURL c) (WorkerID c) (WorkerConcurrency c) v (WorkerPollInterval c)
  (WorkerClaimErrorBackoff c) (IngestionBarsPerPage c) (IngestionMaximumPages c) (SchedulerInterval c).
Definition set_WorkerPollInterval (v : Duration) (c : Config) : Config :=
  mkConfig (HTTPAddress c) (ReadTimeout c) (WriteTimeout c) (IdleTimeout c) (ShutdownTimeout c) (ReadinessTimeout c)
  (DatabaseURL c) (DBMaxConns c) (DBMinConns c) (DBMaxConnLife c) (DBHealthPeriod c) (AdminBearerToken c) (AdminSubject c)
  (EnabledProviders c) (BybitBaseURL c) (CoinGeckoBaseURL c) (WorkerID c) (WorkerConcurrency c) (WorkerLeaseDuration c) v
  (WorkerClaimErrorBackoff c) (IngestionBarsPerPage c) (IngestionMaximumPages c) (SchedulerInterval c).
Definition set_WorkerClaimErrorBackoff (v : Duration) (c : Config) : Config :=
  mkConfig (HTTPAddress c) (ReadTimeout c) (WriteTimeout c) (IdleTimeout c) (ShutdownTimeout c) (ReadinessTimeout c)
  (DatabaseURL c) (DBMaxConns c) (DBMinConns c) (DBMaxConnLife c) (DBHealthPeriod c) (AdminBearerToken c) (AdminSubject c)
  (EnabledProviders c) (BybitBaseURL c) (CoinGeckoBaseURL c) (WorkerID c) (WorkerConcurrency c) (WorkerLeaseDuration c)
  (WorkerPollInterval c) v (IngestionBarsPerPage c) (IngestionMaximumPages c) (SchedulerInterval c).
Definition set_SchedulerInterval (v : Duration) (c : Config) : Config :=
  mkConfig (HTTPAddress c) (ReadTimeout c) (WriteTimeout c) (IdleTimeout c) (ShutdownTimeout c) (ReadinessTimeout c)
  (DatabaseURL c) (DBMaxConns c) (DBMinConns c) (DBMaxConnLife c) (DBHealthPeriod c) (AdminBearerToken c) (AdminSubject c)
  (EnabledProviders c) (BybitBaseURL c) (CoinGeckoBaseURL c) (WorkerID c) (WorkerConcurrency c) (WorkerLeaseDuration c)
  (WorkerPollInterval c) (WorkerClaimErrorBackoff c) (IngestionBarsPerPage c) (IngestionMaximumPages c) v.
Definition set_DBMaxConns (v : Z) (c : Config) : Config :=
  mkConfig (HTTPAddress c) (ReadTimeout c) (WriteTimeout c) (IdleTimeout c) (ShutdownTimeout c) (ReadinessTimeout c)
  (DatabaseURL c) v (DBMinConns c) (DBMaxConnLife c) (DBHealthPeriod c) (AdminBearerToken c) (AdminSubject c)
  (EnabledProviders c) (BybitBaseURL c) (CoinGeckoBaseURL c) (WorkerID c) (WorkerConcurrency c) (WorkerLeaseDuration c)
  (WorkerPollInterval c) (WorkerClaimErrorBackoff c) (IngestionBarsPerPage c) (IngestionMaximumPages c) (SchedulerInterval c).
Definition set_DBMinConns (v : Z) (c : Config) : Config :=
  mkConfig (HTTPAddress c) (ReadTimeout c) (WriteTimeout c) (IdleTimeout c) (ShutdownTimeout c) (ReadinessTimeout c)
  (DatabaseURL c) (DBMaxConns c) v (DBMaxConnLife c) (DBHealthPeriod c) (AdminBearerToken c) (AdminSubject c)
  (EnabledProviders c) (BybitBaseURL c) (CoinGeckoBaseURL c) (WorkerID c) (WorkerConcurrency c) (WorkerLeaseDuration c)
  (WorkerPollInterval c) (WorkerClaimErrorBackoff c) (IngestionBarsPerPage c) (IngestionMaximumPages c) (SchedulerInterval c).
Definition set_WorkerConcurrency (v : Z) (c : Config) : Config :=
  mkConfig (HTTPAddress c) (ReadTimeout c) (WriteTimeout c) (IdleTimeout c) (ShutdownTimeout c) (ReadinessTimeout c)
  (DatabaseURL c) (DBMaxConns c) (DBMinConns c) (DBMaxConnLife c) (DBHealthPeriod c) (AdminBearerToken c) (AdminSubject c)
  (EnabledProviders c) (BybitBaseURL c) (CoinGeckoBaseURL c) (WorkerID c) v (WorkerLeaseDuration c) (WorkerPollInterval c)
  (WorkerClaimErrorBackoff c) (IngestionBarsPerPage c) (IngestionMaximumPages c) (SchedulerInterval c).
Definition set_IngestionBarsPerPage (v : Z) (c : Config) : Config :=
  mkConfig (HTTPAddress c) (ReadTimeout c) (WriteTimeout c) (IdleTimeout c) (ShutdownTimeout c) (ReadinessTimeout c)
  (DatabaseURL c) (DBMaxConns c) (DBMinConns c) (DBMaxConnLife c) (DBHealthPeriod c) (AdminBearerToken c) (AdminSubject c)
  (EnabledProviders c) (BybitBaseURL c) (CoinGeckoBaseURL c) (WorkerID c) (WorkerConcurrency c) (WorkerLeaseDuration c)
  (WorkerPollInterval c) (WorkerClaimErrorBackoff c) v (IngestionMaximumPages c) (SchedulerInterval c).
Definition set_IngestionMaximumPages (v : Z) (c : Config) : Config :=
  mkConfig (HTTPAddress c) (ReadTimeout c) (WriteTimeout c) (IdleTimeout c) (ShutdownTimeout c) (ReadinessTimeout c)
  (DatabaseURL c) (DBMaxConns c) (DBMinConns c) (DBMaxConnLife c) (DBHealthPeriod c) (AdminBearerToken c) (AdminSubject c)
  (EnabledProviders c) (BybitBaseURL c) (CoinGeckoBaseURL c) (WorkerID c) (WorkerConcurrency c) (WorkerLeaseDuration c)
  (WorkerPollInterval c) (WorkerClaimErrorBackoff c) (IngestionBarsPerPage c) v (SchedulerInterval c).
Definition set_EnabledProviders (v : list string) (c : Config) : Config :=
  mkConfig (HTTPAddress c) (ReadTimeout c) (WriteTimeout c) (IdleTimeout c) (ShutdownTimeout c) (ReadinessTimeout c)
  (DatabaseURL c) (DBMaxConns c) (DBMinConns c) (DBMaxConnLife c) (DBHealthPeriod c) (AdminBearerToken c) (AdminSubject c) v
  (BybitBaseURL c) (CoinGeckoBaseURL c) (WorkerID c) (WorkerConcurrency c) (WorkerLeaseDuration c) (WorkerPollInterval c)
  (WorkerClaimErrorBackoff c) (IngestionBarsPerPage c) (IngestionMaximumPages c) (SchedulerInterval c).

(** ** Loading *)
Definition valueOrDefault (lookup : LookupEnv) (name fallback : string) : string :=
  match lookup name with Some value => if value =s EmptyString then fallback else value | None => fallback end.

Fixpoint sort_strings (l : list string) : list string :=
  match l with
  | [] => []
  | s :: rest => (fix insert (l : list string) := match l with [] => [s] | t :: l' => if String.ltb t s then t :: insert l' else s :: l end) (sort_strings rest)
  end.
Definition known_provider (provider : string) : bool := contains_string ["bybit"; "longbridge"; "coingecko"]%string provider.
Fixpoint enabled_providers (seen : list string) (parts : list string) : result (list string) :=
  match parts with
  | [] => Ok []
  | part :: rest =>
      let provider := TrimSpace part in
      failif (provider <>s part) || negb (known_provider provider),
             Plain "MARKET_INFO_ENABLED_PROVIDERS accepts only comma-separated bybit, longbridge and coingecko" ;;
      failif contains_string seen provider, Plain "MARKET_INFO_ENABLED_PROVIDERS must not contain duplicates" ;;
      providers <- enabled_providers (provider :: seen) rest ;;
      Ok (provider :: providers)
  end.
Definition parseEnabledProviders (value : string) : result (list string) :=
  providers <- enabled_providers [] (Split 44 value) ;; Ok (sort_strings providers).

Definition validCredentialText (value : string) (maximum : Z) : bool :=
  negb ((value =s EmptyString) || (maximum <? slen value)) && forallb (fun c => negb ((c <? 33) || (126 <? c))) (runes value).

Definition default_config (lookup : LookupEnv) : Config := {|
  HTTPAddress := valueOrDefault lookup "MARKET_INFO_HTTP_ADDRESS" defaultHTTPAddress;
  ReadTimeout := defaultReadTimeout; WriteTimeout := defaultWriteTimeout; IdleTimeout := defaultIdleTimeout;
  ShutdownTimeout := defaultShutdownTimeout; ReadinessTimeout := defaultReadinessTimeout;
  DatabaseURL := valueOrDefault lookup "MARKET_INFO_DATABASE_URL" EmptyString;
  DBMaxConns := defaultDBMaxConns; DBMinConns := defaultDBMinConns;
  DBMaxConnLife := defaultDBMaxConnLife; DBHealthPeriod := defaultDBHealthPeriod;
  AdminBearerToken := valueOrDefault lookup "MARKET_INFO_ADMIN_BEARER_TOKEN" EmptyString;
  AdminSubject := valueOrDefault lookup "MARKET_INFO_ADMIN_SUBJECT" defaultAdminSubject;
  EnabledProviders := [];
  BybitBaseURL := valueOrDefault lookup "BYBIT_BASE_URL" EmptyString;
  CoinGeckoBaseURL := valueOrDefault lookup "COINGECKO_BASE_URL" EmptyString;
  WorkerID := valueOrDefault lookup "MARKET_INFO_WORKER_ID" EmptyString;
  WorkerConcurrency := defaultWorkerConcurrency; WorkerLeaseDuration := defaultWorkerLease;
  WorkerPollInterval := defaultWorkerPoll; WorkerClaimErrorBackoff := defaultWorkerBackoff;
  IngestionBarsPerPage := defaultIngestionPageSize; IngestionMaximumPages := defaultIngestionMaxPages;
  SchedulerInterval := defaultSchedulerInterval |}.

(** A setting that is given is parsed and written to its field. *)
Definition load_setting {A} (lookup : LookupEnv) (parse : string -> option A) (item : string * (A -> Config -> Config)) (c : Config) : result Config :=
  match lookup (fst item) with
  | Some value =>
      if value =s EmptyString then Ok c
      else match parse value with Some v => Ok (snd item v c) | None => Err (Wrap ("parse " ++ fst item) (Plain "invalid value")) end
  | None => Ok c
  end.
Fixpoint load_settings {A} (lookup : LookupEnv) (parse : string -> option A) (items : list (string * (A -> Config -> Config))) (c : Config) : result Config :=
  match items with
  | [] => Ok c
  | item :: rest => c <- load_setting lookup parse item c ;; load_settings lookup parse rest c
  end.
Definition durations : list (string * (Duration -> Config -> Config)) :=
  [("MARKET_INFO_HTTP_READ_TIMEOUT", set_ReadTimeout); ("MARKET_INFO_HTTP_WRITE_TIMEOUT", set_WriteTimeout);
   ("MARKET_INFO_HTTP_IDLE_TIMEOUT", set_IdleTimeout); ("MARKET_INFO_SHUTDOWN_TIMEOUT", set_ShutdownTimeout);
   ("MARKET_INFO_READINESS_TIMEOUT", set_ReadinessTimeout); ("MARKET_INFO_DB_MAX_CONN_LIFETIME", set_DBMaxConnLife);
   ("MARKET_INFO_DB_HEALTH_CHECK_PERIOD", set_DBHealthPeriod); ("MARKET_INFO_WORKER_LEASE_DURATION", set_WorkerLeaseDuration);
   ("MARKET_INFO_WORKER_POLL_INTERVAL", set_WorkerPollInterval); ("MARKET_INFO_WORKER_CLAIM_ERROR_BACKOFF", set_WorkerClaimErrorBackoff);
   ("MARKET_INFO_SCHEDULER_INTERVAL", set_SchedulerInterval)]%string.
Definition connections : list (string * (Z -> Config -> Config)) :=
  [("MARKET_INFO_DB_MAX_CONNS", set_DBMaxConns); ("MARKET_INFO_DB_MIN_CONNS", set_DBMinConns)]%string.
Definition integers : list (string * (Z -> Config -> Config)) :=
  [("MARKET_INFO_WORKER_CONCURRENCY", set_WorkerConcurrency); ("MARKET_INFO_INGESTION_BARS_PER_PAGE", set_IngestionBarsPerPage);
   ("MARKET_INFO_INGESTION_MAXIMUM_PAGES", set_IngestionMaximumPages)]%string.
(** [strconv.ParseInt(value, 10, 32)] *)
Definition ParseInt32 (s : string) : option Z :=
  match ParseInt64 s with Some v => if (v <? - 2 ^ 31) || (int32_max <? v) then None else Some v | None => None end.

(** ** Validation *)
Definition http_port_valid (address : string) : result unit :=
  match SplitHostPort address with
  | None => Err (Plain "MARKET_INFO_HTTP_ADDRESS must be a valid host:port")
  | Some (_, port) =>
      failif port =s EmptyString, Plain "MARKET_INFO_HTTP_ADDRESS must be a valid host:port" ;;
      match ParseInt64 port with
      | Some number => failif (number <? 1) || (65535 <? number), Plain "MARKET_INFO_HTTP_ADDRESS contains an invalid port" ;; Ok tt
      | None => Err (Plain "MARKET_INFO_HTTP_ADDRESS contains an invalid port")
      end
  end.
Fixpoint positive_durations (items : list (string * Duration)) : result unit :=
  match items with
  | [] => Ok tt
  | (name, value) :: rest => failif value <=? 0, Plain (name ++ " must be positive") ;; positive_durations rest
  end.
Definition validate_http (c : Config) : result unit :=
  http_port_valid (HTTPAddress c) ;;;
  positive_durations [("MARKET_INFO_HTTP_READ_TIMEOUT", ReadTimeout c); ("MARKET_INFO_HTTP_WRITE_TIMEOUT", WriteTimeout c);
    ("MARKET_INFO_HTTP_IDLE_TIMEOUT", IdleTimeout c); ("MARKET_INFO_SHUTDOWN_TIMEOUT", ShutdownTimeout c);
    ("MARKET_INFO_READINESS_TIMEOUT", ReadinessTimeout c)]%string ;;;
  failif negb (validCredentialText (AdminBearerToken c) 4096),
         Plain "MARKET_INFO_ADMIN_BEARER_TOKEN is required and must contain 1 to 4096 printable ASCII characters" ;;
  failif (AdminSubject c =s EmptyString) || (AdminSubject c <>s TrimSpace (AdminSubject c)) || (128 <? RuneCountInString (AdminSubject c)),
         Plain "MARKET_INFO_ADMIN_SUBJECT must be non-empty, trimmed and at most 128 characters" ;;
  Ok tt.
Definition validate_worker (c : Config) : result unit :=
  failif llen (EnabledProviders c) =? 0, Plain "MARKET_INFO_ENABLED_PROVIDERS is required in worker and all modes" ;;
  parseEnabledProviders (String.concat "," (EnabledProviders c)) ;;;
  failif (TrimSpace (WorkerID c) <>s WorkerID c) || (128 <? slen (WorkerID c)),
         Plain "MARKET_INFO_WORKER_ID must be trimmed and at most 128 characters" ;;
  failif WorkerConcurrency c <=? 0, Plain "MARKET_INFO_WORKER_CONCURRENCY must be positive" ;;
  failif (WorkerLeaseDuration c <=? 0) || (WorkerPollInterval c <=? 0) || (WorkerClaimErrorBackoff c <=? 0),
         Plain "worker lease, poll interval, and claim error backoff must be positive" ;;
  failif (IngestionBarsPerPage c <? 1) || (1000 <? IngestionBarsPerPage c), Plain "MARKET_INFO_INGESTION_BARS_PER_PAGE must be between 1 and 1000" ;;
  failif (IngestionMaximumPages c <? 1) || (100 <? IngestionMaximumPages c), Plain "MARKET_INFO_INGESTION_MAXIMUM_PAGES must be between 1 and 100" ;;
  failif SchedulerInterval c <=? 0, Plain "MARKET_INFO_SCHEDULER_INTERVAL must be positive" ;;
  Ok tt.
Definition ValidateForMode (c : Config) (mode : string) : result unit :=
  failif (mode <>s RuntimeModeServe) && (mode <>s RuntimeModeWorker) && (mode <>s RuntimeModeAll), Plain "unsupported runtime mode" ;;
  failif DatabaseURL c =s EmptyString, Plain "MARKET_INFO_DATABASE_URL is required" ;;
  failif DBMaxConns c <=? 0, Plain "MARKET_INFO_DB_MAX_CONNS must be positive" ;;
  failif DBMinConns c <? 0, Plain "MARKET_INFO_DB_MIN_CONNS must not be negative" ;;
  failif DBMaxConns c <? DBMinConns c, Plain "MARKET_INFO_DB_MIN_CONNS must be less than or equal to MARKET_INFO_DB_MAX_CONNS" ;;
  failif (DBMaxConnLife c <=? 0) || (DBHealthPeriod c <=? 0), Plain "database connection lifetime and health check period must be positive" ;;
  (if mode <>s RuntimeModeWorker then validate_http c else Ok tt) ;;;
  (if mode =s RuntimeModeServe then Ok tt else validate_worker c).
Definition Validate (c : Config) : result unit := ValidateForMode c RuntimeModeServe.

Definition LoadFromForMode (lookup : LookupEnv) (mode : string) : result Config :=
  let c := default_config lookup in
  c <- match lookup "MARKET_INFO_ENABLED_PROVIDERS"%string with
       | Some value => if value =s EmptyString then Ok c else (providers <- parseEnabledProviders value ;; Ok (set_EnabledProviders providers c))
       | None => Ok c end ;;
  c <- load_settings lookup ParseDuration durations c ;;
  c <- load_settings lookup ParseInt32 connections c ;;
  c <- load_settings lookup ParseInt64 integers c ;;
  ValidateForMode c mode ;;;
  Ok c.
Definition LoadFrom (lookup : LookupEnv) : result Config := LoadFromForMode lookup RuntimeModeServe.
Definition LoadForMode (environment : LookupEnv) (mode : string) : result Config := LoadFromForMode environment mode.
Definition Load (environment : LookupEnv) : result Config := LoadForMode environment RuntimeModeServe.
