(* ===== verification/ServiceHost.v ===== *)
(** * internal/servicehost and internal/server: the life of the process

    [servicehost.Run] as a transition system over its components, whose runners
    return whenever they like; the scheduler loop as a function of its events;
    the lifecycle of the HTTP server. Contexts and runners are not nil. *)
From S2P Require Import Prelude Errors GoStrings GoTime GoJson External Domain CatchUp Incremental.
Open Scope go_scope.

(** ** servicehost/group.go *)
Record componentResult := mkComponentResult { cr_name : string; cr_err : option error }.

(** The checks of [Run] on the names of its components. *)
Definition host_check (names : list string) : result unit :=
  failif llen names =? 0, Plain "at least one service host component is required" ;;
  failif existsb (fun name => name =s EmptyString) names, Plain "service host component name and runner are required" ;;
  Ok tt.

(** What [Run] returns once every result is in: [canceled] says that the parent
    context is canceled. *)
Definition host_result (canceled : bool) (all : list componentResult) : option error :=
  match List.find (fun r => not_nil (cr_err r)) all with
  | Some r => Some (Wrap (cr_name r ++ " component failed") (default (Plain EmptyString) (cr_err r)))
  | None =>
      if canceled then None
      else match all with
        | first :: _ => Some (Plain (cr_name first ++ " component stopped unexpectedly"))
        | [] => Some (Plain " component stopped unexpectedly")
        end
  end.

(** A component's goroutine runs until its runner returns; its result is then
    in the channel, which has room for all of them. *)
Record Host := mkHost {
  host_running : list bool;                   (* by component *)
  host_channel : list componentResult;
  host_all : list componentResult;            (* received, in order *)
  host_runCanceled : bool;                    (* the context of the components *)
  host_parentCanceled : bool;
  host_returned : option (option error) }.
Definition host_start (names : list string) (canceled : bool) : Host :=
  mkHost (map (fun _ => true) names) [] [] canceled canceled None.

Inductive host_step (names : list string) : Host -> Host -> Prop :=
  | component_returns h i name err :
      host_running h !! i = Some true -> names !! i = Some name ->
      host_step names h (mkHost (<[i := false]> (host_running h)) (host_channel h ++ [mkComponentResult name err]) (host_all h)
                           (host_runCanceled h) (host_parentCanceled h) (host_returned h))
  | parent_canceled h :
      host_parentCanceled h = false ->
      host_step names h (mkHost (host_running h) (host_channel h) (host_all h) true true (host_returned h))
  | result_received h r rest :
      host_returned h = None -> (length (host_all h) < length names)%nat -> host_channel h = r :: rest ->
      host_step names h (mkHost (host_running h) rest (host_all h ++ [r]) true (host_parentCanceled h) None)
  | host_returns h :
      host_returned h = None -> length (host_all h) = length names ->
      host_step names h (mkHost (host_running h) (host_channel h) (host_all h) (host_runCanceled h) (host_parentCanceled h)
                           (Some (host_result (host_parentCanceled h) (host_all h)))).

(** ** servicehost/scheduler.go *)
Definition NewSchedulerLoop (interval : Duration) : result Duration :=
  failif interval <=? 0, Plain "scheduler interval must be positive" ;; Ok interval.

(** What the loop sees: its context done, or its timer, with what [RunOnce]
    answers and whether the context is done when it has. *)
Inductive LoopEvent :=
  | ContextDone
  | TimerFired (cycle : IncrementalResult + error) (canceled : bool).
Inductive Report := ReportResult (r : IncrementalResult) | ReportError (e : error).
(** One iteration: whether the loop goes on, with the timer set again, and
    what is reported. *)
Definition loop_iteration (event : LoopEvent) : bool * list Report :=
  match event with
  | ContextDone => (false, [])
  | TimerFired cycle canceled =>
      if canceled then (false, [])
      else (true, [match cycle with inl r => ReportResult r | inr e => ReportError e end])
  end.
Fixpoint loop_run (events : list LoopEvent) : bool * list Report :=
  match events with
  | [] => (true, [])
  | event :: rest =>
      match loop_iteration event with
      | (true, reports) => let '(running, more) := loop_run rest in (running, reports ++ more)
      | (false, reports) => (false, reports)
      end
  end.
(** The delays of the timer: none before the first cycle. *)
Definition loop_delays (interval : Duration) (events : list LoopEvent) : list Duration :=
  match events with [] => [] | _ :: rest => 0 :: map (fun _ => interval) rest end.
(** [Run]: a context that is already done ends it at once. *)
Definition SchedulerLoop_Run (canceled : bool) (events : list LoopEvent) : bool * list Report :=
  if canceled then (false, []) else loop_run events.

(** ** server/server.go *)
Record ServerConfig := mkServerConfig {
  srv_Address : string; srv_ReadTimeout : Duration; srv_WriteTimeout : Duration; srv_IdleTimeout : Duration; srv_ShutdownTimeout : Duration }.
Definition NewServer (c : ServerConfig) : result ServerConfig :=
  failif (srv_Address c =s EmptyString) || (srv_ReadTimeout c <=? 0) || (srv_WriteTimeout c <=? 0) || (srv_IdleTimeout c <=? 0)
         || (srv_ShutdownTimeout c <=? 0), Plain "invalid HTTP server configuration" ;;
  Ok c.
(** Which of the two [Run] sees first, with what the listener or the shutdown
    returns; [closed] says that an error is [http.ErrServerClosed]. *)
Inductive ServerEvent := ListenerReturned (err : option error) (closed : bool) | ShutdownReturned (err : option error).
Definition Server_Run (event : ServerEvent) : option error :=
  match event with
  | ListenerReturned err closed => if closed then None else err
  | ShutdownReturned err => err
  end.

(** ** Runs of the host *)
Section HostFacts.
Context (names : list string).
Definition reachable : Host -> Prop := rtc (host_step names) (host_start names false).
Definition count_running (h : Host) : nat := length (List.filter id (host_running h)).

(** Every component is running, or its result is in the channel or received. *)
Record host_inv (h : Host) : Prop := mkHostInv {
  inv_size : length (host_running h) = length names;
  inv_count : (count_running h + length (host_channel h) + length (host_all h) = length names)%nat;
  inv_names : forall r, In r (host_channel h ++ host_all h) -> In (cr_name r) names;
  inv_cancel : host_all h <> [] -> host_runCanceled h = true;
  inv_parent : host_parentCanceled h = true -> host_runCanceled h = true;
  inv_result : forall r, host_returned h = Some r -> length (host_all h) = length names
                 /\ (r = host_result (host_parentCanceled h) (host_all h) \/ r = host_result false (host_all h)) }.

Lemma filter_insert_false (l : list bool) i : l !! i = Some true ->
  S (length (List.filter id (<[i := false]> l))) = length (List.filter id l).
Proof. revert i. induction l as [|b l IH]; intros [|i] H; cbn in *; [discriminate.. | by injection H as -> | destruct b; cbn; by rewrite <- (IH i H)]. Qed.
Lemma filter_true {A} (l : list A) : List.filter id (map (fun _ => true) l) = map (fun _ => true) l.
Proof. induction l as [|a l IH]; cbn; [reflexivity | by rewrite IH]. Qed.
Lemma host_start_inv : host_inv (host_start names false).
Proof.
  split; cbn; [apply length_map | | intros r [] | done | done | discriminate]. unfold count_running. cbn. rewrite filter_true, length_map. lia.
Qed.
Lemma host_step_inv h h' : host_inv h -> host_step names h h' -> host_inv h'.
Proof.
  intros [H1 H2 H3 H4 H5 H6] Hs. destruct Hs as [h i name err Hi Hn|h Hp|h r rest Hr Hl Hc|h Hr Hl]; split; unfold count_running in *; cbn in *.
  all: try done.
  - by rewrite length_insert.
  - pose proof (filter_insert_false _ _ Hi). rewrite length_app. cbn. lia.
  - intros r [Hr|Hr]%in_app_iff; [| apply H3, in_app_iff; by right]. apply in_app_iff in Hr as [Hr|[<-|[]]]; [apply H3, in_app_iff; by left |].
    cbn. apply list_elem_of_In. by apply (list_elem_of_lookup_2 _ i).
  - intros r Hr. destruct (H6 r Hr) as [E [->| ->]]; split; [exact E | right; by rewrite Hp | exact E | by right].
  - rewrite Hc in H2. cbn in H2. rewrite length_app. cbn. lia.
  - intros r' Hr'. apply H3. rewrite Hc. apply in_app_iff in Hr' as [Hr'|[Hr'|[<-|[]]]%in_app_iff]; [right; apply in_app_iff; by left | | by left].
    apply in_app_iff. by right.
  - intros r [= <-]. split; [exact Hl | by left].
Qed.
Lemma reachable_inv h : reachable h -> host_inv h.
Proof.
  unfold reachable. intros H. pose proof host_start_inv as Hi. induction H as [|h h' h'' Hs _ IH]; [exact Hi |]. apply IH. by apply (host_step_inv h).
Qed.

(** A run makes at most two steps for each component, one when it returns and one when its result is received, and two more. *)
Definition host_measure (h : Host) : nat :=
  2 * count_running h + length (host_channel h) + (if host_parentCanceled h then 0 else 1) + (if is_nil (host_returned h) then 1 else 0).
Lemma host_step_measure h h' : host_step names h h' -> (host_measure h' < host_measure h)%nat.
Proof.
  unfold host_measure, count_running. intros [h0 i name err Hi _|h0 Hp|h0 r rest Hr _ Hc|h0 Hr _]; cbn.
  - pose proof (filter_insert_false _ _ Hi). rewrite length_app. cbn. lia.
  - rewrite Hp. cbn. lia.
  - rewrite Hr, Hc. cbn. lia.
  - rewrite Hr. cbn. lia.
Qed.
Lemma host_progress h : host_inv h -> host_returned h = None -> count_running h <> O \/ exists h', host_step names h h'.
Proof.
  intros [_ Hn _ _ _ _] Hr. destruct (decide (count_running h = O)) as [E|E]; [| by left]. right. rewrite E in Hn. cbn in Hn.
  destruct (host_channel h) as [|r rest] eqn:Ec; cbn in Hn.
  - eexists. by apply host_returns.
  - eexists. apply (result_received _ _ r rest); [exact Hr | lia | exact Ec].
Qed.
Lemma no_running h : count_running h = O -> Forall (fun b => b = false) (host_running h).
Proof.
  unfold count_running. induction (host_running h) as [|[] l IH]; cbn; intros E; [constructor | discriminate | constructor; [reflexivity | by apply IH]].
Qed.
End HostFacts.

(** C16. [servicehost.Run] waits for its components: in every run, once it returns no component is running and every result is received; the
    first result received cancels the others; it returns nil exactly when no component failed and the parent context was canceled when it
    returned; no run has more than twice as many steps as components, and two, and a run that has not returned can go on or waits for a
    component that runs. *)
Theorem service_host_waits names h : reachable names h ->
  (forall r, host_returned h = Some r -> Forall (fun b => b = false) (host_running h) /\ host_channel h = []
     /\ length (host_all h) = length names /\ (r = None -> host_parentCanceled h = true /\ Forall (fun c => cr_err c = None) (host_all h)))
  /\ (host_all h <> [] -> host_runCanceled h = true)
  /\ (forall h', host_returned h = None -> host_step names h h' -> forall r, host_returned h' = Some r ->
        r = None <-> host_parentCanceled h = true /\ Forall (fun c => cr_err c = None) (host_all h))
  /\ (forall n h', nsteps (host_step names) n (host_start names false) h' -> (n <= 2 * length names + 2)%nat)
  /\ (host_returned h = None -> count_running h <> O \/ exists h', host_step names h h').
Proof.
  intros Hr. pose proof (reachable_inv names h Hr) as Hi. assert (forall canceled all, host_result canceled all = None <->
    canceled = true /\ Forall (fun c => cr_err c = None) all) as Hnone.
  { intros canceled all. unfold host_result. destruct (List.find _ all) as [c|] eqn:Ef.
    - split; [discriminate |]. intros [_ Hf]. rewrite List.Forall_forall in Hf. apply List.find_some in Ef as [Hin Hc]. by rewrite (Hf c Hin) in Hc.
    - assert (Forall (fun c => cr_err c = None) all) as Hall.
      { apply List.Forall_forall. intros c Hc. pose proof (List.find_none _ _ Ef c Hc) as E. cbn in E. unfold not_nil, is_nil in E. by destruct (cr_err c). }
      destruct canceled; split; [by split | reflexivity | destruct all; discriminate | intros [? _]; discriminate]. }
  split; [| split; [apply Hi | split; [| split]]].
  - intros r E. destruct (inv_result _ _ Hi r E) as [Hl Hres]. pose proof (inv_count _ _ Hi) as Hc.
    split; [apply no_running; lia |]. split; [apply nil_length_inv; lia |]. split; [exact Hl |].
    intros ->. destruct Hres as [Hres|Hres]; symmetry in Hres; apply Hnone in Hres as [Hp Hf]; [by split | discriminate Hp].
  - intros h' Hret Hs r Hr'. destruct Hs as [h0 i name err Hi' Hn|h0 Hp|h0 r' rest Hr0 Hl Hc|h0 Hr0 Hl]; cbn in Hr'; [congruence | congruence | discriminate |].
    injection Hr' as <-. apply Hnone.
  - intros n h' Hn. assert (forall a b, nsteps (host_step names) n a b -> (n + host_measure b <= host_measure a)%nat) as Hm.
    { clear. induction n as [|n IH]; intros a b H; inversion H as [|? ? c ? Hs Hrest]; subst; [lia |].
      apply host_step_measure in Hs. apply IH in Hrest. lia. }
    apply Hm in Hn. unfold host_measure at 2, count_running in Hn. cbn in Hn. rewrite filter_true, length_map in Hn. lia.
  - by apply host_progress.
Qed.
(** Two components: the first fails, the second then stops. *)
Definition two_stopped : Host :=
  mkHost [false; false] [] [mkComponentResult "http" (Some (Plain "listen")); mkComponentResult "worker" None] true false
    (Some (Some (Wrap "http component failed" (Plain "listen")))).
Lemma service_host_waits_witness : reachable ["http"; "worker"]%string two_stopped /\ host_channel two_stopped = [] /\ count_running two_stopped = O
  /\ host_runCanceled two_stopped = true.
Proof.
  assert (reachable ["http"; "worker"]%string two_stopped) as Hr.
  { unfold reachable, host_start. cbn [map].
    eapply rtc_l; [apply (component_returns _ _ 0 "http" (Some (Plain "listen"))); reflexivity |]. cbn.
    eapply rtc_l; [eapply result_received; [reflexivity | cbn; lia | reflexivity] |]. cbn.
    eapply rtc_l; [apply (component_returns _ _ 1 "worker" None); reflexivity |]. cbn.
    eapply rtc_l; [eapply result_received; [reflexivity | cbn; lia | reflexivity] |]. cbn.
    eapply rtc_l; [apply host_returns; reflexivity |]. apply rtc_refl. }
  destruct (service_host_waits _ _ Hr) as (H1 & H2 & _). destruct (H1 _ eq_refl) as (_ & H3 & _).
  split; [exact Hr |]. split; [exact H3 |]. split; [reflexivity | apply H2; discriminate].
Defined.
