(* ===== verification/SqlBuilder.v ===== *)
(** * internal/database/sqlbuilder: parameterized SELECT queries

    A query is built by a chain of calls and rendered with the placeholders of
    PostgreSQL; an argument is a value of any type [A]. *)
From S2P Require Import Prelude Errors GoStrings GoTime GoJson GoText GoJsonTree DomainJson HttpCore JsonFacts.
Open Scope go_scope.

Section Builder.
Context {A : Type}.

Record Condition := mkCondition { cond_sql : string; cond_args : list A }.
Definition Eq (column : string) (value : A) : Condition := mkCondition (column ++ " = ?") [value].
Definition Gte (column : string) (value : A) : Condition := mkCondition (column ++ " >= ?") [value].
Definition Gt (column : string) (value : A) : Condition := mkCondition (column ++ " > ?") [value].
Definition Lt (column : string) (value : A) : Condition := mkCondition (column ++ " < ?") [value].
Definition Lte (column : string) (value : A) : Condition := mkCondition (column ++ " <= ?") [value].
Definition Raw (sql : string) (args : list A) : Condition := mkCondition sql args.

Record SelectQuery := mkSelectQuery {
  q_columns : list string; q_table : string; q_conditions : list Condition; q_orderBy : list string; q_limit : option Z; q_offset : option Z }.
Definition Select (columns : list string) : SelectQuery := mkSelectQuery columns EmptyString [] [] None None.
Definition q_From (table : string) (q : SelectQuery) : SelectQuery :=
  mkSelectQuery (q_columns q) table (q_conditions q) (q_orderBy q) (q_limit q) (q_offset q).
Definition And (condition : Condition) (q : SelectQuery) : SelectQuery :=
  mkSelectQuery (q_columns q) (q_table q) (q_conditions q ++ [condition]) (q_orderBy q) (q_limit q) (q_offset q).
Definition Where (condition : Condition) (q : SelectQuery) : SelectQuery := And condition q.
Definition OrderBy (expressions : list string) (q : SelectQuery) : SelectQuery :=
  mkSelectQuery (q_columns q) (q_table q) (q_conditions q) (q_orderBy q ++ expressions) (q_limit q) (q_offset q).
Definition Limit (limit : Z) (q : SelectQuery) : SelectQuery :=
  mkSelectQuery (q_columns q) (q_table q) (q_conditions q) (q_orderBy q) (Some limit) (q_offset q).
Definition Offset (offset : Z) (q : SelectQuery) : SelectQuery :=
  mkSelectQuery (q_columns q) (q_table q) (q_conditions q) (q_orderBy q) (q_limit q) (Some offset).

(** The runes of the SQL, written one by one: an invalid byte is written as
    U+FFFD. *)
Definition write_rune (segment : Z * string) : string :=
  if fst segment =? RuneError then String (chr 239) (String (chr 191) (String (chr 189) EmptyString)) else snd segment.
Fixpoint rebind (next : Z) (segs : list (Z * string)) : string :=
  match segs with
  | [] => EmptyString
  | segment :: rest => if fst segment =? 63 then ("$" ++ Itoa next ++ rebind (next + 1) rest)%string else (write_rune segment ++ rebind next rest)%string
  end.
Definition rebindPlaceholders (sql : string) (start : Z) : string := rebind start (segments sql).

Fixpoint build_conditions (first : bool) (args : list A) (conditions : list Condition) : result (string * list A) :=
  match conditions with
  | [] => Ok (EmptyString, args)
  | c :: rest =>
      failif cond_sql c =s EmptyString, Plain "condition SQL is required" ;;
      built <- build_conditions false (args ++ cond_args c) rest ;;
      Ok (((if first then EmptyString else " AND ") ++ rebindPlaceholders (cond_sql c) (llen args + 1) ++ fst built)%string, snd built)
  end.
Definition build_bound (keyword name : string) (bound : option Z) : result string :=
  match bound with
  | None => Ok EmptyString
  | Some n => failif n <? 0, Plain (name ++ " must not be negative") ;; Ok (" " ++ keyword ++ " " ++ Itoa n)%string
  end.
Definition Build (q : SelectQuery) : result (string * list A) :=
  failif llen (q_columns q) =? 0, Plain "select columns are required" ;;
  failif q_table q =s EmptyString, Plain "from table is required" ;;
  let head := ("SELECT " ++ String.concat ", " (q_columns q) ++ " FROM " ++ q_table q)%string in
  built <- match q_conditions q with
           | [] => Ok (EmptyString, [])
           | conditions => built <- build_conditions true [] conditions ;; Ok ((" WHERE " ++ fst built)%string, snd built) end ;;
  let order := match q_orderBy q with [] => EmptyString | expressions => (" ORDER BY " ++ String.concat ", " expressions)%string end in
  limit <- build_bound "LIMIT" "limit" (q_limit q) ;;
  offset <- build_bound "OFFSET" "offset" (q_offset q) ;;
  Ok ((head ++ fst built ++ order ++ limit ++ offset)%string, snd built).
End Builder.
#[global] Arguments Condition : clear implicits.
#[global] Arguments SelectQuery : clear implicits.

(** ** Placeholders *)
(** The parts between the question marks of a condition, joined by numbered
    placeholders. *)
Fixpoint numbered (n : Z) (parts : list string) : string :=
  match parts with
  | [] => EmptyString
  | [part] => part
  | part :: rest => (part ++ "$" ++ Itoa n ++ numbered (n + 1) rest)%string
  end.
Lemma numbered_cons n c part rest : numbered n (String c part :: rest) = String c (numbered n (part :: rest)).
Proof. destruct rest; reflexivity. Qed.
Lemma Split_nonempty b s : Split b s <> [].
Proof. destruct s as [|c s]; cbn; [discriminate |]. destruct (is_byte b c); [discriminate |]. destruct (Split b s); discriminate. Qed.
Lemma rebind_numbered sql n : ascii_text sql = true -> rebindPlaceholders sql n = numbered n (Split 63 sql).
Proof.
  unfold rebindPlaceholders. revert n. induction sql as [|c sql IH]; intros n H; [reflexivity |]. cbn [ascii_text] in H. apply andb_true_iff in H as [Hc Hs].
  rewrite segments_ascii by exact Hc. cbn [rebind Split fst]. unfold is_byte. destruct (byte_at c =? 63).
  - rewrite IH by exact Hs. pose proof (Split_nonempty 63 sql). destruct (Split 63 sql); [done | reflexivity].
  - unfold write_rune. cbn [fst snd]. replace (byte_at c =? RuneError) with false by (symmetry; apply Z.eqb_neq; unfold RuneError; lia).
    rewrite IH by exact Hs. pose proof (Split_nonempty 63 sql). destruct (Split 63 sql) as [|part rest]; [done |]. by rewrite numbered_cons.
Qed.

Section Bound.
Context {A : Type}.
(** A condition in ASCII with an argument for each question mark. *)
Definition balanced (c : Condition A) : Prop := ascii_text (cond_sql c) = true /\ length (Split 63 (cond_sql c)) = S (length (cond_args c)).
(** The number of the first placeholder of each condition. *)
Fixpoint starts (n : Z) (conditions : list (Condition A)) : list Z :=
  match conditions with [] => [] | c :: rest => n :: starts (n + llen (cond_args c)) rest end.
Definition condition_text (c : Condition A) (start : Z) : string := numbered start (Split 63 (cond_sql c)).
Definition all_args (conditions : list (Condition A)) : list A := List.concat (map cond_args conditions).

Lemma build_conditions_ok first args conditions text args' : build_conditions first args conditions = Ok (text, args') -> Forall balanced conditions ->
  args' = args ++ all_args conditions
  /\ text = (match conditions with [] => EmptyString | _ => if first then EmptyString else " AND " end
             ++ String.concat " AND " (zip_with condition_text conditions (starts (llen args + 1) conditions)))%string.
Proof.
  revert first args text args'. induction conditions as [|c rest IH]; intros first args text args' H Hf; cbn [build_conditions] in H.
  { injection H as <- <-. by rewrite app_nil_r. }
  inversion Hf as [|? ? [Ha _] Hf']; subst. destruct (cond_sql c =s EmptyString); [discriminate H |].
  apply rbind_ok in H as ([text1 args1] & H1 & H). apply IH in H1 as [-> ->]; [| exact Hf']. apply Ok_inj in H. injection H as <- <-. cbn [fst snd].
  split; [unfold all_args; cbn; by rewrite app_assoc |]. cbn [starts zip_with].
  replace (llen (args ++ cond_args c) + 1) with (llen args + 1 + llen (cond_args c)) by (unfold llen; rewrite length_app; lia).
  rewrite rebind_numbered by exact Ha. fold (condition_text c (llen args + 1)). destruct rest as [|c' rest]; cbn [starts zip_with String.concat];
    [by rewrite !append_nil_r | by rewrite ?string_app_assoc].
Qed.
Lemma starts_lookup n conditions i c j a : conditions !! i = Some c -> cond_args c !! j = Some a ->
  exists start, starts n conditions !! i = Some start /\ n <= start /\ all_args conditions !! (Z.to_nat (start - n) + j)%nat = Some a.
Proof.
  unfold all_args. revert n i. induction conditions as [|c' rest IH]; intros n [|i] Hc Ha; [discriminate.. | |]; cbn [starts map List.concat].
  - injection Hc as ->. exists n. split; [reflexivity |]. split; [lia |]. rewrite Z.sub_diag. cbn. rewrite lookup_app_l; [exact Ha |].
    by apply lookup_lt_Some in Ha.
  - destruct (IH (n + llen (cond_args c')) i Hc Ha) as (start & Hs & Hle & Hl). exists start. unfold llen in *. split; [exact Hs |]. split; [lia |].
    rewrite lookup_app_r by lia. rewrite <- Hl. f_equal. lia.
Qed.

Definition map_condition {B} (f : A -> B) (c : Condition A) : Condition B := mkCondition (cond_sql c) (map f (cond_args c)).
Definition map_query {B} (f : A -> B) (q : SelectQuery A) : SelectQuery B :=
  mkSelectQuery (q_columns q) (q_table q) (map (map_condition f) (q_conditions q)) (q_orderBy q) (q_limit q) (q_offset q).
Lemma build_conditions_map {B} (f : A -> B) first args conditions text args' : build_conditions first args conditions = Ok (text, args') ->
  build_conditions first (map f args) (map (map_condition f) conditions) = Ok (text, map f args').
Proof.
  revert first args text args'. induction conditions as [|c rest IH]; intros first args text args' H; cbn [build_conditions map] in *.
  { by injection H as <- <-. }
  cbn [map_condition cond_sql cond_args]. destruct (cond_sql c =s EmptyString); [discriminate H |]. apply rbind_ok in H as ([text1 args1] & H1 & H).
  apply IH in H1. rewrite map_app in H1. rewrite H1. injection H as <- <-. cbn. unfold llen. by rewrite length_map.
Qed.
End Bound.

(** A built query binds its arguments: when every condition has an argument for each of its question marks, the arguments are those of the
    conditions in order, the text is the clauses with the question marks numbered, and the number a condition's placeholder has is the
    position of its own argument; the values of the arguments never reach the text. *)
Theorem placeholders_bind_arguments {A} (q : SelectQuery A) text args : Build q = Ok (text, args) -> Forall balanced (q_conditions q) ->
  args = all_args (q_conditions q)
  /\ (exists limit offset, text = ("SELECT " ++ String.concat ", " (q_columns q) ++ " FROM " ++ q_table q
       ++ match q_conditions q with [] => EmptyString | conditions => " WHERE " ++ String.concat " AND " (zip_with condition_text conditions (starts 1 conditions)) end
       ++ match q_orderBy q with [] => EmptyString | expressions => " ORDER BY " ++ String.concat ", " expressions end ++ limit ++ offset)%string
       /\ limit = match q_limit q with Some n => " LIMIT " ++ Itoa n | None => EmptyString end%string
       /\ offset = match q_offset q with Some n => " OFFSET " ++ Itoa n | None => EmptyString end%string)
  /\ (forall i c j a, q_conditions q !! i = Some c -> cond_args c !! j = Some a ->
        exists start, starts 1 (q_conditions q) !! i = Some start /\ args !! (Z.to_nat (start + Z.of_nat j - 1)) = Some a)
  /\ (forall B (f : A -> B), Build (map_query f q) = Ok (text, map f args)).
Proof.
  unfold Build. intros H Hf. destruct (llen (q_columns q) =? 0) eqn:E1; [discriminate H |]. destruct (q_table q =s EmptyString) eqn:E2; [discriminate H |].
  cbv zeta in H. apply rbind_ok in H as ([clause args'] & Hw & H). apply rbind_ok in H as (limit & Hl & H). apply rbind_ok in H as (offset & Ho & H).
  apply Ok_inj in H. injection H as <- <-. cbn [fst snd].
  assert (forall keyword name bound text, build_bound keyword name bound = Ok text ->
    text = match bound with Some n => " " ++ keyword ++ " " ++ Itoa n | None => EmptyString end%string) as Hbound.
  { intros keyword name [n|] s; cbn; [destruct (n <? 0); [discriminate |] |]; by intros [= <-]. }
  assert (args' = all_args (q_conditions q) /\ clause = match q_conditions q with [] => EmptyString
     | conditions => " WHERE " ++ String.concat " AND " (zip_with condition_text conditions (starts 1 conditions)) end%string) as [Ha Hc].
  { destruct (q_conditions q) as [|c rest]; [by injection Hw as <- <- |]. apply rbind_ok in Hw as ([text args] & Hb & Hw). injection Hw as <- <-.
    by apply build_conditions_ok in Hb as [-> ->]. }
  split; [exact Ha |]. split.
  - exists limit, offset. rewrite Hc, !string_app_assoc. split; [reflexivity |]. apply Hbound in Hl, Ho. by rewrite Hl, Ho.
  - split.
    + intros i c j a Hi Hj. destruct (starts_lookup 1 _ i c j a Hi Hj) as (start & Hs & Hle & Hlook). exists start. split; [exact Hs |].
      rewrite Ha, <- Hlook. f_equal. lia.
    + intros B f. cbn [map_query q_columns q_table q_conditions q_orderBy q_limit q_offset]. rewrite E1, E2.
      assert (match map (map_condition f) (q_conditions q) with [] => Ok (EmptyString, [])
              | conditions => built <- build_conditions true [] conditions ;; Ok ((" WHERE " ++ fst built)%string, snd built) end
              = Ok (clause, map f args')) as ->.
      { destruct (q_conditions q) as [|c rest]; [by injection Hw as <- <- |]. apply rbind_ok in Hw as ([text args] & Hb & Hw). injection Hw as <- <-.
        apply (build_conditions_map f) in Hb. cbn [map] in *. by rewrite Hb. }
      cbn [rbind]. by rewrite Hl, Ho.
Qed.

Definition between : SelectQuery Z :=
  Limit 10 (OrderBy ["open_time ASC"%string] (And (Lt "open_time" 9) (Where (Raw "provider_code = ? OR asset_id = ?" [4; 5]) (q_From "bars" (Select ["id"; "close"]%string))))).
Lemma placeholders_bind_arguments_witness :
  Build between = Ok ("SELECT id, close FROM bars WHERE provider_code = $1 OR asset_id = $2 AND open_time < $3 ORDER BY open_time ASC LIMIT 10"%string, [4; 5; 9])
  /\ [4; 5; 9] = all_args (q_conditions between).
Proof.
  assert (Build between = Ok ("SELECT id, close FROM bars WHERE provider_code = $1 OR asset_id = $2 AND open_time < $3 ORDER BY open_time ASC LIMIT 10"%string, [4; 5; 9]))
    as H by (vm_compute; reflexivity).
  split; [exact H |]. destruct (placeholders_bind_arguments between _ _ H) as [Ha _]; [| exact Ha].
  repeat constructor.
Defined.
