(* ===== verification/Observability.v ===== *)
(** * internal/observability and internal/database/readiness

    Health endpoints and their readiness checker, the metrics registry with the
    text it is scraped as, and the alerts. A deadline of a context is part of
    the world that answers the checks; a registry's lock makes each of its
    operations one step. *)
From Stdlib Require Import SpecFloat.
From S2P Require Import Prelude Errors GoStrings GoTime GoJson External Domain MarketData Calendar Window Freshness CatchUp Ports Ingestion Application Listing ProviderStatus Database Statements CatalogStore GoText GoJsonTree DomainJson HttpCore GoFloat.
Open Scope go_scope.

(** ** database/readiness/checker.go *)
Class ReadinessDB (W : Type) := {
  db_Ping : M W unit;
  db_AppliedVersion : M W Z }.                 (* the row of [migrationVersionQuery] *)
Definition NewChecker (latestVersion : Z) : result Z :=
  failif latestVersion <? 1, Plain "latest migration version must be positive" ;; Ok latestVersion.
Section Checker.
Context {W : Type} `{DB : ReadinessDB W}.
Definition Checker_Check (latestVersion : Z) : M W unit :=
  ping <-- mtry db_Ping ;;
  match ping with
  | Err _ => mthrow (Wrap "ping" (Sentinel ErrReadinessDatabase))
  | Diverge => mlift Diverge
  | Ok _ =>
      applied <-- mtry db_AppliedVersion ;;
      match applied with
      | Err _ => mthrow (Wrap "read schema migration version" (Sentinel ErrMigrationIncompatible))
      | Diverge => mlift Diverge
      | Ok appliedVersion => mfailif negb (appliedVersion =? latestVersion), Wrap "version" (Sentinel ErrMigrationIncompatible) ;; mret tt
      end
  end.
End Checker.

(** ** health.go *)
Definition NewHealthHandler (timeout : Duration) : result Duration :=
  failif timeout <=? 0, Plain "readiness timeout must be positive" ;; Ok timeout.
(** A [healthResponse]: an empty reason is left out. *)
Definition healthResponse (status reason : string) : json :=
  JObject (("status"%string, JString status) :: if reason =s EmptyString then [] else [("reason"%string, JString reason)]).
Definition readinessReason (e : error) : string :=
  if errors_Is e ErrReadinessDatabase then "database_unavailable"
  else if errors_Is e ErrMigrationIncompatible then "migration_incompatible"
  else "dependency_unavailable".
(** [writeJSON]: the encoder ends the text with a line break. *)
Definition write_health (writer : ResponseWriter) (status : Z) (payload : json) : ResponseWriter :=
  Write (WriteHeader (SetHeader writer "Content-Type" "application/json") status) (json_text payload ++ String (chr 10) EmptyString)%string.
Definition Liveness {W} : Handler W := fun writer _ => mret (write_health writer 200 (healthResponse "ok" EmptyString)).
Definition Readiness {W} (check : M W unit) : Handler W := fun writer _ =>
  checked <-- mtry check ;;
  match checked with
  | Ok _ => mret (write_health writer 200 (healthResponse "ready" EmptyString))
  | Err e => mret (write_health writer 503 (healthResponse "not_ready" (readinessReason e)))
  | Diverge => mlift Diverge
  end.
Definition health_routes {W} (check : M W unit) : Routes W := [("GET /healthz"%string, Liveness); ("GET /readyz"%string, Readiness check)].

(** ** metrics.go *)
Definition httpDurationBuckets : list float64 :=
  [f64_decimal 5 (-3); f64_decimal 1 (-2); f64_decimal 25 (-3); f64_decimal 5 (-2); f64_decimal 1 (-1); f64_decimal 25 (-2); f64_decimal 5 (-1);
   f64_of_Z 1; f64_decimal 25 (-1); f64_of_Z 5; f64_of_Z 10].
Definition taskMetricStatuses : list string := ["pending"; "running"; "retry_wait"; "success"; "failed"; "canceled"]%string.
Definition providerHealthMetricStatuses : list string := [ProviderHealthHealthy; ProviderHealthDegraded; ProviderHealthUnhealthy; ProviderHealthUnknown].

Record TaskMetricsSnapshot := mkTaskMetricsSnapshot { tm_Counts : gmap string Z; tm_OldestBacklogCreatedAt : option Time }.
Record OperationalSnapshot := mkOperationalSnapshot {
  os_ObservedAt : Time; os_Tasks : TaskMetricsSnapshot; os_Providers : list ProviderStatus }.

Definition task_count_valid (kv : string * Z) : bool := contains_string taskMetricStatuses (fst kv) && negb (snd kv <? 0).
Definition provider_metric_valid (p : ProviderStatus) : bool :=
  negb (code_IsZero (ps_ProviderCode p)) && contains_string providerHealthMetricStatuses (ps_HealthStatus p) && negb (ps_ConsecutiveFailures p <? 0).
Definition validateOperationalSnapshot (tasks : TaskMetricsSnapshot) (providers : list ProviderStatus) : result unit :=
  failif negb (forallb task_count_valid (map_to_list (tm_Counts tasks))), Plain "operational task metrics are invalid" ;;
  failif opt_test IsZero (tm_OldestBacklogCreatedAt tasks), Plain "operational backlog timestamp is invalid" ;;
  failif negb (forallb provider_metric_valid providers), Plain "operational provider metrics are invalid" ;;
  Ok tt.

(** The persisted facts a scrape reads. *)
Class OperationalSource (W : Type) := {
  ReadTaskMetrics : Time -> M W TaskMetricsSnapshot;
  ListProviders : M W (list ProviderStatus) }.
Section Snapshot.
Context {W : Type} `{S : OperationalSource W}.
Definition Snapshot (observedAt : Time) : M W OperationalSnapshot :=
  mfailif IsZero observedAt, Plain "operational metrics context and observed time are required" ;;
  tasks <-- mwrap "read task metrics" (ReadTaskMetrics observedAt) ;;
  providers <-- mwrap "read provider metrics" ListProviders ;;
  _ <-- mlift (validateOperationalSnapshot tasks providers) ;;
  mret (mkOperationalSnapshot observedAt tasks providers).
End Snapshot.

(** *** The registry *)
Record httpMetricKey := mkKey { key_method : string; key_route : string; key_statusClass : string }.
#[export] Instance httpMetricKey_eq_dec : EqDecision httpMetricKey.
Proof. solve_decision. Defined.
#[export] Instance httpMetricKey_countable : Countable httpMetricKey.
Proof. apply (inj_countable' (fun k => (key_method k, key_route k, key_statusClass k)) (fun '(m, r, s) => mkKey m r s)). by intros []. Defined.
(** Counters are 64-bit. *)
Record httpHistogram := mkHistogram { h_count : Z; h_sum : float64; h_buckets : list Z }.
Record Metrics := mkMetrics { m_http : gmap httpMetricKey httpHistogram; m_snapshotFailures : Z }.
Definition NewMetrics : Metrics := mkMetrics ∅ 0.
Definition increment (counter : Z) : Z := (counter + 1) mod 2 ^ 64.

Definition normalizedHTTPMethod (method : string) : string :=
  if contains_string ["GET"; "POST"; "PATCH"; "PUT"; "DELETE"; "HEAD"; "OPTIONS"]%string method then method else "OTHER".
Definition httpStatusClass (status : Z) : string :=
  if (status <? 100) || (599 <? status) then "unknown" else (Itoa (Z.quot status 100) ++ "xx")%string.
(** The seconds of a duration, unless they are negative or not finite. *)
Definition observed_seconds (duration : Duration) : float64 :=
  let seconds := Seconds duration in
  match seconds with
  | S754_nan | S754_infinity _ => S754_zero false
  | _ => if f64_ltb seconds (S754_zero false) then S754_zero false else seconds
  end.
Definition observe_histogram (seconds : float64) (h : httpHistogram) : httpHistogram :=
  mkHistogram (increment (h_count h)) (f64_add (h_sum h) seconds)
    (zip_with (fun upperBound bucket => if f64_leb seconds upperBound then increment bucket else bucket) httpDurationBuckets (h_buckets h)).
Definition new_histogram : httpHistogram := mkHistogram 0 (S754_zero false) (map (fun _ => 0) httpDurationBuckets).
Definition metric_key (method route : string) (status : Z) : httpMetricKey :=
  mkKey (normalizedHTTPMethod method) (if route =s EmptyString then "unmatched" else route) (httpStatusClass status).
Definition ObserveHTTPRequest (method route : string) (status : Z) (duration : Duration) (m : Metrics) : Metrics :=
  let key := metric_key method route status in
  let histogram := default new_histogram (m_http m !! key) in
  mkMetrics (<[key := observe_histogram (observed_seconds duration) histogram]> (m_http m)) (m_snapshotFailures m).
Definition recordSnapshotFailure (m : Metrics) : Metrics := mkMetrics (m_http m) (increment (m_snapshotFailures m)).

(** *** The text *)
Definition newline : string := String (chr 10) EmptyString.
Fixpoint replace_byte (b : Z) (by_ s : string) : string :=
  match s with EmptyString => EmptyString | String c s' => ((if is_byte b c then by_ else String c EmptyString) ++ replace_byte b by_ s')%string end.
(** Backslashes, line breaks and double quotes are escaped. *)
Definition escapeMetricLabel (value : string) : string :=
  replace_byte 34 (backslash ++ quote) (replace_byte 10 (backslash ++ "n") (replace_byte 92 (backslash ++ backslash) value)).
Definition metric_label (kv : string * string) : string := (fst kv ++ "=" ++ quote ++ escapeMetricLabel (snd kv) ++ quote)%string.
Definition sample (name : string) (labels : list (string * string)) (value : float64) : string :=
  (name ++ match labels with [] => EmptyString | _ => "{" ++ String.concat "," (map metric_label (sort_keys labels)) ++ "}" end
   ++ " " ++ FormatFloat value ++ newline)%string.
Definition writeHelpType (name help metricType : string) : string :=
  ("# HELP " ++ name ++ " " ++ help ++ newline ++ "# TYPE " ++ name ++ " " ++ metricType ++ newline)%string.
Definition writeGauge (name help : string) (labels : list (string * string)) (value : float64) : string :=
  (writeHelpType name help "gauge" ++ sample name labels value)%string.
Definition writeCounter (name help : string) (labels : list (string * string)) (value : float64) : string :=
  (writeHelpType name help "counter" ++ sample name labels value)%string.
Definition boolFloat (b : bool) : float64 := f64_of_Z (if b then 1 else 0).
Definition concat_map {A} (f : A -> string) (l : list A) : string := String.concat EmptyString (map f l).

Definition key_less (a b : httpMetricKey) : bool :=
  if key_method a <>s key_method b then String.ltb (key_method a) (key_method b)
  else if key_route a <>s key_route b then String.ltb (key_route a) (key_route b)
  else String.ltb (key_statusClass a) (key_statusClass b).
Definition key_labels (key : httpMetricKey) : list (string * string) :=
  [("method", key_method key); ("route", key_route key); ("status_class", key_statusClass key)]%string.
Definition write_histogram (entry : httpMetricKey * httpHistogram) : string :=
  let '(key, h) := entry in
  let bucket '(upperBound, count) :=
    sample "market_info_http_request_duration_seconds_bucket" (key_labels key ++ [("le"%string, FormatFloat upperBound)]) (f64_of_Z count) in
  (concat_map bucket (combine httpDurationBuckets (h_buckets h))
   ++ sample "market_info_http_request_duration_seconds_bucket" (key_labels key ++ [("le", "+Inf")%string]) (f64_of_Z (h_count h))
   ++ sample "market_info_http_request_duration_seconds_sum" (key_labels key) (h_sum h)
   ++ sample "market_info_http_request_duration_seconds_count" (key_labels key) (f64_of_Z (h_count h)))%string.
Definition sorted_http (m : Metrics) : list (httpMetricKey * httpHistogram) :=
  sort_stable (fun a b => key_less (fst a) (fst b)) (map_to_list (m_http m)).
Definition writeHTTPMetrics (m : Metrics) : string :=
  (writeHelpType "market_info_http_requests_total" "Total completed HTTP requests." "counter"
   ++ concat_map (fun e => sample "market_info_http_requests_total" (key_labels (fst e)) (f64_of_Z (h_count (snd e)))) (sorted_http m)
   ++ writeHelpType "market_info_http_request_duration_seconds" "HTTP request duration in seconds." "histogram"
   ++ concat_map write_histogram (sorted_http m))%string.

(** A delay is shown unless the market is closed or it does not apply. *)
Definition shown_delay (s : ProviderScopeStatus) : option Z :=
  if (scope_MarketState s =s "closed") || (scope_FreshnessStatus s =s FreshnessStatusNotApplicable) then None else scope_DataDelaySeconds s.
Definition scope_samples (provider : string) (s : ProviderScopeStatus) : string :=
  let labels := [("provider", provider); ("market", scope_Market s); ("session_type", scope_SessionType s); ("interval", scope_Interval s)]%string in
  (sample "market_info_provider_active_subscriptions" labels (f64_of_Z (scope_ActiveSubscriptions s))
   ++ sample "market_info_provider_delayed_subscriptions" labels (f64_of_Z (scope_DelayedSubscriptions s))
   ++ match shown_delay s with Some delay => sample "market_info_provider_data_delay_seconds" labels (f64_of_Z delay) | None => EmptyString end)%string.
Definition provider_samples (p : ProviderStatus) : string :=
  let code := ps_ProviderCode p in
  (concat_map (fun health => sample "market_info_provider_health" [("provider", code); ("status", health)]%string (boolFloat (ps_HealthStatus p =s health)))
     providerHealthMetricStatuses
   ++ sample "market_info_provider_consecutive_failures" [("provider"%string, code)] (f64_of_Z (ps_ConsecutiveFailures p))
   ++ match ps_LastSuccessAt p with
      | Some at_ => sample "market_info_provider_last_success_timestamp_seconds" [("provider"%string, code)] (f64_of_Z (Unix at_))
      | None => EmptyString end
   ++ concat_map (scope_samples code) (ps_Scopes p))%string.
(** The age of the oldest backlog: [max(0, ...)]. *)
Definition backlog_seconds (s : OperationalSnapshot) : float64 :=
  match tm_OldestBacklogCreatedAt (os_Tasks s) with
  | Some created => let age := Seconds (Sub (os_ObservedAt s) created) in if f64_ltb (S754_zero false) age then age else S754_zero false
  | None => S754_zero false
  end.
Definition writeOperationalMetrics (s : OperationalSnapshot) : string :=
  (writeHelpType "market_info_ingestion_tasks" "Current ingestion tasks by durable status." "gauge"
   ++ concat_map (fun status => sample "market_info_ingestion_tasks" [("status"%string, status)] (f64_of_Z (default 0%Z (tm_Counts (os_Tasks s) !! status)))) taskMetricStatuses
   ++ writeGauge "market_info_ingestion_backlog_oldest_age_seconds" "Age in seconds of the oldest pending or retry-wait task; zero when empty." [] (backlog_seconds s)
   ++ writeHelpType "market_info_provider_health" "Current provider health as a one-hot gauge." "gauge"
   ++ writeHelpType "market_info_provider_consecutive_failures" "Maximum consecutive collection failures for a provider." "gauge"
   ++ writeHelpType "market_info_provider_last_success_timestamp_seconds" "Latest successful collection Unix timestamp for a provider." "gauge"
   ++ writeHelpType "market_info_provider_data_delay_seconds" "Maximum applicable data delay for a provider scope." "gauge"
   ++ writeHelpType "market_info_provider_active_subscriptions" "Active subscriptions in a provider scope." "gauge"
   ++ writeHelpType "market_info_provider_delayed_subscriptions" "Delayed subscriptions in a provider scope." "gauge"
   ++ concat_map provider_samples (os_Providers s))%string.
Definition writeMetrics (m : Metrics) (ready : bool) (snapshot : option OperationalSnapshot) : string :=
  (writeHTTPMetrics m
   ++ writeGauge "market_info_readiness_status" "Whether runtime dependencies are ready (1 ready, 0 not ready)." [] (boolFloat ready)
   ++ writeGauge "market_info_operational_snapshot_success" "Whether the latest operational metrics snapshot succeeded." [] (boolFloat (not_nil snapshot))
   ++ writeCounter "market_info_operational_snapshot_failures_total" "Total failed operational metrics snapshots." [] (f64_of_Z (m_snapshotFailures m))
   ++ match snapshot with Some s => writeOperationalMetrics s | None => EmptyString end)%string.

(** *** The scrape *)
(** The process's registry, which the handlers share. *)
Class MetricsRegistry (W : Type) := {
  metrics_state : M W Metrics;
  metrics_update : (Metrics -> Metrics) -> M W unit }.
Section Scrape.
Context {W : Type} `{S : OperationalSource W} `{R : MetricsRegistry W} (check : M W unit) (now : M W Time).
Definition NewMetricsHandler (timeout : Duration) : result Duration :=
  failif timeout <=? 0, Plain "metrics handler dependencies are required" ;; Ok timeout.
Definition MetricsHandler_ServeHTTP : Handler W := fun writer _ =>
  observedAt <-- now ;;
  checked <-- mtry check ;;
  taken <-- mtry (Snapshot observedAt) ;;
  match checked, taken with
  | Diverge, _ | _, Diverge => mlift Diverge
  | _, _ =>
      let snapshot := match taken with Ok s => Some s | _ => None end in
      _ <-- (if not_nil snapshot then mret tt else metrics_update recordSnapshotFailure) ;;
      let writer := SetHeader (SetHeader writer "Content-Type" "text/plain; version=0.0.4; charset=utf-8") "X-Content-Type-Options" "nosniff" in
      state <-- metrics_state ;;
      mret (Write (WriteHeader writer 200) (writeMetrics state (is_ok checked) snapshot))
  end.
Definition metrics_routes : Routes W := [("GET /metrics"%string, MetricsHandler_ServeHTTP)].
End Scrape.

(** ** alerts.go *)
Definition ProviderFailureAlertThreshold : Z := 3.
Definition TaskBacklogCountThreshold : Z := 100.
Definition TaskBacklogAgeThreshold : Duration := Hour.
Definition DataDelayIntervalMultiplier : Z := 3.
Definition AlertReadyFailed : string := "ready_failed".
Definition AlertProviderFailures : string := "provider_consecutive_failures".
Definition AlertProviderDataDelay : string := "provider_data_delay".
Definition AlertIngestionTaskBacklog : string := "ingestion_task_backlog".
Record OperationalAlert := mkAlert {
  al_Code : string; al_Severity : string; al_Provider : string; al_Market : string; al_Interval : string; al_Value : float64; al_Threshold : float64 }.

Definition alertDelayThreshold (interval : string) : result Z :=
  if interval =s BarInterval1Hour then Ok (DataDelayIntervalMultiplier * Hour / Second)
  else if interval =s BarInterval1Day then Ok (DataDelayIntervalMultiplier * 24 * Hour / Second)
  else Err (Plain "unsupported alert interval").
Definition backlog_count (s : OperationalSnapshot) : Z :=
  let count status := default 0 (tm_Counts (os_Tasks s) !! status) in wrap64 (count "pending"%string + count "retry_wait"%string).
Definition backlog_age (s : OperationalSnapshot) : Duration :=
  match tm_OldestBacklogCreatedAt (os_Tasks s) with
  | Some created => if After (os_ObservedAt s) created then Sub (os_ObservedAt s) created else 0
  | None => 0
  end.
Definition backlog_alerts (s : OperationalSnapshot) : list OperationalAlert :=
  let old := TaskBacklogAgeThreshold <=? backlog_age s in
  if (TaskBacklogCountThreshold <=? backlog_count s) || old
  then [mkAlert AlertIngestionTaskBacklog "warning" EmptyString EmptyString EmptyString
          (if old then Seconds (backlog_age s) else f64_of_Z (backlog_count s))
          (if old then Seconds TaskBacklogAgeThreshold else f64_of_Z TaskBacklogCountThreshold)]
  else [].
Fixpoint scope_alerts (provider : string) (scopes : list ProviderScopeStatus) : result (list OperationalAlert) :=
  match scopes with
  | [] => Ok []
  | s :: rest =>
      match shown_delay s with
      | None => scope_alerts provider rest
      | Some delay =>
          threshold <- alertDelayThreshold (scope_Interval s) ;;
          alerts <- scope_alerts provider rest ;;
          Ok (if threshold <=? delay
              then mkAlert AlertProviderDataDelay "warning" provider (scope_Market s) (scope_Interval s) (f64_of_Z delay) (f64_of_Z threshold) :: alerts
              else alerts)
      end
  end.
Fixpoint provider_alerts (providers : list ProviderStatus) : result (list OperationalAlert) :=
  match providers with
  | [] => Ok []
  | p :: rest =>
      let failures := if ProviderFailureAlertThreshold <=? ps_ConsecutiveFailures p
        then [mkAlert AlertProviderFailures "critical" (ps_ProviderCode p) EmptyString EmptyString (f64_of_Z (ps_ConsecutiveFailures p))
                (f64_of_Z ProviderFailureAlertThreshold)] else [] in
      delays <- scope_alerts (ps_ProviderCode p) (ps_Scopes p) ;;
      alerts <- provider_alerts rest ;;
      Ok (failures ++ delays ++ alerts)
  end.
(** [sort.Slice]: alerts it does not tell apart, which scopes of different
    sessions may raise, stay in their order here. *)
Definition alert_less (a b : OperationalAlert) : bool :=
  if al_Code a <>s al_Code b then String.ltb (al_Code a) (al_Code b)
  else if al_Provider a <>s al_Provider b then String.ltb (al_Provider a) (al_Provider b)
  else if al_Market a <>s al_Market b then String.ltb (al_Market a) (al_Market b)
  else String.ltb (al_Interval a) (al_Interval b).
Definition EvaluateOperationalAlerts (ready : bool) (s : OperationalSnapshot) : result (list OperationalAlert) :=
  failif IsZero (os_ObservedAt s), Plain "alert snapshot observed time is required" ;;
  validateOperationalSnapshot (os_Tasks s) (os_Providers s) ;;;
  let not_ready := if ready then [] else [mkAlert AlertReadyFailed "critical" EmptyString EmptyString EmptyString (f64_of_Z 0) (f64_of_Z 1)] in
  providers <- provider_alerts (os_Providers s) ;;
  Ok (sort_stable alert_less (not_ready ++ backlog_alerts s ++ providers)).

(** ** repository/postgres/metrics.go *)
Section MetricsStore.
Context `{D : DecimalLib} `{T : TzLib} `{U : UUIDLib} `{P : !PgLib}.

(** [WHERE created_at <= $1], on the stored instants. *)
Definition metric_tasks (observedAt : Time) (d : DB) : list IngestionTask :=
  List.filter (fun t => task_CreatedAt t <=? pg_time (TimeToDatabase observedAt)) (rows (db_tasks d)).
(** [min(created_at) FILTER (WHERE status IN ('pending', 'retry_wait'))] *)
Definition oldest_created (tasks : list IngestionTask) : option Time :=
  fold_right (fun t acc => opt_best Z.min (Some (task_CreatedAt t)) acc) None tasks.
Definition waiting_task (t : IngestionTask) : bool := contains_string ["pending"; "retry_wait"]%string (task_Status t).
Definition repo_ReadTaskMetrics (observedAt : Time) : M PG TaskMetricsSnapshot :=
  mfailif IsZero observedAt, Wrap "read task metrics" (Sentinel ErrInvalidData) ;;
  mwrap_db "read task metrics" (query (fun d =>
    let tasks := metric_tasks observedAt d in
    Ok (mkTaskMetricsSnapshot (list_to_map (map (fun status => (status, count_status status tasks)) taskMetricStatuses))
          (TimeToDatabase <$> oldest_created (List.filter waiting_task tasks))))).

(** The source [buildHTTPServer] gives the metrics handler. *)
#[export] Instance repo_OperationalSource (usCalendar : TradingCalendar) (now : M PG Time) : OperationalSource PG := {|
  ReadTaskMetrics := repo_ReadTaskMetrics;
  ListProviders := ProviderStatusService_List usCalendar repo_ListProviderStatusSources now |}.
End MetricsStore.
