(* ===== verification/HttpServer.v ===== *)
(** * observability/logging.go, api/httpapi/observability.go and the mux

    Structured log records and their redaction; the access log and panic
    recovery around every handler; the routes of [http.ServeMux]. A writer of
    records is a parameter of the world, [LogSink]. *)
From S2P Require Import Prelude Errors GoStrings GoTime GoJson External Domain Application InstrumentOptions GoText GoJsonTree HttpCore Observability.
Open Scope go_scope.

(** ** log/slog *)
(** [slog.Value]: the kinds the service uses, a group, another value, and a
    value that computes its value. *)
Inductive LogValue :=
  | LogString (s : string) | LogInt64 (z : Z) | LogBool (b : bool) | LogGroup (attributes : list (string * LogValue))
  | LogAny (text : string) | LogValuer (v : LogValue).
Definition Attr : Type := string * LogValue.
Definition LevelInfo : Z := 0.
Definition LevelWarn : Z := 4.
Definition LevelError : Z := 8.
Record LogRecord := mkLogRecord { lr_Level : Z; lr_Message : string; lr_Attrs : list Attr }.
Class LogSink (W : Type) := { log_write : LogRecord -> M W unit }.

(** ** observability/logging.go *)
Definition redactedValue : string := "[REDACTED]".
(** [strings.Contains] *)
Fixpoint strings_Contains (s fragment : string) : bool :=
  String.prefix fragment s || match s with EmptyString => false | String _ s' => strings_Contains s' fragment end.
(** [strings.ToLower] up to letters that stay outside ASCII: the Kelvin sign
    and the dotted capital I become ASCII letters. *)
Definition lower_rune (segment : Z * string) : string :=
  if fst segment =? 8490 then "k" else if fst segment =? 304 then "i" else ToLower (snd segment).
Definition ToLower_unicode (s : string) : string := String.concat EmptyString (map lower_rune (segments s)).
Definition sensitive_fragments : list string :=
  ["authorization"; "credential"; "password"; "secret"; "signature"; "token"; "cookie"; "database_url"; "dsn"]%string.
Definition sensitiveLogKey (key : string) : bool :=
  let normalized := ToLower_unicode (TrimSpace key) in
  contains_string ["error"; "err"; "cause"]%string normalized || existsb (strings_Contains normalized) sensitive_fragments.

(** [Resolve] asks a value for its value at most 100 times. *)
Definition maxLogValues : nat := 100.
Fixpoint redact_value (asks : nat) (key : string) (v : LogValue) : LogValue :=
  if sensitiveLogKey key then LogString redactedValue
  else match asks with
  | O => LogAny "LogValue called too many times"
  | S asks =>
      match v with
      | LogValuer v' => redact_value asks key v'
      | LogGroup attributes => LogGroup (map (fun '(k, x) => (k, redact_value maxLogValues k x)) attributes)
      | _ => v
      end
  end.
Definition redactAttribute (attribute : Attr) : Attr := (fst attribute, redact_value maxLogValues (fst attribute) (snd attribute)).

Section Logging.
Context `{U : UUIDLib}.
Record CorrelationFields := mkCorrelationFields {
  cf_RequestID : string; cf_RunID : ID; cf_TaskID : ID; cf_Provider : Code; cf_InstrumentID : ID; cf_InstrumentCode : Code }.
Definition no_correlation : CorrelationFields := mkCorrelationFields EmptyString 0%N 0%N EmptyString 0%N EmptyString.
Definition if_given {A} (zero : A -> bool) (value current : A) : A := if zero value then current else value.
(** The fields of a context after [WithCorrelation]. *)
Definition WithCorrelation (merged fields : CorrelationFields) : CorrelationFields :=
  mkCorrelationFields (if_given (fun s => s =s EmptyString) (cf_RequestID fields) (cf_RequestID merged))
    (if_given id_IsZero (cf_RunID fields) (cf_RunID merged)) (if_given id_IsZero (cf_TaskID fields) (cf_TaskID merged))
    (if_given code_IsZero (cf_Provider fields) (cf_Provider merged)) (if_given id_IsZero (cf_InstrumentID fields) (cf_InstrumentID merged))
    (if_given code_IsZero (cf_InstrumentCode fields) (cf_InstrumentCode merged)).
Definition attribute_if (given : bool) (key value : string) : list Attr := if given then [(key, LogString value)] else [].
Definition correlationAttributes (f : CorrelationFields) : list Attr :=
  attribute_if (cf_RequestID f <>s EmptyString) "request_id" (cf_RequestID f)
  ++ attribute_if (negb (id_IsZero (cf_RunID f))) "run_id" (uuid_String (cf_RunID f))
  ++ attribute_if (negb (id_IsZero (cf_TaskID f))) "task_id" (uuid_String (cf_TaskID f))
  ++ attribute_if (negb (code_IsZero (cf_Provider f))) "provider" (cf_Provider f)
  ++ attribute_if (negb (id_IsZero (cf_InstrumentID f))) "instrument_id" (uuid_String (cf_InstrumentID f))
  ++ attribute_if (negb (code_IsZero (cf_InstrumentCode f))) "instrument_code" (cf_InstrumentCode f).

(** A logger of [NewJSONLogger] at level [minimum] with the attributes of its
    [With]s; what its handler is given is redacted. *)
Record Logger := mkLogger { lg_minimum : Z; lg_attrs : list Attr }.
Definition NewJSONLogger (minimum : Z) : Logger := mkLogger minimum [].
Definition With (l : Logger) (attributes : list Attr) : Logger := mkLogger (lg_minimum l) (lg_attrs l ++ map redactAttribute attributes).
Definition Enabled (l : Logger) (level : Z) : bool := lg_minimum l <=? level.
Definition Log {W} `{!LogSink W} (l : Logger) (level : Z) (message : string) (attributes : list Attr) : M W unit :=
  if Enabled l level then log_write (mkLogRecord level message (lg_attrs l ++ map redactAttribute attributes)) else mret tt.
(** The logger and the fields of a context. *)
Definition LoggerFromContext (l : Logger) (f : CorrelationFields) : Logger := With l (correlationAttributes f).
End Logging.

(** ** net/http: [ServeMux] *)
(** A pattern's method and segments. Only whole segments are wildcards. *)
Definition is_wildcard (segment : string) : bool := String.prefix "{" segment.
Definition wildcard_name (segment : string) : string := String.substring 1 (String.length segment - 2) segment.
(** [url.PathUnescape] of a segment, which stays as it is when it is malformed. *)
Fixpoint path_unescape (s : string) : option string :=
  match s with
  | EmptyString => Some EmptyString
  | String c s' =>
      if is_byte 37 c then
        match s' with
        | String h (String l rest) =>
            if is_hex h && is_hex l then option_map (String (chr (hex_byte h * 16 + hex_byte l))) (path_unescape rest) else None
        | _ => None
        end
      else option_map (String c) (path_unescape s')
  end.
Definition pathUnescape (s : string) : string := default s (path_unescape s).
(** The values of the wildcards of the segments, the last first. *)
Fixpoint match_path (pattern path : list string) (values : gmap string string) : option (gmap string string) :=
  match pattern, path with
  | [], [] => Some values
  | p :: pattern, s :: path =>
      let s := pathUnescape s in
      if is_wildcard p then (if s =s EmptyString then None else match_path pattern path (<[wildcard_name p := s]> values))
      else if p =s s then match_path pattern path values else None
  | _, _ => None
  end.
Definition pattern_path (pattern : string) : string := snd (Cut 32 pattern).
Definition match_route (path pattern : string) : option (gmap string string) := match_path (Split 47 (pattern_path pattern)) (Split 47 path) ∅.
(** A [GET] pattern also matches [HEAD]. *)
Definition method_matches (method pattern : string) : bool :=
  let m := fst (Cut 32 pattern) in (m =s method) || ((m =s "GET") && (method =s "HEAD")).

Section Mux.
Context {W : Type}.
(** The handler, pattern and wildcards of a request for a path. The patterns
    of the service do not overlap, so that the first that matches is the only
    one. *)
Fixpoint find_route (routes : Routes W) (method path : string) : option (string * Handler W * gmap string string) :=
  match routes with
  | [] => None
  | (pattern, handler) :: rest =>
      match match_route path pattern with
      | Some values => if method_matches method pattern then Some (pattern, handler, values) else find_route rest method path
      | None => find_route rest method path
      end
  end.
(** [http.Error] *)
Definition http_Error (writer : ResponseWriter) (message : string) (status : Z) : ResponseWriter :=
  let writer := mkResponseWriter (Header_Del (rw_Header writer) "Content-Length") (rw_Status writer) (rw_Body writer) in
  let writer := SetHeader (SetHeader writer "Content-Type" "text/plain; charset=utf-8") "X-Content-Type-Options" "nosniff" in
  Write (WriteHeader writer status) (message ++ newline)%string.
(** The methods of the patterns that match the path, in order. *)
Definition matchingMethods (routes : Routes W) (path : string) : list string :=
  let methods := map (fun r => fst (Cut 32 (fst r))) (List.filter (fun r => not_nil (match_route path (fst r))) routes) in
  let methods := if contains_string methods "GET" then "HEAD"%string :: methods else methods in
  map fst (sort_keys (map (fun m => (m, m)) (remove_dups methods))).
(** What a request becomes once the mux has served it: its pattern and path
    values are set. *)
Definition seen_request (routes : Routes W) (path : string) (request : Request) : string * Request :=
  match find_route routes (req_Method request) path with
  | Some (pattern, _, values) =>
      (pattern, mkRequest (req_Method request) (req_RawQuery request) (req_Header request) values (req_Body request) (req_Context request))
  | None => (EmptyString, request)
  end.
(** [ServeHTTP] for a path that is clean. *)
Definition ServeMux (routes : Routes W) (path : string) : Handler W := fun writer request =>
  match find_route routes (req_Method request) path with
  | Some (_, handler, _) => handler writer (snd (seen_request routes path request))
  | None =>
      match matchingMethods routes path with
      | [] => mret (http_Error writer "404 page not found" 404)
      | methods => mret (http_Error (SetHeader writer "Allow" (String.concat ", " methods)) "Method Not Allowed" 405)
      end
  end.
End Mux.

(** ** api/httpapi/observability.go *)
Definition unmatchedRoute : string := "unmatched".
(** [observedResponseWriter] around the connection's writer. *)
Record observedResponseWriter := mkObserved {
  ow_ResponseWriter : ResponseWriter; ow_status : Z; ow_bytesWritten : Z; ow_committed : bool; ow_committedBeforeRecovery : bool }.
Definition observe_writer (w : ResponseWriter) : observedResponseWriter := mkObserved w 0 0 false false.
Definition ow_WriteHeader (w : observedResponseWriter) (status : Z) : observedResponseWriter :=
  if ow_committed w then w
  else mkObserved (WriteHeader (ow_ResponseWriter w) status) status (ow_bytesWritten w) true (ow_committedBeforeRecovery w).
Definition ow_Write (w : observedResponseWriter) (body : string) : observedResponseWriter :=
  let w := if ow_committed w then w else ow_WriteHeader w 200 in
  mkObserved (Write (ow_ResponseWriter w) body) (ow_status w) (ow_bytesWritten w + slen body) (ow_committed w) (ow_committedBeforeRecovery w).
Definition ow_SetHeader (w : observedResponseWriter) (key value : string) : observedResponseWriter :=
  mkObserved (SetHeader (ow_ResponseWriter w) key value) (ow_status w) (ow_bytesWritten w) (ow_committed w) (ow_committedBeforeRecovery w).
Definition statusCode (w : observedResponseWriter) : Z := if ow_status w =? 0 then 200 else ow_status w.

(** What the observing writer of a fresh connection is when the writer under
    it is [w]: handlers are functions of the latter. *)
Definition observed (w : ResponseWriter) : observedResponseWriter :=
  mkObserved w (default 0 (rw_Status w)) (slen (rw_Body w)) (not_nil (rw_Status w)) false.
Lemma observed_fresh w : rw_Status w = None -> rw_Body w = EmptyString -> observed w = observe_writer w.
Proof. intros Hs Hb. unfold observed, observe_writer. by rewrite Hs, Hb. Qed.
Lemma observed_WriteHeader w status : observed (WriteHeader w status) = ow_WriteHeader (observed w) status.
Proof. destruct w as [h [s|] b]; reflexivity. Qed.
Lemma observed_Write w body : observed (Write w body) = ow_Write (observed w) body.
Proof. destruct w as [h [s|] b]; unfold observed, ow_Write, slen; cbn; rewrite string_length_app, Nat2Z.inj_add; reflexivity. Qed.
Lemma observed_SetHeader w key value : observed (SetHeader w key value) = ow_SetHeader (observed w) key value.
Proof. by destruct w. Qed.

Definition accessLogLevel (status : Z) (recovered : bool) : Z :=
  if recovered || (500 <=? status) then LevelError
  else if (status =? 404) || (status <? 400) then LevelInfo
  else LevelWarn.
Definition routeForLog (pattern : string) : string :=
  if pattern =s EmptyString then unmatchedRoute
  else if has_byte 32 pattern then snd (Cut 32 pattern) else pattern.
Fixpoint firstNonEmpty (values : list string) : string :=
  match values with [] => EmptyString | v :: rest => if v <>s EmptyString then v else firstNonEmpty rest end.
(** [URL.Query]: the pairs of the query that can be read. *)
Definition read_pair (values : gmap string (list string)) (pair : string) : gmap string (list string) :=
  default values (parse_pair (Some values) pair).
Definition URL_Query (query : string) : gmap string (list string) :=
  let pairs := Split 38 query in
  if urlMaxQueryParams <? llen pairs then ∅ else fold_left read_pair pairs ∅.
Definition Values_Get (values : gmap string (list string)) (key : string) : string := List.hd EmptyString (default [] (values !! key)).

Section Middleware.
Context `{U : UUIDLib} {W : Type} `{S : !LogSink W} `{R : !MetricsRegistry W} (newID : M W ID) (now : M W Time) (logger : Logger).

Definition parsed {A} (zero : A) (r : result A) : A := match r with Ok a => a | _ => zero end.
Definition requestCorrelation (request : Request) : CorrelationFields :=
  let query := URL_Query (req_RawQuery request) in
  mkCorrelationFields EmptyString
    (parsed 0%N (ParseID (firstNonEmpty [PathValue request "run_id"; Values_Get query "run_id"])))
    (parsed 0%N (ParseID (PathValue request "task_id")))
    (parsed EmptyString (ParseCode (Values_Get query "provider"))) 0%N
    (parsed EmptyString (ParseCode (Values_Get query "instrument_code"))).

(** How a handler ends: it returns, or panics, with what is written by then. *)
Inductive Ended := Returned (writer : ResponseWriter) | Panicked (writer : ResponseWriter).
Definition returning (h : Handler W) : ResponseWriter -> Request -> M W Ended := fun writer request =>
  writer <-- h writer request ;; mret (Returned writer).

(** The observers are the metrics registry's. [seen] is what the request is
    after it has been served. *)
Definition access_attributes (request : Request) (route : string) (response : observedResponseWriter) (duration : Duration) (recovered : bool) : list Attr :=
  [("http_method", LogString (req_Method request)); ("http_route", LogString route); ("status_code", LogInt64 (statusCode response));
   ("duration_ms", LogInt64 (Z.quot duration Millisecond)); ("response_bytes", LogInt64 (ow_bytesWritten response))]%string
  ++ if recovered then [("panic_recovered", LogBool true); ("response_committed", LogBool (ow_committedBeforeRecovery response))]%string else [].
Definition recover_response (request : Request) (ended : Ended) : M W observedResponseWriter :=
  match ended with
  | Returned writer => mret (observed writer)
  | Panicked writer =>
      let before := observed writer in
      let committed := ow_committed before in
      writer <-- (if committed then mret writer
                  else WriteError newID writer request (NewError ErrorCodeInternal "internal server error" false NoDetails)) ;;
      let response := observed writer in
      mret (mkObserved (ow_ResponseWriter response) (ow_status response) (ow_bytesWritten response) (ow_committed response) committed)
  end.
Definition ObservabilityMiddleware (seen : Request -> string * Request) (next : ResponseWriter -> Request -> M W Ended) : Handler W := fun writer request =>
  startedAt <-- now ;;
  let requestID := RequestIDFromContext (req_Context request) in
  let correlation := WithCorrelation no_correlation (mkCorrelationFields requestID 0%N 0%N EmptyString 0%N EmptyString) in
  ended <-- next writer request ;;
  let recovered := match ended with Panicked _ => true | Returned _ => false end in
  response <-- recover_response request ended ;;
  let status := statusCode response in
  finishedAt <-- now ;;
  let duration := let d := Sub finishedAt startedAt in if d <? 0 then 0 else d in
  let '(pattern, request) := seen request in
  let route := routeForLog pattern in
  _ <-- metrics_update (ObserveHTTPRequest (req_Method request) route status duration) ;;
  _ <-- Log (LoggerFromContext logger (WithCorrelation correlation (requestCorrelation request))) (accessLogLevel status recovered)
          "http request completed" (access_attributes request route response duration recovered) ;;
  mret (ow_ResponseWriter response).
End Middleware.
