(* ===== verification/Main.v ===== *)
(** * cmd/market-info, cmd/market-info-migrate, database/postgres/pool.go and
      database/migrations/migrations.go: the composition of the process

    The database pool, the migration provider and the host that runs the
    components are the world's; the dependencies the tests replace are the ones
    [entrypoint] gives. *)
From S2P Require Import Prelude Errors GoStrings GoTime GoJson External Domain MarketData Calendar CatchUp Incremental Ports Registry Ingestion Service ManualTasks Worker Application Listing Subscriptions IngestionQueries MarketQueries InstrumentOptions ProviderStatus GoText GoJsonTree HttpCore HttpQueries HttpManagement ProviderClient Bybit CoinGecko Longbridge Config ServiceHost Observability HttpServer.
Open Scope go_scope.

(** ** database/migrations/migrations.go *)
Definition VersionTable : string := "market_data.schema_migrations".
Definition LatestVersion : Z := 7.
(** Package database/sql and goose. *)
Class MigrationDB (W : Type) := {
  sql_Open : string -> M W unit;
  sql_Exec : string -> M W unit;
  goose_NewProvider : string -> M W unit;
  goose_Up : M W unit;
  sql_Close : M W unit }.

(** [defer cleanup()], after [body]. *)
Definition with_deferred {W A} (cleanup : M W unit) (body : M W A) : M W A :=
  outcome <-- mtry body ;; _ <-- mtry cleanup ;; mlift outcome.

Section Migrations.
Context {W : Type} `{DB : MigrationDB W}.
Definition PrepareSchema : M W unit := mwrap "prepare market_data schema" (sql_Exec "CREATE SCHEMA IF NOT EXISTS market_data").
Definition NewProvider : M W unit := mwrap "create migration provider" (goose_NewProvider VersionTable).
Definition apply_migrations : M W unit :=
  _ <-- PrepareSchema ;;
  _ <-- mwrap "create migration provider" NewProvider ;;
  mwrap "apply migrations" goose_Up.
Definition Up : M W unit := apply_migrations.

(** ** cmd/market-info-migrate/main.go *)
Definition migrate_run (lookup : LookupEnv) : M W unit :=
  match lookup "MARKET_INFO_MIGRATION_DATABASE_URL"%string with
  | None => mthrow (Plain "MARKET_INFO_MIGRATION_DATABASE_URL is required")
  | Some databaseURL =>
      mfailif databaseURL =s EmptyString, Plain "MARKET_INFO_MIGRATION_DATABASE_URL is required" ;;
      _ <-- mwrap "open database" (sql_Open databaseURL) ;;
      with_deferred sql_Close (mwrap "migrate database" Up)
  end.
(** The exit code of a process. *)
Definition exit_code {A} (outcome : result A) : option Z := match outcome with Ok _ => Some 0 | Err _ => Some 1 | Diverge => None end.
Definition migrate_entrypoint (lookup : LookupEnv) : M W (option Z) := outcome <-- mtry (migrate_run lookup) ;; mret (exit_code outcome).
End Migrations.

(** ** database/postgres/pool.go *)
Record PoolConfig := mkPoolConfig {
  pool_DatabaseURL : string; pool_MaxConns : Z; pool_MinConns : Z; pool_MaxConnLifetime : Duration; pool_HealthCheckPeriod : Duration }.
(** Package pgxpool: a configuration parsed from a URL, with the limits set. *)
Class PgxPool (W : Type) := {
  pgx_Config : Type;
  pgx_ParseConfig : string -> result pgx_Config;
  pgx_limits : pgx_Config -> PoolConfig -> pgx_Config;
  pgxpool_NewWithConfig : pgx_Config -> M W unit;
  pool_Close : M W unit }.
Section Pool.
Context {W : Type} `{P : PgxPool W} `{R : !ReadinessDB W}.
Definition ParsePoolConfig (c : PoolConfig) : result pgx_Config :=
  failif pool_DatabaseURL c =s EmptyString, Plain "database URL is required" ;;
  failif pool_MaxConns c <=? 0, Plain "max connections must be positive" ;;
  failif pool_MinConns c <? 0, Plain "min connections must not be negative" ;;
  failif pool_MaxConns c <? pool_MinConns c, Plain "min connections must be less than or equal to max connections" ;;
  failif pool_MaxConnLifetime c <=? 0, Plain "max connection lifetime must be positive" ;;
  failif pool_HealthCheckPeriod c <=? 0, Plain "health check period must be positive" ;;
  poolConfig <- wrap "parse database URL" (pgx_ParseConfig (pool_DatabaseURL c)) ;;
  Ok (pgx_limits poolConfig c).
(** A pool that does not answer is closed. *)
Definition OpenPool (c : PoolConfig) : M W unit :=
  poolConfig <-- mlift (ParsePoolConfig c) ;;
  _ <-- mwrap "open PostgreSQL pool" (pgxpool_NewWithConfig poolConfig) ;;
  pinged <-- mtry db_Ping ;;
  match pinged with
  | Err e => _ <-- mtry pool_Close ;; mthrow (Wrap "ping PostgreSQL" e)
  | _ => mlift pinged
  end.
End Pool.

(** ** cmd/market-info/main.go *)
Definition parseRuntimeMode (args : list string) : result string :=
  match args with
  | _ :: _ :: _ => Err (Plain "expected at most one runtime mode argument")
  | _ =>
      let mode := match args with [mode] => mode | _ => RuntimeModeServe end in
      if contains_string [RuntimeModeServe; RuntimeModeWorker; RuntimeModeAll] mode then Ok mode
      else Err (Plain "unsupported mode")
  end.
Definition pool_config (c : Config.Config) : PoolConfig :=
  mkPoolConfig (DatabaseURL c) (DBMaxConns c) (DBMinConns c) (DBMaxConnLife c) (DBHealthPeriod c).
Definition process_logger : Logger := HttpServer.With (NewJSONLogger LevelInfo) [("service"%string, LogString "market-info-service")].

Section HttpServer.
Context `{D : DecimalLib} `{T : TzLib} `{U : UUIDLib} {W : Type}
  `{!ReadinessDB W} `{!QueryCatalog W} `{!BarReader W} `{!LatestQuoteReader W} `{!InstrumentOptionsReader W} `{!SubscriptionStore W}
  `{!IngestionQueryReader W} `{!BackfillStore W} `{!ManualTaskStore W} `{!IngestionStore W} `{!MetricsRegistry W} `{!LogSink W}
  (read_task_metrics : Time -> M W TaskMetricsSnapshot) (status_sources : Time -> M W (list ProviderStatusSource)) (now : M W Time) (newID : M W ID).

(** The handler of a path, and the routes of the mux. *)
Definition http_routes (backfillAttempts retryAttempts latest : Z) (calendar : TradingCalendar) (entries : list staticEntry) : result (Routes W) :=
  let A := static_authenticator_of (W := W) entries in
  let source := {| ReadTaskMetrics := read_task_metrics; ListProviders := ProviderStatusService_List calendar status_sources now |} in
  let check := Checker_Check latest in
  subscriptions <- wrap "register subscription routes" (RegisterSubscriptionRoutes newID (A := A) (S := subscription_service now newID)) ;;
  backfills <- wrap "register backfill routes" (RegisterBackfillRoutes newID (A := A) (S := backfill_service now newID backfillAttempts)) ;;
  queries <- wrap "register ingestion query routes" (RegisterIngestionQueryRoutes newID (A := A) (S := ingestion_query_service)) ;;
  commands <- wrap "register ingestion task command routes"
    (RegisterIngestionTaskCommandRoutes newID (A := A) (S := manual_task_service now newID Refresh retryAttempts)) ;;
  statuses <- wrap "register provider status routes" (RegisterProviderStatusRoutes newID (A := A) (S := provider_status_service now calendar status_sources)) ;;
  let public := @RegisterPublicQueryRoutes _ _ _ newID (instrument_options_service now) (instrument_precision_service now)
                  (latest_quotes_service now) (bars_service now) in
  Ok (health_routes check ++ metrics_routes (S := source) check now ++ public ++ subscriptions ++ backfills ++ queries ++ commands ++ statuses).
Definition server_handler (routes : Routes W) (path : string) : Handler W :=
  WithRequestID newID (ObservabilityMiddleware newID now process_logger (seen_request routes path) (returning (ServeMux routes path))).

Definition buildHTTPServer (c : Config.Config) : result (ServerConfig * (string -> Handler W)) :=
  latest <- wrap "create readiness checker" (NewChecker LatestVersion) ;;
  wrap "create health handler" (NewHealthHandler (ReadinessTimeout c)) ;;;
  backfillAttempts <- wrap "create backfill service" (NewBackfillService 0) ;;
  retryAttempts <- wrap "create ingestion task command service" (NewManualTaskService 0) ;;
  nyse <- wrap "create US trading calendar" (NewNYSECalendar []) ;;
  calendar <- wrap "create provider status service" (NewProviderStatusService (nyse_TradingCalendar nyse)) ;;
  wrap "create metrics handler" (NewMetricsHandler (ReadinessTimeout c)) ;;;
  adminPrincipal <- wrap "create admin principal"
    (NewPrincipal (AdminSubject c) "user" [PermissionOperationsRead; PermissionSubscriptionsManage; PermissionIngestionManage]) ;;
  authenticator <- wrap "create admin authenticator" (NewStaticBearerAuthenticator [mkStaticCredential (AdminBearerToken c) adminPrincipal]) ;;
  routes <- http_routes backfillAttempts retryAttempts latest calendar authenticator ;;
  server <- wrap "create HTTP server"
    (NewServer (mkServerConfig (HTTPAddress c) (ReadTimeout c) (WriteTimeout c) (IdleTimeout c) (ShutdownTimeout c))) ;;
  Ok (server, server_handler routes).
End HttpServer.

(** *** The worker and the scheduler *)
(** What a component's runner is built of. *)
Inductive Runner `{D : DecimalLib} (W : Type) :=
  | HttpRunner (server : ServerConfig) (handler : string -> Handler W)
  | SchedulerRunner (interval : Duration) (scheduler : IncrementalScheduler)
  | WorkerRunner (worker : WorkerConfig) (service : Ingestion.Config) (registry : Registry W).
#[global] Arguments HttpRunner {D W} server handler.
#[global] Arguments SchedulerRunner {D W} interval scheduler.
#[global] Arguments WorkerRunner {D W} worker service registry.
Definition Component `{D : DecimalLib} (W : Type) : Type := string * Runner W.

Section Background.
Context `{D : DecimalLib} `{T : TzLib} `{U : UUIDLib} `{L : HttpLib} {W : Type} `{!HttpClient W} `{!Client W} `{!Sdk W} `{!SdkErrors}
  (now : M W Time) (ctxErr : M W (option error)) (newID : M W ID).

(** [closeAll] closes the adapters that are closed, the last first, and joins
    their errors; [sessions] is how many there are. *)
Fixpoint closeAll (sessions : nat) : M W unit :=
  match sessions with
  | O => mret tt
  | S sessions =>
      closed <-- mtry Longbridge.Close ;;
      rest <-- mtry (closeAll sessions) ;;
      match closed, rest with
      | Err e, Err e' => mthrow (Join e e')
      | Err e, Ok _ => mthrow e
      | _, _ => mlift rest
      end
  end.
(** The adapters of the enabled providers, in order, and the number of those
    to close. *)
Fixpoint build_adapters (c : Config.Config) (calendar : TradingCalendar) (providers : list string) (sessions : nat) (adapters : list (MarketDataAdapter W)) :
    M W (list (MarketDataAdapter W) * nat) :=
  let fail {A} (text : string) (r : error) : M W A := _ <-- mtry (closeAll sessions) ;; mthrow (Wrap text r) in
  match providers with
  | [] => mret (adapters, sessions)
  | code :: rest =>
      if code =s "bybit" then
        match Bybit.New (ProviderClient.mkHttpConfig (BybitBaseURL c) EmptyString 0) with
        | Ok a => build_adapters c calendar rest sessions (adapters ++ [Bybit.market_data_adapter now ctxErr a])
        | Err e => fail "create Bybit adapter"%string e
        | Diverge => mlift Diverge
        end
      else if code =s "coingecko" then
        match CoinGecko.New (ProviderClient.mkHttpConfig (CoinGeckoBaseURL c) EmptyString 0) with
        | Ok a => build_adapters c calendar rest sessions (adapters ++ [CoinGecko.market_data_adapter now ctxErr a])
        | Err e => fail "create CoinGecko adapter"%string e
        | Diverge => mlift Diverge
        end
      else if code =s "longbridge" then
        built <-- mtry (Longbridge.NewFromEnvironment None (Some calendar)) ;;
        match built with
        | Ok a => build_adapters c calendar rest (S sessions) (adapters ++ [Longbridge.market_data_adapter now ctxErr a])
        | Err e => fail "create Longbridge adapter"%string e
        | Diverge => mlift Diverge
        end
      else _ <-- mtry (closeAll sessions) ;; mthrow (Plain "unsupported configured provider")
  end.
Definition buildAdapterRegistry (c : Config.Config) (calendar : TradingCalendar) : M W (Registry W * nat) :=
  do* (adapters, sessions) := build_adapters c calendar (EnabledProviders c) 0 [] ;;
  built <-- mtry (NewRegistry (map Some adapters)) ;;
  match built with
  | Ok registry => mret (registry, sessions)
  | Err e => _ <-- mtry (closeAll sessions) ;; mthrow (Wrap "create adapter registry" e)
  | Diverge => mlift Diverge
  end.

(** The worker and the scheduler of a worker identity. *)
Definition components_of (c : Config.Config) (calendar : TradingCalendar) (registry : Registry W) (service : Ingestion.Config) (workerID : string) :
    result (list (Component W)) :=
  let worker := mkWorkerConfig workerID (WorkerConcurrency c) (WorkerLeaseDuration c) (WorkerPollInterval c) (WorkerClaimErrorBackoff c) in
  wrap "create ingestion worker" (validateConfig worker) ;;;
  incremental <- wrap "create incremental scheduler" (NewIncrementalScheduler (mkIncrementalConfig 0 0 0 0) calendar) ;;
  interval <- wrap "create scheduler loop" (NewSchedulerLoop (SchedulerInterval c)) ;;
  Ok [("scheduler"%string, SchedulerRunner interval incremental); ("worker"%string, WorkerRunner worker service registry)].
(** A failure after the registry is built closes the adapters. *)
Definition worker_components (c : Config.Config) (calendar : TradingCalendar) (registry : Registry W) : M W (list (Component W)) :=
  service <-- mlift (wrap "create ingestion service" (NewServiceConfig (Ingestion.mkConfig (IngestionBarsPerPage c) (IngestionMaximumPages c) [] 0))) ;;
  workerID <-- (if WorkerID c =s EmptyString
                then id <-- mwrap "create worker identity" (mwrap "generate UUIDv7" newID) ;; mret ("market-info-worker-" ++ uuid_String id)%string
                else mret (WorkerID c)) ;;
  mlift (components_of c calendar registry service workerID).
Definition buildBackgroundComponents (c : Config.Config) : M W (list (Component W) * nat) :=
  nyse <-- mlift (wrap "create worker US trading calendar" (NewNYSECalendar [])) ;;
  let calendar := nyse_TradingCalendar nyse in
  do* (registry, sessions) := buildAdapterRegistry c calendar ;;
  built <-- mtry (worker_components c calendar registry) ;;
  match built with
  | Ok components => mret (components, sessions)
  | Err e => _ <-- mtry (closeAll sessions) ;; mthrow e
  | Diverge => mlift Diverge
  end.
End Background.

(** *** The process *)
Section Process.
Context `{D : DecimalLib} `{T : TzLib} `{U : UUIDLib} `{L : HttpLib} {W : Type} `{!HttpClient W} `{!Client W} `{!Sdk W} `{!SdkErrors}
  `{P : !PgxPool W} `{!ReadinessDB W} `{!QueryCatalog W} `{!BarReader W} `{!LatestQuoteReader W} `{!InstrumentOptionsReader W} `{!SubscriptionStore W}
  `{!IngestionQueryReader W} `{!BackfillStore W} `{!ManualTaskStore W} `{!IngestionStore W} `{!MetricsRegistry W} `{!LogSink W}
  (read_task_metrics : Time -> M W TaskMetricsSnapshot) (status_sources : Time -> M W (list ProviderStatusSource))
  (now : M W Time) (ctxErr : M W (option error)) (newID : M W ID)
  (host_run : list (Component W) -> M W unit).       (* [servicehost.Run] *)

(** [slogSchedulerReporter] and the worker's [ReportError] *)
Definition report_scheduler (report : ServiceHost.Report) : M W unit :=
  match report with
  | ReportResult r => Log process_logger LevelInfo "incremental scheduler cycle completed"
      [("scanned_subscriptions", LogInt64 (res_ScannedSubscriptions r)); ("due_windows", LogInt64 (res_DueWindows r));
       ("created_runs", LogInt64 (res_CreatedRuns r)); ("existing_runs", LogInt64 (res_ExistingRuns r));
       ("recovered_tasks", LogInt64 (res_RecoveredTasks r))]%string
  | ReportError _ => Log process_logger LevelError "incremental scheduler cycle failed" [("error_code", LogString "scheduler_cycle_failed")]%string
  end.
Definition report_worker_error : M W unit :=
  Log process_logger LevelError "ingestion worker iteration failed" [("error_code", LogString "worker_iteration_failed")]%string.

Definition mode_in (modes : list string) (mode : string) : bool := contains_string modes mode.
Definition run_components (c : Config.Config) (mode : string) : M W unit :=
  http <-- (if mode_in [RuntimeModeServe; RuntimeModeAll] mode
            then server <-- mlift (buildHTTPServer read_task_metrics status_sources now newID c) ;; mret [("http"%string, HttpRunner (fst server) (snd server))]
            else mret []) ;;
  do* (background, sessions) := (if mode_in [RuntimeModeWorker; RuntimeModeAll] mode then buildBackgroundComponents now ctxErr newID c else mret ([], O)) ;;
  ran <-- mtry (host_run (http ++ background)) ;;
  closed <-- mtry (closeAll sessions) ;;
  match ran, closed with
  | Err e, Err e' => mthrow (Wrap ("run " ++ mode ++ " mode") (Join e e'))
  | Err e, _ => mthrow (Wrap ("run " ++ mode ++ " mode") e)
  | _, Err e' => mthrow (Wrap ("close " ++ mode ++ " mode adapters") e')
  | _, _ => mret tt
  end.
Definition run (environment : LookupEnv) (args : list string) : M W unit :=
  mode <-- mlift (parseRuntimeMode args) ;;
  c <-- mlift (wrap "load configuration" (LoadForMode environment mode)) ;;
  _ <-- mwrap "open database pool" (OpenPool (pool_config c)) ;;
  with_deferred pool_Close (run_components c mode).
Definition entrypoint (environment : LookupEnv) (args : list string) : M W (option Z) :=
  outcome <-- mtry (run environment args) ;;
  _ <-- (match outcome with
         | Err _ => Log process_logger LevelError "market information service stopped" [("error_code", LogString "service_failed")]%string
         | _ => mret tt end) ;;
  mret (exit_code outcome).
End Process.
