(* ===== verification/ProcessFacts.v ===== *)
(** * Facts about the process

    What a run opens it closes; what starts of an accepted configuration; the
    pages of the default configuration are larger than a CoinGecko request may
    be; what every request to the server is answered and logged. *)
From S2P Require Import Prelude Errors GoStrings GoTime GoJson External Domain MarketData Calendar CatchUp Incremental Ports Registry Ingestion Service ManualTasks Worker Application Listing Subscriptions IngestionQueries MarketQueries InstrumentOptions ProviderStatus GoText GoJsonTree HttpCore HttpQueries HttpManagement ProviderClient ServiceFacts Bybit CoinGecko Longbridge Config ServiceHost Observability HttpServer Main.
Open Scope go_scope.

(** ** Resources *)
(** What a computation does to a count of open resources, by its outcome. *)
Section Shift.
Context {W : Type} (held : W -> Z).
Definition shifts {A} (c : M W A) (d : result A -> Z) : Prop := forall w r w', c w = (r, w') -> r <> Diverge -> held w' = held w + d r.
Definition quiet {A} (c : M W A) : Prop := shifts c (fun _ => 0).

Lemma shifts_ret {A} (a : A) : quiet (mret a).
Proof. intros w r w' [= <- <-] _. lia. Qed.
Lemma shifts_throw {A} e : quiet (mthrow e : M W A).
Proof. intros w r w' [= <- <-] _. lia. Qed.
Lemma shifts_lift {A} (r : result A) : quiet (mlift r : M W A).
Proof. intros w r' w' [= <- <-] _. lia. Qed.
(** The rule of [mbind], with a postcondition [Q] of the first computation. *)
Lemma shifts_bind_post {A B} (Q : A -> Prop) (c : M W A) (k : A -> M W B) d (dk : A -> result B -> Z) d' : shifts c d ->
  (forall w a w', c w = (Ok a, w') -> Q a) -> (forall a, Q a -> shifts (k a) (dk a)) ->
  (forall e, d' (Err e) = d (Err e)) -> (forall a r, r <> Diverge -> d' r = d (Ok a) + dk a r) -> shifts (mbind c k) d'.
Proof.
  intros Hc Hq Hk He Ha w r w'. unfold mbind. destruct (c w) as [[a|e|] w1] eqn:E; intros H Hr.
  - specialize (Hc _ _ _ E ltac:(discriminate)). specialize (Hk _ (Hq _ _ _ E) _ _ _ H Hr). rewrite (Ha a r Hr). lia.
  - injection H as <- <-. rewrite He. by apply (Hc _ _ _ E).
  - injection H as <- <-. contradiction.
Qed.
Lemma shifts_bind {A B} (c : M W A) (k : A -> M W B) d (dk : A -> result B -> Z) d' : shifts c d -> (forall a, shifts (k a) (dk a)) ->
  (forall e, d' (Err e) = d (Err e)) -> (forall a r, r <> Diverge -> d' r = d (Ok a) + dk a r) -> shifts (mbind c k) d'.
Proof. intros Hc Hk. apply (shifts_bind_post (fun _ => True)); auto. Qed.
Lemma quiet_bind {A B} (c : M W A) (k : A -> M W B) : quiet c -> (forall a, quiet (k a)) -> quiet (mbind c k).
Proof. intros Hc Hk. apply (shifts_bind c k (fun _ => 0) (fun _ _ => 0)); auto. Qed.
(** A quiet step first, or last. *)
Lemma shifts_after {A B} (c : M W A) (k : A -> M W B) d : quiet c -> (forall e, d (Err e) = 0) -> (forall a, shifts (k a) d) -> shifts (mbind c k) d.
Proof. intros Hc He Hk. apply (shifts_bind c k (fun _ => 0) (fun _ => d)); auto. Qed.
Lemma shifts_try {A} (c : M W A) d : shifts c d -> shifts (mtry c) (fun r => match r with Ok r => d r | _ => 0 end).
Proof.
  intros Hc w r w'. unfold mtry. destruct (c w) as [[a|e|] w1] eqn:E; intros [= <- <-] Hr; [| | contradiction]; by apply (Hc _ _ _ E).
Qed.
Lemma quiet_try {A} (c : M W A) : quiet c -> quiet (mtry c).
Proof. intros Hc. apply shifts_try in Hc. intros w r w' H Hr. specialize (Hc w r w' H Hr). destruct r; exact Hc. Qed.
Lemma shifts_wrap {A} text (c : M W A) d : shifts c d -> (forall e e', d (Err e) = d (Err e')) -> shifts (mwrap text c) d.
Proof.
  intros Hc He w r w'. unfold mwrap. destruct (c w) as [[a|e|] w1] eqn:E; intros [= <- <-] Hr; [| | contradiction].
  - by apply (Hc _ _ _ E).
  - rewrite (He (Wrap text e) e). by apply (Hc _ _ _ E).
Qed.
(** [err := c], and then the rest: [mtry] itself does not fail. *)
Lemma shifts_try_bind {A B} (c : M W A) (k : result A -> M W B) d (dk : result A -> result B -> Z) d' : shifts c d ->
  (forall r, shifts (k r) (dk r)) -> (forall r r', r <> Diverge -> d' r' = d r + dk r r') -> shifts (mbind (mtry c) k) d'.
Proof.
  intros Hc Hk Hd w r w'. unfold mbind, mtry. destruct (c w) as [[a|e|] w1] eqn:E; intros H Hr; [| | injection H as <- <-; contradiction].
  - specialize (Hc _ _ _ E ltac:(discriminate)). specialize (Hk _ _ _ _ H Hr). rewrite (Hd (Ok a) r) by discriminate. lia.
  - specialize (Hc _ _ _ E ltac:(discriminate)). specialize (Hk _ _ _ _ H Hr). rewrite (Hd (Err e) r) by discriminate. lia.
Qed.
(** A failure after a cleanup. *)
Lemma shifts_fail {A B} (c : M W A) e k (d : result B -> Z) : shifts c (fun _ => k) -> d (Err e) = k -> shifts (_ <-- mtry c ;; mthrow e) d.
Proof.
  intros Hc Hd w r w'. unfold mbind, mtry, mthrow. destruct (c w) as [[a|e'|] w1] eqn:E; intros [= <- <-] Hr; [| | contradiction];
    rewrite Hd; by apply (Hc _ _ _ E).
Qed.
Lemma shifts_eq {A} (c : M W A) d d' : shifts c d -> (forall r, d' r = d r) -> shifts c d'.
Proof. intros Hc He w r w' H Hr. rewrite He. by apply Hc. Qed.
End Shift.

Section Releases.
Context `{D : DecimalLib} `{T : TzLib} `{U : UUIDLib} `{L : HttpLib} {W : Type} `{!HttpClient W} `{!Client W} `{!Sdk W} `{!SdkErrors}
  `{P : !PgxPool W} `{!ReadinessDB W} `{!QueryCatalog W} `{!BarReader W} `{!LatestQuoteReader W} `{!InstrumentOptionsReader W} `{!SubscriptionStore W}
  `{!IngestionQueryReader W} `{!BackfillStore W} `{!ManualTaskStore W} `{!IngestionStore W} `{!MetricsRegistry W} `{!LogSink W}
  (read_task_metrics : Time -> M W TaskMetricsSnapshot) (status_sources : Time -> M W (list ProviderStatusSource))
  (now : M W Time) (ctxErr : M W (option error)) (newID : M W ID) (host_run : list (Component W) -> M W unit).

(** A count of what is open, in which a pool weighs [a] and a session of the
    SDK [b]: they are opened and closed one at a time, and nothing else,
    a run of the components included, opens or closes one for good. *)
Context (held : W -> Z) (a b : Z).
Record accounted : Prop := mkAccounted {
  acc_open : forall c, shifts held (pgxpool_NewWithConfig c) (fun r => if is_ok r then a else 0);
  acc_close : shifts held pool_Close (fun _ => - a);
  acc_ping : quiet held db_Ping;
  acc_config : quiet held lbconfig_New;
  acc_connect : forall c, shifts held (lbquote_NewFromCfg c) (fun r => if is_ok r then b else 0);
  acc_disconnect : shifts held client_Close (fun _ => - b);
  acc_context : quiet held ctxErr;
  acc_identity : quiet held newID;
  acc_host : forall components, quiet held (host_run components) }.
Context (Hacc : accounted).

Lemma closeAll_shifts sessions : shifts held (closeAll sessions) (fun _ => - (Z.of_nat sessions * b)).
Proof.
  induction sessions as [|n IH]; cbn [closeAll]; [apply (shifts_eq _ _ _ _ (shifts_ret held tt)); intros; lia |].
  apply (shifts_try_bind held _ _ _ (fun _ _ => - (Z.of_nat n * b)) _ (acc_disconnect Hacc)); [| intros; lia]. intros closed.
  apply (shifts_try_bind held _ _ _ (fun _ _ => 0) _ IH); [| intros; lia]. intros rest.
  destruct closed, rest; first [apply shifts_throw | apply shifts_lift].
Qed.

(** The outcome of a step that gives the sessions it opened beyond [before]. *)
Definition opened {A} (before : nat) (r : result (A * nat)) : Z :=
  match r with Ok (_, after) => (Z.of_nat after - Z.of_nat before) * b | _ => - (Z.of_nat before * b) end.
Lemma closing_shifts {A} before e (d : result A -> Z) : d (Err e) = - (Z.of_nat before * b) ->
  shifts held (_ <-- mtry (closeAll before) ;; mthrow e : M W A) d.
Proof. apply shifts_fail, closeAll_shifts. Qed.
Lemma NewFromEnvironment_shifts location calendar : shifts held (Longbridge.NewFromEnvironment location calendar) (fun r => if is_ok r then b else 0).
Proof.
  unfold Longbridge.NewFromEnvironment. apply shifts_after; [apply (shifts_wrap held _ _ _ (acc_config Hacc)); reflexivity | reflexivity |]. intros sdk.
  unfold Longbridge.NewFromSDKConfig.
  apply (shifts_bind held _ _ (fun r => if is_ok r then b else 0) (fun _ r => if is_ok r then 0 else - b)); [| | reflexivity | intros ? [] ?; cbn; lia].
  - apply (shifts_wrap held _ _ _ (acc_connect Hacc sdk)). reflexivity.
  - intros _. destruct (Longbridge.New location calendar) as [adapter|e|].
    + intros w r w' [= <- <-] _. cbn. lia.
    + by apply (shifts_fail held _ _ _ _ (acc_disconnect Hacc)).
    + intros w r w' [= <- <-]. contradiction.
Qed.

(** The capabilities of an adapter the process builds only ask the context. *)
Lemma Capabilities_quiet (l : ProviderCapabilities) : quiet held (canceled <-- ctxErr ;; match canceled with Some e => mthrow e | None => mret l end).
Proof. apply quiet_bind; [apply (acc_context Hacc) |]. intros [e|]; [apply shifts_throw | apply shifts_ret]. Qed.
Definition quiet_adapter (a : MarketDataAdapter W) : Prop := quiet held (adapter_Capabilities a).

Lemma build_adapters_shifts c calendar providers sessions adapters : Forall quiet_adapter adapters ->
  shifts held (build_adapters now ctxErr c calendar providers sessions adapters) (opened sessions)
  /\ forall w l after w', build_adapters now ctxErr c calendar providers sessions adapters w = (Ok (l, after), w') -> Forall quiet_adapter l.
Proof.
  revert sessions adapters. induction providers as [|code rest IH]; intros sessions adapters Ha; cbn [build_adapters].
  { split; [| intros w l after w' [= <- _ _]; exact Ha]. intros w r w' [= <- <-] _. cbn. lia. }
  assert (forall x, quiet_adapter x -> Forall quiet_adapter (adapters ++ [x])) as Hsnoc.
  { intros x Hq. apply List.Forall_app. split; [exact Ha | by constructor]. }
  assert (forall e, shifts held (_ <-- mtry (closeAll sessions) ;; mthrow e : M W (list (MarketDataAdapter W) * nat)) (opened sessions)
    /\ forall w l after w', (_ <-- mtry (closeAll sessions) ;; mthrow e : M W (list (MarketDataAdapter W) * nat)) w = (Ok (l, after), w') -> Forall quiet_adapter l) as Hfail.
  { intros e. split; [by apply closing_shifts |]. intros w l after w' Hw. unfold mbind, mtry in Hw. destruct (closeAll sessions w) as [[?|?|] w1]; discriminate Hw. }
  destruct (code =s "bybit"); [destruct (Bybit.New _) as [x|e|]; [apply IH, Hsnoc, Capabilities_quiet | apply Hfail | split; [intros w r w' [= <- <-]; contradiction | discriminate]] |].
  destruct (code =s "coingecko"); [destruct (CoinGecko.New _) as [x|e|]; [apply IH, Hsnoc, Capabilities_quiet | apply Hfail | split; [intros w r w' [= <- <-]; contradiction | discriminate]] |].
  destruct (code =s "longbridge"); [| apply Hfail]. split.
  - apply (shifts_try_bind held _ _ _ (fun built r => match built with Ok _ => opened (S sessions) r | _ => opened sessions r end) _
      (NewFromEnvironment_shifts None (Some calendar))).
    + intros [x|e|]; [apply IH, Hsnoc, Capabilities_quiet | apply Hfail | intros w r w' [= <- <-]; contradiction].
    + intros [x|e|] r Hr; [| reflexivity | contradiction]. cbn [is_ok]. destruct r as [[l after]|e|]; cbn [opened]; lia.
  - intros w l after w' Hw. minv. destruct a0 as [x|e|]; [| by apply Hfail in Hw | discriminate Hw].
    by apply IH in Hw; [| apply Hsnoc, Capabilities_quiet].
Qed.

Lemma register_adapters_quiet registry adapters : Forall quiet_adapter adapters -> quiet held (register_adapters registry (map Some adapters)).
Proof.
  intros Ha. revert registry. induction Ha as [|x l Hx _ IH]; intros registry; cbn [map register_adapters]; [apply shifts_ret |].
  destruct (code_IsZero _); [apply shifts_throw |]. destruct (not_nil _); [apply shifts_throw |].
  apply quiet_bind; [by apply (shifts_wrap held _ _ (fun _ => 0)) |]. intros capabilities. destruct (_ <>s _); [apply shifts_throw |].
  apply quiet_bind; [apply shifts_lift |]. intros _. apply IH.
Qed.
Lemma opened_next {A B} before (x : A) between (r : result (B * nat)) : r <> Diverge ->
  opened before r = opened before (Ok (x, between)) + opened between r.
Proof. intros Hr. destruct r as [[y after]|e|]; cbn [opened]; [lia | lia | contradiction]. Qed.
(** Once the sessions are open: a step that needs none, and its failure closes them. *)
Lemma built_shifts {A B} sessions (c : M W A) (f : A -> B) text : quiet held c ->
  shifts held (built <-- mtry c ;; match built with Ok x => mret (f x, sessions) | Err e => _ <-- mtry (closeAll sessions) ;; mthrow (text e) | Diverge => mlift Diverge end)
    (opened sessions).
Proof.
  intros Hc. apply (shifts_try_bind held _ _ (fun _ => 0) (fun _ => opened sessions) _ Hc); [| reflexivity].
  intros [x|e|]; [intros w r w' [= <- <-] _; cbn; lia | by apply closing_shifts | intros w r w' [= <- <-]; contradiction].
Qed.

Lemma buildAdapterRegistry_shifts c calendar : shifts held (buildAdapterRegistry now ctxErr c calendar) (opened 0).
Proof.
  destruct (build_adapters_shifts c calendar (EnabledProviders c) 0 [] (List.Forall_nil _)) as [Hs Ha]. unfold buildAdapterRegistry.
  apply (shifts_bind_post held (fun x => Forall quiet_adapter (fst x)) _ _ (opened 0) (fun x => opened (snd x)) _ Hs); [| | reflexivity |].
  - intros w [l after] w' E. by apply (Ha w l after w').
  - intros [l after] Hl. apply (built_shifts after (NewRegistry (map Some l)) (fun x => x) (Wrap "create adapter registry")). apply quiet_bind; [by apply register_adapters_quiet | intros; apply shifts_ret].
  - intros [l after] r. apply opened_next.
Qed.
Lemma worker_components_quiet c calendar registry : quiet held (worker_components newID c calendar registry).
Proof.
  unfold worker_components. apply quiet_bind; [apply shifts_lift | intros service]. apply quiet_bind.
  - destruct (WorkerID c =s EmptyString); [| apply shifts_ret]. apply quiet_bind; [| intros id; apply shifts_ret].
    apply (shifts_wrap held _ _ (fun _ => 0)); [| reflexivity]. apply (shifts_wrap held _ _ (fun _ => 0)); [| reflexivity]. apply (acc_identity Hacc).
  - intros workerID. apply shifts_lift.
Qed.
Lemma buildBackgroundComponents_shifts c : shifts held (buildBackgroundComponents now ctxErr newID c) (opened 0).
Proof.
  unfold buildBackgroundComponents. apply shifts_after; [apply shifts_lift | reflexivity |]. intros nyse.
  apply (shifts_bind held _ _ (opened 0) (fun x => opened (snd x)) _ (buildAdapterRegistry_shifts c (nyse_TradingCalendar nyse))); [| reflexivity |].
  - intros [registry sessions]. apply (built_shifts sessions (worker_components newID c (nyse_TradingCalendar nyse) registry) (fun x => x) (fun e => e)), worker_components_quiet.
  - intros [registry sessions] r. apply opened_next.
Qed.
Lemma run_components_quiet c mode : quiet held (run_components read_task_metrics status_sources now ctxErr newID host_run c mode).
Proof.
  unfold run_components. apply quiet_bind.
  { destruct (mode_in _ mode); [| apply shifts_ret]. apply quiet_bind; [apply shifts_lift | intros server; apply shifts_ret]. }
  intros http. set (background := if mode_in _ mode then _ else _). assert (shifts held background (opened 0)) as Hb.
  { unfold background. destruct (mode_in _ mode); [apply buildBackgroundComponents_shifts |]. intros w r w' [= <- <-] _. cbn. lia. }
  apply (shifts_bind held _ _ (opened 0) (fun x _ => - (Z.of_nat (snd x) * b)) _ Hb); [| reflexivity | intros [components sessions] r _; cbn; lia].
  intros [components sessions]. cbn [snd].
  apply (shifts_try_bind held _ _ _ (fun _ _ => - (Z.of_nat sessions * b)) _ (acc_host Hacc _)); [| intros; lia]. intros ran.
  apply (shifts_try_bind held _ _ _ (fun _ _ => 0) _ (closeAll_shifts sessions)); [| intros; lia]. intros closed.
  destruct ran, closed; first [apply shifts_throw | apply shifts_ret].
Qed.
Lemma OpenPool_shifts c : shifts held (OpenPool c) (fun r => if is_ok r then a else 0).
Proof.
  unfold OpenPool. apply shifts_after; [apply shifts_lift | reflexivity |]. intros pool.
  apply (shifts_bind held _ _ (fun r => if is_ok r then a else 0) (fun _ r => if is_ok r then 0 else - a)); [| | reflexivity | intros ? [] ?; cbn; lia].
  - apply (shifts_wrap held _ _ _ (acc_open Hacc pool)). reflexivity.
  - intros _. apply (shifts_try_bind held _ _ (fun _ => 0) (fun _ r => if is_ok r then 0 else - a) _ (acc_ping Hacc)); [| intros; lia].
    intros [u|e|]; [intros w r w' [= <- <-] _; cbn; lia | by apply (shifts_fail held _ _ _ _ (acc_close Hacc)) | intros w r w' [= <- <-]; contradiction].
Qed.

(** C7. A run of the service ends with as many pools and sessions of the SDK open as it began with, however it ends: a database that does not
    answer, an adapter, a component or the host that fails, or a run that is canceled. *)
Theorem run_releases environment args w r w' :
  run read_task_metrics status_sources now ctxErr newID host_run environment args w = (r, w') -> r <> Diverge -> held w' = held w.
Proof.
  assert (quiet held (run read_task_metrics status_sources now ctxErr newID host_run environment args)) as Hq.
  { unfold run. apply quiet_bind; [apply shifts_lift | intros mode]. apply quiet_bind; [apply shifts_lift | intros c].
    apply (shifts_bind held _ _ (fun r => if is_ok r then a else 0) (fun _ _ => - a)); [| | reflexivity | intros ? ? _; cbn; lia].
    - apply (shifts_wrap held _ _ _ (OpenPool_shifts _)). reflexivity.
    - intros _. unfold with_deferred. apply (shifts_try_bind held _ _ (fun _ => 0) (fun _ _ => - a) _ (run_components_quiet c mode)); [| intros; lia].
      intros outcome. apply (shifts_try_bind held _ _ _ (fun _ _ => 0) _ (acc_close Hacc)); [intros _; apply shifts_lift | intros; lia]. }
  intros Hw Hr. rewrite (Hq _ _ _ Hw Hr). lia.
Qed.
End Releases.

(** ** The pages of the default configuration *)
(** A setting that is not given, or that does not write the field [f], leaves it. *)
Lemma load_settings_keeps {A V} (f : Config.Config -> V) lookup (parse : string -> option A) items c c' :
  (forall item, In item items -> default EmptyString (lookup (fst item)) = EmptyString \/ forall v c, f (snd item v c) = f c) ->
  load_settings lookup parse items c = Ok c' -> f c' = f c.
Proof.
  revert c. induction items as [|item items IH]; intros c Hi H; cbn [load_settings] in H; [by apply Ok_inj in H as -> |].
  apply rbind_ok in H as (c1 & H1 & H). rewrite (IH c1 (fun x Hx => Hi x (or_intror Hx)) H). unfold load_setting in H1.
  destruct (lookup (fst item)) as [value|] eqn:El; [| by apply Ok_inj in H1 as ->]. destruct (String.eqb_spec value EmptyString) as [_|Hv]; [by apply Ok_inj in H1 as -> |].
  destruct (parse value) as [v|]; [| discriminate H1]. apply Ok_inj in H1 as <-. destruct (Hi item (or_introl eq_refl)) as [Hn|Hk]; [| apply Hk].
  rewrite El in Hn. contradiction.
Qed.
Definition not_given (lookup : LookupEnv) (name : string) : Prop := default EmptyString (lookup name) = EmptyString.
Lemma default_page_size lookup mode c : not_given lookup "MARKET_INFO_INGESTION_BARS_PER_PAGE" -> LoadForMode lookup mode = Ok c -> IngestionBarsPerPage c = 500.
Proof.
  intros Hn H. unfold LoadForMode, LoadFromForMode in H. cbv zeta in H. apply rbind_ok in H as (c0 & H0 & H). apply rbind_ok in H as (c1 & H1 & H).
  apply rbind_ok in H as (c2 & H2 & H). apply rbind_ok in H as (c3 & H3 & H). apply rbind_ok in H as (u & _ & H). apply Ok_inj in H as <-.
  assert (IngestionBarsPerPage c0 = 500) as E0.
  { destruct (lookup _) as [value|] in H0; [| by apply Ok_inj in H0 as <-]. destruct (value =s EmptyString); [by apply Ok_inj in H0 as <- |].
    apply rbind_ok in H0 as (providers & _ & H0). by apply Ok_inj in H0 as <-. }
  rewrite <- E0. transitivity (IngestionBarsPerPage c2); [| transitivity (IngestionBarsPerPage c1)].
  - refine (load_settings_keeps _ _ _ _ _ _ _ H3). intros item [<-|[<-|[<-|[]]]]; [right; reflexivity | left; exact Hn | right; reflexivity].
  - refine (load_settings_keeps _ _ _ _ _ _ _ H2). intros item [<-|[<-|[]]]; right; reflexivity.
  - refine (load_settings_keeps _ _ _ _ _ _ _ H1). intros item Hi. right. unfold durations in Hi. cbn [In] in Hi.
    repeat destruct Hi as [<-|Hi]; [reflexivity.. | destruct Hi].
Qed.

Section PageLimit.
Context `{D : DecimalLib} `{T : TzLib} `{U : UUIDLib} `{L : HttpLib} {W : Type} `{!HttpClient W} `{!Client W} `{!Sdk W} `{!SdkErrors}
  (now : M W Time) (ctxErr : M W (option error)).
Definition coingecko_capabilities : ProviderCapabilities :=
  mkProviderCapabilities "coingecko" [mkProviderMarketCapability CoinGecko.fxMarket [AssetTypeFX] [InstrumentTypeFX] true true [BarInterval1Day]
    CoinGecko.maxQuoteBatchSize CoinGecko.maxBarsPerRequest].
(** The only adapter of the code [coingecko] is CoinGecko's. *)
Definition coingecko_only (x : MarketDataAdapter W) : Prop := adapter_ProviderCode x = "coingecko"%string ->
  forall w l w', adapter_Capabilities x w = (Ok l, w') -> l = coingecko_capabilities.

Lemma adapter_code package name defaultURL limit config x : ParseCode name = Ok name ->
  new_adapter package name defaultURL limit config = Ok x -> ProviderClient.ad_providerCode x = name.
Proof.
  intros Hp Hn. unfold new_adapter in Hn. cbv zeta in Hn. destruct (url_Parse _) as [u|]; [| discriminate Hn]. destruct (negb (usable_base u)); [discriminate Hn |].
  rewrite Hp in Hn. cbn [wrap rbind] in Hn. destruct (_ <? 0); [discriminate Hn |]. destruct (_ || _); [discriminate Hn |]. by apply Ok_inj in Hn as <-.
Qed.
Lemma longbridge_code location calendar w x w' : Longbridge.NewFromEnvironment location calendar w = (Ok x, w') -> Longbridge.ad_providerCode x = "longbridge"%string.
Proof.
  unfold Longbridge.NewFromEnvironment, Longbridge.NewFromSDKConfig. intros Hn. minv. destruct (Longbridge.New location calendar) as [y|e|] eqn:E.
  - injection Hn as -> _. unfold Longbridge.New in E. apply rbind_ok in E as (code & Hc & E). apply rbind_ok in E as (l & _ & E).
    apply rbind_ok in E as (cal & _ & E). destruct (is_nil _); [discriminate E |]. apply Ok_inj in E as <-. by apply Ok_inj in Hc as <-.
  - minv.
  - discriminate Hn.
Qed.
Lemma build_adapters_coingecko c calendar providers sessions adapters l after w w' : Forall coingecko_only adapters ->
  build_adapters now ctxErr c calendar providers sessions adapters w = (Ok (l, after), w') -> Forall coingecko_only l
  /\ (forall x, In x adapters -> In x l) /\ (In "coingecko"%string providers -> exists x, In x l /\ adapter_ProviderCode x = "coingecko"%string).
Proof.
  revert sessions adapters w. induction providers as [|code rest IH]; intros sessions adapters w Ha Hb; cbn [build_adapters] in Hb.
  { injection Hb as <- <- <-. split; [exact Ha |]. split; [auto | intros []]. }
  assert (forall e w0 w2, (_ <-- mtry (closeAll sessions) ;; mthrow e : M W (list (MarketDataAdapter W) * nat)) w0 = (Ok (l, after), w2) -> False) as Hfail.
  { intros e w0 w2 Hf. unfold mbind, mtry in Hf. destruct (closeAll sessions w0) as [[?|?|] w1]; discriminate Hf. }
  assert (forall x w0 s, coingecko_only x -> (code = "coingecko"%string -> adapter_ProviderCode x = "coingecko"%string) ->
    build_adapters now ctxErr c calendar rest s (adapters ++ [x]) w0 = (Ok (l, after), w') -> Forall coingecko_only l
    /\ (forall x, In x adapters -> In x l) /\ (In "coingecko"%string (code :: rest) -> exists x, In x l /\ adapter_ProviderCode x = "coingecko"%string)) as Hnext.
  { intros x w0 s Hx Hc Hn. apply IH in Hn as (I1 & I2 & I3); [| apply List.Forall_app; split; [exact Ha | by constructor]].
    split; [exact I1 |]. split; [intros y Hy; apply I2, in_app_iff; by left |]. intros [->|Hin]; [| by apply I3].
    exists x. split; [apply I2, in_app_iff; right; by left | by apply Hc]. }
  destruct (String.eqb_spec code "bybit") as [->|N1].
  { destruct (Bybit.New _) as [x|e|] eqn:E; [| by apply Hfail in Hb | discriminate Hb]. apply adapter_code in E; [| reflexivity].
    revert Hb. apply Hnext; [| discriminate]. intros Hc. cbn in Hc. rewrite E in Hc. discriminate Hc. }
  destruct (String.eqb_spec code "coingecko") as [->|N2].
  { destruct (CoinGecko.New _) as [x|e|] eqn:E; [| by apply Hfail in Hb | discriminate Hb]. apply adapter_code in E; [| reflexivity].
    revert Hb. apply Hnext; [| intros _; exact E]. intros _ w1 caps w2 Hcaps. cbn in Hcaps. unfold CoinGecko.Capabilities in Hcaps. rewrite E in Hcaps.
    minv. destruct a as [e|]; [discriminate Hcaps |]. by injection Hcaps as <- _. }
  destruct (String.eqb_spec code "longbridge") as [->|N3]; [| by apply Hfail in Hb].
  minv. destruct a as [x|e|]; [| by apply Hfail in Hb | discriminate Hb].
  revert Hb. apply Hnext; [| discriminate]. intros Hc. cbn in Hc.
  match goal with M : Longbridge.NewFromEnvironment _ _ _ = _ |- _ => apply longbridge_code in M; rewrite M in Hc end. discriminate Hc.
Qed.

(** What the registry holds of CoinGecko. *)
Definition coingecko_entry (r : Registry W) : Prop := forall e, reg_entries r !! "coingecko"%string = Some e -> entry_capabilities e = coingecko_capabilities.
Lemma register_adapters_coingecko adapters r w r' w' : Forall coingecko_only adapters -> coingecko_entry r ->
  register_adapters r (map Some adapters) w = (Ok r', w') -> coingecko_entry r'.
Proof.
  intros Ha. revert r w. induction Ha as [|x l Hx _ IH]; intros r w Hr Hn; cbn [map register_adapters] in Hn; [by injection Hn as <- _ |].
  minv. revert Hn. apply IH. intros e He. cbn [reg_entries] in He. destruct (decide (adapter_ProviderCode x = "coingecko"%string)) as [Ec|Ec].
  - rewrite Ec, lookup_insert_eq in He. injection He as <-. cbn [entry_capabilities]. by eapply (Hx Ec).
  - rewrite lookup_insert_ne in He by exact Ec. by apply Hr.
Qed.
Lemma registry_coingecko c calendar w registry sessions w' : buildAdapterRegistry now ctxErr c calendar w = (Ok (registry, sessions), w') ->
  coingecko_entry registry /\ (In "coingecko"%string (EnabledProviders c) -> exists e, reg_entries registry !! "coingecko"%string = Some e).
Proof.
  unfold buildAdapterRegistry. intros Hb. minv. destruct a as [l after]. minv. destruct a as [r|e|]; [| exfalso; minv | discriminate Hb].
  injection Hb as <- <- _. match goal with M : build_adapters _ _ _ _ _ _ _ _ = _, N : NewRegistry _ _ = _ |- _ => rename M into Hbuild, N into Hnew end.
  apply build_adapters_coingecko in Hbuild as (Hl & _ & Hex); [| constructor]. split.
  - unfold NewRegistry in Hnew. minv. intros e He. cbn [reg_entries] in He.
    match goal with M : register_adapters _ _ _ = _ |- _ => revert He; apply (register_adapters_coingecko l _ _ _ _ Hl) in M; [apply M |] end.
    intros e' He'. discriminate (eq_trans (eq_sym (lookup_empty _)) He').
  - intros Hin. destruct (Hex Hin) as (x & Hx & Ec). destruct (new_registry_spec _ _ _ _ Hnew) as (l' & El & _ & _ & Hget & _).
    assert (l = l') as <-. { clear -El. revert l' El. induction l as [|y l IH]; intros [|y' l'] E; try discriminate E; [reflexivity |]. injection E as -> E. f_equal. by apply IH. }
    specialize (Hget x Hx). unfold registry_Get in Hget. rewrite Ec in Hget. destruct (reg_entries r !! "coingecko"%string) as [e|]; [by exists e | discriminate Hget].
Qed.

(** A page of more than 366 bars is never fetched from CoinGecko. *)
Definition limit_exceeded : error := Wrap "validate bars request for provider" (Sentinel ErrProviderLimitExceeded).
Lemma coingecko_request_refused registry request : coingecko_entry registry -> ref_ProviderCode (fbr_Instrument request) = "coingecko"%string ->
  CoinGecko.maxBarsPerRequest < fbr_Limit request -> is_ok (ValidateBarsRequest registry request) = false.
Proof.
  intros He Hc Hl. unfold ValidateBarsRequest. destruct (wrap _ (request_Validate request)); cbn [rbind is_ok]; try reflexivity.
  unfold registry_entry. rewrite Hc. cbn [code_IsZero]. destruct (code_IsZero _); [reflexivity |].
  destruct (reg_entries registry !! "coingecko"%string) as [e|] eqn:E; cbn [rbind is_ok]; [| reflexivity]. rewrite (He e E).
  unfold matchingCapability. cbn [coingecko_capabilities pc_Markets List.find]. destruct (capability_matches _ _); [| reflexivity].
  cbn [pmc_SupportsBars pmc_Intervals pmc_MaxBarsPerRequest negb orb]. destruct (negb _); [reflexivity |].
  apply Z.ltb_lt in Hl. rewrite Hl. reflexivity.
Qed.
Lemma coingecko_daily_refused registry request : coingecko_entry registry -> (exists e, reg_entries registry !! "coingecko"%string = Some e) ->
  request_Validate request = Ok tt -> ref_ProviderCode (fbr_Instrument request) = "coingecko"%string ->
  ref_ProviderMarket (fbr_Instrument request) = CoinGecko.fxMarket -> ref_AssetType (fbr_Instrument request) = AssetTypeFX ->
  ref_InstrumentType (fbr_Instrument request) = InstrumentTypeFX -> fbr_Interval request = BarInterval1Day ->
  CoinGecko.maxBarsPerRequest < fbr_Limit request -> ValidateBarsRequest registry request = Err limit_exceeded.
Proof.
  intros He [e E] Hv Hc Hm Ha Hi Ht Hl. unfold ValidateBarsRequest. rewrite Hv. cbn [wrap rbind]. unfold registry_entry. rewrite Hc, E. cbn [rbind].
  change (code_IsZero "coingecko") with false. cbn [rbind]. rewrite (He e E). unfold matchingCapability, capability_matches. cbn [coingecko_capabilities pc_Markets List.find].
  cbn [pmc_ProviderMarket pmc_AssetTypes pmc_InstrumentTypes]. rewrite Hm, Ha, Hi. change (_ && _ && _) with true.
  cbn [pmc_SupportsBars pmc_Intervals pmc_MaxBarsPerRequest negb orb]. rewrite Ht. change (negb (contains_string [BarInterval1Day] BarInterval1Day)) with false.
  apply Z.ltb_lt in Hl. by rewrite Hl.
Qed.
Lemma coingecko_fetch_refused config registry adapter request w bars w' : coingecko_entry registry ->
  ref_ProviderCode (fbr_Instrument request) = "coingecko"%string -> CoinGecko.maxBarsPerRequest < fbr_Limit request ->
  fetchAllBars config registry ctxErr adapter request w = (Ok bars, w') -> False.
Proof.
  intros He Hc Hl. unfold fetchAllBars. destruct (Z.to_nat (conf_MaximumPages config)) as [|pages]; [discriminate |]. cbn [fetch_pages]. intros Hf. minv.
  match goal with x : option error |- _ => destruct x as [e|]; [discriminate Hf |] end. minv.
  pose proof (coingecko_request_refused registry request He Hc Hl) as Hr.
  match goal with V : ValidateBarsRequest _ _ = _ |- _ => rewrite V in Hr end. discriminate Hr.
Qed.
Lemma Reference_code x r : Reference x = Ok r -> ref_ProviderCode r = prov_Code (exec_Provider x).
Proof. unfold Reference. intros Hr. apply rbind_ok in Hr as (u & _ & Hr). cbv zeta in Hr. apply rbind_ok in Hr as (u' & _ & Hr). by apply Ok_inj in Hr as <-. Qed.

(** C8. With the default page size no bar is ever collected from CoinGecko: a configuration loaded without
    [MARKET_INFO_INGESTION_BARS_PER_PAGE] asks for 500 bars, the adapter the process registers accepts 366, and so no claim of a CoinGecko
    subscription is executed successfully; for a daily FX request the first page already fails, before the provider is asked, with an error
    that fails the task for good as [provider_limit_exceeded]. *)
Theorem coingecko_default_pages lookup mode c calendar w0 registry sessions w1 config :
  not_given lookup "MARKET_INFO_INGESTION_BARS_PER_PAGE" -> LoadForMode lookup mode = Ok c -> In "coingecko"%string (EnabledProviders c) ->
  buildAdapterRegistry now ctxErr c calendar w0 = (Ok (registry, sessions), w1) ->
  NewServiceConfig (Ingestion.mkConfig (IngestionBarsPerPage c) (IngestionMaximumPages c) [] 0) = Ok config ->
  conf_BarsPerPage config = 500
  /\ (forall (St : IngestionStore W) quality claim w w',
        (forall id w x w', LoadExecutionContext id w = (Ok x, w') -> prov_Code (exec_Provider x) = "coingecko"%string) ->
        executeClaim config registry now ctxErr quality claim w <> (Ok tt, w'))
  /\ (forall adapter request w w', ctxErr w = (Ok None, w') -> request_Validate request = Ok tt -> fbr_Limit request = conf_BarsPerPage config ->
        ref_ProviderCode (fbr_Instrument request) = "coingecko"%string -> ref_ProviderMarket (fbr_Instrument request) = CoinGecko.fxMarket ->
        ref_AssetType (fbr_Instrument request) = AssetTypeFX -> ref_InstrumentType (fbr_Instrument request) = InstrumentTypeFX ->
        fbr_Interval request = BarInterval1Day ->
        exists e, fetchAllBars config registry ctxErr adapter request w = (Err e, w')
          /\ forall claim at_, fail_Status (failureCommit config claim e at_) = taskStatusFailed
               /\ fail_ErrorCode (failureCommit config claim e at_) = "provider_limit_exceeded"%string).
Proof.
  intros Hn Hload Hin Hb Hconf. pose proof (default_page_size _ _ _ Hn Hload) as E500. apply registry_coingecko in Hb as [He Hex].
  assert (conf_BarsPerPage config = 500 /\ 0 < conf_MaximumPages config) as [Ec Hpages].
  { unfold NewServiceConfig in Hconf. destruct (_ || _) eqn:G in Hconf; [discriminate Hconf |]. cbn [conf_BarsPerPage conf_MaximumPages] in *. bsimp.
    apply rbind_ok in Hconf as (u & _ & Hconf). apply Ok_inj in Hconf as <-. cbn. split; [exact E500 | lia]. }
  split; [exact Ec |]. split.
  - intros St quality claim w w' Hcode Hrun. unfold executeClaim in Hrun. cbv zeta in Hrun. minv.
    match goal with M : LoadExecutionContext _ _ = (Ok ?x, _), R : Reference ?x = _ |- _ => apply Hcode in M; apply Reference_code in R; rewrite M in R; rename R into Hr end.
    destruct (registry_Get registry _) as [adapter|]; [| discriminate Hrun]. minv.
    match goal with M : fetchAllBars _ _ _ _ _ _ = _ |- _ => revert M; apply coingecko_fetch_refused; [exact He | exact Hr |] end.
    cbn [fbr_Limit]. rewrite Ec. reflexivity.
  - intros adapter request w w' Hctx Hv Hl H1 H2 H3 H4 H5. exists (Wrap "validate ingestion provider request" limit_exceeded). split; [| by split].
    unfold fetchAllBars. destruct (Z.to_nat (conf_MaximumPages config)) as [|pages] eqn:Ep; [lia |]. cbn [fetch_pages]. unfold mbind at 1. rewrite Hctx.
    rewrite (coingecko_daily_refused registry request He (Hex Hin) Hv H1 H2 H3 H4 H5) by (rewrite Hl, Ec; reflexivity). reflexivity.
Qed.
End PageLimit.

(** ** An accepted configuration *)
(** The conditions of a list of checks, from its success. *)
Ltac checks H := repeat (first
  [ let E := fresh "C" in match type of H with (if ?b then Err _ else _) = Ok _ => destruct b eqn:E; [discriminate H |] end
  | let u := fresh "u" in let E := fresh "C" in apply rbind_ok in H as (u & E & H)
  | match type of H with ?f _ ?k = Ok _ => unfold f in H end ]).

Lemma permission_set_ok seen l : List.NoDup l -> Forall (fun p => permission_Valid p = true /\ p ∉ seen) l -> exists s, permission_set seen l = Ok s.
Proof.
  intros Hn. revert seen. induction Hn as [|p l Hp _ IH]; intros seen Hl; cbn [permission_set]; [by eexists |]. inversion Hl as [|? ? [Hv Hs] Hl']; subst.
  rewrite Hv. cbn [negb]. rewrite bool_decide_eq_false_2 by exact Hs. apply IH. rewrite List.Forall_forall in *. intros q Hq. destruct (Hl' q Hq) as [Hqv Hqs].
  split; [exact Hqv |]. intros [->%elem_of_singleton|Hin]%elem_of_union; contradiction.
Qed.
Lemma NewPrincipal_valid subject actorType permissions p : NewPrincipal subject actorType permissions = Ok p ->
  (forall q, In q permissions -> permission_Valid q = true) -> principal_Validate p = Ok tt.
Proof.
  unfold principal_Validate, NewPrincipal. intros Hp Hv. destruct (negb (validAuditText subject _)) eqn:E1; [discriminate Hp |].
  destruct (negb (validActor actorType)) eqn:E2; [discriminate Hp |]. apply rbind_ok in Hp as (s & Hs & Hp). apply Ok_inj in Hp as <-.
  cbn [pr_subject pr_actorType]. rewrite E1, E2. unfold Permissions. cbn [pr_permissions].
  assert (forall q, q ∈ s -> permission_Valid q = true) as Hall.
  { assert (forall l seen s, permission_set seen l = Ok s -> forall q, q ∈ s -> q ∈ seen \/ In q l) as Hin.
    { clear. induction l as [|x l IH]; intros seen s Hs q Hq; cbn [permission_set] in Hs; [apply Ok_inj in Hs as <-; by left |].
      destruct (negb _); [discriminate Hs |]. destruct (bool_decide _); [discriminate Hs |].
      destruct (IH _ _ Hs q Hq) as [[->%elem_of_singleton|Hq']%elem_of_union|Hq']; [right; by left | by left | right; by right]. }
    intros q Hq. destruct (Hin _ _ _ Hs q Hq) as [Hq'|Hq']; [by apply not_elem_of_empty in Hq' | by apply Hv]. }
  destruct (permission_set_ok ∅ (elements s)) as [s' ->]; [apply NoDup_ListNoDup, NoDup_elements | | reflexivity].
  apply List.Forall_forall. intros q Hq. split; [apply Hall; by apply elem_of_elements, list_elem_of_In | apply not_elem_of_empty].
Qed.
Lemma token_accepted token : validCredentialText token 4096 = true -> NewBearerToken token = Ok token.
Proof.
  unfold validCredentialText, NewBearerToken. intros [H1 H2]%andb_true_iff. apply negb_true_iff in H1. unfold maximumBearerTokenLength. rewrite H1.
  replace (existsb _ (runes token)) with false; [reflexivity |]. symmetry. apply not_true_is_false. intros (c & Hc & Ec)%existsb_exists.
  rewrite forallb_forall in H2. specialize (H2 c Hc). by rewrite Ec in H2.
Qed.

Section Accepted.
Context `{D : DecimalLib} `{T : TzLib} `{U : UUIDLib} {W : Type}
  `{P : !PgxPool W} `{!ReadinessDB W} `{!QueryCatalog W} `{!BarReader W} `{!LatestQuoteReader W} `{!InstrumentOptionsReader W} `{!SubscriptionStore W}
  `{!IngestionQueryReader W} `{!BackfillStore W} `{!ManualTaskStore W} `{!IngestionStore W} `{!MetricsRegistry W} `{!LogSink W}
  (read_task_metrics : Time -> M W TaskMetricsSnapshot) (status_sources : Time -> M W (list ProviderStatusSource))
  (now : M W Time) (newID : M W ID).

Lemma protected_routes_ok {A : Authenticator W} routes : Forall (fun r => permission_Valid (snd (fst r)) = true) routes ->
  exists protected, protected_routes newID (A := A) routes = Ok protected.
Proof.
  induction 1 as [|[[pattern permission] handler] rest Hp _ [protected IH]]; cbn [protected_routes]; [by eexists |]. cbn [fst snd] in Hp.
  unfold protect, NewPermissionMiddleware. cbn [required_permissions]. rewrite Hp. cbn [negb]. rewrite bool_decide_eq_false_2 by apply not_elem_of_empty.
  cbn [rbind]. rewrite IH. by eexists.
Qed.
Lemma http_routes_ok backfillAttempts retryAttempts latest calendar entries :
  exists routes, http_routes read_task_metrics status_sources now newID backfillAttempts retryAttempts latest calendar entries = Ok routes.
Proof.
  unfold http_routes, RegisterSubscriptionRoutes, RegisterBackfillRoutes, RegisterIngestionQueryRoutes, RegisterIngestionTaskCommandRoutes, RegisterProviderStatusRoutes.
  cbv zeta.
  repeat match goal with |- context [protected_routes newID ?r] =>
    let p := fresh "p" in let E := fresh "E" in destruct (protected_routes_ok r) as [p E]; [repeat constructor | rewrite E; cbn [wrap rbind]; clear E] end.
  by eexists.
Qed.

Lemma load_validated lookup mode c : LoadForMode lookup mode = Ok c -> ValidateForMode c mode = Ok tt.
Proof.
  unfold LoadForMode, LoadFromForMode. cbv zeta. intros H. do 4 apply rbind_ok in H as (? & _ & H). apply rbind_ok in H as ([] & Hv & H). by apply Ok_inj in H as <-.
Qed.
Lemma positive_durations_ok items : positive_durations items = Ok tt -> Forall (fun i => 0 < snd i) items.
Proof.
  induction items as [|[name v] items IH]; cbn [positive_durations]; [constructor |]. destruct (Z.leb_spec v 0); [discriminate |]. intros Hp. constructor; [assumption | by apply IH].
Qed.
(** What the validation of a configuration has checked. *)
Record validated (c : Config.Config) (mode : string) : Prop := mkValidated {
  val_database : DatabaseURL c <> EmptyString /\ 0 < DBMaxConns c /\ 0 <= DBMinConns c <= DBMaxConns c /\ 0 < DBMaxConnLife c /\ 0 < DBHealthPeriod c;
  val_http : mode <> RuntimeModeWorker -> HTTPAddress c <> EmptyString /\ 0 < ReadTimeout c /\ 0 < WriteTimeout c /\ 0 < IdleTimeout c
    /\ 0 < ShutdownTimeout c /\ 0 < ReadinessTimeout c /\ validCredentialText (AdminBearerToken c) 4096 = true;
  val_subject : mode <> RuntimeModeWorker -> AdminSubject c <> EmptyString /\ TrimSpace (AdminSubject c) = AdminSubject c
    /\ RuneCountInString (AdminSubject c) <= 128;
  val_worker : mode <> RuntimeModeServe -> TrimSpace (WorkerID c) = WorkerID c /\ slen (WorkerID c) <= 128 /\ 0 < WorkerConcurrency c
    /\ 0 < WorkerLeaseDuration c /\ 0 < WorkerPollInterval c /\ 0 < WorkerClaimErrorBackoff c /\ 1 <= IngestionBarsPerPage c <= 1000
    /\ 1 <= IngestionMaximumPages c <= 100 /\ 0 < SchedulerInterval c }.
Lemma ValidateForMode_ok c mode : ValidateForMode c mode = Ok tt -> validated c mode.
Proof.
  unfold ValidateForMode. intros Hv. destruct (_ && _ && _); [discriminate Hv |]. destruct (String.eqb_spec (DatabaseURL c) EmptyString); [discriminate Hv |].
  destruct (Z.leb_spec (DBMaxConns c) 0); [discriminate Hv |]. destruct (Z.ltb_spec (DBMinConns c) 0); [discriminate Hv |].
  destruct (Z.ltb_spec (DBMaxConns c) (DBMinConns c)); [discriminate Hv |]. destruct (_ || _) eqn:E; [discriminate Hv |].
  apply orb_false_iff in E as [E1 E2]. apply Z.leb_gt in E1, E2. apply rbind_ok in Hv as (u & Hh & Hw). split; [by repeat split | intros Hm | intros Hm | intros Hm].
  - apply String.eqb_neq in Hm. rewrite Hm in Hh. cbn [negb] in Hh. unfold validate_http in Hh. apply rbind_ok in Hh as ([] & Hport & Hh).
    apply rbind_ok in Hh as ([] & Hd & Hh). apply positive_durations_ok in Hd. rewrite !List.Forall_cons_iff in Hd. cbn [snd] in Hd.
    destruct (negb _) eqn:Et in Hh; [discriminate Hh |]. apply negb_false_iff in Et. split; [| tauto].
    intros Ea. rewrite Ea in Hport. vm_compute in Hport. discriminate Hport.
  - apply String.eqb_neq in Hm. rewrite Hm in Hh. cbn [negb] in Hh. unfold validate_http in Hh. apply rbind_ok in Hh as ([] & _ & Hh).
    apply rbind_ok in Hh as ([] & _ & Hh). destruct (negb _) in Hh; [discriminate Hh |].
    destruct (_ || _ || _) eqn:Es in Hh; [discriminate Hh |]. apply orb_false_iff in Es as [Es E3]. apply orb_false_iff in Es as [E4 E5].
    apply String.eqb_neq in E4. apply negb_false_iff, String.eqb_eq in E5. apply Z.ltb_ge in E3. split; [exact E4 |]. split; [by symmetry | exact E3].
  - apply String.eqb_neq in Hm. rewrite Hm in Hw. unfold validate_worker in Hw. destruct (_ =? 0) in Hw; [discriminate Hw |]. apply rbind_ok in Hw as (ps & _ & Hw).
    destruct (_ || _) eqn:Ei in Hw; [discriminate Hw |]. apply orb_false_iff in Ei as [Ei El]. apply negb_false_iff, String.eqb_eq in Ei. apply Z.ltb_ge in El.
    destruct (Z.leb_spec (WorkerConcurrency c) 0) in Hw; [discriminate Hw |]. destruct (_ || _) eqn:Ew in Hw; [discriminate Hw |]. bsimp.
    destruct (_ || _) eqn:Eb in Hw; [discriminate Hw |]. destruct (_ || _) eqn:Ep in Hw; [discriminate Hw |]. bsimp.
    destruct (Z.leb_spec (SchedulerInterval c) 0) in Hw; [discriminate Hw |]. repeat split; try assumption; lia.
Qed.

Lemma admin_authenticator subject token p :
  validCredentialText token 4096 = true ->
  NewPrincipal subject "user" [PermissionOperationsRead; PermissionSubscriptionsManage; PermissionIngestionManage] = Ok p ->
  exists entries, NewStaticBearerAuthenticator [mkStaticCredential token p] = Ok entries.
Proof.
  intros Ht Hp. cbn [NewStaticBearerAuthenticator static_entries cred_Token cred_Principal]. rewrite (token_accepted _ Ht). cbn [is_err].
  rewrite (NewPrincipal_valid _ _ _ _ Hp); [cbn [is_err existsb rbind]; by eexists |]. intros q [<-|[<-|[<-|[]]]]; reflexivity.
Qed.
Lemma admin_principal subject :
  NewPrincipal subject "user" [PermissionOperationsRead; PermissionSubscriptionsManage; PermissionIngestionManage]
  = if validAuditText subject maximumSubjectLength
    then Ok (mkPrincipal subject "user" ({[PermissionIngestionManage]} ∪ ({[PermissionSubscriptionsManage]} ∪ ({[PermissionOperationsRead]} ∪ ∅))))
    else Err (Plain "invalid principal subject").
Proof. unfold NewPrincipal. destruct (validAuditText _ _); reflexivity. Qed.
Lemma zero_schedule calendar : cal_Location calendar <> None ->
  exists s, NewIncrementalScheduler (mkIncrementalConfig 0 0 0 0) calendar = Ok s.
Proof. intros Hc. unfold NewIncrementalScheduler. cbn. destruct (cal_Location calendar); [by eexists | contradiction]. Qed.

Lemma default_service pageSize pages : 0 < pageSize -> 0 < pages ->
  NewServiceConfig (Ingestion.mkConfig pageSize pages [] 0) = Ok (Ingestion.mkConfig pageSize pages defaultRetryBackoffs Hour).
Proof.
  intros H1 H2. unfold NewServiceConfig. cbn [conf_BarsPerPage conf_MaximumPages]. apply Z.leb_gt in H1, H2. rewrite H1, H2. reflexivity.
Qed.
Lemma worker_accepted c mode workerID : validated c mode -> mode <> RuntimeModeServe -> TrimSpace workerID = workerID -> workerID <> EmptyString -> slen workerID <= 128 ->
  validateConfig (mkWorkerConfig workerID (WorkerConcurrency c) (WorkerLeaseDuration c) (WorkerPollInterval c) (WorkerClaimErrorBackoff c)) = Ok tt.
Proof.
  intros Hv Hm Ht Hn Hl. destruct (val_worker _ _ Hv Hm) as (_ & _ & H3 & H4 & H5 & H6 & _). unfold validateConfig.
  cbn [wk_WorkerID wk_Concurrency wk_LeaseDuration wk_PollInterval wk_ClaimErrorBackoff]. rewrite Ht, String.eqb_refl. apply String.eqb_neq in Hn. rewrite Hn.
  unfold maximumWorkerIDLength. apply Z.ltb_ge in Hl. rewrite Hl. apply Z.leb_gt in H3, H4, H5, H6. by rewrite H3, H4, H5, H6.
Qed.

Lemma NewChecker_latest : NewChecker LatestVersion = Ok LatestVersion.
Proof. reflexivity. Qed.
Lemma NewBackfillService_0 : NewBackfillService 0 = Ok 5.
Proof. reflexivity. Qed.
Lemma NewManualTaskService_0 : NewManualTaskService 0 = Ok 5.
Proof. reflexivity. Qed.
Lemma positive_leb x : 0 < x -> (x <=? 0) = false.
Proof. intros Hx. apply Z.leb_gt. lia. Qed.
Lemma is_ok_bind {A B} (r : result A) (x : A) (k : A -> result B) : r = Ok x -> is_ok (rbind r k) = is_ok (k x).
Proof. by intros ->. Qed.
Lemma is_ok_wrap {A B} text (r : result A) (x : A) (k : A -> result B) : r = Ok x -> is_ok (rbind (wrap text r) k) = is_ok (k x).
Proof. by intros ->. Qed.
Lemma is_ok_wrap_err {A B} text (r : result A) e (k : A -> result B) : r = Err e -> is_ok (rbind (wrap text r) k) = false.
Proof. by intros ->. Qed.
Lemma nyse_location nyse : NewNYSECalendar [] = Ok nyse -> cal_Location (nyse_TradingCalendar nyse) <> None.
Proof.
  unfold NewNYSECalendar. intros Hn. destruct (load_location _); [| discriminate Hn]. apply Ok_inj in Hn as <-. discriminate.
Qed.

Lemma pool_accepted c mode : validated c mode ->
  ParsePoolConfig (pool_config c) = (settings <- wrap "parse database URL" (pgx_ParseConfig (DatabaseURL c)) ;; Ok (pgx_limits settings (pool_config c))).
Proof.
  intros [(H1 & H2 & H3 & H4 & H5) _ _]. unfold ParsePoolConfig. cbn [pool_config pool_DatabaseURL pool_MaxConns pool_MinConns pool_MaxConnLifetime pool_HealthCheckPeriod].
  apply String.eqb_neq in H1. rewrite H1, !positive_leb by assumption. replace (DBMinConns c <? 0) with false by (symmetry; apply Z.ltb_ge; lia).
  replace (DBMaxConns c <? DBMinConns c) with false by (symmetry; apply Z.ltb_ge; lia). reflexivity.
Qed.
Lemma subject_accepted subject : subject <> EmptyString -> TrimSpace subject = subject -> RuneCountInString subject <= 128 ->
  validAuditText subject maximumSubjectLength = negb (existsb IsControl (runes subject)).
Proof.
  intros H1 H2 H3. unfold validAuditText, maximumSubjectLength. apply String.eqb_neq in H1. apply Z.ltb_ge in H3. rewrite H1, H2, H3, String.eqb_refl. reflexivity.
Qed.
Lemma http_accepted c mode nyse : validated c mode -> mode <> RuntimeModeWorker -> NewNYSECalendar [] = Ok nyse ->
  is_ok (buildHTTPServer read_task_metrics status_sources now newID c) = validAuditText (AdminSubject c) maximumSubjectLength.
Proof.
  intros Hv Hm Hnyse. destruct (val_http _ _ Hv Hm) as (H1 & H2 & H3 & H4 & H5 & H6 & H7). unfold buildHTTPServer.
  rewrite (is_ok_wrap _ _ _ _ NewChecker_latest). rewrite (is_ok_wrap _ _ (ReadinessTimeout c)) by (unfold NewHealthHandler; by rewrite positive_leb).
  rewrite (is_ok_wrap _ _ _ _ NewBackfillService_0), (is_ok_wrap _ _ _ _ NewManualTaskService_0), (is_ok_wrap _ _ _ _ Hnyse).
  rewrite (is_ok_wrap _ _ (nyse_TradingCalendar nyse))
    by (unfold NewProviderStatusService; pose proof (nyse_location _ Hnyse); by destruct (cal_Location (nyse_TradingCalendar nyse))).
  rewrite (is_ok_wrap _ _ (ReadinessTimeout c)) by (unfold NewMetricsHandler; by rewrite positive_leb).
  pose proof (admin_principal (AdminSubject c)) as Hp. destruct (validAuditText (AdminSubject c) maximumSubjectLength); [| by rewrite (is_ok_wrap_err _ _ _ _ Hp)].
  rewrite (is_ok_wrap _ _ _ _ Hp). destruct (admin_authenticator _ _ _ H7 Hp) as [entries Ha]. rewrite (is_ok_wrap _ _ _ _ Ha).
  destruct (http_routes_ok 5 5 LatestVersion (nyse_TradingCalendar nyse) entries) as [routes Hr]. rewrite (is_ok_bind _ _ _ Hr).
  unfold NewServer. cbn [srv_Address srv_ReadTimeout srv_WriteTimeout srv_IdleTimeout srv_ShutdownTimeout].
  apply String.eqb_neq in H1. by rewrite H1, !positive_leb.
Qed.
Lemma components_accepted c mode calendar (registry : Registry W) pageSize pages workerID : validated c mode -> mode <> RuntimeModeServe -> cal_Location calendar <> None ->
  TrimSpace workerID = workerID -> workerID <> EmptyString -> slen workerID <= 128 ->
  is_ok (components_of c calendar registry (Ingestion.mkConfig pageSize pages defaultRetryBackoffs Hour) workerID) = true.
Proof.
  intros Hv Hm Hc Ht Hn Hl. unfold components_of. cbv zeta. rewrite (is_ok_wrap _ _ tt) by (by apply (worker_accepted c mode)).
  destruct (zero_schedule calendar Hc) as [scheduler Hs]. rewrite (is_ok_wrap _ _ _ _ Hs).
  rewrite (is_ok_wrap _ _ (SchedulerInterval c)); [reflexivity |]. unfold NewSchedulerLoop. rewrite positive_leb; [reflexivity |]. apply (val_worker _ _ Hv Hm).
Qed.
Lemma components_built c mode calendar (registry : Registry W) w id w' : validated c mode -> mode <> RuntimeModeServe -> cal_Location calendar <> None ->
  newID w = (Ok id, w') -> String.length (uuid_String id) = 36%nat ->
  TrimSpace ("market-info-worker-" ++ uuid_String id) = ("market-info-worker-" ++ uuid_String id)%string ->
  is_ok (fst (worker_components newID c calendar registry w)) = true.
Proof.
  intros Hv Hm Hc Hid Hlen Htrim. destruct (val_worker _ _ Hv Hm) as (H1 & H2 & H3 & H4 & H5 & H6 & H7 & H8 & H9).
  unfold worker_components. rewrite default_service by lia. unfold mbind at 1. cbn [mlift wrap].
  destruct (String.eqb_spec (WorkerID c) EmptyString) as [E|E].
  - unfold mbind at 1 2, mwrap. rewrite Hid. cbn [wrap mret]. apply (components_accepted c mode); [exact Hv | exact Hm | exact Hc | exact Htrim | discriminate |].
    unfold slen. rewrite string_length_app, Hlen. cbn. lia.
  - unfold mbind at 1, mret. by apply (components_accepted c mode).
Qed.

(** ** The background components *)
Section Background.
Context `{L : HttpLib} `{!HttpClient W} `{!Client W} `{!Sdk W} `{SE : !SdkErrors} (ctxErr : M W (option error)).

(** The base URL an adapter is configured with, or its default, is usable. *)
Definition base_usable (defaultURL text : string) : bool :=
  match url_Parse (if TrimSpace text =s EmptyString then defaultURL else TrimSpace text) with Some u => usable_base u | None => false end.
Definition provider_usable (c : Config.Config) (provider : string) : bool :=
  if provider =s "bybit" then base_usable Bybit.DefaultBaseURL (BybitBaseURL c)
  else if provider =s "coingecko" then base_usable CoinGecko.DefaultBaseURL (CoinGeckoBaseURL c)
  else true.
(** A run that is not canceled, with identities, whose SDK connects. *)
Record collaborators : Prop := mkCollaborators {
  col_context : forall w, exists w', ctxErr w = (Ok None, w');
  col_identity : forall w, exists id w', newID w = (Ok id, w') /\ String.length (uuid_String id) = 36%nat
    /\ TrimSpace ("market-info-worker-" ++ uuid_String id) = ("market-info-worker-" ++ uuid_String id)%string;
  col_config : forall w, exists sdk w', lbconfig_New w = (Ok sdk, w');
  col_connect : forall sdk w, exists w', lbquote_NewFromCfg sdk w = (Ok tt, w') }.
Context (Hcol : collaborators).

Lemma new_adapter_base package name defaultURL limit text : ParseCode name = Ok name -> 0 <= limit ->
  match new_adapter package name defaultURL limit (mkHttpConfig text EmptyString 0) with
  | Ok x => base_usable defaultURL text = true /\ ProviderClient.ad_providerCode x = name
  | Err _ => base_usable defaultURL text = false
  | Diverge => False
  end.
Proof.
  intros Hn Hl. unfold new_adapter, base_usable. cbv zeta. cbn [cfg_BaseURL cfg_MaxResponseBytes cfg_UserAgent].
  destruct (url_Parse _) as [u|]; [| reflexivity]. destruct (usable_base u) eqn:E; cbn [negb]; [| reflexivity].
  rewrite Hn. cbn [wrap rbind]. change (0 =? 0) with true. cbv iota. apply Z.ltb_ge in Hl. rewrite Hl.
  change (TrimSpace EmptyString =s EmptyString) with true. cbv iota. change (has_byte 13 defaultUserAgent || has_byte 10 defaultUserAgent) with false.
  split; reflexivity.
Qed.

(** An adapter the registry takes. *)
Definition startable (x : MarketDataAdapter W) : Prop := code_IsZero (adapter_ProviderCode x) = false /\
  forall w, exists capabilities w', adapter_Capabilities x w = (Ok capabilities, w')
    /\ pc_ProviderCode capabilities = adapter_ProviderCode x /\ providerCapabilities_Validate capabilities = Ok tt.
Lemma register_startable l r w : Forall startable l -> List.NoDup (map adapter_ProviderCode l) ->
  (forall x, In x l -> reg_entries r !! adapter_ProviderCode x = None) -> exists r' w', register_adapters r (map Some l) w = (Ok r', w').
Proof.
  intros Hl. revert r w. induction Hl as [|x l [Hc Hx] _ IH]; intros r w Hn Hr; cbn [map register_adapters]; [by exists r, w |].
  cbn [map] in Hn. inversion Hn as [|? ? Hni Hn']; subst. rewrite Hc. rewrite (Hr x (or_introl eq_refl)). cbn [not_nil is_nil negb].
  destruct (Hx w) as (capabilities & w1 & E & Ec & Ev). unfold mbind at 1, mwrap. rewrite E. cbn [wrap]. rewrite Ec, String.eqb_refl. cbn [negb].
  rewrite Ev. unfold mbind at 1. cbn [mlift wrap]. apply IH; [exact Hn' |]. intros y Hy. cbn [reg_entries].
  rewrite lookup_insert_ne; [apply Hr; by right |]. intros Exy. apply Hni. rewrite Exy. by apply in_map.
Qed.
Lemma capabilities_answer (l : ProviderCapabilities) w :
  exists w', (canceled <-- ctxErr ;; match canceled with Some e => mthrow e | None => mret l end) w = (Ok l, w').
Proof. destruct (col_context Hcol w) as [w' E]. exists w'. unfold mbind. by rewrite E. Qed.

Lemma longbridge_starts calendar w : cal_Location calendar <> None ->
  load_location "America/New_York" <> None ->
  exists x w', Longbridge.NewFromEnvironment None (Some calendar) w = (Ok x, w') /\ Longbridge.ad_providerCode x = "longbridge"%string.
Proof.
  intros Hc Hz. unfold Longbridge.NewFromEnvironment, Longbridge.NewFromSDKConfig.
  destruct (col_config Hcol w) as (sdk & w1 & E1), (col_connect Hcol sdk w1) as [w2 E2]. unfold mbind at 1, mwrap. rewrite E1. cbn [wrap].
  unfold mbind at 1. rewrite E2. cbn [wrap]. unfold Longbridge.New. change (ParseCode Longbridge.providerName) with (@Ok Code "longbridge"%string). cbn [wrap rbind].
  destruct (load_location _); [| contradiction]. cbn [rbind]. destruct (cal_Location calendar); [| contradiction]. cbn [is_nil].
  eexists _, w2. split; reflexivity.
Qed.

(** [built, err := c], when [c] succeeds. *)
Lemma mbind_try {A B} (c : M W A) (k : result A -> M W B) w x w1 : c w = (Ok x, w1) -> (r <-- mtry c ;; k r) w = k (Ok x) w1.
Proof. intros E. unfold mbind, mtry. by rewrite E. Qed.
(** The adapters of the enabled providers are built exactly when their base URLs are usable. *)
Lemma build_adapters_usable c calendar providers sessions adapters w : cal_Location calendar <> None -> load_location "America/New_York" <> None ->
  Forall (fun p => known_provider p = true) providers ->
  if forallb (provider_usable c) providers
  then exists l n w', build_adapters now ctxErr c calendar providers sessions adapters w = (Ok (adapters ++ l, n), w')
       /\ map adapter_ProviderCode l = providers /\ Forall startable l
  else is_ok (fst (build_adapters now ctxErr c calendar providers sessions adapters w)) = false.
Proof.
  intros Hc Hz Hk. revert sessions adapters w. induction Hk as [|p providers Hp _ IH]; intros sessions adapters w; cbn [forallb build_adapters].
  { exists [], sessions, w. rewrite app_nil_r. split; [reflexivity |]. split; [reflexivity | constructor]. }
  assert (forall e, is_ok (fst ((_ <-- mtry (closeAll sessions) ;; mthrow e : M W (list (MarketDataAdapter W) * nat)) w)) = false) as Hfail.
  { intros e. unfold mbind, mtry, mthrow. by destruct (closeAll sessions w) as [[?|?|] ?]. }
  assert (forall x s w1, adapter_ProviderCode x = p -> startable x ->
    if forallb (provider_usable c) providers
    then exists l n w', build_adapters now ctxErr c calendar providers s (adapters ++ [x]) w1 = (Ok (adapters ++ l, n), w')
         /\ map adapter_ProviderCode l = p :: providers /\ Forall startable l
    else is_ok (fst (build_adapters now ctxErr c calendar providers s (adapters ++ [x]) w1)) = false) as Hnext.
  { intros x s w1 Ex Hx. specialize (IH s (adapters ++ [x]) w1). destruct (forallb _ providers); [| exact IH].
    destruct IH as (l & n & w' & E & El & Hl). exists (x :: l), n, w'. rewrite E, <- app_assoc. split; [reflexivity |].
    split; [cbn [map]; by rewrite Ex, El | by constructor]. }
  unfold provider_usable at 1. destruct (String.eqb_spec p "bybit") as [->|N1].
  { pose proof (new_adapter_base "bybit" "bybit" Bybit.DefaultBaseURL Bybit.defaultResponseLimit (BybitBaseURL c) eq_refl ltac:(discriminate)) as Hb.
    change (new_adapter "bybit" "bybit" Bybit.DefaultBaseURL Bybit.defaultResponseLimit) with Bybit.New in Hb.
    destruct (Bybit.New _) as [x|e|]; [| rewrite Hb; apply Hfail | contradiction]. destruct Hb as [-> Ex]. cbn [andb]. apply Hnext; [exact Ex |].
    split; cbn; rewrite Ex; [reflexivity |]. intros w1. destruct (capabilities_answer (mkProviderCapabilities "bybit" [mkProviderMarketCapability Bybit.spotMarket
      [AssetTypeCrypto] [InstrumentTypeSpot] true true [BarInterval1Hour; BarInterval1Day] Bybit.maxQuoteBatchSize Bybit.maxBarsPerRequest]) w1) as [w2 E].
    unfold Bybit.Capabilities. rewrite Ex. eexists _, w2. split; [exact E |]. split; reflexivity. }
  destruct (String.eqb_spec p "coingecko") as [->|N2].
  { pose proof (new_adapter_base "coingecko" "coingecko" CoinGecko.DefaultBaseURL CoinGecko.defaultResponseLimit (CoinGeckoBaseURL c) eq_refl ltac:(discriminate)) as Hb.
    change (new_adapter "coingecko" "coingecko" CoinGecko.DefaultBaseURL CoinGecko.defaultResponseLimit) with CoinGecko.New in Hb.
    destruct (CoinGecko.New _) as [x|e|]; [| rewrite Hb; apply Hfail | contradiction]. destruct Hb as [-> Ex]. cbn [andb]. apply Hnext; [exact Ex |].
    split; cbn; rewrite Ex; [reflexivity |]. intros w1. destruct (capabilities_answer (mkProviderCapabilities "coingecko" [mkProviderMarketCapability CoinGecko.fxMarket
      [AssetTypeFX] [InstrumentTypeFX] true true [BarInterval1Day] CoinGecko.maxQuoteBatchSize CoinGecko.maxBarsPerRequest]) w1) as [w2 E].
    unfold CoinGecko.Capabilities. rewrite Ex. eexists _, w2. split; [exact E |]. split; reflexivity. }
  destruct (String.eqb_spec p "longbridge") as [->|N3].
  2:{ exfalso. apply contains_string_In in Hp as [<-|[<-|[<-|[]]]]; contradiction. }
  cbn [andb]. destruct (longbridge_starts calendar w Hc Hz) as (x & w1 & E & Ex). rewrite !(mbind_try _ _ _ _ _ E). apply Hnext; [exact Ex |].
  split; cbn; rewrite Ex; [reflexivity |]. intros w2. destruct (capabilities_answer (mkProviderCapabilities "longbridge" [mkProviderMarketCapability Longbridge.usMarket
    [AssetTypeStock; AssetTypeETF] [InstrumentTypeEquity; InstrumentTypeETF] true true [BarInterval1Hour; BarInterval1Day] Longbridge.maxQuoteBatchSize
    Longbridge.maxBarsPerRequest]) w2) as [w3 E'].
  unfold Longbridge.Capabilities. rewrite Ex. eexists _, w3. split; [exact E' |]. split; reflexivity.
Qed.

(** The enabled providers of a loaded configuration are known, each once. *)
Lemma sort_strings_Permutation l : Permutation (sort_strings l) l.
Proof.
  induction l as [|s l IH]; [reflexivity |]. cbn [sort_strings]. transitivity (s :: sort_strings l); [| by apply Permutation_cons].
  generalize (sort_strings l). clear. induction l as [|t l IH]; [reflexivity |]. destruct (String.ltb t s); [| reflexivity].
  rewrite IH. apply perm_swap.
Qed.
Lemma enabled_providers_ok seen parts l : enabled_providers seen parts = Ok l ->
  List.NoDup l /\ Forall (fun p => known_provider p = true /\ ~ In p seen) l.
Proof.
  revert seen l. induction parts as [|part parts IH]; intros seen l H; cbn [enabled_providers] in H; cbv zeta in H.
  { apply Ok_inj in H as <-. split; constructor. }
  destruct (_ || _) eqn:G in H; [discriminate H |]. apply orb_false_iff in G as [_ Gk]. apply negb_false_iff in Gk.
  destruct (contains_string seen _) eqn:Gs in H; [discriminate H |]. apply rbind_ok in H as (rest & Hr & H). apply Ok_inj in H as <-.
  apply IH in Hr as [Hn Hf]. rewrite List.Forall_forall in Hf. split.
  - constructor; [| exact Hn]. intros Hin. destruct (Hf _ Hin) as [_ Hni]. apply Hni. by left.
  - constructor.
    + split; [exact Gk |]. intros Hin. apply contains_string_In in Hin. by rewrite Hin in Gs.
    + apply List.Forall_forall. intros q Hq. destruct (Hf q Hq) as [H1 H2]. split; [exact H1 |]. intros Hin. apply H2. by right.
Qed.
Lemma enabled_loaded lookup mode c : LoadForMode lookup mode = Ok c ->
  List.NoDup (EnabledProviders c) /\ Forall (fun p => known_provider p = true) (EnabledProviders c).
Proof.
  intros H. unfold LoadForMode, LoadFromForMode in H. cbv zeta in H. apply rbind_ok in H as (c0 & H0 & H). apply rbind_ok in H as (c1 & H1 & H).
  apply rbind_ok in H as (c2 & H2 & H). apply rbind_ok in H as (c3 & H3 & H). apply rbind_ok in H as (u & _ & H). apply Ok_inj in H as <-.
  assert (EnabledProviders c3 = EnabledProviders c0) as ->.
  { transitivity (EnabledProviders c2); [| transitivity (EnabledProviders c1)].
    - refine (load_settings_keeps _ _ _ _ _ _ _ H3). intros item [<-|[<-|[<-|[]]]]; right; reflexivity.
    - refine (load_settings_keeps _ _ _ _ _ _ _ H2). intros item [<-|[<-|[]]]; right; reflexivity.
    - refine (load_settings_keeps _ _ _ _ _ _ _ H1). intros item Hi. right. unfold durations in Hi. cbn [In] in Hi.
      repeat destruct Hi as [<-|Hi]; [reflexivity.. | destruct Hi]. }
  assert (EnabledProviders (default_config lookup) = []) as E0 by reflexivity.
  destruct (lookup _) as [value|] in H0; [| apply Ok_inj in H0 as <-; rewrite E0; split; constructor].
  destruct (value =s EmptyString); [apply Ok_inj in H0 as <-; rewrite E0; split; constructor |].
  apply rbind_ok in H0 as (providers & Hp & H0). apply Ok_inj in H0 as <-. change (EnabledProviders (set_EnabledProviders providers (default_config lookup))) with providers.
  unfold parseEnabledProviders in Hp. apply rbind_ok in Hp as (l & Hl & Hp). apply Ok_inj in Hp as <-. apply enabled_providers_ok in Hl as [Hn Hf].
  pose proof (sort_strings_Permutation l) as HP. split.
  - by apply (Permutation_NoDup (Permutation_sym HP)).
  - rewrite List.Forall_forall in *. intros p Hp. apply (Permutation_in _ HP) in Hp. by apply Hf.
Qed.

Lemma registry_built c calendar w : cal_Location calendar <> None -> load_location "America/New_York" <> None ->
  List.NoDup (EnabledProviders c) -> Forall (fun p => known_provider p = true) (EnabledProviders c) ->
  is_ok (fst (buildAdapterRegistry now ctxErr c calendar w)) = forallb (provider_usable c) (EnabledProviders c).
Proof.
  intros Hc Hz Hn Hk. pose proof (build_adapters_usable c calendar (EnabledProviders c) 0 [] w Hc Hz Hk) as Hb. unfold buildAdapterRegistry.
  destruct (forallb _ _).
  - destruct Hb as (l & n & w1 & E & El & Hl). unfold mbind at 1. rewrite E. cbn [app]. rewrite <- El in Hn.
    destruct (register_startable l (mkRegistry ∅ []) w1 Hl Hn) as (r & w2 & Er); [intros; apply lookup_empty |].
    unfold NewRegistry, mbind, mtry. by rewrite Er.
  - unfold mbind at 1. destruct (build_adapters _ _ _ _ _ _ _ _) as [[[l n]|e|] w1]; [discriminate Hb | reflexivity | reflexivity].
Qed.
Lemma background_built c mode nyse w : validated c mode -> mode <> RuntimeModeServe -> NewNYSECalendar [] = Ok nyse ->
  List.NoDup (EnabledProviders c) -> Forall (fun p => known_provider p = true) (EnabledProviders c) ->
  is_ok (fst (buildBackgroundComponents now ctxErr newID c w)) = forallb (provider_usable c) (EnabledProviders c).
Proof.
  intros Hv Hm Hnyse Hn Hk. pose proof (nyse_location _ Hnyse) as Hc.
  assert (load_location "America/New_York" <> None) as Hz.
  { intros Hz. unfold NewNYSECalendar in Hnyse. rewrite Hz in Hnyse. discriminate Hnyse. }
  unfold buildBackgroundComponents. cbv zeta. unfold mbind at 1. rewrite Hnyse. cbn [wrap mlift]. 
  pose proof (registry_built c (nyse_TradingCalendar nyse) w Hc Hz Hn Hk) as Hr. rewrite <- Hr. unfold mbind at 1.
  destruct (buildAdapterRegistry _ _ _ _ _) as [[[registry sessions]|e|] w1]; [| reflexivity | reflexivity]. cbn [fst is_ok].
  destruct (col_identity Hcol w1) as (id & w2 & Hid & Hlen & Htrim).
  pose proof (components_built c mode (nyse_TradingCalendar nyse) registry w1 id w2 Hv Hm Hc Hid Hlen Htrim) as Hw.
  unfold mbind, mtry. destruct (worker_components _ _ _ _ _) as [[components|e|] w3]; [reflexivity | discriminate Hw | discriminate Hw].
Qed.

(** C21. What the loading of a configuration accepts can be started, but for three texts it does not look into. The pool's own checks pass, and
    its configuration is what the driver parses of the database URL, or the driver's error. In the modes with the interface, the
    administrator's subject is present, trimmed and at most 128 characters, and the HTTP server is built exactly when the subject has no
    control character, which the principal refuses. In the modes with the worker, when the run is not canceled, identities are generated and
    the SDK connects, the adapters of the enabled providers, their registry, the scheduler and the worker (with its configured identity or a
    generated one) are built exactly when the base URL of each enabled HTTP provider is usable, which its adapter asks. *)
Theorem accepted_configuration lookup mode c nyse : LoadForMode lookup mode = Ok c -> NewNYSECalendar [] = Ok nyse ->
  ParsePoolConfig (pool_config c) = (settings <- wrap "parse database URL" (pgx_ParseConfig (DatabaseURL c)) ;; Ok (pgx_limits settings (pool_config c)))
  /\ (mode <> RuntimeModeWorker ->
       (AdminSubject c <> EmptyString /\ TrimSpace (AdminSubject c) = AdminSubject c /\ RuneCountInString (AdminSubject c) <= 128)
       /\ is_ok (buildHTTPServer read_task_metrics status_sources now newID c) = negb (existsb IsControl (runes (AdminSubject c))))
  /\ (mode <> RuntimeModeServe -> forall w,
       is_ok (fst (buildBackgroundComponents now ctxErr newID c w)) = forallb (provider_usable c) (EnabledProviders c)).
Proof.
  intros Hload Hnyse. pose proof (ValidateForMode_ok _ _ (load_validated _ _ _ Hload)) as Hv. destruct (enabled_loaded _ _ _ Hload) as [Hn Hk].
  split; [by apply (pool_accepted c mode) |]. split.
  - intros Hm. destruct (val_subject _ _ Hv Hm) as (S1 & S2 & S3). split; [split; [exact S1 | split; [exact S2 | exact S3]] |].
    rewrite (http_accepted c mode nyse Hv Hm Hnyse). apply subject_accepted; assumption.
  - intros Hm w. by apply (background_built c mode nyse).
Qed.
End Background.
End Accepted.
