(* ===== verification/ObservabilityFacts.v ===== *)
(** * Facts about metrics, alerts and logs

    The histograms count what was observed, the alerts raised are exactly those
    of the thresholds, and no sensitive value is logged. *)
From Stdlib Require Import SpecFloat Sorted.
From S2P Require Import Prelude Errors GoStrings GoTime GoJson External Domain MarketData Calendar Window Freshness CatchUp Ports Ingestion Fixtures Database Statements Repository RepositoryFacts Lifecycle RepositoryFixtures HistoryFacts Application Listing ProviderStatus CatalogStore QueryFacts ProviderFacts GoText GoJsonTree DomainJson HttpCore GoFloat Observability HttpServer.
Open Scope go_scope.

(** ** Alerts *)
(** When an alert is raised. *)
Inductive raised (ready : bool) (s : OperationalSnapshot) : OperationalAlert -> Prop :=
  | raised_ready : ready = false ->
      raised ready s (mkAlert AlertReadyFailed "critical" EmptyString EmptyString EmptyString (f64_of_Z 0) (f64_of_Z 1))
  | raised_old_backlog : Hour <= backlog_age s ->
      raised ready s (mkAlert AlertIngestionTaskBacklog "warning" EmptyString EmptyString EmptyString (Seconds (backlog_age s)) (Seconds Hour))
  | raised_long_backlog : backlog_age s < Hour -> 100 <= backlog_count s ->
      raised ready s (mkAlert AlertIngestionTaskBacklog "warning" EmptyString EmptyString EmptyString (f64_of_Z (backlog_count s)) (f64_of_Z 100))
  | raised_failures p : In p (os_Providers s) -> 3 <= ps_ConsecutiveFailures p ->
      raised ready s (mkAlert AlertProviderFailures "critical" (ps_ProviderCode p) EmptyString EmptyString (f64_of_Z (ps_ConsecutiveFailures p)) (f64_of_Z 3))
  | raised_delay p scope hours delay : In p (os_Providers s) -> In scope (ps_Scopes p) ->
      (scope_Interval scope = BarInterval1Hour /\ hours = 3) \/ (scope_Interval scope = BarInterval1Day /\ hours = 72) ->
      shown_delay scope = Some delay -> hours * 3600 <= delay ->
      raised ready s (mkAlert AlertProviderDataDelay "warning" (ps_ProviderCode p) (scope_Market scope) (scope_Interval scope) (f64_of_Z delay) (f64_of_Z (hours * 3600))).

Lemma alertDelayThreshold_ok interval threshold : alertDelayThreshold interval = Ok threshold <->
  (interval = BarInterval1Hour /\ threshold = 3 * 3600) \/ (interval = BarInterval1Day /\ threshold = 72 * 3600).
Proof.
  unfold alertDelayThreshold. destruct (String.eqb_spec interval BarInterval1Hour) as [->|N1]; [| destruct (String.eqb_spec interval BarInterval1Day) as [->|N2]].
  - split; [intros [= <-]; by left | intros [[_ ->]|[E _]]; [reflexivity | discriminate E]].
  - split; [intros [= <-]; by right | intros [[E _]|[_ ->]]; [discriminate E | reflexivity]].
  - split; [discriminate | intros [[E _]|[E _]]; contradiction].
Qed.
Lemma scope_alerts_ok provider scopes alerts : scope_alerts provider scopes = Ok alerts -> forall a, In a alerts <->
  exists scope delay threshold, In scope scopes /\ shown_delay scope = Some delay /\ alertDelayThreshold (scope_Interval scope) = Ok threshold
    /\ threshold <= delay /\ a = mkAlert AlertProviderDataDelay "warning" provider (scope_Market scope) (scope_Interval scope) (f64_of_Z delay) (f64_of_Z threshold).
Proof.
  revert alerts. induction scopes as [|s scopes IH]; intros alerts H a; cbn [scope_alerts] in H.
  { injection H as <-. split; [intros [] | intros (? & ? & ? & [] & _)]. }
  destruct (shown_delay s) as [delay|] eqn:Ed.
  - apply rbind_ok in H as (threshold & Ht & H). apply rbind_ok in H as (rest & Hr & H). apply Ok_inj in H as <-. specialize (IH _ Hr a).
    assert (In a rest -> exists scope delay threshold, In scope (s :: scopes) /\ shown_delay scope = Some delay /\ alertDelayThreshold (scope_Interval scope) = Ok threshold
      /\ threshold <= delay /\ a = mkAlert AlertProviderDataDelay "warning" provider (scope_Market scope) (scope_Interval scope) (f64_of_Z delay) (f64_of_Z threshold)) as Hrest.
    { intros Ha. apply IH in Ha as (s' & d' & t' & Hs' & Ha). exists s', d', t'. split; [by right | exact Ha]. }
    split.
    + destruct (Z.leb_spec threshold delay); [intros [<-|Ha]; [exists s, delay, threshold; split; [by left | auto] | by apply Hrest] | exact Hrest].
    + intros (s' & d' & t' & [<-|Hs'] & Hd & Ht' & Hle & ->).
      * rewrite Ed in Hd. injection Hd as <-. rewrite Ht in Ht'. apply Ok_inj in Ht' as <-. apply Z.leb_le in Hle. rewrite Hle. by left.
      * assert (In (mkAlert AlertProviderDataDelay "warning" provider (scope_Market s') (scope_Interval s') (f64_of_Z d') (f64_of_Z t')) rest) as Hin
          by (apply IH; eauto 10).
        destruct (threshold <=? delay); [by right | exact Hin].
  - rewrite (IH _ H a). split; intros (s' & d' & t' & Hs' & Hd & Hrest).
    + exists s', d', t'. split; [by right | auto].
    + destruct Hs' as [<-|Hs']; [congruence | exists s', d', t'; auto].
Qed.
Lemma provider_alerts_ok ready s providers alerts : provider_alerts providers = Ok alerts -> (forall p, In p providers -> In p (os_Providers s)) ->
  (forall a, In a alerts -> raised ready s a)
  /\ (forall p, In p providers -> 3 <= ps_ConsecutiveFailures p ->
        In (mkAlert AlertProviderFailures "critical" (ps_ProviderCode p) EmptyString EmptyString (f64_of_Z (ps_ConsecutiveFailures p)) (f64_of_Z 3)) alerts)
  /\ (forall p delays, In p providers -> scope_alerts (ps_ProviderCode p) (ps_Scopes p) = Ok delays -> forall a, In a delays -> In a alerts).
Proof.
  revert alerts. induction providers as [|p providers IH]; intros alerts H Hin; cbn [provider_alerts] in H.
  { injection H as <-. split; [intros a [] | split; [intros p [] | intros p d []]]. }
  apply rbind_ok in H as (delays & Hd & H). apply rbind_ok in H as (rest & Hr & H). apply Ok_inj in H as <-.
  destruct (IH _ Hr (fun q Hq => Hin q (or_intror Hq))) as (I1 & I2 & I3). split; [| split].
  - intros a [Ha|[Ha|Ha]%in_app_iff]%in_app_iff; [| | by apply I1].
    + destruct (Z.leb_spec ProviderFailureAlertThreshold (ps_ConsecutiveFailures p)); [| destruct Ha]. destruct Ha as [<-|[]]. apply raised_failures; [apply Hin; by left | assumption].
    + apply (scope_alerts_ok _ _ _ Hd) in Ha as (scope & delay & threshold & Hs & Hde & Ht & Hle & ->). apply alertDelayThreshold_ok in Ht.
      destruct Ht as [[Ei ->]|[Ei ->]]; [apply (raised_delay ready s p scope 3) | apply (raised_delay ready s p scope 72)]; auto; apply Hin; by left.
  - intros q [<-|Hq] Hf; apply in_app_iff; [left | right; apply in_app_iff; right; by apply I2].
    apply Z.leb_le in Hf. unfold ProviderFailureAlertThreshold. rewrite Hf. by left.
  - intros q d [<-|Hq] Hs a Ha; apply in_app_iff; right; apply in_app_iff; [left | right; by apply (I3 q d)].
    rewrite Hd in Hs. by apply Ok_inj in Hs as ->.
Qed.
Lemma scope_alerts_total provider scopes : (forall s, In s scopes -> shown_delay s <> None -> contains_string [BarInterval1Hour; BarInterval1Day] (scope_Interval s) = true) ->
  exists alerts, scope_alerts provider scopes = Ok alerts.
Proof.
  induction scopes as [|s scopes IH]; intros H; cbn [scope_alerts]; [by eexists |]. destruct IH as [alerts Ha]; [intros s' Hs'; apply H; by right |].
  destruct (shown_delay s) as [delay|] eqn:Ed; [| by eexists]. assert (exists t, alertDelayThreshold (scope_Interval s) = Ok t) as [t ->].
  { specialize (H s (or_introl eq_refl)). rewrite Ed in H. specialize (H ltac:(discriminate)). apply contains_string_In in H as [E|[E|[]]];
      [exists (3 * 3600) | exists (72 * 3600)]; apply alertDelayThreshold_ok; auto. }
  rewrite Ha. by eexists.
Qed.
Lemma provider_alerts_total providers : (forall p s, In p providers -> In s (ps_Scopes p) -> shown_delay s <> None ->
    contains_string [BarInterval1Hour; BarInterval1Day] (scope_Interval s) = true) -> exists alerts, provider_alerts providers = Ok alerts.
Proof.
  induction providers as [|p providers IH]; intros H; cbn [provider_alerts]; [by eexists |].
  destruct (scope_alerts_total (ps_ProviderCode p) (ps_Scopes p)) as [d ->]; [intros s; apply H; by left |].
  destruct IH as [a ->]; [intros q s Hq; apply H; by right |]. by eexists.
Qed.

Lemma provider_alerts_each l alerts p : provider_alerts l = Ok alerts -> In p l ->
  exists delays, scope_alerts (ps_ProviderCode p) (ps_Scopes p) = Ok delays.
Proof.
  revert alerts. induction l as [|q l IH]; intros alerts H Hin; [destruct Hin |]. cbn [provider_alerts] in H.
  apply rbind_ok in H as (d & Hd & H). apply rbind_ok in H as (rest & Hr & _). destruct Hin as [->|Hin]; [by exists d | by apply (IH rest)].
Qed.

Lemma alert_weak_order : weak_order alert_less.
Proof. do 3 apply text_then_weak_order. apply text_weak_order. Qed.

(** What is raised for a valid snapshot, in order. *)
Lemma alerts_exact ready s : IsZero (os_ObservedAt s) = false -> validateOperationalSnapshot (os_Tasks s) (os_Providers s) = Ok tt ->
  (forall alerts, EvaluateOperationalAlerts ready s = Ok alerts ->
     StronglySorted (fun a b => alert_less b a = false) alerts /\ forall a, In a alerts <-> raised ready s a)
  /\ ((forall p scope, In p (os_Providers s) -> In scope (ps_Scopes p) -> shown_delay scope <> None ->
        contains_string [BarInterval1Hour; BarInterval1Day] (scope_Interval scope) = true) -> is_ok (EvaluateOperationalAlerts ready s) = true).
Proof.
  intros Hz Hv. unfold EvaluateOperationalAlerts. rewrite Hz, Hv. cbn [rbind]. split.
  - intros alerts H. apply rbind_ok in H as (providers & Hp & H). apply Ok_inj in H as <-. split; [apply sort_stable_ordered, alert_weak_order |].
    destruct (provider_alerts_ok ready s _ _ Hp (fun p Hin => Hin)) as (P1 & P2 & P3). intros a. rewrite sort_stable_In, !in_app_iff. unfold backlog_alerts. split.
    + intros [Ha|[Ha|Ha]]; [| | by apply P1].
      * destruct ready; [destruct Ha |]. destruct Ha as [<-|[]]. by apply raised_ready.
      * destruct (Z.leb_spec TaskBacklogAgeThreshold (backlog_age s)) as [Ho|Ho].
        -- rewrite orb_true_r in Ha. destruct Ha as [<-|[]]. by apply raised_old_backlog.
        -- rewrite orb_false_r in Ha. destruct (Z.leb_spec TaskBacklogCountThreshold (backlog_count s)); [| destruct Ha]. destruct Ha as [<-|[]]. by apply raised_long_backlog.
    + intros [Hr|Ho|Ho Hc|p Hin Hf|p scope hours delay Hin Hs Hh Hd Hle].
      * left. rewrite Hr. by left.
      * right. left. apply Z.leb_le in Ho. unfold TaskBacklogAgeThreshold. rewrite Ho, orb_true_r. by left.
      * right. left. apply Z.leb_gt in Ho. apply Z.leb_le in Hc. unfold TaskBacklogAgeThreshold, TaskBacklogCountThreshold. rewrite Ho, Hc. by left.
      * right. right. by apply P2.
      * right. right. assert (exists delays, scope_alerts (ps_ProviderCode p) (ps_Scopes p) = Ok delays) as [delays Hds].
        { by apply (provider_alerts_each (os_Providers s) providers). }
        apply (P3 p delays Hin Hds). apply (scope_alerts_ok _ _ _ Hds). exists scope, delay, (hours * 3600). split; [exact Hs |]. split; [exact Hd |].
        split; [apply alertDelayThreshold_ok; destruct Hh as [[Ei ->]|[Ei ->]]; auto |]. by split.
  - intros Hi. destruct (provider_alerts_total (os_Providers s) Hi) as [alerts ->]. reflexivity.
Qed.

(** ** The snapshot of the store *)
Section Scrape.
Context `{D : DecimalLib} `{T : TzLib} `{U : UUIDLib} `{P : !PgLib} `{PL : !PgLaws P} (calendar : TradingCalendar).

Lemma projectProvider_scopes source at_ st : projectProvider calendar source at_ = Ok st ->
  forall s, In s (ps_Scopes st) -> contains_string [BarInterval1Hour; BarInterval1Day] (scope_Interval s) = true.
Proof.
  unfold projectProvider. destruct (_ || _); [discriminate |]. intros H. apply rbind_ok in H as (type & _ & H).
  apply rbind_ok in H as (status & _ & H). apply rbind_ok in H as (g & Hg & H). apply rbind_ok in H as (scopes & Hs & H).
  apply Ok_inj in H as <-. cbn [ps_Scopes]. intros s Hin. apply project_scopes_ok in Hs as (Hk & _).
  destruct (observe_ok _ _ _ Hg) as ((_ & Hok) & _); [split; constructor |].
  apply (in_map scope_key) in Hin. rewrite Hk in Hin. apply in_map_iff in Hin as ((key & os) & E & Hin). apply sort_stable_In in Hin.
  apply (proj1 (List.Forall_forall _ _) Hok) in Hin as [Hne Hos]. cbn [fst snd] in *. destruct os as [|o os]; [contradiction |].
  apply (List.Forall_inv (l := os)) in Hos. unfold providerScopeFor in Hos. destruct (_ || _) in Hos; [discriminate |].
  apply rbind_ok in Hos as (i & Hi & Hos). assert (key_interval key = ob_Interval o) as Ek.
  { destruct (_ =s _) in Hos; [by apply Ok_inj in Hos as <- |]. destruct (_ =s _) in Hos; [by apply Ok_inj in Hos as <- |].
    destruct (_ || _) in Hos; [by apply Ok_inj in Hos as <- | discriminate]. }
  assert (scope_Interval s = ob_Interval o) as ->.
  { rewrite <- Ek, E. reflexivity. }
  unfold ParseBarInterval in Hi. destruct (_ && _) eqn:En in Hi; [discriminate |]. apply contains_string_In.
  apply andb_false_iff in En as [En|En]; apply negb_false_iff, String.eqb_eq in En; rewrite En; [by left | by right; left].
Qed.
Lemma project_all_each sources at_ l : project_all calendar sources at_ = Ok l ->
  forall p, In p l -> exists source, projectProvider calendar source at_ = Ok p.
Proof.
  revert l. induction sources as [|s sources IH]; intros l H p Hp; cbn [project_all] in H; [apply Ok_inj in H as <-; destruct Hp |].
  apply rbind_ok in H as (st & Hs & H). apply rbind_ok in H as (rest & Hr & H). apply Ok_inj in H as <-.
  destruct Hp as [<-|Hp]; [by exists s | by apply (IH _ Hr)].
Qed.
Lemma listed_scopes {W} (sources : Time -> M W (list ProviderStatusSource)) now w l w' :
  ProviderStatusService_List calendar sources now w = (Ok l, w') ->
  forall p s, In p l -> In s (ps_Scopes p) -> contains_string [BarInterval1Hour; BarInterval1Day] (scope_Interval s) = true.
Proof.
  unfold ProviderStatusService_List. intros H. minv_classified. intros p s Hp Hs. apply sort_stable_In in Hp.
  destruct (project_all_each _ _ _ ltac:(eassumption) p Hp) as [source Hsource]. by apply (projectProvider_scopes _ _ _ Hsource).
Qed.

Lemma oldest_created_spec tasks : match oldest_created tasks with
  | Some c => (exists t, In t tasks /\ task_CreatedAt t = c) /\ forall t, In t tasks -> c <= task_CreatedAt t
  | None => tasks = [] end.
Proof.
  induction tasks as [|t tasks IH]; [reflexivity |]. change (oldest_created (t :: tasks)) with (opt_best Z.min (Some (task_CreatedAt t)) (oldest_created tasks)).
  destruct (oldest_created tasks) as [c|].
  - cbn [opt_best]. destruct IH as [(u & Hu & Eu) Hmin]. split.
    + destruct (Z.min_spec (task_CreatedAt t) c) as [[_ ->]|[_ ->]]; [exists t; split; [by left | reflexivity] | exists u; split; [by right | exact Eu]].
    + intros v [<-|Hv]; [lia |]. specialize (Hmin v Hv). lia.
  - cbn [opt_best]. subst tasks. split; [exists t; split; [by left | reflexivity] |]. intros v [<-|[]]. lia.
Qed.
Lemma Sub_hour a b : Hour <= Sub a b <-> b + Hour <= a.
Proof. unfold Sub, Hour, Minute, Second, int64_min, int64_max. lia. Qed.

Lemma metric_counts tasks status : In status taskMetricStatuses ->
  (list_to_map (map (fun status => (status, count_status status tasks)) taskMetricStatuses) : gmap string Z) !! status = Some (count_status status tasks).
Proof.
  intros Hs. apply elem_of_list_to_map_1.
  - rewrite <- list_fmap_compose. change (NoDup taskMetricStatuses). by apply (bool_decide_unpack _).
  - apply list_elem_of_In, in_map_iff. by exists status.
Qed.
Lemma waiting_count tasks : count_status "pending" tasks + count_status "retry_wait" tasks = llen (List.filter waiting_task tasks).
Proof.
  induction tasks as [|t tasks IH]; [reflexivity |]. rewrite !count_status_cons. cbn [List.filter].
  assert (waiting_task t = (task_Status t =s "pending") || (task_Status t =s "retry_wait")) as ->.
  { unfold waiting_task. cbn. by rewrite (String.eqb_sym _ "pending"), (String.eqb_sym _ "retry_wait"), orb_false_r. }
  destruct (String.eqb_spec (task_Status t) "pending") as [E1|E1], (String.eqb_spec (task_Status t) "retry_wait") as [E2|E2]; cbn [orb];
    [rewrite E1 in E2; discriminate E2 | unfold llen in *; cbn [length]; lia..].
Qed.
(** The backlog alert of a snapshot with the counts and the oldest of [tasks]. *)
Lemma backlog_raised ready s tasks : llen tasks <= int64_max -> (forall t, In t tasks -> task_CreatedAt t <= os_ObservedAt s) ->
  (forall status, In status taskMetricStatuses -> tm_Counts (os_Tasks s) !! status = Some (count_status status tasks)) ->
  tm_OldestBacklogCreatedAt (os_Tasks s) = oldest_created (List.filter waiting_task tasks) ->
  ((exists a, raised ready s a /\ al_Code a = AlertIngestionTaskBacklog) <->
    100 <= llen (List.filter waiting_task tasks) \/ exists t, In t tasks /\ waiting_task t = true /\ task_CreatedAt t + Hour <= os_ObservedAt s).
Proof.
  intros Hn Hc Hcounts Hold. assert (backlog_count s = llen (List.filter waiting_task tasks)) as Ecount.
  { unfold backlog_count. rewrite !Hcounts by (cbn; tauto). cbn [from_option id]. rewrite waiting_count. apply wrap64_id.
    pose proof (filter_length_le waiting_task tasks). unfold int64_range, llen, int64_min, int64_max in *. lia. }
  assert (Hour <= backlog_age s <-> exists t, In t tasks /\ waiting_task t = true /\ task_CreatedAt t + Hour <= os_ObservedAt s) as Eage.
  { unfold backlog_age. rewrite Hold. pose proof (oldest_created_spec (List.filter waiting_task tasks)) as Ho. destruct (oldest_created _) as [c|].
    - destruct Ho as [(t & Hin & Et) Hmin]. apply filter_In in Hin as [Hin Hw]. split.
      + unfold After. destruct (Z.ltb_spec c (os_ObservedAt s)); [| intros He; unfold Hour, Minute, Second in He; lia]. rewrite Sub_hour. intros H'. exists t. rewrite Et. auto.
      + intros (u & Hu & Hwu & Hle). assert (c <= task_CreatedAt u) by (apply Hmin, filter_In; auto).
        unfold After. destruct (Z.ltb_spec c (os_ObservedAt s)) as [_|Hge]; [apply Sub_hour; lia | unfold Hour, Minute, Second in *; lia].
    - split; [intros He; unfold Hour, Minute, Second in He; lia |]. intros (t & Hin & Hw & _). assert (In t []) as []. rewrite <- Ho. by apply filter_In. }
  rewrite <- Ecount, <- Eage. split.
  - intros (a & [| | | |] & Ha); try discriminate Ha; auto.
  - intros [Hl|Ho]; [destruct (Z.le_gt_cases Hour (backlog_age s)) as [Ho|Ho] |].
    + eexists. split; [by apply raised_old_backlog | reflexivity].
    + eexists. split; [by apply raised_long_backlog | reflexivity].
    + eexists. split; [by apply raised_old_backlog | reflexivity].
Qed.

(** C26. What a scrape of well-formed tables sees and raises: each status is counted over the tasks created by then and the counts are all of
    them; the alerts can be evaluated, are ordered and are exactly those of the thresholds, and the backlog alert is among them just if a
    hundred tasks wait or one has waited for an hour. *)
Theorem scraped_alerts now observedAt ready w s w' : tasks_inv (pg_db w) -> llen (rows (db_tasks (pg_db w))) <= int64_max ->
  Snapshot (S := repo_OperationalSource calendar now) observedAt w = (Ok s, w') ->
  let tasks := metric_tasks observedAt (pg_db w) in
  (forall status, In status taskMetricStatuses -> tm_Counts (os_Tasks s) !! status = Some (count_status status tasks))
  /\ count_status "pending" tasks + count_status "running" tasks + count_status "retry_wait" tasks + count_status "success" tasks
     + count_status "failed" tasks + count_status "canceled" tasks = llen tasks
  /\ exists alerts, EvaluateOperationalAlerts ready s = Ok alerts /\ StronglySorted (fun a b => alert_less b a = false) alerts
     /\ (forall a, In a alerts <-> raised ready s a)
     /\ ((exists a, In a alerts /\ al_Code a = AlertIngestionTaskBacklog) <->
           100 <= llen (List.filter waiting_task tasks) \/ exists t, In t tasks /\ waiting_task t = true /\ task_CreatedAt t + Hour <= observedAt).
Proof.
  intros Ht Hn H tasks. unfold Snapshot in H. destruct (IsZero observedAt) eqn:Ez; [discriminate H |]. minv.
  match goal with R : ReadTaskMetrics _ _ = _, V : validateOperationalSnapshot _ _ = _, L : ListProviders _ = _ |- _ => rename R into Hread, V into Hvalid, L into Hlist end.
  cbn [ReadTaskMetrics ListProviders repo_OperationalSource] in Hread, Hlist. unfold repo_ReadTaskMetrics in Hread. rewrite Ez in Hread.
  apply mwrap_db_ok, query_ok in Hread as [Hread _]. apply Ok_inj in Hread. fold tasks in Hread.
  match goal with |- context [mkOperationalSnapshot _ ?t ?l] => set (s := mkOperationalSnapshot observedAt t l) in * end.
  assert (forall t, In t tasks -> known_status (task_Status t) /\ task_CreatedAt t <= observedAt) as Hin.
  { intros t [[i Hi]%rows_In Hle]%filter_In. destruct (Ht _ _ Hi) as (_ & Hok & _). split; [apply (ok_status _ Hok) |].
    apply Z.leb_le in Hle. rewrite TimeToDatabase_id in Hle. pose proof (pg_time_le observedAt). lia. }
  assert (forall status, In status taskMetricStatuses -> tm_Counts (os_Tasks s) !! status = Some (count_status status tasks)) as Hcounts.
  { intros status Hs. cbn [s os_Tasks]. rewrite <- Hread. by apply metric_counts. }
  split; [exact Hcounts |]. split; [apply counts_total; intros t Htask; by apply Hin |].
  destruct a1. destruct (alerts_exact ready s Ez Hvalid) as [Hexact Htotal]. destruct (EvaluateOperationalAlerts ready s) as [alerts|e|] eqn:E.
  2,3: discriminate Htotal; intros p scope Hp Hscope _; by apply (listed_scopes _ _ _ _ _ Hlist p scope).
  destruct (Hexact alerts eq_refl) as [Hsorted Ha]. exists alerts. split; [reflexivity |]. split; [exact Hsorted |]. split; [exact Ha |].
  change observedAt with (os_ObservedAt s) at 1. rewrite <- (backlog_raised ready s tasks); [| | intros t Htask; by apply Hin | exact Hcounts |].
  - split; intros (x & H1 & H2); exists x; (split; [by apply Ha | exact H2]).
  - pose proof (filter_length_le (fun t => task_CreatedAt t <=? pg_time (TimeToDatabase observedAt)) (rows (db_tasks (pg_db w)))).
    unfold tasks, metric_tasks, llen in *. lia.
  - cbn [s os_Tasks]. rewrite <- Hread. cbn [tm_OldestBacklogCreatedAt]. destruct (oldest_created _); [| reflexivity]. cbn. by rewrite TimeToDatabase_id.
Qed.
End Scrape.

(** An hour after the batch was created its task still waits. *)
Definition scrape_time : Time := noon + Minute + Hour.
Definition scrape : result OperationalSnapshot * PG :=
  Snapshot (S := repo_OperationalSource offline_calendar (mret scrape_time)) scrape_time scheduled_store.
Definition scraped : OperationalSnapshot :=
  match fst scrape with Ok s => s | _ => mkOperationalSnapshot 0 (mkTaskMetricsSnapshot ∅ None) [] end.
Example scraped_ok : fst scrape = Ok scraped.
Proof. vm_compute. reflexivity. Qed.
Lemma scraped_alerts_witness : exists alerts, EvaluateOperationalAlerts true scraped = Ok alerts
  /\ exists a, In a alerts /\ al_Code a = AlertIngestionTaskBacklog.
Proof.
  assert (tasks_inv (pg_db scheduled_store)) as Hi by apply scheduled_inv.
  destruct (scraped_alerts offline_calendar (mret scrape_time) scrape_time true scheduled_store scraped (snd scrape) Hi) as (_ & _ & alerts & E & _ & _ & Hb).
  - vm_compute. discriminate.
  - change (scrape = (Ok scraped, snd scrape)). rewrite <- scraped_ok. apply surjective_pairing.
  - exists alerts. split; [exact E |]. apply Hb. right. exists morning_task. split; [vm_compute; by left |]. split; [reflexivity | vm_compute; discriminate].
Defined.

(** ** Histograms *)
Lemma f64_leb_finite m e m' e' : f64_leb (S754_finite false m e) (S754_finite false m' e') = true <-> e < e' \/ (e = e' /\ Z.pos m <= Z.pos m').
Proof.
  unfold f64_leb, SFleb. cbn. change (Pos.compare_cont Eq m m') with (Pos.compare m m').
  destruct (Z.compare_spec e e'); [destruct (Pos.compare_spec m m') |..]; split; intros H'; try reflexivity; try discriminate H'; lia.
Qed.
Lemma f64_leb_trans x m e m' e' : f64_leb (S754_finite false m e) (S754_finite false m' e') = true ->
  f64_leb x (S754_finite false m e) = true -> f64_leb x (S754_finite false m' e') = true.
Proof. destruct x as [s|[|]| |[|] mx ex]; try reflexivity; try discriminate. rewrite !f64_leb_finite. lia. Qed.
Definition positive_float (b : float64) : bool := match b with S754_finite false _ _ => true | _ => false end.
Lemma f64_leb_positive x b c : positive_float b = true -> positive_float c = true -> f64_leb b c = true -> f64_leb x b = true -> f64_leb x c = true.
Proof. destruct b as [| | |[|]], c as [| | |[|]]; try discriminate. intros _ _. apply f64_leb_trans. Qed.

(** An observation: method, route, status and duration. *)
Definition Observation : Type := string * string * Z * Duration.
Definition observe_all (l : list Observation) (m : Metrics) : Metrics :=
  fold_left (fun m '(method, route, status, duration) => ObserveHTTPRequest method route status duration m) l m.
Definition with_key (key : httpMetricKey) (l : list Observation) : list Observation :=
  List.filter (fun '(method, route, status, _) => bool_decide (metric_key method route status = key)) l.
(** The observations that took at most [bound]. *)
Definition within (bound : float64) (l : list Observation) : list Observation := List.filter (fun '(_, duration) => f64_leb (observed_seconds duration) bound) l.

Lemma with_key_app key l o : with_key key (l ++ [o]) = with_key key l ++ with_key key [o].
Proof. apply List.filter_app. Qed.
Lemma within_cons bound o l : llen (within bound (o :: l)) = Z.b2z (f64_leb (observed_seconds (snd o)) bound) + llen (within bound l).
Proof. destruct o as [r d]. unfold within, llen. cbn [List.filter snd]. destruct (f64_leb _ _); cbn [length Z.b2z]; lia. Qed.
Lemma within_app bound l o : llen (within bound (l ++ [o])) = llen (within bound l) + Z.b2z (f64_leb (observed_seconds (snd o)) bound).
Proof. destruct o as [r d]. unfold within. rewrite List.filter_app. unfold llen. rewrite length_app, Nat2Z.inj_add. f_equal. cbn [List.filter snd]. by destruct (f64_leb _ _). Qed.

Lemma llen_filter {A} (f : A -> bool) l : 0 <= llen (List.filter f l) <= llen l.
Proof. unfold llen. pose proof (List.filter_length_le f l). lia. Qed.
Lemma within_le b l : 0 <= llen (within b l) <= llen l.
Proof. apply llen_filter. Qed.
Lemma with_key_le key l : 0 <= llen (with_key key l) <= llen l.
Proof. apply llen_filter. Qed.
Lemma llen_snoc {A} (l : list A) x : llen (l ++ [x]) = llen l + 1.
Proof. unfold llen. rewrite length_app. cbn. lia. Qed.

(** What the registry holds of a key after [l]: nothing, or the number of its observations and of those within each bound. *)
Definition counts_of (l : list Observation) (h : option httpHistogram) : Prop :=
  match h with
  | None => l = []
  | Some h => l <> [] /\ h_count h = llen l /\ h_buckets h = map (fun bound => llen (within bound l)) httpDurationBuckets
  end.
Lemma increment_small n : 0 <= n -> n + 1 < 2 ^ 64 -> increment n = n + 1.
Proof. intros H1 H2. apply Z.mod_small. lia. Qed.
Lemma observe_histogram_counts l o h : llen (l ++ [o]) < 2 ^ 64 -> counts_of l h ->
  counts_of (l ++ [o]) (Some (observe_histogram (observed_seconds (snd o)) (default new_histogram h))).
Proof.
  intros Hn Hc. pose proof (llen_snoc l o) as El.
  assert (h_count (default new_histogram h) = llen l /\ h_buckets (default new_histogram h) = map (fun bound => llen (within bound l)) httpDurationBuckets) as [H1 H2].
  { destruct h as [h|]; cbn [from_option id]; [destruct Hc as (_ & H1 & H2); auto | cbn in Hc; subst l; split; reflexivity]. }
  assert (0 <= llen l) by (unfold llen; lia). split; [intros E; by destruct (app_cons_not_nil l [] o) |]. cbn [observe_histogram h_count h_buckets]. rewrite H1, H2, El.
  split; [apply increment_small; lia |]. generalize httpDurationBuckets as bounds. induction bounds as [|b bounds IH]; [reflexivity |]. cbn [map zip_with].
  rewrite IH, within_app. f_equal. destruct (f64_leb _ b); [| cbn; lia]. apply increment_small; pose proof (within_le b l); lia.
Qed.
Lemma observe_all_counts l key : llen l < 2 ^ 64 -> counts_of (with_key key l) (m_http (observe_all l NewMetrics) !! key).
Proof.
  induction l as [|o l IH] using rev_ind; intros Hn; [reflexivity |].
  specialize (IH ltac:(rewrite llen_snoc in Hn; lia)).
  unfold observe_all. rewrite fold_left_app. fold (observe_all l NewMetrics). rewrite with_key_app. destruct o as [[[method route] status] duration]. cbn [fold_left].
  unfold with_key at 2. cbn [List.filter]. unfold ObserveHTTPRequest. cbv zeta. cbn [m_http]. destruct (decide (metric_key method route status = key)) as [<-|Hk].
  - rewrite bool_decide_eq_true_2 by reflexivity. rewrite lookup_insert_eq. apply (observe_histogram_counts _ (method, route, status, duration)); [| exact IH]. pose proof (with_key_le (metric_key method route status) l). rewrite llen_snoc in *. lia.
  - rewrite bool_decide_eq_false_2 by exact Hk. rewrite lookup_insert_ne by exact Hk. by rewrite app_nil_r.
Qed.

Lemma within_mono b c l : positive_float b = true -> positive_float c = true -> f64_leb b c = true -> llen (within b l) <= llen (within c l).
Proof.
  intros Hb Hc Hle. induction l as [|o l IH]; [reflexivity |]. rewrite !within_cons. pose proof (f64_leb_positive (observed_seconds (snd o)) b c Hb Hc Hle) as Ho.
  destruct (f64_leb (observed_seconds (snd o)) b), (f64_leb (observed_seconds (snd o)) c); try (discriminate (Ho eq_refl)); unfold Z.b2z; lia.
Qed.
(** The bounds ascend. *)
Fixpoint ascending (bounds : list float64) : bool :=
  match bounds with b :: ((c :: _) as rest) => positive_float b && positive_float c && f64_leb b c && ascending rest | _ => true end.
Lemma within_sorted l bounds : ascending bounds = true -> Sorted Z.le (map (fun b => llen (within b l)) bounds ++ [llen l]).
Proof.
  induction bounds as [|b [|c bounds] IH]; intros Ha; [repeat constructor | |].
  - cbn [map app]. repeat constructor. apply within_le.
  - cbn in Ha. apply andb_true_iff in Ha as [Ha Hr]. apply andb_true_iff in Ha as [Hp Hle]. apply andb_true_iff in Hp as [Hb Hc].
    constructor; [by apply IH |]. constructor. by apply within_mono.
Qed.

(** The histograms of the requests: a key that was not observed has none; otherwise its count is the number of the requests of the key and
    each bucket the number of those that took at most its bound, so the buckets are cumulative and none exceeds the count. *)
Theorem http_histograms l key : llen l < 2 ^ 64 ->
  match m_http (observe_all l NewMetrics) !! key with
  | None => with_key key l = []
  | Some h => h_count h = llen (with_key key l)
      /\ h_buckets h = map (fun bound => llen (within bound (with_key key l))) httpDurationBuckets
      /\ Sorted Z.le (h_buckets h ++ [h_count h])
  end.
Proof.
  intros Hn. pose proof (observe_all_counts l key Hn) as Hc. destruct (m_http _ !! key) as [h|]; [| exact Hc]. destruct Hc as (_ & H1 & H2).
  split; [exact H1 |]. split; [exact H2 |]. rewrite H1, H2. apply within_sorted. vm_compute. reflexivity.
Qed.
Lemma http_histograms_witness : forall h,
  m_http (observe_all [("GET", "/healthz", 200, 7 * Millisecond); ("GET", "/healthz", 204, Minute)]%string NewMetrics) !! mkKey "GET" "/healthz" "2xx" = Some h ->
  h_count h = 2 /\ nth 0 (h_buckets h) 0 = 0 /\ nth 1 (h_buckets h) 0 = 1 /\ nth 10 (h_buckets h) 0 = 1.
Proof.
  intros h H. pose proof (http_histograms [("GET", "/healthz", 200, 7 * Millisecond); ("GET", "/healthz", 204, Minute)]%string (mkKey "GET" "/healthz" "2xx")
    ltac:(vm_compute; reflexivity)) as Hh. rewrite H in Hh. destruct Hh as (H1 & H2 & _). rewrite H1, H2. vm_compute. auto.
Defined.

(** ** Redacted logs *)
(** Two values of a key that differ only where a key is sensitive. *)
Inductive alike : string -> LogValue -> LogValue -> Prop :=
  | alike_secret key v v' : sensitiveLogKey key = true -> alike key v v'
  | alike_same key v : alike key v v
  | alike_group key l l' : Forall2 alike_attr l l' -> alike key (LogGroup l) (LogGroup l')
  | alike_valuer key v v' : alike key v v' -> alike key (LogValuer v) (LogValuer v')
with alike_attr : Attr -> Attr -> Prop :=
  | alike_pair key v v' : alike key v v' -> alike_attr (key, v) (key, v').
(** A value of a key in which every sensitive key, at any depth, has the
    redacted value. *)
Fixpoint clean (key : string) (v : LogValue) : bool :=
  (negb (sensitiveLogKey key) || match v with LogString s => s =s redactedValue | _ => false end)
  && match v with LogGroup l => forallb (fun '(k, x) => clean k x) l | LogValuer _ => false | _ => true end.
Definition clean_attr (a : Attr) : bool := clean (fst a) (snd a).

Lemma redact_sensitive asks key v : sensitiveLogKey key = true -> redact_value asks key v = LogString redactedValue.
Proof. intros Hs. destruct v; cbn [redact_value]; by rewrite Hs. Qed.
Lemma redact_clean : forall v asks key, clean key (redact_value asks key v) = true.
Proof.
  fix IH 1. intros v asks key. destruct (sensitiveLogKey key) eqn:Hs.
  { rewrite redact_sensitive by exact Hs. cbn [clean]. by rewrite Hs. }
  destruct v as [s|z|b|l|text|v]; cbn [redact_value]; rewrite Hs; (destruct asks as [|asks]; [cbn [clean]; by rewrite Hs |]); cbn [clean];
    try (by rewrite Hs); [| apply IH].
  rewrite Hs. cbn [negb orb andb]. induction l as [|[k x] l IHl]; [reflexivity |]. cbn [map forallb]. rewrite IHl, andb_true_r. apply IH.
Qed.
Lemma redact_alike : forall key v v', alike key v v' -> forall asks, redact_value asks key v = redact_value asks key v'.
Proof.
  fix IH 4. intros key v v' Ha asks. destruct Ha as [key v v' Hs|key v|key l l' Hl|key v v' Hv].
  - by rewrite !redact_sensitive.
  - reflexivity.
  - cbn [redact_value]. destruct (sensitiveLogKey key); [reflexivity |]. destruct asks as [|asks]; [reflexivity |]. f_equal.
    induction Hl as [|a a' l l' Haa _ IHl]; [reflexivity |]. cbn [map]. f_equal; [| exact IHl]. destruct Haa as [k x x' Hx]. f_equal. by apply IH.
  - cbn [redact_value]. destruct (sensitiveLogKey key); [reflexivity |]. destruct asks as [|asks]; [reflexivity |]. by apply IH.
Qed.
Lemma redact_attributes_alike l l' : Forall2 alike_attr l l' -> map redactAttribute l = map redactAttribute l'.
Proof.
  induction 1 as [|a a' l l' Ha _ IH]; [reflexivity |]. cbn [map]. f_equal; [| exact IH]. destruct Ha as [key v v' Hv]. unfold redactAttribute. cbn [fst snd].
  f_equal. by apply redact_alike.
Qed.
Lemma redact_attributes_clean l : forallb clean_attr (map redactAttribute l) = true.
Proof. induction l as [|a l IH]; [reflexivity |]. cbn [map forallb]. rewrite IH, andb_true_r. apply redact_clean. Qed.

(** The loggers of the process: a new one, and those with more attributes. *)
Inductive made_logger : Logger -> Prop :=
  | made_new minimum : made_logger (NewJSONLogger minimum)
  | made_with l attributes : made_logger l -> made_logger (With l attributes).
Lemma made_clean l : made_logger l -> forallb clean_attr (lg_attrs l) = true.
Proof. induction 1 as [|l attributes _ IH]; [reflexivity |]. cbn [With lg_attrs]. rewrite forallb_app, IH. apply redact_attributes_clean. Qed.

(** C20. No value under a sensitive key reaches the log: whatever a logger of the process is given, now or by [With], what it writes has the
    redacted value at every sensitive key, also inside groups and computed values; and two calls whose attributes differ only under
    sensitive keys do the same. *)
Theorem logs_redacted {W} `{S : !LogSink W} l level message attributes : made_logger l ->
  (exists attrs, forallb clean_attr attrs = true
     /\ Log l level message attributes = (if Enabled l level then log_write (mkLogRecord level message attrs) else mret tt))
  /\ forall attributes', Forall2 alike_attr attributes attributes' ->
       With l attributes = With l attributes' /\ Log l level message attributes = Log l level message attributes'.
Proof.
  intros Hl. split.
  - exists (lg_attrs l ++ map redactAttribute attributes). rewrite forallb_app, (made_clean l Hl), redact_attributes_clean. by split.
  - intros attributes' Ha. apply redact_attributes_alike in Ha. unfold With, Log. by rewrite Ha.
Qed.
(** A log that keeps its records, and a login request with its password. *)
#[local] Instance kept_records : LogSink (list LogRecord) := {| log_write r := fun records => (Ok tt, records ++ [r]) |}.
Definition login (password : string) : list Attr :=
  [("user", LogString "ann"); ("request", LogGroup [("method", LogString "POST"); ("Admin-Password", LogValuer (LogString password))])]%string.
Lemma login_alike password password' : Forall2 alike_attr (login password) (login password').
Proof.
  constructor; [apply alike_pair, alike_same |]. constructor; [| constructor]. apply alike_pair, alike_group.
  constructor; [apply alike_pair, alike_same |]. constructor; [by apply alike_pair, alike_secret | constructor].
Qed.
Lemma logs_redacted_witness :
  Log (NewJSONLogger LevelInfo) LevelWarn "login" (login "hunter2") [] = Log (NewJSONLogger LevelInfo) LevelWarn "login" (login "swordfish") []
  /\ Log (NewJSONLogger LevelInfo) LevelWarn "login" (login "hunter2") []
     = (Ok tt, [mkLogRecord LevelWarn "login" [("user", LogString "ann");
         ("request", LogGroup [("method", LogString "POST"); ("Admin-Password", LogString "[REDACTED]")])]%string]).
Proof.
  destruct (logs_redacted (NewJSONLogger LevelInfo) LevelWarn "login" (login "hunter2") (made_new _)) as [_ H].
  split; [| reflexivity]. destruct (H (login "swordfish") (login_alike _ _)) as [_ ->]. reflexivity.
Defined.
