(* ===== verification/ServerFacts.v ===== *)
(** * Facts about the HTTP server

    Every request is answered, counted and logged once; the routes do not
    overlap, and those of the management API need the administrator's token. *)
From S2P Require Import Prelude Errors GoStrings GoTime GoJson External Domain MarketData Calendar CatchUp Incremental Ports Registry Ingestion Service Fixtures ManualTasks Worker GoSha256 Application Listing Subscriptions IngestionQueries MarketQueries InstrumentOptions ProviderStatus GoText GoJsonTree HttpCore HttpQueries HttpManagement AccessFacts Config ServiceHost Observability HttpServer Main.
Open Scope go_scope.

(** ** Observed requests *)
Section ObservedRequests.
Context `{U : UUIDLib} {W : Type} `{S : !LogSink W} `{R : !MetricsRegistry W} (newID : M W ID) (now : M W Time).
(** The log and the registry of a world: each is changed by its own operation
    and by nothing else. *)
Context (logs : W -> list LogRecord) (metrics : W -> Metrics).
Record observing : Prop := mkObserving {
  obs_log r w : exists w', log_write r w = (Ok tt, w') /\ logs w' = logs w ++ [r] /\ metrics w' = metrics w;
  obs_metrics f w : exists w', metrics_update f w = (Ok tt, w') /\ logs w' = logs w /\ metrics w' = f (metrics w);
  obs_clock w r w' : now w = (r, w') -> logs w' = logs w /\ metrics w' = metrics w;
  obs_ids w r w' : newID w = (r, w') -> logs w' = logs w /\ metrics w' = metrics w }.
Context (Hobs : observing).

Lemma requestIDForResponse_silent request w r w' : requestIDForResponse newID request w = (r, w') -> logs w' = logs w /\ metrics w' = metrics w.
Proof.
  unfold requestIDForResponse. destruct (ValidRequestID _); [intros [= _ <-]; by split |]. unfold mcatch, defaultRequestID, mbind, mwrap.
  destruct (newID w) as [x w1] eqn:E. pose proof (obs_ids Hobs _ _ _ E) as Hs. destruct x; cbn [wrap]; intros [= _ <-]; exact Hs.
Qed.
Lemma WriteError_silent writer request err w r w' : WriteError newID writer request err w = (r, w') -> logs w' = logs w /\ metrics w' = metrics w.
Proof.
  unfold WriteError, mbind. destruct (requestIDForResponse newID request w) as [x w1] eqn:E. pose proof (requestIDForResponse_silent _ _ _ _ E) as Hs.
  destruct x; [| intros [= _ <-]; exact Hs..]. destruct (classifyError err). cbn [WriteJSON rbind]. intros [= _ <-]. exact Hs.
Qed.
(** What a request is answered once its handler has ended. *)
Definition answered (ended : Ended) (response : ResponseWriter) : Prop :=
  match ended with
  | Returned writer => response = writer
  | Panicked writer =>
      (rw_Status writer <> None -> response = writer)
      /\ (rw_Status writer = None -> rw_Status response = Some 500
            /\ exists requestID, error_response writer response (NewError ErrorCodeInternal "internal server error" false NoDetails) requestID)
  end.
Lemma recover_response_answer request ended w response w' : recover_response newID request ended w = (Ok response, w') ->
  answered ended (ow_ResponseWriter response) /\ statusCode response = statusCode (observed (ow_ResponseWriter response))
  /\ ow_bytesWritten response = slen (rw_Body (ow_ResponseWriter response)) /\ logs w' = logs w /\ metrics w' = metrics w.
Proof.
  destruct ended as [writer|writer]; cbn [recover_response answered]; [intros H; apply pair_equal_spec in H as [H <-]; apply Ok_inj in H as <-; split; [reflexivity | split; [reflexivity | split; [reflexivity | split; reflexivity]]] |].
  cbv zeta. unfold observed at 1. cbn [ow_committed].
  destruct (rw_Status writer) as [s|] eqn:Es; cbn [not_nil is_nil negb]; intros H.
  - apply pair_equal_spec in H as [H <-]. apply Ok_inj in H as <-. cbn [ow_ResponseWriter observed].
    split; [split; [reflexivity | discriminate] | split; [reflexivity | split; [reflexivity | split; reflexivity]]].
  - unfold mbind, mret in H. destruct (WriteError newID writer request _ w) as [[x|e|] w1] eqn:Hw; [| discriminate H..].
    apply pair_equal_spec in H as [H <-]. apply Ok_inj in H as <-. pose proof (WriteError_silent _ _ _ _ _ _ Hw) as Hs.
    apply WriteError_ok in Hw as [requestID He]. cbn [ow_ResponseWriter observed].
    split; [| split; [reflexivity | split; [reflexivity | exact Hs]]]. split; [intros Hn; contradiction |]. intros _.
    split; [| by exists requestID]. unfold error_response in He. destruct He as (He & _). by rewrite He, Es.
Qed.

(** C19. Every request is answered and accounted for once, also when its handler panics: the response is the handler's, or an internal error
    when it panics before it answers; one request is counted in the registry, under the pattern it matched, its final status and a duration
    that is not negative, and one record is logged, with that status and the number of bytes of the body, at level error just for panics and
    for statuses from 500. *)
Theorem observed_requests logger seen next writer request w response w' : lg_minimum logger <= LevelInfo ->
  ObservabilityMiddleware newID now logger seen next writer request w = (Ok response, w') ->
  exists ended w1 w2 duration attributes, next writer request w1 = (Ok ended, w2) /\ logs w1 = logs w /\ metrics w1 = metrics w
    /\ answered ended response
    /\ let status := statusCode (observed response) in let route := routeForLog (fst (seen request)) in let method := req_Method (snd (seen request)) in
       let panicked := match ended with Panicked _ => true | Returned _ => false end in
       let level := accessLogLevel status panicked in
       0 <= duration /\ metrics w' = ObserveHTTPRequest method route status duration (metrics w2)
       /\ logs w' = logs w2 ++ [mkLogRecord level "http request completed" attributes]
       /\ In ("status_code"%string, LogInt64 status) attributes /\ In ("http_route"%string, LogString route) attributes
       /\ In ("response_bytes"%string, LogInt64 (slen (rw_Body response))) attributes
       /\ (level = LevelError <-> panicked = true \/ 500 <= status).
Proof.
  intros Hmin H. unfold ObservabilityMiddleware in H. unfold mbind at 1 in H. destruct (now w) as [[startedAt|e|] w1] eqn:E1; [| discriminate H..].
  unfold mbind at 1 in H. destruct (next writer request w1) as [[ended|e|] w2] eqn:E2; [| discriminate H..]. cbv zeta in H.
  unfold mbind at 1 in H. destruct (recover_response newID request ended w2) as [[x|e|] w3] eqn:E3; [| discriminate H..].
  unfold mbind at 1 in H. destruct (now w3) as [[finishedAt|e|] w4] eqn:E4; [| discriminate H..].
  destruct (seen request) as [pattern request'].
  set (duration := if Sub finishedAt startedAt <? 0 then 0 else Sub finishedAt startedAt) in *.
  destruct (obs_metrics Hobs (ObserveHTTPRequest (req_Method request') (routeForLog pattern) (statusCode x) duration) w4) as (w5 & E5 & L5 & M5).
  unfold mbind at 1 in H. rewrite E5 in H. unfold mbind at 1, Log, Enabled in H.
  set (panicked := match ended with Panicked _ => true | Returned _ => false end) in *.
  assert (lg_minimum logger <= accessLogLevel (statusCode x) panicked) as Hlevel.
  { unfold accessLogLevel, LevelInfo, LevelWarn, LevelError in *. destruct (_ || _); [lia |]. destruct (_ || _); lia. }
  cbn [LoggerFromContext With lg_minimum] in H. apply Z.leb_le in Hlevel. rewrite Hlevel in H.
  match type of H with context [log_write ?r w5] => destruct (obs_log Hobs r w5) as (w6 & E6 & L6 & M6) end. rewrite E6 in H.
  apply pair_equal_spec in H as [H <-]. apply Ok_inj in H as <-.
  destruct (recover_response_answer _ _ _ _ _ E3) as (Ha & Hstatus & Hbytes & L3 & M3). destruct (obs_clock Hobs _ _ _ E1) as [L1 M1].
  destruct (obs_clock Hobs _ _ _ E4) as [L4 M4].
  exists ended, w1, w2, duration. eexists. split; [exact E2 |]. split; [exact L1 |]. split; [exact M1 |]. split; [exact Ha |]. cbv zeta. cbn [fst snd].
  rewrite <- Hstatus, <- Hbytes. split; [unfold duration; destruct (Z.ltb_spec (Sub finishedAt startedAt) 0); lia |].
  split; [by rewrite M6, M5, M4, M3 |]. split; [by rewrite L6, L5, L4, L3 |].
  split; [apply in_app_iff; right; unfold access_attributes; cbn [app map In]; right; right; by left |].
  split; [apply in_app_iff; right; unfold access_attributes; cbn [app map In]; right; by left |].
  split; [apply in_app_iff; right; unfold access_attributes; cbn [app map In]; do 4 right; by left |].
  fold panicked. generalize panicked as p. unfold accessLogLevel, LevelInfo, LevelWarn, LevelError. intros []; cbn [orb]; [split; [intros _; by left | reflexivity] |].
  destruct (Z.leb_spec 500 (statusCode x)) as [Hs|Hs]; [split; [intros _; by right | reflexivity] |].
  destruct (_ || _). all: (split; [discriminate | intros [Hf|Hf]; [discriminate Hf | lia]]).
Qed.
End ObservedRequests.

(** A handler that writes a part of its answer and panics, and one that panics
    at once; a world that keeps its log and its registry. *)
Definition Kept : Type := list LogRecord * Metrics.
#[local] Instance kept_log : LogSink Kept := {| log_write r := fun w => (Ok tt, (fst w ++ [r], snd w)) |}.
#[local] Instance kept_metrics : MetricsRegistry Kept := {|
  metrics_state := fun w => (Ok (snd w), w); metrics_update f := fun w => (Ok tt, (fst w, f (snd w))) |}.
Definition kept_now : M Kept Time := mret morning.
Definition kept_id : M Kept ID := mret (uuid7 3).
Lemma kept_observing : observing kept_id kept_now fst snd.
Proof.
  split; [intros r w; eexists; by split | intros f w; eexists; by split | intros w r w' [= _ <-]; by split | intros w r w' [= _ <-]; by split].
Qed.
Definition panicking (writer : ResponseWriter) (request : Request) : M Kept Ended := mret (Panicked writer).
Definition get_request : Request := mkRequest "GET" EmptyString ∅ ∅ EmptyString (mkHttpContext (Some "req_1"%string) (mkContext None None)).
Definition recovered_run : result ResponseWriter * Kept :=
  ObservabilityMiddleware kept_id kept_now (NewJSONLogger LevelInfo) (fun r => ("GET /bars"%string, r)) panicking new_response get_request ([], NewMetrics).
Definition recovered_response : ResponseWriter := match fst recovered_run with Ok w => w | _ => new_response end.
Lemma observed_requests_witness :
  rw_Status recovered_response = Some 500
  /\ exists attributes, fst (snd recovered_run) = [mkLogRecord LevelError "http request completed" attributes].
Proof.
  destruct (observed_requests kept_id kept_now fst snd kept_observing (NewJSONLogger LevelInfo) (fun r => ("GET /bars"%string, r)) panicking new_response
    get_request ([], NewMetrics) recovered_response (snd recovered_run)) as (ended & w1 & w2 & duration & attributes & En & L1 & _ & Ha & H).
  { discriminate. }
  { reflexivity. }
  unfold panicking in En. apply pair_equal_spec in En as [En <-]. apply Ok_inj in En as <-. destruct Ha as [_ Ha]. destruct (Ha eq_refl) as [Hs _].
  split; [exact Hs |]. exists attributes. destruct H as (_ & _ & Hl & _). rewrite Hl, L1. reflexivity.
Defined.

(** ** The routes of the server *)
(** Whether two patterns have a path in common. *)
Fixpoint segments_overlap (p q : list string) : bool :=
  match p, q with
  | [], [] => true
  | s :: p, t :: q => (is_wildcard s || is_wildcard t || (s =s t)) && segments_overlap p q
  | _, _ => false
  end.
Definition patterns_overlap (p q : string) : bool :=
  (fst (Cut 32 p) =s fst (Cut 32 q)) && segments_overlap (Split 47 (pattern_path p)) (Split 47 (pattern_path q)).
Lemma match_path_overlap p q path v v' : match_path p path v <> None -> match_path q path v' <> None -> segments_overlap p q = true.
Proof.
  revert q path v v'. induction p as [|s p IH]; intros [|t q] [|x path] v v' Hp Hq; cbn [match_path segments_overlap] in *; try contradiction; [reflexivity |].
  assert (exists v1, match_path p path v1 <> None) as [v1 Hp1].
  { destruct (is_wildcard s); [destruct (_ =s _) in Hp; [contradiction | eauto] | destruct (s =s _) in Hp; [eauto | contradiction]]. }
  assert (exists v2, match_path q path v2 <> None) as [v2 Hq1].
  { destruct (is_wildcard t); [destruct (_ =s _) in Hq; [contradiction | eauto] | destruct (t =s _) in Hq; [eauto | contradiction]]. }
  rewrite (IH q path v1 v2 Hp1 Hq1), andb_true_r. destruct (is_wildcard s); [reflexivity |]. destruct (is_wildcard t); [reflexivity |]. cbn [orb].
  destruct (String.eqb_spec s (pathUnescape x)) as [->|]; [| contradiction]. destruct (String.eqb_spec t (pathUnescape x)) as [->|]; [| contradiction]. apply String.eqb_refl.
Qed.
(** A request's pattern, when its patterns are [GET] or another method but
    [HEAD]. *)
Lemma same_method method p q : method <> "HEAD"%string -> method_matches method p = true -> method_matches method q = true -> fst (Cut 32 p) = fst (Cut 32 q).
Proof.
  unfold method_matches. intros Hm Hp Hq. apply String.eqb_neq in Hm. rewrite Hm, andb_false_r, orb_false_r in Hp, Hq.
  apply String.eqb_eq in Hp, Hq. congruence.
Qed.
Lemma head_method p q : method_matches "HEAD" p = true -> method_matches "HEAD" q = true ->
  fst (Cut 32 p) <> "HEAD"%string -> fst (Cut 32 q) <> "HEAD"%string -> fst (Cut 32 p) = fst (Cut 32 q).
Proof.
  unfold method_matches. intros Hp Hq Np Nq. apply String.eqb_neq in Np, Nq. rewrite Np in Hp. rewrite Nq in Hq. cbn [orb] in Hp, Hq.
  apply andb_true_iff in Hp as [Hp _], Hq as [Hq _]. apply String.eqb_eq in Hp, Hq. congruence.
Qed.

Definition public_patterns : list string :=
  ["GET /healthz"; "GET /readyz"; "GET /metrics"; "GET " ++ instrumentOptionsPath; "POST " ++ instrumentPrecisionBatchPath;
   "GET " ++ latestQuotesPath; "GET " ++ barsPath]%string.
Definition management_patterns : list string :=
  ["GET " ++ collectionSubscriptionsPath; "POST " ++ collectionSubscriptionsPath; "PATCH " ++ collectionSubscriptionsPath ++ "/{subscription_id}";
   "POST " ++ ingestionBackfillPath; "GET " ++ ingestionRunsPath; "GET " ++ ingestionRunsPath ++ "/{run_id}"; "GET " ++ ingestionTasksPath;
   "GET " ++ ingestionTasksPath ++ "/{task_id}"; "POST " ++ ingestionTaskCommandPath ++ "/retry"; "POST " ++ ingestionTaskCommandPath ++ "/cancel";
   "GET " ++ providerStatusPath]%string.
(** No two patterns of the service have a request in common. *)
Lemma patterns_apart : forallb (fun p => forallb (fun q => (p =s q) || negb (patterns_overlap p q)) (public_patterns ++ management_patterns))
  (public_patterns ++ management_patterns) = true.
Proof. vm_compute. reflexivity. Qed.
Lemma no_head_pattern p : In p (public_patterns ++ management_patterns) -> fst (Cut 32 p) <> "HEAD"%string.
Proof. intros Hp E. assert (forallb (fun p => negb (fst (Cut 32 p) =s "HEAD")) (public_patterns ++ management_patterns) = true) as Hall by (vm_compute; reflexivity).
  rewrite forallb_forall in Hall. specialize (Hall p Hp). by rewrite E in Hall.
Qed.
Lemma one_pattern method path p q : In p (public_patterns ++ management_patterns) -> In q (public_patterns ++ management_patterns) ->
  method_matches method p = true -> method_matches method q = true -> match_route path p <> None -> match_route path q <> None -> p = q.
Proof.
  intros Hp Hq Mp Mq Rp Rq. pose proof patterns_apart as Ha. rewrite forallb_forall in Ha. specialize (Ha p Hp). rewrite forallb_forall in Ha. specialize (Ha q Hq).
  destruct (String.eqb_spec p q) as [|_]; [assumption |]. cbn [orb] in Ha. apply negb_true_iff in Ha. exfalso. revert Ha. unfold patterns_overlap.
  rewrite (match_path_overlap _ _ _ _ _ Rp Rq), andb_true_r. assert (fst (Cut 32 p) = fst (Cut 32 q)) as ->.
  { destruct (decide (method = "HEAD"%string)) as [->|Hm]; [by apply head_method; [.. | apply no_head_pattern | apply no_head_pattern] | by apply (same_method method)]. }
  rewrite String.eqb_refl. discriminate.
Qed.
Lemma public_apart p : In p public_patterns -> In p management_patterns -> False.
Proof.
  intros Hp Hm. assert (forallb (fun p => negb (contains_string management_patterns p)) public_patterns = true) as Hall by (vm_compute; reflexivity).
  rewrite forallb_forall in Hall. specialize (Hall p Hp). apply contains_string_In in Hm. by rewrite Hm in Hall.
Qed.

Section Server.
Context `{D : DecimalLib} `{T : TzLib} `{U : UUIDLib} {W : Type}
  `{!ReadinessDB W} `{!QueryCatalog W} `{!BarReader W} `{!LatestQuoteReader W} `{!InstrumentOptionsReader W} `{!SubscriptionStore W}
  `{!IngestionQueryReader W} `{!BackfillStore W} `{!ManualTaskStore W} `{!IngestionStore W} `{!MetricsRegistry W} `{!LogSink W}
  (read_task_metrics : Time -> M W TaskMetricsSnapshot) (status_sources : Time -> M W (list ProviderStatusSource))
  (now : M W Time) (newID : M W ID).

Lemma find_route_In (routes : Routes W) method path pattern handler values : find_route routes method path = Some (pattern, handler, values) ->
  In (pattern, handler) routes /\ match_route path pattern = Some values /\ method_matches method pattern = true.
Proof.
  induction routes as [|[p h] routes IH]; intros H; cbn [find_route] in H; [discriminate H |].
  destruct (match_route path p) as [v|] eqn:Er; [destruct (method_matches method p) eqn:Em |].
  - injection H as -> -> ->. split; [by left | by split].
  - destruct (IH H) as (H1 & H2). split; [by right | exact H2].
  - destruct (IH H) as (H1 & H2). split; [by right | exact H2].
Qed.
Lemma find_route_exists (routes : Routes W) method path pattern handler : In (pattern, handler) routes -> match_route path pattern <> None ->
  method_matches method pattern = true -> exists p h v, find_route routes method path = Some (p, h, v).
Proof.
  intros Hin Hr Hm. induction routes as [|[p h] routes IH]; [destruct Hin |]. cbn [find_route]. destruct (match_route path p) as [v|] eqn:Er.
  - destruct (method_matches method p) eqn:Em; [eauto |]. destruct Hin as [[= -> ->]|Hin]; [congruence | by apply IH].
  - destruct Hin as [[= -> ->]|Hin]; [contradiction | by apply IH].
Qed.

Definition guarded `{A : Authenticator W} (h : Handler W) : Prop := exists permission handler, protect newID permission handler = Ok h.
Lemma protected_routes_guarded `{A : Authenticator W} routes protected : protected_routes newID routes = Ok protected ->
  map fst protected = map (fun r => fst (fst r)) routes /\ Forall (fun r => guarded (snd r)) protected.
Proof.
  revert protected. induction routes as [|[[pattern permission] handler] routes IH]; intros protected H; cbn [protected_routes] in H.
  { apply Ok_inj in H as <-. split; [reflexivity | constructor]. }
  apply rbind_ok in H as (h & Hh & H). apply rbind_ok in H as (rest & Hrest & H). apply Ok_inj in H as <-. destruct (IH _ Hrest) as [I1 I2].
  split; [cbn [map fst]; by rewrite I1 | constructor; [by exists permission, handler | exact I2]].
Qed.
Lemma http_routes_guarded backfills retries latest calendar entries routes :
  http_routes read_task_metrics status_sources now newID backfills retries latest calendar entries = Ok routes ->
  exists open closed, routes = open ++ closed /\ map fst open = public_patterns /\ map fst closed = management_patterns
    /\ Forall (fun r => guarded (A := static_authenticator_of entries) (snd r)) closed.
Proof.
  unfold http_routes. cbv zeta. intros H.
  apply rbind_ok in H as (r1 & E1 & H). apply rbind_ok in H as (r2 & E2 & H). apply rbind_ok in H as (r3 & E3 & H).
  apply rbind_ok in H as (r4 & E4 & H). apply rbind_ok in H as (r5 & E5 & H). apply Ok_inj in H.
  apply wrap_ok in E1, E2, E3, E4, E5.
  unfold RegisterSubscriptionRoutes in E1. unfold RegisterBackfillRoutes in E2. unfold RegisterIngestionQueryRoutes in E3.
  unfold RegisterIngestionTaskCommandRoutes in E4. unfold RegisterProviderStatusRoutes in E5.
  destruct (protected_routes_guarded _ _ E1) as [M1 G1]. destruct (protected_routes_guarded _ _ E2) as [M2 G2].
  destruct (protected_routes_guarded _ _ E3) as [M3 G3]. destruct (protected_routes_guarded _ _ E4) as [M4 G4].
  destruct (protected_routes_guarded _ _ E5) as [M5 G5]. clear E1 E2 E3 E4 E5.
  exists (health_routes (Checker_Check latest)
    ++ metrics_routes (S := {| ReadTaskMetrics := read_task_metrics; ListProviders := ProviderStatusService_List calendar status_sources now |})
         (Checker_Check latest) now
    ++ @RegisterPublicQueryRoutes _ _ _ newID (instrument_options_service now) (instrument_precision_service now) (latest_quotes_service now) (bars_service now)).
  exists (r1 ++ r2 ++ r3 ++ r4 ++ r5). split; [rewrite <- H, <- !app_assoc; reflexivity |]. split; [reflexivity |].
  split; [rewrite !map_app, M1, M2, M3, M4, M5; reflexivity |]. repeat (apply List.Forall_app; split; [assumption |]). assumption.
Qed.

(** What a computation leaves as it is. *)
Definition leaves {V A} (f : W -> V) (c : M W A) : Prop := forall w r w', c w = (r, w') -> f w' = f w.
Lemma leaves_ret {V A} (f : W -> V) (a : A) : leaves f (mret a).
Proof. by intros w r w' [= _ <-]. Qed.
Lemma leaves_bind {V A B} (f : W -> V) (c : M W A) (k : A -> M W B) : leaves f c -> (forall a, leaves f (k a)) -> leaves f (mbind c k).
Proof.
  intros Hc Hk w r w'. unfold mbind. destruct (c w) as [[a|e|] w1] eqn:E; [| intros [= _ <-]; by apply (Hc _ _ _ E)..].
  intros Hr. rewrite (Hk _ _ _ _ Hr). by apply (Hc _ _ _ E).
Qed.
Lemma leaves_try {V A} (f : W -> V) (c : M W A) : leaves f c -> leaves f (mtry c).
Proof. intros Hc w r w'. unfold mtry. destruct (c w) as [[a|e|] w1] eqn:E; intros [= _ <-]; by apply (Hc _ _ _ E). Qed.
Lemma leaves_wrap {V A} (f : W -> V) text (c : M W A) : leaves f c -> leaves f (mwrap text c).
Proof. intros Hc w r w'. unfold mwrap. destruct (c w) as [x w1] eqn:E. intros [= _ <-]. by apply (Hc _ _ _ E). Qed.
Lemma leaves_catch {V A} (f : W -> V) (c : M W A) h : leaves f c -> (forall e, leaves f (h e)) -> leaves f (mcatch c h).
Proof.
  intros Hc Hh w r w'. unfold mcatch. destruct (c w) as [[a|e|] w1] eqn:E; [intros [= _ <-] | | intros [= _ <-]]; [by apply (Hc _ _ _ E) | | by apply (Hc _ _ _ E)].
  intros Hr. rewrite (Hh _ _ _ _ Hr). by apply (Hc _ _ _ E).
Qed.
Lemma leaves_lift {V A} (f : W -> V) (r : result A) : leaves f (mlift r).
Proof. by intros w x w' [= _ <-]. Qed.

Section Kept.
Context {V : Type} (f : W -> V) (Hid : leaves f newID) (Hnow : leaves f now) (Hmetrics : forall g, leaves f (metrics_update g)) (Hlog : forall x, leaves f (log_write x)).
Lemma defaultRequestID_leaves : leaves f (defaultRequestID newID).
Proof. apply leaves_bind; [by do 2 apply leaves_wrap | intros; apply leaves_ret]. Qed.
Lemma requestIDForResponse_leaves request : leaves f (requestIDForResponse newID request).
Proof. unfold requestIDForResponse. destruct (ValidRequestID _); [apply leaves_ret |]. apply leaves_catch; [apply defaultRequestID_leaves | intros; apply leaves_ret]. Qed.
Lemma WriteError_leaves writer request err : leaves f (WriteError newID writer request err).
Proof.
  unfold WriteError. apply leaves_bind; [apply requestIDForResponse_leaves |]. intros requestID. destruct (classifyError err). cbn [WriteJSON rbind]. apply leaves_ret.
Qed.
Lemma recover_response_leaves request ended : leaves f (recover_response newID request ended).
Proof.
  destruct ended as [writer|writer]; cbn [recover_response]; [apply leaves_ret |]. apply leaves_bind; [| intros; apply leaves_ret].
  destruct (ow_committed _); [apply leaves_ret | apply WriteError_leaves].
Qed.
Lemma middleware_leaves logger seen next writer request : leaves f (next writer request) ->
  leaves f (ObservabilityMiddleware newID now logger seen next writer request).
Proof.
  intros Hn. unfold ObservabilityMiddleware. apply leaves_bind; [exact Hnow |]. intros startedAt. apply leaves_bind; [exact Hn |]. intros ended.
  apply leaves_bind; [apply recover_response_leaves |]. intros response. apply leaves_bind; [exact Hnow |]. intros finishedAt.
  destruct (seen request) as [pattern request']. apply leaves_bind; [apply Hmetrics |]. intros _. apply leaves_bind; [| intros; apply leaves_ret].
  unfold Log. destruct (Enabled _ _); [apply Hlog | apply leaves_ret].
Qed.
End Kept.

(** ** A request without the token *)
Definition unauthenticated : error := NewError ErrorCodeUnauthenticated "authentication required" false NoDetails.
Lemma guarded_refused entries handler writer request w : guarded (A := static_authenticator_of entries) handler ->
  (forall token, bearerToken request = Ok token -> Authenticate entries token = Err (Sentinel ErrInvalidCredentials)) ->
  handler writer request w = writeUnauthenticated newID writer request w.
Proof.
  intros (permission & h & Hp) Ht. unfold protect in Hp. apply rbind_ok in Hp as (middleware & _ & Hp). apply Ok_inj in Hp as <-.
  unfold NewAuthenticationMiddleware. destruct (bearerToken request) as [token|e|]; [| reflexivity..]. specialize (Ht token eq_refl).
  assert (Authenticator_Authenticate (Authenticator := static_authenticator_of (W := W) entries) token w = (Err (Sentinel ErrInvalidCredentials), w)) as E.
  { cbn [Authenticator_Authenticate static_authenticator_of]. unfold mlift. by rewrite Ht. }
  rewrite (bind_try_ok _ _ _ _ _ E) by discriminate. reflexivity.
Qed.
Lemma mux_refused entries (open closed : Routes W) path pattern writer request :
  map fst open = public_patterns -> map fst closed = management_patterns -> Forall (fun r => guarded (A := static_authenticator_of entries) (snd r)) closed ->
  In pattern management_patterns -> match_route path pattern <> None -> method_matches (req_Method request) pattern = true ->
  (forall token, bearerToken request = Ok token -> Authenticate entries token = Err (Sentinel ErrInvalidCredentials)) ->
  exists request', forall w, ServeMux (open ++ closed) path writer request w = writeUnauthenticated newID writer request' w.
Proof.
  intros Ho Hc Hg Hin Hr Hm Ht. assert (exists handler, In (pattern, handler) closed) as [handler Hh].
  { rewrite <- Hc in Hin. apply in_map_iff in Hin as ([p h] & <- & Hin). by exists h. }
  destruct (find_route_exists (open ++ closed) (req_Method request) path pattern handler) as (p & h & v & Hf); [apply in_app_iff; by right | exact Hr | exact Hm |].
  destruct (find_route_In _ _ _ _ _ _ Hf) as (Hph & Hrp & Hmp).
  assert (forall (l : Routes W) x y, In (x, y) l -> In x (map fst l)) as Hfst.
  { clear. intros l x y Hl. by apply (in_map fst) in Hl. }
  assert (In p (public_patterns ++ management_patterns)) as Hpp.
  { rewrite <- Ho, <- Hc, <- map_app. by apply (Hfst _ p h). }
  assert (p = pattern) as ->.
  { apply (one_pattern (req_Method request) path); try assumption; [apply in_app_iff; by right |]. rewrite Hrp. discriminate. }
  exists (snd (seen_request (open ++ closed) path request)). intros w. unfold ServeMux. rewrite Hf. unfold seen_request. rewrite Hf. cbn [snd].
  apply in_app_iff in Hph as [Hph|Hph].
  - exfalso. apply (public_apart pattern); [| exact Hin]. rewrite <- Ho. by apply (Hfst _ pattern h).
  - apply (guarded_refused entries); [| exact Ht]. by apply (proj1 (List.Forall_forall _ _) Hg (pattern, h)).
Qed.

Lemma unauthenticated_answer writer request w response w' : rw_Status writer = None ->
  writeUnauthenticated newID writer request w = (Ok response, w') -> rw_Status response = Some 401.
Proof.
  intros Hs Hw. unfold writeUnauthenticated in Hw. apply WriteError_ok in Hw as [requestID Hw]. unfold error_response in Hw. destruct Hw as (E & _).
  cbn [SetHeader rw_Status] in E. rewrite Hs in E. exact E.
Qed.
(** The server's routes and its authenticator. *)
Lemma buildHTTPServer_routes c server handler : buildHTTPServer read_task_metrics status_sources now newID c = Ok (server, handler) ->
  exists open closed entries, handler = server_handler now newID (open ++ closed) /\ map fst open = public_patterns /\ map fst closed = management_patterns
    /\ Forall (fun r => guarded (A := static_authenticator_of entries) (snd r)) closed
    /\ forall token, sha256 token <> sha256 (AdminBearerToken c) -> Authenticate entries token = Err (Sentinel ErrInvalidCredentials).
Proof.
  unfold buildHTTPServer. intros Hb. do 8 (apply rbind_ok in Hb as (? & _ & Hb)). apply rbind_ok in Hb as (entries & He & Hb).
  apply rbind_ok in Hb as (routes & Hr & Hb). apply rbind_ok in Hb as (s & _ & Hb). apply Ok_inj in Hb. injection Hb as <- <-.
  apply http_routes_guarded in Hr as (open & closed & -> & Ho & Hc & Hg). exists open, closed, entries. split; [reflexivity |].
  split; [exact Ho |]. split; [exact Hc |]. split; [exact Hg |]. intros token Ht. apply wrap_ok in He.
  cbn [NewStaticBearerAuthenticator static_entries cred_Token cred_Principal] in He. destruct (is_err _) in He; [discriminate He |].
  destruct (is_err _) in He; [discriminate He |]. cbn [existsb rbind] in He. apply Ok_inj in He as <-. cbn [Authenticate List.find entry_digest].
  by rewrite bool_decide_eq_false_2.
Qed.
(** The handler of the server, once the request's identity is known. *)
Lemma request_id_cases next writer request w r w' : WithRequestID newID next writer request w = (r, w') ->
  (exists requestID w1, next (SetHeader writer RequestIDHeader requestID)
      (WithContext request (mkHttpContext (Some requestID) (hc_Application (req_Context request)))) w1 = (r, w')
      /\ forall V (f : W -> V), leaves f newID -> f w1 = f w)
  \/ (ValidRequestID (Header_Get (req_Header request) RequestIDHeader) = false
      /\ (exists request' cause w1, WriteError newID writer request' (WrapError cause ErrorCodeInternal "internal server error" false NoDetails) w1 = (r, w')
             /\ forall V (f : W -> V), leaves f newID -> f w1 = f w))
  \/ (r = Diverge /\ forall V (f : W -> V), leaves f newID -> f w' = f w).
Proof.
  unfold WithRequestID, NewRequestIDMiddleware. cbv zeta. destruct (ValidRequestID (Header_Get _ _)); [intros Hn; left; do 2 eexists; split; [exact Hn | reflexivity] |].
  unfold mbind, mtry. destruct (defaultRequestID newID w) as [x w1] eqn:E.
  assert (forall V (f : W -> V), leaves f newID -> f w1 = f w) as Hk by (intros V f Hf; by apply (defaultRequestID_leaves f Hf _ _ _ E)).
  destruct x as [requestID|e|]; [| | intros [= <- <-]; right; right; by split].
  - destruct (ValidRequestID requestID); intros Hn; [left; do 2 eexists; split; [exact Hn | exact Hk] |].
    right. left. split; [reflexivity |]. do 3 eexists. split; [exact Hn | exact Hk].
  - intros Hn. right. left. split; [reflexivity |]. do 3 eexists. split; [exact Hn | exact Hk].
Qed.

Lemma middleware_answer logger seen h writer request w response w' :
  ObservabilityMiddleware newID now logger seen (returning h) writer request w = (Ok response, w') -> exists w1 w2, h writer request w1 = (Ok response, w2).
Proof.
  intros Hn. unfold ObservabilityMiddleware, returning in Hn. unfold mbind at 1 in Hn. destruct (now w) as [[startedAt|e|] w1]; [| discriminate Hn..].
  unfold mbind at 1 2 in Hn. destruct (h writer request w1) as [[answer|e|] w2] eqn:E; [| discriminate Hn..]. exists w1, w2. rewrite E. f_equal. f_equal.
  cbn [mret recover_response] in Hn. cbv zeta in Hn. unfold mret at 1 in Hn. unfold mbind at 1 in Hn. unfold mret at 1 in Hn. unfold mbind at 1 in Hn.
  destruct (now w2) as [[finishedAt|e|] w3]; [| discriminate Hn..].
  destruct (seen request) as [pattern request']. unfold mbind at 1 in Hn. destruct (metrics_update _ w3) as [[u|e|] w4]; [| discriminate Hn..].
  unfold mbind at 1 in Hn. destruct (Log _ _ _ _ w4) as [[u'|e|] w5]; [| discriminate Hn..].
  apply pair_equal_spec in Hn as [Hn _]. apply Ok_inj in Hn as <-. reflexivity.
Qed.

(** C6. Nothing of the management API runs without the administrator's token: a request to one of its eleven routes that does not carry it is
    answered 401, or 500 when no identity could be made for the request, and leaves everything as it is that the clock, the generator of
    identities, the registry and the log leave. *)
Theorem management_needs_token c server handler path pattern request w r w' :
  buildHTTPServer read_task_metrics status_sources now newID c = Ok (server, handler) ->
  In pattern management_patterns -> match_route path pattern <> None -> method_matches (req_Method request) pattern = true ->
  (forall token, bearerToken request = Ok token -> sha256 token <> sha256 (AdminBearerToken c)) ->
  handler path new_response request w = (r, w') ->
  (forall response, r = Ok response -> rw_Status response = Some 401
     \/ rw_Status response = Some 500 /\ ValidRequestID (Header_Get (req_Header request) RequestIDHeader) = false)
  /\ forall V (f : W -> V), leaves f newID -> leaves f now -> (forall g, leaves f (metrics_update g)) -> (forall x, leaves f (log_write x)) -> f w' = f w.
Proof.
  intros Hb Hin Hr Hm Ht Hrun. apply buildHTTPServer_routes in Hb as (open & closed & entries & -> & Ho & Hc & Hg & Ha). unfold server_handler in Hrun.
  destruct (request_id_cases _ _ _ _ _ _ Hrun) as [(requestID & w1 & Hn & Hk) | [(Hid & request' & cause & w1 & Hn & Hk) | (-> & Hk)]].
  - set (request1 := WithContext request _) in Hn. set (writer1 := SetHeader new_response _ _) in Hn.
    destruct (mux_refused entries open closed path pattern writer1 request1) as [request' Hmux]; try assumption; [intros token Htoken; by apply Ha, Ht |]. split.
    + intros response ->. left. apply middleware_answer in Hn as (w2 & w3 & Hn). rewrite Hmux in Hn. by apply (unauthenticated_answer writer1) in Hn.
    + intros V f K1 K2 K3 K4. rewrite <- (Hk V f K1). revert Hn. apply middleware_leaves; try assumption. unfold returning.
      apply leaves_bind; [| intros; apply leaves_ret]. intros w2 r2 w3. rewrite Hmux. by apply WriteError_leaves.
  - split.
    + intros response ->. right. split; [| exact Hid]. apply WriteError_ok in Hn as [requestID He]. unfold error_response in He. destruct He as (E & _). exact E.
    + intros V f K1 _ _ _. rewrite <- (Hk V f K1). revert Hn. by apply WriteError_leaves.
  - split; [discriminate |]. intros V f K1 _ _ _. by apply Hk.
Qed.
End Server.
