(* ===== verification/ProcessFixtures.v ===== *)
(** * Concrete runs of the process

    A world that counts what is open, and the witnesses of the theorems about
    the process. Nothing here models code. *)
From S2P Require Import Prelude Errors GoStrings GoTime GoJson External Domain MarketData Calendar CatchUp Incremental Ports Registry Ingestion Service Fixtures ManualTasks Worker Application Listing Subscriptions IngestionQueries MarketQueries InstrumentOptions ProviderStatus GoText GoJsonTree HttpCore HttpQueries HttpManagement ProviderClient Bybit CoinGecko Longbridge Config ServiceHost Observability HttpServer Main ProcessFacts ServerFacts.
Open Scope go_scope.

(** What is open, and how often something was opened. *)
Definition Opened : Type := Z * Z.
Definition none {A} : M Opened A := mthrow (Plain "unavailable").
Definition opening : M Opened unit := fun w => (Ok tt, (fst w + 1, snd w + 1)).
Definition closing : M Opened unit := fun w => (Ok tt, (fst w - 1, snd w)).
#[local] Instance any_url : HttpLib := {|
  url_Parse _ := Some (mkURL "https" "api.test" false EmptyString EmptyString EmptyString); http_ParseTime _ := None |}.
#[local] Instance no_http : HttpClient Opened := {| http_NewRequest _ := None; http_Do _ _ := none |}.
#[local] Instance sdk_client : Client Opened := {| client_Quote _ := none; client_HistoryCandlesticksByOffset _ _ _ _ := none; client_Close := closing |}.
#[local] Instance sdk : Sdk Opened := {| sdk_Config := unit; lbconfig_New := mret tt; lbquote_NewFromCfg _ := opening |}.
#[local] Instance sdk_errors : SdkErrors := {| as_LBError _ := None; as_netError _ := false |}.
#[local] Instance pool : PgxPool Opened := {|
  pgx_Config := unit; pgx_ParseConfig _ := Ok tt; pgx_limits c _ := c; pgxpool_NewWithConfig _ := opening; pool_Close := closing |}.
#[local] Instance database : ReadinessDB Opened := {| db_Ping := mret tt; db_AppliedVersion := mret LatestVersion |}.
#[local] Instance no_catalog : QueryCatalog Opened.
Proof. split; intros; exact none. Defined.
#[local] Instance no_bars : BarReader Opened.
Proof. split; intros; exact none. Defined.
#[local] Instance no_quotes : LatestQuoteReader Opened.
Proof. split; intros; exact none. Defined.
#[local] Instance no_options : InstrumentOptionsReader Opened.
Proof. split; intros; exact none. Defined.
#[local] Instance no_subscriptions : SubscriptionStore Opened.
Proof. split; intros; exact none. Defined.
#[local] Instance no_queries : IngestionQueryReader Opened.
Proof. split; intros; exact none. Defined.
#[local] Instance no_backfills : BackfillStore Opened.
Proof. split; intros; exact none. Defined.
#[local] Instance no_manual_tasks : ManualTaskStore Opened.
Proof. split; intros; exact none. Defined.
#[local] Instance no_ingestion : IngestionStore Opened.
Proof. split; intros; exact none. Defined.
#[local] Instance no_metrics : MetricsRegistry Opened := {| metrics_state := none; metrics_update _ := mret tt |}.
#[local] Instance no_log : LogSink Opened := {| log_write _ := mret tt |}.
Definition at_morning : M Opened Time := mret morning.
Definition not_canceled : M Opened (option error) := mret None.
Definition next_id : M Opened ID := mret (uuid7 9).
Definition no_tasks (_ : Time) : M Opened TaskMetricsSnapshot := none.
Definition no_statuses (_ : Time) : M Opened (list ProviderStatusSource) := none.
Definition failing_host (components : list (Component Opened)) : M Opened unit := mthrow (Plain "worker component failed").

(** ** A worker of two providers, whose host fails *)
Definition worker_environment (name : string) : option string :=
  if name =s "MARKET_INFO_DATABASE_URL" then Some "postgres://db"%string
  else if name =s "MARKET_INFO_ENABLED_PROVIDERS" then Some "longbridge,coingecko"%string
  else None.
Lemma opened_accounted : accounted not_canceled next_id failing_host fst 1 1.
Proof.
  split; try (intros w r w' [= <- <-] _; cbn; lia); intros c w r w' [= <- <-] _; cbn; lia.
Qed.
Definition worker_run : M Opened unit := run no_tasks no_statuses at_morning not_canceled next_id failing_host worker_environment ["worker"%string].
Lemma run_releases_witness : is_ok (fst (worker_run (0, 0))) = false /\ fst (snd (worker_run (0, 0))) = 0 /\ snd (snd (worker_run (0, 0))) = 2.
Proof.
  split; [reflexivity |]. split; [| reflexivity].
  apply (run_releases no_tasks no_statuses at_morning not_canceled next_id failing_host fst 1 1 opened_accounted worker_environment ["worker"%string]
    (0, 0) (fst (worker_run (0, 0)))); [apply surjective_pairing | vm_compute; discriminate].
Defined.

(** ** CoinGecko with the default pages *)
Definition nyse_calendar : TradingCalendar :=
  match NewNYSECalendar [] with Ok c => nyse_TradingCalendar c | _ => mkTradingCalendar None (fun _ => Diverge) (fun _ => Diverge) (fun _ => Diverge) (fun _ => Diverge) end.
Definition worker_config : Config.Config := match LoadForMode worker_environment RuntimeModeWorker with Ok c => c | _ => default_config worker_environment end.
Lemma worker_config_loaded : LoadForMode worker_environment RuntimeModeWorker = Ok worker_config.
Proof. reflexivity. Qed.
Definition worker_registry : Registry Opened * nat :=
  match fst (buildAdapterRegistry at_morning not_canceled worker_config nyse_calendar (0, 0)) with Ok r => r | _ => (mkRegistry ∅ [], O) end.
Lemma worker_registry_built :
  buildAdapterRegistry at_morning not_canceled worker_config nyse_calendar (0, 0) = (Ok (fst worker_registry, snd worker_registry), (1, 1)).
Proof. reflexivity. Qed.
Definition fx_reference : ProviderInstrumentRef := {|
  ref_ProviderInstrumentID := uuid7 4; ref_ProviderInstrumentCode := "provider.coingecko.usdt-usd"; ref_InstrumentID := uuid7 2;
  ref_AssetID := uuid7 1; ref_ProviderCode := "coingecko"; ref_ProviderMarket := "fx"; ref_AssetType := AssetTypeFX;
  ref_InstrumentType := InstrumentTypeFX; ref_ExternalSymbol := "tether"; ref_InstrumentCode := "instrument.fx.usdt-usd";
  ref_InstrumentSymbol := "USDTUSD"; ref_QuoteCurrency := "USD"; ref_Metadata := "{}" |}.
Definition default_page : FetchBarsRequest :=
  mkFetchBarsRequest fx_reference BarInterval1Day (Date_UTC 2026 7 25 0 0) (Date_UTC 2026 7 27 0 0) 500 EmptyString.
Definition default_service_config : Ingestion.Config := Ingestion.mkConfig 500 20 defaultRetryBackoffs Hour.
Definition any_coingecko : MarketDataAdapter Opened :=
  CoinGecko.market_data_adapter at_morning not_canceled (mkHttpAdapter "coingecko" (mkURL "https" "api.test" false EmptyString EmptyString EmptyString) "test" 4096).
Lemma coingecko_default_pages_witness :
  IngestionBarsPerPage worker_config = 500
  /\ exists e, fetchAllBars default_service_config (fst worker_registry) not_canceled any_coingecko default_page (1, 1) = (Err e, (1, 1))
       /\ fail_ErrorCode (failureCommit default_service_config claim e morning) = "provider_limit_exceeded"%string.
Proof.
  split; [reflexivity |].
  destruct (coingecko_default_pages at_morning not_canceled worker_environment RuntimeModeWorker worker_config nyse_calendar (0, 0) (fst worker_registry)
    (snd worker_registry) (1, 1) default_service_config eq_refl worker_config_loaded (or_introl eq_refl) worker_registry_built eq_refl) as (_ & _ & H).
  destruct (H any_coingecko default_page (1, 1) (1, 1) eq_refl eq_refl eq_refl eq_refl eq_refl eq_refl eq_refl eq_refl) as (e & He & Hc).
  exists e. split; [exact He | apply Hc].
Defined.

(** ** A configuration of both modes *)
Definition all_environment (name : string) : option string :=
  if name =s "MARKET_INFO_ADMIN_BEARER_TOKEN" then Some "s3cret-token"%string else worker_environment name.
Definition all_config : Config.Config := match LoadForMode all_environment RuntimeModeAll with Ok c => c | _ => default_config all_environment end.
Lemma nyse_built : exists nyse, NewNYSECalendar [] = Ok nyse.
Proof. eexists. reflexivity. Qed.
Lemma opened_collaborators : collaborators next_id not_canceled.
Proof.
  split.
  - intros w. by exists w.
  - intros w. exists (uuid7 9), w. split; [reflexivity |]. split; reflexivity.
  - intros w. by exists tt, w.
  - intros c w. by eexists.
Qed.
Lemma accepted_configuration_witness :
  LoadForMode all_environment RuntimeModeAll = Ok all_config /\ ParsePoolConfig (pool_config all_config) = Ok tt
  /\ is_ok (buildHTTPServer no_tasks no_statuses at_morning next_id all_config) = true
  /\ is_ok (fst (buildBackgroundComponents at_morning not_canceled next_id all_config (0, 0))) = true.
Proof.
  assert (LoadForMode all_environment RuntimeModeAll = Ok all_config) as Hload by reflexivity. destruct nyse_built as [nyse Hnyse].
  destruct (accepted_configuration no_tasks no_statuses at_morning next_id not_canceled opened_collaborators all_environment RuntimeModeAll all_config nyse
    Hload Hnyse) as (Hpool & Hhttp & Hworker).
  split; [exact Hload |]. split; [exact Hpool |]. split; [apply Hhttp; discriminate |].
  rewrite Hworker by discriminate. reflexivity.
Defined.

(** ** A request without the token *)
Definition list_runs : Request := mkRequest "GET" EmptyString {[RequestIDHeader := [(requestIDPrefix ++ uuid_String (uuid7 9))%string]]} ∅ EmptyString
  (mkHttpContext None (mkContext None None)).
Definition runs_path : string := "/api/market-info/v1/ingestion-runs".
Definition all_server : ServerConfig * (string -> Handler Opened) :=
  match buildHTTPServer no_tasks no_statuses at_morning next_id all_config with
  | Ok s => s | _ => (mkServerConfig EmptyString 0 0 0 0, fun _ writer _ => mret writer) end.
Lemma all_server_built : buildHTTPServer no_tasks no_statuses at_morning next_id all_config = Ok (fst all_server, snd all_server).
Proof. reflexivity. Qed.
Definition refused_run : result ResponseWriter * Opened := snd all_server runs_path new_response list_runs (0, 0).
Lemma management_needs_token_witness : exists response, fst refused_run = Ok response /\ rw_Status response = Some 401.
Proof.
  destruct (management_needs_token no_tasks no_statuses at_morning next_id all_config (fst all_server) (snd all_server) runs_path
    ("GET " ++ ingestionRunsPath)%string list_runs (0, 0) (fst refused_run) (snd refused_run) all_server_built) as [H _].
  - do 4 right. left. reflexivity.
  - intros E. apply (f_equal is_nil) in E. vm_compute in E. discriminate E.
  - reflexivity.
  - intros token Ht. exfalso. apply (f_equal is_ok) in Ht. vm_compute in Ht. discriminate Ht.
  - apply surjective_pairing.
  - assert (is_ok (fst refused_run) = true) as Hok by (vm_compute; reflexivity). destruct (fst refused_run) as [response|e|]; [| discriminate Hok..].
    exists response. split; [reflexivity |]. destruct (H response eq_refl) as [H'|[_ H']]; [exact H' | vm_compute in H'; discriminate H'].
Defined.
